(* ===== verification/_CoqProject ===== *)
-Q . S2P
Prelude.v
Instructions.v
Words.v
Vm.v
VmLaws.v
Cost.v
EvmStack.v
EvmMemory.v
Gasometer.v
GasometerProofs.v
JumpDests.v
Interpreter.v
EvmControlFlow.v
EvmAlu.v
EvmCopy.v
EvmSteps.v
InterpreterSafety.v
FakeExt.v
EvmWorld.v
EvmTheorems.v
RlpStream.v
RlpEncoding.v
RlpDecode.v
RlpDecoding.v
RlpViews.v
RlpImpls.v
RlpCodecs.v
RlpCanonical.v
RlpTheorems.v
Account.v
AccountCodec.v
State.v
StateSpec.v
StateReads.v
StateWorld.v
StateWrites.v
StateOps.v
StateTheorems.v
Nibbles.v
HashDb.v
AccountDb.v
Trie.v
TrieNode.v
TrieDb.v
TrieDbMut.v
TrieRep.v
TrieSteps.v
TrieInsert.v
TrieRemove.v
TrieCommit.v
TrieHash.v
TrieMaps.v
TrieRefine.v
TrieIter.v
TrieFactory.v
TrieWorld.v
TrieTheorems.v
StateDb.v
AccountCommit.v
DatabaseTheorems.v
Substate.v
Builtin.v
EthMachine.v
Transaction.v
Executive.v
TransactionCodec.v
Ledger.v
LedgerState.v
ExternalitiesLaws.v
ExecutiveLaws.v
TransactLaws.v
ChainTheorems.v
ExecutiveTheorems.v
TxPool.v
TxPoolSets.v
TxPoolInv.v
TxPoolOps.v
TxPoolCull.v
TxPoolPending.v
TxPoolTheorems.v
