(* ===== verification/Prelude.v ===== *)
(** * A verification of parts of the Parity Ethereum client

    The repository is an Ethereum client in Rust.  The development models six
    of its subsystems completely enough to state what makes them correct, and
    the interfaces through which the rest of the client uses them:

    - the Ethereum virtual machine ([src/ethcore/evm] over the interface crate
      [src/ethcore/vm]), which runs contract code under a gas limit;
    - the RLP library ([src/util/rlp]), the serialisation of everything the
      client hashes, stores and sends;
    - the state of all accounts ([src/ethcore/src/state]), an overlay with
      checkpoints over the trie that stores them;
    - the Merkle-Patricia tries ([src/util/patricia_trie], [src/util/triehash])
      that hold the state, over reference-counted databases
      ([src/util/hashdb], [src/util/memorydb], [src/ethcore/src/account_db.rs]);
    - the execution of transactions ([src/ethcore/src/executive.rs],
      [externalities.rs]), which runs the virtual machine on the state under the
      rules of a chain ([machine.rs], [spec.rs], [builtin.rs]);
    - the transaction pool ([src/transaction-pool]), which orders the pending
      transactions of many senders within fixed limits.

    They meet in interfaces.  The interpreter is proved against the laws of
    [Ext] ([ExtLaws]); the externalities of the executive are shown to keep them,
    by induction on the depth of nested calls, over a state that is proved
    against the laws of its database and backend; the tries and account
    databases are shown to keep those of the database ([HashDB], [db_complete]),
    and are themselves proved against the laws of a store of nodes
    ([HashStoreLaws]), which [MemoryDB] keeps.  Encoders and decoders of
    accounts, addresses and transactions are instances of [Codec].

    ** Conventions

    Machine integers are [Z] with their width written out ([in_u], [wrap]); the
    checked operators of Rust ([add_chk], [sub_chk], [mul_chk]) panic on
    overflow, and [usize] is 64 bits wide.  Fallible code returns an
    [outcome]: [Ok], [Err] or [Panic], so that a theorem that code does not
    panic covers indexes, slices, [expect], assertions and arithmetic.  Code
    that mutates returns the new state, next to an error as well where the
    caller can observe it.  Byte strings are [list Z] with [is_bytes].  Loops
    that are not structural take fuel; running out of fuel is an outcome of its
    own or a panic, and the theorems exclude it.

    ** The files

    [Prelude] holds outcomes, machine integers, slices, the predicate
    transformer [wpp] and the lemmas and tactics all files share.

    The virtual machine:
    - [Instructions]: [evm/src/instructions.rs], the opcodes and the table.
    - [Words]: the operations of [U256] the interpreter uses.
    - [Vm], [VmLaws]: the crate [vm]: errors, action parameters, schedules and
      the trait [Ext] as a class, with the laws a client of [Ext] relies on.
    - [Cost]: [evm/src/evm.rs], the trait [CostType] and its instances [usize]
      and [U256].
    - [EvmStack], [EvmMemory]: [interpreter/stack.rs], [interpreter/memory.rs].
    - [Gasometer], [GasometerProofs]: [interpreter/gasometer.rs].
    - [JumpDests]: [interpreter/shared_cache.rs].
    - [Interpreter]: [interpreter/mod.rs], every instruction and the loop
      [exec], a state monad over memory, code reader, stack and externalities.
    - [EvmControlFlow], [EvmAlu], [EvmCopy], [EvmSteps], [InterpreterSafety]:
      the lemmas about them.
    - [FakeExt], [EvmWorld]: [vm/src/tests.rs], the test double, and a total
      instance of the laws built on it.
    - [EvmTheorems]: the results.

    RLP:
    - [RlpStream]: [stream.rs], [traits.rs] and [lib.rs]; [RlpEncoding]: the
      reference encoding of a tree and its refinement by the stream.
    - [RlpDecode]: [untrusted_rlp.rs], [error.rs] and [rlpin.rs]; [RlpDecoding],
      [RlpViews]: headers, elements and the two interior caches of a view.
    - [RlpImpls]: [impls.rs] and [vm/src/call_type.rs]; [RlpCodecs],
      [RlpCanonical]: the interfaces [Codec] and [SafeDecoder], their
      instances, and the uniqueness of encodings.
    - [RlpTheorems]: the results.

    The state:
    - [Account]: [state/account.rs] and [basic_account.rs]; [AccountCodec]: its
      form in the trie, by the RLP codecs.
    - [State]: [state/mod.rs] and the trait [Backend] of [state/backend.rs].
    - [StateSpec]: the abstract state, a function from addresses to accounts
      with saved copies, the laws of the database, of the shared cache and of
      the LRU cache, the relation between the two, and the backend without
      caches.
    - [StateReads], [StateWrites], [StateOps]: every operation simulates its
      abstract counterpart; [StateWorld]: an instance of the laws, with a
      shared cache.
    - [StateTheorems]: the results, and three examples where caches show.

    Tries and databases:
    - [Nibbles]: [nibbleslice.rs] and [nibblevec.rs], keys as lists of nibbles and
      the hex-prefix notation.
    - [HashDb]: [hashdb/src/lib.rs] as a class with laws, and
      [memorydb/src/lib.rs]; [AccountDb]: [account_db.rs].
    - [Trie]: trees as the reference for all trie code, their normal form and its
      uniqueness; [TrieNode]: [node.rs], the reference encoding of a tree, and
      the code's decoder and encoder of one level.
    - [TrieDb]: [lookup.rs], [triedb.rs], [recorder.rs], [sectriedb.rs] and the
      traits of [lib.rs]; [TrieIter]: the iterator of [triedb.rs];
      [TrieFactory]: [fatdb.rs], [fatdbmut.rs] and [TrieFactory] of [lib.rs].
    - [TrieDbMut]: [triedbmut.rs] and [sectriedbmut.rs], a state and error monad
      over the arena of nodes, the handle of the root, the death row and the
      database.
    - [TrieRep]: what an arena with handles stands for, and which references it
      holds in the database; [TrieSteps], [TrieInsert], [TrieRemove],
      [TrieCommit]: the effect of each operation on the tree and the counts.
    - [TrieHash]: [triehash/src/lib.rs]; [TrieMaps], [TrieRefine]: tries as
      finite maps, sequences of operations, recorded proofs.
    - [StateDb]: the interface of the state implemented by tries and account
      databases; [AccountCommit]: [commit_storage] and [commit_code] of
      [state/account.rs].
    - [TrieWorld]: small tries with a hash function to compute with;
      [TrieTheorems], [DatabaseTheorems]: the results, and five examples of
      surprising behaviour.

    Execution:
    - [Substate]: [state/substate.rs]; [Builtin]: [builtin.rs], [BytesRef] of
      [util/bytes] and the checks of [ethkey/src/signature.rs]; [EthMachine]:
      [machine.rs] and [spec/spec.rs]; [Transaction]:
      [ethcore/transaction/src/transaction.rs], and the checks of it in
      [machine.rs].
    - [Executive]: [executive.rs], [externalities.rs], [executed.rs] and
      [evm/src/factory.rs].  [ext_of levels] is the implementation of [Ext] that
      can still nest [levels] calls, a structural recursion.
    - [TransactionCodec]: the wire form of transactions, contract addresses.
    - [Ledger]: all accounts together, their invariant and how execution may
      change them; [LedgerState]: the same for a state that stands for them.
    - [ExternalitiesLaws], [ExecutiveLaws]: the laws of [Ext], calls and
      creations; [TransactLaws]: transactions.
    - [ChainTheorems], [ExecutiveTheorems]: the results, with a small chain on
      which everything is run.

    The transaction pool:
    - [TxPool]: [pool.rs], [transactions.rs], [scoring.rs], [ready.rs],
      [options.rs], [status.rs], [error.rs] and [listener.rs].
    - [TxPoolSets], [TxPoolInv], [TxPoolOps], [TxPoolCull], [TxPoolPending]: the
      sets of one sender, the invariant, and the effect of each operation.
    - [TxPoolTheorems]: the results.

    ** What the theorems show

    The conditions of each theorem are stated with it and collected below, under
    parameters and assumptions; where the code behaves differently outside of
    them, an example next to the theorem shows how.

    Execution (C1 to C6).  A transaction is refused for the reasons the
    specification [verdict] lists, without effect, except where the sum that is
    compared with the block's gas limit overflows and panics
    ([huge_gas_panics]); otherwise, with less than 2^64 gas, it ends with a
    receipt, whatever its code does: gas is paid for first, a failure keeps
    nothing but that charge, what is left is returned, and no ether appears.
    Calls and creations at any depth end without a panic or an internal error,
    undo everything if they fail, and change nothing in a static context.  All of
    this is for chains without WebAssembly at blocks before EIP-210, and the
    settlement of transactions for backends without a shared account cache.

    The virtual machine (C7 to C15).  For every code, input, schedule and
    lawful world, execution terminates without a panic and never creates gas;
    the loop keeps its machine well formed, its memory paid for and its program
    counter on instruction boundaries; every instruction has the stack effect
    the table announces; jumps and arithmetic are those of the reference
    definitions ([gas_provided_all_but_one_64th] and [memory_charge] say the same
    of gas for sub-calls and memory).  With the [U256] cost type one memory
    request panics, which C14 proves.

    Tries (C16 to C20).  A mutable trie answers any sequence of operations as a
    finite map does, whatever part of it is in memory, and every root it commits
    is the one [trie_root] computes from the entries alone; what it commits can
    be looked up and iterated in order; [trie_root], written independently,
    computes the root of a trie built by insertion, for entries whose values are
    not empty ([empty_value_root] shows the difference otherwise); the nodes
    recorded by a lookup prove its answer; nodes survive their encoding.

    The database of the state (C21 to C23).  A database with the tries of a state
    meets everything the theorems on [State] assume; committing an account puts
    its storage changes over its trie; the views of different accounts do not
    disturb each other.

    RLP (C24 to C28).  The stream computes the reference encoding at any point
    of any stream; encodings are unique and prefix-free; the offset cache of a
    view cannot be observed, except at the index [usize::MAX]
    ([largest_index_is_the_list]); typed encoders and decoders are inverse and
    total.
    Further results of the file: parsing never leaves its slice, and integers
    have one encoding.

    The transaction pool (C29 to C33).  With at least one transaction allowed per
    sender ([rejected_sender_is_counted] shows the pool with none), every sequence
    of operations keeps the
    five collections consistent and within the limits; import, removal and
    culling hold exactly the transactions they should and tell the listener so;
    the pending iterator ends, respects the order of every sender and, if all
    transactions are ready, forgets none.

    The state (C34, C35).  With its three levels of caches and its undo
    records, it implements a function from addresses to accounts with a stack
    of saved copies; reverting a checkpoint undoes what was done since, if no
    account was removed and contracts were created only where the database has no
    storage ([kill_is_not_reverted], [reverted_contract_leaves_storage]).  An
    account survives its trip through the trie ([account_roundtrip]).

    The chain's rules (C36 to C40).  The gas limit of a new block stays within
    the protocol's bounds; signed transactions survive the wire and are accepted
    by the chain they were signed for only; modular exponentiation is that of the
    integers, and every built-in without elliptic curves is priced and total.
    Every schedule is one execution can work with ([schedule_typed]).

    ** Bounds and fuel

    [exec] takes (gas + 1) * (code length + 1) rounds: a round consumes gas or
    moves the program counter, and a jump costs gas.  The executive starts at
    [ext_of (max_depth)]: a call one level deeper has one level less left, and
    the interpreter calls only below [max_depth].  Square and multiply takes as
    many rounds as the exponent has bits.  The iterator of a view
    takes one round per byte, since every element has at least one.  Making
    room in the pool takes one round per transaction, since every round removes
    one, and so does collecting the pending iterator, which yields none twice.
    Lookups in a trie take one round per nibble of the key ([key_fuel]);
    insertion and removal at most three calls per nibble, and repairing a branch
    one more ([op_fuel]); a commit one level per slot of the arena; [trie_root]
    one level per nibble of the longest key.  The iterator and [collect] take any
    fuel above a number of rounds that exists for every trie.  Keys are below
    2^29 bytes and values below [bound] = 2^30, so that all lengths can be
    written.
    RLP payloads are below 4 GiB, the range of the length the stream can write.
    The pool's limits are below 2^63 bytes and 2^64 - 1 transactions.

    ** Parameters and assumptions

    [keccak] is a function argument.  [U256], [H256] and the LRU cache come
    from external crates: the integers have the fixed-width semantics their
    documentation states, the cache is an interface whose only law is that it
    invents no entry.  [BTreeSet], [HashMap] and [Vec] are sorted lists, finite
    maps and lists.  The scoring of a pool satisfies [ScoringLaws]: scores
    and the transactions of a sender are totally ordered, and [choose] does not
    keep two transactions for one slot; the scoring of the tests and the one the
    documentation describes do.  The options of a pool ([options_ok]) allow at
    least one transaction per sender, memory use is below 2^63, and a transaction
    enters with an insertion identifier that no held one has.  The database of
    the state is complete and its code determined by its hash, its shared cache
    answers with accounts of the database only, and its filter claims only
    absent accounts to be null; contracts are created where there was no
    storage, accounts are removed outside checkpoints and, if they had storage,
    unknown to the shared cache.  Three examples show that these last
    conditions are needed.  Each group of
    laws has a concrete instance, used by the examples next to the theorems.

    Of the hash, the theorems on tries assume ([hash_ok]) words as values, the
    known hash of the empty node, and injectivity on a set of known byte strings
    that contains the nodes of the maps that are committed ([nodes_ok]) and of
    the database; no count of references may overflow 32 bits ([room]).  The
    reading of accounts through views assumes that values of the database are
    told apart by the first 96 bits of their keys ([prefixes_apart]), which views
    leave alone.

    Execution assumes ([chain_ok], [call_pre], [transact_pre]) a hash function
    with words as values, a chain without WebAssembly at a block more than 256
    blocks before EIP-210 (from then on [BLOCKHASH] runs a contract in a new
    executive, also in a static context), built-ins that are priced and total
    (proved for those without elliptic curves), the last 256 block hashes, gas
    below 2^64, accounts whose words are in range, whose ether fits one word and
    whose nonces do not wrap, transfers that the sender can pay, code only in
    accounts that exist, and, for the removals at the end of a transaction, a
    backend without shared accounts ([Basic]; not the client's [StateDB]).  SHA-256, RIPEMD-160, the recovery of public keys and the curve of
    the pairing built-ins are parameters.  A memory beyond 2^63 bytes panics
    ([Vec]); the gas of a [usize] machine cannot pay for it.  After a database
    error, which a complete database excludes, the set of touched accounts is
    the one before the call.  What the queries of running code add to the caches
    of the state is not kept; the state stands for the same accounts either way.

    ** Not modelled

    Logging, formatting and JSON conversions; tracers, which the executive is
    modelled with in the variant that records nothing; the thread that deep
    executions move to, which runs the same function; the JIT and the
    WebAssembly machine, which wrap external libraries; the decoder of
    [String], which needs a UTF-8 validator; the compression of RLP.  Of the
    state: the loop of [commit] over all accounts, the propagation to the shared
    cache, the wrappers that collect proofs and the conversion to plain accounts.
    Of the tries: the dump of a trie as text; fat tries are modelled but have no
    refinement theorem, since the keys they keep are not stored under their own
    hash.  Of the machine: system calls, block
    rewards, the DAO fork and the loading of a specification.  Journalled
    databases and key-value stores, consensus engines, block import, the miner
    and its older queue are not modelled.
    Networking, RPC, key storage, user interfaces and process start-up are input
    and output around external libraries. *)
From stdpp Require Import base list list_numbers numbers gmap strings.

#[global] Open Scope Z_scope.

(** ** Outcomes of Rust code

    A fallible Rust function returns [Ok], returns [Err], or panics (an index
    or slice out of range, an [unwrap]/[expect] on the wrong variant, a failed
    [assert!], an arithmetic overflow of a checked operator). *)
Inductive outcome (E A : Type) : Type :=
  | Ok (a : A)
  | Err (e : E)
  | Panic.
Arguments Ok {E A} a.
Arguments Err {E A} e.
Arguments Panic {E A}.

#[global] Instance outcome_ret {E} : MRet (outcome E) := fun A a => Ok a.
#[global] Instance outcome_bind {E} : MBind (outcome E) :=
  fun A B f m => match m with Ok a => f a | Err e => Err e | Panic => Panic end.
#[global] Instance outcome_fmap {E} : FMap (outcome E) :=
  fun A B f m => match m with Ok a => Ok (f a) | Err e => Err e | Panic => Panic end.

(** [wpp P m Q R]: an [Ok] value of [m] satisfies [Q], an error satisfies [R]
    and a panic is possible only if [P] holds; [wp] excludes panics. *)
Definition wpp {E A} (P : Prop) (m : outcome E A) (Q : A -> Prop) (R : E -> Prop) : Prop :=
  match m with Ok a => Q a | Err e => R e | Panic => P end.
Abbreviation wp := (wpp False).

(** The weakest error postcondition. *)
Definition any {A : Type} (_ : A) : Prop := True.

(** ** Machine integers

    A [w]-bit unsigned integer is a [Z] in [0, 2^w).  [usize] is 64 bits wide. *)
Definition in_u (w x : Z) : Prop := 0 <= x < 2 ^ w.
Definition wrap (w x : Z) : Z := x mod 2 ^ w.

Abbreviation is_usize := (in_u 64).
Abbreviation is_u256 := (in_u 256).

(** Rust's checked operators at width [w]: overflow is a panic. *)
Definition add_chk {E} (w a b : Z) : outcome E Z :=
  if a + b <? 2 ^ w then Ok (a + b) else Panic.
Definition sub_chk {E} (a b : Z) : outcome E Z :=
  if b <=? a then Ok (a - b) else Panic.
Definition mul_chk {E} (w a b : Z) : outcome E Z :=
  if a * b <? 2 ^ w then Ok (a * b) else Panic.

(** [overflowing_add] and friends: the wrapped value and the overflow flag. *)
Definition overflowing_add (w a b : Z) : Z * bool := (wrap w (a + b), 2 ^ w <=? a + b).
Definition overflowing_sub (w a b : Z) : Z * bool := (wrap w (a - b), a <? b).
Definition overflowing_mul (w a b : Z) : Z * bool := (wrap w (a * b), 2 ^ w <=? a * b).

(** ** Byte strings and slices *)
Abbreviation bytes := (list Z).

Definition len {A} (l : list A) : Z := Z.of_nat (length l).

(** [&l[a..b]] *)
Definition slice {E A} (l : list A) (a b : Z) : outcome E (list A) :=
  if (0 <=? a) && (a <=? b) && (b <=? len l)
  then Ok (take (Z.to_nat (b - a)) (drop (Z.to_nat a) l)) else Panic.

(** [l[i]] *)
Definition index {E A} (l : list A) (i : Z) : outcome E A :=
  if 0 <=? i then match l !! Z.to_nat i with Some x => Ok x | None => Panic end else Panic.

(** [l[i] = x] *)
Definition index_set {E A} (l : list A) (i : Z) (x : A) : outcome E (list A) :=
  if (0 <=? i) && (i <? len l) then Ok (<[Z.to_nat i := x]> l) else Panic.

(** [l[a..a + s.len()].copy_from_slice(s)] *)
Definition splice {A} (l : list A) (a : Z) (s : list A) : list A :=
  take (Z.to_nat a) l ++ s ++ drop (Z.to_nat a + length s) l.
Definition copy_from_slice {E A} (l : list A) (a : Z) (s : list A) : outcome E (list A) :=
  if (0 <=? a) && (a + len s <=? len l) then Ok (splice l a s) else Panic.

(** Big-endian reading and writing of bytes. *)
Definition be_to_Z (l : bytes) : Z := fold_left (fun acc b => acc * 256 + b) l 0.
Fixpoint Z_to_be (n : nat) (z : Z) : bytes :=
  match n with
  | O => []
  | S n' => Z_to_be n' (z / 256) ++ [z mod 256]
  end.

Definition is_bytes (l : bytes) : Prop := Forall (in_u 8) l.


(** ** Automation *)

(** Turns boolean comparisons into propositions for [lia]. *)
Ltac b2p :=
  repeat match goal with
  | H : andb _ _ = true |- _ => apply andb_true_iff in H as [? ?]
  | H : orb _ _ = false |- _ => apply orb_false_iff in H as [? ?]
  | H : negb _ = true |- _ => apply negb_true_iff in H
  | H : negb _ = false |- _ => apply negb_false_iff in H
  | H : (_ <? _) = true |- _ => apply Z.ltb_lt in H
  | H : (_ <? _) = false |- _ => apply Z.ltb_ge in H
  | H : (_ <=? _) = true |- _ => apply Z.leb_le in H
  | H : (_ <=? _) = false |- _ => apply Z.leb_gt in H
  | H : (_ =? _) = true |- _ => apply Z.eqb_eq in H
  | H : (_ =? _) = false |- _ => apply Z.eqb_neq in H
  end.

(** Splits the goal on every [if] it contains. *)
Ltac if_cases :=
  repeat match goal with
  | |- context [if ?b then _ else _] => destruct b eqn:?
  end.

(** Inverts [m ≫= f = Ok b] and the like, step by step. *)
Ltac inv_ok :=
  repeat match goal with
  | H : Ok _ = Ok _ |- _ => injection H as H; subst
  | H : Err _ = Err _ |- _ => injection H as H; subst
  | H : Ok _ = Err _ |- _ => discriminate H
  | H : Err _ = Ok _ |- _ => discriminate H
  | H : Panic = _ |- _ => discriminate H
  | H : _ = Panic |- _ => discriminate H
  | H : mbind _ ?m = Ok _ |- _ =>
      let E := fresh "E" in destruct m eqn:E; cbn [mbind outcome_bind] in H; try discriminate H
  end.

Create HintDb outcome.
Create HintDb words.
Create Rewrite HintDb len.

(** ** Lemmas on outcomes *)
Section outcome_lemmas.
Context {E A B : Type}.
Implicit Types (m : outcome E A) (f : A -> outcome E B).

Lemma wp_bind P m f Q R : wpp P m (fun a => wpp P (f a) Q R) R -> wpp P (m ≫= f) Q R.
Proof. by destruct m. Qed.

Lemma wp_mono P m (Q Q' : A -> Prop) (R R' : E -> Prop) :
  wpp P m Q R -> (forall a, Q a -> Q' a) -> (forall e, R e -> R' e) -> wpp P m Q' R'.
Proof. destruct m; simpl; auto. Qed.

Lemma wp_post P m (Q Q' : A -> Prop) (R : E -> Prop) :
  wpp P m Q R -> (forall a, Q a -> Q' a) -> wpp P m Q' R.
Proof. intros Hm HQ. by eapply wp_mono. Qed.

Lemma wp_weaken (P : Prop) m Q R : wp m Q R -> wpp P m Q R.
Proof. by destruct m. Qed.

Lemma wp_ok P m Q R a : wpp P m Q R -> m = Ok a -> Q a.
Proof. by intros H ->. Qed.

Lemma wp_no_panic m Q R : wp m Q R -> m <> Panic.
Proof. by destruct m. Qed.

Lemma bind_ok m f b : m ≫= f = Ok b <-> exists a, m = Ok a /\ f a = Ok b.
Proof.
  destruct m as [a|e|]; split; try done; [by eauto|by intros (? & [= ->] & ?)|by intros (? & ? & ?)..].
Qed.
End outcome_lemmas.

(** ** Lemmas on machine integers *)
Lemma in_u_le w w' x : w <= w' -> in_u w x -> in_u w' x.
Proof.
  intros Hw [H0 H1]. split; [lia|].
  apply Z.lt_le_trans with (2 ^ w); [lia|]. apply Z.pow_le_mono_r; lia.
Qed.

Lemma wrap_in_u w x : 0 <= w -> in_u w (wrap w x).
Proof. intros. apply Z.mod_pos_bound. apply Z.pow_pos_nonneg; lia. Qed.

Lemma wrap_small w x : in_u w x -> wrap w x = x.
Proof. apply Z.mod_small. Qed.

Lemma in_u_0 w : 0 <= w -> in_u w 0.
Proof. intros. split; [lia|]. apply Z.pow_pos_nonneg; lia. Qed.

Lemma in_u_1 w : 0 < w -> in_u w 1.
Proof. intros. split; [lia|]. by apply Z.pow_gt_1. Qed.

Lemma add_chk_ok {E} w a b : a + b < 2 ^ w -> @add_chk E w a b = Ok (a + b).
Proof. unfold add_chk. intros ?%Z.ltb_lt. by rewrite H. Qed.
Lemma sub_chk_ok {E} a b : b <= a -> @sub_chk E a b = Ok (a - b).
Proof. unfold sub_chk. intros ?%Z.leb_le. by rewrite H. Qed.
Lemma mul_chk_ok {E} w a b : a * b < 2 ^ w -> @mul_chk E w a b = Ok (a * b).
Proof. unfold mul_chk. intros ?%Z.ltb_lt. by rewrite H. Qed.

#[export] Hint Resolve wrap_in_u in_u_0 in_u_1 : words.

(** ** Lemmas on lists and slices *)
Lemma len_nonneg {A} (l : list A) : 0 <= len l.
Proof. unfold len. lia. Qed.
Lemma len_nil {A} : len (@nil A) = 0.
Proof. done. Qed.
Lemma len_cons {A} (x : A) l : len (x :: l) = 1 + len l.
Proof. unfold len. cbn [length]. lia. Qed.
Lemma len_app {A} (l1 l2 : list A) : len (l1 ++ l2) = len l1 + len l2.
Proof. unfold len. rewrite length_app. lia. Qed.
Lemma len_replicate {A} n (x : A) : len (replicate n x) = Z.of_nat n.
Proof. unfold len. by rewrite length_replicate. Qed.
Lemma len_reverse {A} (l : list A) : len (reverse l) = len l.
Proof. unfold len. by rewrite length_reverse. Qed.
Lemma len_take {A} (l : list A) n : 0 <= n <= len l -> len (take (Z.to_nat n) l) = n.
Proof. unfold len. intros. rewrite length_take. lia. Qed.
Lemma len_drop {A} (l : list A) n : 0 <= n <= len l -> len (drop (Z.to_nat n) l) = len l - n.
Proof. unfold len. intros. rewrite length_drop. lia. Qed.

#[export] Hint Rewrite @len_nil @len_cons @len_app @len_replicate @len_reverse : len.

Section slices.
Context {E A : Type}.
Implicit Types l s : list A.

Lemma slice_ok l a b :
  0 <= a <= b -> b <= len l ->
  @slice E A l a b = Ok (take (Z.to_nat (b - a)) (drop (Z.to_nat a) l)).
Proof.
  intros. unfold slice.
  by rewrite !(proj2 (Z.leb_le _ _)) by lia.
Qed.

Lemma slice_inv l a b s :
  @slice E A l a b = Ok s ->
  0 <= a <= b /\ b <= len l /\ s = take (Z.to_nat (b - a)) (drop (Z.to_nat a) l).
Proof. unfold slice. case_match; intros; [|done]. b2p. inv_ok. auto with lia. Qed.

Lemma slice_len l a b s : @slice E A l a b = Ok s -> len s = b - a.
Proof.
  intros (H1 & H2 & ->)%slice_inv. unfold len in *.
  rewrite length_take, length_drop. lia.
Qed.

Lemma index_ok l i x : 0 <= i -> l !! Z.to_nat i = Some x -> @index E A l i = Ok x.
Proof. unfold index. intros ?%Z.leb_le Hl. by rewrite H, Hl. Qed.

Lemma index_exists l i : 0 <= i < len l -> exists x, l !! Z.to_nat i = Some x /\ @index E A l i = Ok x.
Proof.
  unfold len. intros [H1 H2].
  destruct (lookup_lt_is_Some_2 l (Z.to_nat i)) as [x Hx]; [lia|].
  exists x. split; [done|]. by apply index_ok.
Qed.

Lemma index_set_ok l i x :
  0 <= i < len l -> @index_set E A l i x = Ok (<[Z.to_nat i := x]> l).
Proof.
  intros. unfold index_set. by rewrite (proj2 (Z.leb_le _ _)), (proj2 (Z.ltb_lt _ _)) by lia.
Qed.

Lemma len_insert l i x : len (<[i := x]> l) = len l.
Proof. unfold len. by rewrite length_insert. Qed.

Lemma len_splice l a s : 0 <= a -> a + len s <= len l -> len (splice l a s) = len l.
Proof.
  unfold splice, len. intros. rewrite !length_app, length_take, length_drop. lia.
Qed.

Lemma copy_from_slice_ok l a s :
  0 <= a -> a + len s <= len l -> @copy_from_slice E A l a s = Ok (splice l a s).
Proof. intros. unfold copy_from_slice. by rewrite !(proj2 (Z.leb_le _ _)) by lia. Qed.

Lemma splice_lookup l a s i :
  0 <= a -> a + len s <= len l ->
  splice l a s !! i =
    if decide (Z.to_nat a <= i < Z.to_nat a + length s)%nat then s !! (i - Z.to_nat a)%nat
    else l !! i.
Proof.
  unfold splice, len. intros Ha Hs.
  destruct (decide (i < Z.to_nat a)%nat).
  { rewrite lookup_app_l by (rewrite length_take; lia).
    rewrite lookup_take_lt by lia. by rewrite decide_False by lia. }
  rewrite lookup_app_r by (rewrite length_take; lia).
  rewrite length_take, Nat.min_l by lia.
  destruct (decide (i - Z.to_nat a < length s)%nat).
  { rewrite lookup_app_l by lia. by rewrite decide_True by lia. }
  rewrite lookup_app_r by lia. rewrite lookup_drop, decide_False by lia. f_equal; lia.
Qed.

Lemma Forall_splice (P : A -> Prop) l a s : Forall P l -> Forall P s -> Forall P (splice l a s).
Proof. intros. unfold splice. by repeat apply Forall_app_2; try apply Forall_take; try apply Forall_drop. Qed.

Lemma slice_Forall (P : A -> Prop) l a b s : Forall P l -> @slice E A l a b = Ok s -> Forall P s.
Proof. intros ? (_ & _ & ->)%slice_inv. by apply Forall_take, Forall_drop. Qed.
End slices.

(** ** Big-endian integers *)
Lemma be_to_Z_acc l a : fold_left (fun acc b => acc * 256 + b) l a = a * 256 ^ len l + be_to_Z l.
Proof.
  unfold be_to_Z. revert a. induction l as [|x l IH]; intros a; cbn [fold_left].
  { unfold len. simpl. lia. }
  rewrite (IH (a * 256 + x)), (IH (0 * 256 + x)), len_cons, Z.pow_add_r by (pose proof (len_nonneg l); lia).
  lia.
Qed.

Lemma be_to_Z_cons x l : be_to_Z (x :: l) = x * 256 ^ len l + be_to_Z l.
Proof. unfold be_to_Z at 1. cbn [fold_left]. rewrite be_to_Z_acc. lia. Qed.

Lemma be_to_Z_app l1 l2 : be_to_Z (l1 ++ l2) = be_to_Z l1 * 256 ^ len l2 + be_to_Z l2.
Proof. unfold be_to_Z at 1. by rewrite fold_left_app, be_to_Z_acc. Qed.

Lemma be_to_Z_bound l : is_bytes l -> 0 <= be_to_Z l < 256 ^ len l.
Proof.
  induction 1 as [|x l [Hx1 Hx2] Hl IH].
  { by vm_compute. }
  rewrite be_to_Z_cons, len_cons, Z.pow_add_r by (pose proof (len_nonneg l); lia).
  change (2 ^ 8) with 256 in Hx2. nia.
Qed.

Lemma length_Z_to_be n z : length (Z_to_be n z) = n.
Proof. revert z. induction n as [|n IH]; intros z; simpl; [done|]. rewrite length_app, IH. simpl. lia. Qed.

Lemma len_Z_to_be n z : len (Z_to_be n z) = Z.of_nat n.
Proof. unfold len. by rewrite length_Z_to_be. Qed.

Lemma Z_to_be_bytes n z : is_bytes (Z_to_be n z).
Proof.
  revert z. induction n as [|n IH]; intros z; simpl; [constructor|].
  apply Forall_app_2; [apply IH|]. constructor; [|constructor].
  change (2 ^ 8) with 256. pose proof (Z.mod_pos_bound z 256). split; simpl; lia.
Qed.

Lemma be_to_Z_to_be n z : be_to_Z (Z_to_be n z) = z mod 256 ^ Z.of_nat n.
Proof.
  revert z. induction n as [|n IH]; intros z; cbn [Z_to_be].
  { by rewrite Z.mod_1_r. }
  rewrite be_to_Z_app, IH, be_to_Z_cons. change (len (@nil Z)) with 0.
  change (be_to_Z []) with 0. change (len [z mod 256]) with 1.
  rewrite Nat2Z.inj_succ, Z.pow_succ_r by lia.
  rewrite Z.rem_mul_r by lia. lia.
Qed.

Lemma Z_to_be_to_Z l : is_bytes l -> Z_to_be (length l) (be_to_Z l) = l.
Proof.
  induction l as [|x l IH] using rev_ind; [done|].
  intros [Hl Hx]%Forall_app. inversion Hx as [|? ? [Hx1 Hx2] _]; subst.
  change (2 ^ 8) with 256 in Hx2.
  rewrite length_app, Nat.add_comm. simpl.
  rewrite be_to_Z_app, be_to_Z_cons. change (len [x]) with 1. change (be_to_Z []) with 0.
  change (len (@nil Z)) with 0. rewrite Z.pow_1_r, Z.pow_0_r, Z.mul_1_r, Z.add_0_r.
  rewrite Z.div_add_l, Z.div_small, Z.add_0_r by lia.
  rewrite IH by done. f_equal. f_equal.
  rewrite Z.add_comm, Z.mod_add by lia. apply Z.mod_small. lia.
Qed.

#[export] Hint Resolve Z_to_be_bytes : words.
