(* ===== verification/Instructions.v ===== *)
(** * EVM instruction set

    The opcodes, the static instruction table and the helper functions of
    [ethcore/evm/src/instructions.rs].  An [Instruction] is a [u8]; every
    constant keeps its source name.  The table is the 256-entry array the
    source fills in place, starting from the default (invalid) entry. *)
From stdpp Require Import base list numbers strings.
From S2P Require Import Prelude.

(** ** Opcodes *)
Abbreviation Instruction := Z.

Definition STOP : Instruction := 0x00.
Definition ADD : Instruction := 0x01.
Definition MUL : Instruction := 0x02.
Definition SUB : Instruction := 0x03.
Definition DIV : Instruction := 0x04.
Definition SDIV : Instruction := 0x05.
Definition MOD : Instruction := 0x06.
Definition SMOD : Instruction := 0x07.
Definition ADDMOD : Instruction := 0x08.
Definition MULMOD : Instruction := 0x09.
Definition EXP : Instruction := 0x0a.
Definition SIGNEXTEND : Instruction := 0x0b.
Definition LT : Instruction := 0x10.
Definition GT : Instruction := 0x11.
Definition SLT : Instruction := 0x12.
Definition SGT : Instruction := 0x13.
Definition EQ : Instruction := 0x14.
Definition ISZERO : Instruction := 0x15.
Definition AND : Instruction := 0x16.
Definition OR : Instruction := 0x17.
Definition XOR : Instruction := 0x18.
Definition NOT : Instruction := 0x19.
Definition BYTE : Instruction := 0x1a.
Definition SHA3 : Instruction := 0x20.
Definition ADDRESS : Instruction := 0x30.
Definition BALANCE : Instruction := 0x31.
Definition ORIGIN : Instruction := 0x32.
Definition CALLER : Instruction := 0x33.
Definition CALLVALUE : Instruction := 0x34.
Definition CALLDATALOAD : Instruction := 0x35.
Definition CALLDATASIZE : Instruction := 0x36.
Definition CALLDATACOPY : Instruction := 0x37.
Definition CODESIZE : Instruction := 0x38.
Definition CODECOPY : Instruction := 0x39.
Definition GASPRICE : Instruction := 0x3a.
Definition EXTCODESIZE : Instruction := 0x3b.
Definition EXTCODECOPY : Instruction := 0x3c.
Definition RETURNDATASIZE : Instruction := 0x3d.
Definition RETURNDATACOPY : Instruction := 0x3e.
Definition BLOCKHASH : Instruction := 0x40.
Definition COINBASE : Instruction := 0x41.
Definition TIMESTAMP : Instruction := 0x42.
Definition NUMBER : Instruction := 0x43.
Definition DIFFICULTY : Instruction := 0x44.
Definition GASLIMIT : Instruction := 0x45.
Definition POP : Instruction := 0x50.
Definition MLOAD : Instruction := 0x51.
Definition MSTORE : Instruction := 0x52.
Definition MSTORE8 : Instruction := 0x53.
Definition SLOAD : Instruction := 0x54.
Definition SSTORE : Instruction := 0x55.
Definition JUMP : Instruction := 0x56.
Definition JUMPI : Instruction := 0x57.
Definition PC : Instruction := 0x58.
Definition MSIZE : Instruction := 0x59.
Definition GAS : Instruction := 0x5a.
Definition JUMPDEST : Instruction := 0x5b.
Definition PUSH1 : Instruction := 0x60.
Definition PUSH2 : Instruction := 0x61.
Definition PUSH3 : Instruction := 0x62.
Definition PUSH4 : Instruction := 0x63.
Definition PUSH5 : Instruction := 0x64.
Definition PUSH6 : Instruction := 0x65.
Definition PUSH7 : Instruction := 0x66.
Definition PUSH8 : Instruction := 0x67.
Definition PUSH9 : Instruction := 0x68.
Definition PUSH10 : Instruction := 0x69.
Definition PUSH11 : Instruction := 0x6a.
Definition PUSH12 : Instruction := 0x6b.
Definition PUSH13 : Instruction := 0x6c.
Definition PUSH14 : Instruction := 0x6d.
Definition PUSH15 : Instruction := 0x6e.
Definition PUSH16 : Instruction := 0x6f.
Definition PUSH17 : Instruction := 0x70.
Definition PUSH18 : Instruction := 0x71.
Definition PUSH19 : Instruction := 0x72.
Definition PUSH20 : Instruction := 0x73.
Definition PUSH21 : Instruction := 0x74.
Definition PUSH22 : Instruction := 0x75.
Definition PUSH23 : Instruction := 0x76.
Definition PUSH24 : Instruction := 0x77.
Definition PUSH25 : Instruction := 0x78.
Definition PUSH26 : Instruction := 0x79.
Definition PUSH27 : Instruction := 0x7a.
Definition PUSH28 : Instruction := 0x7b.
Definition PUSH29 : Instruction := 0x7c.
Definition PUSH30 : Instruction := 0x7d.
Definition PUSH31 : Instruction := 0x7e.
Definition PUSH32 : Instruction := 0x7f.
Definition DUP1 : Instruction := 0x80.
Definition DUP2 : Instruction := 0x81.
Definition DUP3 : Instruction := 0x82.
Definition DUP4 : Instruction := 0x83.
Definition DUP5 : Instruction := 0x84.
Definition DUP6 : Instruction := 0x85.
Definition DUP7 : Instruction := 0x86.
Definition DUP8 : Instruction := 0x87.
Definition DUP9 : Instruction := 0x88.
Definition DUP10 : Instruction := 0x89.
Definition DUP11 : Instruction := 0x8a.
Definition DUP12 : Instruction := 0x8b.
Definition DUP13 : Instruction := 0x8c.
Definition DUP14 : Instruction := 0x8d.
Definition DUP15 : Instruction := 0x8e.
Definition DUP16 : Instruction := 0x8f.
Definition SWAP1 : Instruction := 0x90.
Definition SWAP2 : Instruction := 0x91.
Definition SWAP3 : Instruction := 0x92.
Definition SWAP4 : Instruction := 0x93.
Definition SWAP5 : Instruction := 0x94.
Definition SWAP6 : Instruction := 0x95.
Definition SWAP7 : Instruction := 0x96.
Definition SWAP8 : Instruction := 0x97.
Definition SWAP9 : Instruction := 0x98.
Definition SWAP10 : Instruction := 0x99.
Definition SWAP11 : Instruction := 0x9a.
Definition SWAP12 : Instruction := 0x9b.
Definition SWAP13 : Instruction := 0x9c.
Definition SWAP14 : Instruction := 0x9d.
Definition SWAP15 : Instruction := 0x9e.
Definition SWAP16 : Instruction := 0x9f.
Definition LOG0 : Instruction := 0xa0.
Definition LOG1 : Instruction := 0xa1.
Definition LOG2 : Instruction := 0xa2.
Definition LOG3 : Instruction := 0xa3.
Definition LOG4 : Instruction := 0xa4.
Definition MAX_NO_OF_TOPICS : Z := 4.
Definition CREATE : Instruction := 0xf0.
Definition CALL : Instruction := 0xf1.
Definition CALLCODE : Instruction := 0xf2.
Definition RETURN : Instruction := 0xf3.
Definition DELEGATECALL : Instruction := 0xf4.
Definition CREATE2 : Instruction := 0xfb.
Definition REVERT : Instruction := 0xfd.
Definition STATICCALL : Instruction := 0xfa.
Definition SUICIDE : Instruction := 0xff.

(** ** Operand helpers *)
Definition is_push (i : Instruction) : bool := (PUSH1 <=? i) && (i <=? PUSH32).

Definition get_push_bytes {E} (i : Instruction) : outcome E Z :=
  if is_push i then Ok (i - PUSH1 + 1) else Panic.

Definition push_bytes {E} (i : Instruction) : outcome E Z :=
  if is_push i then get_push_bytes i else Ok 0.

Definition get_dup_position {E} (i : Instruction) : outcome E Z :=
  if (DUP1 <=? i) && (i <=? DUP16) then Ok (i - DUP1) else Panic.

Definition get_swap_position {E} (i : Instruction) : outcome E Z :=
  if (SWAP1 <=? i) && (i <=? SWAP16) then Ok (i - SWAP1 + 1) else Panic.

Definition get_log_topics {E} (i : Instruction) : outcome E Z :=
  if (LOG0 <=? i) && (i <=? LOG4) then Ok (i - LOG0) else Panic.

(** ** Gas tiers and instruction information *)
Inductive GasPriceTier : Type :=
  | Zero | Base | VeryLow | Low | Mid | High | Ext | Special | Invalid.

#[global] Instance GasPriceTier_eq_dec : EqDecision GasPriceTier.
Proof. solve_decision. Defined.

Definition get_tier_idx (tier : GasPriceTier) : Z :=
  match tier with
  | Zero => 0 | Base => 1 | VeryLow => 2 | Low => 3 | Mid => 4
  | High => 5 | Ext => 6 | Special => 7 | Invalid => 8
  end.

Record InstructionInfo := mkInfo {
  name : string;
  args : Z;
  ret : Z;
  tier : GasPriceTier;
}.

Definition InstructionInfo_new (n : string) (a r : Z) (t : GasPriceTier) : InstructionInfo :=
  mkInfo n a r t.

Definition InstructionInfo_default : InstructionInfo := mkInfo EmptyString 0 0 Invalid.

Definition INSTRUCTION_ENTRIES : list (Instruction * InstructionInfo) :=
  [
    (STOP, InstructionInfo_new "STOP" 0 0 Zero);
    (ADD, InstructionInfo_new "ADD" 2 1 VeryLow);
    (SUB, InstructionInfo_new "SUB" 2 1 VeryLow);
    (MUL, InstructionInfo_new "MUL" 2 1 Low);
    (DIV, InstructionInfo_new "DIV" 2 1 Low);
    (SDIV, InstructionInfo_new "SDIV" 2 1 Low);
    (MOD, InstructionInfo_new "MOD" 2 1 Low);
    (SMOD, InstructionInfo_new "SMOD" 2 1 Low);
    (EXP, InstructionInfo_new "EXP" 2 1 Special);
    (NOT, InstructionInfo_new "NOT" 1 1 VeryLow);
    (LT, InstructionInfo_new "LT" 2 1 VeryLow);
    (GT, InstructionInfo_new "GT" 2 1 VeryLow);
    (SLT, InstructionInfo_new "SLT" 2 1 VeryLow);
    (SGT, InstructionInfo_new "SGT" 2 1 VeryLow);
    (EQ, InstructionInfo_new "EQ" 2 1 VeryLow);
    (ISZERO, InstructionInfo_new "ISZERO" 1 1 VeryLow);
    (AND, InstructionInfo_new "AND" 2 1 VeryLow);
    (OR, InstructionInfo_new "OR" 2 1 VeryLow);
    (XOR, InstructionInfo_new "XOR" 2 1 VeryLow);
    (BYTE, InstructionInfo_new "BYTE" 2 1 VeryLow);
    (ADDMOD, InstructionInfo_new "ADDMOD" 3 1 Mid);
    (MULMOD, InstructionInfo_new "MULMOD" 3 1 Mid);
    (SIGNEXTEND, InstructionInfo_new "SIGNEXTEND" 2 1 Low);
    (RETURNDATASIZE, InstructionInfo_new "RETURNDATASIZE" 0 1 Base);
    (RETURNDATACOPY, InstructionInfo_new "RETURNDATACOPY" 3 0 VeryLow);
    (SHA3, InstructionInfo_new "SHA3" 2 1 Special);
    (ADDRESS, InstructionInfo_new "ADDRESS" 0 1 Base);
    (BALANCE, InstructionInfo_new "BALANCE" 1 1 Special);
    (ORIGIN, InstructionInfo_new "ORIGIN" 0 1 Base);
    (CALLER, InstructionInfo_new "CALLER" 0 1 Base);
    (CALLVALUE, InstructionInfo_new "CALLVALUE" 0 1 Base);
    (CALLDATALOAD, InstructionInfo_new "CALLDATALOAD" 1 1 VeryLow);
    (CALLDATASIZE, InstructionInfo_new "CALLDATASIZE" 0 1 Base);
    (CALLDATACOPY, InstructionInfo_new "CALLDATACOPY" 3 0 VeryLow);
    (CODESIZE, InstructionInfo_new "CODESIZE" 0 1 Base);
    (CODECOPY, InstructionInfo_new "CODECOPY" 3 0 VeryLow);
    (GASPRICE, InstructionInfo_new "GASPRICE" 0 1 Base);
    (EXTCODESIZE, InstructionInfo_new "EXTCODESIZE" 1 1 Special);
    (EXTCODECOPY, InstructionInfo_new "EXTCODECOPY" 4 0 Special);
    (BLOCKHASH, InstructionInfo_new "BLOCKHASH" 1 1 Ext);
    (COINBASE, InstructionInfo_new "COINBASE" 0 1 Base);
    (TIMESTAMP, InstructionInfo_new "TIMESTAMP" 0 1 Base);
    (NUMBER, InstructionInfo_new "NUMBER" 0 1 Base);
    (DIFFICULTY, InstructionInfo_new "DIFFICULTY" 0 1 Base);
    (GASLIMIT, InstructionInfo_new "GASLIMIT" 0 1 Base);
    (POP, InstructionInfo_new "POP" 1 0 Base);
    (MLOAD, InstructionInfo_new "MLOAD" 1 1 VeryLow);
    (MSTORE, InstructionInfo_new "MSTORE" 2 0 VeryLow);
    (MSTORE8, InstructionInfo_new "MSTORE8" 2 0 VeryLow);
    (SLOAD, InstructionInfo_new "SLOAD" 1 1 Special);
    (SSTORE, InstructionInfo_new "SSTORE" 2 0 Special);
    (JUMP, InstructionInfo_new "JUMP" 1 0 Mid);
    (JUMPI, InstructionInfo_new "JUMPI" 2 0 High);
    (PC, InstructionInfo_new "PC" 0 1 Base);
    (MSIZE, InstructionInfo_new "MSIZE" 0 1 Base);
    (GAS, InstructionInfo_new "GAS" 0 1 Base);
    (JUMPDEST, InstructionInfo_new "JUMPDEST" 0 0 Special);
    (PUSH1, InstructionInfo_new "PUSH1" 0 1 VeryLow);
    (PUSH2, InstructionInfo_new "PUSH2" 0 1 VeryLow);
    (PUSH3, InstructionInfo_new "PUSH3" 0 1 VeryLow);
    (PUSH4, InstructionInfo_new "PUSH4" 0 1 VeryLow);
    (PUSH5, InstructionInfo_new "PUSH5" 0 1 VeryLow);
    (PUSH6, InstructionInfo_new "PUSH6" 0 1 VeryLow);
    (PUSH7, InstructionInfo_new "PUSH7" 0 1 VeryLow);
    (PUSH8, InstructionInfo_new "PUSH8" 0 1 VeryLow);
    (PUSH9, InstructionInfo_new "PUSH9" 0 1 VeryLow);
    (PUSH10, InstructionInfo_new "PUSH10" 0 1 VeryLow);
    (PUSH11, InstructionInfo_new "PUSH11" 0 1 VeryLow);
    (PUSH12, InstructionInfo_new "PUSH12" 0 1 VeryLow);
    (PUSH13, InstructionInfo_new "PUSH13" 0 1 VeryLow);
    (PUSH14, InstructionInfo_new "PUSH14" 0 1 VeryLow);
    (PUSH15, InstructionInfo_new "PUSH15" 0 1 VeryLow);
    (PUSH16, InstructionInfo_new "PUSH16" 0 1 VeryLow);
    (PUSH17, InstructionInfo_new "PUSH17" 0 1 VeryLow);
    (PUSH18, InstructionInfo_new "PUSH18" 0 1 VeryLow);
    (PUSH19, InstructionInfo_new "PUSH19" 0 1 VeryLow);
    (PUSH20, InstructionInfo_new "PUSH20" 0 1 VeryLow);
    (PUSH21, InstructionInfo_new "PUSH21" 0 1 VeryLow);
    (PUSH22, InstructionInfo_new "PUSH22" 0 1 VeryLow);
    (PUSH23, InstructionInfo_new "PUSH23" 0 1 VeryLow);
    (PUSH24, InstructionInfo_new "PUSH24" 0 1 VeryLow);
    (PUSH25, InstructionInfo_new "PUSH25" 0 1 VeryLow);
    (PUSH26, InstructionInfo_new "PUSH26" 0 1 VeryLow);
    (PUSH27, InstructionInfo_new "PUSH27" 0 1 VeryLow);
    (PUSH28, InstructionInfo_new "PUSH28" 0 1 VeryLow);
    (PUSH29, InstructionInfo_new "PUSH29" 0 1 VeryLow);
    (PUSH30, InstructionInfo_new "PUSH30" 0 1 VeryLow);
    (PUSH31, InstructionInfo_new "PUSH31" 0 1 VeryLow);
    (PUSH32, InstructionInfo_new "PUSH32" 0 1 VeryLow);
    (DUP1, InstructionInfo_new "DUP1" 1 2 VeryLow);
    (DUP2, InstructionInfo_new "DUP2" 2 3 VeryLow);
    (DUP3, InstructionInfo_new "DUP3" 3 4 VeryLow);
    (DUP4, InstructionInfo_new "DUP4" 4 5 VeryLow);
    (DUP5, InstructionInfo_new "DUP5" 5 6 VeryLow);
    (DUP6, InstructionInfo_new "DUP6" 6 7 VeryLow);
    (DUP7, InstructionInfo_new "DUP7" 7 8 VeryLow);
    (DUP8, InstructionInfo_new "DUP8" 8 9 VeryLow);
    (DUP9, InstructionInfo_new "DUP9" 9 10 VeryLow);
    (DUP10, InstructionInfo_new "DUP10" 10 11 VeryLow);
    (DUP11, InstructionInfo_new "DUP11" 11 12 VeryLow);
    (DUP12, InstructionInfo_new "DUP12" 12 13 VeryLow);
    (DUP13, InstructionInfo_new "DUP13" 13 14 VeryLow);
    (DUP14, InstructionInfo_new "DUP14" 14 15 VeryLow);
    (DUP15, InstructionInfo_new "DUP15" 15 16 VeryLow);
    (DUP16, InstructionInfo_new "DUP16" 16 17 VeryLow);
    (SWAP1, InstructionInfo_new "SWAP1" 2 2 VeryLow);
    (SWAP2, InstructionInfo_new "SWAP2" 3 3 VeryLow);
    (SWAP3, InstructionInfo_new "SWAP3" 4 4 VeryLow);
    (SWAP4, InstructionInfo_new "SWAP4" 5 5 VeryLow);
    (SWAP5, InstructionInfo_new "SWAP5" 6 6 VeryLow);
    (SWAP6, InstructionInfo_new "SWAP6" 7 7 VeryLow);
    (SWAP7, InstructionInfo_new "SWAP7" 8 8 VeryLow);
    (SWAP8, InstructionInfo_new "SWAP8" 9 9 VeryLow);
    (SWAP9, InstructionInfo_new "SWAP9" 10 10 VeryLow);
    (SWAP10, InstructionInfo_new "SWAP10" 11 11 VeryLow);
    (SWAP11, InstructionInfo_new "SWAP11" 12 12 VeryLow);
    (SWAP12, InstructionInfo_new "SWAP12" 13 13 VeryLow);
    (SWAP13, InstructionInfo_new "SWAP13" 14 14 VeryLow);
    (SWAP14, InstructionInfo_new "SWAP14" 15 15 VeryLow);
    (SWAP15, InstructionInfo_new "SWAP15" 16 16 VeryLow);
    (SWAP16, InstructionInfo_new "SWAP16" 17 17 VeryLow);
    (LOG0, InstructionInfo_new "LOG0" 2 0 Special);
    (LOG1, InstructionInfo_new "LOG1" 3 0 Special);
    (LOG2, InstructionInfo_new "LOG2" 4 0 Special);
    (LOG3, InstructionInfo_new "LOG3" 5 0 Special);
    (LOG4, InstructionInfo_new "LOG4" 6 0 Special);
    (CREATE, InstructionInfo_new "CREATE" 3 1 Special);
    (CALL, InstructionInfo_new "CALL" 7 1 Special);
    (CALLCODE, InstructionInfo_new "CALLCODE" 7 1 Special);
    (RETURN, InstructionInfo_new "RETURN" 2 0 Zero);
    (DELEGATECALL, InstructionInfo_new "DELEGATECALL" 6 1 Special);
    (STATICCALL, InstructionInfo_new "STATICCALL" 6 1 Special);
    (SUICIDE, InstructionInfo_new "SUICIDE" 1 0 Special);
    (CREATE2, InstructionInfo_new "CREATE2" 3 1 Special);
    (REVERT, InstructionInfo_new "REVERT" 2 0 Zero)
  ].

Definition INSTRUCTIONS : list InstructionInfo :=
  Eval vm_compute in
  fold_left (fun arr '(i, info) => <[Z.to_nat i := info]> arr) INSTRUCTION_ENTRIES
            (replicate 256 InstructionInfo_default).
