(* ===== verification/Words.v ===== *)
(** * 256-bit words

    The operations on [U256] the interpreter uses.  A [U256] is a [Z] in
    [0, 2^256); its operators follow the fixed-width unsigned semantics the
    type documents (wrapping [overflowing_*], bitwise operators, shifts that
    drop bits).  [H256] is represented by the same 256-bit integer, read
    big-endian, and [Address] by an integer in [0, 2^160).  [set_sign],
    [get_and_reset_sign], [u256_to_address] and [address_to_u256] are the free
    functions at the end of [ethcore/evm/src/interpreter/mod.rs]. *)
From Stdlib Require Import Zpow_facts.
From stdpp Require Import base list numbers.
From S2P Require Import Prelude.

Abbreviation U256 := Z (only parsing).
Abbreviation H256 := Z (only parsing).
Abbreviation Address := Z (only parsing).

Definition MAX_U256 : Z := 2 ^ 256 - 1.

(** [!x] *)
Definition u256_not (x : U256) : U256 := Z.lxor x MAX_U256.
(** [x << n], [x >> n] *)
Definition u256_shl (x n : Z) : U256 := wrap 256 (Z.shiftl x n).
Definition u256_shr (x n : Z) : U256 := Z.shiftr x n.
(** [x.low_u64()] *)
Definition low_u64 (x : U256) : Z := wrap 64 x.
(** [x.bit(i)] *)
Definition u256_bit (x i : Z) : bool := Z.testbit x i.
(** [x.bits()]: the position of the highest set bit, plus one. *)
Definition u256_bits (x : U256) : Z := if x =? 0 then 0 else Z.log2 x + 1.
(** [x.saturating_add(y)] *)
Definition u256_saturating_add (x y : U256) : U256 := Z.min (x + y) MAX_U256.

(** [x.overflowing_pow(e).0], by repeated squaring. *)
Fixpoint pow_pos_wrap (b : Z) (e : positive) : Z :=
  match e with
  | xH => wrap 256 b
  | xO e' => pow_pos_wrap (wrap 256 (b * b)) e'
  | xI e' => wrap 256 (b * pow_pos_wrap (wrap 256 (b * b)) e')
  end.
Definition u256_overflowing_pow (b e : U256) : U256 :=
  match e with Zpos p => pow_pos_wrap b p | _ => 1 end.

(** [U256::from(&bytes[..])]: big-endian, at most 32 bytes. *)
Definition u256_from_slice {E} (l : bytes) : outcome E U256 :=
  if len l <=? 32 then Ok (be_to_Z l) else Panic.

(** ** Sign handling of the signed instructions *)
Definition set_sign (value : U256) (sign : bool) : U256 :=
  if sign then fst (overflowing_add 256 (Z.lxor (u256_not 0) value) 1) else value.

(** [arr[3].leading_zeros() == 0]: the top bit of the most significant limb. *)
Definition get_and_reset_sign (value : U256) : U256 * bool :=
  let sign := u256_bit value 255 in
  (set_sign value sign, sign).

(** ** Addresses *)
Definition u256_to_address (value : U256) : Address := wrap 160 value.
Definition address_to_u256 (value : Address) : U256 := value.

(** ** Two's-complement reading *)
Definition to_signed (x : U256) : Z := if x <? 2 ^ 255 then x else x - 2 ^ 256.

(** ** Lemmas *)
Lemma pow_pos_wrap_spec b e : pow_pos_wrap b e = wrap 256 (b ^ Z.pos e).
Proof.
  revert b. induction e as [e IH|e IH|]; intros b; cbn [pow_pos_wrap]; unfold wrap in *.
  - rewrite IH, (Pos2Z.inj_xI e), <-Zpower_mod by lia.
    rewrite Z.pow_add_r, Z.pow_1_r, Z.pow_mul_r, Z.pow_2_r by lia.
    rewrite Zmult_mod_idemp_r. f_equal. lia.
  - rewrite IH, (Pos2Z.inj_xO e), <-Zpower_mod by lia.
    by rewrite Z.pow_mul_r, Z.pow_2_r by lia.
  - by rewrite Z.pow_1_r.
Qed.

Lemma u256_overflowing_pow_spec b e :
  0 <= e -> u256_overflowing_pow b e = wrap 256 (b ^ e).
Proof.
  intros. destruct e; [by vm_compute|apply pow_pos_wrap_spec|lia].
Qed.

(** A bit at or above the width is clear. *)
Lemma testbit_high w x i : in_u w x -> 0 <= w <= i -> Z.testbit x i = false.
Proof.
  intros [H0 H1] Hi. rewrite <-(Z.mod_small x (2 ^ w)) by lia.
  apply Z.mod_pow2_bits_high. lia.
Qed.

Lemma u256_not_spec x : is_u256 x -> u256_not x = MAX_U256 - x.
Proof.
  intros Hx. unfold u256_not.
  assert (x + Z.lxor x MAX_U256 = MAX_U256); [|lia].
  rewrite Z.add_nocarry_lxor.
  - by rewrite <-Z.lxor_assoc, Z.lxor_nilpotent, Z.lxor_0_l.
  - apply Z.bits_inj'. intros i Hi. rewrite Z.land_spec, Z.lxor_spec, Z.bits_0.
    change MAX_U256 with (Z.ones 256). rewrite Z.testbit_ones_nonneg by lia.
    destruct (Z.ltb_spec i 256); [by destruct (Z.testbit x i)|].
    by rewrite (testbit_high 256) by (auto; lia).
Qed.

Lemma u256_not_in_u x : is_u256 x -> is_u256 (u256_not x).
Proof. intros Hx. rewrite u256_not_spec by done. unfold in_u, MAX_U256 in *. lia. Qed.

Lemma set_sign_spec x s : is_u256 x -> set_sign x s = if s then wrap 256 (- x) else x.
Proof.
  intros Hx. unfold set_sign. destruct s; [|done].
  rewrite Z.lxor_comm. change (u256_not 0) with MAX_U256.
  change (Z.lxor x MAX_U256) with (u256_not x). rewrite u256_not_spec by done.
  unfold overflowing_add, MAX_U256, wrap. cbn [fst].
  replace (2 ^ 256 - 1 - x + 1) with (- x + 1 * 2 ^ 256) by lia.
  by rewrite Z.mod_add by lia.
Qed.

Lemma sign_bit x : is_u256 x -> u256_bit x 255 = negb (x <? 2 ^ 255).
Proof.
  intros Hx. unfold u256_bit. rewrite Z.testbit_eqb by lia.
  destruct (Z.ltb_spec x (2 ^ 255)); simpl.
  - by rewrite Z.div_small by (unfold in_u in Hx; lia).
  - replace (x / 2 ^ 255) with 1; [done|].
    apply Z.div_unique with (x - 2 ^ 255); unfold in_u in Hx; lia.
Qed.

(** [get_and_reset_sign] splits a word into the absolute value and the sign of
    its two's-complement reading. *)
Lemma get_and_reset_sign_spec x :
  is_u256 x -> get_and_reset_sign x = (Z.abs (to_signed x), to_signed x <? 0).
Proof.
  intros Hx. unfold get_and_reset_sign. rewrite set_sign_spec, sign_bit by done.
  unfold to_signed, wrap, in_u in *.
  destruct (Z.ltb_spec x (2 ^ 255)); cbn [negb]; f_equal.
  - lia.
  - symmetry. apply Z.ltb_ge. lia.
  - rewrite <-(Z.mod_add _ 1), Z.mod_small by lia. lia.
  - symmetry. apply Z.ltb_lt. lia.
Qed.

Lemma to_signed_bound x : is_u256 x -> - 2 ^ 255 <= to_signed x < 2 ^ 255.
Proof. unfold to_signed, in_u. destruct (Z.ltb_spec x (2 ^ 255)); lia. Qed.

Lemma wrap_to_signed x : is_u256 x -> wrap 256 (to_signed x) = x.
Proof.
  intros Hx. unfold to_signed, wrap, in_u in *. destruct (Z.ltb_spec x (2 ^ 255)).
  - apply Z.mod_small. lia.
  - rewrite <-(Z.mod_add _ 1), Z.mod_small by lia. lia.
Qed.

Lemma bits_in_u w x : 0 <= w -> 0 <= x -> (forall i, w <= i -> Z.testbit x i = false) -> in_u w x.
Proof.
  intros Hw Hx Hb. split; [done|].
  destruct (Z.eq_dec x 0) as [->|]; [apply Z.pow_pos_nonneg; lia|].
  apply Z.log2_lt_pow2; [lia|].
  destruct (Z.lt_ge_cases (Z.log2 x) w); [done|].
  specialize (Hb (Z.log2 x)). rewrite Z.bit_log2 in Hb by lia. discriminate Hb; lia.
Qed.

Section bitwise_bounds.
Variables (w x y : Z).
Hypotheses (Hw : 0 <= w) (Hx : in_u w x) (Hy : in_u w y).

Lemma land_in_u : in_u w (Z.land x y).
Proof.
  apply bits_in_u; [done|apply Z.land_nonneg; destruct Hx; auto|].
  intros i Hi. rewrite Z.land_spec. by rewrite (testbit_high w x).
Qed.
Lemma lor_in_u : in_u w (Z.lor x y).
Proof.
  apply bits_in_u; [done|apply Z.lor_nonneg; destruct Hx, Hy; auto|].
  intros i Hi. rewrite Z.lor_spec. by rewrite (testbit_high w x), (testbit_high w y).
Qed.
Lemma lxor_in_u : in_u w (Z.lxor x y).
Proof.
  apply bits_in_u; [done|apply Z.lxor_nonneg; destruct Hx, Hy; tauto|].
  intros i Hi. rewrite Z.lxor_spec. by rewrite (testbit_high w x), (testbit_high w y).
Qed.
End bitwise_bounds.

Lemma shiftr_in_u w x n : in_u w x -> 0 <= n -> in_u w (Z.shiftr x n).
Proof.
  intros [H0 H1] Hn. rewrite Z.shiftr_div_pow2 by done.
  assert (0 < 2 ^ n) by (apply Z.pow_pos_nonneg; lia). split.
  - apply Z.div_pos; lia.
  - apply Z.le_lt_trans with x; [|done]. apply Z.div_le_upper_bound; nia.
Qed.

Lemma set_sign_in_u x s : is_u256 x -> is_u256 (set_sign x s).
Proof. intros. rewrite set_sign_spec by done. destruct s; auto with words lia. Qed.

Lemma low_u64_in_u x : is_usize (low_u64 x).
Proof. by apply wrap_in_u. Qed.

Lemma low_u64_small x : is_usize x -> low_u64 x = x.
Proof. apply wrap_small. Qed.

Lemma u256_to_address_in_u x : in_u 160 (u256_to_address x).
Proof. by apply wrap_in_u. Qed.

Lemma u256_bits_bound x : is_u256 x -> 0 <= u256_bits x <= 256.
Proof.
  intros [H0 H1]. unfold u256_bits. destruct (Z.eqb_spec x 0); [lia|].
  assert (Z.log2 x < 256) by (apply Z.log2_lt_pow2; lia). pose proof (Z.log2_nonneg x). lia.
Qed.

#[export] Hint Resolve land_in_u lor_in_u lxor_in_u shiftr_in_u set_sign_in_u u256_not_in_u
  low_u64_in_u : words.
