(* ===== verification/Vm.v ===== *)
(** * The VM interface crate ([ethcore/vm])

    Errors, action parameters, environment, return data, the cost schedule and
    the [Ext] trait: the interface through which an EVM reaches the rest of the
    client.  [Ext] is a class of operations over a state type [X]; a method on
    [&mut self] returns the new state, also next to an error, as does [ret], which
    consumes it, and every method may panic.  [ExtLaws] states what the interpreter relies on. *)
From stdpp Require Import base list numbers strings.
From S2P Require Import Prelude Words.

(** ** Errors ([error.rs]) *)
Inductive Error : Type :=
  | OutOfGas
  | BadJumpDestination (destination : Z)
  | BadInstruction (instruction : Z)
  | StackUnderflow (instruction : string) (wanted on_stack : Z)
  | OutOfStack (instruction : string) (wanted limit : Z)
  | BuiltIn (name : string)
  | MutableCallInStaticContext
  | Internal (msg : string)
  | Wasm (msg : string)
  | OutOfBounds
  | Reverted.

#[global] Instance Error_eq_dec : EqDecision Error.
Proof. solve_decision. Defined.

(** ** Action parameters ([action_params.rs], [call_type.rs]) *)
Inductive ActionValue : Type := Transfer (v : U256) | Apparent (v : U256).
Inductive ParamsType : Type := Embedded | Separate.
Inductive CallType : Type := CT_None | CT_Call | CT_CallCode | CT_DelegateCall | CT_StaticCall.

Definition action_value (v : ActionValue) : U256 :=
  match v with Transfer x | Apparent x => x end.

Record ActionParams := mkParams {
  code_address : Address;
  code_hash : option H256;
  address : Address;
  sender : Address;
  origin : Address;
  gas : U256;
  gas_price : U256;
  value : ActionValue;
  code : option bytes;
  data : option bytes;
  call_type : CallType;
  params_type : ParamsType;
}.

(** ** Environment ([env_info.rs]) *)
Record EnvInfo := mkEnv {
  number : Z;
  author : Address;
  timestamp : Z;
  difficulty : U256;
  gas_limit : U256;
  last_hashes : list H256;
  gas_used : U256;
}.

(** ** Return data ([return_data.rs]) *)
Record ReturnData := mkReturnData { rd_mem : bytes; rd_offset : Z; rd_size : Z }.

Definition ReturnData_empty : ReturnData := mkReturnData [] 0 0.
Definition ReturnData_new (mem : bytes) (offset size : Z) : ReturnData := mkReturnData mem offset size.
(** [Deref]: the viewed slice. *)
Definition rd_deref {E} (r : ReturnData) : outcome E bytes :=
  e ← add_chk 64 (rd_offset r) (rd_size r); slice (rd_mem r) (rd_offset r) e.

Inductive GasLeft : Type :=
  | Known (gas_left : U256)
  | NeedsReturn (gas_left : U256) (rdata : ReturnData) (apply_state : bool).

(** ** Results of sub-calls and the address scheme ([ext.rs]) *)
Inductive ContractCreateResult : Type :=
  | Created (a : Address) (gas_left : U256)
  | CreateFailed
  | CreateReverted (gas_left : U256) (d : ReturnData).
Inductive MessageCallResult : Type :=
  | Success (gas_left : U256) (d : ReturnData)
  | CallFailed
  | CallReverted (gas_left : U256) (d : ReturnData).
Inductive CreateContractAddress : Type :=
  | FromSenderAndNonce | FromCodeHash | FromSenderAndCodeHash.

(** ** Cost schedule ([schedule.rs]) *)
Record WasmCosts := mkWasmCosts {
  alloc : Z; div : Z; mul : Z; wmem : Z; mem_cmp : Z; mem_copy : Z; mem_move : Z; mem_set : Z;
  static_region : Z; static_u256 : Z; static_address : Z;
}.
Definition WasmCosts_default : WasmCosts := mkWasmCosts 2 16 4 2 1 1 1 1 1 64 40.

Inductive CleanDustMode : Type := DustOff | BasicOnly | WithCodeAndStorage.

Record Schedule := mkSchedule {
  exceptional_failed_code_deposit : bool;
  have_delegate_call : bool;
  have_create2 : bool;
  have_revert : bool;
  stack_limit : Z;
  max_depth : Z;
  tier_step_gas : list Z;
  exp_gas : Z;
  exp_byte_gas : Z;
  sha3_gas : Z;
  sha3_word_gas : Z;
  sload_gas : Z;
  sstore_set_gas : Z;
  sstore_reset_gas : Z;
  sstore_refund_gas : Z;
  jumpdest_gas : Z;
  log_gas : Z;
  log_data_gas : Z;
  log_topic_gas : Z;
  create_gas : Z;
  call_gas : Z;
  call_stipend : Z;
  call_value_transfer_gas : Z;
  call_new_account_gas : Z;
  suicide_refund_gas : Z;
  memory_gas : Z;
  quad_coeff_div : Z;
  create_data_gas : Z;
  create_data_limit : Z;
  tx_gas : Z;
  tx_create_gas : Z;
  tx_data_zero_gas : Z;
  tx_data_non_zero_gas : Z;
  copy_gas : Z;
  extcodesize_gas : Z;
  extcodecopy_base_gas : Z;
  balance_gas : Z;
  suicide_gas : Z;
  suicide_to_new_account_cost : Z;
  sub_gas_cap_divisor : option Z;
  no_empty : bool;
  kill_empty : bool;
  blockhash_gas : Z;
  have_static_call : bool;
  have_return_data : bool;
  kill_dust : CleanDustMode;
  eip86 : bool;
  wasm : WasmCosts;
}.

(** [Schedule::new] *)
Definition Schedule_new (efcd hdc : bool) (tcg : Z) : Schedule := {|
  exceptional_failed_code_deposit := efcd;
  have_delegate_call := hdc;
  have_create2 := false;
  have_revert := false;
  have_return_data := false;
  stack_limit := 1024;
  max_depth := 1024;
  tier_step_gas := [0; 2; 3; 5; 8; 10; 20; 0];
  exp_gas := 10;
  exp_byte_gas := 10;
  sha3_gas := 30;
  sha3_word_gas := 6;
  sload_gas := 50;
  sstore_set_gas := 20000;
  sstore_reset_gas := 5000;
  sstore_refund_gas := 15000;
  jumpdest_gas := 1;
  log_gas := 375;
  log_data_gas := 8;
  log_topic_gas := 375;
  create_gas := 32000;
  call_gas := 40;
  call_stipend := 2300;
  call_value_transfer_gas := 9000;
  call_new_account_gas := 25000;
  suicide_refund_gas := 24000;
  memory_gas := 3;
  quad_coeff_div := 512;
  create_data_gas := 200;
  create_data_limit := 2 ^ 64 - 1;
  tx_gas := 21000;
  tx_create_gas := tcg;
  tx_data_zero_gas := 4;
  tx_data_non_zero_gas := 68;
  copy_gas := 3;
  extcodesize_gas := 20;
  extcodecopy_base_gas := 20;
  balance_gas := 20;
  suicide_gas := 0;
  suicide_to_new_account_cost := 0;
  sub_gas_cap_divisor := None;
  no_empty := false;
  kill_empty := false;
  blockhash_gas := 20;
  have_static_call := false;
  kill_dust := DustOff;
  eip86 := false;
  wasm := WasmCosts_default;
|}.

Definition new_frontier : Schedule := Schedule_new false false 21000.
Definition new_homestead : Schedule := Schedule_new true true 53000.

Definition new_post_eip150 (max_code_size : Z) (fix_exp no_empty kill_empty : bool) : Schedule := {|
  exceptional_failed_code_deposit := true;
  have_delegate_call := true;
  have_create2 := false;
  have_revert := false;
  have_return_data := false;
  stack_limit := 1024;
  max_depth := 1024;
  tier_step_gas := [0; 2; 3; 5; 8; 10; 20; 0];
  exp_gas := 10;
  exp_byte_gas := if fix_exp then 50 else 10;
  sha3_gas := 30;
  sha3_word_gas := 6;
  sload_gas := 200;
  sstore_set_gas := 20000;
  sstore_reset_gas := 5000;
  sstore_refund_gas := 15000;
  jumpdest_gas := 1;
  log_gas := 375;
  log_data_gas := 8;
  log_topic_gas := 375;
  create_gas := 32000;
  call_gas := 700;
  call_stipend := 2300;
  call_value_transfer_gas := 9000;
  call_new_account_gas := 25000;
  suicide_refund_gas := 24000;
  memory_gas := 3;
  quad_coeff_div := 512;
  create_data_gas := 200;
  create_data_limit := max_code_size;
  tx_gas := 21000;
  tx_create_gas := 53000;
  tx_data_zero_gas := 4;
  tx_data_non_zero_gas := 68;
  copy_gas := 3;
  extcodesize_gas := 700;
  extcodecopy_base_gas := 700;
  balance_gas := 400;
  suicide_gas := 5000;
  suicide_to_new_account_cost := 25000;
  sub_gas_cap_divisor := Some 64;
  no_empty := no_empty;
  kill_empty := kill_empty;
  blockhash_gas := 20;
  have_static_call := false;
  kill_dust := DustOff;
  eip86 := false;
  wasm := WasmCosts_default;
|}.

(** [new_byzantium]: the post-EIP-150 schedule with four features switched on. *)
Definition new_byzantium : Schedule :=
  let s := new_post_eip150 24576 true true true in {|
  exceptional_failed_code_deposit := exceptional_failed_code_deposit s;
  have_delegate_call := have_delegate_call s;
  have_create2 := true;
  have_revert := true;
  have_return_data := true;
  stack_limit := stack_limit s;
  max_depth := max_depth s;
  tier_step_gas := tier_step_gas s;
  exp_gas := exp_gas s;
  exp_byte_gas := exp_byte_gas s;
  sha3_gas := sha3_gas s;
  sha3_word_gas := sha3_word_gas s;
  sload_gas := sload_gas s;
  sstore_set_gas := sstore_set_gas s;
  sstore_reset_gas := sstore_reset_gas s;
  sstore_refund_gas := sstore_refund_gas s;
  jumpdest_gas := jumpdest_gas s;
  log_gas := log_gas s;
  log_data_gas := log_data_gas s;
  log_topic_gas := log_topic_gas s;
  create_gas := create_gas s;
  call_gas := call_gas s;
  call_stipend := call_stipend s;
  call_value_transfer_gas := call_value_transfer_gas s;
  call_new_account_gas := call_new_account_gas s;
  suicide_refund_gas := suicide_refund_gas s;
  memory_gas := memory_gas s;
  quad_coeff_div := quad_coeff_div s;
  create_data_gas := create_data_gas s;
  create_data_limit := create_data_limit s;
  tx_gas := tx_gas s;
  tx_create_gas := tx_create_gas s;
  tx_data_zero_gas := tx_data_zero_gas s;
  tx_data_non_zero_gas := tx_data_non_zero_gas s;
  copy_gas := copy_gas s;
  extcodesize_gas := extcodesize_gas s;
  extcodecopy_base_gas := extcodecopy_base_gas s;
  balance_gas := balance_gas s;
  suicide_gas := suicide_gas s;
  suicide_to_new_account_cost := suicide_to_new_account_cost s;
  sub_gas_cap_divisor := sub_gas_cap_divisor s;
  no_empty := no_empty s;
  kill_empty := kill_empty s;
  blockhash_gas := blockhash_gas s;
  have_static_call := true;
  kill_dust := kill_dust s;
  eip86 := eip86 s;
  wasm := wasm s;
|}.

(** ** The [Ext] trait ([ext.rs]) *)
Class VmExt (X : Type) := {
  ext_storage_at : X -> H256 -> outcome Error H256;
  ext_set_storage : X -> H256 -> H256 -> outcome (Error * X) (unit * X);
  ext_exists : X -> Address -> outcome Error bool;
  ext_exists_and_not_null : X -> Address -> outcome Error bool;
  ext_origin_balance : X -> outcome Error U256;
  ext_balance : X -> Address -> outcome Error U256;
  ext_blockhash : X -> U256 -> option (H256 * X);
  ext_create : X -> U256 -> U256 -> bytes -> CreateContractAddress ->
    option (ContractCreateResult * X);
  ext_call : X -> U256 -> Address -> Address -> option U256 -> bytes -> Address -> bytes -> CallType ->
    option (MessageCallResult * bytes * X);
  ext_extcode : X -> Address -> outcome Error bytes;
  ext_extcodesize : X -> Address -> outcome Error Z;
  ext_log : X -> list H256 -> bytes -> outcome (Error * X) (unit * X);
  ext_ret : X -> U256 -> ReturnData -> bool -> outcome (Error * X) (U256 * X);
  ext_suicide : X -> Address -> outcome (Error * X) (unit * X);
  ext_schedule : X -> Schedule;
  ext_env_info : X -> EnvInfo;
  ext_depth : X -> Z;
  ext_inc_sstore_clears : X -> option X;
  ext_trace_next_instruction : X -> Z -> Z -> U256 -> option (bool * X);
  ext_trace_prepare_execute : X -> Z -> Z -> U256 -> option X;
  ext_trace_executed : X -> U256 -> list U256 -> option (Z * bytes) -> option (U256 * U256) -> option X;
  ext_is_static : X -> bool;
}.
