(* ===== verification/VmLaws.v ===== *)
(** * What the interpreter relies on

    Conditions on the cost schedule, met by every schedule the client builds,
    and the laws of the externalities: no method panics, returned values are in
    range, the schedule does not change during an execution, and a sub-call
    returns at most the gas it was given.

    What the externalities count (nonces, cleared storage slots) is paid for in
    gas: [ext_step n x x'] says that [x'] follows [x] with counters higher by at
    most [n], and [ext_room n x] that counters may still grow by [n].  A call
    moves the counters by at most the gas it uses. *)
From stdpp Require Import base list numbers.
From S2P Require Import Prelude Words Vm.

(** ** Schedules *)

(** A gas price: far below every overflow. *)
Definition price (x : Z) : bool := (0 <=? x) && (x <? 2 ^ 32).

Definition schedule_ok (s : Schedule) : bool :=
  (length (tier_step_gas s) =? 8)%nat && forallb price (tier_step_gas s) &&
  (1 <=? default 0 (tier_step_gas s !! 4%nat)) && (1 <=? default 0 (tier_step_gas s !! 5%nat)) &&
  (quad_coeff_div s =? 512) && price (memory_gas s) &&
  (0 <=? stack_limit s) && (stack_limit s <? 2 ^ 32) &&
  (0 <=? call_stipend s) && (call_stipend s <? call_value_transfer_gas s) &&
  (1 <=? create_gas s) && (1 <=? sstore_set_gas s) && (1 <=? sstore_reset_gas s) &&
  forallb price [exp_gas s; exp_byte_gas s; sha3_gas s; sha3_word_gas s; sload_gas s; sstore_set_gas s;
    sstore_reset_gas s; log_gas s; log_data_gas s; log_topic_gas s; create_gas s; call_gas s;
    call_value_transfer_gas s; call_new_account_gas s; copy_gas s; extcodesize_gas s; extcodecopy_base_gas s;
    balance_gas s; suicide_gas s; suicide_to_new_account_cost s; blockhash_gas s] &&
  (sha3_word_gas s <? 32) && (copy_gas s <? 32) &&
  match sub_gas_cap_divisor s with Some d => 0 <? d | None => true end.

Example schedule_ok_frontier : schedule_ok new_frontier = true.
Proof. reflexivity. Qed.
Example schedule_ok_homestead : schedule_ok new_homestead = true.
Proof. reflexivity. Qed.
Example schedule_ok_byzantium : schedule_ok new_byzantium = true.
Proof. reflexivity. Qed.
Lemma schedule_ok_post_eip150 max_code_size fix_exp no_empty kill_empty :
  schedule_ok (new_post_eip150 max_code_size fix_exp no_empty kill_empty) = true.
Proof. by destruct fix_exp. Qed.

(** The prices as propositions. *)
Record SchedulePrices (s : Schedule) : Prop := {
  sp_tiers : length (tier_step_gas s) = 8%nat;
  sp_tier i g : tier_step_gas s !! i = Some g -> 0 <= g < 2 ^ 32;
  sp_mid g : tier_step_gas s !! 4%nat = Some g -> 1 <= g;
  sp_high g : tier_step_gas s !! 5%nat = Some g -> 1 <= g;
  sp_quad : quad_coeff_div s = 512;
  sp_memory : 0 <= memory_gas s < 2 ^ 32;
  sp_limit : 0 <= stack_limit s < 2 ^ 32;
  sp_stipend : 0 <= call_stipend s < call_value_transfer_gas s;
  sp_exp : 0 <= exp_gas s < 2 ^ 32 /\ 0 <= exp_byte_gas s < 2 ^ 32;
  sp_sha3 : 0 <= sha3_gas s < 2 ^ 32 /\ 0 <= sha3_word_gas s < 32;
  sp_sload : 0 <= sload_gas s < 2 ^ 32;
  sp_sstore : 1 <= sstore_set_gas s < 2 ^ 32 /\ 1 <= sstore_reset_gas s < 2 ^ 32;
  sp_log : 0 <= log_gas s < 2 ^ 32 /\ 0 <= log_data_gas s < 2 ^ 32 /\ 0 <= log_topic_gas s < 2 ^ 32;
  sp_create : 1 <= create_gas s < 2 ^ 32;
  sp_call : 0 <= call_gas s < 2 ^ 32 /\ 0 <= call_value_transfer_gas s < 2 ^ 32 /\
            0 <= call_new_account_gas s < 2 ^ 32;
  sp_copy : 0 <= copy_gas s < 32;
  sp_ext : 0 <= extcodesize_gas s < 2 ^ 32 /\ 0 <= extcodecopy_base_gas s < 2 ^ 32 /\ 0 <= balance_gas s < 2 ^ 32;
  sp_suicide : 0 <= suicide_gas s < 2 ^ 32 /\ 0 <= suicide_to_new_account_cost s < 2 ^ 32;
  sp_blockhash : 0 <= blockhash_gas s < 2 ^ 32;
  sp_divisor d : sub_gas_cap_divisor s = Some d -> 0 < d;
}.

Lemma forallb_lookup {A} (f : A -> bool) l i x : forallb f l = true -> l !! i = Some x -> f x = true.
Proof. rewrite forallb_forall. intros Hf Hx. apply Hf. rewrite <-list_elem_of_In. by eapply list_elem_of_lookup_2. Qed.

Lemma price_spec x : price x = true -> 0 <= x < 2 ^ 32.
Proof. unfold price. intros. b2p. lia. Qed.

Lemma schedule_prices s : schedule_ok s = true -> SchedulePrices s.
Proof.
  unfold schedule_ok. cbn [forallb]. intros Hs.
  repeat (apply andb_true_iff in Hs as [Hs ?]).
  repeat match goal with H : _ && _ = true |- _ => apply andb_true_iff in H as [? ?] end.
  repeat match goal with H : price _ = true |- _ => apply price_spec in H end.
  apply Nat.eqb_eq in Hs. b2p.
  constructor; try done; try lia; try (repeat split; lia).
  - intros i g Hg. apply price_spec. by eapply forallb_lookup.
  - intros g Hg. rewrite Hg in *. simpl in *. lia.
  - intros g Hg. rewrite Hg in *. simpl in *. lia.
  - intros d Hd. rewrite Hd in *. by b2p.
Qed.

(** ** Externalities *)

(** A vector: at most [isize::MAX] bytes. *)
Definition vec_ok (l : bytes) : Prop := is_bytes l /\ len l < 2 ^ 63.

Definition rd_ok (r : ReturnData) : Prop := exists b, rd_deref (E := Error) r = Ok b /\ vec_ok b.

Definition create_result_ok (gas : Z) (r : ContractCreateResult) : Prop :=
  match r with
  | Created a g => in_u 160 a /\ 0 <= g <= gas
  | CreateFailed => True
  | CreateReverted g d => 0 <= g <= gas /\ rd_ok d
  end.
Definition call_result_ok (gas : Z) (r : MessageCallResult) : Prop :=
  match r with
  | Success g d | CallReverted g d => 0 <= g <= gas /\ rd_ok d
  | CallFailed => True
  end.

Definition env_ok (e : EnvInfo) : Prop :=
  is_u256 (number e) /\ in_u 160 (author e) /\ is_u256 (timestamp e) /\ is_u256 (difficulty e) /\
  is_u256 (gas_limit e).

(** The gas a sub-call hands back. *)
Definition create_returned (r : ContractCreateResult) : Z :=
  match r with Created _ g | CreateReverted g _ => g | CreateFailed => 0 end.
Definition call_returned (r : MessageCallResult) : Z :=
  match r with Success g _ | CallReverted g _ => g | CallFailed => 0 end.

(** Any error but [Internal], and that one only if [internal]. *)
Definition raised (internal : Prop) (e : Error) : Prop := match e with Internal _ => internal | _ => True end.

(** What an implementation of the externalities says about itself: its
    invariant, the account on whose behalf it runs, the room its counters have,
    the relation between its states, and whether it may report an internal
    error. *)
Class ExtSpec (X : Type) := {
  ext_ok : X -> Prop;
  ext_address : X -> Address;
  ext_room : Z -> X -> Prop;
  ext_step : Z -> X -> X -> Prop;
  ext_internal : Prop;
}.

(** A change that leaves the counters alone. *)
Definition ext_kept {X} `{ExtSpec X} : X -> X -> Prop := ext_step 0.

(** [v] can be taken from [sender], the running account. *)
Definition funded {X} `{VmExt X} `{ExtSpec X} (x : X) (sender : Address) (v : U256) : Prop :=
  sender = ext_address x /\ is_u256 v /\ (v = 0 \/ exists b, ext_balance x sender = Ok b /\ v <= b).

(** The arguments of the four call instructions: who sends, who receives, whose
    code runs and what value goes along. *)
Definition call_shape {X} `{VmExt X} `{ExtSpec X} (x : X) (sender receiver code_addr : Address) (value : option U256)
    (ct : CallType) : Prop :=
  match ct with
  | CT_Call => receiver = code_addr /\ exists v, value = Some v /\ funded x sender v
  | CT_CallCode => receiver = ext_address x /\ exists v, value = Some v /\ funded x sender v
  | CT_DelegateCall => receiver = ext_address x /\ value = None
  | CT_StaticCall => receiver = code_addr /\ value = Some 0 /\ sender = ext_address x
  | CT_None => False
  end.

Class ExtLaws (X : Type) `{VmExt X} `{ExtSpec X} : Prop := {
  ext_step_refl x : ext_ok x -> ext_step 0 x x;
  ext_step_trans m n x y z : ext_step m x y -> ext_step n y z -> ext_step (m + n) x z;
  ext_step_mono m n x y : m <= n -> ext_step m x y -> ext_step n x y;
  ext_step_ok n x y : ext_step n x y -> ext_ok y;
  ext_step_schedule n x y : ext_step n x y -> ext_schedule y = ext_schedule x;
  ext_step_address n x y : ext_step n x y -> ext_address y = ext_address x;
  ext_step_room m n x y : 0 <= m <= n -> ext_step m x y -> ext_room n x -> ext_room (n - m) y;
  ext_room_mono m n x : 0 <= m <= n -> ext_room n x -> ext_room m x;
  ext_storage_at_ok x k : ext_ok x -> is_u256 k -> wp (ext_storage_at x k) (in_u 256) (raised ext_internal);
  ext_set_storage_ok x k v : ext_ok x -> is_u256 k -> is_u256 v ->
    wp (ext_set_storage x k v) (fun '(_, x') => ext_kept x x') (fun '(e, x') => raised ext_internal e /\ ext_kept x x');
  ext_exists_ok x a : ext_ok x -> in_u 160 a -> wp (ext_exists x a) any (raised ext_internal);
  ext_exists_and_not_null_ok x a : ext_ok x -> in_u 160 a -> wp (ext_exists_and_not_null x a) any (raised ext_internal);
  ext_origin_balance_ok x : ext_ok x -> wp (ext_origin_balance x) (in_u 256) (raised ext_internal);
  ext_balance_ok x a : ext_ok x -> in_u 160 a -> wp (ext_balance x a) (in_u 256) (raised ext_internal);
  ext_blockhash_ok x n : ext_ok x -> is_u256 n ->
    exists h x', ext_blockhash x n = Some (h, x') /\ is_u256 h /\ ext_kept x x';
  ext_create_ok x gas value code scheme : ext_ok x -> is_u256 gas -> is_u256 value -> vec_ok code ->
    ext_depth x < max_depth (ext_schedule x) -> funded x (ext_address x) value -> ext_room (1 + gas) x ->
    exists r x', ext_create x gas value code scheme = Some (r, x') /\ create_result_ok gas r /\
      ext_step (1 + gas - create_returned r) x x';
  ext_call_ok x gas sender receiver value input code_addr output ct :
    ext_ok x -> is_u256 gas -> in_u 160 sender -> in_u 160 receiver -> in_u 160 code_addr ->
    vec_ok input -> is_bytes output ->
    ext_depth x < max_depth (ext_schedule x) ->
    call_shape x sender receiver code_addr value ct -> ext_room gas x ->
    exists r out x', ext_call x gas sender receiver value input code_addr output ct = Some (r, out, x') /\
      call_result_ok gas r /\ len out = len output /\ is_bytes out /\ ext_step (gas - call_returned r) x x';
  ext_extcode_ok x a : ext_ok x -> in_u 160 a -> wp (ext_extcode x a) vec_ok (raised ext_internal);
  ext_extcodesize_ok x a : ext_ok x -> in_u 160 a -> wp (ext_extcodesize x a) (in_u 256) (raised ext_internal);
  ext_log_ok x topics d : ext_ok x -> Forall (in_u 256) topics -> is_bytes d ->
    wp (ext_log x topics d) (fun '(_, x') => ext_kept x x') (fun '(e, x') => raised ext_internal e /\ ext_kept x x');
  ext_suicide_ok x a : ext_ok x -> in_u 160 a ->
    wp (ext_suicide x a) (fun '(_, x') => ext_kept x x') (fun '(e, x') => raised ext_internal e /\ ext_kept x x');
  ext_env_info_ok x : ext_ok x -> env_ok (ext_env_info x);
  ext_inc_sstore_clears_ok x : ext_ok x -> ext_room 1 x ->
    exists x', ext_inc_sstore_clears x = Some x' /\ ext_step 1 x x';
  ext_trace_next_ok x pc i g : ext_ok x ->
    exists b x', ext_trace_next_instruction x pc i g = Some (b, x') /\ ext_kept x x';
  ext_trace_prepare_ok x pc i g : ext_ok x ->
    exists x', ext_trace_prepare_execute x pc i g = Some x' /\ ext_kept x x';
  ext_trace_executed_ok x g st md sd : ext_ok x ->
    exists x', ext_trace_executed x g st md sd = Some x' /\ ext_kept x x';
}.

Section kept.
Context {X : Type} `{ExtLaws X}.
Implicit Types x : X.

Lemma ext_kept_refl x : ext_ok x -> ext_kept x x.
Proof. apply ext_step_refl. Qed.
Lemma ext_kept_trans x1 x2 x3 : ext_kept x1 x2 -> ext_kept x2 x3 -> ext_kept x1 x3.
Proof. intros H12 H23. exact (ext_step_trans _ _ _ _ _ H12 H23). Qed.
Lemma ext_kept_ok x x' : ext_kept x x' -> ext_ok x'.
Proof. apply ext_step_ok. Qed.
Lemma ext_kept_step n x x' : 0 <= n -> ext_kept x x' -> ext_step n x x'.
Proof. intros. by eapply ext_step_mono. Qed.
Lemma ext_kept_l n x1 x2 x3 : ext_kept x1 x2 -> ext_step n x2 x3 -> ext_step n x1 x3.
Proof. intros H12 H23. exact (ext_step_trans _ _ _ _ _ H12 H23). Qed.
Lemma ext_kept_r n x1 x2 x3 : ext_step n x1 x2 -> ext_kept x2 x3 -> ext_step n x1 x3.
Proof. intros H12 H23. rewrite <-(Z.add_0_r n). exact (ext_step_trans _ _ _ _ _ H12 H23). Qed.
Lemma ext_kept_room n x x' : 0 <= n -> ext_kept x x' -> ext_room n x -> ext_room n x'.
Proof. intros Hn Hk Hr. rewrite <-(Z.sub_0_r n). eapply ext_step_room; [|exact Hk|exact Hr]. lia. Qed.
Lemma ext_kept_schedule x x' : ext_kept x x' -> ext_schedule x' = ext_schedule x.
Proof. apply ext_step_schedule. Qed.
Lemma ext_kept_address x x' : ext_kept x x' -> ext_address x' = ext_address x.
Proof. apply ext_step_address. Qed.
End kept.
