(* ===== verification/Cost.v ===== *)
(** * Gas cost types ([ethcore/evm/src/evm.rs])

    The [CostType] trait and its two implementations: [usize] for executions
    whose gas fits a machine word and [U256] for the others, and the
    finalisation of a VM result.  [as_u256] and [From<usize>] are the identity
    on the represented integer. *)
From stdpp Require Import base list numbers.
From S2P Require Import Prelude Words Vm.

(** ** The trait *)
Class CostType := {
  cost_bits : Z;
  from_u256 : U256 -> outcome Error Z;
  as_usize : Z -> outcome Error Z;
  overflow_add : Z -> Z -> Z * bool;
  overflow_mul : Z -> Z -> Z * bool;
  overflow_mul_shr : Z -> Z -> Z -> Z * bool;
}.

(** ** [impl CostType for U256] *)
Definition u256_from_u256 (val : U256) : outcome Error Z := Ok val.
(** [U256::as_u64] panics on a value of more than 64 bits. *)
Definition u256_as_usize (x : Z) : outcome Error Z := if x <? 2 ^ 64 then Ok x else Panic.
(** [full_mul] is exact at 512 bits; the flag is set when a limb of the upper
    half of the product is. *)
Definition u256_overflow_mul_shr (a b shr : Z) : Z * bool :=
  let x := a * b in
  let overflow := 0 <? Z.shiftr x 256 in
  (wrap 256 (Z.shiftr x shr), overflow).

#[global] Instance U256_cost : CostType | 10 := {|
  cost_bits := 256;
  from_u256 := u256_from_u256;
  as_usize := u256_as_usize;
  overflow_add := overflowing_add 256;
  overflow_mul := overflowing_mul 256;
  overflow_mul_shr := u256_overflow_mul_shr;
|}.

(** ** [impl CostType for usize] *)
Definition usize_from_u256 (val : U256) : outcome Error Z :=
  let res := low_u64 val in
  if negb (res =? val) then Err OutOfGas else Ok res.
Definition usize_as_usize (x : Z) : outcome Error Z := Ok x.
Definition usize_overflow_mul_shr (a b shr : Z) : Z * bool :=
  let '(c, o) := overflowing_mul 128 a b in
  let overflow := o || (0 <? Z.shiftr c 64) in
  let parts0 := wrap 64 (Z.shiftr c shr) in
  let result := parts0 in
  let overflow := overflow || (result <? parts0) in
  (result, overflow).

#[global] Instance usize_cost : CostType | 5 := {|
  cost_bits := 64;
  from_u256 := usize_from_u256;
  as_usize := usize_as_usize;
  overflow_add := overflowing_add 64;
  overflow_mul := overflowing_mul 64;
  overflow_mul_shr := usize_overflow_mul_shr;
|}.

(** ** Finalisation *)
Record FinalizationResult := mkFinal {
  f_gas_left : U256;
  f_apply_state : bool;
  f_return_data : ReturnData;
}.

Definition finalize {X} `{VmExt X} (self : outcome Error GasLeft) (ext : X) : outcome (Error * X) (FinalizationResult * X) :=
  match self with
  | Ok (Known gas_left) => Ok (mkFinal gas_left true ReturnData_empty, ext)
  | Ok (NeedsReturn gas_left rdata apply_state) =>
      '(g, ext) ← ext_ret ext gas_left rdata apply_state;
      Ok (mkFinal g apply_state rdata, ext)
  | Err err => Err (err, ext)
  | Panic => Panic
  end.

(** ** Laws of the trait

    What the gasometer relies on, for operands that are values of the type. *)
Class CostLaws `{CostType} := {
  cost_bits_ge : 64 <= cost_bits;
  cost_bits_le : cost_bits <= 256;
  from_u256_fits v : in_u cost_bits v -> from_u256 v = Ok v;
  from_u256_inv v g : is_u256 v -> from_u256 v = Ok g -> g = v /\ in_u cost_bits v;
  from_u256_no_panic v : from_u256 v <> Panic;
  from_u256_error v e : from_u256 v = Err e -> e = OutOfGas;
  as_usize_fits x : is_usize x -> as_usize x = Ok x;
  as_usize_error x e : as_usize x <> Err e;
  as_usize_inv x y : in_u cost_bits x -> as_usize x = Ok y -> y = x /\ is_usize x;
  overflow_add_spec a b : overflow_add a b = overflowing_add cost_bits a b;
  overflow_mul_spec a b : overflow_mul a b = overflowing_mul cost_bits a b;
  overflow_mul_shr_spec a b n r :
    in_u cost_bits a -> in_u cost_bits b -> 0 <= n ->
    overflow_mul_shr a b n = (r, false) ->
    r = (a * b) / 2 ^ n /\ a * b < 2 ^ cost_bits;
  overflow_mul_shr_flag a b n :
    in_u cost_bits a -> in_u cost_bits b ->
    snd (overflow_mul_shr a b n) = (2 ^ cost_bits <=? a * b);
}.

Lemma shiftr_pos_flag w x : 0 <= w -> 0 <= x -> (0 <? Z.shiftr x w) = (2 ^ w <=? x).
Proof.
  intros Hw Hx. rewrite Z.shiftr_div_pow2 by done.
  assert (0 < 2 ^ w) by (apply Z.pow_pos_nonneg; lia).
  destruct (Z.leb_spec (2 ^ w) x).
  - apply Z.ltb_lt. apply Z.div_str_pos. lia.
  - rewrite Z.div_small by lia. done.
Qed.

Lemma shiftr_wrap_small w x n :
  0 <= w -> 0 <= x < 2 ^ w -> 0 <= n -> wrap w (Z.shiftr x n) = x / 2 ^ n.
Proof.
  intros. rewrite wrap_small by (apply shiftr_in_u; done).
  by rewrite Z.shiftr_div_pow2.
Qed.

#[global] Instance U256_cost_laws : @CostLaws U256_cost.
Proof.
  constructor; cbn [cost_bits from_u256 as_usize overflow_add overflow_mul overflow_mul_shr U256_cost];
    unfold u256_from_u256, u256_as_usize, u256_overflow_mul_shr; try done.
  - intros v g Hv [= ->]. done.
  - intros x [_ Hx%Z.ltb_lt]. by rewrite Hx.
  - intros x e. by case_match.
  - intros x y [] . case_match; intros; inv_ok. b2p. done.
  - intros a b n r [??] [??] Hn. rewrite shiftr_pos_flag by lia. intros [= <- Hf%Z.leb_gt].
    split; [apply shiftr_wrap_small; nia|done].
  - intros a b n [??] [??]. cbn [snd]. apply shiftr_pos_flag; nia.
Qed.

Lemma usize_mul_128 a b : is_usize a -> is_usize b -> overflowing_mul 128 a b = (a * b, false).
Proof.
  intros [??] [??]. assert (a * b < 2 ^ 128).
  { change (2 ^ 128) with (2 ^ 64 * 2 ^ 64). nia. }
  unfold overflowing_mul. rewrite wrap_small by (unfold in_u; nia).
  by rewrite (proj2 (Z.leb_gt _ _)).
Qed.

#[global] Instance usize_cost_laws : @CostLaws usize_cost.
Proof.
  constructor; cbn [cost_bits from_u256 as_usize overflow_add overflow_mul overflow_mul_shr usize_cost];
    unfold usize_from_u256, usize_as_usize, usize_overflow_mul_shr; try done.
  - intros v Hv. by rewrite low_u64_small, Z.eqb_refl by done.
  - intros v g Hv. case_match; intros; inv_ok. b2p. split; [done|]. rewrite <-H. apply low_u64_in_u.
  - intros v. by case_match.
  - intros v e He. case_match; by inv_ok.
  - intros. by inv_ok.
  - intros a b n r Ha Hb Hn. rewrite usize_mul_128 by done. cbn [orb].
    destruct Ha, Hb. rewrite shiftr_pos_flag, Z.ltb_irrefl, orb_false_r by nia.
    intros [= <- Hf%Z.leb_gt]. split; [apply shiftr_wrap_small; nia|done].
  - intros a b n Ha Hb. rewrite usize_mul_128 by done. cbn [orb snd].
    destruct Ha, Hb. rewrite shiftr_pos_flag, Z.ltb_irrefl, orb_false_r by nia. done.
Qed.
