(* ===== verification/EvmStack.v ===== *)
(** * The EVM stack ([ethcore/evm/src/interpreter/stack.rs])

    [VecStack] keeps the stack in a vector whose last element is the top, and a
    scratch array for the topics [pop_n] returns.  The second half relates it
    to the abstract stack [top]: the elements from the top down. *)
From stdpp Require Import base list numbers.
From S2P Require Import Prelude Words Instructions.

Record VecStack := mkStack { stack : list U256; logs : list U256 }.

Definition with_capacity (capacity : Z) (zero : U256) : VecStack :=
  mkStack [] (replicate (Z.to_nat MAX_NO_OF_TOPICS) zero).

Section ops.
Context {E : Type}.

Definition peek (s : VecStack) (no_from_top : Z) : outcome E U256 :=
  index (stack s) (len (stack s) - no_from_top - 1).

(** [Vec::swap] panics when an index is out of range. *)
Definition swap_with_top (s : VecStack) (no_from_top : Z) : outcome E VecStack :=
  let l := len (stack s) in
  a ← index (stack s) (l - no_from_top - 1);
  b ← index (stack s) (l - 1);
  st ← index_set (stack s) (l - no_from_top - 1) b;
  st ← index_set st (l - 1) a;
  Ok (mkStack st (logs s)).

Definition has (s : VecStack) (no_of_elems : Z) : bool := no_of_elems <=? len (stack s).

Definition pop_back (s : VecStack) : outcome E (U256 * VecStack) :=
  match reverse (stack s) with
  | x :: r => Ok (x, mkStack (reverse r) (logs s))
  | [] => Panic
  end.

(** [for i in i0..i0+n { self.logs[i] = self.pop_back(); }] *)
Fixpoint pop_n_loop (n : nat) (i : Z) (s : VecStack) : outcome E VecStack :=
  match n with
  | O => Ok s
  | S n' =>
      '(x, s) ← pop_back s;
      l ← index_set (logs s) i x;
      pop_n_loop n' (i + 1) (mkStack (stack s) l)
  end.

Definition pop_n (s : VecStack) (no_of_elems : Z) : outcome E (list U256 * VecStack) :=
  if no_of_elems <=? MAX_NO_OF_TOPICS then
    s ← pop_n_loop (Z.to_nat no_of_elems) 0 s;
    r ← slice (logs s) 0 no_of_elems;
    Ok (r, s)
  else Panic.

Definition push (s : VecStack) (elem : U256) : VecStack := mkStack (stack s ++ [elem]) (logs s).

Definition size (s : VecStack) : Z := len (stack s).

Definition peek_top (s : VecStack) (no_from_top : Z) : outcome E (list U256) :=
  if no_from_top <=? len (stack s)
  then slice (stack s) (len (stack s) - no_from_top) (len (stack s))
  else Panic.
End ops.

(** ** The abstract stack *)
Definition top (s : VecStack) : list U256 := reverse (stack s).

(** The stack with abstract contents [t], keeping the scratch array. *)
Definition of_top (t : list U256) (l : list U256) : VecStack := mkStack (reverse t) l.

(** Well-formed: every element is a word and the scratch array has its size. *)
Definition stack_wf (s : VecStack) : Prop :=
  Forall (in_u 256) (top s) /\ Forall (in_u 256) (logs s) /\ len (logs s) = MAX_NO_OF_TOPICS.

Lemma top_of_top t l : top (of_top t l) = t.
Proof. apply reverse_involutive. Qed.
Lemma of_top_top s : of_top (top s) (logs s) = s.
Proof. destruct s. unfold of_top, top. simpl. by rewrite reverse_involutive. Qed.
Lemma size_of_top t l : size (of_top t l) = len t.
Proof. unfold size, of_top. simpl. apply len_reverse. Qed.
Lemma size_top s : size s = len (top s).
Proof. unfold size, top. by rewrite len_reverse. Qed.

Section refinement.
Context {E : Type}.
Implicit Types t l : list U256.

Lemma pop_back_cons x t l : @pop_back E (of_top (x :: t) l) = Ok (x, of_top t l).
Proof. unfold pop_back, of_top. simpl. by rewrite reverse_involutive. Qed.

Lemma push_of_top t l x : push (of_top t l) x = of_top (x :: t) l.
Proof. unfold push, of_top. simpl. by rewrite reverse_cons. Qed.

Lemma lookup_of_top t l i :
  0 <= i < len t -> stack (of_top t l) !! Z.to_nat (len t - i - 1) = t !! Z.to_nat i.
Proof.
  unfold of_top, len. cbn [stack]. intros.
  rewrite reverse_lookup by lia. f_equal. lia.
Qed.

Lemma peek_lookup t l i x : 0 <= i -> t !! Z.to_nat i = Some x -> @peek E (of_top t l) i = Ok x.
Proof.
  intros Hi Hx. assert (i < len t) by (apply lookup_lt_Some in Hx; unfold len; lia).
  unfold peek. change (stack (of_top t l)) with (reverse t). rewrite len_reverse.
  apply index_ok; [lia|]. by rewrite (lookup_of_top t l) by lia.
Qed.

Lemma peek_inv s i x : @peek E s i = Ok x -> 0 <= i -> top s !! Z.to_nat i = Some x.
Proof.
  unfold peek, index. case_match; [|done]. case_match; [|done]. intros [= ->] Hi. b2p.
  unfold top. rewrite reverse_lookup by (unfold len in *; lia).
  rewrite <-H0. f_equal. unfold len in *. lia.
Qed.

Lemma reverse_insert t (i : nat) (x : U256) :
  (i < length t)%nat -> reverse (<[i := x]> t) = <[(length t - S i)%nat := x]> (reverse t).
Proof.
  intros. apply list_eq. intros j. destruct (decide (j < length t)%nat).
  - rewrite reverse_lookup by (rewrite length_insert; lia). rewrite length_insert.
    destruct (decide (j = length t - S i)%nat) as [->|].
    + rewrite list_lookup_insert_eq by (rewrite length_reverse; lia).
      replace (length t - S (length t - S i))%nat with i by lia. apply list_lookup_insert_eq. lia.
    + rewrite (list_lookup_insert_ne (reverse t)) by lia.
      rewrite list_lookup_insert_ne by lia. by rewrite reverse_lookup by lia.
  - rewrite !lookup_ge_None_2; rewrite ?length_insert, ?length_reverse, ?length_insert; [done|lia..].
Qed.

Lemma swap_with_top_spec t l n x0 xn :
  0 < n -> t !! 0%nat = Some x0 -> t !! Z.to_nat n = Some xn ->
  @swap_with_top E (of_top t l) n = Ok (of_top (<[0%nat := xn]> (<[Z.to_nat n := x0]> t)) l).
Proof.
  intros Hn H0 Hx. change 0%nat with (Z.to_nat 0) in H0. pose proof (lookup_lt_Some _ _ _ Hx).
  unfold swap_with_top. change (stack (of_top t l)) with (reverse t).
  change (logs (of_top t l)) with l.
  assert (HL : len (reverse t) = len t) by apply len_reverse.
  rewrite (index_ok (reverse t) (len (reverse t) - n - 1) xn);
    [|unfold len in *; lia|rewrite HL; change (reverse t) with (stack (of_top t l));
      by rewrite lookup_of_top by (unfold len in *; lia)].
  rewrite (index_ok (reverse t) (len (reverse t) - 1) x0);
    [|unfold len in *; lia|rewrite HL; change (reverse t) with (stack (of_top t l));
      rewrite <-H0; rewrite <-(lookup_of_top t l 0) by (unfold len in *; lia); f_equal; lia].
  cbn [mbind outcome_bind]. rewrite index_set_ok by (unfold len in *; lia). cbn [mbind outcome_bind].
  rewrite index_set_ok by (rewrite len_insert; unfold len in *; lia). cbn [mbind outcome_bind].
  unfold of_top. f_equal. f_equal.
  rewrite !reverse_insert by (rewrite ?length_insert; lia). rewrite length_insert.
  unfold len in *. rewrite length_reverse.
  f_equal; [lia|]. f_equal; lia.
Qed.

Lemma pop_n_loop_spec n i t l :
  (n <= length t)%nat -> 0 <= i -> i + Z.of_nat n <= len l ->
  @pop_n_loop E n i (of_top t l) = Ok (of_top (drop n t) (splice l i (take n t))).
Proof.
  revert i t l. induction n as [|n IH]; intros i t l Ht Hi Hl; cbn [pop_n_loop].
  { unfold splice. simpl. rewrite Nat.add_0_r, drop_0, take_drop. done. }
  destruct t as [|x t]; simpl in Ht; [lia|].
  rewrite pop_back_cons. cbn [mbind outcome_bind].
  cbn [logs of_top]. rewrite index_set_ok by lia. cbn [mbind outcome_bind].
  change (mkStack (stack (of_top t l)) ?a) with (of_top t a).
  rewrite IH; [|lia|lia|unfold len in *; rewrite length_insert; lia].
  f_equal. f_equal. apply list_eq. intros j.
  rewrite !splice_lookup; rewrite ?length_take; cbn [length take]; unfold len in *;
    rewrite ?length_insert, ?length_take; cbn [length]; rewrite ?length_take; try lia.
  repeat case_decide; try lia.
  - rewrite lookup_cons_ne_0 by lia. f_equal. lia.
  - replace j with (Z.to_nat i) by lia. rewrite Nat.sub_diag. cbn. apply list_lookup_insert_eq. lia.
  - rewrite list_lookup_insert_ne by lia. done.
Qed.

Lemma pop_n_spec n t l :
  0 <= n <= MAX_NO_OF_TOPICS -> n <= len t -> len l = MAX_NO_OF_TOPICS ->
  @pop_n E (of_top t l) n =
    Ok (take (Z.to_nat n) t, of_top (drop (Z.to_nat n) t) (splice l 0 (take (Z.to_nat n) t))).
Proof.
  unfold len. intros Hn Ht Hl. unfold pop_n. rewrite (proj2 (Z.leb_le _ _)) by lia.
  rewrite pop_n_loop_spec by (unfold len; lia). cbn [mbind outcome_bind logs of_top].
  rewrite slice_ok; [|lia|rewrite len_splice; unfold len; rewrite ?length_take; lia].
  cbn [mbind outcome_bind]. f_equal. f_equal. unfold splice.
  rewrite Z.sub_0_r. change (Z.to_nat 0) with 0%nat. cbn [Nat.add]. rewrite drop_0, take_0. cbn [app].
  rewrite take_app_le by (rewrite length_take; lia). rewrite take_take. f_equal. lia.
Qed.

Lemma peek_top_spec n t l :
  0 <= n <= len t -> @peek_top E (of_top t l) n = Ok (reverse (take (Z.to_nat n) t)).
Proof.
  intros Hn. unfold peek_top. change (stack (of_top t l)) with (reverse t).
  rewrite len_reverse, (proj2 (Z.leb_le _ _)) by lia.
  rewrite slice_ok by (rewrite ?len_reverse; lia). f_equal.
  replace (reverse t) with (reverse (drop (Z.to_nat n) t) ++ reverse (take (Z.to_nat n) t))
    by (by rewrite <-reverse_app, take_drop).
  unfold len in *. rewrite drop_app_ge by (rewrite length_reverse, length_drop; lia).
  rewrite length_reverse, length_drop, take_ge; [|rewrite length_drop, length_reverse, length_take; lia].
  replace (Z.to_nat (Z.of_nat (length t) - n) - (length t - Z.to_nat n))%nat with 0%nat by lia. done.
Qed.
End refinement.

Lemma with_capacity_wf capacity : stack_wf (with_capacity capacity 0).
Proof. repeat split; [constructor|]. repeat constructor; done. Qed.

Lemma stack_wf_of_top t l :
  stack_wf (of_top t l) <-> Forall (in_u 256) t /\ Forall (in_u 256) l /\ len l = MAX_NO_OF_TOPICS.
Proof. unfold stack_wf. by rewrite top_of_top. Qed.
