(* ===== verification/EvmMemory.v ===== *)
(** * EVM memory ([ethcore/evm/src/interpreter/memory.rs])

    [impl Memory for Vec<u8>]: offsets and sizes arrive as [U256] and are
    truncated to [usize] with [low_u64]; the slices panic out of range.  The
    lemmas give the effect of each operation on an in-range access. *)
From stdpp Require Import base list numbers.
From S2P Require Import Prelude Words Vm.

Definition MAX_RETURN_WASTE_BYTES : Z := 16384.

Definition is_valid_range (off size : Z) : bool :=
  let overflow := snd (overflowing_add 64 off size) in
  (0 <? size) && negb overflow.

Section ops.
Context {E : Type}.
Implicit Types self : bytes.

Definition mem_size (self : bytes) : Z := len self.

Definition mem_read_slice (self : bytes) (init_off_u init_size_u : U256) : outcome E bytes :=
  let off := low_u64 init_off_u in
  let size := low_u64 init_size_u in
  if negb (is_valid_range off size) then slice self 0 0
  else e ← add_chk 64 off size; slice self off e.

Definition mem_read (self : bytes) (offset : U256) : outcome E U256 :=
  let off := low_u64 offset in
  e ← add_chk 64 off 32;
  s ← slice self off e;
  u256_from_slice s.

(** The bounds of the writeable slice; writing back through it is [mem_write_back]. *)
Definition mem_writeable_slice (self : bytes) (offset size : U256) : outcome E (Z * bytes) :=
  let off := low_u64 offset in
  let s := low_u64 size in
  if negb (is_valid_range off s) then b ← slice self 0 0; Ok (0, b)
  else e ← add_chk 64 off s; b ← slice self off e; Ok (off, b).
Definition mem_write_back (self : bytes) (off : Z) (b : bytes) : outcome E bytes :=
  copy_from_slice self off b.

Definition mem_write_slice (self : bytes) (offset : U256) (s : bytes) : outcome E bytes :=
  if negb (len s =? 0) then
    let off := low_u64 offset in
    _ ← add_chk 64 off (len s);
    copy_from_slice self off s
  else Ok self.

Definition mem_write (self : bytes) (offset value : U256) : outcome E bytes :=
  let off := low_u64 offset in
  _ ← add_chk 64 off 32;
  copy_from_slice self off (Z_to_be 32 value).

Definition mem_write_byte (self : bytes) (offset value : U256) : outcome E bytes :=
  let off := low_u64 offset in
  let val := low_u64 value in
  index_set self off (wrap 8 val).

(** [Vec::resize(new_size, 0)]; a vector holds at most [isize::MAX] bytes. *)
Definition mem_resize (self : bytes) (new_size : Z) : outcome E bytes :=
  if new_size <=? len self then Ok (take (Z.to_nat new_size) self)
  else if new_size <? 2 ^ 63 then Ok (self ++ replicate (Z.to_nat (new_size - len self)) 0)
  else Panic.

Definition mem_expand (self : bytes) (sz : Z) : outcome E bytes :=
  if len self <? sz then mem_resize self sz else Ok self.

Definition mem_into_return_data (self : bytes) (offset size : U256) : outcome E ReturnData :=
  let offset := low_u64 offset in
  let size := low_u64 size in
  if negb (is_valid_range offset size) then Ok ReturnData_empty
  else
    waste ← sub_chk (len self) size;
    if MAX_RETURN_WASTE_BYTES <? waste then
      (* drain(..offset) panics past the end *)
      if offset <=? len self then
        let drained := drop (Z.to_nat offset) self in
        Ok (ReturnData_new (take (Z.to_nat size) drained) 0 size)
      else Panic
    else Ok (ReturnData_new self offset size).
End ops.

(** ** Lemmas *)

(** The region [off, off + size) lies in a memory of [l] bytes; an empty region
    always does. *)
Definition region_ok (l off size : Z) : Prop := size = 0 \/ (0 <= off /\ 0 < size /\ off + size <= l).

(** The [size] bytes of [self] at [off]. *)
Definition region (self : bytes) (off size : Z) : bytes :=
  if size =? 0 then [] else take (Z.to_nat size) (drop (Z.to_nat off) self).

Lemma is_valid_range_spec off size :
  0 <= off -> 0 <= size -> is_valid_range off size = (0 <? size) && (off + size <? 2 ^ 64).
Proof.
  intros. unfold is_valid_range, overflowing_add. cbn [snd]. f_equal.
  by rewrite Z.leb_antisym, negb_involutive.
Qed.

Lemma is_valid_range_zero off : is_valid_range off 0 = false.
Proof. done. Qed.

Section lemmas.
Context {E : Type}.
Implicit Types self : bytes.
Variable self : bytes.
Hypothesis Hself : len self < 2 ^ 64.

Lemma region_fits off size :
  is_u256 off -> is_u256 size -> region_ok (len self) off size ->
  (size = 0 /\ low_u64 size = 0) \/
  (0 < size /\ low_u64 off = off /\ low_u64 size = size /\ off + size <= len self /\ 0 <= off /\
   is_valid_range off size = true).
Proof.
  intros Ho Hs [->|(H0 & H1 & H2)]; [by left|right].
  rewrite !low_u64_small by (split; lia). repeat split; try lia.
  rewrite is_valid_range_spec by lia.
  by rewrite (proj2 (Z.ltb_lt 0 size)), (proj2 (Z.ltb_lt _ (2 ^ 64))) by lia.
Qed.

Lemma mem_read_slice_ok off size :
  is_u256 off -> is_u256 size -> region_ok (len self) off size ->
  @mem_read_slice E self off size = Ok (region self off size).
Proof.
  intros Ho Hs Hr. unfold mem_read_slice, region.
  destruct (region_fits off size) as [[-> ->]|(H0 & -> & -> & H1 & H2 & Hv)]; try done.
  - rewrite is_valid_range_zero. cbn [negb]. rewrite slice_ok by (pose proof (len_nonneg self); lia). done.
  - rewrite Hv. cbn [negb]. rewrite add_chk_ok by lia. cbn [mbind outcome_bind].
    rewrite slice_ok by lia. rewrite (proj2 (Z.eqb_neq size 0)) by lia.
    do 3 f_equal. lia.
Qed.

Lemma len_region off size : 0 <= size -> region_ok (len self) off size -> len (region self off size) = size.
Proof.
  intros Hs Hr. unfold region. destruct (Z.eqb_spec size 0) as [->|]; [done|].
  destruct Hr as [?|(H0 & H1 & H2)]; [done|]. rewrite len_take; [done|]. rewrite len_drop; lia.
Qed.

Lemma mem_read_ok off :
  is_u256 off -> off + 32 <= len self ->
  @mem_read E self off = Ok (be_to_Z (take 32 (drop (Z.to_nat off) self))).
Proof.
  intros [H0 _] H1. unfold mem_read. rewrite low_u64_small by (split; lia).
  rewrite add_chk_ok by lia. cbn [mbind outcome_bind]. rewrite slice_ok by lia.
  cbn [mbind outcome_bind]. replace (off + 32 - off) with 32 by lia.
  change (Z.to_nat 32) with 32%nat.
  unfold u256_from_slice. rewrite (proj2 (Z.leb_le _ _)); [done|].
  unfold len. rewrite length_take. lia.
Qed.

Lemma mem_write_ok off v :
  is_u256 off -> off + 32 <= len self ->
  @mem_write E self off v = Ok (splice self off (Z_to_be 32 v)).
Proof.
  intros [H0 _] H1. unfold mem_write. rewrite low_u64_small by (split; lia).
  rewrite add_chk_ok by lia. cbn [mbind outcome_bind].
  by rewrite copy_from_slice_ok by (rewrite ?len_Z_to_be; lia).
Qed.

Lemma mem_write_byte_ok off v :
  is_u256 off -> off < len self ->
  @mem_write_byte E self off v = Ok (<[Z.to_nat off := wrap 8 v]> self).
Proof.
  intros [H0 _] H1. unfold mem_write_byte. rewrite (low_u64_small off) by (split; lia).
  rewrite index_set_ok by lia. do 2 f_equal. unfold low_u64, wrap.
  by rewrite Z.mod_mod_divide by (by exists (2 ^ 56)).
Qed.

Lemma mem_write_slice_ok off s :
  is_u256 off -> region_ok (len self) off (len s) ->
  @mem_write_slice E self off s = Ok (if len s =? 0 then self else splice self off s).
Proof.
  intros Ho Hr. unfold mem_write_slice. destruct (Z.eqb_spec (len s) 0); cbn [negb]; [done|].
  destruct Hr as [?|(H0 & H1 & H2)]; [done|]. rewrite low_u64_small by (split; lia).
  rewrite add_chk_ok by lia. cbn [mbind outcome_bind]. by rewrite copy_from_slice_ok by lia.
Qed.

Lemma mem_writeable_slice_ok off size :
  is_u256 off -> is_u256 size -> region_ok (len self) off size ->
  @mem_writeable_slice E self off size = Ok (if size =? 0 then 0 else off, region self off size).
Proof.
  intros Ho Hs Hr. unfold mem_writeable_slice, region.
  destruct (region_fits off size) as [[-> ->]|(H0 & -> & -> & H1 & H2 & Hv)]; try done.
  - rewrite is_valid_range_zero. cbn [negb]. rewrite slice_ok by (pose proof (len_nonneg self); lia). done.
  - rewrite Hv. cbn [negb]. rewrite add_chk_ok by lia. cbn [mbind outcome_bind].
    rewrite slice_ok by lia. rewrite (proj2 (Z.eqb_neq size 0)) by lia.
    cbn [mbind outcome_bind]. do 4 f_equal. lia.
Qed.

Lemma mem_write_back_ok off size b :
  0 <= size -> region_ok (len self) off size -> len b = size ->
  @mem_write_back E self (if size =? 0 then 0 else off) b =
    Ok (splice self (if size =? 0 then 0 else off) b).
Proof.
  intros H0 Hr Hb. unfold mem_write_back. pose proof (len_nonneg self).
  destruct (Z.eqb_spec size 0); apply copy_from_slice_ok; destruct Hr as [?|(?&?&?)]; lia.
Qed.

Lemma mem_into_return_data_ok off size :
  is_u256 off -> is_u256 size -> region_ok (len self) off size ->
  exists rd, @mem_into_return_data E self off size = Ok rd /\
             @rd_deref E rd = Ok (region self off size).
Proof.
  intros Ho Hs Hr. unfold mem_into_return_data, region.
  destruct (region_fits off size) as [[-> ->]|(H0 & -> & -> & H1 & H2 & Hv)]; try done.
  { rewrite is_valid_range_zero. cbn [negb]. eexists. by split. }
  rewrite Hv. cbn [negb]. rewrite sub_chk_ok by lia. cbn [mbind outcome_bind].
  rewrite (proj2 (Z.eqb_neq size 0)) by lia.
  destruct (MAX_RETURN_WASTE_BYTES <? len self - size).
  - rewrite (proj2 (Z.leb_le _ _)) by lia. eexists. split; [done|].
    unfold rd_deref, ReturnData_new. cbn [rd_mem rd_offset rd_size].
    rewrite add_chk_ok by lia. cbn [mbind outcome_bind].
    rewrite slice_ok; [|lia|rewrite len_take; [lia|rewrite len_drop; lia]].
    rewrite Z.sub_0_r. change (Z.to_nat 0) with 0%nat. rewrite drop_0, take_take, Nat.min_id. done.
  - eexists. split; [done|].
    unfold rd_deref, ReturnData_new. cbn [rd_mem rd_offset rd_size].
    rewrite add_chk_ok by lia. cbn [mbind outcome_bind]. rewrite slice_ok by lia.
    do 3 f_equal. lia.
Qed.
End lemmas.

(** The memory after an expansion. *)
Definition expanded (self : bytes) (n : Z) : bytes := self ++ replicate (Z.to_nat (n - len self)) 0.

Lemma mem_expand_ok {E} self n : n < 2 ^ 63 -> mem_expand (E := E) self n = Ok (expanded self n).
Proof.
  intros. unfold mem_expand, mem_resize, expanded. destruct (Z.ltb_spec (len self) n).
  - rewrite (proj2 (Z.leb_gt _ _)), (proj2 (Z.ltb_lt _ _)) by lia. done.
  - replace (Z.to_nat (n - len self)) with 0%nat by lia. by rewrite app_nil_r.
Qed.

Lemma mem_expand_big {E} self n : len self < n -> 2 ^ 63 <= n -> mem_expand (E := E) self n = Panic.
Proof.
  intros. unfold mem_expand, mem_resize. rewrite (proj2 (Z.ltb_lt _ _)), (proj2 (Z.leb_gt _ _)), (proj2 (Z.ltb_ge _ _)) by lia. done.
Qed.

Lemma len_expanded self n : len (expanded self n) = Z.max (len self) n.
Proof. unfold expanded. rewrite len_app, len_replicate. lia. Qed.

Lemma expanded_bytes self n : is_bytes self -> is_bytes (expanded self n).
Proof. intros. apply Forall_app_2; [done|]. apply Forall_replicate. by split. Qed.

Lemma len_region_le self off size : len (region self off size) <= len self.
Proof.
  unfold region. pose proof (len_nonneg self). case_match; [done|]. unfold len. rewrite length_take, length_drop. lia.
Qed.

Lemma region_bytes self off size : is_bytes self -> is_bytes (region self off size).
Proof. intros. unfold region. case_match; [constructor|]. by apply Forall_take, Forall_drop. Qed.
