(* ===== verification/Gasometer.v ===== *)
(** * The gasometer ([ethcore/evm/src/interpreter/gasometer.rs])

    Gas and memory requirements of each instruction, generic in the cost type.
    The operators [+], [-] and [*] on a cost are checked: an overflow is a
    panic. *)
From stdpp Require Import base list numbers.
From S2P Require Import Prelude Words Vm Cost Instructions EvmStack.

Inductive Request : Type :=
  | RGas (gas : Z)
  | RGasMem (gas mem : Z)
  | RGasMemProvide (gas mem : Z) (requested : option U256)
  | RGasMemCopy (gas mem copy : Z).

Record InstructionRequirements := mkReq {
  gas_cost : Z;
  provide_gas : option Z;
  memory_total_gas : Z;
  memory_required_size : Z;
}.

Record Gasometer := mkGasometer { current_gas : Z; current_mem_gas : Z }.

Definition Gasometer_new (current_gas : Z) : Gasometer := mkGasometer current_gas 0.

(** The [overflowing!] macro. *)
Definition overflowing (x : Z * bool) : outcome Error Z :=
  let '(v, overflow) := x in if overflow then Err OutOfGas else Ok v.

(** Short-circuiting [&&] and [||] whose right operand may fail. *)
Definition and_m {E} (b : bool) (m : outcome E bool) : outcome E bool := if b then m else Ok false.
Definition or_m {E} (m1 m2 : outcome E bool) : outcome E bool :=
  b ← m1; if (b : bool) then Ok true else m2.
Definition not_m {E} (m : outcome E bool) : outcome E bool := b ← m; Ok (negb b).

Definition verify_gas (self : Gasometer) (gas_cost : Z) : outcome Error unit :=
  if current_gas self <? gas_cost then Err OutOfGas else Ok tt.

Section gasometer.
Context `{CostType} {X : Type} `{VmExt X}.

Definition mem_needed_const (mem : U256) (add : Z) : outcome Error Z :=
  v ← overflowing (overflowing_add 256 mem add); from_u256 v.

Definition mem_needed (offset size : U256) : outcome Error Z :=
  if size =? 0 then Ok 0
  else v ← overflowing (overflowing_add 256 offset size); from_u256 v.

Definition add_gas_usize (value num : Z) : Z * bool := overflow_add value num.

(** How much gas is provided to a CALL/CREATE. *)
Definition gas_provided (self : Gasometer) (schedule : Schedule) (needed : Z) (requested : option U256) :
    outcome Error Z :=
  let requested := from_u256 <$> requested in
  match sub_gas_cap_divisor schedule with
  | Some cap_divisor =>
      if needed <=? current_gas self then
        gas_remaining ← sub_chk (current_gas self) needed;
        max_gas_provided ←
          (if cap_divisor =? 64 then sub_chk gas_remaining (Z.shiftr gas_remaining 6)
           else if cap_divisor =? 0 then Panic
           else sub_chk gas_remaining (gas_remaining / cap_divisor));
        match requested with
        | Some (Ok r) => Ok (Z.min r max_gas_provided)
        | Some Panic => Panic
        | _ => Ok max_gas_provided
        end
      else match requested with Some r => r | None => Ok 0 end
  | None =>
      match requested with
      | Some r => r
      | None => if needed <=? current_gas self then sub_chk (current_gas self) needed else Ok 0
      end
  end.

(** The closure [gas_for_mem] of [mem_gas_cost]. *)
Definition gas_for_mem (schedule : Schedule) (mem_size : Z) : outcome Error Z :=
  let s := Z.shiftr mem_size 5 in
  a ← overflowing (overflow_mul s (memory_gas schedule));
  if quad_coeff_div schedule =? 512 then
    b ← overflowing (overflow_mul_shr s s 9);
    overflowing (overflow_add a b)
  else Panic.

Definition mem_gas_cost (self : Gasometer) (schedule : Schedule) (current_mem_size mem_size : Z) :
    outcome Error (Z * Z * Z) :=
  v ← overflowing (overflow_add mem_size 31);
  let req_mem_size_rounded := Z.shiftl (Z.shiftr v 5) 5 in
  '(mem_gas_cost, new_mem_gas) ←
    (if current_mem_size <? req_mem_size_rounded then
       new_mem_gas ← gas_for_mem schedule req_mem_size_rounded;
       c ← sub_chk new_mem_gas (current_mem_gas self);
       Ok (c, new_mem_gas)
     else Ok (0, current_mem_gas self));
  size ← as_usize req_mem_size_rounded;
  Ok (mem_gas_cost, new_mem_gas, size).

(** The cost request of an instruction: [let cost = match instruction { .. }]. *)
Definition sstore_request (ext : X) (st : VecStack) : outcome Error Request :=
  let schedule := ext_schedule ext in
  address ← peek st 0;
  newval ← peek st 1;
  val ← ext_storage_at ext address;
  Ok (RGas (if (val =? 0) && negb (newval =? 0) then sstore_set_gas schedule
            else sstore_reset_gas schedule)).

Definition suicide_request (ext : X) (st : VecStack) : outcome Error Request :=
  let schedule := ext_schedule ext in
  let gas := suicide_gas schedule in
  ob ← ext_origin_balance ext;
  let is_value_transfer := negb (ob =? 0) in
  a ← peek st 0;
  let address := u256_to_address a in
  new_account ←
    or_m (and_m (negb (no_empty schedule)) (not_m (ext_exists ext address)))
         (and_m (no_empty schedule && is_value_transfer) (not_m (ext_exists_and_not_null ext address)));
  if (new_account : bool) then
    gas ← overflowing (overflow_add gas (suicide_to_new_account_cost schedule)); Ok (RGas gas)
  else Ok (RGas gas).

Definition sha3_request (schedule : Schedule) (st : VecStack) : outcome Error Request :=
  p1 ← peek st 1;
  g ← from_u256 p1;
  w ← overflowing (add_gas_usize g 31);
  let words := Z.shiftr w 5 in
  wg ← mul_chk cost_bits (sha3_word_gas schedule) words;
  gas ← add_chk cost_bits (sha3_gas schedule) wg;
  p0 ← peek st 0;
  mem ← mem_needed p0 p1;
  Ok (RGasMem gas mem).

Definition log_request (schedule : Schedule) (instruction : Instruction) (st : VecStack) : outcome Error Request :=
  no_of_topics ← get_log_topics instruction;
  tg ← mul_chk 64 (log_topic_gas schedule) no_of_topics;
  lg ← add_chk 64 (log_gas schedule) tg;
  p1 ← peek st 1;
  g ← from_u256 p1;
  data_gas ← overflowing (overflow_mul g (log_data_gas schedule));
  gas ← overflowing (overflow_add data_gas lg);
  p0 ← peek st 0;
  mem ← mem_needed p0 p1;
  Ok (RGasMem gas mem).

Definition call_request (ext : X) (instruction : Instruction) (st : VecStack) : outcome Error Request :=
  let schedule := ext_schedule ext in
  let gas := call_gas schedule in
  p5 ← peek st 5; p6 ← peek st 6;
  m1 ← mem_needed p5 p6;
  p3 ← peek st 3; p4 ← peek st 4;
  m2 ← mem_needed p3 p4;
  let mem := Z.max m1 m2 in
  p1 ← peek st 1;
  let address := u256_to_address p1 in
  p2 ← peek st 2;
  let is_value_transfer := negb (p2 =? 0) in
  new_account ←
    and_m (instruction =? CALL)
      (or_m (and_m (negb (no_empty schedule)) (not_m (ext_exists ext address)))
            (and_m (no_empty schedule && is_value_transfer) (not_m (ext_exists_and_not_null ext address))));
  gas ← (if (new_account : bool) then overflowing (overflow_add gas (call_new_account_gas schedule)) else Ok gas);
  gas ← (if is_value_transfer then overflowing (overflow_add gas (call_value_transfer_gas schedule)) else Ok gas);
  requested ← peek st 0;
  Ok (RGasMemProvide gas mem (Some requested)).

Definition delegate_request (schedule : Schedule) (st : VecStack) : outcome Error Request :=
  p4 ← peek st 4; p5 ← peek st 5;
  m1 ← mem_needed p4 p5;
  p2 ← peek st 2; p3 ← peek st 3;
  m2 ← mem_needed p2 p3;
  requested ← peek st 0;
  Ok (RGasMemProvide (call_gas schedule) (Z.max m1 m2) (Some requested)).

Definition instruction_request (ext : X) (instruction : Instruction) (info : InstructionInfo) (st : VecStack) :
    outcome Error Request :=
  let schedule := ext_schedule ext in
  default_gas ← index (tier_step_gas schedule) (get_tier_idx (tier info));
  if instruction =? JUMPDEST then Ok (RGas 1)
  else if instruction =? SSTORE then sstore_request ext st
  else if instruction =? SLOAD then Ok (RGas (sload_gas schedule))
  else if instruction =? BALANCE then Ok (RGas (balance_gas schedule))
  else if instruction =? EXTCODESIZE then Ok (RGas (extcodesize_gas schedule))
  else if instruction =? SUICIDE then suicide_request ext st
  else if (instruction =? MSTORE) || (instruction =? MLOAD) then
    p0 ← peek st 0; m ← mem_needed_const p0 32; Ok (RGasMem default_gas m)
  else if instruction =? MSTORE8 then
    p0 ← peek st 0; m ← mem_needed_const p0 1; Ok (RGasMem default_gas m)
  else if (instruction =? RETURN) || (instruction =? REVERT) then
    p0 ← peek st 0; p1 ← peek st 1; m ← mem_needed p0 p1; Ok (RGasMem default_gas m)
  else if instruction =? SHA3 then sha3_request schedule st
  else if (instruction =? CALLDATACOPY) || (instruction =? CODECOPY) || (instruction =? RETURNDATACOPY) then
    p0 ← peek st 0; p2 ← peek st 2; m ← mem_needed p0 p2;
    c ← from_u256 p2; Ok (RGasMemCopy default_gas m c)
  else if instruction =? EXTCODECOPY then
    p1 ← peek st 1; p3 ← peek st 3; m ← mem_needed p1 p3;
    c ← from_u256 p3; Ok (RGasMemCopy (extcodecopy_base_gas schedule) m c)
  else if (LOG0 <=? instruction) && (instruction <=? LOG4) then log_request schedule instruction st
  else if (instruction =? CALL) || (instruction =? CALLCODE) then call_request ext instruction st
  else if (instruction =? DELEGATECALL) || (instruction =? STATICCALL) then delegate_request schedule st
  else if (instruction =? CREATE) || (instruction =? CREATE2) then
    p1 ← peek st 1; p2 ← peek st 2; m ← mem_needed p1 p2;
    Ok (RGasMemProvide (create_gas schedule) m None)
  else if instruction =? EXP then
    expon ← peek st 1;
    let bytes := (u256_bits expon + 7) / 8 in
    bg ← mul_chk 64 (exp_byte_gas schedule) bytes;
    g ← add_chk 64 (exp_gas schedule) bg;
    Ok (RGas g)
  else if instruction =? BLOCKHASH then Ok (RGas (blockhash_gas schedule))
  else Ok (RGas default_gas).

(** The requirements of a request: [Ok(match cost { .. })]. *)
Definition request_requirements (self : Gasometer) (schedule : Schedule) (current_mem_size : Z) (cost : Request) :
    outcome Error InstructionRequirements :=
  match cost with
  | RGas gas => Ok (mkReq gas None (current_mem_gas self) 0)
  | RGasMem gas mem_size =>
      '(mem_gas_cost, new_mem_gas, new_mem_size) ← mem_gas_cost self schedule current_mem_size mem_size;
      gas ← overflowing (overflow_add gas mem_gas_cost);
      Ok (mkReq gas None new_mem_gas new_mem_size)
  | RGasMemProvide gas mem_size requested =>
      '(mem_gas_cost, new_mem_gas, new_mem_size) ← mem_gas_cost self schedule current_mem_size mem_size;
      gas ← overflowing (overflow_add gas mem_gas_cost);
      provided ← gas_provided self schedule gas requested;
      total_gas ← overflowing (overflow_add gas provided);
      Ok (mkReq total_gas (Some provided) new_mem_gas new_mem_size)
  | RGasMemCopy gas mem_size copy =>
      '(mem_gas_cost, new_mem_gas, new_mem_size) ← mem_gas_cost self schedule current_mem_size mem_size;
      c ← overflowing (add_gas_usize copy 31);
      let copy := Z.shiftr c 5 in
      copy_gas ← mul_chk cost_bits (copy_gas schedule) copy;
      gas ← overflowing (overflow_add gas copy_gas);
      gas ← overflowing (overflow_add gas mem_gas_cost);
      Ok (mkReq gas None new_mem_gas new_mem_size)
  end.

Definition requirements (self : Gasometer) (ext : X) (instruction : Instruction) (info : InstructionInfo)
    (st : VecStack) (current_mem_size : Z) : outcome Error InstructionRequirements :=
  cost ← instruction_request ext instruction info st;
  request_requirements self (ext_schedule ext) current_mem_size cost.
End gasometer.
