(* ===== verification/GasometerProofs.v ===== *)
(** * Bounds of the gasometer

    Every request an instruction makes is within the cost type and covers the
    memory the instruction will touch; the memory charge follows the quadratic
    formula; the gas handed to a sub-call is part of the charge.  The only
    panic the gasometer can raise is the conversion of a memory size that does
    not fit [usize], which cannot happen for the [usize] cost type. *)
From stdpp Require Import base list numbers.
From S2P Require Import Prelude Words Vm VmLaws Cost Instructions EvmStack EvmMemory Gasometer.

(** ** Instruction information *)
Definition info_of (i : Instruction) : InstructionInfo := default InstructionInfo_default (INSTRUCTIONS !! Z.to_nat i).

Lemma info_index {E} i : in_u 8 i -> index (E := E) INSTRUCTIONS i = Ok (info_of i).
Proof.
  intros [H0 H1]. destruct (index_exists (E := E) INSTRUCTIONS i) as (x & Hx & Hi).
  { change (len INSTRUCTIONS) with 256. lia. }
  unfold info_of. by rewrite Hx.
Qed.

(** The [k]-th stack operand, from the top. *)
Definition arg (t : list U256) (k : Z) : U256 := default 0 (t !! Z.to_nat k).

Lemma peek_arg {E} t l k : 0 <= k < len t -> @peek E (of_top t l) k = Ok (arg t k).
Proof.
  unfold len. intros [H0 H1]. destruct (lookup_lt_is_Some_2 t (Z.to_nat k)) as [x Hx]; [lia|].
  unfold arg. rewrite Hx. by apply peek_lookup.
Qed.

Lemma arg_in_u t k : Forall (in_u 256) t -> is_u256 (arg t k).
Proof.
  intros Ht. unfold arg. destruct (t !! Z.to_nat k) eqn:E; simpl; [|by split].
  by eapply Forall_lookup_1.
Qed.
#[export] Hint Resolve arg_in_u : words.

(** The memory regions an instruction reads or writes, as (offset, size). *)
Definition regions (i : Instruction) (t : list U256) : list (Z * Z) :=
  if (i =? MSTORE) || (i =? MLOAD) then [(arg t 0, 32)]
  else if i =? MSTORE8 then [(arg t 0, 1)]
  else if (i =? RETURN) || (i =? REVERT) || (i =? SHA3) then [(arg t 0, arg t 1)]
  else if (i =? CALLDATACOPY) || (i =? CODECOPY) || (i =? RETURNDATACOPY) then [(arg t 0, arg t 2)]
  else if i =? EXTCODECOPY then [(arg t 1, arg t 3)]
  else if (LOG0 <=? i) && (i <=? LOG4) then [(arg t 0, arg t 1)]
  else if (i =? CALL) || (i =? CALLCODE) then [(arg t 5, arg t 6); (arg t 3, arg t 4)]
  else if (i =? DELEGATECALL) || (i =? STATICCALL) then [(arg t 4, arg t 5); (arg t 2, arg t 3)]
  else if (i =? CREATE) || (i =? CREATE2) then [(arg t 1, arg t 2)]
  else [].

Definition covers (m : Z) (rs : list (Z * Z)) : Prop := Forall (fun '(o, s) => s = 0 \/ o + s <= m) rs.

Definition is_call (i : Instruction) : bool :=
  (i =? CALL) || (i =? CALLCODE) || (i =? DELEGATECALL) || (i =? STATICCALL).
Definition is_create (i : Instruction) : bool := (i =? CREATE) || (i =? CREATE2).

(** Does the call transfer value (and so earn the stipend)? *)
Definition transfers_value (i : Instruction) (t : list U256) : bool :=
  ((i =? CALL) || (i =? CALLCODE)) && negb (arg t 2 =? 0).

(** The part of a request's gas that is never handed to the callee. *)
Definition call_surcharge (s : Schedule) (i : Instruction) (t : list U256) : Z :=
  if transfers_value i t then call_value_transfer_gas s else 0.

(** An instruction that moves a counter of the externalities pays at least one
    gas for it. *)
Definition counted (i : Instruction) : Z := if is_create i || (i =? SSTORE) then 1 else 0.

(** Memory price: [memory_gas] per word plus the quadratic term. *)
Definition mem_price (s : Schedule) (n : Z) : Z :=
  (n / 32) * memory_gas s + (n / 32) * (n / 32) / 512.

Lemma mem_price_mono s m n : 0 <= memory_gas s -> 0 <= m <= n -> mem_price s m <= mem_price s n.
Proof.
  intros Hg Hm. unfold mem_price. assert (0 <= m / 32 <= n / 32).
  { split; [apply Z.div_pos; lia|apply Z.div_le_mono; lia]. }
  apply Z.add_le_mono; [nia|]. apply Z.div_le_mono; nia.
Qed.

(** Memory paid for in 64 bits fits into a vector. *)
Lemma mem_price_fits s n : 0 <= memory_gas s -> 0 <= n -> mem_price s n < 2 ^ 64 -> n < 2 ^ 63.
Proof.
  unfold mem_price. intros Hg Hn Hp. pose proof (Z.div_pos n 32 Hn ltac:(lia)) as Hw.
  pose proof (Z.div_mod n 32 ltac:(lia)). pose proof (Z.mod_pos_bound n 32 ltac:(lia)).
  pose proof (Z.div_mod (n / 32 * (n / 32)) 512 ltac:(lia)). pose proof (Z.mod_pos_bound (n / 32 * (n / 32)) 512 ltac:(lia)).
  assert (0 <= n / 32 * memory_gas s) by nia. assert (n / 32 < 2 ^ 40); [|lia].
  apply Z.lt_nge. intros Hge. assert (2 ^ 40 * 2 ^ 40 <= n / 32 * (n / 32)) by nia. lia.
Qed.
Lemma mem_price_nonneg s n : 0 <= memory_gas s -> 0 <= n -> 0 <= mem_price s n.
Proof. intros. apply (mem_price_mono s 0 n); lia. Qed.

(** Evaluates table entries of known instructions. *)
Ltac eval_info :=
  repeat match goal with
  | H : context [args (info_of ?i)] |- _ =>
      assert_fails (is_var i); let v := eval vm_compute in (args (info_of i)) in change (args (info_of i)) with v in H
  | H : context [ret (info_of ?i)] |- _ =>
      assert_fails (is_var i); let v := eval vm_compute in (ret (info_of i)) in change (ret (info_of i)) with v in H
  | |- context [args (info_of ?i)] =>
      assert_fails (is_var i); let v := eval vm_compute in (args (info_of i)) in change (args (info_of i)) with v
  | |- context [ret (info_of ?i)] =>
      assert_fails (is_var i); let v := eval vm_compute in (ret (info_of i)) in change (ret (info_of i)) with v
  end.

(** Case split on the next test of an instruction dispatch, keeping the
    negative tests as equations. *)
Ltac dispatch :=
  match goal with
  | |- context [if ?b then _ else _] => let E := fresh "E" in destruct b eqn:E
  end;
  repeat match goal with
  | H : _ || _ = true |- _ => apply orb_true_iff in H as [H|H]
  | H : _ || _ = false |- _ => apply orb_false_iff in H as [? ?]
  end;
  repeat match goal with
  | H : (?i =? _) = true |- _ => is_var i; apply Z.eqb_eq in H; subst i
  end.

(** Uses the recorded negative tests. *)
Ltac use_tests :=
  repeat match goal with H : ?b = false |- context [?b] => rewrite H end; cbn [orb andb negb].

(** The log instructions take their topics besides offset and size. *)
Lemma log_info i : LOG0 <= i <= LOG4 -> args (info_of i) = i - LOG0 + 2 /\ ret (info_of i) = 0.
Proof.
  unfold LOG0, LOG4. intros Hi.
  assert (i = 0xa0 \/ i = 0xa1 \/ i = 0xa2 \/ i = 0xa3 \/ i = 0xa4) as Hc by lia.
  destruct_or! Hc; subst i; by vm_compute.
Qed.

Section proofs.
Context `{CostLaws} {X : Type} `{ExtLaws X}.
Let P : Prop := 64 < cost_bits.

Lemma pow_bits_ge : 2 ^ 64 <= 2 ^ cost_bits.
Proof. apply Z.pow_le_mono_r; [lia|]. apply cost_bits_ge. Qed.
Lemma pow_bits_le : 2 ^ cost_bits <= 2 ^ 256.
Proof. apply Z.pow_le_mono_r; [lia|]. apply cost_bits_le. Qed.

Lemma usize_in_bits x : is_usize x -> in_u cost_bits x.
Proof. apply in_u_le, cost_bits_ge. Qed.

Lemma bits_in_u256 x : in_u cost_bits x -> is_u256 x.
Proof. apply in_u_le, cost_bits_le. Qed.

Lemma overflowing_add_wp {F} w a b :
  0 <= w -> 0 <= a -> 0 <= b ->
  wp (overflowing (overflowing_add w a b)) (fun v => v = a + b /\ a + b < 2 ^ w) (raised F).
Proof.
  intros. unfold overflowing, overflowing_add. destruct (Z.leb_spec (2 ^ w) (a + b)); [done|].
  simpl. rewrite wrap_small by (split; lia). done.
Qed.

Lemma overflow_add_wp {F} a b :
  0 <= a -> 0 <= b -> wp (overflowing (overflow_add a b)) (fun v => v = a + b /\ a + b < 2 ^ cost_bits) (raised F).
Proof. intros. rewrite overflow_add_spec. apply overflowing_add_wp; [pose proof cost_bits_ge; lia|done..]. Qed.

Lemma overflow_mul_wp {F} a b :
  0 <= a -> 0 <= b -> wp (overflowing (overflow_mul a b)) (fun v => v = a * b /\ a * b < 2 ^ cost_bits) (raised F).
Proof.
  intros. rewrite overflow_mul_spec. unfold overflowing, overflowing_mul.
  destruct (Z.leb_spec (2 ^ cost_bits) (a * b)); [done|]. simpl. rewrite wrap_small by (split; nia). done.
Qed.

Lemma from_u256_wp {F} v : is_u256 v -> wp (from_u256 v) (fun g => g = v /\ in_u cost_bits v) (raised F).
Proof.
  intros Hv. pose proof (from_u256_no_panic v). destruct (from_u256 v) eqn:E; simpl; [|by apply from_u256_error in E as ->|done].
  by apply from_u256_inv.
Qed.

Lemma mem_needed_wp {F} off size :
  is_u256 off -> is_u256 size ->
  wp (mem_needed off size) (fun m => in_u cost_bits m /\ (size = 0 \/ off + size <= m)) (raised F).
Proof.
  intros Ho Hs. unfold mem_needed. pose proof pow_bits_ge. destruct (Z.eqb_spec size 0).
  { split; [split; lia|by left]. }
  destruct Ho, Hs. apply wp_bind. eapply wp_post; [apply overflowing_add_wp; lia|].
  intros v [-> Hv]. eapply wp_post; [apply from_u256_wp; split; lia|].
  intros g [-> Hg]. split; [done|right; lia].
Qed.

Lemma mem_needed_const_wp {F} off n :
  is_u256 off -> 0 <= n -> wp (mem_needed_const off n) (fun m => in_u cost_bits m /\ off + n <= m) (raised F).
Proof.
  intros [] ?. unfold mem_needed_const.
  apply wp_bind. eapply wp_post; [apply overflowing_add_wp; lia|].
  intros v [-> Hv]. eapply wp_post; [apply from_u256_wp; split; lia|].
  intros g [-> Hg]. split; [done|lia].
Qed.

(** ** Memory charge *)

(** The gasometer's account of a memory of [ms] bytes. *)
Definition mem_inv (s : Schedule) (g : Gasometer) (ms : Z) : Prop :=
  0 <= ms /\ ms mod 32 = 0 /\ in_u cost_bits (current_gas g) /\
  current_mem_gas g = mem_price s ms /\ in_u cost_bits (mem_price s ms).

Variable sched : Schedule.
Hypothesis Hsched : SchedulePrices sched.

Lemma gas_for_mem_wp {F} n :
  in_u cost_bits n ->
  wp (gas_for_mem sched n) (fun v => v = mem_price sched n /\ in_u cost_bits v) (raised F).
Proof.
  intros [Hn0 Hn1]. unfold gas_for_mem, mem_price.
  pose proof (sp_memory _ Hsched). rewrite (sp_quad _ Hsched), Z.eqb_refl.
  rewrite Z.shiftr_div_pow2 by lia. change (2 ^ 5) with 32.
  assert (0 <= n / 32) by (apply Z.div_pos; lia).
  assert (n / 32 <= n) by (apply Z.div_le_upper_bound; lia).
  apply wp_bind. eapply wp_post; [apply overflow_mul_wp; lia|].
  intros a [-> Ha]. apply wp_bind.
  destruct (overflow_mul_shr (n / 32) (n / 32) 9) as [b o] eqn:Eo.
  destruct o; [done|].
  destruct (overflow_mul_shr_spec (n / 32) (n / 32) 9 b) as [-> Hb]; [split; lia|split; lia|lia|done|].
  simpl. change (2 ^ 9) with 512.
  assert (0 <= n / 32 * (n / 32) / 512) by (apply Z.div_pos; nia).
  eapply wp_post; [apply overflow_add_wp; [nia|done]|].
  intros v [-> Hv]. split; [done|split; nia].
Qed.

(** Rounding up to a multiple of 32. *)
Lemma round32 m : 0 <= m ->
  let r := Z.shiftl (Z.shiftr (m + 31) 5) 5 in m <= r <= m + 31 /\ r mod 32 = 0.
Proof.
  intros Hm. simpl. rewrite Z.shiftl_mul_pow2, Z.shiftr_div_pow2 by lia. change (2 ^ 5) with 32.
  pose proof (Z.div_mod (m + 31) 32). pose proof (Z.mod_pos_bound (m + 31) 32).
  split; [lia|]. apply Z.mod_mul. lia.
Qed.

Lemma mem_gas_cost_wp {F} g ms m :
  mem_inv sched g ms -> in_u cost_bits m ->
  wpp P (mem_gas_cost g sched ms m)
    (fun '(c, ng, sz) =>
       0 <= c < 2 ^ cost_bits /\ m <= sz /\ sz mod 32 = 0 /\ is_usize sz /\
       ng = mem_price sched (Z.max ms sz) /\ in_u cost_bits ng) (raised F).
Proof.
  intros (Hms & Hms32 & Hg & Hmg & Hmp) [Hm0 Hm1]. unfold mem_gas_cost.
  apply wp_bind. eapply wp_post; [apply wp_weaken, overflow_add_wp; lia|].
  intros v [-> Hv]. destruct (round32 m Hm0) as [Hr1 Hr2].
  set (r := Z.shiftl (Z.shiftr (m + 31) 5) 5) in *.
  pose proof (sp_memory _ Hsched) as Hmem. apply wp_bind.
  apply (wp_mono _ _ (fun '(c, ng) => 0 <= c < 2 ^ cost_bits /\ ng = mem_price sched (Z.max ms r) /\ in_u cost_bits ng) _ (raised F)).
  - destruct (Z.ltb_spec ms r).
    + apply wp_bind. eapply wp_post; [apply wp_weaken, gas_for_mem_wp; split; lia|].
      intros ng [-> [Hng0 Hng1]]. pose proof (mem_price_mono sched ms r). pose proof (mem_price_nonneg sched ms).
      rewrite sub_chk_ok by (rewrite Hmg; lia). simpl. rewrite Hmg, Z.max_r by lia. unfold in_u. lia.
    + simpl. pose proof pow_bits_ge. rewrite Z.max_l by lia. rewrite Hmg. unfold in_u in *. lia.
  - intros [c ng] (Hc & -> & Hng). simpl. destruct (Z.lt_ge_cases r (2 ^ 64)).
    + rewrite as_usize_fits by (split; lia). simpl. unfold in_u in *. repeat split; lia || done.
    + pose proof (as_usize_inv r) as Hinv. destruct (as_usize r) as [y| |] eqn:Ey; [|by apply as_usize_error in Ey|].
      * destruct (Hinv y) as [_ []]; [split; lia|done|lia].
      * simpl. unfold P. assert (Hlt : 2 ^ 64 < 2 ^ cost_bits) by lia.
        apply Z.pow_lt_mono_r_iff in Hlt; pose proof cost_bits_ge; lia.
  - done.
Qed.

(** ** Gas for sub-calls *)
Lemma gas_provided_wp {F} g needed requested :
  in_u cost_bits (current_gas g) -> 0 <= needed -> (forall r, requested = Some r -> is_u256 r) ->
  wp (gas_provided g sched needed requested) (fun p => in_u cost_bits p) (raised F).
Proof.
  intros [Hg0 Hg1] Hn Hr. unfold gas_provided. pose proof pow_bits_ge.
  assert (Hreq : forall r, requested = Some r -> wp (from_u256 r) (fun p => in_u cost_bits p) (raised F)).
  { intros r ->. eapply wp_post; [by apply from_u256_wp, Hr|]. by intros ? [-> ?]. }
  destruct (sub_gas_cap_divisor sched) as [d|] eqn:Ed.
  - pose proof (sp_divisor _ Hsched d Ed). destruct (Z.leb_spec needed (current_gas g)).
    + rewrite sub_chk_ok by done. set (rem := current_gas g - needed). cbn [mbind outcome_bind].
      assert (Hrem : 0 <= rem < 2 ^ cost_bits) by lia.
      apply wp_bind. apply (wp_mono _ _ (fun m => 0 <= m <= rem) _ (raised F)); [| |done].
      * destruct (d =? 64); [|rewrite (proj2 (Z.eqb_neq d 0)) by lia].
        -- rewrite Z.shiftr_div_pow2 by lia. assert (0 <= rem / 2 ^ 6 <= rem).
           { split; [apply Z.div_pos; lia|apply Z.div_le_upper_bound; lia]. }
           rewrite sub_chk_ok by lia. simpl. lia.
        -- assert (0 <= rem / d <= rem).
           { split; [apply Z.div_pos; lia|apply Z.div_le_upper_bound; nia]. }
           rewrite sub_chk_ok by lia. simpl. lia.
      * intros m Hm. destruct requested as [r|]; [|simpl; unfold in_u; lia]. cbn [fmap option_fmap option_map].
        specialize (Hreq r eq_refl). destruct (from_u256 r) as [p| |]; simpl in *; unfold in_u in *; lia || done.
    + destruct requested as [r|]; [by apply Hreq|]. split; simpl; lia.
  - destruct requested as [r|]; [by apply Hreq|]. cbn [fmap option_fmap option_map].
    destruct (Z.leb_spec needed (current_gas g)); [rewrite sub_chk_ok by done|]; split; simpl; lia.
Qed.

(** ** From request to requirements *)
Definition request_gas (r : Request) : Z :=
  match r with RGas g | RGasMem g _ | RGasMemProvide g _ _ | RGasMemCopy g _ _ => g end.
Definition request_mem (r : Request) : Z :=
  match r with RGas _ => 0 | RGasMem _ m | RGasMemProvide _ m _ | RGasMemCopy _ m _ => m end.

Definition request_ok (r : Request) : Prop :=
  in_u cost_bits (request_gas r) /\ in_u cost_bits (request_mem r) /\
  match r with
  | RGasMemProvide _ _ requested => forall v, requested = Some v -> is_u256 v
  | RGasMemCopy _ _ c => in_u cost_bits c
  | _ => True
  end.

Record req_post (ms : Z) (r : Request) (q : InstructionRequirements) : Prop := {
  rp_cost : in_u cost_bits (gas_cost q);
  rp_gas : request_gas r <= gas_cost q;
  rp_size : is_usize (memory_required_size q);
  rp_size32 : memory_required_size q mod 32 = 0;
  rp_mem : request_mem r <= memory_required_size q;
  rp_total : memory_total_gas q = mem_price sched (Z.max ms (memory_required_size q));
  rp_total_u : in_u cost_bits (memory_total_gas q);
  rp_provide : match r with
               | RGasMemProvide g _ _ => exists p, provide_gas q = Some p /\ 0 <= p /\ g + p <= gas_cost q
               | _ => provide_gas q = None
               end;
}.

Lemma shiftr5_bound c : 0 <= c -> c < 2 ^ cost_bits -> 0 <= 32 * Z.shiftr c 5 < 2 ^ cost_bits.
Proof.
  intros. rewrite Z.shiftr_div_pow2 by lia. change (2 ^ 5) with 32.
  pose proof (Z.div_mod c 32). pose proof (Z.mod_pos_bound c 32). pose proof (Z.div_pos c 32). lia.
Qed.

Lemma request_requirements_wp {F} g ms r :
  mem_inv sched g ms -> request_ok r ->
  wpp P (request_requirements g sched ms r) (req_post ms r) (raised F).
Proof.
  intros Hinv (Hgas & Hmem & Hrest). pose proof Hinv as (Hms & _ & Hcg & Hmg & Hmp).
  destruct r as [gas|gas m|gas m requested|gas m copy]; cbn [request_gas request_mem] in *;
    [|apply wp_bind; (eapply wp_post; [by apply mem_gas_cost_wp|]);
      intros [[c ng] sz] (Hc & Hsz & Hsz32 & Hszu & -> & Hng); destruct Hgas as [Hgas0 Hgas1]..].
  - constructor; simpl; try done; rewrite ?Z.max_l by lia; try done; by rewrite Hmg.
  - apply wp_bind. eapply wp_post; [apply wp_weaken, overflow_add_wp; lia|].
    intros v [-> Hv]. constructor; simpl; try done; try (split; lia); lia.
  - apply wp_bind. eapply wp_post; [apply wp_weaken, overflow_add_wp; lia|].
    intros v [-> Hv]. apply wp_bind.
    eapply wp_post; [apply wp_weaken, gas_provided_wp; [done|lia|done]|].
    intros p [Hp0 Hp1]. apply wp_bind. eapply wp_post; [apply wp_weaken, overflow_add_wp; lia|].
    intros v [-> Hv']. constructor; simpl; try done; try (split; lia); try lia.
    exists p. split; [done|lia].
  - destruct Hrest as [Hcp0 Hcp1]. apply wp_bind. unfold add_gas_usize.
    eapply wp_post; [apply wp_weaken, overflow_add_wp; lia|].
    intros cv [-> Hcv]. pose proof (sp_copy _ Hsched). pose proof (shiftr5_bound (copy + 31)).
    set (w := Z.shiftr (copy + 31) 5) in *.
    rewrite mul_chk_ok by nia. cbn [mbind outcome_bind].
    apply wp_bind. eapply wp_post; [apply wp_weaken, overflow_add_wp; [lia|nia]|].
    intros v [-> Hv]. apply wp_bind. eapply wp_post; [apply wp_weaken, overflow_add_wp; [nia|lia]|].
    intros v [-> Hv']. constructor; simpl; try done; try (split; nia); nia.
Qed.

Lemma regions_counted i t : is_create i = false -> regions i t <> [] -> counted i = 0.
Proof. unfold counted. intros ->. destruct (Z.eqb_spec i SSTORE) as [->|]; [|done]. by intros []. Qed.

(** ** From instruction to request *)
Section request.
Variables (x : X) (i : Instruction) (t l : list U256).
Hypotheses (Hx : ext_ok x) (Hxs : ext_schedule x = sched) (Ht : Forall (in_u 256) t)
  (Htier : tier (info_of i) <> Invalid) (Hargs : args (info_of i) <= len t).

Definition provides (r : Request) : bool := match r with RGasMemProvide _ _ _ => true | _ => false end.

Record request_post (r : Request) : Prop := {
  rq_ok : request_ok r;
  rq_covers : covers (request_mem r) (regions i t);
  rq_provides : provides r = is_call i || is_create i;
  rq_surcharge : counted i + call_surcharge sched i t <= request_gas r;
  rq_jump : i = JUMP \/ i = JUMPI -> 1 <= request_gas r;
}.

Lemma price_in_u p : 0 <= p < 2 ^ 40 -> in_u cost_bits p.
Proof. pose proof pow_bits_ge. intros. split; lia. Qed.

Lemma request_simple g :
  0 <= g < 2 ^ 40 -> regions i t = [] -> is_call i || is_create i = false ->
  (i = JUMP \/ i = JUMPI -> 1 <= g) -> counted i <= g -> request_post (RGas g).
Proof.
  intros Hg Hr Hc Hj Hct. constructor; cbn [request_gas request_mem provides]; try done.
  - split_and!; [by apply price_in_u|by apply price_in_u|done].
  - rewrite Hr. constructor.
  - unfold call_surcharge, transfers_value, is_call in *.
    apply orb_false_iff in Hc as [Hc _]. repeat (apply orb_false_iff in Hc as [Hc ?]).
    rewrite Hc. use_tests. lia.
Qed.

Lemma new_account_wp b1 b2 a :
  in_u 160 a ->
  wp (or_m (and_m b1 (not_m (ext_exists x a))) (and_m b2 (not_m (ext_exists_and_not_null x a)))) any (raised ext_internal).
Proof.
  intros Ha. pose proof (ext_exists_ok x a Hx Ha) as He. pose proof (ext_exists_and_not_null_ok x a Hx Ha) as Hn.
  unfold or_m, and_m, not_m. destruct b1, b2, (ext_exists x a) as [[]| |], (ext_exists_and_not_null x a) as [[]| |]; done.
Qed.

Lemma sstore_request_wp : i = SSTORE -> wp (sstore_request x (of_top t l)) request_post (raised ext_internal).
Proof.
  intros Hi. rewrite Hi in Hargs. eval_info. unfold sstore_request. rewrite !peek_arg by lia. cbn [mbind outcome_bind].
  apply wp_bind. eapply wp_post; [apply ext_storage_at_ok; auto with words|].
  pose proof (sp_sstore _ Hsched). rewrite Hxs. intros v Hv.
  apply request_simple; [destruct (_ && _); lia|by rewrite Hi|by rewrite Hi|rewrite Hi; by intros [?|?]|].
  rewrite Hi. change (counted SSTORE) with 1. destruct (_ && _); lia.
Qed.

Lemma suicide_request_wp : i = SUICIDE -> wp (suicide_request x (of_top t l)) request_post (raised ext_internal).
Proof.
  intros Hi. rewrite Hi in Hargs. eval_info. unfold suicide_request. rewrite Hxs.
  apply wp_bind. eapply wp_post; [by apply ext_origin_balance_ok|]. intros ob Hob.
  rewrite peek_arg by lia. cbn [mbind outcome_bind]. apply wp_bind.
  eapply wp_post; [apply new_account_wp, u256_to_address_in_u|]. intros [] _.
  - pose proof (sp_suicide _ Hsched). apply wp_bind. eapply wp_post; [apply overflow_add_wp; lia|].
    intros v [-> Hv]. apply request_simple; [lia|by rewrite Hi|by rewrite Hi|rewrite Hi; by intros [?|?]|rewrite Hi; unfold counted; simpl; lia].
  - pose proof (sp_suicide _ Hsched). apply request_simple; [lia|by rewrite Hi|by rewrite Hi|rewrite Hi; by intros [?|?]|rewrite Hi; unfold counted; simpl; lia].
Qed.

(** A request that only touches memory. *)
Lemma request_memory r o sz :
  in_u cost_bits (request_gas r) -> in_u cost_bits (request_mem r) ->
  match r with RGasMem _ _ => True | RGasMemCopy _ _ c => in_u cost_bits c | _ => False end ->
  regions i t = [(o, sz)] -> (sz = 0 \/ o + sz <= request_mem r) ->
  is_call i || is_create i = false -> i <> JUMP -> i <> JUMPI -> request_post r.
Proof.
  intros Hg Hm Hk Hr Hc Hcc Hj1 Hj2.
  assert (Hct : counted i = 0) by (apply (regions_counted i t); [exact (proj2 (proj1 (orb_false_iff _ _) Hcc))|by rewrite Hr]). constructor.
  - unfold request_ok. split_and!; [done|done|]. by destruct r.
  - rewrite Hr. constructor; [done|constructor].
  - rewrite Hcc. by destruct r.
  - unfold call_surcharge, transfers_value, is_call in *.
    apply orb_false_iff in Hcc as [Hcc _]. repeat (apply orb_false_iff in Hcc as [Hcc ?]).
    rewrite Hcc. use_tests. rewrite Hct. by destruct Hg.
  - by intros [?|?].
Qed.

Lemma sha3_request_wp : i = SHA3 -> wp (sha3_request sched (of_top t l)) request_post (raised ext_internal).
Proof.
  intros Hi. rewrite Hi in Hargs. eval_info. unfold sha3_request. rewrite !peek_arg by lia. cbn [mbind outcome_bind].
  apply wp_bind. eapply wp_post; [apply from_u256_wp; auto with words|]. intros g [-> [Hg0 Hg1]].
  apply wp_bind. unfold add_gas_usize. eapply wp_post; [apply overflow_add_wp; lia|]. intros w [-> Hw].
  pose proof (sp_sha3 _ Hsched). pose proof (shiftr5_bound (arg t 1 + 31)). pose proof pow_bits_ge.
  set (w := Z.shiftr (arg t 1 + 31) 5) in *. rewrite mul_chk_ok by nia. cbn [mbind outcome_bind].
  assert (sha3_gas sched + sha3_word_gas sched * w < 2 ^ cost_bits).
  { assert (sha3_word_gas sched * w <= 31 * w) by nia. destruct (Z.le_gt_cases (2 ^ 32) w); lia. }
  rewrite add_chk_ok by done. cbn [mbind outcome_bind]. apply wp_bind.
  eapply wp_post; [apply mem_needed_wp; auto with words|]. intros m [Hm Hc].
  eapply request_memory; rewrite ?Hi; simpl; try done. split; nia.
Qed.

Lemma log_request_wp : LOG0 <= i <= LOG4 -> wp (log_request sched i (of_top t l)) request_post (raised ext_internal).
Proof.
  intros Hi. destruct (log_info i Hi) as [Ha _]. rewrite Ha in Hargs. unfold log_request.
  unfold get_log_topics. rewrite !(proj2 (Z.leb_le _ _)) by lia. cbn [andb mbind outcome_bind].
  pose proof (sp_log _ Hsched). unfold LOG0, LOG4 in *.
  rewrite mul_chk_ok by nia. cbn [mbind outcome_bind]. rewrite add_chk_ok by nia. cbn [mbind outcome_bind].
  rewrite !peek_arg by lia. cbn [mbind outcome_bind].
  apply wp_bind. eapply wp_post; [apply from_u256_wp; auto with words|]. intros g [-> [Hg0 Hg1]].
  apply wp_bind. eapply wp_post; [apply overflow_mul_wp; lia|]. intros dg [-> Hdg].
  apply wp_bind. eapply wp_post; [apply overflow_add_wp; nia|]. intros gas [-> Hgas].
  apply wp_bind. eapply wp_post; [apply mem_needed_wp; auto with words|]. intros m [Hm Hc].
  assert (i = 0xa0 \/ i = 0xa1 \/ i = 0xa2 \/ i = 0xa3 \/ i = 0xa4) as Hcase by lia.
  eapply (request_memory (RGasMem _ _) (arg t 0) (arg t 1)); simpl; try done; [split; nia|..];
    destruct_or! Hcase; by rewrite Hcase.
Qed.

Lemma request_ok_provide g m r :
  0 <= g < 2 ^ 40 -> in_u cost_bits m -> (forall v, r = Some v -> is_u256 v) -> request_ok (RGasMemProvide g m r).
Proof. intros. by split_and!; [apply price_in_u| |]. Qed.

(** The memory of a call: the larger of its two regions. *)
Lemma call_memory_wp o1 s1 o2 s2 (k : Z -> Z -> outcome Error Request) Q :
  is_u256 o1 -> is_u256 s1 -> is_u256 o2 -> is_u256 s2 ->
  (forall m1 m2, in_u cost_bits (Z.max m1 m2) -> covers (Z.max m1 m2) [(o1, s1); (o2, s2)] -> wp (k m1 m2) Q (raised ext_internal)) ->
  wp (m1 ← mem_needed o1 s1; m2 ← mem_needed o2 s2; k m1 m2) Q (raised ext_internal).
Proof.
  intros Ho1 Hs1 Ho2 Hs2 Hk.
  apply wp_bind. eapply wp_post; [by apply mem_needed_wp|]. intros m1 [[? ?] Hm1].
  apply wp_bind. eapply wp_post; [by apply mem_needed_wp|]. intros m2 [[? ?] Hm2].
  apply Hk; [split; lia|]. constructor; [lia|]. constructor; [lia|constructor].
Qed.

Lemma call_request_wp :
  i = CALL \/ i = CALLCODE -> wp (call_request x i (of_top t l)) request_post (raised ext_internal).
Proof.
  intros Hi. assert (7 <= len t) by (destruct Hi as [Hi|Hi]; rewrite Hi in Hargs; by eval_info).
  unfold call_request. rewrite Hxs, !peek_arg by lia. cbn [mbind outcome_bind].
  apply call_memory_wp; auto with words. intros m1 m2 Hm Hcov.
  pose proof (sp_call _ Hsched) as (Hcg & Hvg & Hng). pose proof (sp_stipend _ Hsched). pose proof pow_bits_ge.
  apply wp_bind. apply (wp_mono _ _ any _ (raised ext_internal)); [|intros na _|done].
  { unfold and_m. destruct (i =? CALL); [|done]. apply new_account_wp, u256_to_address_in_u. }
  apply wp_bind. apply (wp_mono _ _ (fun g => 0 <= g < 2 ^ 34) _ (raised ext_internal)); [|intros g1 Hg1|done].
  { destruct na; [|simpl; lia]. eapply wp_post; [apply overflow_add_wp; lia|]. intros v [-> Hv]. lia. }
  apply wp_bind.
  apply (wp_mono _ _ (fun g => 0 <= g < 2 ^ 35 /\ (arg t 2 <> 0 -> call_value_transfer_gas sched <= g)) _ (raised ext_internal));
    [|intros g2 [Hg2 Hv2]|done].
  { destruct (Z.eqb_spec (arg t 2) 0); cbn [negb]; [simpl; lia|].
    eapply wp_post; [apply overflow_add_wp; lia|]. intros v [-> Hv]. lia. }
  constructor; cbn [request_gas request_mem provides].
  - apply request_ok_provide; [lia|done|]. intros v [= <-]. auto with words.
  - by destruct Hi as [Hi|Hi]; rewrite Hi.
  - by destruct Hi as [Hi|Hi]; rewrite Hi.
  - replace (counted i) with 0 by (by destruct Hi as [Hi|Hi]; rewrite Hi).
    unfold call_surcharge, transfers_value. destruct (Z.eqb_spec (arg t 2) 0); [rewrite andb_false_r; lia|].
    destruct (_ && _); [by apply Hv2|lia].
  - destruct Hi as [Hi|Hi]; rewrite Hi; by intros [?|?].
Qed.

Lemma delegate_request_wp :
  i = DELEGATECALL \/ i = STATICCALL -> wp (delegate_request sched (of_top t l)) request_post (raised ext_internal).
Proof.
  intros Hi. assert (6 <= len t) by (destruct Hi as [Hi|Hi]; rewrite Hi in Hargs; by eval_info).
  unfold delegate_request. rewrite !peek_arg by lia. cbn [mbind outcome_bind].
  apply call_memory_wp; auto with words. intros m1 m2 Hm Hcov.
  pose proof (sp_call _ Hsched) as (Hcg & Hvg & Hng).
  constructor; cbn [request_gas request_mem provides].
  - apply request_ok_provide; [lia|done|]. intros v [= <-]. auto with words.
  - by destruct Hi as [Hi|Hi]; rewrite Hi.
  - by destruct Hi as [Hi|Hi]; rewrite Hi.
  - destruct Hi as [Hi|Hi]; rewrite Hi; unfold counted, call_surcharge, transfers_value; simpl; lia.
  - destruct Hi as [Hi|Hi]; rewrite Hi; by intros [?|?].
Qed.

Lemma exp_request_wp :
  i = EXP ->
  wp (bg ← mul_chk 64 (exp_byte_gas sched) ((u256_bits (arg t 1) + 7) / 8); g ← add_chk 64 (exp_gas sched) bg; Ok (RGas g))
     request_post (raised ext_internal).
Proof.
  intros Hi. pose proof (u256_bits_bound (arg t 1)) as Hb.
  assert (0 <= (u256_bits (arg t 1) + 7) / 8 <= 32).
  { pose proof (Hb (arg_in_u t 1 Ht)). split; [apply Z.div_pos; lia|]. apply Z.lt_succ_r, Z.div_lt_upper_bound; lia. }
  pose proof (sp_exp _ Hsched). rewrite mul_chk_ok by nia. cbn [mbind outcome_bind].
  rewrite add_chk_ok by nia. apply request_simple; [nia|by rewrite Hi|by rewrite Hi|rewrite Hi; by intros [?|?]|rewrite Hi; unfold counted; simpl; lia].
Qed.

(** The price of the instruction's tier. *)
Lemma default_gas_ok :
  exists g, index (E := Error) (tier_step_gas sched) (get_tier_idx (tier (info_of i))) = Ok g /\ 0 <= g < 2 ^ 32 /\
    (i = JUMP \/ i = JUMPI -> 1 <= g).
Proof.
  destruct (index_exists (E := Error) (tier_step_gas sched) (get_tier_idx (tier (info_of i)))) as (g & Hg & Hi).
  { unfold len. rewrite (sp_tiers _ Hsched). destruct (tier (info_of i)); done. }
  exists g. split_and!; [done|by eapply sp_tier..|].
  intros [Hj|Hj]; rewrite Hj in Hg; [by apply (sp_mid _ Hsched)|by apply (sp_high _ Hsched)].
Qed.
End request.


Lemma request_fixed x i t (Hx : ext_ok x) g :
  0 <= g < 2 ^ 40 -> regions i t = [] -> is_call i || is_create i = false ->
  i <> JUMP -> i <> JUMPI -> counted i = 0 -> wp (Ok (RGas g) : outcome Error Request) (request_post i t) (raised ext_internal).
Proof. intros. apply request_simple; [done..| |lia]. by intros [?|?]. Qed.

(** A request that grows memory over one region. *)
Lemma request_region i t g o sz (mm : outcome Error Z) :
  wp mm (fun m => in_u cost_bits m /\ (sz = 0 \/ o + sz <= m)) (raised ext_internal) -> 0 <= g < 2 ^ 40 ->
  regions i t = [(o, sz)] -> is_call i || is_create i = false -> i <> JUMP -> i <> JUMPI ->
  wp (m ← mm; Ok (RGasMem g m)) (request_post i t) (raised ext_internal).
Proof.
  intros Hm Hg Hr Hc ??. apply wp_bind. eapply wp_post; [exact Hm|]. intros m [??].
  eapply (request_memory i t (RGasMem g m)); simpl; try done. by apply price_in_u.
Qed.

Lemma request_copy i t g o sz (mm : outcome Error Z) :
  wp mm (fun m => in_u cost_bits m /\ (sz = 0 \/ o + sz <= m)) (raised ext_internal) -> 0 <= g < 2 ^ 40 -> is_u256 sz ->
  regions i t = [(o, sz)] -> is_call i || is_create i = false -> i <> JUMP -> i <> JUMPI ->
  wp (m ← mm; c ← from_u256 sz; Ok (RGasMemCopy g m c)) (request_post i t) (raised ext_internal).
Proof.
  intros Hm Hg Hsz Hr Hc ??. apply wp_bind. eapply wp_post; [exact Hm|]. intros m [??].
  apply wp_bind. eapply wp_post; [by apply from_u256_wp|]. intros c [-> ?].
  eapply (request_memory i t (RGasMemCopy g m sz)); simpl; try done. by apply price_in_u.
Qed.

Lemma mem_needed_const_region o n :
  is_u256 o -> 0 <= n -> wp (mem_needed_const o n) (fun m => in_u cost_bits m /\ (n = 0 \/ o + n <= m)) (raised ext_internal).
Proof. intros. eapply wp_post; [by apply mem_needed_const_wp|]. intros m [??]. auto. Qed.

Lemma create_request_wp i t m :
  i = CREATE \/ i = CREATE2 -> in_u cost_bits m -> (arg t 2 = 0 \/ arg t 1 + arg t 2 <= m) ->
  request_post i t (RGasMemProvide (create_gas sched) m None).
Proof.
  intros Hi Hm Hc. pose proof (sp_create _ Hsched). constructor; cbn [request_gas request_mem provides].
  - by apply request_ok_provide; [lia| |].
  - destruct Hi as [-> | ->]; (constructor; [done|constructor]).
  - by destruct Hi as [-> | ->].
  - destruct Hi as [-> | ->]; unfold counted, call_surcharge, transfers_value; simpl; lia.
  - by destruct Hi as [-> | ->]; intros [?|?].
Qed.

Lemma instruction_request_wp x i t l :
  ext_ok x -> ext_schedule x = sched -> Forall (in_u 256) t -> tier (info_of i) <> Invalid ->
  args (info_of i) <= len t ->
  wp (instruction_request x i (info_of i) (of_top t l)) (request_post i t) (raised ext_internal).
Proof.
  intros Hx Hxs Ht Htier Hargs. unfold instruction_request. rewrite Hxs.
  destruct (default_gas_ok i Htier) as (dg & -> & Hdg & Hj). cbn [mbind outcome_bind].
  pose proof (sp_sload _ Hsched). pose proof (sp_ext _ Hsched). pose proof (sp_blockhash _ Hsched).
  repeat dispatch; eval_info; rewrite ?peek_arg by lia; cbn [mbind outcome_bind];
    try (by apply (request_fixed x); [done|lia|..]);
    try (by eapply request_region; [apply mem_needed_const_region; auto with words|lia|..]);
    try (by eapply request_region; [apply mem_needed_wp; auto with words|lia|..]);
    try (by eapply request_copy; [apply mem_needed_wp; auto with words|lia|auto with words|..]).
  - by eapply sstore_request_wp.
  - by eapply suicide_request_wp.
  - by eapply sha3_request_wp.
  - b2p. by apply log_request_wp.
  - apply call_request_wp; auto.
  - apply call_request_wp; auto.
  - apply delegate_request_wp; auto.
  - apply delegate_request_wp; auto.
  - apply wp_bind. eapply wp_post; [by apply mem_needed_wp; auto with words|].
    intros m [??]. by apply create_request_wp; auto.
  - apply wp_bind. eapply wp_post; [by apply mem_needed_wp; auto with words|].
    intros m [??]. by apply create_request_wp; auto.
  - by apply exp_request_wp.
  - apply request_simple; [lia|unfold regions; by use_tests|unfold is_call, is_create; by use_tests|done|unfold counted, is_create; use_tests; simpl; lia].
Qed.

(** The requirements of an instruction whose operands are on the stack: the
    charge is within the cost type, the memory it will touch is within the
    new memory size, the memory price is the quadratic formula, and gas for a
    callee comes on top of the charge's fixed part. *)
Record requirements_post (ms : Z) (i : Instruction) (t : list U256) (q : InstructionRequirements) : Prop := {
  rq_cost : in_u cost_bits (gas_cost q);
  rq_size : is_usize (memory_required_size q);
  rq_size32 : memory_required_size q mod 32 = 0;
  rq_regions : covers (memory_required_size q) (regions i t);
  rq_total : memory_total_gas q = mem_price sched (Z.max ms (memory_required_size q));
  rq_total_u : in_u cost_bits (memory_total_gas q);
  rq_provide : is_Some (provide_gas q) <-> is_call i || is_create i = true;
  rq_provided p : provide_gas q = Some p -> 0 <= p /\ counted i + p + call_surcharge sched i t <= gas_cost q;
  rq_counted : counted i <= gas_cost q;
  rq_jump_cost : i = JUMP \/ i = JUMPI -> 1 <= gas_cost q;
}.

Lemma covers_mono m n rs : m <= n -> covers m rs -> covers n rs.
Proof. intros Hmn. apply Forall_impl. intros [o s]. lia. Qed.

Lemma requirements_wp g x i t l ms :
  mem_inv sched g ms ->
  ext_ok x -> ext_schedule x = sched -> Forall (in_u 256) t -> tier (info_of i) <> Invalid ->
  args (info_of i) <= len t ->
  wpp P (requirements g x i (info_of i) (of_top t l) ms) (requirements_post ms i t) (raised ext_internal).
Proof.
  intros Hinv Hx Hxs Ht Htier Hargs. unfold requirements. apply wp_bind.
  eapply wp_post; [by apply wp_weaken, instruction_request_wp|].
  intros r Hr. rewrite Hxs.
  eapply wp_post; [apply request_requirements_wp; [done|by apply rq_ok with (1 := Hr)]|].
  intros q Hq. destruct Hq, Hr. constructor; try done; try lia.
  - by eapply covers_mono.
  - rewrite <-rq_provides0. unfold is_Some. destruct r; simpl in *; try naive_solver.
  - intros p Hp. destruct r; simpl in *; try congruence.
    destruct rp_provide0 as (p' & Hp' & ? & ?). simplify_eq. lia.
  - pose proof (sp_stipend _ Hsched). unfold call_surcharge in *. destruct (transfers_value i t); lia.
Qed.
End proofs.
