(* ===== verification/JumpDests.v ===== *)
(** * Jump destinations ([ethcore/evm/src/interpreter/shared_cache.rs])

    The analysis that finds the valid jump destinations of a contract and the
    cache in front of it.  A [BitSet] is a finite set of positions.  The LRU
    cache is an interface of two operations; the only thing required of it is
    that it never invents an entry. *)
From stdpp Require Import base list numbers gmap.
From S2P Require Import Prelude Words Vm Instructions.

Abbreviation BitSet := (gset Z).

(** Hash of the empty byte string ([util/hash/src/lib.rs]). *)
Definition KECCAK_EMPTY : H256 := 0xc5d2460186f7233c927e7db2dcc703c0e500b653ca82273b7bfad8045d85a470.

(** The [while position < code.len()] loop; running out of fuel is a panic. *)
Fixpoint find_jump_loop (fuel : nat) (code : bytes) (position : Z) (jump_dests : BitSet) : outcome Error BitSet :=
  match fuel with
  | O => Panic
  | S fuel' =>
      if position <? len code then
        instruction ← index code position;
        if instruction =? JUMPDEST then
          find_jump_loop fuel' code (position + 1) ({[position]} ∪ jump_dests)
        else if is_push instruction then
          n ← get_push_bytes instruction;
          p ← add_chk 64 position n;
          p ← add_chk 64 p 1;
          find_jump_loop fuel' code p jump_dests
        else find_jump_loop fuel' code (position + 1) jump_dests
      else Ok jump_dests
  end.

(** Every iteration advances, so [len code + 1] iterations are enough. *)
Definition find_jump_destinations (code : bytes) : outcome Error BitSet :=
  find_jump_loop (S (length code)) code 0 ∅.

(** [MemoryLruCache<H256, Bits>]: [get_mut] and [insert]. *)
Class JumpCache (C : Type) := {
  cache_get_mut : C -> H256 -> option BitSet * C;
  cache_insert : C -> H256 -> BitSet -> C;
}.

Definition jump_destinations {C} `{JumpCache C} (self : C) (code_hash : H256) (code : bytes) :
    outcome Error (BitSet * C) :=
  if code_hash =? KECCAK_EMPTY then
    d ← find_jump_destinations code; Ok (d, self)
  else
    match cache_get_mut self code_hash with
    | (Some d, self) => Ok (d, self)
    | (None, self) =>
        d ← find_jump_destinations code;
        Ok (d, cache_insert self code_hash d)
    end.

(** ** Specification

    [boundary code p]: position [p] starts an instruction of [code] when the
    code is read from position 0, each push skipping its immediate bytes. *)
Inductive boundary (code : bytes) : Z -> Prop :=
  | boundary_start : boundary code 0
  | boundary_next p i :
      boundary code p -> 0 <= p -> code !! Z.to_nat p = Some i -> is_push i = false -> boundary code (p + 1)
  | boundary_push p i :
      boundary code p -> 0 <= p -> code !! Z.to_nat p = Some i -> is_push i = true ->
      boundary code (p + (i - PUSH1 + 1) + 1).

(** A valid destination is a [JUMPDEST] on an instruction boundary. *)
Definition valid_dest (code : bytes) (p : Z) : Prop :=
  boundary code p /\ code !! Z.to_nat p = Some JUMPDEST.

(** The cache laws: what [get_mut] returns was there, and [insert] adds only
    its own entry. *)
Class JumpCacheLaws (C : Type) `{JumpCache C} := {
  cache_holds : C -> H256 -> BitSet -> Prop;
  cache_get_holds c h d c' : cache_get_mut c h = (Some d, c') -> cache_holds c h d;
  cache_get_keeps c h o c' h' d' : cache_get_mut c h = (o, c') -> cache_holds c' h' d' -> cache_holds c h' d';
  cache_insert_holds c h d h' d' :
    cache_holds (cache_insert c h d) h' d' -> (h' = h /\ d' = d) \/ cache_holds c h' d';
}.

(** [is_push] on the opcode's range. *)
Lemma is_push_spec i : is_push i = true <-> 0x60 <= i <= 0x7f.
Proof. unfold is_push, PUSH1, PUSH32. rewrite andb_true_iff, !Z.leb_le. done. Qed.

(** The loop's next position. *)
Definition next_boundary (p i : Z) : Z :=
  if is_push i then p + (i - PUSH1 + 1) + 1 else p + 1.

Lemma next_boundary_bound p i : p < next_boundary p i <= p + 33.
Proof. unfold next_boundary. case_match; [|lia]. apply is_push_spec in H. unfold PUSH1. lia. Qed.

Lemma boundary_step code p i :
  boundary code p -> 0 <= p -> code !! Z.to_nat p = Some i -> boundary code (next_boundary p i).
Proof. intros. unfold next_boundary. case_match; eauto using boundary. Qed.

(** One iteration of the loop. *)
Lemma find_jump_loop_step fuel code p jd i :
  len code + 64 < 2 ^ 64 -> 0 <= p -> code !! Z.to_nat p = Some i ->
  find_jump_loop (S fuel) code p jd =
    find_jump_loop fuel code (next_boundary p i) (if i =? JUMPDEST then {[p]} ∪ jd else jd).
Proof.
  intros Hlen Hp Hi. pose proof (lookup_lt_Some _ _ _ Hi). unfold len in Hlen.
  cbn [find_jump_loop]. rewrite (proj2 (Z.ltb_lt _ _)) by (unfold len; lia).
  rewrite (index_ok _ _ i) by done. cbn [mbind outcome_bind].
  pose proof (next_boundary_bound p i). unfold next_boundary in *.
  destruct (Z.eqb_spec i JUMPDEST) as [->|]; [done|].
  unfold get_push_bytes. destruct (is_push i) eqn:Hpush; [|done].
  cbn [mbind outcome_bind]. rewrite add_chk_ok by lia. cbn [mbind outcome_bind].
  by rewrite add_chk_ok by lia.
Qed.

Lemma find_jump_loop_end fuel code p jd : len code <= p -> find_jump_loop (S fuel) code p jd = Ok jd.
Proof. intros. cbn [find_jump_loop]. by rewrite (proj2 (Z.ltb_ge _ _)). Qed.

Lemma find_jump_loop_result fuel code p jd :
  len code + 64 < 2 ^ 64 -> boundary code p -> 0 <= p -> (Z.to_nat (len code - p) < fuel)%nat ->
  (forall q, q ∈ jd -> 0 <= q /\ valid_dest code q) ->
  exists d, find_jump_loop fuel code p jd = Ok d /\ jd ⊆ d /\ (forall q, q ∈ d -> 0 <= q /\ valid_dest code q).
Proof.
  intros Hlen. revert p jd. induction fuel as [|fuel IH]; intros p jd Hb Hp Hf Hjd; [lia|].
  destruct (code !! Z.to_nat p) as [i|] eqn:Hi.
  - rewrite (find_jump_loop_step _ _ _ _ i) by done. pose proof (next_boundary_bound p i).
    pose proof (lookup_lt_Some _ _ _ Hi). unfold len in *.
    destruct (IH (next_boundary p i) (if i =? JUMPDEST then {[p]} ∪ jd else jd))
      as (d & -> & Hsub & Hd); [by apply boundary_step|lia|lia| |].
    + destruct (Z.eqb_spec i JUMPDEST) as [->|]; [|done].
      intros q [->%elem_of_singleton|]%elem_of_union; [by split|auto].
    + exists d. split_and!; [done| |done]. destruct (Z.eqb_spec i JUMPDEST); set_solver.
  - rewrite find_jump_loop_end by (apply lookup_ge_None in Hi; unfold len; lia). by exists jd.
Qed.

(** Every boundary is visited by a run that returns. *)
Lemma find_jump_loop_visits fuel code d q :
  len code + 64 < 2 ^ 64 -> find_jump_loop fuel code 0 ∅ = Ok d -> boundary code q ->
  0 <= q /\ exists fuel' jd, find_jump_loop fuel' code q jd = Ok d.
Proof.
  intros Hlen Hd. induction 1 as [|p i Hb [IH0 (f & jd & IH)] Hp Hi Hpush|p i Hb [IH0 (f & jd & IH)] Hp Hi Hpush];
    [eauto with lia| |]; (destruct f as [|f]; [done|]);
    rewrite (find_jump_loop_step _ _ _ _ i) in IH by done; unfold next_boundary in IH; rewrite Hpush in IH.
  - split; [lia|eauto].
  - apply is_push_spec in Hpush. unfold PUSH1 in *. split; [lia|eauto].
Qed.

Lemma find_jump_loop_mono fuel code p jd d :
  len code + 64 < 2 ^ 64 -> 0 <= p -> find_jump_loop fuel code p jd = Ok d -> jd ⊆ d.
Proof.
  intros Hlen. revert p jd. induction fuel as [|fuel IH]; intros p jd Hp Hd; [done|].
  destruct (code !! Z.to_nat p) as [i|] eqn:Hi.
  - rewrite (find_jump_loop_step _ _ _ _ i) in Hd by done. pose proof (next_boundary_bound p i).
    apply IH in Hd; [|lia]. destruct (Z.eqb_spec i JUMPDEST); set_solver.
  - rewrite find_jump_loop_end in Hd by (apply lookup_ge_None in Hi; unfold len; lia). by inv_ok.
Qed.

Lemma find_jump_destinations_spec code :
  len code + 64 < 2 ^ 64 ->
  exists d, find_jump_destinations code = Ok d /\ forall p, p ∈ d <-> valid_dest code p.
Proof.
  intros Hlen. unfold find_jump_destinations.
  destruct (find_jump_loop_result (S (length code)) code 0 ∅) as (d & Hd & _ & Hsound);
    [done|constructor|lia|unfold len; lia|set_solver|].
  exists d. split; [done|]. intros p. split; [by intros [_ ?]%Hsound|]. intros [Hb Hj].
  destruct (find_jump_loop_visits _ _ _ _ Hlen Hd Hb) as (Hp & [|f] & jd & Hf); [done|].
  rewrite (find_jump_loop_step _ _ _ _ JUMPDEST), Z.eqb_refl in Hf by done.
  pose proof (next_boundary_bound p JUMPDEST).
  apply find_jump_loop_mono in Hf; [set_solver|done|lia].
Qed.
