(* ===== verification/Interpreter.v ===== *)
(** * The EVM interpreter ([ethcore/evm/src/interpreter/mod.rs])

    The code reader, the execution of every instruction and the main loop of
    [Interpreter::exec], generic in the cost type and in the externalities.
    [exec_instruction] runs in a state monad over the data it mutates: the
    interpreter's memory and return-data buffer, the code reader, the stack and
    the externalities; an error carries the externalities as they are at that
    point.  [keccak] is a parameter. *)
From stdpp Require Import base list numbers gmap.
From S2P Require Import Prelude Words Vm Cost Instructions EvmStack EvmMemory Gasometer JumpDests.

(** ** Code reader *)
Record CodeReader := mkReader { position : Z; reader_code : bytes }.

Definition CodeReader_new (code : bytes) : CodeReader := mkReader 0 code.

Definition CodeReader_read {E} (self : CodeReader) (no_of_bytes : Z) : outcome E (U256 * CodeReader) :=
  let pos := position self in
  p ← add_chk 64 pos no_of_bytes;
  let max := Z.min p (len (reader_code self)) in
  s ← slice (reader_code self) pos max;
  v ← u256_from_slice s;
  Ok (v, mkReader p (reader_code self)).

Definition CodeReader_len (self : CodeReader) : Z := len (reader_code self).

Inductive InstructionResult : Type :=
  | IOk
  | UnusedGas (gas : Z)
  | JumpToPosition (pos : U256)
  | StopExecutionNeedsReturn (gas : Z) (init_off init_size : U256) (apply : bool)
  | StopExecution.

(** ** The mutable state of [exec_instruction] and its monad *)
Record Machine (X : Type) := mkMachine {
  m_mem : bytes;
  m_return_data : ReturnData;
  m_reader : CodeReader;
  m_stack : VecStack;
  m_ext : X;
}.
Arguments mkMachine {X} _ _ _ _ _.
Arguments m_mem {X} _.
Arguments m_return_data {X} _.
Arguments m_reader {X} _.
Arguments m_stack {X} _.
Arguments m_ext {X} _.

Definition M (X A : Type) : Type := Machine X -> outcome (Error * X) (A * Machine X).

#[global] Instance M_ret {X} : MRet (M X) := fun A a s => Ok (a, s).
#[global] Instance M_bind {X} : MBind (M X) :=
  fun A B f m s => match m s with Ok (a, s') => f a s' | Err e => Err e | Panic => Panic end.

Section monad.
Context {X : Type}.

(** Fallible code that does not touch the state. *)
Definition lift {A} (o : outcome Error A) : M X A := fun s =>
  match o with Ok a => Ok (a, s) | Err e => Err (e, m_ext s) | Panic => Panic end.
Definition gets {A} (f : Machine X -> A) : M X A := fun s => Ok (f s, s).
Definition fail_with {A} (e : Error) : M X A := fun s => Err (e, m_ext s).

Definition set_stack (st : VecStack) (s : Machine X) : Machine X :=
  mkMachine (m_mem s) (m_return_data s) (m_reader s) st (m_ext s).
Definition set_mem (mem : bytes) (s : Machine X) : Machine X :=
  mkMachine mem (m_return_data s) (m_reader s) (m_stack s) (m_ext s).
Definition set_ext (x : X) (s : Machine X) : Machine X :=
  mkMachine (m_mem s) (m_return_data s) (m_reader s) (m_stack s) x.
Definition set_return_data (d : ReturnData) (s : Machine X) : Machine X :=
  mkMachine (m_mem s) d (m_reader s) (m_stack s) (m_ext s).
Definition set_reader (r : CodeReader) (s : Machine X) : Machine X :=
  mkMachine (m_mem s) (m_return_data s) r (m_stack s) (m_ext s).

(** Stack operations on the state. *)
Definition pop : M X U256 := fun s =>
  match pop_back (E := Error) (m_stack s) with
  | Ok (x, st) => Ok (x, set_stack st s) | Err e => Err (e, m_ext s) | Panic => Panic
  end.
Definition pushM (v : U256) : M X unit := fun s => Ok (tt, set_stack (push (m_stack s) v) s).
Definition put_stack (st : VecStack) : M X unit := fun s => Ok (tt, set_stack st s).
Definition put_mem (mem : bytes) : M X unit := fun s => Ok (tt, set_mem mem s).
Definition put_return_data (d : ReturnData) : M X unit := fun s => Ok (tt, set_return_data d s).
Definition put_reader (r : CodeReader) : M X unit := fun s => Ok (tt, set_reader r s).

(** Calls on [&mut ext]. *)
Definition run_ext {A} (f : X -> outcome (Error * X) (A * X)) : M X A := fun s =>
  match f (m_ext s) with
  | Ok (a, x) => Ok (a, set_ext x s) | Err (e, x) => Err (e, x) | Panic => Panic
  end.
Definition run_ext_opt {A} (f : X -> option (A * X)) : M X A := fun s =>
  match f (m_ext s) with Some (a, x) => Ok (a, set_ext x s) | None => Panic end.
End monad.

Definition is_zero (val : U256) : bool := val =? 0.
Definition bool_to_u256 (val : bool) : U256 := if val then 1 else 0.

(** ** Arithmetic of the stack instructions

    The [match b] of [DIV] with its power-of-two cases, and the bodies of the
    signed instructions and of [BYTE] and [SIGNEXTEND]. *)
Definition div_word (a b : U256) : U256 :=
  if negb (is_zero b) then
    if b =? 1 then a
    else if b =? 2 then u256_shr a 1
    else if b =? 2 ^ 5 then u256_shr a 5
    else if b =? 2 ^ 8 then u256_shr a 8
    else if b =? 2 ^ 16 then u256_shr a 16
    else if b =? 2 ^ 24 then u256_shr a 24
    else if b =? 2 ^ 64 then u256_shr a 64
    else if b =? 2 ^ 96 then u256_shr a 96
    else if b =? 2 ^ 224 then u256_shr a 224
    else if b =? 2 ^ 248 then u256_shr a 248
    else a / b
  else 0.

Definition mod_word (a b : U256) : U256 := if negb (is_zero b) then a mod b else 0.

Definition sdiv_word (ua ub : U256) : U256 :=
  let '(a, sign_a) := get_and_reset_sign ua in
  let '(b, sign_b) := get_and_reset_sign ub in
  let min := u256_shl 1 255 - 1 in
  if is_zero b then 0
  else if (a =? min) && (b =? u256_not 0) then min
  else set_sign (a / b) (xorb sign_a sign_b).

Definition smod_word (ua ub : U256) : U256 :=
  let '(a, sign_a) := get_and_reset_sign ua in
  let b := fst (get_and_reset_sign ub) in
  if negb (is_zero b) then set_sign (a mod b) sign_a else 0.

Definition slt_word (ua ub : U256) : bool :=
  let '(a, neg_a) := get_and_reset_sign ua in
  let '(b, neg_b) := get_and_reset_sign ub in
  let is_positive_lt := (a <? b) && negb (neg_a || neg_b) in
  let is_negative_lt := (b <? a) && (neg_a && neg_b) in
  let has_different_signs := neg_a && negb neg_b in
  is_positive_lt || is_negative_lt || has_different_signs.

Definition sgt_word (ua ub : U256) : bool :=
  let '(a, neg_a) := get_and_reset_sign ua in
  let '(b, neg_b) := get_and_reset_sign ub in
  let is_positive_gt := (b <? a) && negb (neg_a || neg_b) in
  let is_negative_gt := (a <? b) && (neg_a && neg_b) in
  let has_different_signs := negb neg_a && neg_b in
  is_positive_gt || is_negative_gt || has_different_signs.

Definition byte_word (word val : U256) : U256 :=
  if word <? 32 then Z.land (u256_shr val (8 * (31 - low_u64 word))) 0xff else 0.

(** Both operands are widened to 512 bits first. *)
Definition addmod_word (a b c : U256) : U256 :=
  if negb (is_zero c) then wrap 256 (fst (overflowing_add 512 a b) mod c) else 0.
Definition mulmod_word (a b c : U256) : U256 :=
  if negb (is_zero c) then wrap 256 (fst (overflowing_mul 512 a b) mod c) else 0.

Definition signextend_word (bit number : U256) : U256 :=
  let bit_position := low_u64 bit * 8 + 7 in
  let b := u256_bit number bit_position in
  let mask := u256_shl 1 bit_position - 1 in
  if b then Z.lor number (u256_not mask) else Z.land number mask.

(** Arity-generic bodies: pop the operands, push the result. *)
Definition unop {X} (f : U256 -> U256) : M X unit := a ← pop; pushM (f a).
Definition binop {X} (f : U256 -> U256 -> U256) : M X unit := a ← pop; b ← pop; pushM (f a b).
Definition ternop {X} (f : U256 -> U256 -> U256 -> U256) : M X unit :=
  a ← pop; b ← pop; c ← pop; pushM (f a b c).

Section exec.
Context {X : Type}.

Definition exec_stack_instruction (instruction : Instruction) : M X unit :=
  if (DUP1 <=? instruction) && (instruction <=? DUP16) then
    position ← lift (get_dup_position instruction);
    st ← gets m_stack;
    val ← lift (peek st position);
    pushM val
  else if (SWAP1 <=? instruction) && (instruction <=? SWAP16) then
    position ← lift (get_swap_position instruction);
    st ← gets m_stack;
    st ← lift (swap_with_top st position);
    put_stack st
  else if instruction =? POP then _ ← pop; mret tt
  else if instruction =? ADD then binop (fun a b => fst (overflowing_add 256 a b))
  else if instruction =? MUL then binop (fun a b => fst (overflowing_mul 256 a b))
  else if instruction =? SUB then binop (fun a b => fst (overflowing_sub 256 a b))
  else if instruction =? DIV then binop div_word
  else if instruction =? MOD then binop mod_word
  else if instruction =? SDIV then binop sdiv_word
  else if instruction =? SMOD then binop smod_word
  else if instruction =? EXP then binop u256_overflowing_pow
  else if instruction =? NOT then unop u256_not
  else if instruction =? LT then binop (fun a b => bool_to_u256 (a <? b))
  else if instruction =? SLT then binop (fun a b => bool_to_u256 (slt_word a b))
  else if instruction =? GT then binop (fun a b => bool_to_u256 (b <? a))
  else if instruction =? SGT then binop (fun a b => bool_to_u256 (sgt_word a b))
  else if instruction =? EQ then binop (fun a b => bool_to_u256 (a =? b))
  else if instruction =? ISZERO then unop (fun a => bool_to_u256 (is_zero a))
  else if instruction =? AND then binop Z.land
  else if instruction =? OR then binop Z.lor
  else if instruction =? XOR then binop Z.lxor
  else if instruction =? BYTE then binop byte_word
  else if instruction =? ADDMOD then ternop addmod_word
  else if instruction =? MULMOD then ternop mulmod_word
  else if instruction =? SIGNEXTEND then
    bit ← pop;
    if bit <? 32 then number ← pop; pushM (signextend_word bit number) else mret tt
  else fail_with (BadInstruction instruction).

(** ** Copy instructions *)

(** The zero fill: [for i in zero_slice.iter_mut() { *i = 0 }]. *)
Definition zero_slice (mem : bytes) (offset size : U256) : outcome Error bytes :=
  '(o, b) ← mem_writeable_slice mem offset size;
  mem_write_back mem o (replicate (length b) 0).

Definition copy_data (mem : bytes) (dest_offset source_offset size : U256) (source : bytes) : outcome Error bytes :=
  let source_size := len source in
  past_end ←
    (if (source_size <? source_offset) || (source_size <? size) then Ok true
     else e ← add_chk 256 source_offset size; Ok (source_size <? e));
  '(mem, output_end) ←
    (if (past_end : bool) then
       mem ←
         (if source_size <? source_offset then zero_slice mem dest_offset size
          else
            d ← add_chk 256 dest_offset source_size;
            d ← sub_chk d source_offset;
            z ← add_chk 256 source_offset size;
            z ← sub_chk z source_size;
            zero_slice mem d z);
       Ok (mem, len source)
     else e ← add_chk 64 (low_u64 size) (low_u64 source_offset); Ok (mem, e));
  if source_offset <? source_size then
    let output_begin := low_u64 source_offset in
    s ← slice source output_begin output_end;
    mem_write_slice mem dest_offset s
  else Ok mem.

Definition copy_data_to_memory (source : bytes) : M X unit :=
  dest_offset ← pop;
  source_offset ← pop;
  size ← pop;
  mem ← gets m_mem;
  mem ← lift (copy_data mem dest_offset source_offset size source);
  put_mem mem.

Definition calldataload (data : option bytes) (big_id : U256) : outcome Error U256 :=
  let id := low_u64 big_id in
  let max := wrap 64 (id + 32) in
  match data with
  | Some data =>
      let bound := Z.min (len data) max in
      if (id <? bound) && (big_id <? len data) then
        s ← slice data id bound;
        v ← copy_from_slice (replicate 32 0) 0 s;
        u256_from_slice v
      else Ok 0
  | None => Ok 0
  end.

(** ** Instructions that reach the externalities *)
Context `{CostType} `{VmExt X}.

(** [Cost::from_u256(gas_left).expect(..)] *)
Definition expect_cost (gas_left : U256) : outcome Error Z :=
  match from_u256 gas_left with Ok g => Ok g | _ => Panic end.

Definition exec_create (instruction : Instruction) (params : ActionParams) (provided : option Z) :
    M X InstructionResult :=
  endowment ← pop;
  init_off ← pop;
  init_size ← pop;
  create_gas ← lift (match provided with Some g => Ok g | None => Panic end);
  is_static ← gets (fun s => ext_is_static (m_ext s));
  if (is_static : bool) then fail_with MutableCallInStaticContext
  else
    _ ← put_return_data ReturnData_empty;
    ext ← gets m_ext;
    balance ← lift (ext_balance ext (address params));
    let can_create := (endowment <=? balance) && (ext_depth ext <? max_depth (ext_schedule ext)) in
    if negb can_create then _ ← pushM 0; mret (UnusedGas create_gas)
    else
      mem ← gets m_mem;
      contract_code ← lift (mem_read_slice mem init_off init_size);
      let address_scheme := if instruction =? CREATE then FromSenderAndNonce else FromSenderAndCodeHash in
      create_result ← run_ext_opt (fun x => ext_create x create_gas endowment contract_code address_scheme);
      match create_result with
      | Created a gas_left =>
          _ ← pushM (address_to_u256 a);
          g ← lift (expect_cost gas_left);
          mret (UnusedGas g)
      | CreateReverted gas_left return_data =>
          _ ← pushM 0;
          _ ← put_return_data return_data;
          g ← lift (expect_cost gas_left);
          mret (UnusedGas g)
      | CreateFailed => _ ← pushM 0; mret IOk
      end.

(** Sender, receiver, balance check and call type of a call instruction. *)
Definition call_targets (instruction : Instruction) (params : ActionParams) (ext : X) (code_addr : Address)
    (value : option U256) : outcome Error (Address * Address * bool * CallType) :=
  if instruction =? CALL then
    if ext_is_static ext && match value with Some v => negb (v =? 0) | None => false end
    then Err MutableCallInStaticContext
    else
      balance ← ext_balance ext (address params);
      v ← (match value with Some v => Ok v | None => Panic end);
      Ok (address params, code_addr, v <=? balance, CT_Call)
  else if instruction =? CALLCODE then
    balance ← ext_balance ext (address params);
    v ← (match value with Some v => Ok v | None => Panic end);
    Ok (address params, address params, v <=? balance, CT_CallCode)
  else if instruction =? DELEGATECALL then Ok (sender params, address params, true, CT_DelegateCall)
  else if instruction =? STATICCALL then Ok (address params, code_addr, true, CT_StaticCall)
  else Panic.

(** The sub-call once its operands are popped: memory is lent to the callee as
    input and as output buffer (the input is read before the output is
    written). *)
Definition do_call (call_gas sender_address receive_address : Z) (value : option U256)
    (code_addr : Address) (in_off in_size out_off out_size : U256) (ct : CallType) :
    M X InstructionResult :=
  mem ← gets m_mem;
  input ← lift (mem_read_slice mem in_off in_size);
  o ← lift (mem_writeable_slice mem out_off out_size);
  '(call_result, out) ←
    run_ext_opt (fun x =>
      match ext_call x call_gas sender_address receive_address value input code_addr (snd o) ct with
      | Some (r, out, x') => Some ((r, out), x') | None => None
      end);
  mem ← lift (mem_write_back mem (fst o) out);
  _ ← put_mem mem;
  match call_result with
  | Success gas_left d =>
      _ ← pushM 1;
      _ ← put_return_data d;
      g ← lift (expect_cost gas_left);
      mret (UnusedGas g)
  | CallReverted gas_left d =>
      _ ← pushM 0;
      _ ← put_return_data d;
      g ← lift (expect_cost gas_left);
      mret (UnusedGas g)
  | CallFailed => _ ← pushM 0; mret IOk
  end.

Definition exec_call (instruction : Instruction) (params : ActionParams) (provided : option Z) :
    M X InstructionResult :=
  schedule ← gets (fun s => ext_schedule (m_ext s));
  if negb (call_stipend schedule <? call_value_transfer_gas schedule) then lift Panic
  else
    _ ← pop;
    call_gas ← lift (match provided with Some g => Ok g | None => Panic end);
    ca ← pop;
    let code_addr := u256_to_address ca in
    value ←
      (if instruction =? DELEGATECALL then mret None
       else if instruction =? STATICCALL then mret (Some 0)
       else v ← pop; mret (Some v));
    in_off ← pop;
    in_size ← pop;
    out_off ← pop;
    out_size ← pop;
    call_gas ← lift (add_chk cost_bits call_gas
                       (match value with
                        | None => 0
                        | Some v => if v =? 0 then 0 else call_stipend schedule
                        end));
    ext ← gets m_ext;
    '(sender_address, receive_address, has_balance, ct) ←
      lift (call_targets instruction params ext code_addr value);
    _ ← put_return_data ReturnData_empty;
    let can_call := has_balance && (ext_depth ext <? max_depth schedule) in
    if negb can_call then _ ← pushM 0; mret (UnusedGas call_gas)
    else do_call call_gas sender_address receive_address value code_addr in_off in_size out_off out_size ct.

Definition exec_log (instruction : Instruction) : M X unit :=
  no_of_topics ← lift (get_log_topics instruction);
  offset ← pop;
  size ← pop;
  st ← gets m_stack;
  '(topics, st) ← lift (pop_n st no_of_topics);
  _ ← put_stack st;
  mem ← gets m_mem;
  d ← lift (mem_read_slice mem offset size);
  run_ext (fun x => ext_log x topics d).

Definition exec_push (instruction : Instruction) : M X unit :=
  bytes ← lift (get_push_bytes instruction);
  r ← gets m_reader;
  '(val, r) ← lift (CodeReader_read r bytes);
  _ ← put_reader r;
  pushM val.

(** Memory, hash and storage instructions. *)
Definition exec_mload : M X unit :=
  offset ← pop; mem ← gets m_mem; word ← lift (mem_read mem offset); pushM word.
Definition exec_mstore : M X unit :=
  offset ← pop; word ← pop; mem ← gets m_mem; mem ← lift (mem_write mem offset word); put_mem mem.
Definition exec_mstore8 : M X unit :=
  offset ← pop; byte ← pop; mem ← gets m_mem; mem ← lift (mem_write_byte mem offset byte); put_mem mem.
Definition exec_sha3 (keccak : bytes -> H256) : M X unit :=
  offset ← pop; size ← pop;
  mem ← gets m_mem;
  d ← lift (mem_read_slice mem offset size);
  pushM (keccak d).
Definition exec_sload : M X unit :=
  key ← pop; ext ← gets m_ext; word ← lift (ext_storage_at ext key); pushM word.
Definition exec_sstore : M X unit :=
  address ← pop;
  val ← pop;
  ext ← gets m_ext;
  current_val ← lift (ext_storage_at ext address);
  _ ← (if negb (is_zero current_val) && is_zero val
       then run_ext_opt (fun x => match ext_inc_sstore_clears x with Some x' => Some (tt, x') | None => None end)
       else mret tt);
  run_ext (fun x => ext_set_storage x address val).
Definition exec_returndatacopy : M X unit :=
  st ← gets m_stack;
  source_offset ← lift (peek st 1);
  size ← lift (peek st 2);
  rd ← gets m_return_data;
  d ← lift (rd_deref rd);
  if len d <? u256_saturating_add source_offset size then fail_with OutOfBounds
  else copy_data_to_memory d.

(** Environment and account queries. *)
Definition exec_balance : M X unit :=
  a ← pop; ext ← gets m_ext; b ← lift (ext_balance ext (u256_to_address a)); pushM b.
Definition exec_extcodesize : M X unit :=
  a ← pop; ext ← gets m_ext; l ← lift (ext_extcodesize ext (u256_to_address a)); pushM l.
Definition exec_extcodecopy : M X unit :=
  a ← pop; ext ← gets m_ext; c ← lift (ext_extcode ext (u256_to_address a)); copy_data_to_memory c.
Definition exec_blockhash : M X unit :=
  n ← pop; h ← run_ext_opt (fun x => ext_blockhash x n); pushM h.

(** [Ok(InstructionResult::Ok)] after a body that falls through. *)
Definition then_ok (m : M X unit) : M X InstructionResult := _ ← m; mret IOk.

Definition exec_instruction (keccak : bytes -> H256) (gas : Z) (params : ActionParams)
    (instruction : Instruction) (provided : option Z) : M X InstructionResult :=
  if instruction =? JUMP then jump ← pop; mret (JumpToPosition jump)
  else if instruction =? JUMPI then
    jump ← pop;
    condition ← pop;
    if negb (is_zero condition) then mret (JumpToPosition jump) else mret IOk
  else if instruction =? JUMPDEST then mret IOk
  else if (instruction =? CREATE) || (instruction =? CREATE2) then exec_create instruction params provided
  else if (instruction =? CALL) || (instruction =? CALLCODE) || (instruction =? DELEGATECALL)
          || (instruction =? STATICCALL) then exec_call instruction params provided
  else if instruction =? RETURN then
    init_off ← pop; init_size ← pop; mret (StopExecutionNeedsReturn gas init_off init_size true)
  else if instruction =? REVERT then
    init_off ← pop; init_size ← pop; mret (StopExecutionNeedsReturn gas init_off init_size false)
  else if instruction =? STOP then mret StopExecution
  else if instruction =? SUICIDE then
    a ← pop; _ ← run_ext (fun x => ext_suicide x (u256_to_address a)); mret StopExecution
  else then_ok (
    if (LOG0 <=? instruction) && (instruction <=? LOG4) then exec_log instruction
    else if (PUSH1 <=? instruction) && (instruction <=? PUSH32) then exec_push instruction
    else if instruction =? MLOAD then exec_mload
    else if instruction =? MSTORE then exec_mstore
    else if instruction =? MSTORE8 then exec_mstore8
    else if instruction =? MSIZE then mem ← gets m_mem; pushM (mem_size mem)
    else if instruction =? SHA3 then exec_sha3 keccak
    else if instruction =? SLOAD then exec_sload
    else if instruction =? SSTORE then exec_sstore
    else if instruction =? PC then r ← gets m_reader; p ← lift (sub_chk (position r) 1); pushM p
    else if instruction =? GAS then pushM gas
    else if instruction =? ADDRESS then pushM (address_to_u256 (address params))
    else if instruction =? ORIGIN then pushM (address_to_u256 (origin params))
    else if instruction =? BALANCE then exec_balance
    else if instruction =? CALLER then pushM (address_to_u256 (sender params))
    else if instruction =? CALLVALUE then pushM (action_value (value params))
    else if instruction =? CALLDATALOAD then
      big_id ← pop; v ← lift (calldataload (data params) big_id); pushM v
    else if instruction =? CALLDATASIZE then pushM (match data params with Some l => len l | None => 0 end)
    else if instruction =? CODESIZE then r ← gets m_reader; pushM (CodeReader_len r)
    else if instruction =? RETURNDATASIZE then
      rd ← gets m_return_data; d ← lift (rd_deref rd); pushM (len d)
    else if instruction =? EXTCODESIZE then exec_extcodesize
    else if instruction =? CALLDATACOPY then copy_data_to_memory (default [] (data params))
    else if instruction =? RETURNDATACOPY then exec_returndatacopy
    else if instruction =? CODECOPY then copy_data_to_memory (default [] (code params))
    else if instruction =? EXTCODECOPY then exec_extcodecopy
    else if instruction =? GASPRICE then pushM (gas_price params)
    else if instruction =? BLOCKHASH then exec_blockhash
    else if instruction =? COINBASE then
      e ← gets (fun s => ext_env_info (m_ext s)); pushM (address_to_u256 (author e))
    else if instruction =? TIMESTAMP then e ← gets (fun s => ext_env_info (m_ext s)); pushM (timestamp e)
    else if instruction =? NUMBER then e ← gets (fun s => ext_env_info (m_ext s)); pushM (number e)
    else if instruction =? DIFFICULTY then e ← gets (fun s => ext_env_info (m_ext s)); pushM (difficulty e)
    else if instruction =? GASLIMIT then e ← gets (fun s => ext_env_info (m_ext s)); pushM (gas_limit e)
    else exec_stack_instruction instruction).

(** ** Checks around an instruction *)
Definition verify_instruction (ext : X) (instruction : Instruction) (info : InstructionInfo) (st : VecStack) :
    outcome Error unit :=
  let schedule := ext_schedule ext in
  if ((instruction =? DELEGATECALL) && negb (have_delegate_call schedule)) ||
     ((instruction =? CREATE2) && negb (have_create2 schedule)) ||
     ((instruction =? STATICCALL) && negb (have_static_call schedule)) ||
     (((instruction =? RETURNDATACOPY) || (instruction =? RETURNDATASIZE)) && negb (have_return_data schedule)) ||
     ((instruction =? REVERT) && negb (have_revert schedule))
  then Err (BadInstruction instruction)
  else if bool_decide (tier info = Invalid) then Err (BadInstruction instruction)
  else if negb (has st (args info)) then Err (StackUnderflow (name info) (args info) (size st))
  else if stack_limit schedule <? size st - args info + ret info then
    w ← sub_chk (ret info) (args info);
    Err (OutOfStack (name info) w (stack_limit schedule))
  else Ok tt.

Definition mem_written (instruction : Instruction) (st : VecStack) : outcome Error (option (Z * Z)) :=
  let read pos := low_u64 <$> peek st pos in
  written ←
    (if (instruction =? MSTORE) || (instruction =? MLOAD) then o ← read 0; Ok (Some (o, 32))
     else if instruction =? MSTORE8 then o ← read 0; Ok (Some (o, 1))
     else if (instruction =? CALLDATACOPY) || (instruction =? CODECOPY) || (instruction =? RETURNDATACOPY) then
       o ← read 0; s ← read 2; Ok (Some (o, s))
     else if instruction =? EXTCODECOPY then o ← read 1; s ← read 3; Ok (Some (o, s))
     else if (instruction =? CALL) || (instruction =? CALLCODE) then o ← read 5; s ← read 6; Ok (Some (o, s))
     else if (instruction =? DELEGATECALL) || (instruction =? STATICCALL) then
       o ← read 4; s ← read 5; Ok (Some (o, s))
     else Ok None);
  match written with
  | Some (offset, sz) => if negb (is_valid_range offset sz) then Ok None else Ok written
  | None => Ok None
  end.

Definition store_written (instruction : Instruction) (st : VecStack) : outcome Error (option (U256 * U256)) :=
  if instruction =? SSTORE then a ← peek st 0; v ← peek st 1; Ok (Some (a, v)) else Ok None.

Definition verify_jump (jump_u : U256) (valid_jump_destinations : BitSet) : outcome Error Z :=
  let jump := low_u64 jump_u in
  if bool_decide (jump ∈ valid_jump_destinations) && (jump =? jump_u) then Ok jump
  else Err (BadJumpDestination jump).

(** ** The main loop *)
Context {C : Type} `{JumpCache C} (keccak : bytes -> H256).

(** The locals of [exec] that change between iterations. *)
Record LoopState := mkLoop {
  l_machine : Machine X;
  l_gasometer : Gasometer;
  l_do_trace : bool;
  l_dests : option BitSet;
  l_cache : C;
}.

(** What an iteration does next. *)
Inductive Flow : Type :=
  | Continue (s : LoopState)
  | Break (s : LoopState)
  | Return (r : GasLeft) (s : LoopState).

(** [m] with the externalities attached to its error. *)
Definition with_ext {A} (x : X) (m : outcome Error A) : outcome (Error * X) A :=
  match m with Ok a => Ok a | Err e => Err (e, x) | Panic => Panic end.
Definition or_panic {E A} (o : option A) : outcome E A := match o with Some a => Ok a | None => Panic end.

(** The [// Advance] match. *)
Definition advance (params : ActionParams) (code : bytes) (s : LoopState) (result : InstructionResult) :
    outcome (Error * X) Flow :=
  let m := l_machine s in
  match result with
  | JumpToPosition pos =>
      '(dests, cache) ← with_ext (m_ext m)
        (match l_dests s with
         | Some d => Ok (d, l_cache s)
         | None => jump_destinations (l_cache s) (match code_hash params with Some h => h | None => keccak code end) code
         end);
      p ← with_ext (m_ext m) (verify_jump pos dests);
      Ok (Continue (mkLoop (set_reader (mkReader p code) m) (l_gasometer s) (l_do_trace s) (Some dests) cache))
  | StopExecutionNeedsReturn gas init_off init_size apply =>
      d ← with_ext (m_ext m) (mem_into_return_data (m_mem m) init_off init_size);
      Ok (Return (NeedsReturn gas d apply) (mkLoop (set_mem [] m) (l_gasometer s) (l_do_trace s) (l_dests s) (l_cache s)))
  | StopExecution => Ok (Break s)
  | _ => Ok (Continue s)
  end.

(** The rest of an iteration once the instruction has run: unused gas, the
    trace of what it did, and the advance. *)
Definition finish (params : ActionParams) (code : bytes) (s : LoopState) (do_trace : bool) (info : InstructionInfo)
    (req : InstructionRequirements) (mw : option (Z * Z)) (sw : option (U256 * U256)) (gas : Z)
    (result : InstructionResult) (m : Machine X) : outcome (Error * X) Flow :=
  gas ← (match result with
         | UnusedGas g => with_ext (m_ext m) (add_chk cost_bits gas g)
         | _ => Ok gas
         end);
  x ← (if do_trace then
         st ← with_ext (m_ext m) (peek_top (m_stack m) (ret info));
         md ← with_ext (m_ext m)
                (match mw with
                 | Some (o, sz) => e ← add_chk 64 o sz; b ← slice (m_mem m) o e; Ok (Some (o, b))
                 | None => Ok None
                 end);
         or_panic (ext_trace_executed (m_ext m) gas st md sw)
       else Ok (m_ext m));
  advance params code
    (mkLoop (set_ext x m) (mkGasometer gas (memory_total_gas req)) do_trace (l_dests s) (l_cache s)) result.

(** One iteration of [while reader.position < code.len()]. *)
Definition step (params : ActionParams) (code : bytes) (s : LoopState) : outcome (Error * X) Flow :=
  let m := l_machine s in
  let pc := position (m_reader m) in
  instruction ← with_ext (m_ext m) (index code pc);
  '(do_trace, x) ←
    (if l_do_trace s
     then or_panic (ext_trace_next_instruction (m_ext m) pc instruction (current_gas (l_gasometer s)))
     else Ok (false, m_ext m));
  info ← with_ext x (index INSTRUCTIONS instruction);
  _ ← with_ext x (verify_instruction x instruction info (m_stack m));
  req ← with_ext x (requirements (l_gasometer s) x instruction info (m_stack m) (mem_size (m_mem m)));
  x ← (if (do_trace : bool) then or_panic (ext_trace_prepare_execute x pc instruction (gas_cost req)) else Ok x);
  _ ← with_ext x (verify_gas (l_gasometer s) (gas_cost req));
  mem ← with_ext x (mem_expand (m_mem m) (memory_required_size req));
  gas ← with_ext x (sub_chk (current_gas (l_gasometer s)) (gas_cost req));
  '(mw, sw) ←
    (if (do_trace : bool) then
       mw ← with_ext x (mem_written instruction (m_stack m));
       sw ← with_ext x (store_written instruction (m_stack m));
       Ok (mw, sw)
     else Ok (None, None));
  '(result, m) ←
    exec_instruction keccak gas params instruction (provide_gas req)
      (mkMachine mem (m_return_data m) (mkReader (pc + 1) code) (m_stack m) x);
  finish params code s do_trace info req mw sw gas result m.

(** The loop; [None] when the fuel runs out. *)
Fixpoint exec_loop (fuel : nat) (params : ActionParams) (code : bytes) (s : LoopState) :
    option (outcome (Error * X) (GasLeft * LoopState)) :=
  match fuel with
  | O => None
  | S fuel' =>
      if position (m_reader (l_machine s)) <? len code then
        match step params code s with
        | Ok (Continue s') => exec_loop fuel' params code s'
        | Ok (Break s') => Some (Ok (Known (current_gas (l_gasometer s')), s'))
        | Ok (Return r s') => Some (Ok (r, s'))
        | Err e => Some (Err e)
        | Panic => Some Panic
        end
      else Some (Ok (Known (current_gas (l_gasometer s)), s))
  end.

(** [Interpreter::exec]: the interpreter keeps its return-data buffer and its
    cache from one run to the next and clears its memory. *)
Definition exec (fuel : nat) (return_data : ReturnData) (cache : C) (params : ActionParams) (ext : X) :
    option (outcome (Error * X) (GasLeft * LoopState)) :=
  match code params with
  | None => Some Panic
  | Some code =>
      match from_u256 (gas params) with
      | Ok g =>
          let st := with_capacity (stack_limit (ext_schedule ext)) 0 in
          exec_loop fuel params code
            (mkLoop (mkMachine [] return_data (CodeReader_new code) st ext) (Gasometer_new g) true None cache)
      | Err e => Some (Err (e, ext))
      | Panic => Some Panic
      end
  end.
End exec.
