(* ===== verification/EvmControlFlow.v ===== *)
(** * Control flow of the interpreter

    The program counter stays on instruction boundaries: only a push moves the
    code reader, by exactly its immediate bytes, and a jump lands on a valid
    destination of the running code, found by the analysis or taken from the
    shared cache. *)
From stdpp Require Import base list numbers gmap.
From S2P Require Import Prelude Words Vm Cost Instructions EvmStack EvmMemory Gasometer JumpDests Interpreter.

Section reader.
Context {X : Type}.

(** [m] does not touch the code reader. *)
Definition keeps {A} (m : M X A) : Prop := forall s a s', m s = Ok (a, s') -> m_reader s' = m_reader s.

Lemma keeps_bind {A B} (m : M X A) (k : A -> M X B) : keeps m -> (forall a, keeps (k a)) -> keeps (m ≫= k).
Proof.
  intros Hm Hk s b s'. unfold mbind, M_bind. destruct (m s) as [[a s1]| |] eqn:E; try done.
  intros Hs. rewrite (Hk _ _ _ _ Hs). by eapply Hm.
Qed.
Lemma keeps_ret {A} (a : A) : keeps (mret a : M X A).
Proof. by intros s b s' [= <- <-]. Qed.
Lemma keeps_lift {A} (o : outcome Error A) : keeps (lift o).
Proof. intros s b s'. unfold lift. destruct o; [|done..]. by intros [= <- <-]. Qed.
Lemma keeps_gets {A} (f : Machine X -> A) : keeps (gets f).
Proof. by intros s b s' [= <- <-]. Qed.
Lemma keeps_fail {A} e : keeps (fail_with e : M X A).
Proof. done. Qed.
Lemma keeps_pop : keeps (pop : M X U256).
Proof. intros s b s'. unfold pop. destruct (pop_back (m_stack s)) as [[x st]| |]; [|done..]. by intros [= <- <-]. Qed.
Lemma keeps_pushM v : keeps (pushM v : M X unit).
Proof. by intros s b s' [= <- <-]. Qed.
Lemma keeps_put_mem m : keeps (put_mem m : M X unit).
Proof. by intros s b s' [= <- <-]. Qed.
Lemma keeps_put_stack st : keeps (put_stack st : M X unit).
Proof. by intros s b s' [= <- <-]. Qed.
Lemma keeps_put_return_data d : keeps (put_return_data d : M X unit).
Proof. by intros s b s' [= <- <-]. Qed.
Lemma keeps_run_ext {A} (f : X -> outcome (Error * X) (A * X)) : keeps (run_ext f).
Proof. intros s b s'. unfold run_ext. destruct (f (m_ext s)) as [[a x]|[e x]|]; [|done..]. by intros [= <- <-]. Qed.
Lemma keeps_run_ext_opt {A} (f : X -> option (A * X)) : keeps (run_ext_opt f).
Proof. intros s b s'. unfold run_ext_opt. destruct (f (m_ext s)) as [[a x]|]; [|done]. by intros [= <- <-]. Qed.
End reader.

Create HintDb keeps.
#[export] Hint Resolve keeps_ret keeps_lift keeps_gets keeps_fail keeps_pop keeps_pushM keeps_put_mem keeps_put_stack
  keeps_put_return_data keeps_run_ext keeps_run_ext_opt : keeps.

(** Goes through a body. *)
Ltac keep :=
  repeat match goal with
  | |- keeps (_ ≫= _) => apply keeps_bind; [|intros ?]
  | |- keeps (if ?b then _ else _) => destruct b
  | |- keeps (match ?x with _ => _ end) => destruct x
  | |- keeps (then_ok _) => unfold then_ok
  | |- keeps (unop _) => unfold unop
  | |- keeps (binop _) => unfold binop
  | |- keeps (ternop _) => unfold ternop
  end; auto with keeps.

Section instructions.
Context {X : Type} `{CostType} `{VmExt X}.
Variables (keccak : bytes -> H256) (g : Z) (params : ActionParams).

Lemma keeps_stack_instruction i : keeps (exec_stack_instruction (X := X) i).
Proof. unfold exec_stack_instruction. keep. Qed.
Lemma keeps_create i p : keeps (exec_create (X := X) i params p).
Proof. unfold exec_create. keep. Qed.
Lemma keeps_do_call c sa ra v ca io isz oo osz ct : keeps (do_call (X := X) c sa ra v ca io isz oo osz ct).
Proof. unfold do_call. keep. Qed.
Lemma keeps_call i p : keeps (exec_call (X := X) i params p).
Proof. unfold exec_call. keep. apply keeps_do_call. Qed.
Lemma keeps_copy src : keeps (copy_data_to_memory (X := X) src).
Proof. unfold copy_data_to_memory. keep. Qed.

Lemma keeps_instruction i p : is_push i = false -> keeps (exec_instruction (X := X) keccak g params i p).
Proof.
  intros Hp. unfold exec_instruction. fold (is_push i). rewrite Hp.
  pose proof keeps_stack_instruction. pose proof keeps_create. pose proof keeps_call. pose proof keeps_copy.
  keep; unfold exec_log, exec_mload, exec_mstore, exec_mstore8, exec_sha3, exec_sload, exec_sstore,
    exec_returndatacopy, exec_balance, exec_extcodesize, exec_extcodecopy, exec_blockhash; keep.
Qed.

Lemma push_reader i (s : Machine X) a s' :
  exec_push i s = Ok (a, s') -> is_push i = true /\
    m_reader s' = mkReader (position (m_reader s) + (i - PUSH1 + 1)) (reader_code (m_reader s)).
Proof.
  unfold exec_push, mbind, M_bind, lift, gets, get_push_bytes. destruct (is_push i) eqn:Hi; [|done].
  unfold CodeReader_read, add_chk. destruct (_ <? 2 ^ 64); [|done]. cbn [mbind outcome_bind].
  destruct (slice _ _ _) as [b| |]; [|done..]. cbn [mbind outcome_bind].
  unfold u256_from_slice. destruct (_ <=? _); [|done]. cbn [mbind outcome_bind]. by intros [= <- <-].
Qed.
End instructions.

Section boundaries.
Context {X : Type} `{CostType} `{VmExt X} {C : Type} `{JumpCacheLaws C}.
Variables (keccak : bytes -> H256) (params : ActionParams) (code : bytes).
Hypothesis Hcode : len code + 64 < 2 ^ 64.
Abbreviation state := (@LoopState X C).

(** The hash the cache is asked for. *)
Definition cache_key : H256 := match code_hash params with Some h => h | None => keccak code end.

(** [d] holds exactly the valid destinations of the code. *)
Definition dests_of (d : BitSet) : Prop := forall p, p ∈ d <-> valid_dest code p.

Record flow_inv (s : state) : Prop := {
  fi_pos : boundary code (position (m_reader (l_machine s)));
  fi_nonneg : 0 <= position (m_reader (l_machine s));
  fi_dests d : l_dests s = Some d -> dests_of d;
  fi_cache d : cache_holds (l_cache s) cache_key d -> dests_of d;
}.

Lemma instruction_reader g i p (m m' : Machine X) res :
  exec_instruction keccak g params i p m = Ok (res, m') ->
  position (m_reader m') = next_boundary (position (m_reader m) - 1) i /\
  reader_code (m_reader m') = reader_code (m_reader m).
Proof.
  intros Hrun. unfold next_boundary. destruct (is_push i) eqn:Hi.
  - assert (Hd : exec_instruction keccak g params i p m = then_ok (exec_push i) m).
    { apply is_push_spec in Hi. unfold exec_instruction. fold (is_push i). rewrite (proj2 (is_push_spec i)) by done.
      repeat match goal with |- context [i =? ?k] => rewrite (proj2 (Z.eqb_neq i k)) by (unfold k; lia) end.
      cbn [orb andb]. rewrite (proj2 (Z.leb_gt LOG0 i)) by (unfold LOG0; lia). done. }
    rewrite Hd in Hrun. revert Hrun. unfold then_ok, mbind, M_bind.
    destruct (exec_push i m) as [[[] m1]| |] eqn:Hp; [|done..]. intros [= <- <-].
    apply push_reader in Hp as [_ ->]. cbn [position reader_code]. split; [lia|done].
  - rewrite (keeps_instruction keccak g params i p Hi _ _ _ Hrun). split; [lia|done].
Qed.

(** An iteration that continues: the fetched instruction ran from the next
    position, and [advance] moved on from its result. *)
Lemma finish_inv s tr info req mw sw g res (m : Machine X) s' :
  finish keccak params code s tr info req mw sw g res m = Ok (Continue s') ->
  exists s1 : state, m_reader (l_machine s1) = m_reader m /\ l_dests s1 = l_dests s /\ l_cache s1 = l_cache s /\
    advance keccak params code s1 res = Ok (Continue s').
Proof. unfold finish. intros Hf. inv_ok; (eexists; split_and!; [| | |exact Hf]; done). Qed.

Lemma step_inv (s s' : state) :
  step keccak params code s = Ok (Continue s') ->
  exists i g p m res m' s1, code !! Z.to_nat (position (m_reader (l_machine s))) = Some i /\
    m_reader m = mkReader (position (m_reader (l_machine s)) + 1) code /\
    exec_instruction keccak g params i p m = Ok (res, m') /\
    m_reader (l_machine s1) = m_reader m' /\ l_dests s1 = l_dests s /\ l_cache s1 = l_cache s /\
    advance keccak params code s1 res = Ok (Continue s').
Proof.
  unfold step. intros Hs.
  destruct (index code _) as [i| |] eqn:Hi; [|done..]. cbn [with_ext mbind outcome_bind] in Hs.
  apply bind_ok in Hs as ([tr x1] & _ & Hs). apply bind_ok in Hs as (info & _ & Hs).
  apply bind_ok in Hs as ([] & _ & Hs). apply bind_ok in Hs as (req & _ & Hs). apply bind_ok in Hs as (x2 & _ & Hs).
  apply bind_ok in Hs as ([] & _ & Hs). apply bind_ok in Hs as (mem & _ & Hs). apply bind_ok in Hs as (g & _ & Hs).
  apply bind_ok in Hs as ([mw sw] & _ & Hs). apply bind_ok in Hs as ([res m'] & Hrun & Hs).
  apply finish_inv in Hs as (s1 & ? & ? & ? & ?).
  exists i, g, (provide_gas req). eexists _, res, m', s1. split; [|split; [|split; [exact Hrun|done]]]; [|done].
  unfold index in Hi. destruct (0 <=? _); [|done]. destruct (code !! _); [|done]. by injection Hi as ->.
Qed.

Lemma jump_destinations_inv c d c' :
  (forall d, cache_holds c cache_key d -> dests_of d) ->
  jump_destinations c cache_key code = Ok (d, c') ->
  dests_of d /\ (forall d, cache_holds c' cache_key d -> dests_of d).
Proof.
  intros Hc. destruct (find_jump_destinations_spec code Hcode) as (d0 & Hd0 & Hspec).
  unfold jump_destinations. rewrite Hd0. cbn [mbind outcome_bind]. destruct (_ =? _).
  { intros [= <- <-]. by split. }
  destruct (cache_get_mut c cache_key) as [[d1|] c1] eqn:Hg; intros [= <- <-].
  - split; [by eapply Hc, cache_get_holds|]. intros d ?. by eapply Hc, cache_get_keeps.
  - split; [done|]. intros d [[_ ->]|?]%cache_insert_holds; [done|]. by eapply Hc, cache_get_keeps.
Qed.

Lemma verify_jump_inv j d p : verify_jump j d = Ok p -> p = j /\ j ∈ d.
Proof.
  unfold verify_jump. destruct (_ && _) eqn:E; [|done]. intros [= <-].
  apply andb_true_iff in E as [Hin%bool_decide_eq_true Heq%Z.eqb_eq]. by rewrite Heq in *.
Qed.

Lemma boundary_nonneg p : boundary code p -> 0 <= p.
Proof.
  induction 1 as [|p i Hb IH Hp Hi Hn|p i Hb IH Hp Hi Hn]; [lia|lia|]. apply is_push_spec in Hn. unfold PUSH1. lia.
Qed.

Lemma flow_inv_step (s s' : state) : flow_inv s -> step keccak params code s = Ok (Continue s') -> flow_inv s'.
Proof.
  intros Hinv (i & g & p & m & res & m' & s1 & Hi & Hm & Hrun & Hr & Hd & Hc & Hadv)%step_inv.
  destruct Hinv as [Hpos Hnn Hdests Hcache]. apply instruction_reader in Hrun as [Hp' Hrc].
  assert (Hs1 : flow_inv s1).
  { constructor; rewrite ?Hd, ?Hc, ?Hr, ?Hp', ?Hm; cbn [position]; try done.
    - rewrite Z.add_simpl_r. by apply boundary_step.
    - rewrite Z.add_simpl_r. pose proof (next_boundary_bound (position (m_reader (l_machine s))) i). lia. }
  destruct res; simpl in Hadv; try (by inv_ok).
  apply bind_ok in Hadv as ([d c] & Hdc & Hadv). apply bind_ok in Hadv as (q & Hq & Hadv). injection Hadv as <-.
  destruct (verify_jump pos d) as [q'| |] eqn:Hv; [|done..]. injection Hq as ->.
  apply verify_jump_inv in Hv as [-> Hin].
  assert (dests_of d /\ (forall d, cache_holds c cache_key d -> dests_of d)) as [Hdd Hcc].
  { destruct (l_dests s1) as [d1|] eqn:Hl1; simpl in Hdc.
    - injection Hdc as <- <-. split; [by apply (fi_dests _ Hs1)|apply (fi_cache _ Hs1)].
    - fold cache_key in Hdc. destruct (jump_destinations _ _ _) as [[d1 c1]| |] eqn:Hj; [|done..].
      injection Hdc as <- <-. apply jump_destinations_inv in Hj; [done|apply (fi_cache _ Hs1)]. }
  apply Hdd in Hin as [Hb Hj].
  constructor; cbn [l_machine l_dests l_cache m_reader set_reader position]; try done; [by apply boundary_nonneg|].
  by intros ? [= <-].
Qed.
End boundaries.
