(* ===== verification/EvmAlu.v ===== *)
(** * Arithmetic and logic of the EVM

    A reference semantics of the arithmetic, comparison and bitwise
    instructions on mathematical integers (the two's-complement reading for the
    signed ones), and the proof that the interpreter's implementations, with
    their sign-and-magnitude encoding, power-of-two fast paths, masks and
    widened intermediate results, compute it. *)
From stdpp Require Import base list numbers.
From S2P Require Import Prelude Words Vm Cost Instructions EvmStack Interpreter.

(** ** Reference semantics *)
Definition modulus : Z := 2 ^ 256.

(** Sign extension of the [n] low bits. *)
Definition sign_extend (n x : Z) : Z :=
  let y := x mod 2 ^ n in if y <? 2 ^ (n - 1) then y else y - 2 ^ n.

Definition truth (b : bool) : Z := if b then 1 else 0.

(** Result of an instruction on its operands, top of the stack first. *)
Definition alu_spec (i : Instruction) (operands : list Z) : option Z :=
  match operands with
  | [a] =>
      if i =? NOT then Some (modulus - 1 - a)
      else if i =? ISZERO then Some (truth (a =? 0))
      else None
  | [a; b] =>
      if i =? ADD then Some ((a + b) mod modulus)
      else if i =? MUL then Some ((a * b) mod modulus)
      else if i =? SUB then Some ((a - b) mod modulus)
      else if i =? DIV then Some (if b =? 0 then 0 else a / b)
      else if i =? MOD then Some (if b =? 0 then 0 else a mod b)
      else if i =? SDIV then
        Some (if b =? 0 then 0 else Z.quot (to_signed a) (to_signed b) mod modulus)
      else if i =? SMOD then
        Some (if b =? 0 then 0 else Z.rem (to_signed a) (to_signed b) mod modulus)
      else if i =? EXP then Some ((a ^ b) mod modulus)
      else if i =? LT then Some (truth (a <? b))
      else if i =? GT then Some (truth (b <? a))
      else if i =? SLT then Some (truth (to_signed a <? to_signed b))
      else if i =? SGT then Some (truth (to_signed b <? to_signed a))
      else if i =? EQ then Some (truth (a =? b))
      else if i =? AND then Some (Z.land a b)
      else if i =? OR then Some (Z.lor a b)
      else if i =? XOR then Some (Z.lxor a b)
      else if i =? BYTE then Some (if a <? 32 then (b / 256 ^ (31 - a)) mod 256 else 0)
      else if i =? SIGNEXTEND then
        Some (if a <? 32 then sign_extend (8 * (a + 1)) b mod modulus else b)
      else None
  | [a; b; c] =>
      if i =? ADDMOD then Some (if c =? 0 then 0 else (a + b) mod c)
      else if i =? MULMOD then Some (if c =? 0 then 0 else (a * b) mod c)
      else None
  | _ => None
  end.

(** The word whose bits from [n] up are set. *)
Definition high_ones (n : Z) : Z := Z.shiftl (Z.ones (256 - n)) n.

Lemma high_ones_spec n : 0 <= n <= 256 -> high_ones n = 2 ^ 256 - 2 ^ n.
Proof.
  intros. unfold high_ones. rewrite Z.shiftl_mul_pow2, Z.ones_equiv by lia.
  replace (2 ^ 256) with (2 ^ (256 - n) * 2 ^ n) by (rewrite <-Z.pow_add_r by lia; f_equal; lia). lia.
Qed.

Lemma high_ones_bit n i : 0 <= n <= 256 -> 0 <= i -> Z.testbit (high_ones n) i = (n <=? i) && (i <? 256).
Proof.
  intros. unfold high_ones. rewrite Z.shiftl_spec by done.
  destruct (Z.leb_spec n i); cbn [andb]; [|by rewrite Z.testbit_neg_r by lia].
  rewrite Z.testbit_ones_nonneg by lia. apply Bool.eq_true_iff_eq. rewrite !Z.ltb_lt. lia.
Qed.

Lemma high_ones_add n b : 0 <= n <= 256 -> high_ones n + Z.land b (Z.ones n) = Z.lor (high_ones n) (Z.land b (Z.ones n)).
Proof.
  intros. assert (Hd : Z.land (high_ones n) (Z.land b (Z.ones n)) = 0).
  { apply Z.bits_inj'. intros i Hi. rewrite !Z.land_spec, Z.bits_0, high_ones_bit, Z.testbit_ones_nonneg by lia.
    destruct (Z.leb_spec n i), (Z.ltb_spec i n); try lia; cbn [andb]; by rewrite ?andb_false_r. }
  by rewrite Z.add_nocarry_lxor, Z.lxor_lor.
Qed.

(** ** The interpreter's operations meet it *)
Section words.
Variables a b c : Z.
Hypotheses (Ha : is_u256 a) (Hb : is_u256 b) (Hc : is_u256 c).

Lemma div_word_spec : div_word a b = if b =? 0 then 0 else a / b.
Proof.
  unfold div_word, is_zero, u256_shr. destruct (Z.eqb_spec b 0); [done|]. cbn [negb].
  repeat match goal with
  | |- context [b =? ?k] => destruct (Z.eqb_spec b k) as [->|]; [rewrite ?Z.shiftr_div_pow2 by lia; by rewrite ?Z.div_1_r|]
  end.
  done.
Qed.

Lemma mod_word_spec : mod_word a b = if b =? 0 then 0 else a mod b.
Proof. unfold mod_word, is_zero. by destruct (b =? 0). Qed.

Lemma to_signed_zero x : is_u256 x -> (Z.abs (to_signed x) =? 0) = (x =? 0).
Proof.
  intros [H0 H1]. unfold to_signed. apply Bool.eq_true_iff_eq. rewrite !Z.eqb_eq.
  destruct (Z.ltb_spec x (2 ^ 255)); lia.
Qed.

Lemma set_sign_signed x s : is_u256 x -> set_sign x s = wrap 256 (if s then - x else x).
Proof. intros. rewrite set_sign_spec by done. destruct s; [done|]. by rewrite wrap_small. Qed.

Lemma sdiv_word_spec :
  sdiv_word a b = if b =? 0 then 0 else Z.quot (to_signed a) (to_signed b) mod modulus.
Proof.
  unfold sdiv_word. rewrite !get_and_reset_sign_spec by done.
  pose proof (to_signed_bound a Ha). pose proof (to_signed_bound b Hb).
  unfold is_zero. rewrite to_signed_zero by done.
  destruct (Z.eqb_spec b 0) as [->|Hb0]; [done|].
  assert (Hb1 : to_signed b <> 0) by (pose proof (to_signed_zero b Hb); b2p; destruct (Z.eqb_spec b 0); lia).
  rewrite (proj2 (Z.eqb_neq (Z.abs (to_signed b)) (u256_not 0)))
    by (change (u256_not 0) with (2 ^ 256 - 1); lia).
  rewrite andb_false_r.
  rewrite set_sign_signed.
  2:{ split; [apply Z.div_pos; lia|]. apply Z.le_lt_trans with (Z.abs (to_signed a)); [|lia].
      apply Z.div_le_upper_bound; nia. }
  rewrite <-Z.quot_div_nonneg by lia. unfold wrap, modulus. f_equal.
  destruct (Z.ltb_spec (to_signed a) 0), (Z.ltb_spec (to_signed b) 0); cbn [xorb].
  - rewrite !Z.abs_neq by lia. by rewrite Z.quot_opp_opp by lia.
  - rewrite Z.abs_neq, Z.abs_eq by lia. rewrite Z.quot_opp_l by lia. lia.
  - rewrite Z.abs_eq, Z.abs_neq by lia. rewrite Z.quot_opp_r by lia. lia.
  - by rewrite !Z.abs_eq by lia.
Qed.

Lemma smod_word_spec :
  smod_word a b = if b =? 0 then 0 else Z.rem (to_signed a) (to_signed b) mod modulus.
Proof.
  unfold smod_word. rewrite !get_and_reset_sign_spec by done. cbn [fst].
  pose proof (to_signed_bound a Ha). pose proof (to_signed_bound b Hb).
  unfold is_zero. rewrite to_signed_zero by done.
  destruct (Z.eqb_spec b 0) as [->|Hb0]; [done|]. cbn [negb].
  assert (Hb1 : to_signed b <> 0) by (pose proof (to_signed_zero b Hb); b2p; destruct (Z.eqb_spec b 0); lia).
  pose proof (Z.mod_pos_bound (Z.abs (to_signed a)) (Z.abs (to_signed b))).
  rewrite set_sign_signed by (unfold in_u; lia).
  rewrite <-Z.rem_mod_nonneg by lia. unfold wrap, modulus. f_equal.
  rewrite Z.rem_abs_r by lia.
  destruct (Z.ltb_spec (to_signed a) 0).
  - rewrite Z.abs_neq, Z.rem_opp_l by lia. lia.
  - by rewrite Z.abs_eq by lia.
Qed.

Lemma slt_word_spec : slt_word a b = (to_signed a <? to_signed b).
Proof.
  unfold slt_word. rewrite !get_and_reset_sign_spec by done.
  destruct (Z.ltb_spec (to_signed a) 0), (Z.ltb_spec (to_signed b) 0); cbn [orb andb negb];
    apply Bool.eq_true_iff_eq; lia.
Qed.

Lemma sgt_word_spec : sgt_word a b = (to_signed b <? to_signed a).
Proof.
  unfold sgt_word. rewrite !get_and_reset_sign_spec by done.
  destruct (Z.ltb_spec (to_signed a) 0), (Z.ltb_spec (to_signed b) 0); cbn [orb andb negb];
    apply Bool.eq_true_iff_eq; lia.
Qed.

Lemma byte_word_spec : byte_word a b = if a <? 32 then (b / 256 ^ (31 - a)) mod 256 else 0.
Proof.
  unfold byte_word, u256_shr. destruct (Z.ltb_spec a 32); [|done].
  destruct Ha. rewrite low_u64_small by (split; lia).
  change 0xff with (Z.ones 8). rewrite Z.land_ones, Z.shiftr_div_pow2 by lia.
  rewrite Z.pow_mul_r by lia. done.
Qed.

Lemma addmod_word_spec : addmod_word a b c = if c =? 0 then 0 else (a + b) mod c.
Proof.
  unfold addmod_word, is_zero. destruct (Z.eqb_spec c 0); [done|]. cbn [negb].
  unfold overflowing_add. cbn [fst]. destruct Ha, Hb, Hc.
  rewrite (wrap_small 512) by (split; lia).
  pose proof (Z.mod_pos_bound (a + b) c). rewrite wrap_small; [done|split; lia].
Qed.

Lemma mulmod_word_spec : mulmod_word a b c = if c =? 0 then 0 else (a * b) mod c.
Proof.
  unfold mulmod_word, is_zero. destruct (Z.eqb_spec c 0); [done|]. cbn [negb].
  unfold overflowing_mul. cbn [fst]. destruct Ha, Hb, Hc.
  rewrite (wrap_small 512) by (split; [|change (2 ^ 512) with (2 ^ 256 * 2 ^ 256)]; nia).
  pose proof (Z.mod_pos_bound (a * b) c). rewrite wrap_small; [done|split; lia].
Qed.

Lemma signextend_word_spec :
  a < 32 -> signextend_word a b = sign_extend (8 * (a + 1)) b mod modulus.
Proof.
  intros Ha32. destruct Ha as [Ha0 _]. unfold signextend_word, u256_bit.
  rewrite low_u64_small by (split; lia).
  set (n := a * 8 + 7). replace (8 * (a + 1)) with (n + 1) by lia.
  assert (Hn : 0 <= n < 256) by lia.
  assert (Hpow : 0 < 2 ^ n < 2 ^ 256) by (split; [apply Z.pow_pos_nonneg; lia|apply Z.pow_lt_mono_r; lia]).
  unfold u256_shl. rewrite Z.shiftl_1_l, wrap_small by (unfold in_u; lia).
  unfold sign_extend. replace (n + 1 - 1) with n by lia.
  assert (Hsplit : b mod 2 ^ (n + 1) = (if Z.testbit b n then 2 ^ n else 0) + b mod 2 ^ n).
  { rewrite Z.pow_add_r, Z.pow_1_r, Z.rem_mul_r by lia. rewrite Z.testbit_eqb by lia.
    pose proof (Z.mod_pos_bound (b / 2 ^ n) 2). destruct (Z.eqb_spec ((b / 2 ^ n) mod 2) 1); nia. }
  pose proof (Z.mod_pos_bound b (2 ^ n)). rewrite Hsplit. unfold modulus.
  rewrite Z.pow_add_r, Z.pow_1_r by lia.
  destruct (Z.testbit b n) eqn:Hbit.
  - rewrite (proj2 (Z.ltb_ge _ _)) by lia.
    replace (2 ^ n + b mod 2 ^ n - 2 ^ n * 2) with (b mod 2 ^ n - 2 ^ n) by lia.
    rewrite <-(Z.mod_add _ 1), Z.mod_small by lia.
    rewrite u256_not_spec by (unfold in_u; lia).
    replace (MAX_U256 - (2 ^ n - 1)) with (high_ones n) by (rewrite high_ones_spec by lia; unfold MAX_U256; lia).
    replace (b mod 2 ^ n - 2 ^ n + 1 * 2 ^ 256) with (high_ones n + b mod 2 ^ n)
      by (rewrite high_ones_spec by lia; lia).
    rewrite <-Z.land_ones, high_ones_add by lia.
    apply Z.bits_inj'. intros i Hi. rewrite !Z.lor_spec, Z.land_spec, high_ones_bit by lia.
    rewrite Z.testbit_ones_nonneg by lia.
    destruct (Z.leb_spec n i), (Z.ltb_spec i 256), (Z.ltb_spec i n); try lia;
      rewrite ?(testbit_high 256 b i) by (try done; lia); cbn [andb orb]; by rewrite ?andb_true_r, ?orb_true_r, ?orb_false_r.
  - rewrite (proj2 (Z.ltb_lt _ _)) by lia. rewrite Z.add_0_l, (Z.mod_small (b mod 2 ^ n)) by lia.
    replace (2 ^ n - 1) with (Z.ones n) by (rewrite Z.ones_equiv; lia).
    by rewrite Z.land_ones by lia.
Qed.
End words.

(** ** The instruction set *)


Section runs.
Context {X : Type}.
Implicit Types s : Machine X.

Lemma unop_run f a rest l s :
  m_stack s = of_top (a :: rest) l -> unop f s = Ok (tt, set_stack (of_top (f a :: rest) l) s).
Proof.
  intros Hs. unfold unop, mbind, M_bind, pop. rewrite Hs, pop_back_cons.
  unfold pushM. simpl. by rewrite push_of_top.
Qed.

Lemma binop_run f a b rest l s :
  m_stack s = of_top (a :: b :: rest) l -> binop f s = Ok (tt, set_stack (of_top (f a b :: rest) l) s).
Proof.
  intros Hs. unfold binop, mbind, M_bind, pop. rewrite Hs, pop_back_cons. simpl.
  rewrite pop_back_cons. unfold pushM. simpl. by rewrite push_of_top.
Qed.

Lemma ternop_run f a b c rest l s :
  m_stack s = of_top (a :: b :: c :: rest) l -> ternop f s = Ok (tt, set_stack (of_top (f a b c :: rest) l) s).
Proof.
  intros Hs. unfold ternop, mbind, M_bind, pop. rewrite Hs, pop_back_cons. simpl.
  rewrite pop_back_cons. simpl. rewrite pop_back_cons. unfold pushM. simpl. by rewrite push_of_top.
Qed.

Lemma then_ok_run m s s' : m s = Ok (tt, s') -> then_ok (X := X) m s = Ok (IOk, s').
Proof. unfold then_ok, mbind, M_bind. by intros ->. Qed.
End runs.

Lemma truth_in_u b : is_u256 (truth b).
Proof. destruct b; by split. Qed.

(** Splits [alu_spec i operands = Some r] into one goal per instruction. *)
Ltac alu_cases H :=
  cbn [alu_spec] in H;
  repeat match goal with
  | H' : (if ?i =? ?k then _ else _) = Some _ |- _ => destruct (Z.eqb_spec i k) as [->|_]; [injection H' as <-|]
  end; try discriminate.

Section refinement.
Context {X : Type} `{CostType} `{VmExt X}.
Variables (keccak : bytes -> H256) (g : Z) (params : ActionParams) (provided : option Z).
Variables (rest l : list Z) (s : Machine X).

(** The dispatch of [exec_instruction] to a body that runs to [r]. *)
Ltac run_alu :=
  match goal with
  | |- exec_instruction _ _ _ ?i _ _ = ?r => change (then_ok (exec_stack_instruction (X := X) i) s = r)
  end;
  apply then_ok_run;
  first [ refine (eq_trans (unop_run _ _ _ _ _ ltac:(eassumption)) _)
        | refine (eq_trans (binop_run _ _ _ _ _ _ ltac:(eassumption)) _)
        | refine (eq_trans (ternop_run _ _ _ _ _ _ _ ltac:(eassumption)) _) ];
  repeat f_equal.

Lemma alu_unary i a r :
  alu_spec i [a] = Some r -> is_u256 a -> m_stack s = of_top (a :: rest) l ->
  exec_instruction keccak g params i provided s = Ok (IOk, set_stack (of_top (r :: rest) l) s).
Proof. intros Hr Ha Hs. alu_cases Hr; run_alu. by rewrite u256_not_spec. Qed.

Lemma alu_ternary i a b c r :
  alu_spec i [a; b; c] = Some r -> is_u256 a -> is_u256 b -> is_u256 c ->
  m_stack s = of_top (a :: b :: c :: rest) l ->
  exec_instruction keccak g params i provided s = Ok (IOk, set_stack (of_top (r :: rest) l) s).
Proof.
  intros Hr Ha Hb Hc Hs. alu_cases Hr; run_alu; [by apply addmod_word_spec|by apply mulmod_word_spec].
Qed.

Lemma signextend_run a b :
  is_u256 a -> is_u256 b -> m_stack s = of_top (a :: b :: rest) l ->
  exec_instruction keccak g params SIGNEXTEND provided s =
    Ok (IOk, set_stack (of_top ((if a <? 32 then sign_extend (8 * (a + 1)) b mod modulus else b) :: rest) l) s).
Proof.
  intros Ha Hb Hs.
  change (then_ok (X := X) (bit ← pop; if bit <? 32 then number ← pop; pushM (signextend_word bit number) else mret tt) s =
    Ok (IOk, set_stack (of_top ((if a <? 32 then sign_extend (8 * (a + 1)) b mod modulus else b) :: rest) l) s)).
  apply then_ok_run. unfold mbind, M_bind, pop. rewrite Hs, pop_back_cons.
  destruct (Z.ltb_spec a 32); [|done]. simpl. rewrite pop_back_cons. unfold pushM. simpl.
  by rewrite push_of_top, signextend_word_spec.
Qed.

Lemma alu_binary i a b r :
  alu_spec i [a; b] = Some r -> is_u256 a -> is_u256 b -> m_stack s = of_top (a :: b :: rest) l ->
  exec_instruction keccak g params i provided s = Ok (IOk, set_stack (of_top (r :: rest) l) s).
Proof.
  intros Hr Ha Hb Hs. alu_cases Hr; try (by apply signextend_run); run_alu;
    auto using div_word_spec, mod_word_spec, sdiv_word_spec, smod_word_spec, slt_word_spec, sgt_word_spec,
      byte_word_spec.
  destruct Hb. by apply u256_overflowing_pow_spec.
Qed.
End refinement.

(** Every result of the reference semantics is a word. *)
Section result_words.
Variables a b c : Z.
Hypotheses (Ha : is_u256 a) (Hb : is_u256 b) (Hc : is_u256 c).

Lemma mod_modulus_in_u x : is_u256 (x mod modulus).
Proof. by apply Z.mod_pos_bound. Qed.
Lemma div_in_u : is_u256 (if b =? 0 then 0 else a / b).
Proof.
  destruct Ha, Hb. destruct (Z.eqb_spec b 0); [by split|]. split; [apply Z.div_pos; lia|].
  apply Z.le_lt_trans with a; [|done]. apply Z.div_le_upper_bound; nia.
Qed.
Lemma mod_in_u x : is_u256 (if c =? 0 then 0 else x mod c).
Proof.
  destruct Hc. destruct (Z.eqb_spec c 0); [by split|]. pose proof (Z.mod_pos_bound x c). split; lia.
Qed.
End result_words.

Lemma alu_spec_in_u i operands r :
  alu_spec i operands = Some r -> Forall (in_u 256) operands -> is_u256 r.
Proof.
  intros Hr Hops.
  destruct operands as [|a [|b [|c [|]]]]; try done; rewrite !Forall_cons_iff in Hops;
    destruct_and! Hops; alu_cases Hr;
    auto using truth_in_u, mod_modulus_in_u, div_in_u, mod_in_u with words lia.
  - unfold modulus. unfold in_u in *. lia.
  - destruct (b =? 0); auto using mod_modulus_in_u with words lia.
  - destruct (b =? 0); auto using mod_modulus_in_u with words lia.
  - destruct (a <? 32); [|by split]. eapply (in_u_le 8); [lia|]. by apply Z.mod_pos_bound.
  - destruct (a <? 32); auto using mod_modulus_in_u.
Qed.
