(* ===== verification/EvmCopy.v ===== *)
(** * Copies into memory, call data and immediate operands

    Functional specifications of [Interpreter::copy_data_to_memory], of
    [CALLDATALOAD] and of the immediate operands of the push instructions:
    reading past the end of a source yields zeros, whatever the offset. *)
From stdpp Require Import base list numbers.
From S2P Require Import Prelude Words Vm VmLaws EvmMemory Interpreter.

(** The [n] bytes of [src] from offset [so], zeros past its end. *)
Definition window (src : bytes) (so n : Z) : bytes :=
  let s := if so <? len src then take (Z.to_nat n) (drop (Z.to_nat so) src) else [] in
  s ++ replicate (Z.to_nat n - length s) 0.

Lemma len_window src so n : 0 <= so -> 0 <= n -> len (window src so n) = n.
Proof.
  intros. unfold window. rewrite len_app, len_replicate. unfold len.
  case_match; rewrite ?length_take; simpl; lia.
Qed.

Lemma window_lookup src so n i :
  0 <= so -> (i < Z.to_nat n)%nat -> window src so n !! i = Some (default 0 (src !! (Z.to_nat so + i)%nat)).
Proof.
  intros Hso Hi. unfold window, len. destruct (Z.ltb_spec so (Z.of_nat (length src))).
  - destruct (src !! (Z.to_nat so + i)%nat) as [b|] eqn:Hb.
    + pose proof (lookup_lt_Some _ _ _ Hb). rewrite lookup_app_l by (rewrite length_take, length_drop; lia).
      by rewrite lookup_take_lt, lookup_drop by lia.
    + apply lookup_ge_None in Hb. rewrite lookup_app_r by (rewrite length_take, length_drop; lia).
      apply lookup_replicate_2. rewrite length_take, length_drop. lia.
  - rewrite (lookup_ge_None_2 src) by lia. simpl. apply lookup_replicate_2. lia.
Qed.

Lemma window_bytes src so n : is_bytes src -> is_bytes (window src so n).
Proof.
  intros. apply Forall_app_2; [|by apply Forall_replicate].
  case_match; [by apply Forall_take, Forall_drop|constructor].
Qed.

(** ** [copy_data_to_memory] *)
Lemma splice_adjacent {A} (l s1 s2 : list A) a :
  0 <= a -> a + len s1 + len s2 <= len l ->
  splice (splice l (a + len s1) s2) a s1 = splice l a (s1 ++ s2).
Proof.
  intros Ha Hl. pose proof (len_nonneg s1). pose proof (len_nonneg s2). apply list_eq. intros i.
  rewrite !splice_lookup; rewrite ?len_splice; rewrite ?len_app; try lia.
  rewrite length_app. unfold len in *. repeat case_decide; try lia; try done.
  - by rewrite lookup_app_l by lia.
  - rewrite lookup_app_r by lia. f_equal. lia.
Qed.

Section copy.
Variables (mem src : bytes).
Hypotheses (Hmem : len mem < 2 ^ 64) (Hsrc : len src < 2 ^ 63).

Lemma zero_slice_ok d n :
  is_u256 d -> is_u256 n -> region_ok (len mem) d n ->
  zero_slice mem d n = Ok (if n =? 0 then mem else splice mem d (replicate (Z.to_nat n) 0)).
Proof.
  intros Hd Hn Hr. unfold zero_slice. rewrite mem_writeable_slice_ok by done. cbn [mbind outcome_bind].
  assert (length (region mem d n) = Z.to_nat n) as ->.
  { destruct Hn as [Hn0 _]. pose proof (len_region mem d n Hn0 Hr). unfold len in *. lia. }
  destruct Hn. rewrite (mem_write_back_ok mem d n) by (rewrite ?len_replicate; (done || lia)).
  destruct (Z.eqb_spec n 0) as [->|]; [by f_equal|done].
Qed.

(** The copy of the source's tail after the zero fill. *)
Lemma copy_tail d so n :
  0 <= d -> 0 <= so <= len src -> len src < so + n -> d + n <= len mem ->
  (if so <? len src then
     s ← slice (E := Error) src so (len src);
     mem_write_slice (splice mem (d + len src - so) (replicate (Z.to_nat (so + n - len src)) 0)) d s
   else Ok (splice mem (d + len src - so) (replicate (Z.to_nat (so + n - len src)) 0))) =
  Ok (splice mem d (window src so n)).
Proof.
  intros Hd Hso Hn Hm. unfold window. destruct (Z.ltb_spec so (len src)).
  - rewrite slice_ok by lia. cbn [mbind outcome_bind]. set (s := drop (Z.to_nat so) src).
    assert (Hs : len s = len src - so) by (apply len_drop; lia).
    rewrite !take_ge by (unfold len in *; lia).
    rewrite mem_write_slice_ok; rewrite ?len_splice; rewrite ?len_replicate; unfold region_ok, in_u; try lia.
    rewrite (proj2 (Z.eqb_neq (len s) 0)) by lia. f_equal.
    replace (d + len src - so) with (d + len s) by lia.
    rewrite splice_adjacent; rewrite ?len_replicate; try lia. do 3 f_equal. unfold len in *. lia.
  - assert (so = len src) as -> by lia. do 2 f_equal; [lia|]. cbn [app length]. f_equal. lia.
Qed.

Lemma copy_data_ok d so n :
  is_u256 d -> is_u256 so -> is_u256 n -> region_ok (len mem) d n ->
  copy_data mem d so n src = Ok (if n =? 0 then mem else splice mem d (window src so n)).
Proof.
  intros Hd Hso Hn Hr. pose proof Hd as [Hd0 Hd1]. pose proof Hso as [Hs0 Hs1]. pose proof Hn as [Hn0 Hn1].
  pose proof (len_nonneg src). unfold copy_data. destruct (Z.ltb_spec (len src) so).
  { cbn [orb mbind outcome_bind]. rewrite zero_slice_ok by done. cbn [mbind outcome_bind].
    rewrite (proj2 (Z.ltb_ge so (len src))) by lia.
    unfold window. rewrite (proj2 (Z.ltb_ge so (len src))) by lia. cbn [length app]. by rewrite Nat.sub_0_r. }
  cbn [orb]. destruct (Z.eqb_spec n 0) as [->|Hnz].
  { rewrite (proj2 (Z.ltb_ge (len src) 0)) by lia. rewrite add_chk_ok by lia. cbn [mbind outcome_bind].
    rewrite (proj2 (Z.ltb_ge (len src) (so + 0))) by lia. change (low_u64 0) with 0.
    rewrite (low_u64_small so) by (split; lia). rewrite add_chk_ok by lia. cbn [mbind outcome_bind].
    destruct (so <? len src); [|done]. rewrite slice_ok by lia. cbn [mbind outcome_bind].
    rewrite mem_write_slice_ok; [|done..|]; [|left]; replace (0 + so - so) with 0 by lia; done. }
  destruct Hr as [?|(Hr0 & Hr1 & Hr2)]; [done|].
  assert (Hpast : (if len src <? n then Ok true else e ← add_chk (E := Error) 256 so n; Ok (len src <? e))
                  = Ok (len src <? so + n)).
  { destruct (Z.ltb_spec (len src) n); [by rewrite (proj2 (Z.ltb_lt _ _)) by lia|].
    by rewrite add_chk_ok by lia. }
  rewrite Hpast. cbn [mbind outcome_bind]. rewrite (low_u64_small so) by (split; lia).
  destruct (Z.ltb_spec (len src) (so + n)).
  - rewrite (add_chk_ok 256 d) by lia. cbn [mbind outcome_bind]. rewrite sub_chk_ok by lia. cbn [mbind outcome_bind].
    rewrite (add_chk_ok 256 so) by lia. cbn [mbind outcome_bind]. rewrite sub_chk_ok by lia. cbn [mbind outcome_bind].
    rewrite zero_slice_ok by (unfold region_ok, in_u; lia). rewrite (proj2 (Z.eqb_neq (so + n - len src) 0)) by lia.
    cbn [mbind outcome_bind]. apply copy_tail; lia.
  - rewrite (low_u64_small n), add_chk_ok by (unfold in_u; lia). cbn [mbind outcome_bind].
    rewrite (proj2 (Z.ltb_lt so (len src))) by lia. rewrite slice_ok by lia. cbn [mbind outcome_bind].
    replace (n + so - so) with n by lia. assert (Hlt : len (take (Z.to_nat n) (drop (Z.to_nat so) src)) = n) by (rewrite len_take; rewrite ?len_drop; lia).
    rewrite mem_write_slice_ok by (try done; unfold region_ok; lia).
    rewrite (proj2 (Z.eqb_neq (len _) 0)) by lia. do 2 f_equal. unfold window.
    rewrite (proj2 (Z.ltb_lt so (len src))) by lia. unfold len in Hlt.
    replace (Z.to_nat n - _)%nat with 0%nat by (rewrite <-Hlt at 1; lia). by rewrite app_nil_r.
Qed.
End copy.

(** ** [CALLDATALOAD] *)
Lemma window_splice src so :
  0 <= so < len src -> let s := take 32 (drop (Z.to_nat so) src) in
  splice (replicate 32 0) 0 s = window src so 32.
Proof.
  intros Hso. unfold window, splice. rewrite (proj2 (Z.ltb_lt so (len src))) by lia.
  change (Z.to_nat 32) with 32%nat. change (Z.to_nat 0) with 0%nat. rewrite take_0. cbn [app Nat.add].
  by rewrite drop_replicate.
Qed.

Lemma window_end src so n : 0 <= n -> len src <= so -> window src so n = replicate (Z.to_nat n) 0.
Proof. intros. unfold window. rewrite (proj2 (Z.ltb_ge so (len src))) by lia. cbn [app length]. f_equal. lia. Qed.

Lemma calldataload_ok data big_id :
  len (default [] data) < 2 ^ 63 -> is_u256 big_id ->
  calldataload data big_id = Ok (be_to_Z (window (default [] data) big_id 32)).
Proof.
  intros Hdata [Hid0 Hid1]. destruct data as [data|]; [cbn [default from_option] in *; unfold id in *|by rewrite window_end].
  unfold calldataload. cbv zeta. destruct (Z.ltb_spec big_id (len data)).
  - rewrite (low_u64_small big_id) by (split; lia). rewrite wrap_small by (split; lia).
    rewrite (proj2 (Z.ltb_lt _ _)) by lia. cbn [andb]. rewrite slice_ok by lia. cbn [mbind outcome_bind].
    assert (Ht : take (Z.to_nat (Z.min (len data) (big_id + 32) - big_id)) (drop (Z.to_nat big_id) data) =
            take 32 (drop (Z.to_nat big_id) data)).
    { destruct (Z.le_gt_cases (len data) (big_id + 32)).
      - rewrite !take_ge; [done|rewrite length_drop; unfold len in *; lia..].
      - f_equal. lia. }
    rewrite Ht, copy_from_slice_ok by (unfold len; rewrite ?length_replicate, ?length_take; lia). cbn [mbind outcome_bind].
    unfold u256_from_slice. rewrite window_splice by lia.
    by rewrite (proj2 (Z.leb_le _ _)) by (rewrite len_window; lia).
  - rewrite andb_false_r, window_end by lia. done.
Qed.

(** ** Immediate operands *)
Lemma CodeReader_read_ok r n :
  len (reader_code r) < 2 ^ 63 -> 0 <= position r <= len (reader_code r) -> 0 <= n <= 32 ->
  CodeReader_read (E := Error) r n =
    Ok (be_to_Z (take (Z.to_nat n) (drop (Z.to_nat (position r)) (reader_code r))),
        mkReader (position r + n) (reader_code r)).
Proof.
  intros Hlen Hp Hn. unfold CodeReader_read. rewrite add_chk_ok by lia. cbn [mbind outcome_bind].
  rewrite slice_ok by lia. cbn [mbind outcome_bind].
  assert (Ht : take (Z.to_nat (Z.min (position r + n) (len (reader_code r)) - position r))
                 (drop (Z.to_nat (position r)) (reader_code r)) =
               take (Z.to_nat n) (drop (Z.to_nat (position r)) (reader_code r))).
  { destruct (Z.le_gt_cases (len (reader_code r)) (position r + n)).
    - rewrite !take_ge; [done|rewrite length_drop; unfold len in *; lia..].
    - f_equal. lia. }
  rewrite Ht. unfold u256_from_slice.
  by rewrite (proj2 (Z.leb_le _ _)) by (unfold len; rewrite length_take; lia).
Qed.
