(* ===== verification/EvmSteps.v ===== *)
(** * One instruction at a time

    Every instruction, run with its operands on the stack and the memory it
    touches in range, returns without a panic in a well-formed machine: the
    stack changes by the amount the instruction table announces, memory keeps
    its size, the code reader only moves forward, and the gas a sub-call hands
    back is at most what it was given. *)
From stdpp Require Import base list numbers.
From S2P Require Import Prelude Words Vm VmLaws Cost Instructions EvmStack EvmMemory Gasometer GasometerProofs JumpDests Interpreter EvmAlu EvmCopy.

(** ** Symbolic execution of the monad *)
Create Rewrite HintDb machine.

Section rules.
Context {X A B : Type}.
Implicit Types (k : A -> M X B) (s : Machine X) (x : X).

Lemma pop_bind (k : U256 -> M X B) mem rd r a t l x :
  (pop ≫= k) (mkMachine mem rd r (of_top (a :: t) l) x) = k a (mkMachine mem rd r (of_top t l) x).
Proof. unfold mbind, M_bind, pop. cbn [m_stack]. by rewrite pop_back_cons. Qed.
Lemma gets_bind (f : Machine X -> A) k s : (gets f ≫= k) s = k (f s) s.
Proof. done. Qed.
Lemma mret_bind (a : A) k s : ((mret a : M X A) ≫= k) s = k a s.
Proof. done. Qed.
Lemma lift_ok_bind (a : A) k s : (lift (Ok a) ≫= k) s = k a s.
Proof. done. Qed.
Lemma pushM_run v mem rd r t l x :
  pushM v (mkMachine mem rd r (of_top t l) x) = Ok (tt, mkMachine mem rd r (of_top (v :: t) l) x).
Proof. unfold pushM, set_stack. cbn [m_stack m_mem m_return_data m_reader m_ext]. by rewrite push_of_top. Qed.
Lemma pushM_bind (k : unit -> M X B) v mem rd r t l x :
  (pushM v ≫= k) (mkMachine mem rd r (of_top t l) x) = k tt (mkMachine mem rd r (of_top (v :: t) l) x).
Proof. unfold mbind, M_bind. by rewrite pushM_run. Qed.
Lemma put_mem_run mem' s : put_mem mem' s = Ok (tt, set_mem mem' s).
Proof. done. Qed.
Lemma put_stack_run st s : put_stack st s = Ok (tt, set_stack st s).
Proof. done. Qed.
Lemma put_mem_bind (k : unit -> M X B) mem' s : (put_mem mem' ≫= k) s = k tt (set_mem mem' s).
Proof. done. Qed.
Lemma put_stack_bind (k : unit -> M X B) st s : (put_stack st ≫= k) s = k tt (set_stack st s).
Proof. done. Qed.
Lemma put_reader_bind (k : unit -> M X B) r s : (put_reader r ≫= k) s = k tt (set_reader r s).
Proof. done. Qed.
Lemma put_return_data_bind (k : unit -> M X B) d s : (put_return_data d ≫= k) s = k tt (set_return_data d s).
Proof. done. Qed.

Lemma wp_M_bind P (m : M X A) k s Q R :
  wpp P (m s) (fun '(a, s') => wpp P (k a s') Q R) R -> wpp P ((m ≫= k) s) Q R.
Proof. unfold mbind, M_bind. by destruct (m s) as [[a s']| |]. Qed.

Lemma wp_lift_bind (o : outcome Error A) Qo Ro k s Q R :
  wp o Qo Ro -> (forall a, Qo a -> wp (k a s) Q R) -> (forall e, Ro e -> R (e, m_ext s)) -> wp ((lift o ≫= k) s) Q R.
Proof. intros Ho Hk HR. unfold mbind, M_bind, lift. destruct o; simpl in *; auto. Qed.

Lemma run_ext_opt_bind (f : X -> option (A * X)) k s a x :
  f (m_ext s) = Some (a, x) -> (run_ext_opt f ≫= k) s = k a (set_ext x s).
Proof. unfold mbind, M_bind, run_ext_opt. by intros ->. Qed.
End rules.
#[export] Hint Rewrite @pop_bind @gets_bind @mret_bind @lift_ok_bind @pushM_run @pushM_bind @put_mem_run @put_stack_run @put_mem_bind
  @put_stack_bind @put_reader_bind @put_return_data_bind : machine.

(** Runs the deterministic prefix of a body. *)
Ltac mrun :=
  repeat (progress (autorewrite with machine;
    cbv beta iota delta [m_mem m_return_data m_reader m_stack m_ext set_mem set_stack set_reader set_return_data set_ext])).

(** ** Stack effect of the instruction families *)
Lemma table_range lo n (f : Z -> bool) :
  forallb f (seqZ lo n) = true -> forall i, lo <= i < lo + n -> f i = true.
Proof. rewrite forallb_forall. intros Hf i Hi. apply Hf. by apply list_elem_of_In, elem_of_seqZ. Qed.

Lemma push_info i : PUSH1 <= i <= PUSH32 -> args (info_of i) = 0 /\ ret (info_of i) = 1.
Proof.
  intros Hi. pose proof (table_range PUSH1 32 (fun i => (args (info_of i) =? 0) && (ret (info_of i) =? 1))
    ltac:(vm_compute; reflexivity) i) as Hf. unfold PUSH1, PUSH32 in *. specialize (Hf ltac:(lia)). b2p. done.
Qed.
Lemma dup_info i : DUP1 <= i <= DUP16 -> args (info_of i) = i - DUP1 + 1 /\ ret (info_of i) = i - DUP1 + 2.
Proof.
  intros Hi. pose proof (table_range DUP1 16
    (fun i => (args (info_of i) =? i - DUP1 + 1) && (ret (info_of i) =? i - DUP1 + 2))
    ltac:(vm_compute; reflexivity) i) as Hf. unfold DUP1, DUP16 in *. specialize (Hf ltac:(lia)). b2p. done.
Qed.
Lemma swap_info i : SWAP1 <= i <= SWAP16 -> args (info_of i) = i - SWAP1 + 2 /\ ret (info_of i) = i - SWAP1 + 2.
Proof.
  intros Hi. pose proof (table_range SWAP1 16
    (fun i => (args (info_of i) =? i - SWAP1 + 2) && (ret (info_of i) =? i - SWAP1 + 2))
    ltac:(vm_compute; reflexivity) i) as Hf. unfold SWAP1, SWAP16 in *. specialize (Hf ltac:(lia)). b2p. done.
Qed.

(** ** Well-formed machines *)
Definition params_ok (p : ActionParams) : Prop :=
  in_u 160 (address p) /\ in_u 160 (sender p) /\ in_u 160 (origin p) /\ is_u256 (gas p) /\
  is_u256 (gas_price p) /\ is_u256 (action_value (value p)) /\
  vec_ok (default [] (code p)) /\ vec_ok (default [] (data p)).

Section machine.
Context {X : Type} `{ExtLaws X}.
Implicit Types (s : Machine X) (x : X) (r : CodeReader) (mem : bytes) (t l : list U256).

Record machine_ok s : Prop := {
  ok_stack : stack_wf (m_stack s);
  ok_mem : is_bytes (m_mem s);
  ok_len : len (m_mem s) < 2 ^ 63;
  ok_rd : rd_ok (m_return_data s);
  ok_ext : ext_ok (m_ext s);
}.

(** [s'] follows [s], its stack longer by [d] and the counters of the
    externalities higher by at most [k]. *)
Record moves (k d : Z) s s' : Prop := {
  n_ok : machine_ok s';
  n_size : size (m_stack s') = size (m_stack s) + d;
  n_mem : len (m_mem s') = len (m_mem s);
  n_code : reader_code (m_reader s') = reader_code (m_reader s);
  n_pos : position (m_reader s) <= position (m_reader s') <= position (m_reader s) + 32;
  n_ext : ext_step k (m_ext s) (m_ext s');
}.
End machine.
#[local] Abbreviation next := (moves 0).

Section running.
Context {X : Type} `{ExtLaws X}.
Implicit Types (s : Machine X) (x : X) (r : CodeReader) (mem : bytes) (t l : list U256).

(** [m] runs from [s] without a panic, changes the stack size by [d] and returns
    a value in [Q]; an error leaves externalities of the same context. *)
Definition runs {A} s (m : M X A) (d : Z) (Q : A -> Prop) : Prop :=
  wp (m s) (fun '(a, s') => next d s s' /\ Q a) (fun '(err, x') => raised ext_internal err /\ ext_kept (m_ext s) x').

Lemma runs_mono {A} s (m : M X A) d d' (Q Q' : A -> Prop) :
  runs s m d Q -> d = d' -> (forall a, Q a -> Q' a) -> runs s m d' Q'.
Proof. intros Hr <- HQ. eapply wp_mono; [exact Hr| |done]. intros [a s'] [? ?]. auto. Qed.

(** The same for a body that may move the counters: by [K a] when it returns
    [a], by [e] when it fails. *)
Definition costs {A} s (m : M X A) (d : Z) (K : A -> Z) (e : Z) (Q : A -> Prop) : Prop :=
  wp (m s) (fun '(a, s') => moves (K a) d s s' /\ Q a) (fun '(err, x') => raised ext_internal err /\ ext_step e (m_ext s) x').

Lemma moves_mono k k' d s s' : k <= k' -> moves k d s s' -> moves k' d s s'.
Proof. intros Hk []. split; try done. by eapply ext_step_mono. Qed.

Lemma runs_costs {A} s (m : M X A) d K e (Q : A -> Prop) :
  0 <= e -> (forall a, Q a -> 0 <= K a) -> runs s m d Q -> costs s m d K e Q.
Proof.
  intros He HK Hr. eapply wp_mono; [exact Hr| |].
  - intros [a s'] [Hn HQ]. split; [|done]. by eapply moves_mono; [apply HK|].
  - intros [e' x'] [? Hx]. split; [done|]. by apply ext_kept_step.
Qed.

Lemma costs_mono {A} s (m : M X A) d d' K K' e e' (Q Q' : A -> Prop) :
  costs s m d K e Q -> d = d' -> e <= e' -> (forall a, Q a -> K a <= K' a /\ Q' a) -> costs s m d' K' e' Q'.
Proof.
  intros Hc <- He HQ. eapply wp_mono; [exact Hc| |].
  - intros [a s'] [Hn [HK ?]%HQ]. split; [|done]. by eapply moves_mono.
  - intros [e1 x'] [? Hx]. split; [done|]. by eapply ext_step_mono.
Qed.

Lemma machine_ok_intro mem rd r t l x :
  is_bytes mem -> len mem < 2 ^ 63 -> rd_ok rd -> Forall (in_u 256) t -> Forall (in_u 256) l ->
  len l = MAX_NO_OF_TOPICS -> ext_ok x -> machine_ok (mkMachine mem rd r (of_top t l) x).
Proof. intros. constructor; simpl; try done. by apply stack_wf_of_top. Qed.

Lemma machine_ok_inv mem rd r t l x :
  machine_ok (mkMachine mem rd r (of_top t l) x) ->
  is_bytes mem /\ len mem < 2 ^ 63 /\ rd_ok rd /\ Forall (in_u 256) t /\ Forall (in_u 256) l /\
  len l = MAX_NO_OF_TOPICS /\ ext_ok x.
Proof. intros [Hs ? ? ? ?]. destruct (proj1 (stack_wf_of_top _ _) Hs) as (?&?&?). by split_and!. Qed.

(** The result of a body that only replaced operands by words. *)
Lemma next_stack mem rd r t l x t' d :
  machine_ok (mkMachine mem rd r (of_top t l) x) -> Forall (in_u 256) t' -> len t' = len t + d ->
  next d (mkMachine mem rd r (of_top t l) x) (mkMachine mem rd r (of_top t' l) x).
Proof.
  intros (?&?&?&?&?&?&?)%machine_ok_inv ??. constructor; simpl; rewrite ?size_of_top; try done; try lia.
  - by apply machine_ok_intro.
  - by apply ext_step_refl.
Qed.

(** The general result: same code, same memory size. *)
Lemma moves_intro mem rd r t l x mem' rd' r' t' l' x' k d :
  machine_ok (mkMachine mem rd r (of_top t l) x) ->
  is_bytes mem' -> len mem' = len mem -> rd_ok rd' -> Forall (in_u 256) t' -> len t' = len t + d ->
  Forall (in_u 256) l' -> len l' = MAX_NO_OF_TOPICS -> reader_code r' = reader_code r ->
  position r <= position r' <= position r + 32 -> ext_step k x x' ->
  moves k d (mkMachine mem rd r (of_top t l) x) (mkMachine mem' rd' r' (of_top t' l') x').
Proof.
  intros (?&?&?&?&?&?&?)%machine_ok_inv ????????? Hx. constructor; simpl; rewrite ?size_of_top; try done; try lia.
  apply machine_ok_intro; try done; [lia|]. by eapply ext_step_ok.
Qed.

(** A body that continues from a machine with another stack and return data. *)
Lemma costs_rebase {A} mem rd r t l x rd0 t0 l0 d0 d K e (m : M X A) Q :
  costs (mkMachine mem rd0 r (of_top t0 l0) x) m d0 K e Q -> len t + d = len t0 + d0 ->
  wp (m (mkMachine mem rd0 r (of_top t0 l0) x))
    (fun '(a, s') => moves (K a) d (mkMachine mem rd r (of_top t l) x) s' /\ Q a) (fun '(err, x') => raised ext_internal err /\ ext_step e x x').
Proof.
  intros Hr Hd. eapply wp_mono; [exact Hr| |done]. intros [a s'] [[? Hsz ? ? ? ?] Ha]. split; [|done].
  constructor; try done. revert Hsz. simpl. rewrite !size_of_top. lia.
Qed.

(** Words the machine holds. *)
Lemma be_word_in_u b : is_bytes b -> (length b <= 32)%nat -> is_u256 (be_to_Z b).
Proof.
  intros Hb Hl. apply be_to_Z_bound in Hb. destruct Hb as [Hb0 Hb1]. split; [done|].
  eapply Z.lt_le_trans; [exact Hb1|]. change 256 with (2 ^ 8). rewrite <-Z.pow_mul_r by (unfold len; lia).
  apply Z.pow_le_mono_r; unfold len; lia.
Qed.
Lemma len_in_u (b : bytes) : len b < 2 ^ 64 -> is_u256 (len b).
Proof. pose proof (len_nonneg b). split; lia. Qed.
Lemma address_in_u a : in_u 160 a -> is_u256 (address_to_u256 a).
Proof. by apply in_u_le. Qed.

Lemma covers_region m o sz rs :
  is_u256 o -> is_u256 sz -> covers m ((o, sz) :: rs) -> region_ok m o sz /\ covers m rs.
Proof.
  intros [] [] [Hc Hrs]%Forall_cons_iff. split; [|done]. unfold region_ok. lia.
Qed.

End running.

(** Opens a hypothesis [machine_ok (mkMachine ..)] on a stack of known operands. *)
Ltac open_ok H :=
  destruct (machine_ok_inv _ _ _ _ _ _ H) as (Hmem & Hlen & Hrd & Ht & Hl & Hl4 & Hx);
  pose proof (Z.lt_trans _ _ (2 ^ 64) Hlen eq_refl) as Hlen64;
  repeat match goal with
  | H' : Forall (in_u 256) (_ :: _) |- _ => apply Forall_cons_iff in H' as [? H']
  end.

(** Closes the goal left when a body has run and only the stack changed. *)
Ltac stack_done :=
  split; [apply next_stack; [done| |rewrite ?len_cons; lia]; rewrite ?Forall_cons_iff; split_and?; auto with words|done].

#[local] Hint Extern 0 (ext_step 0 ?x ?x) => apply ext_step_refl; assumption : core.

(** ** The bodies *)
Section bodies.
Context {X : Type} `{ExtLaws X}.
Implicit Types (s : Machine X) (x : X) (r : CodeReader) (mem : bytes) (t l : list U256).

(** *** Memory *)
Lemma mload_runs mem rd r o t l x :
  machine_ok (mkMachine mem rd r (of_top (o :: t) l) x) -> covers (len mem) [(o, 32)] ->
  runs (mkMachine mem rd r (of_top (o :: t) l) x) exec_mload 0 any.
Proof.
  intros Hm (Hr & _)%covers_region; [|by open_ok Hm|done]. open_ok Hm. destruct Hr as [?|(? & _ & ?)]; [done|].
  unfold runs, exec_mload. mrun. rewrite mem_read_ok by done. mrun. stack_done.
  apply be_word_in_u; [by apply Forall_take, Forall_drop|rewrite length_take; lia].
Qed.

Lemma mstore_runs mem rd r o v t l x :
  machine_ok (mkMachine mem rd r (of_top (o :: v :: t) l) x) -> covers (len mem) [(o, 32)] ->
  runs (mkMachine mem rd r (of_top (o :: v :: t) l) x) exec_mstore (-2) any.
Proof.
  intros Hm (Hr & _)%covers_region; [|by open_ok Hm|done]. open_ok Hm. destruct Hr as [?|(? & _ & ?)]; [done|].
  unfold runs, exec_mstore. mrun. rewrite mem_write_ok by done. mrun. split; [|done].
  apply moves_intro; rewrite ?len_cons; try done; try lia.
  - apply Forall_splice; [done|apply Z_to_be_bytes].
  - apply len_splice; rewrite ?len_Z_to_be; lia.
Qed.

Lemma mstore8_runs mem rd r o v t l x :
  machine_ok (mkMachine mem rd r (of_top (o :: v :: t) l) x) -> covers (len mem) [(o, 1)] ->
  runs (mkMachine mem rd r (of_top (o :: v :: t) l) x) exec_mstore8 (-2) any.
Proof.
  intros Hm (Hr & _)%covers_region; [|by open_ok Hm|done]. open_ok Hm. destruct Hr as [?|(? & _ & ?)]; [done|].
  unfold runs, exec_mstore8. mrun. rewrite mem_write_byte_ok by (done || lia). mrun. split; [|done].
  apply moves_intro; rewrite ?len_cons, ?len_insert; try done; try lia.
  apply Forall_insert; auto with words lia.
Qed.

Lemma sha3_runs (keccak : bytes -> H256) mem rd r o sz t l x :
  (forall b, is_u256 (keccak b)) ->
  machine_ok (mkMachine mem rd r (of_top (o :: sz :: t) l) x) -> covers (len mem) [(o, sz)] ->
  runs (mkMachine mem rd r (of_top (o :: sz :: t) l) x) (exec_sha3 keccak) (-1) any.
Proof.
  intros Hk Hm (Hr & _)%covers_region; [|by open_ok Hm..]. open_ok Hm.
  unfold runs, exec_sha3. mrun. rewrite mem_read_slice_ok by done. mrun. stack_done.
Qed.

Lemma copy_runs src mem rd r d so n t l x :
  vec_ok src -> machine_ok (mkMachine mem rd r (of_top (d :: so :: n :: t) l) x) -> covers (len mem) [(d, n)] ->
  runs (mkMachine mem rd r (of_top (d :: so :: n :: t) l) x) (copy_data_to_memory src) (-3) any.
Proof.
  intros [Hsb Hsl] Hm (Hr & _)%covers_region; [|by open_ok Hm..]. open_ok Hm.
  unfold runs, copy_data_to_memory. mrun. rewrite copy_data_ok by done. mrun. split; [|done].
  pose proof (len_window src so n) as Hw. unfold in_u in *.
  apply moves_intro; rewrite ?len_cons; try done; try lia.
  - case_match; [done|]. by apply Forall_splice, window_bytes.
  - destruct (Z.eqb_spec n 0); [done|]. destruct Hr as [?|(? & ? & ?)]; [done|].
    apply len_splice; rewrite ?Hw; lia.
Qed.

Lemma returndatacopy_runs mem rd r d so n t l x :
  machine_ok (mkMachine mem rd r (of_top (d :: so :: n :: t) l) x) -> covers (len mem) [(d, n)] ->
  runs (mkMachine mem rd r (of_top (d :: so :: n :: t) l) x) exec_returndatacopy (-3) any.
Proof.
  intros Hm Hc. open_ok Hm. pose proof Hrd as (b & Hb & Hv).
  unfold runs, exec_returndatacopy. mrun. rewrite (peek_lookup _ _ 1 so), (peek_lookup _ _ 2 n) by done. mrun. rewrite Hb. mrun.
  destruct (_ <? _); [by split; [|apply ext_kept_refl]|]. by apply copy_runs.
Qed.

(** *** Storage, accounts and logs *)
Lemma sload_runs mem rd r k t l x :
  machine_ok (mkMachine mem rd r (of_top (k :: t) l) x) ->
  runs (mkMachine mem rd r (of_top (k :: t) l) x) exec_sload 0 any.
Proof.
  intros Hm. open_ok Hm. unfold runs, exec_sload. mrun.
  eapply wp_lift_bind; [by apply ext_storage_at_ok| |intros; by split; [|apply ext_kept_refl]].
  intros v Hv. mrun. stack_done.
Qed.

Lemma balance_runs mem rd r a t l x :
  machine_ok (mkMachine mem rd r (of_top (a :: t) l) x) ->
  runs (mkMachine mem rd r (of_top (a :: t) l) x) exec_balance 0 any.
Proof.
  intros Hm. open_ok Hm. unfold runs, exec_balance. mrun.
  eapply wp_lift_bind; [apply ext_balance_ok; [done|apply u256_to_address_in_u]| |intros; by split; [|apply ext_kept_refl]].
  intros v Hv. mrun. stack_done.
Qed.

Lemma extcodesize_runs mem rd r a t l x :
  machine_ok (mkMachine mem rd r (of_top (a :: t) l) x) ->
  runs (mkMachine mem rd r (of_top (a :: t) l) x) exec_extcodesize 0 any.
Proof.
  intros Hm. open_ok Hm. unfold runs, exec_extcodesize. mrun.
  eapply wp_lift_bind; [apply ext_extcodesize_ok; [done|apply u256_to_address_in_u]| |intros; by split; [|apply ext_kept_refl]].
  intros v Hv. mrun. stack_done.
Qed.

Lemma blockhash_runs mem rd r n t l x :
  machine_ok (mkMachine mem rd r (of_top (n :: t) l) x) ->
  runs (mkMachine mem rd r (of_top (n :: t) l) x) exec_blockhash 0 any.
Proof.
  intros Hm. open_ok Hm. unfold runs, exec_blockhash. mrun.
  destruct (ext_blockhash_ok x n) as (h & x' & Hh & ? & Hk); [done..|].
  erewrite run_ext_opt_bind by exact Hh. mrun. split; [|done].
  apply moves_intro; rewrite ?len_cons; try done; try lia. by apply Forall_cons_iff.
Qed.

Lemma extcodecopy_runs mem rd r a d so n t l x :
  machine_ok (mkMachine mem rd r (of_top (a :: d :: so :: n :: t) l) x) -> covers (len mem) [(d, n)] ->
  runs (mkMachine mem rd r (of_top (a :: d :: so :: n :: t) l) x) exec_extcodecopy (-4) any.
Proof.
  intros Hm Hc. open_ok Hm. unfold runs, exec_extcodecopy. mrun.
  eapply wp_lift_bind; [apply ext_extcode_ok; [done|apply u256_to_address_in_u]| |intros; by split; [|apply ext_kept_refl]].
  intros src Hv. apply (costs_rebase _ _ _ _ _ _ _ _ _ (-3) _ (fun _ => 0) 0); [apply copy_runs; [done| |done]|rewrite !len_cons; lia].
  apply machine_ok_intro; try done. by rewrite !Forall_cons_iff.
Qed.

(** A body whose last call is on the externalities. *)
Lemma run_ext_runs (f : X -> outcome (Error * X) (unit * X)) mem rd r t l x mem' rd' r' t' l' d :
  machine_ok (mkMachine mem rd r (of_top t l) x) ->
  wp (f x) (fun '(_, x') => ext_kept x x') (fun '(err, x') => raised ext_internal err /\ ext_kept x x') ->
  (forall x', ext_kept x x' ->
     next d (mkMachine mem rd r (of_top t l) x) (mkMachine mem' rd' r' (of_top t' l') x')) ->
  wp (run_ext f (mkMachine mem' rd' r' (of_top t' l') x))
    (fun '(a, s') => next d (mkMachine mem rd r (of_top t l) x) s' /\ any a) (fun '(err, x') => raised ext_internal err /\ ext_kept x x').
Proof.
  intros Hm Hf Hn. unfold run_ext. cbn [m_ext]. destruct (f x) as [[[] x']|[e x']|]; simpl in *; auto.
  split; [by apply Hn|done].
Qed.

Lemma sstore_runs mem rd r k v t l x :
  machine_ok (mkMachine mem rd r (of_top (k :: v :: t) l) x) -> ext_room 1 x ->
  costs (mkMachine mem rd r (of_top (k :: v :: t) l) x) exec_sstore (-2) (fun _ => 1) 1 any.
Proof.
  intros Hm Hroom. open_ok Hm. unfold costs, exec_sstore. mrun.
  eapply wp_lift_bind; [by apply ext_storage_at_ok| |intros; by split; [|apply ext_kept_step, ext_kept_refl]].
  intros cur Hcur.
  assert (Hset : forall x1, ext_step 1 x x1 ->
    wp (run_ext (fun x => ext_set_storage x k v) (mkMachine mem rd r (of_top t l) x1))
      (fun '(a, s') => moves 1 (-2) (mkMachine mem rd r (of_top (k :: v :: t) l) x) s' /\ any a)
      (fun '(err, x') => raised ext_internal err /\ ext_step 1 x x')).
  { intros x1 Hx1. pose proof (ext_set_storage_ok x1 k v (ext_step_ok _ _ _ Hx1)) as Hs. unfold run_ext. cbn [m_ext].
    destruct (ext_set_storage x1 k v) as [[[] x2]|[e x2]|]; simpl in *; [|by destruct Hs as [? Hs]; [done..|]; split; [|eapply ext_kept_r]|auto].
    mrun. split; [|done]. apply moves_intro; rewrite ?len_cons; try done; try lia. eapply ext_kept_r; eauto. }
  destruct (_ && _).
  - destruct (ext_inc_sstore_clears_ok x Hx Hroom) as (x1 & Hx1 & Hk).
    erewrite run_ext_opt_bind; [|cbn [m_ext]; by rewrite Hx1]. mrun. by apply Hset.
  - mrun. apply Hset. by apply ext_kept_step, ext_kept_refl.
Qed.

Lemma log_runs i mem rd r o sz t l x :
  LOG0 <= i <= LOG4 -> i - LOG0 <= len t ->
  machine_ok (mkMachine mem rd r (of_top (o :: sz :: t) l) x) -> covers (len mem) [(o, sz)] ->
  runs (mkMachine mem rd r (of_top (o :: sz :: t) l) x) (exec_log i) (- (i - LOG0 + 2)) any.
Proof.
  intros Hi Htl Hm (Hr & _)%covers_region; [|by open_ok Hm..]. open_ok Hm. set (n := i - LOG0) in *.
  unfold runs, exec_log, get_log_topics. rewrite !(proj2 (Z.leb_le _ _)) by lia. cbn [andb]. fold n. mrun.
  assert (0 <= n <= 4) by (unfold n, LOG0, LOG4 in *; lia).
  rewrite pop_n_spec by (unfold MAX_NO_OF_TOPICS in *; lia). mrun. rewrite mem_read_slice_ok by done. mrun.
  assert (Hk : len (take (Z.to_nat n) t) = n) by (apply len_take; lia).
  apply run_ext_runs; [done|apply ext_log_ok; [done|by apply Forall_take|by apply region_bytes]|].
  intros x' Hx'. apply moves_intro; rewrite ?len_cons; try done; try lia.
  - by apply Forall_drop.
  - rewrite len_drop; lia.
  - by apply Forall_splice, Forall_take.
  - rewrite len_splice; [done|lia|]. unfold MAX_NO_OF_TOPICS in *. lia.
Qed.

(** *** Stack *)
Lemma push_runs i mem rd r t l x :
  PUSH1 <= i <= PUSH32 -> vec_ok (reader_code r) -> 0 <= position r <= len (reader_code r) ->
  machine_ok (mkMachine mem rd r (of_top t l) x) ->
  runs (mkMachine mem rd r (of_top t l) x) (exec_push i) 1 any.
Proof.
  intros Hi [Hcb Hcl] Hp Hm. open_ok Hm. unfold runs, exec_push, get_push_bytes, is_push.
  rewrite !(proj2 (Z.leb_le _ _)) by lia. cbn [andb]. mrun.
  assert (0 <= i - PUSH1 + 1 <= 32) by (unfold PUSH1, PUSH32 in *; lia).
  rewrite CodeReader_read_ok by lia. mrun. split; [|done].
  apply moves_intro; rewrite ?len_cons; try done; try lia; cbn [position]; try lia.
  apply Forall_cons_iff. split; [|done].
  apply be_word_in_u; [by apply Forall_take, Forall_drop|rewrite length_take; lia].
Qed.

Lemma dup_runs n mem rd r t l x :
  0 <= n < len t -> machine_ok (mkMachine mem rd r (of_top t l) x) ->
  runs (mkMachine mem rd r (of_top t l) x) (st ← gets m_stack; v ← lift (peek st n); pushM v) 1 any.
Proof.
  intros Hn Hm. open_ok Hm. unfold runs. mrun. rewrite peek_arg by lia. mrun. stack_done.
Qed.

Lemma swap_runs n mem rd r t l x :
  0 < n < len t -> machine_ok (mkMachine mem rd r (of_top t l) x) ->
  runs (mkMachine mem rd r (of_top t l) x) (st ← gets m_stack; st ← lift (swap_with_top st n); put_stack st) 0 any.
Proof.
  intros Hn Hm. open_ok Hm. unfold runs. mrun.
  destruct (lookup_lt_is_Some_2 t 0%nat) as [x0 Hx0]; [unfold len in *; lia|].
  destruct (lookup_lt_is_Some_2 t (Z.to_nat n)) as [xn Hxn]; [unfold len in *; lia|].
  rewrite (swap_with_top_spec t l n x0 xn) by (done || lia). mrun. split; [|done].
  apply next_stack; [done| |rewrite !len_insert; lia].
  apply Forall_insert; [apply Forall_insert; [done|]|]; (eapply Forall_lookup_1; [exact Ht|eassumption]).
Qed.

Lemma pushM_runs v mem rd r t l x :
  is_u256 v -> machine_ok (mkMachine mem rd r (of_top t l) x) ->
  runs (mkMachine mem rd r (of_top t l) x) (pushM v) 1 any.
Proof. intros Hv Hm. open_ok Hm. unfold runs. mrun. stack_done. Qed.

(** *** Calls and creations *)
Context `{CostLaws}.

Lemma is_u256_0 : is_u256 0.
Proof. done. Qed.
Lemma is_u256_1 : is_u256 1.
Proof. done. Qed.
#[local] Hint Resolve is_u256_0 is_u256_1 : words.

Lemma rd_ok_empty : rd_ok ReturnData_empty.
Proof. exists []. split; [done|split; [constructor|done]]. Qed.

Lemma expect_cost_ok g c : 0 <= g <= c -> in_u cost_bits c -> expect_cost g = Ok g.
Proof. intros ? []. unfold expect_cost. rewrite from_u256_fits; [done|]. split; lia. Qed.

Lemma cost_in_u g : in_u cost_bits g -> is_u256 g.
Proof. apply in_u_le, cost_bits_le. Qed.

(** At most [c] gas is handed back; [unused] is how much. *)
Definition returns_gas (c : Z) (res : InstructionResult) : Prop :=
  match res with IOk => True | UnusedGas g => 0 <= g <= c | _ => False end.
Definition unused (res : InstructionResult) : Z := match res with UnusedGas g => g | _ => 0 end.

Lemma returns_unused c res : 0 <= c -> returns_gas c res -> 0 <= unused res <= c.
Proof. by destruct res. Qed.

Lemma region_vec mem o sz : is_bytes mem -> len mem < 2 ^ 63 -> region_ok (len mem) o sz -> 0 <= sz -> vec_ok (region mem o sz).
Proof.
  intros Hb Hl Hr Hs. split; [by apply region_bytes|]. rewrite len_region by done.
  destruct Hr as [?|?]; pose proof (len_nonneg mem); lia.
Qed.

Lemma create_runs i params c mem rd r v o sz t l x :
  params_ok params -> address params = ext_address x -> in_u cost_bits c -> ext_room (1 + c) x ->
  machine_ok (mkMachine mem rd r (of_top (v :: o :: sz :: t) l) x) -> covers (len mem) [(o, sz)] ->
  costs (mkMachine mem rd r (of_top (v :: o :: sz :: t) l) x) (exec_create i params (Some c)) (-2)
    (fun res => 1 + c - unused res) 0 (returns_gas c).
Proof.
  intros (Ha & _) Haddr Hc Hroom Hm (Hr & _)%covers_region; [|by open_ok Hm..]. open_ok Hm.
  pose proof rd_ok_empty. pose proof Hc as [Hc0 Hc1].
  unfold costs, exec_create. mrun. destruct (ext_is_static x); [by split; [|apply ext_kept_refl]|]. mrun.
  pose proof (ext_balance_ok x (address params) Hx Ha) as Hbal.
  destruct (ext_balance x (address params)) as [bal|e|] eqn:Hb; [|by split; [|apply ext_kept_refl]|done]. mrun.
  destruct (_ && _) eqn:Hcan; cbn [negb].
  2:{ mrun. split; [|simpl; lia]. apply moves_intro; rewrite ?len_cons; try done; try lia.
      - apply Forall_cons_iff. auto with words.
      - apply ext_kept_step; [simpl; lia|]. by apply ext_kept_refl. }
  b2p. mrun. rewrite mem_read_slice_ok by done. mrun.
  destruct (ext_create_ok x c v (region mem o sz) (if i =? CREATE then FromSenderAndNonce else FromSenderAndCodeHash))
    as (res & x' & Hres & Hok & Hk); try done.
  { by apply cost_in_u. }
  { apply region_vec; try done. match goal with H : is_u256 sz |- _ => by destruct H end. }
  { split; [done|]. split; [done|]. right. exists bal. by rewrite <-Haddr. }
  erewrite run_ext_opt_bind by exact Hres.
  assert (Hnext : forall w rd', is_u256 w -> rd_ok rd' ->
    moves (1 + c - create_returned res) (-2) (mkMachine mem rd r (of_top (v :: o :: sz :: t) l) x)
      (mkMachine mem rd' r (of_top (w :: t) l) x')).
  { intros. apply moves_intro; rewrite ?len_cons; try done; try lia. by apply Forall_cons_iff. }
  destruct res as [a gl| |gl d]; simpl in Hok; mrun.
  - destruct Hok. rewrite (expect_cost_ok gl c) by done. mrun. split; [|done]. apply Hnext; auto using address_in_u.
  - split; [|done]. apply Hnext; auto with words.
  - destruct Hok. rewrite (expect_cost_ok gl c) by done. mrun. split; [|done]. apply Hnext; auto with words.
Qed.

Lemma do_call_runs c snd_a rcv_a v ca io isz oo osz ct mem r t l x :
  in_u cost_bits c -> in_u 160 snd_a -> in_u 160 rcv_a -> in_u 160 ca ->
  is_u256 io -> is_u256 isz -> is_u256 oo -> is_u256 osz ->
  ext_depth x < max_depth (ext_schedule x) ->
  call_shape x snd_a rcv_a ca v ct -> ext_room c x ->
  machine_ok (mkMachine mem ReturnData_empty r (of_top t l) x) -> covers (len mem) [(oo, osz); (io, isz)] ->
  costs (mkMachine mem ReturnData_empty r (of_top t l) x)
    (do_call c snd_a rcv_a v ca io isz oo osz ct) 1 (fun res => c - unused res) 0 (returns_gas c).
Proof.
  intros Hc Hs Hrc Hca Hio Hisz Hoo Hosz Hd Hv Hroom Hm Hcov. open_ok Hm.
  apply covers_region in Hcov as [Hro Hcov]; [|done..]. apply covers_region in Hcov as [Hri _]; [|done..].
  unfold costs, do_call. mrun. rewrite mem_read_slice_ok by done. mrun. rewrite mem_writeable_slice_ok by done. mrun.
  destruct (ext_call_ok x c snd_a rcv_a v (region mem io isz) ca (region mem oo osz) ct)
    as (res & out & x' & Hres & Hok & Hlo & Hbo & Hk); try done;
    [by apply cost_in_u|apply region_vec; try done; by destruct Hisz|by apply region_bytes|].
  erewrite run_ext_opt_bind; [|cbn [m_ext snd]; by rewrite Hres]. mrun. cbn [fst].
  destruct Hosz as [Hosz0 _]. rewrite (len_region mem oo osz) in Hlo by done.
  rewrite (mem_write_back_ok mem oo osz) by done. mrun.
  set (o' := if osz =? 0 then 0 else oo).
  assert (Hlm : len (splice mem o' out) = len mem).
  { unfold o'. pose proof (len_nonneg mem). apply len_splice; destruct Hro as [?|(?&?&?)], (Z.eqb_spec osz 0); lia. }
  assert (Hnext : forall w rd', is_u256 w -> rd_ok rd' ->
    moves (c - call_returned res) 1 (mkMachine mem ReturnData_empty r (of_top t l) x)
      (mkMachine (splice mem o' out) rd' r (of_top (w :: t) l) x')).
  { intros. apply moves_intro; rewrite ?len_cons; try done; try lia; [by apply Forall_splice|by apply Forall_cons_iff]. }
  destruct res as [gl d| |gl d]; simpl in Hok; mrun.
  - destruct Hok. rewrite (expect_cost_ok gl c) by done. mrun. split; [|done]. apply Hnext; auto with words.
  - split; [|done]. apply Hnext; auto using rd_ok_empty with words.
  - destruct Hok. rewrite (expect_cost_ok gl c) by done. mrun. split; [|done]. apply Hnext; auto with words.
Qed.

(** The operands of a call below gas and address: the value, if any, then the
    four memory operands. *)
Definition call_operands (i : Instruction) (v io isz oo osz : U256) (t : list U256) : list U256 :=
  if (i =? CALL) || (i =? CALLCODE) then v :: io :: isz :: oo :: osz :: t else io :: isz :: oo :: osz :: t.

Definition call_value (i : Instruction) (v : U256) : option U256 :=
  if i =? DELEGATECALL then None else if i =? STATICCALL then Some 0 else Some v.

Lemma call_value_bind i v k io isz oo osz mem rd r t l (x : X) :
  is_call i = true ->
  ((if i =? DELEGATECALL then mret None else if i =? STATICCALL then mret (Some 0) else v ← pop; mret (Some v)) ≫= k)
    (mkMachine mem rd r (of_top (call_operands i v io isz oo osz t) l) x)
  = (k (call_value i v) : M X InstructionResult)
      (mkMachine mem rd r (of_top (io :: isz :: oo :: osz :: t) l) x).
Proof.
  unfold is_call, call_value, call_operands. intros Hi.
  destruct (Z.eqb_spec i DELEGATECALL) as [->|]; [done|]. destruct (Z.eqb_spec i STATICCALL) as [->|]; [done|].
  rewrite !orb_false_r in Hi. rewrite Hi. unfold mbind at 1, M_bind at 1. by rewrite pop_bind.
Qed.

(** The targets of a call are addresses; a call that passes the balance check
    has the shape the externalities expect. *)
Lemma call_targets_wp i params x ca w :
  is_call i = true -> is_u256 w -> params_ok params -> address params = ext_address x -> ext_ok x -> in_u 160 ca ->
  wp (call_targets i params x ca (call_value i w))
    (fun '(sa, ra, hb, ct) => in_u 160 sa /\ in_u 160 ra /\ (hb = true -> call_shape x sa ra ca (call_value i w) ct)) (raised ext_internal).
Proof.
  intros Hi Hw (Ha & Hs & _) Haddr Hx Hca. unfold call_targets.
  pose proof (ext_balance_ok x (address params) Hx Ha) as Hbal.
  assert (Hfund : forall bal, ext_balance x (address params) = Ok bal -> (w <=? bal) = true -> funded x (address params) w).
  { intros bal Hb Hle. split; [done|]. split; [done|]. right. exists bal. split; [done|]. by apply Z.leb_le. }
  unfold is_call in Hi. repeat (apply orb_true_iff in Hi as [Hi|Hi]); apply Z.eqb_eq in Hi; subst i; cbn.
  - destruct (_ && _); [done|]. destruct (ext_balance x (address params)) as [bal| |] eqn:Hb; [|done..]. cbn.
    split_and!; [done..|]. intros Hle. split; [done|]. eauto.
  - destruct (ext_balance x (address params)) as [bal| |] eqn:Hb; [|done..]. cbn.
    split_and!; [done..|]. intros Hle. split; [done|]. eauto.
  - done.
  - done.
Qed.

Lemma call_operands_words i v io isz oo osz t :
  Forall (in_u 256) (call_operands i v io isz oo osz t) ->
  Forall (in_u 256) t /\ is_u256 io /\ is_u256 isz /\ is_u256 oo /\ is_u256 osz.
Proof. unfold call_operands. case_match; rewrite !Forall_cons_iff; tauto. Qed.

(** The stipend of a call with value [v]. *)
Definition stipend (s : Schedule) (i : Instruction) (v : U256) : Z :=
  match call_value i v with None => 0 | Some v => if v =? 0 then 0 else call_stipend s end.

Lemma call_runs i params p mem rd r g0 ca v io isz oo osz t l x :
  is_call i = true -> is_u256 v -> params_ok params -> address params = ext_address x -> SchedulePrices (ext_schedule x) ->
  0 <= p -> p + stipend (ext_schedule x) i v < 2 ^ cost_bits -> ext_room (p + stipend (ext_schedule x) i v) x ->
  let t0 := g0 :: ca :: call_operands i v io isz oo osz t in
  machine_ok (mkMachine mem rd r (of_top t0 l) x) -> covers (len mem) [(oo, osz); (io, isz)] ->
  costs (mkMachine mem rd r (of_top t0 l) x) (exec_call i params (Some p)) (1 + len t - len t0)
    (fun res => p + stipend (ext_schedule x) i v - unused res) 0 (returns_gas (p + stipend (ext_schedule x) i v)).
Proof.
  intros Hi Hv Hparams Haddr Hsched Hp Hfit Hroom t0 Hm Hcov. unfold t0 in *. open_ok Hm.
  apply call_operands_words in Ht as (Ht & ? & ? & ? & ?). pose proof rd_ok_empty.
  pose proof (sp_stipend _ Hsched) as [Hst0 Hst].
  unfold costs, exec_call. mrun. rewrite (proj2 (Z.ltb_lt _ _)) by done. cbn [negb]. mrun.
  rewrite call_value_bind by done. mrun. fold (stipend (ext_schedule x) i v).
  assert (0 <= stipend (ext_schedule x) i v) by (unfold stipend; repeat case_match; lia).
  rewrite add_chk_ok by done. mrun. eapply wp_lift_bind;
    [apply (call_targets_wp i params x _ _ Hi); [done..|apply u256_to_address_in_u]| |intros; by split; [|apply ext_kept_refl]].
  intros [[[sa ra] hb] ct] (Hsa & Hra & Hhb). mrun. destruct (_ && _) eqn:Hcan; cbn [negb]; mrun.
  - b2p. eapply costs_rebase; [apply do_call_runs; try done|lia].
    + split; lia.
    + apply u256_to_address_in_u.
    + by apply Hhb.
    + by apply machine_ok_intro.
  - split; [|simpl; lia]. apply moves_intro; rewrite ?len_cons; try done; try lia.
    + apply Forall_cons_iff. auto with words.
    + apply ext_kept_step; [simpl; lia|]. by apply ext_kept_refl.
Qed.

(** *** Bodies without effects *)
Lemma unop_runs (f : Z -> Z) mem rd r a t l x :
  (forall a, is_u256 a -> is_u256 (f a)) -> machine_ok (mkMachine mem rd r (of_top (a :: t) l) x) ->
  runs (mkMachine mem rd r (of_top (a :: t) l) x) (unop f) 0 any.
Proof. intros Hf Hm. open_ok Hm. unfold runs, unop. mrun. stack_done. Qed.

Lemma binop_runs (f : Z -> Z -> Z) mem rd r a b t l x :
  (forall a b, is_u256 a -> is_u256 b -> is_u256 (f a b)) ->
  machine_ok (mkMachine mem rd r (of_top (a :: b :: t) l) x) ->
  runs (mkMachine mem rd r (of_top (a :: b :: t) l) x) (binop f) (-1) any.
Proof. intros Hf Hm. open_ok Hm. unfold runs, binop. mrun. stack_done. Qed.

Lemma ternop_runs (f : Z -> Z -> Z -> Z) mem rd r a b c t l x :
  (forall a b c, is_u256 a -> is_u256 b -> is_u256 c -> is_u256 (f a b c)) ->
  machine_ok (mkMachine mem rd r (of_top (a :: b :: c :: t) l) x) ->
  runs (mkMachine mem rd r (of_top (a :: b :: c :: t) l) x) (ternop f) (-2) any.
Proof. intros Hf Hm. open_ok Hm. unfold runs, ternop. mrun. stack_done. Qed.

Lemma signextend_runs mem rd r a b t l x :
  machine_ok (mkMachine mem rd r (of_top (a :: b :: t) l) x) ->
  runs (mkMachine mem rd r (of_top (a :: b :: t) l) x)
    (bit ← pop; if bit <? 32 then number ← pop; pushM (signextend_word bit number) else mret tt) (-1) any.
Proof.
  intros Hm. open_ok Hm. unfold runs. mrun. destruct (Z.ltb_spec a 32); mrun.
  - rewrite signextend_word_spec by done. stack_done. apply mod_modulus_in_u.
  - unfold mret, M_ret. stack_done.
Qed.

(** Pops and query results. *)
Lemma pop_runs mem rd r a t l x :
  machine_ok (mkMachine mem rd r (of_top (a :: t) l) x) ->
  runs (mkMachine mem rd r (of_top (a :: t) l) x) (_ ← pop; mret tt) (-1) any.
Proof. intros Hm. open_ok Hm. unfold runs. mrun. unfold mret, M_ret. stack_done. Qed.

Lemma gets_push_runs {A} (f : Machine X -> A) (g : A -> Z) mem rd r t l x :
  let s := mkMachine mem rd r (of_top t l) x in
  machine_ok s -> is_u256 (g (f s)) -> runs s (a ← gets f; pushM (g a)) 1 any.
Proof. intros s Hm Hg. unfold s in *. open_ok Hm. unfold runs. mrun. stack_done. Qed.

Lemma lift_push_runs o mem rd r t l x :
  let s := mkMachine mem rd r (of_top t l) x in
  machine_ok s -> wp o (in_u 256) (raised ext_internal) -> runs s (v ← lift o; pushM v) 1 any.
Proof.
  intros s Hm Ho. unfold s in *. open_ok Hm. unfold runs.
  eapply wp_lift_bind; [exact Ho| |intros; by split; [|apply ext_kept_refl]]. intros v Hv. mrun. stack_done.
Qed.
End bodies.

(** Results of the arithmetic are words. *)
Lemma div_word_in_u a b : is_u256 a -> is_u256 b -> is_u256 (div_word a b).
Proof. intros. rewrite div_word_spec by done. by apply div_in_u. Qed.
Lemma mod_word_in_u a b : is_u256 a -> is_u256 b -> is_u256 (mod_word a b).
Proof. intros. rewrite mod_word_spec. by apply mod_in_u. Qed.
Lemma sdiv_word_in_u a b : is_u256 a -> is_u256 b -> is_u256 (sdiv_word a b).
Proof. intros. rewrite sdiv_word_spec by done. case_match; [done|apply mod_modulus_in_u]. Qed.
Lemma smod_word_in_u a b : is_u256 a -> is_u256 b -> is_u256 (smod_word a b).
Proof. intros. rewrite smod_word_spec by done. case_match; [done|apply mod_modulus_in_u]. Qed.
Lemma exp_word_in_u a b : is_u256 a -> is_u256 b -> is_u256 (u256_overflowing_pow a b).
Proof. intros ? []. rewrite u256_overflowing_pow_spec by done. apply mod_modulus_in_u. Qed.
Lemma byte_word_in_u a b : is_u256 a -> is_u256 b -> is_u256 (byte_word a b).
Proof.
  intros. rewrite byte_word_spec by done. case_match; [|done].
  apply (in_u_le 8); [lia|]. by apply Z.mod_pos_bound.
Qed.
Lemma addmod_word_in_u a b c : is_u256 a -> is_u256 b -> is_u256 c -> is_u256 (addmod_word a b c).
Proof. intros. rewrite addmod_word_spec by done. by apply mod_in_u. Qed.
Lemma mulmod_word_in_u a b c : is_u256 a -> is_u256 b -> is_u256 c -> is_u256 (mulmod_word a b c).
Proof. intros. rewrite mulmod_word_spec by done. by apply mod_in_u. Qed.
Lemma bool_in_u b : is_u256 (bool_to_u256 b).
Proof. by destruct b. Qed.
Lemma add_word_in_u a b : is_u256 (fst (overflowing_add 256 a b)).
Proof. by apply wrap_in_u. Qed.
Lemma mul_word_in_u a b : is_u256 (fst (overflowing_mul 256 a b)).
Proof. by apply wrap_in_u. Qed.
Lemma sub_word_in_u a b : is_u256 (fst (overflowing_sub 256 a b)).
Proof. by apply wrap_in_u. Qed.
Create HintDb alu.
#[export] Hint Resolve div_word_in_u mod_word_in_u sdiv_word_in_u smod_word_in_u exp_word_in_u byte_word_in_u
  addmod_word_in_u mulmod_word_in_u bool_in_u add_word_in_u mul_word_in_u sub_word_in_u land_in_u lor_in_u lxor_in_u u256_not_in_u : alu.

(** ** Dispatch *)

(** Splits the next test on the instruction [i]. *)
Ltac dispatch_on i :=
  match goal with
  | |- context [if ?b then _ else _] => match b with context [i] => let E := fresh "E" in destruct b eqn:E end
  end;
  repeat match goal with
  | H : _ || _ = true |- _ => apply orb_true_iff in H as [H|H]
  end;
  try match goal with
  | H : (i =? _) = true |- _ => apply Z.eqb_eq in H; subst i;
      repeat match goal with H : _ = false |- _ => clear H end
  end.

Lemma len_tail {A} n (a : A) l : n <= len (a :: l) -> n - 1 <= len l.
Proof. rewrite len_cons. lia. Qed.

(** Names the operands [H : n <= len t] promises. *)
Ltac pop_operands H :=
  lazymatch type of H with
  | Z.pos ?p <= len ?t =>
      let m := eval vm_compute in (Z.pos p - 1) in
      destruct t as [|? t]; [exfalso; apply H; reflexivity|];
      apply len_tail in H; change (Z.pos p - 1) with m in H; pop_operands H
  | _ => idtac
  end.

Section dispatch.
Context {X : Type} `{ExtLaws X} `{CostLaws}.
Variables (keccak : bytes -> H256) (params : ActionParams).
Hypotheses (Hkeccak : forall b, is_u256 (keccak b)) (Hparams : params_ok params).

Lemma stack_instruction_runs i mem rd r t l (x : X) :
  let s := mkMachine mem rd r (of_top t l) x in
  machine_ok s -> args (info_of i) <= len t ->
  runs s (exec_stack_instruction i) (ret (info_of i) - args (info_of i)) any.
Proof.
  intros s Hm Hargs. unfold s in *. unfold exec_stack_instruction.
  repeat dispatch_on i; eval_info; try pop_operands Hargs;
    lazymatch goal with
    | |- runs _ (unop _) _ _ => refine (unop_runs _ _ _ _ _ _ _ _ _ Hm); auto with alu
    | |- runs _ (binop _) _ _ => refine (binop_runs _ _ _ _ _ _ _ _ _ _ Hm); auto with alu zarith
    | |- runs _ (ternop _) _ _ => refine (ternop_runs _ _ _ _ _ _ _ _ _ _ _ Hm); auto with alu
    | _ => idtac
    end.
  - b2p. destruct (dup_info i) as [Ha Hr]; [done|]. rewrite Ha in Hargs. rewrite Ha, Hr.
    unfold get_dup_position. rewrite !(proj2 (Z.leb_le _ _)) by done. cbn [andb].
    replace (i - DUP1 + 2 - (i - DUP1 + 1)) with 1 by lia. apply (dup_runs (i - DUP1)); [lia|done].
  - clear E. b2p. destruct (swap_info i) as [Ha Hr]; [done|]. rewrite Ha in Hargs. rewrite Ha, Hr.
    unfold get_swap_position. rewrite !(proj2 (Z.leb_le _ _)) by done. cbn [andb].
    rewrite Z.sub_diag. apply (swap_runs (i - SWAP1 + 1)); [lia|done].
  - by apply pop_runs.
  - by apply signextend_runs.
  - split; [done|]. apply ext_kept_refl. by apply (ok_ext _ Hm).
Qed.

Lemma then_ok_runs s (m : M X unit) d (Q : InstructionResult -> Prop) :
  Q IOk -> runs s m d any -> runs s (then_ok m) d Q.
Proof.
  intros HQ Hr. unfold runs, then_ok. apply wp_M_bind. eapply wp_mono; [exact Hr| |done].
  intros [[] s'] [Hn _]. by split.
Qed.

(** What the main loop learns from a result: gas handed back is bounded by the
    gas provided and the stipend, jumps come from jump instructions and a
    return names the operands of [RETURN] or [REVERT]. *)
Definition result_ok (sched : Schedule) (g : Z) (provided : option Z) (i : Instruction) (t : list U256)
    (res : InstructionResult) : Prop :=
  match res with
  | IOk | StopExecution => True
  | UnusedGas u => exists p, provided = Some p /\
      0 <= u <= p + (if transfers_value i t then call_stipend sched else 0)
  | JumpToPosition p => p = arg t 0 /\ (i = JUMP \/ i = JUMPI)
  | StopExecutionNeedsReturn g' o sz _ => g' = g /\ o = arg t 0 /\ sz = arg t 1 /\ (i = RETURN \/ i = REVERT)
  end.

(** By how much an instruction may move the counters: one for what it counts
    itself, and the gas a callee used. *)
Definition allowance (sched : Schedule) (i : Instruction) (t : list U256) (provided : option Z) (res : InstructionResult) : Z :=
  counted i +
  (if is_call i || is_create i
   then default 0 provided + (if transfers_value i t then call_stipend sched else 0) - unused res else 0).

Lemma counted_nonneg i : 0 <= counted i.
Proof. unfold counted. by case_match. Qed.

Lemma plain_costs i sched g provided t s (m : M X InstructionResult) d :
  is_call i || is_create i = false -> runs s m d (result_ok sched g provided i t) ->
  costs s m d (allowance sched i t provided) (counted i) (result_ok sched g provided i t).
Proof.
  intros Hi Hr. pose proof (counted_nonneg i). apply runs_costs; [done| |done]. intros res _. unfold allowance. rewrite Hi. lia.
Qed.

Lemma env_push_runs (f : EnvInfo -> Z) mem rd r t l x :
  let s := mkMachine mem rd r (of_top t l) x in
  machine_ok s -> (forall e, env_ok e -> is_u256 (f e)) ->
  runs s (e ← gets (fun s => ext_env_info (m_ext s)); pushM (f e)) 1 any.
Proof.
  intros s Hm Hf. apply gets_push_runs; [done|]. apply Hf. apply ext_env_info_ok. by apply (ok_ext _ Hm).
Qed.

Lemma calldataload_runs mem rd r a t l x :
  machine_ok (mkMachine mem rd r (of_top (a :: t) l) x) ->
  runs (mkMachine mem rd r (of_top (a :: t) l) x)
    (big_id ← pop; v ← lift (calldataload (data params) big_id); pushM v) 0 any.
Proof.
  intros Hm. open_ok Hm. destruct Hparams as (_ & _ & _ & _ & _ & _ & _ & [Hdb Hdl]).
  unfold runs. mrun. rewrite calldataload_ok by done. mrun. stack_done.
  apply be_word_in_u; [by apply window_bytes|]. pose proof (len_window (default [] (data params)) a 32) as Hw.
  unfold in_u, len in *. lia.
Qed.

Lemma returndatasize_runs mem rd r t l x :
  machine_ok (mkMachine mem rd r (of_top t l) x) ->
  runs (mkMachine mem rd r (of_top t l) x) (rd ← gets m_return_data; d ← lift (rd_deref rd); pushM (len d)) 1 any.
Proof.
  intros Hm. open_ok Hm. destruct Hrd as (b & Hb & Hv). unfold runs. mrun. rewrite Hb. mrun. stack_done.
  apply len_in_u. destruct Hv. lia.
Qed.

Lemma pc_runs mem rd r t l x :
  1 <= position r < 2 ^ 64 -> machine_ok (mkMachine mem rd r (of_top t l) x) ->
  runs (mkMachine mem rd r (of_top t l) x) (r ← gets m_reader; p ← lift (sub_chk (position r) 1); pushM p) 1 any.
Proof.
  intros Hp Hm. open_ok Hm. unfold runs. mrun. rewrite sub_chk_ok by lia. mrun. stack_done. split; lia.
Qed.

Lemma suicide_runs (Q : InstructionResult -> Prop) mem rd r a t l x :
  Q StopExecution -> machine_ok (mkMachine mem rd r (of_top (a :: t) l) x) ->
  runs (mkMachine mem rd r (of_top (a :: t) l) x)
    (a ← pop; _ ← run_ext (fun x => ext_suicide x (u256_to_address a)); mret StopExecution) (-1) Q.
Proof.
  intros HQ Hm. open_ok Hm. unfold runs. mrun. apply wp_M_bind.
  eapply wp_mono; [eapply run_ext_runs; [exact Hm|apply ext_suicide_ok; [done|apply u256_to_address_in_u]|]| |done].
  - intros x' Hx'. apply (moves_intro _ _ _ _ _ _ _ _ _ _ _ _ 0 (-1)); rewrite ?len_cons; try done; lia.
  - intros [[] s'] [Hn _]. by split.
Qed.

(** Two operands popped and named in the result. *)
Lemma pop2_runs (f : U256 -> U256 -> InstructionResult) (Q : InstructionResult -> Prop) mem rd r a b t l x :
  Q (f a b) -> machine_ok (mkMachine mem rd r (of_top (a :: b :: t) l) x) ->
  runs (mkMachine mem rd r (of_top (a :: b :: t) l) x) (a ← pop; b ← pop; mret (f a b)) (-2) Q.
Proof. intros HQ Hm. open_ok Hm. unfold runs. mrun. unfold mret, M_ret. stack_done. Qed.

Lemma jump_runs (Q : InstructionResult -> Prop) mem rd r a t l x :
  Q (JumpToPosition a) -> machine_ok (mkMachine mem rd r (of_top (a :: t) l) x) ->
  runs (mkMachine mem rd r (of_top (a :: t) l) x) (jump ← pop; mret (JumpToPosition jump)) (-1) Q.
Proof. intros HQ Hm. open_ok Hm. unfold runs. mrun. unfold mret, M_ret. stack_done. Qed.

Lemma jumpi_runs (Q : InstructionResult -> Prop) mem rd r a c t l x :
  Q (JumpToPosition a) -> Q IOk -> machine_ok (mkMachine mem rd r (of_top (a :: c :: t) l) x) ->
  runs (mkMachine mem rd r (of_top (a :: c :: t) l) x)
    (jump ← pop; condition ← pop;
     if negb (is_zero condition) then mret (JumpToPosition jump) else mret IOk) (-2) Q.
Proof. intros HQ HQ' Hm. open_ok Hm. unfold runs. mrun. unfold mret, M_ret. destruct (negb _); stack_done. Qed.

Lemma mret_runs (res : InstructionResult) (Q : InstructionResult -> Prop) mem rd r t l x :
  Q res -> machine_ok (mkMachine mem rd r (of_top t l) x) -> runs (mkMachine mem rd r (of_top t l) x) (mret res) 0 Q.
Proof. intros HQ Hm. open_ok Hm. unfold runs, mret, M_ret. stack_done. Qed.

(** Calls, seen from the stack: the seven or six operands. *)
Lemma exec_call_runs i g p mem rd r t l x :
  is_call i = true -> args (info_of i) <= len t -> covers (len mem) (regions i t) -> address params = ext_address x ->
  SchedulePrices (ext_schedule x) -> 0 <= p -> p + call_surcharge (ext_schedule x) i t < 2 ^ cost_bits ->
  ext_room (allowance (ext_schedule x) i t (Some p) IOk) x ->
  machine_ok (mkMachine mem rd r (of_top t l) x) ->
  costs (mkMachine mem rd r (of_top t l) x) (exec_call i params (Some p))
    (ret (info_of i) - args (info_of i)) (allowance (ext_schedule x) i t (Some p)) (counted i)
    (result_ok (ext_schedule x) g (Some p) i t).
Proof.
  intros Hi Hargs Hcov Haddr Hsched Hp Hfit Hroom Hm. pose proof (sp_stipend _ Hsched) as Hst.
  assert (Hall : forall res, allowance (ext_schedule x) i t (Some p) res =
    counted i + (p + (if transfers_value i t then call_stipend (ext_schedule x) else 0) - unused res)).
  { intros res. unfold allowance. by rewrite Hi. }
  rewrite Hall in Hroom. cbn [unused] in Hroom. pose proof (counted_nonneg i) as Hct.
  assert (Hweaken : forall v, stipend (ext_schedule x) i v = (if transfers_value i t then call_stipend (ext_schedule x) else 0) ->
    p + stipend (ext_schedule x) i v < 2 ^ cost_bits /\ ext_room (p + stipend (ext_schedule x) i v) x /\
    (forall res, returns_gas (p + stipend (ext_schedule x) i v) res ->
       p + stipend (ext_schedule x) i v - unused res <= allowance (ext_schedule x) i t (Some p) res /\
       result_ok (ext_schedule x) g (Some p) i t res)).
  { intros v Hv. rewrite Hv. split; [unfold call_surcharge in Hfit; destruct (transfers_value i t); lia|]. split.
    - eapply ext_room_mono; [|exact Hroom]. destruct (transfers_value i t); lia.
    - intros res Hres. rewrite Hall. split; [lia|]. destruct res; try done. simpl. eauto. }
  unfold is_call in Hi. repeat (apply orb_true_iff in Hi as [Hi|Hi]); apply Z.eqb_eq in Hi; subst i; eval_info;
    pop_operands Hargs; pose proof (machine_ok_inv _ _ _ _ _ _ Hm) as (_ & _ & _ & Hwords & _); rewrite !Forall_cons_iff in Hwords.
  - destruct (Hweaken z1) as (Hf & Hr & HQ); [unfold transfers_value; change (arg _ 2) with z1; unfold stipend; simpl; by destruct (z1 =? 0)|].
    refine (costs_mono _ _ _ _ _ _ _ _ _ _ (call_runs CALL params p mem rd r z z0 z1 z2 z3 z4 z5 t l x _ _ _ _ _ _ _ Hr _ _) _ _ HQ);
      try done; [tauto|]. change (call_operands _ _ _ _ _ _ t) with (z1 :: z2 :: z3 :: z4 :: z5 :: t). rewrite !len_cons. lia.
  - destruct (Hweaken z1) as (Hf & Hr & HQ); [unfold transfers_value; change (arg _ 2) with z1; unfold stipend; simpl; by destruct (z1 =? 0)|].
    refine (costs_mono _ _ _ _ _ _ _ _ _ _ (call_runs CALLCODE params p mem rd r z z0 z1 z2 z3 z4 z5 t l x _ _ _ _ _ _ _ Hr _ _) _ _ HQ);
      try done; [tauto|]. change (call_operands _ _ _ _ _ _ t) with (z1 :: z2 :: z3 :: z4 :: z5 :: t). rewrite !len_cons. lia.
  - destruct (Hweaken 0) as (Hf & Hr & HQ); [done|].
    refine (costs_mono _ _ _ _ _ _ _ _ _ _ (call_runs DELEGATECALL params p mem rd r z z0 0 z1 z2 z3 z4 t l x _ _ _ _ _ _ _ Hr _ _) _ _ HQ);
      try done. change (call_operands _ _ _ _ _ _ t) with (z1 :: z2 :: z3 :: z4 :: t). rewrite !len_cons. lia.
  - destruct (Hweaken 0) as (Hf & Hr & HQ); [done|].
    refine (costs_mono _ _ _ _ _ _ _ _ _ _ (call_runs STATICCALL params p mem rd r z z0 0 z1 z2 z3 z4 t l x _ _ _ _ _ _ _ Hr _ _) _ _ HQ);
      try done. change (call_operands _ _ _ _ _ _ t) with (z1 :: z2 :: z3 :: z4 :: t). rewrite !len_cons. lia.
Qed.

(** What the checks of the main loop establish before an instruction runs. *)
Record instr_pre (i : Instruction) (g : Z) (provided : option Z) mem rd r t l (x : X) : Prop := {
  ip_gas : in_u cost_bits g;
  ip_machine : machine_ok (mkMachine mem rd r (of_top t l) x);
  ip_args : args (info_of i) <= len t;
  ip_covers : covers (len mem) (regions i t);
  ip_sched : SchedulePrices (ext_schedule x);
  ip_code : vec_ok (reader_code r);
  ip_pos : 1 <= position r <= len (reader_code r);
  ip_provided : is_call i || is_create i = true ->
    exists p, provided = Some p /\ 0 <= p /\ p + call_surcharge (ext_schedule x) i t < 2 ^ cost_bits;
  ip_address : address params = ext_address x;
  ip_room : ext_room (allowance (ext_schedule x) i t provided IOk) x;
}.

Lemma exec_create_runs i g provided mem rd r t l x :
  instr_pre i g provided mem rd r t l x -> is_create i = true ->
  costs (mkMachine mem rd r (of_top t l) x) (exec_create i params provided) (ret (info_of i) - args (info_of i))
    (allowance (ext_schedule x) i t provided) (counted i) (result_ok (ext_schedule x) g provided i t).
Proof.
  intros [Hg Hm Hargs Hcov _ _ _ Hprov Haddr Hroom] Hi. destruct Hprov as (p & -> & Hp & Hfit); [by rewrite Hi, orb_true_r|].
  assert (args (info_of i) = 3 /\ ret (info_of i) = 1 /\ regions i t = [(arg t 1, arg t 2)] /\
          transfers_value i t = false) as (Ha & Hr & Hreg & Htv).
  { unfold is_create in Hi. apply orb_true_iff in Hi as [Hi|Hi]; apply Z.eqb_eq in Hi; subst i; by vm_compute. }
  assert (Hall : forall res, allowance (ext_schedule x) i t (Some p) res = 1 + p - unused res).
  { intros res. unfold allowance, counted. rewrite Hi, orb_true_r, Htv. simpl. unfold id. lia. }
  rewrite Hall in Hroom. unfold call_surcharge in Hfit. rewrite Htv in Hfit.
  assert (HQ : forall res, returns_gas p res -> 1 + p - unused res <= allowance (ext_schedule x) i t (Some p) res /\
    result_ok (ext_schedule x) g (Some p) i t res).
  { intros res Hres. rewrite Hall. split; [done|]. destruct res; try done. simpl in *. rewrite Htv. exists p. split; [done|lia]. }
  rewrite Ha in Hargs. rewrite Ha, Hr. rewrite Hreg in Hcov. clear Htv Hreg Hall. pop_operands Hargs.
  replace (1 + p - unused IOk) with (1 + p) in Hroom by (simpl; lia).
  refine (costs_mono _ _ _ _ _ _ _ _ _ _ (create_runs i params p mem rd r z z0 z1 t l x Hparams Haddr _ Hroom Hm Hcov) _ _ HQ); try done.
  - split; lia.
  - apply counted_nonneg.
Qed.

Lemma exec_call_provided i g provided mem rd r t l x :
  instr_pre i g provided mem rd r t l x -> is_call i = true ->
  costs (mkMachine mem rd r (of_top t l) x) (exec_call i params provided) (ret (info_of i) - args (info_of i))
    (allowance (ext_schedule x) i t provided) (counted i) (result_ok (ext_schedule x) g provided i t).
Proof.
  intros [Hg Hm Hargs Hcov Hs _ _ Hprov Haddr Hroom] Hi. destruct Hprov as (p & -> & Hp & Hfit); [by rewrite Hi|].
  by apply exec_call_runs.
Qed.

Lemma sstore_instruction_runs g provided mem rd r t l x :
  instr_pre SSTORE g provided mem rd r t l x ->
  costs (mkMachine mem rd r (of_top t l) x) (then_ok exec_sstore) (-2)
    (allowance (ext_schedule x) SSTORE t provided) 1 (result_ok (ext_schedule x) g provided SSTORE t).
Proof.
  intros [_ Hm Hargs _ _ _ _ _ _ Hroom]. eval_info. change (allowance _ _ _ _ IOk) with 1 in Hroom. pop_operands Hargs.
  unfold costs, then_ok. apply wp_M_bind. eapply wp_mono; [by apply sstore_runs| |done]. intros [[] s'] [Hn _]. by split.
Qed.

(** Pushes of parameters and environment. *)
Lemma param_words :
  is_u256 (address_to_u256 (address params)) /\ is_u256 (address_to_u256 (origin params)) /\
  is_u256 (address_to_u256 (sender params)) /\ is_u256 (action_value (value params)) /\
  is_u256 (gas_price params) /\ is_u256 (match data params with Some l => len l | None => 0 end).
Proof.
  destruct Hparams as (Ha & Hs & Ho & Hg & Hgp & Hv & Hc & Hd).
  split_and!; auto using address_in_u. destruct Hd as [_ Hd]. destruct (data params); [|done].
  apply len_in_u. simpl in Hd. unfold id in Hd. lia.
Qed.

Lemma env_words e : env_ok e ->
  is_u256 (address_to_u256 (author e)) /\ is_u256 (timestamp e) /\ is_u256 (number e) /\ is_u256 (difficulty e) /\
  is_u256 (gas_limit e).
Proof. intros (?&?&?&?&?). split_and!; auto using address_in_u. Qed.

(** The two families whose operands depend on the opcode. *)
Lemma log_instruction_runs i g provided mem rd r t l x :
  instr_pre i g provided mem rd r t l x -> (LOG0 <=? i) && (i <=? LOG4) = true ->
  runs (mkMachine mem rd r (of_top t l) x) (exec_log i) (ret (info_of i) - args (info_of i)) any.
Proof.
  intros [_ Hm Hargs Hcov _ _ _ _ _ _] Hi.
  assert (Hreg : regions i t = [(arg t 0, arg t 1)]).
  { b2p. unfold LOG0, LOG4 in *.
    assert (i = 0xa0 \/ i = 0xa1 \/ i = 0xa2 \/ i = 0xa3 \/ i = 0xa4) as Hc by lia. by destruct_or! Hc; subst i. }
  b2p. destruct (log_info i) as [Ha Hr]; [done|]. rewrite Ha in Hargs. rewrite Ha, Hr. rewrite Hreg in Hcov.
  destruct t as [|o [|sz t]]; rewrite ?len_cons, ?len_nil in Hargs; [lia|lia|].
  apply log_runs; [done|lia|done|done].
Qed.

Lemma push_instruction_runs i g provided mem rd r t l x :
  instr_pre i g provided mem rd r t l x -> (PUSH1 <=? i) && (i <=? PUSH32) = true ->
  runs (mkMachine mem rd r (of_top t l) x) (exec_push i) (ret (info_of i) - args (info_of i)) any.
Proof.
  intros [_ Hm _ _ _ Hcode Hpos _ _ _] Hi. b2p. destruct (push_info i) as [-> ->]; [done|].
  apply push_runs; [done|done|lia|done].
Qed.

Lemma exec_instruction_runs i g provided mem rd r t l x :
  instr_pre i g provided mem rd r t l x ->
  costs (mkMachine mem rd r (of_top t l) x) (exec_instruction keccak g params i provided)
    (ret (info_of i) - args (info_of i)) (allowance (ext_schedule x) i t provided) (counted i)
    (result_ok (ext_schedule x) g provided i t).
Proof.
  intros Hpre. pose proof Hpre as [Hg Hm Hargs Hcov Hsched Hcode Hpos Hprov _ _]. unfold exec_instruction.
  pose proof param_words as (? & ? & ? & ? & ? & ?). pose proof Hparams as (_ & _ & _ & _ & _ & _ & Hpc & Hpd).
  pose proof (Z.lt_trans _ _ (2 ^ 64) (ok_len _ Hm) eq_refl) as Hlen.
  repeat (dispatch_on i); eval_info; try pop_operands Hargs;
    lazymatch goal with
    | |- costs _ (exec_create _ _ _) _ _ _ _ => by apply (exec_create_runs _ _ _ _ _ _ _ _ _ Hpre)
    | |- costs _ (exec_call _ _ _) _ _ _ _ => by apply (exec_call_provided _ _ _ _ _ _ _ _ _ Hpre)
    | |- costs _ (then_ok exec_sstore) _ _ _ _ => exact (sstore_instruction_runs _ _ _ _ _ _ _ _ Hpre)
    | |- costs _ _ _ _ _ _ => apply plain_costs; [first [done|unfold is_call, is_create; repeat match goal with E : _ = false |- _ => rewrite E end; done]|]
    end;
    lazymatch goal with
    | |- runs _ (mret _) _ _ => by apply mret_runs
    | |- runs _ (then_ok _) _ _ => apply then_ok_runs; [done|]
    | _ => idtac
    end;
    lazymatch goal with
    | |- runs _ (pushM _) _ _ => apply pushM_runs; [first [done|by apply cost_in_u]|done]
    | |- runs _ (gets (fun s => ext_env_info _) ≫= _) _ _ => apply env_push_runs; [done|by intros ? (?&?&?&?&?)%env_words]
    | _ => idtac
    end.
  - by apply jump_runs; [split; [|auto]|].
  - by apply jumpi_runs; [split; [|auto]| |].
  - apply (pop2_runs (fun a b => StopExecutionNeedsReturn g a b true)); [|done]. simpl. auto.
  - apply (pop2_runs (fun a b => StopExecutionNeedsReturn g a b false)); [|done]. simpl. auto.
  - by apply suicide_runs.
  - by apply (log_instruction_runs _ _ _ _ _ _ _ _ _ Hpre).
  - by apply (push_instruction_runs _ _ _ _ _ _ _ _ _ Hpre).
  - by apply mload_runs.
  - by apply mstore_runs.
  - by apply mstore8_runs.
  - by apply gets_push_runs; [|apply len_in_u].
  - by apply sha3_runs.
  - by apply sload_runs.
  - destruct Hcode as [_ Hcl]. apply pc_runs; [lia|done].
  - by apply balance_runs.
  - by apply calldataload_runs.
  - destruct Hcode as [_ Hcl]. apply gets_push_runs; [done|]. apply len_in_u. simpl. lia.
  - by apply returndatasize_runs.
  - by apply extcodesize_runs.
  - by apply copy_runs.
  - by apply returndatacopy_runs.
  - by apply copy_runs.
  - by apply extcodecopy_runs.
  - by apply blockhash_runs.
  - by apply stack_instruction_runs.
Qed.
End dispatch.
