(* ===== verification/InterpreterSafety.v ===== *)
(** * Safety and termination of the interpreter

    The invariant of the main loop of [Interpreter::exec]: a well-formed
    machine, a stack within the schedule's limit, memory in whole words that is
    paid for by the quadratic formula, and gas that never grows and pays for what
    the externalities count.  An iteration keeps it, raises no panic (for a cost
    type of 64 bits; a wider one may panic only over a memory size beyond
    [isize::MAX]) and either stops or makes progress, so that the loop terminates
    within a bound given by the gas and the size of the code. *)
From stdpp Require Import base list numbers gmap.
From S2P Require Import Prelude Words Vm VmLaws Cost Instructions EvmStack EvmMemory Gasometer GasometerProofs JumpDests Interpreter EvmAlu EvmCopy EvmSteps.

Lemma info_ret_nonneg i : in_u 8 i -> 0 <= ret (info_of i).
Proof.
  intros [H0 H1]. pose proof (table_range 0 256 (fun i => 0 <=? ret (info_of i)) ltac:(vm_compute; reflexivity) i) as Hf.
  apply Z.leb_le, Hf. change (2 ^ 8) with 256 in H1. lia.
Qed.

Section checks.
Context {X : Type} `{ExtLaws X}.
Implicit Types (t l : list U256) (x : X).

(** ** Checks before an instruction *)
Lemma verify_instruction_wp x i t l :
  len t <= stack_limit (ext_schedule x) ->
  wp (verify_instruction x i (info_of i) (of_top t l))
    (fun _ => tier (info_of i) <> Invalid /\ args (info_of i) <= len t /\
              len t - args (info_of i) + ret (info_of i) <= stack_limit (ext_schedule x)) (raised ext_internal).
Proof.
  intros Hlim. unfold verify_instruction, has. change (stack (of_top t l)) with (reverse t).
  rewrite size_of_top, len_reverse. destruct (_ || _); [done|].
  destruct (bool_decide _) eqn:Ht; [done|]. apply bool_decide_eq_false in Ht.
  destruct (Z.leb_spec (args (info_of i)) (len t)); [|done]. cbn [negb].
  destruct (Z.ltb_spec (stack_limit (ext_schedule x)) (len t - args (info_of i) + ret (info_of i))).
  - by rewrite sub_chk_ok by lia.
  - done.
Qed.

(** ** The data recorded for a trace *)
Lemma low_u64_region m o sz :
  m < 2 ^ 64 -> is_u256 o -> is_u256 sz -> (sz = 0 \/ o + sz <= m) ->
  is_valid_range (low_u64 o) (low_u64 sz) = true ->
  0 <= low_u64 o /\ 0 < low_u64 sz /\ low_u64 o + low_u64 sz <= m.
Proof.
  intros Hm [Ho0 Ho1] [Hs0 Hs1] [->|Hc]; [done|]. rewrite !low_u64_small by (split; lia).
  rewrite is_valid_range_spec by lia. intros Hv. b2p. lia.
Qed.

Definition written_ok (m : Z) (w : option (Z * Z)) : Prop :=
  match w with Some (o, sz) => 0 <= o /\ 0 < sz /\ o + sz <= m | None => True end.

Lemma mem_written_wp i t l m :
  Forall (in_u 256) t -> args (info_of i) <= len t -> covers m (regions i t) -> m < 2 ^ 64 ->
  wp (mem_written i (of_top t l)) (written_ok m) (raised ext_internal).
Proof.
  intros Ht Hargs Hcov Hm. unfold mem_written.
  assert (Hgo : forall o sz rs, is_u256 o -> is_u256 sz -> covers m ((o, sz) :: rs) ->
    wp (if negb (is_valid_range (low_u64 o) (low_u64 sz)) then Ok None
        else Ok (Some (low_u64 o, low_u64 sz))) (written_ok m) (raised ext_internal)).
  { intros o sz rs Ho Hs [Hc _]%Forall_cons_iff. destruct (is_valid_range _ _) eqn:Hv; [|done].
    by apply low_u64_region. }
  repeat dispatch_on i; eval_info; rewrite ?peek_arg by lia; cbn [fmap outcome_fmap mbind outcome_bind]; try done;
    try (by eapply Hgo; [auto with words..|exact Hcov]).
  - apply (Hgo (arg t 0) 32 []); [auto with words|done|exact Hcov].
  - apply (Hgo (arg t 0) 32 []); [auto with words|done|exact Hcov].
  - apply (Hgo (arg t 0) 1 []); [auto with words|done|exact Hcov].
Qed.

Lemma store_written_wp i t l :
  args (info_of i) <= len t -> wp (store_written i (of_top t l)) any (raised ext_internal).
Proof.
  intros Hargs. unfold store_written. dispatch_on i; [|done]. eval_info. by rewrite !peek_arg by lia.
Qed.
End checks.

(** ** The loop *)
Section loop.
Context `{CostLaws} {X : Type} `{ExtLaws X} {C : Type} `{JumpCache C}.
Variables (keccak : bytes -> H256) (params : ActionParams).
Hypotheses (Hkeccak : forall b, is_u256 (keccak b)) (Hparams : params_ok params).
Variables (sched : Schedule) (code : bytes).
Hypotheses (Hsched : SchedulePrices sched) (Hcode : vec_ok code).
Abbreviation state := (@LoopState X C).
Let P : Prop := 64 < cost_bits.

Record loop_ok (s : state) : Prop := {
  lo_machine : machine_ok (l_machine s);
  lo_size : size (m_stack (l_machine s)) <= stack_limit sched;
  lo_pos : 0 <= position (m_reader (l_machine s));
  lo_mem : mem_inv sched (l_gasometer s) (len (m_mem (l_machine s)));
  lo_sched : ext_schedule (m_ext (l_machine s)) = sched;
  lo_address : address params = ext_address (m_ext (l_machine s));
  lo_room : ext_room (current_gas (l_gasometer s)) (m_ext (l_machine s));
}.

(** Progress: gas first, then the distance to the end of the code. *)
Definition measure (s : state) : Z :=
  current_gas (l_gasometer s) * (len code + 1) + Z.max 0 (len code - position (m_reader (l_machine s))).

Lemma with_ext_wp {A} Q0 (x : X) (m : outcome Error A) Q R :
  wpp Q0 m Q (fun e => R (e, x)) -> wpp Q0 (with_ext x m) Q R.
Proof. by destruct m. Qed.

(** [m] attached to externalities of the same context. *)
Lemma with_ext_bind {A B} n (x x0 : X) (m : outcome Error A) (k : A -> outcome (Error * X) B) Q0 Qm Q :
  wpp Q0 m Qm (raised ext_internal) -> ext_step n x0 x -> (forall a, Qm a -> wpp Q0 (k a) Q (fun '(e, x') => raised ext_internal e /\ ext_step n x0 x')) ->
  wpp Q0 (with_ext x m ≫= k) Q (fun '(e, x') => raised ext_internal e /\ ext_step n x0 x').
Proof. intros Hm Hx Hk. destruct m; simpl in *; auto. Qed.

Lemma jump_destinations_wp (c : C) h : wp (jump_destinations c h code) any (raised ext_internal).
Proof.
  destruct Hcode as [_ Hl]. destruct (find_jump_destinations_spec code) as (d & Hd & _); [lia|].
  unfold jump_destinations. rewrite Hd. case_match; [done|].
  by destruct (cache_get_mut c h) as [[d'|] c'].
Qed.

Lemma verify_jump_wp j d : wp (verify_jump j d) (fun p => 0 <= p) (raised ext_internal).
Proof. unfold verify_jump. destruct (_ && _); [|done]. apply low_u64_in_u. Qed.

(** The return of a region of memory. *)
Definition returns_region (m : bytes) (res : InstructionResult) : Prop :=
  match res with
  | StopExecutionNeedsReturn _ o sz _ => is_u256 o /\ is_u256 sz /\ region_ok (len m) o sz
  | _ => True
  end.

Definition advanced (s : state) (res : InstructionResult) (f : Flow) : Prop :=
  match f with
  | Continue s' => loop_ok s' /\ current_gas (l_gasometer s') = current_gas (l_gasometer s) /\
      m_ext (l_machine s') = m_ext (l_machine s) /\
      ((exists p, res = JumpToPosition p) \/
       position (m_reader (l_machine s')) = position (m_reader (l_machine s)))
  | Break s' => s' = s
  | Return r s' => exists g o sz a d, res = StopExecutionNeedsReturn g o sz a /\ r = NeedsReturn g d a /\
      rd_deref (E := Error) d = Ok (region (m_mem (l_machine s)) o sz) /\ m_ext (l_machine s') = m_ext (l_machine s)
  end.

Lemma advance_wp (s : state) res :
  loop_ok s -> returns_region (m_mem (l_machine s)) res ->
  wp (advance keccak params code s res) (advanced s res) (fun '(e, x') => raised ext_internal e /\ ext_kept (m_ext (l_machine s)) x').
Proof.
  intros Hs Hres. pose proof (lo_machine _ Hs) as Hm. assert (Hx : ext_kept (m_ext (l_machine s)) (m_ext (l_machine s))).
  { apply ext_kept_refl, Hm. }
  destruct res as [|u|p|g o sz a|]; simpl; [by split_and!; auto|by split_and!; auto| | |done].
  - apply with_ext_bind with (Qm := any); [|done|]; [case_match; [done|apply jump_destinations_wp]|].
    intros [d c] _. eapply with_ext_bind; [apply verify_jump_wp|done|]. intros q Hq. simpl. split_and!; try done; eauto.
    destruct Hs as [[? ? ? ? ?] ? ? ? ? ? ?]. by constructor; [constructor|..].
  - destruct Hres as (Ho & Hsz & Hr). pose proof (ok_len _ Hm).
    destruct (mem_into_return_data_ok (E := Error) (m_mem (l_machine s))) with (off := o) (size := sz)
      as (d & -> & Hd); [lia|done..|]. simpl. eauto 10.
Qed.

(** What an iteration from [s] leads to. *)
Definition flow_ok (s : state) (f : Flow) : Prop :=
  let x := m_ext (l_machine s) in
  let g := current_gas (l_gasometer s) in
  match f with
  | Continue s' => loop_ok s' /\ current_gas (l_gasometer s') <= g /\ measure s' < measure s /\
      ext_step (g - current_gas (l_gasometer s')) x (m_ext (l_machine s'))
  | Break s' => loop_ok s' /\ current_gas (l_gasometer s') <= g /\
      ext_step (g - current_gas (l_gasometer s')) x (m_ext (l_machine s'))
  | Return r s' => exists g' d a, r = NeedsReturn g' d a /\ 0 <= g' <= g /\ rd_ok d /\
      ext_step (g - g') x (m_ext (l_machine s'))
  end.

(** The trace of an executed instruction reads in range. *)
Lemma trace_executed_wp (m : Machine X) mw sw gas (n : Z) :
  machine_ok m -> written_ok (len (m_mem m)) mw -> 0 <= n <= size (m_stack m) ->
  wp (st ← with_ext (m_ext m) (peek_top (m_stack m) n);
      md ← with_ext (m_ext m)
             (match mw with
              | Some (o, sz) => e ← add_chk 64 o sz; b ← slice (m_mem m) o e; Ok (Some (o, b))
              | None => Ok None
              end);
      or_panic (ext_trace_executed (m_ext m) gas st md sw))
     (fun x' => ext_kept (m_ext m) x') (fun '(e, x') => raised ext_internal e /\ ext_kept (m_ext m) x').
Proof.
  intros Hm Hw Hn. pose proof (ok_ext _ Hm) as Hx. pose proof (ok_len _ Hm).
  rewrite <-(of_top_top (m_stack m)) in *. rewrite size_of_top in Hn. rewrite peek_top_spec by done. simpl.
  assert (Hdone : forall md st, wp (or_panic (E := Error * X) (ext_trace_executed (m_ext m) gas st md sw))
    (fun x' => ext_kept (m_ext m) x') (fun '(e, x') => raised ext_internal e /\ ext_kept (m_ext m) x')).
  { intros md st. destruct (ext_trace_executed_ok (m_ext m) gas st md sw Hx) as (x' & -> & ?). done. }
  destruct mw as [[o sz]|]; simpl in *; [|apply Hdone].
  rewrite add_chk_ok by lia. simpl. rewrite slice_ok by lia. apply Hdone.
Qed.

(** Gas after an instruction: what a sub-call hands back never exceeds the
    charge, so gas does not grow; what remains of the charge covers what the
    externalities counted. *)
Lemma allowance_paid ms i t q g res :
  requirements_post sched ms i t q -> result_ok sched g (provide_gas q) i t res ->
  0 <= unused res /\ counted i <= gas_cost q /\
  counted i <= allowance sched i t (provide_gas q) res <= gas_cost q - unused res.
Proof.
  intros Hq Hres. pose proof (rq_counted _ _ _ _ _ Hq) as Hct. pose proof (sp_stipend _ Hsched).
  pose proof (rq_provide _ _ _ _ _ Hq) as Hprov. unfold allowance.
  assert (Hu : 0 <= unused res /\ (provide_gas q = None -> unused res = 0) /\
    (forall p, provide_gas q = Some p -> 0 <= p -> unused res <= p + (if transfers_value i t then call_stipend sched else 0))).
  { destruct res as [|u|p|g' o sz a|]; cbn [unused]; try (split_and!; [lia|done|intros; case_match; lia]).
    destruct Hres as (p & Hp & Hu). split_and!; [lia|congruence|]. intros p' Hp' _. rewrite Hp in Hp'. injection Hp' as <-. lia. }
  destruct Hu as (Hu0 & Hun & Hus). destruct (is_call i || is_create i).
  - destruct (proj2 Hprov eq_refl) as [p Hp]. destruct (rq_provided _ _ _ _ _ Hq p Hp) as [Hp0 Hps]. specialize (Hus p Hp Hp0).
    rewrite Hp. cbn [default]. unfold id, call_surcharge in *. destruct (transfers_value i t); lia.
  - destruct (provide_gas q) as [p|]; [|rewrite Hun by done; lia]. by pose proof (proj1 Hprov (ex_intro _ p eq_refl)).
Qed.

Lemma unused_gas_ok (x : X) g ms i t q res :
  in_u cost_bits g -> gas_cost q <= g -> requirements_post sched ms i t q ->
  result_ok sched (g - gas_cost q) (provide_gas q) i t res ->
  (match res with UnusedGas u => with_ext x (add_chk cost_bits (g - gas_cost q) u) | _ => Ok (g - gas_cost q) end)
  = Ok (g - gas_cost q + unused res).
Proof.
  intros [Hg0 Hg1] Hc Hq Hres. pose proof (allowance_paid _ _ _ _ _ _ Hq Hres) as (Hu & _ & Hal).
  pose proof (counted_nonneg i). destruct res; cbn [unused] in *; rewrite ?Z.add_0_r; try done.
  by rewrite add_chk_ok by lia.
Qed.

Section iteration.
Variables (s : state) (mem : bytes) (rd : ReturnData) (rdr : CodeReader) (t l : list U256) (x : X).
Hypotheses (Hs : loop_ok s) (Hmach : l_machine s = mkMachine mem rd rdr (of_top t l) x)
  (Hpc : position rdr < len code).
Abbreviation gas0 := (current_gas (l_gasometer s)).

(** The machine an instruction runs on. *)
Definition entry (q : InstructionRequirements) (x' : X) : Machine X :=
  mkMachine (expanded mem (memory_required_size q)) rd (mkReader (position rdr + 1) code) (of_top t l) x'.

(** The state after an instruction satisfies the invariant. *)
Lemma after_ok i q x2 tr m' x3 g' k :
  requirements_post sched (len mem) i t q -> ext_kept x x2 -> ext_kept (m_ext m') x3 ->
  len t - args (info_of i) + ret (info_of i) <= stack_limit sched ->
  moves k (ret (info_of i) - args (info_of i)) (entry q x2) m' -> 0 <= g' <= gas0 -> 0 <= k <= gas0 - g' ->
  loop_ok (mkLoop (set_ext x3 m') (mkGasometer g' (memory_total_gas q)) tr (l_dests s) (l_cache s)).
Proof.
  intros Hq Hx2 Hx3 Hlim [Hok Hsz Hlen Hrc Hpos Hext] Hg' Hk.
  assert (Hx : ext_step k x x3) by (eapply ext_kept_l; [exact Hx2|]; by eapply ext_kept_r).
  pose proof (lo_mem _ Hs) as Hinv. rewrite Hmach in Hinv. destruct Hinv as (Hm0 & Hm32 & [Hg0 Hg1] & _ & _).
  pose proof (lo_pos _ Hs) as Hp. rewrite Hmach in Hp. cbn [m_mem m_reader] in *.
  destruct Hok as [? ? ? ? ?]. revert Hlen Hsz Hpos. unfold entry. cbn [m_mem m_stack m_reader position].
  rewrite len_expanded, size_of_top.
  intros Hlen Hsz Hpos. constructor; cbn [l_machine l_gasometer m_mem m_stack m_reader m_ext set_ext current_gas].
  - constructor; try done. by eapply ext_step_ok.
  - lia.
  - lia.
  - unfold mem_inv. cbn [current_gas current_mem_gas]. rewrite Hlen. split_and!; [lia| |split; lia| |].
    + destruct (Z.max_spec (len mem) (memory_required_size q)) as [[_ ->]|[_ ->]]; [|done].
      apply (rq_size32 _ _ _ _ _ Hq).
    + apply (rq_total _ _ _ _ _ Hq).
    + rewrite <-(rq_total _ _ _ _ _ Hq). apply (rq_total_u _ _ _ _ _ Hq).
  - rewrite (ext_step_schedule _ _ _ Hx). pose proof (lo_sched _ Hs) as Hxs. by rewrite Hmach in Hxs.
  - rewrite (ext_step_address _ _ _ Hx). pose proof (lo_address _ Hs) as Hxs. by rewrite Hmach in Hxs.
  - pose proof (lo_room _ Hs) as Hr. rewrite Hmach in Hr. cbn [m_ext] in Hr.
    apply (ext_room_mono _ (gas0 - k)); [lia|]. eapply ext_step_room; [|exact Hx|exact Hr]. lia.
Qed.

Lemma returned_region i q g' res m :
  requirements_post sched (len mem) i t q -> Forall (in_u 256) t ->
  len m = Z.max (len mem) (memory_required_size q) -> result_ok sched g' (provide_gas q) i t res ->
  returns_region m res.
Proof.
  intros Hq Ht Hm Hres. destruct res as [| | |g o sz a|]; try done.
  destruct Hres as (_ & -> & -> & Hi). split_and!; [by apply arg_in_u..|].
  assert (Hreg : regions i t = [(arg t 0, arg t 1)]) by (by destruct Hi as [-> | ->]).
  pose proof (rq_regions _ _ _ _ _ Hq) as Hcov. rewrite Hreg in Hcov.
  apply (covers_mono _ (len m)) in Hcov; [|lia]. by apply covers_region in Hcov as [? _]; [|apply arg_in_u..].
Qed.

(** Progress of an iteration. *)
Lemma flow_after i q tr res m' x3 g' f :
  requirements_post sched (len mem) i t q -> result_ok sched (gas0 - gas_cost q) (provide_gas q) i t res ->
  g' = gas0 - gas_cost q + unused res -> 0 <= gas0 - gas_cost q -> 0 <= g' <= gas0 ->
  machine_ok m' -> position rdr + 1 <= position (m_reader m') -> ext_step (gas0 - g') x x3 ->
  advanced (mkLoop (set_ext x3 m') (mkGasometer g' (memory_total_gas q)) tr (l_dests s) (l_cache s)) res f ->
  loop_ok (mkLoop (set_ext x3 m') (mkGasometer g' (memory_total_gas q)) tr (l_dests s) (l_cache s)) ->
  flow_ok s f.
Proof.
  intros Hq Hres Hj Hc Hg' Hm' Hpos Hx3 Hf Hl. unfold flow_ok. rewrite Hmach. cbn [m_ext].
  destruct f as [s'|s'|r s']; simpl in Hf.
  - destruct Hf as (Hok & Hgas & Hext & Hmove). rewrite Hext. cbn [l_gasometer current_gas] in Hgas.
    split_and!; [done|by rewrite Hgas; destruct Hg'| |by rewrite Hgas].
    unfold measure. rewrite Hgas, Hmach. cbn [m_reader]. pose proof (len_nonneg code).
    destruct Hmove as [[p Hp]| ->]; [|cbn [m_reader set_ext l_machine]; nia].
    subst res. cbn [unused] in Hj. destruct Hres as [_ Hi%(rq_jump_cost _ _ _ _ _ Hq)].
    pose proof (lo_pos _ Hok). nia.
  - subst s'. split_and!; [done|by destruct Hg'|done].
  - destruct Hf as (g & o & sz & a & d & -> & -> & Hd & Hext). rewrite Hext. destruct Hres as (-> & _).
    cbn [unused] in Hj. rewrite Z.add_0_r in Hj. subst g'. destruct (rq_cost _ _ _ _ _ Hq) as [Hc0 _].
    exists (gas0 - gas_cost q), d, a. split_and!; try done; [lia..|]. eexists. split; [exact Hd|]. split.
    + apply region_bytes, Hm'.
    + eapply Z.le_lt_trans; [apply len_region_le|apply Hm'].
Qed.

Lemma finish_wp i q x2 tr mw sw res m' :
  requirements_post sched (len mem) i t q -> gas_cost q <= gas0 -> ext_kept x x2 ->
  args (info_of i) <= len t -> len t - args (info_of i) + ret (info_of i) <= stack_limit sched ->
  0 <= ret (info_of i) ->
  moves (allowance sched i t (provide_gas q) res) (ret (info_of i) - args (info_of i)) (entry q x2) m' ->
  result_ok sched (gas0 - gas_cost q) (provide_gas q) i t res ->
  written_ok (len (m_mem (entry q x2))) mw ->
  wp (finish keccak params code s tr (info_of i) q mw sw (gas0 - gas_cost q) res m')
    (flow_ok s) (fun '(e, x') => raised ext_internal e /\ ext_step gas0 x x').
Proof.
  intros Hq Hgas Hx2 Hargs Hlim Hret Hnext Hres Hw. pose proof Hnext as [Hok Hsz Hlen Hrc Hpos Hext].
  pose proof (lo_mem _ Hs) as (_ & _ & Hg & _). destruct (rq_cost _ _ _ _ _ Hq) as [Hc0 Hc1].
  pose proof (allowance_paid _ _ _ _ _ _ Hq Hres) as (Hu & _ & Hal). pose proof (counted_nonneg i).
  set (k := allowance sched i t (provide_gas q) res) in *.
  assert (Hxm : ext_step k x (m_ext m')) by (by eapply ext_kept_l).
  assert (Ht : Forall (in_u 256) t).
  { pose proof (lo_machine _ Hs) as Hmk. rewrite Hmach in Hmk. apply machine_ok_inv in Hmk. tauto. }
  unfold finish. rewrite (unused_gas_ok (m_ext m') gas0 (len mem) i t q res) by done. cbn [mbind outcome_bind].
  set (g' := gas0 - gas_cost q + unused res) in *. apply wp_bind.
  apply (wp_mono _ _ (fun x3 => ext_kept (m_ext m') x3) _ (fun '(e, x3) => raised ext_internal e /\ ext_kept (m_ext m') x3));
    [|intros x3 Hx3|intros [e x3] [He Hx3]; split; [done|]; apply (ext_step_mono k); [lia|by eapply ext_kept_r]].
  { destruct tr; [|by apply ext_kept_refl, Hok]. apply trace_executed_wp; [done|by rewrite Hlen|].
    revert Hsz. unfold entry. cbn [m_stack]. rewrite size_of_top. lia. }
  assert (Hx3' : ext_step k x x3) by (by eapply ext_kept_r).
  assert (Hafter : loop_ok (mkLoop (set_ext x3 m') (mkGasometer g' (memory_total_gas q)) tr (l_dests s) (l_cache s))).
  { eapply (after_ok i q x2 tr m' x3 g' k); try done; lia. }
  eapply wp_mono; [apply advance_wp|intros f Hf|intros [e x'] [He Hx']].
  - done.
  - eapply returned_region; [done|done| |done]. cbn [l_machine m_mem set_ext].
    rewrite Hlen. unfold entry. cbn [m_mem]. apply len_expanded.
  - apply (flow_after i q tr res m' x3 g'); try done; [lia|lia|by destruct Hpos|]. by apply (ext_step_mono k); [lia|].
  - split; [done|]. apply (ext_step_mono k); [lia|]. by eapply ext_kept_r.
Qed.

(** The part of an iteration from the gas check on. *)
Lemma execute_wp i q x1 x2 tr :
  requirements_post sched (len mem) i t q -> ext_kept x x1 -> ext_kept x1 x2 -> in_u 8 i ->
  args (info_of i) <= len t -> len t - args (info_of i) + ret (info_of i) <= stack_limit sched ->
  wpp P (_ ← with_ext x2 (verify_gas (l_gasometer s) (gas_cost q));
      mem ← with_ext x2 (mem_expand mem (memory_required_size q));
      gas ← with_ext x2 (sub_chk gas0 (gas_cost q));
      '(mw, sw) ←
        (if tr then
           mw ← with_ext x2 (mem_written i (of_top t l));
           sw ← with_ext x2 (store_written i (of_top t l));
           Ok (mw, sw)
         else Ok (None, None));
      '(result, m) ← exec_instruction keccak gas params i (provide_gas q)
         (mkMachine mem rd (mkReader (position rdr + 1) code) (of_top t l) x2);
      finish keccak params code s tr (info_of i) q mw sw gas result m)
    (flow_ok s) (fun '(e, x') => raised ext_internal e /\ ext_step gas0 x x').
Proof.
  intros Hq Hx1 Hx12 Hi Hargs Hlim. assert (Hx2 : ext_kept x x2) by (by eapply ext_kept_trans).
  pose proof (lo_mem _ Hs) as (_ & _ & [Hg0 Hg1] & _). destruct (rq_cost _ _ _ _ _ Hq) as [Hc0 Hc1].
  pose proof (lo_machine _ Hs) as Hmk. rewrite Hmach in Hmk. apply machine_ok_inv in Hmk as (Hb & Hml & Hrd & Ht & Hl & Hl4 & _).
  pose proof (rq_size _ _ _ _ _ Hq) as [Hq0 Hq1].
  assert (Hx2g : ext_step gas0 x x2) by (by apply ext_kept_step).
  unfold verify_gas. destruct (Z.ltb_spec gas0 (gas_cost q)); [done|]. simpl.
  destruct (Z.le_gt_cases (2 ^ 63) (memory_required_size q)) as [Hbig|Hfit].
  { rewrite mem_expand_big by lia. simpl. pose proof (rq_total_u _ _ _ _ _ Hq) as [_ Htu].
    rewrite (rq_total _ _ _ _ _ Hq) in Htu. pose proof (sp_memory _ Hsched). pose proof cost_bits_ge. unfold P.
    apply Z.nle_gt. intros Hb64. assert (cost_bits = 64) as Hcb by lia. rewrite Hcb in Htu.
    apply mem_price_fits in Htu; lia. }
  rewrite mem_expand_ok by done. simpl. rewrite sub_chk_ok by done. simpl. apply wp_weaken. fold (entry q x2).
  assert (Hcov : covers (len (expanded mem (memory_required_size q))) (regions i t)).
  { eapply covers_mono; [|apply (rq_regions _ _ _ _ _ Hq)]. rewrite len_expanded. lia. }
  apply wp_bind.
  apply (wp_mono _ _ (fun '(mw, sw) => written_ok (len (m_mem (entry q x2))) mw) _ (fun '(e, x') => raised ext_internal e /\ ext_step gas0 x x'));
    [|intros [mw sw] Hw|done].
  { destruct tr; [|done]. eapply with_ext_bind; [apply mem_written_wp; [done..|]|done|].
    - unfold entry. cbn [m_mem]. rewrite len_expanded. lia.
    - intros mw Hw. eapply with_ext_bind; [by apply store_written_wp|done|]. by intros. }
  assert (Hxs : ext_schedule x2 = sched).
  { rewrite (ext_kept_schedule _ _ Hx2). pose proof (lo_sched _ Hs) as Hxs. by rewrite Hmach in Hxs. }
  pose proof (allowance_paid _ _ _ _ (gas0 - gas_cost q) IOk Hq I) as (_ & Hct & Hal). cbn [unused] in Hal.
  pose proof (counted_nonneg i).
  apply wp_bind. eapply wp_mono; [apply (exec_instruction_runs keccak params Hkeccak Hparams)| |].
  - constructor; rewrite ?Hxs; try done.
    + split; lia.
    + apply machine_ok_intro; try done; [by apply expanded_bytes| |by eapply ext_kept_ok]. rewrite len_expanded. lia.
    + simpl. pose proof (lo_pos _ Hs) as Hp. rewrite Hmach in Hp. simpl in Hp. lia.
    + intros Hcc. apply (rq_provide _ _ _ _ _ Hq) in Hcc as [p Hp]. exists p. split; [done|].
      destruct (rq_provided _ _ _ _ _ Hq p Hp). split; lia.
    + rewrite (ext_kept_address _ _ Hx2). pose proof (lo_address _ Hs) as Hxa. by rewrite Hmach in Hxa.
    + pose proof (lo_room _ Hs) as Hr. rewrite Hmach in Hr. cbn [m_ext] in Hr.
      apply (ext_room_mono _ gas0); [lia|]. by eapply ext_kept_room.
  - intros [res m'] [Hn Hres]. rewrite Hxs in Hn, Hres. eapply (finish_wp i q x2); try done. by apply info_ret_nonneg.
  - intros [e x'] [He Hx']. split; [done|]. apply (ext_step_mono (counted i)); [lia|]. by eapply ext_kept_l.
Qed.

Lemma step_wp : wpp P (step keccak params code s) (flow_ok s) (fun '(e, x') => raised ext_internal e /\ ext_step gas0 x x').
Proof.
  pose proof (lo_machine _ Hs) as Hmk. pose proof (lo_size _ Hs) as Hsize. pose proof (lo_sched _ Hs) as Hxs.
  pose proof (lo_mem _ Hs) as Hinv. pose proof (lo_pos _ Hs) as Hp. pose proof Hinv as (_ & _ & [Hg0 _] & _).
  unfold step. rewrite Hmach in *. cbn [m_mem m_reader m_stack m_ext m_return_data] in *. rewrite size_of_top in Hsize.
  apply machine_ok_inv in Hmk as (Hb & Hml & Hrd & Ht & Hl & Hl4 & Hx).
  destruct (index_exists (E := Error) code (position rdr)) as (i & Hi & ->); [done|]. cbn [mbind outcome_bind with_ext].
  assert (Hi8 : in_u 8 i) by (destruct Hcode as [Hcb _]; by eapply Forall_lookup_1 in Hcb).
  apply wp_bind.
  apply (wp_mono _ _ (fun '(_, x1) => ext_kept x x1) _ (fun '(e, x') => raised ext_internal e /\ ext_step gas0 x x')); [|intros [tr x1] Hx1|done].
  { destruct (l_do_trace s); [|by apply ext_kept_refl].
    destruct (ext_trace_next_ok x (position rdr) i gas0 Hx) as (b & x1 & -> & ?). done. }
  assert (Hx1g : ext_step gas0 x x1) by (by apply ext_kept_step).
  rewrite info_index by done. cbn [mbind outcome_bind with_ext]. pose proof (ext_kept_ok _ _ Hx1) as Hx1ok.
  pose proof (ext_kept_schedule _ _ Hx1) as Hx1s.
  eapply with_ext_bind; [apply wp_weaken, verify_instruction_wp; by rewrite Hx1s, Hxs|done|].
  intros [] (Htier & Hargs & Hlim). rewrite Hx1s, Hxs in Hlim.
  eapply with_ext_bind; [apply (requirements_wp sched Hsched); try done; congruence|done|].
  intros q Hq. apply wp_bind.
  apply (wp_mono _ _ (fun x2 => ext_kept x1 x2) _ (fun '(e, x') => raised ext_internal e /\ ext_step gas0 x x')); [|intros x2 Hx2|done].
  { destruct tr; [|by apply ext_kept_refl].
    destruct (ext_trace_prepare_ok x1 (position rdr) i (gas_cost q) Hx1ok) as (x2 & -> & ?). done. }
  by apply (execute_wp i q x1 x2 tr).
Qed.
End iteration.

Lemma step_flow (s : state) :
  loop_ok s -> position (m_reader (l_machine s)) < len code ->
  wpp P (step keccak params code s) (flow_ok s)
    (fun '(e, x') => raised ext_internal e /\ ext_step (current_gas (l_gasometer s)) (m_ext (l_machine s)) x').
Proof.
  intros Hs Hpc. destruct (l_machine s) as [mem rd rdr st x] eqn:Hm. cbn [m_reader m_ext] in *.
  apply (step_wp s mem rd rdr (top st) (logs st) x); [done|by rewrite of_top_top|done].
Qed.

(** ** States an execution goes through *)
Inductive reaches (s : state) : state -> Prop :=
  | reaches_refl : reaches s s
  | reaches_step s1 s2 :
      reaches s s1 -> position (m_reader (l_machine s1)) < len code ->
      step keccak params code s1 = Ok (Continue s2) -> reaches s s2.

Lemma reaches_ok s s' :
  reaches s s' -> loop_ok s ->
  loop_ok s' /\ current_gas (l_gasometer s') <= current_gas (l_gasometer s) /\
  ext_step (current_gas (l_gasometer s) - current_gas (l_gasometer s')) (m_ext (l_machine s)) (m_ext (l_machine s')).
Proof.
  induction 1 as [|s1 s2 Hr IH Hpc Hstep]; intros Hs.
  { rewrite Z.sub_diag. split_and!; [done|lia|apply ext_step_refl, (ok_ext _ (lo_machine _ Hs))]. }
  destruct (IH Hs) as (Hok & Hg & Hx). pose proof (step_flow s1 Hok Hpc) as Hf. rewrite Hstep in Hf.
  destruct Hf as (? & ? & _ & Hx2). split_and!; [done|lia|]. pose proof (ext_step_trans _ _ _ _ _ Hx Hx2) as Hx3.
  eapply ext_step_mono; [|exact Hx3]. lia.
Qed.

(** What a finished execution leaves: the gas not used, and externalities that
    counted at most what was. *)
Definition gas_of (r : GasLeft) : Z := match r with Known g | NeedsReturn g _ _ => g end.

Definition gas_left_ok (g : Z) (r : GasLeft) : Prop :=
  0 <= gas_of r <= g /\ match r with Known _ => True | NeedsReturn _ d _ => rd_ok d end.

Lemma exec_loop_wp fuel (s : state) :
  loop_ok s -> measure s < Z.of_nat fuel ->
  exists r, exec_loop keccak fuel params code s = Some r /\
    wpp P r (fun '(g, s') => gas_left_ok (current_gas (l_gasometer s)) g /\
                             ext_step (current_gas (l_gasometer s) - gas_of g) (m_ext (l_machine s)) (m_ext (l_machine s')))
            (fun '(e, x') => raised ext_internal e /\ ext_step (current_gas (l_gasometer s)) (m_ext (l_machine s)) x').
Proof.
  revert s. induction fuel as [|fuel IH]; intros s Hs Hm.
  { pose proof (lo_mem _ Hs) as (_ & _ & [? _] & _). pose proof (len_nonneg code). unfold measure in Hm. nia. }
  pose proof (ok_ext _ (lo_machine _ Hs)) as Hx. pose proof (lo_mem _ Hs) as (_ & _ & [Hg0 _] & _).
  cbn [exec_loop]. destruct (Z.ltb_spec (position (m_reader (l_machine s))) (len code)).
  2:{ eexists. split; [done|]. split; [unfold gas_left_ok; simpl; split; [lia|done]|].
      cbn [gas_of]. rewrite Z.sub_diag. by apply ext_kept_refl. }
  pose proof (step_flow s Hs ltac:(done)) as Hf.
  destruct (step keccak params code s) as [[s'|s'|r s']|[e x']|]; simpl in Hf.
  - destruct Hf as (Hok & Hg & Hmeas & Hk). destruct (IH s') as (r & -> & Hr); [done|lia|].
    eexists. split; [done|]. eapply wp_mono; [exact Hr| |].
    + intros [g s2] [[Hgl Hd] Hk2]. split; [split; [lia|done]|].
      pose proof (ext_step_trans _ _ _ _ _ Hk Hk2). eapply ext_step_mono; [|done]. lia.
    + intros [e x2] [He Hx2]. split; [done|]. pose proof (ext_step_trans _ _ _ _ _ Hk Hx2). eapply ext_step_mono; [|done]. lia.
  - destruct Hf as (Hok & Hg & Hk). eexists. split; [done|]. split; [|done].
    pose proof (lo_mem _ Hok) as (_ & _ & [? _] & _). unfold gas_left_ok. simpl. split; [lia|done].
  - destruct Hf as (g' & d & a & -> & Hg & Hd & Hk). eexists. split; [done|]. by split.
  - by eexists.
  - by eexists.
Qed.
End loop.

Section run.
Context `{CostLaws} {X : Type} `{ExtLaws X} {C : Type} `{JumpCache C}.
Variables (keccak : bytes -> H256) (params : ActionParams) (c : bytes) (ext : X) (rd : ReturnData) (cache : C).
Hypotheses (Hkeccak : forall b, is_u256 (keccak b)) (Hparams : params_ok params) (Hcode : code params = Some c)
  (Hext : ext_ok ext) (Hsched : schedule_ok (ext_schedule ext) = true) (Hrd : rd_ok rd)
  (Haddr : address params = ext_address ext) (Hroom : ext_room (gas params) ext).

(** The state [exec] starts from. *)
Definition initial (g : Z) : @LoopState X C :=
  mkLoop (mkMachine [] rd (CodeReader_new c) (with_capacity (stack_limit (ext_schedule ext)) 0) ext)
    (Gasometer_new g) true None cache.

Lemma initial_ok g : in_u cost_bits g -> g <= gas params -> loop_ok params (ext_schedule ext) (initial g).
Proof.
  intros Hg Hle. apply schedule_prices in Hsched as Hs. pose proof (sp_limit _ Hs). pose proof pow_bits_ge.
  constructor; simpl; try done.
  - constructor; simpl; try done; [apply with_capacity_wf|constructor].
  - change (size _) with 0. lia.
  - split_and!; try done. change (in_u cost_bits 0). split; lia.
  - apply (ext_room_mono _ (gas params)); [|done]. destruct Hg. lia.
Qed.

Lemma exec_wp fuel :
  (gas params + 1) * (len c + 1) <= Z.of_nat fuel ->
  exists r, exec keccak fuel rd cache params ext = Some r /\
    wpp (64 < cost_bits) r
      (fun '(g, s') => gas_left_ok (gas params) g /\ ext_step (gas params - gas_of g) ext (m_ext (l_machine s')))
      (fun '(e, x') => raised ext_internal e /\ ext_step (gas params) ext x').
Proof.
  intros Hfuel. pose proof Hparams as (_ & _ & _ & Hgas & _ & _ & Hvec & _). rewrite Hcode in Hvec.
  unfold exec. rewrite Hcode. pose proof (from_u256_inv (gas params)) as Hinv.
  pose proof (from_u256_no_panic (gas params)).
  destruct (from_u256 (gas params)) as [g|e|] eqn:Hg;
    [|apply from_u256_error in Hg as ->; eexists; split; [done|split; [done|]; apply ext_kept_step; [by destruct Hgas|by apply ext_kept_refl]]|done].
  destruct (Hinv g) as [-> Hgu]; [done|done|]. fold (initial (gas params)).
  destruct (exec_loop_wp keccak params Hkeccak Hparams (ext_schedule ext) c (schedule_prices _ Hsched) Hvec fuel
    (initial (gas params))) as (r & Hr & Hw); [by apply initial_ok| |by exists r].
  unfold measure. simpl. pose proof (len_nonneg c). destruct Hgas. lia.
Qed.
End run.
