(* ===== verification/FakeExt.v ===== *)
(** * The test externalities ([ethcore/vm/src/tests.rs])

    [FakeExt], the double the repository's VM tests run against, and the tests
    of the interpreter it ships evaluated on the model.  [unimplemented!()] and
    indexing a missing key are panics. *)
From stdpp Require Import base list numbers gmap.
From S2P Require Import Prelude Words Vm Cost Instructions EvmStack EvmMemory Gasometer JumpDests Interpreter.

Inductive FakeCallType : Type := FakeCallT | FakeCreateT.

Record FakeCall := mkFakeCall {
  fc_call_type : FakeCallType;
  fc_gas : U256;
  fc_sender_address : option Address;
  fc_receive_address : option Address;
  fc_value : option U256;
  fc_data : bytes;
  fc_code_address : option Address;
}.

Record FakeExt := mkFakeExt {
  store : gmap Z Z;
  suicides : list Address;
  calls : list FakeCall;
  sstore_clears : Z;
  fe_depth : Z;
  blockhashes : gmap Z Z;
  codes : gmap Z bytes;
  fe_logs : list (list H256 * bytes);
  info : EnvInfo;
  fe_schedule : Schedule;
  balances : gmap Z Z;
  tracing : bool;
  fe_is_static : bool;
}.

Definition EnvInfo_default : EnvInfo := mkEnv 0 0 0 0 0 [] 0.

Definition FakeExt_new : FakeExt :=
  mkFakeExt ∅ [] [] 0 0 ∅ ∅ [] EnvInfo_default new_frontier ∅ false false.
Definition FakeExt_new_byzantium : FakeExt :=
  mkFakeExt ∅ [] [] 0 0 ∅ ∅ [] EnvInfo_default new_byzantium ∅ false false.

(** Setters for the fields the methods change. *)
Definition fe_set_store st (x : FakeExt) : FakeExt :=
  mkFakeExt st (suicides x) (calls x) (sstore_clears x) (fe_depth x) (blockhashes x) (codes x) (fe_logs x)
    (info x) (fe_schedule x) (balances x) (tracing x) (fe_is_static x).
Definition fe_set_calls c (x : FakeExt) : FakeExt :=
  mkFakeExt (store x) (suicides x) c (sstore_clears x) (fe_depth x) (blockhashes x) (codes x) (fe_logs x)
    (info x) (fe_schedule x) (balances x) (tracing x) (fe_is_static x).
Definition fe_set_logs l (x : FakeExt) : FakeExt :=
  mkFakeExt (store x) (suicides x) (calls x) (sstore_clears x) (fe_depth x) (blockhashes x) (codes x) l
    (info x) (fe_schedule x) (balances x) (tracing x) (fe_is_static x).
Definition fe_set_suicides l (x : FakeExt) : FakeExt :=
  mkFakeExt (store x) l (calls x) (sstore_clears x) (fe_depth x) (blockhashes x) (codes x) (fe_logs x)
    (info x) (fe_schedule x) (balances x) (tracing x) (fe_is_static x).
Definition fe_set_clears n (x : FakeExt) : FakeExt :=
  mkFakeExt (store x) (suicides x) (calls x) n (fe_depth x) (blockhashes x) (codes x) (fe_logs x)
    (info x) (fe_schedule x) (balances x) (tracing x) (fe_is_static x).

Definition fe_create (x : FakeExt) (gas value : U256) (code : bytes) (a : CreateContractAddress) :
    option (ContractCreateResult * FakeExt) :=
  Some (CreateFailed, fe_set_calls (mkFakeCall FakeCreateT gas None None (Some value) code None :: calls x) x).

Definition fe_call (x : FakeExt) (gas : U256) (sender_address receive_address : Address) (value : option U256)
    (data : bytes) (code_addr : Address) (output : bytes) (ct : CallType) :
    option (MessageCallResult * bytes * FakeExt) :=
  Some (Success gas ReturnData_empty, output,
        fe_set_calls (mkFakeCall FakeCallT gas (Some sender_address) (Some receive_address) value data
                        (Some code_addr) :: calls x) x).

#[global] Instance FakeExt_ext : VmExt FakeExt | 10 := {|
  ext_storage_at x key := Ok (default 0 (store x !! key));
  ext_set_storage x key value := Ok (tt, fe_set_store (<[key := value]> (store x)) x);
  ext_exists x a := Ok (bool_decide (is_Some (balances x !! a)));
  ext_exists_and_not_null x a := Ok (match balances x !! a with Some b => negb (b =? 0) | None => false end);
  ext_origin_balance x := Panic;
  ext_balance x a := match balances x !! a with Some b => Ok b | None => Panic end;
  ext_blockhash x n := Some (default 0 (blockhashes x !! n), x);
  ext_create := fe_create;
  ext_call := fe_call;
  ext_extcode x a := Ok (default [] (codes x !! a));
  ext_extcodesize x a := Ok (match codes x !! a with Some c => len c | None => 0 end);
  ext_log x topics data := Ok (tt, fe_set_logs (fe_logs x ++ [(topics, data)]) x);
  ext_ret x gas d apply := Panic;
  ext_suicide x a := Ok (tt, fe_set_suicides (a :: suicides x) x);
  ext_schedule := fe_schedule;
  ext_env_info := info;
  ext_depth := fe_depth;
  ext_inc_sstore_clears x := Some (fe_set_clears (sstore_clears x + 1) x);
  ext_trace_next_instruction x _ _ _ := Some (tracing x, x);
  ext_trace_prepare_execute x _ _ _ := Some x;
  ext_trace_executed x _ _ _ _ := Some x;
  ext_is_static := fe_is_static;
|}.

(** A cache that keeps everything. *)
#[global] Instance map_cache : JumpCache (gmap Z BitSet) := {|
  cache_get_mut c h := (c !! h, c);
  cache_insert c h d := <[h := d]> c;
|}.

(** The result of a run: the gas left or the error. *)
Definition run_result (r : option (outcome (Error * FakeExt) (GasLeft * @LoopState FakeExt (gmap Z BitSet)))) :
    option (outcome Error GasLeft) :=
  match r with
  | Some (Ok (g, _)) => Some (Ok g) | Some (Err (e, _)) => Some (Err e) | Some Panic => Some Panic | None => None
  end.

Definition test_params (code : bytes) : ActionParams :=
  mkParams 0 (Some KECCAK_EMPTY) 5 0 0 300000 1 (Transfer 100000) (Some code) None CT_None Separate.
Definition test_ext (x : FakeExt) : FakeExt :=
  mkFakeExt ∅ [] [] 0 0 ∅ ∅ [] EnvInfo_default (fe_schedule x) {[5 := 1000000000]} true false.

(** [should_not_fail_on_tracing_mem]: 248212 gas is left. *)
Definition tracing_mem_code : bytes :=
  [0x7f; 0xee; 0xff; 0xff; 0xff; 0xff; 0xff; 0xff; 0xff; 0xff; 0xff; 0xff; 0xff; 0xff; 0xff; 0xff; 0xff; 0xff; 0xff; 0xff; 0xff; 0xff; 0xff; 0xff; 0xff; 0xff; 0xff; 0xff; 0xff; 0xff; 0xff; 0xff; 0x00; 0x60; 0x00; 0x52; 0x7f; 0xaa; 0xff; 0xff; 0xff; 0xff; 0xff; 0xff; 0xff; 0xff; 0xff; 0xff; 0xff; 0xff; 0xff; 0xff; 0xff; 0xff; 0xff; 0xff; 0xff; 0xff; 0xff; 0xff; 0xff; 0xff; 0xff; 0xff; 0xff; 0xff; 0xff; 0xff; 0xaa; 0x60; 0x20; 0x52; 0x60; 0x00; 0x62; 0x0f; 0x12; 0x06; 0x60; 0x40; 0x60; 0x00; 0x60; 0x17; 0x73; 0x94; 0x53; 0x04; 0xeb; 0x96; 0x06; 0x5b; 0x2a; 0x98; 0xb5; 0x7a; 0x48; 0xa0; 0x6a; 0xe2; 0x8d; 0x28; 0x5a; 0x71; 0xb5; 0x61; 0x01; 0xf4; 0xf1; 0x60; 0x00; 0x55].

Example should_not_fail_on_tracing_mem :
  run_result (exec (H := usize_cost) (fun _ => 0) 1000 ReturnData_empty (∅ : gmap Z BitSet)
    (test_params tracing_mem_code) (test_ext FakeExt_new)) = Some (Ok (Known 248212)).
Proof. vm_compute. reflexivity. Qed.

(** [should_not_overflow_returndata] *)
Definition overflow_returndata_code : bytes :=
  [0x60; 0x01; 0x60; 0x01; 0x60; 0x00; 0x03; 0x60; 0x00; 0x3e; 0x00].

Example should_not_overflow_returndata :
  run_result (exec (H := usize_cost) (fun _ => 0) 1000 ReturnData_empty (∅ : gmap Z BitSet)
    (test_params overflow_returndata_code) (test_ext FakeExt_new_byzantium)) = Some (Err OutOfBounds).
Proof. vm_compute. reflexivity. Qed.
