(* ===== verification/EvmWorld.v ===== *)
(** * A total world

    The test externalities with the two panicking queries made total (a missing
    account has balance zero).  They satisfy the laws the interpreter relies
    on, which shows that the laws can be met, and serve as the concrete world
    of the examples. *)
From stdpp Require Import base list numbers gmap.
From S2P Require Import Prelude Words Vm VmLaws JumpDests FakeExt.

Record World := mkWorld { fake : FakeExt }.

Definition lift_world {E A} (o : outcome (E * FakeExt) (A * FakeExt)) : outcome (E * World) (A * World) :=
  match o with Ok (a, x) => Ok (a, mkWorld x) | Err (e, x) => Err (e, mkWorld x) | Panic => Panic end.

#[global] Instance World_ext : VmExt World := {|
  ext_storage_at w k := ext_storage_at (fake w) k;
  ext_set_storage w k v := lift_world (ext_set_storage (fake w) k v);
  ext_exists w a := ext_exists (fake w) a;
  ext_exists_and_not_null w a := ext_exists_and_not_null (fake w) a;
  ext_origin_balance w := Ok 0;
  ext_balance w a := Ok (default 0 (balances (fake w) !! a));
  ext_blockhash w n := match ext_blockhash (fake w) n with Some (h, x) => Some (h, mkWorld x) | None => None end;
  ext_create w gas value code scheme :=
    match fe_create (fake w) gas value code scheme with Some (r, x) => Some (r, mkWorld x) | None => None end;
  ext_call w gas sa ra v d ca out ct :=
    match fe_call (fake w) gas sa ra v d ca out ct with Some (r, o, x) => Some (r, o, mkWorld x) | None => None end;
  ext_extcode w a := ext_extcode (fake w) a;
  ext_extcodesize w a := ext_extcodesize (fake w) a;
  ext_log w topics d := lift_world (ext_log (fake w) topics d);
  ext_ret w gas d apply := Ok (gas, w);
  ext_suicide w a := lift_world (ext_suicide (fake w) a);
  ext_schedule w := fe_schedule (fake w);
  ext_env_info w := info (fake w);
  ext_depth w := fe_depth (fake w);
  ext_inc_sstore_clears w :=
    match ext_inc_sstore_clears (fake w) with Some x => Some (mkWorld x) | None => None end;
  ext_trace_next_instruction w pc i g := Some (tracing (fake w), w);
  ext_trace_prepare_execute w _ _ _ := Some w;
  ext_trace_executed w _ _ _ _ := Some w;
  ext_is_static w := fe_is_static (fake w);
|}.

(** Everything stored is a word, and code is a byte vector. *)
Definition world_ok (w : World) : Prop :=
  map_Forall (fun _ => in_u 256) (store (fake w)) /\ map_Forall (fun _ => in_u 256) (balances (fake w)) /\
  map_Forall (fun _ => in_u 256) (blockhashes (fake w)) /\ map_Forall (fun _ => vec_ok) (codes (fake w)) /\
  env_ok (info (fake w)).

Lemma default_in_u (m : gmap Z Z) k : map_Forall (fun _ => in_u 256) m -> is_u256 (default 0 (m !! k)).
Proof. intros Hm. destruct (m !! k) eqn:E; [by eapply Hm in E|done]. Qed.

Lemma codes_vec_ok (m : gmap Z bytes) a : map_Forall (fun _ => vec_ok) m -> vec_ok (default [] (m !! a)).
Proof. intros Hm. destruct (m !! a) eqn:E; [by eapply Hm in E|]. by split; [constructor|]. Qed.

(** Nothing is counted; 5 is the running account of the examples. *)
#[global] Instance World_spec : ExtSpec World := {|
  ext_ok := world_ok;
  ext_address w := 5;
  ext_room n w := True;
  ext_internal := False;
  ext_step n w w' := world_ok w' /\ fe_schedule (fake w') = fe_schedule (fake w);
|}.

#[global] Instance World_laws : ExtLaws World.
Proof.
  split; unfold wpp, any, ext_kept; simpl; try done.
  - intros m n x y z [? Hxy] [? Hyz]. split; [done|congruence].
  - by intros n x y [? ?].
  - by intros n x y [? ?].
  - intros x k (Hst & _) _. by apply default_in_u.
  - intros x k v (Hst & ?) Hk Hv. split; [|done]. split; [by apply map_Forall_insert_2|done].
  - intros x a (_ & Hbal & _) _. by apply default_in_u.
  - intros x n Hx Hn. eexists _, _. split_and!; [done| |by destruct x|done]. destruct Hx as (_ & _ & Hbh & _).
    by apply default_in_u.
  - intros. by eexists _, _.
  - intros x gas ? ? ? ? ? ? ? ? [? ?] ? ? ? ? ? ? ? ?. eexists _, _, _. split_and!; [done| |done..]. simpl.
    split; [lia|]. exists []. split; [done|by split; [constructor|]].
  - intros x a (_ & _ & _ & Hcd & _) _. by apply codes_vec_ok.
  - intros x a (_ & _ & _ & Hcd & _) _. destruct (codes_vec_ok _ a Hcd) as [_ Hl].
    destruct (codes (fake x) !! a) as [c|]; [|done]. simpl in Hl. unfold id in Hl. pose proof (len_nonneg c). split; lia.
  - by intros x (_ & _ & _ & _ & He).
  - intros. by eexists.
  - intros. by eexists _, _.
  - intros. by eexists.
  - intros. by eexists.
Qed.

#[global] Instance map_cache_laws : JumpCacheLaws (gmap Z BitSet).
Proof.
  refine {| cache_holds c h d := c !! h = Some d |}.
  - by intros c h d c' [= ? ->].
  - by intros c h o c' h' d' [= _ ->].
  - intros c h d h' d'. simpl. destruct (decide (h = h')) as [->|]; [rewrite lookup_insert_eq; intros [= ->]; by left|].
    rewrite lookup_insert_ne by done. by right.
Defined.

(** The repository's test set-up in this world. *)
Definition test_world (x : FakeExt) : World := mkWorld (test_ext x).

Lemma test_world_ok x : world_ok (test_world x).
Proof.
  unfold world_ok, test_world, test_ext. cbn [fake store balances blockhashes codes info].
  split_and!; try apply map_Forall_empty; [|done..]. by apply map_Forall_singleton.
Qed.
