(* ===== verification/EvmTheorems.v ===== *)
(** * Properties of the EVM

    The results about the interpreter, the gasometer, the jump analysis, the
    stack and the memory, each applied to a concrete program or state. *)
From stdpp Require Import base list numbers gmap.
From S2P Require Import Prelude Words Vm VmLaws Cost Instructions EvmStack EvmMemory Gasometer GasometerProofs JumpDests Interpreter EvmControlFlow EvmAlu EvmCopy EvmSteps InterpreterSafety FakeExt EvmWorld.

(** ** Executions *)

(** C7: with the [usize] cost type [Interpreter::exec] terminates within
    (gas + 1) * (code length + 1) iterations and never panics: no index, slice,
    [expect], assertion or arithmetic overflow fails, with tracing on or off,
    for every code, call data, well-formed world and schedule. *)
Theorem exec_total {X : Type} `{ExtLaws X} {C : Type} `{JumpCache C} (keccak : bytes -> H256) (params : ActionParams)
    (c : bytes) (ext : X) (rd : ReturnData) (cache : C) (fuel : nat) :
  (forall b, is_u256 (keccak b)) -> params_ok params -> code params = Some c ->
  ext_ok ext -> schedule_ok (ext_schedule ext) = true -> rd_ok rd ->
  address params = ext_address ext -> ext_room (gas params) ext ->
  (gas params + 1) * (len c + 1) <= Z.of_nat fuel ->
  exists r, exec (H := usize_cost) keccak fuel rd cache params ext = Some r /\ r <> Panic.
Proof.
  intros Hk Hp Hc Hx Hs Hrd Ha Hrm Hf.
  destruct (exec_wp (H := usize_cost) keccak params c ext rd cache Hk Hp Hc Hx Hs Hrd Ha Hrm fuel Hf) as (r & Hr & Hw).
  exists r. split; [done|]. by intros ->.
Qed.

(** A program with memory, a jump, a push at the end of the code and a return. *)
Definition sample_code : bytes :=
  [0x60; 0x2a; 0x60; 0x00; 0x52; 0x60; 0x0a; 0x56; 0xfe; 0xfe; 0x5b; 0x60; 0x20; 0x60; 0x00; 0xf3].
Definition sample_params : ActionParams :=
  mkParams 0 (Some KECCAK_EMPTY) 5 0 0 100 1 (Transfer 0) (Some sample_code) None CT_None Separate.
Definition sample_world : World := test_world FakeExt_new.

Lemma sample_params_ok : params_ok sample_params.
Proof. unfold params_ok, vec_ok, is_bytes. split_and!; try done; by repeat constructor. Qed.

Lemma sample_rd_ok : rd_ok ReturnData_empty.
Proof. exists []. by repeat split; constructor. Qed.

Lemma exec_total_witness :
  exists r, exec (H := usize_cost) (fun _ => 0) 2000 ReturnData_empty (∅ : gmap Z BitSet) sample_params sample_world
    = Some r /\ r <> Panic.
Proof.
  apply (exec_total (fun _ => 0) sample_params sample_code sample_world ReturnData_empty ∅ 2000);
    [done|apply sample_params_ok|done|apply test_world_ok|done|apply sample_rd_ok|done|done|by vm_compute].
Defined.

(** C8: whatever the cost type, an execution that returns leaves at most the gas
    it was given, returns a byte string, and ends, also with an error, in a
    world that follows from the first by at most as many counted changes as gas
    was used; it reports an internal error only if the externalities did. *)
Theorem exec_result `{CostLaws} {X : Type} `{ExtLaws X} {C : Type} `{JumpCache C} (keccak : bytes -> H256)
    (params : ActionParams) (c : bytes) (ext : X) (rd : ReturnData) (cache : C) (fuel : nat) :
  (forall b, is_u256 (keccak b)) -> params_ok params -> code params = Some c ->
  ext_ok ext -> schedule_ok (ext_schedule ext) = true -> rd_ok rd ->
  address params = ext_address ext -> ext_room (gas params) ext ->
  (gas params + 1) * (len c + 1) <= Z.of_nat fuel ->
  match exec keccak fuel rd cache params ext with
  | Some (Ok (Known g, s)) => 0 <= g <= gas params /\ ext_step (gas params - g) ext (m_ext (l_machine s))
  | Some (Ok (NeedsReturn g d _, s)) =>
      0 <= g <= gas params /\ rd_ok d /\ ext_step (gas params - g) ext (m_ext (l_machine s))
  | Some (Err (e, x)) => raised ext_internal e /\ ext_step (gas params) ext x
  | Some Panic => 64 < cost_bits
  | None => False
  end.
Proof.
  intros Hk Hp Hc Hx Hs Hrd Ha Hrm Hf.
  destruct (exec_wp keccak params c ext rd cache Hk Hp Hc Hx Hs Hrd Ha Hrm fuel Hf) as (r & -> & Hw).
  destruct r as [[[g|g d a] s]|[e x]|]; simpl in Hw; [by destruct Hw as [[? _] ?]|by destruct Hw as [[] ?]|done|done].
Qed.

Lemma exec_result_witness :
  match exec (H := U256_cost) (fun _ => 0) 2000 ReturnData_empty (∅ : gmap Z BitSet) sample_params sample_world with
  | Some (Ok (Known g, s)) => 0 <= g <= 100 /\ ext_step (100 - g) sample_world (m_ext (l_machine s))
  | Some (Ok (NeedsReturn g d _, s)) =>
      0 <= g <= 100 /\ rd_ok d /\ ext_step (100 - g) sample_world (m_ext (l_machine s))
  | Some (Err (e, x)) => raised (ext_internal (X := World)) e /\ ext_step 100 sample_world x
  | Some Panic => 64 < 256
  | None => False
  end.
Proof.
  apply (exec_result (H := U256_cost) (fun _ => 0) sample_params sample_code sample_world ReturnData_empty ∅ 2000);
    [done|apply sample_params_ok|done|apply test_world_ok|done|apply sample_rd_ok|done|done|by vm_compute].
Defined.

(** C9: every state the loop goes through keeps the machine well formed, the
    stack within the schedule's limit and the memory a whole number of words
    below 2^63 bytes whose accumulated price is exactly the quadratic formula,
    never more gas left than at the start, and the gas used so far covers every
    change the world counts. *)
Theorem reachable_invariant `{CostLaws} {X : Type} `{ExtLaws X} {C : Type} `{JumpCache C} (keccak : bytes -> H256)
    (params : ActionParams) (c : bytes) (ext : X) (rd : ReturnData) (cache : C) (s : @LoopState X C) :
  (forall b, is_u256 (keccak b)) -> params_ok params -> code params = Some c ->
  ext_ok ext -> schedule_ok (ext_schedule ext) = true -> rd_ok rd -> in_u cost_bits (gas params) ->
  address params = ext_address ext -> ext_room (gas params) ext ->
  reaches keccak params c (initial c ext rd cache (gas params)) s ->
  machine_ok (l_machine s) /\
  size (m_stack (l_machine s)) <= stack_limit (ext_schedule ext) /\
  len (m_mem (l_machine s)) mod 32 = 0 /\
  current_mem_gas (l_gasometer s) = mem_price (ext_schedule ext) (len (m_mem (l_machine s))) /\
  0 <= current_gas (l_gasometer s) <= gas params /\
  ext_step (gas params - current_gas (l_gasometer s)) ext (m_ext (l_machine s)).
Proof.
  intros Hk Hp Hc Hx Hs Hrd Hg Ha Hrm Hr. pose proof Hp as (_ & _ & _ & _ & _ & _ & Hvec & _). rewrite Hc in Hvec.
  destruct (reaches_ok keccak params Hk Hp (ext_schedule ext) c (schedule_prices _ Hs) Hvec _ _ Hr)
    as ([Hm Hsz Hpos (? & ? & [? _] & ? & ?) Hsched _ _] & Hgas & Hstep); [by apply initial_ok|]. done.
Qed.

(** The state after [n] iterations. *)
Fixpoint iterate {X C} `{CostType} `{VmExt X} `{JumpCache C} (keccak : bytes -> H256) (params : ActionParams)
    (c : bytes) (n : nat) (s : @LoopState X C) : option (@LoopState X C) :=
  match n with
  | O => Some s
  | S n' =>
      if position (m_reader (l_machine s)) <? len c then
        match step keccak params c s with
        | Ok (Continue s') => iterate keccak params c n' s'
        | _ => None
        end
      else None
  end.

Lemma reaches_trans {X C} `{CostType} `{VmExt X} `{JumpCache C} keccak params c (s1 s2 s3 : @LoopState X C) :
  reaches keccak params c s1 s2 -> reaches keccak params c s2 s3 -> reaches keccak params c s1 s3.
Proof. intros H12. induction 1 as [|sa sb _ IH Hpc Hstep]; [done|]. by eapply reaches_step. Qed.

Lemma iterate_reaches {X C} `{CostType} `{VmExt X} `{JumpCache C} keccak params c n (s s' : @LoopState X C) :
  iterate keccak params c n s = Some s' -> reaches keccak params c s s'.
Proof.
  revert s. induction n as [|n IH]; intros s; simpl; [intros [= ->]; constructor|].
  destruct (Z.ltb_spec (position (m_reader (l_machine s))) (len c)); [|done].
  destruct (step keccak params c s) as [[s1| |]| |] eqn:Hs; [|done..]. intros Hi.
  eapply reaches_trans; [by eapply reaches_step; [constructor| |]|by apply IH].
Qed.

(** The sample program after its store: 32 bytes of memory, 88 gas left. *)
Definition sample_start : @LoopState World (gmap Z BitSet) :=
  initial sample_code sample_world ReturnData_empty ∅ (gas sample_params).
Definition sample_state : @LoopState World (gmap Z BitSet) :=
  default sample_start (iterate (H := usize_cost) (fun _ => 0) sample_params sample_code 3 sample_start).

Lemma sample_reaches : reaches (H := usize_cost) (fun _ => 0) sample_params sample_code sample_start sample_state.
Proof. apply (iterate_reaches _ _ _ 3). vm_compute. reflexivity. Qed.

Lemma reachable_invariant_witness :
  len (m_mem (l_machine sample_state)) = 32 /\ current_gas (l_gasometer sample_state) = 88 /\
  (machine_ok (l_machine sample_state) /\
   size (m_stack (l_machine sample_state)) <= stack_limit (ext_schedule sample_world) /\
   len (m_mem (l_machine sample_state)) mod 32 = 0 /\
   current_mem_gas (l_gasometer sample_state) =
     mem_price (ext_schedule sample_world) (len (m_mem (l_machine sample_state))) /\
   0 <= current_gas (l_gasometer sample_state) <= gas sample_params /\
   ext_step (gas sample_params - current_gas (l_gasometer sample_state)) sample_world (m_ext (l_machine sample_state))).
Proof.
  split; [by vm_compute|]. split; [by vm_compute|].
  apply (reachable_invariant (H := usize_cost) (fun _ => 0) sample_params sample_code sample_world ReturnData_empty ∅);
    [done|apply sample_params_ok|done|apply test_world_ok|done|apply sample_rd_ok|by vm_compute|done|done|apply sample_reaches].
Defined.

(** C10: the program counter of every state the loop goes through is an
    instruction boundary of the running code: execution never starts inside the
    immediate bytes of a push, provided the shared cache holds no wrong entry
    for this code's hash. *)
Theorem pc_on_boundary `{CostType} {X : Type} `{VmExt X} {C : Type} `{JumpCacheLaws C} (keccak : bytes -> H256)
    (params : ActionParams) (c : bytes) (ext : X) (rd : ReturnData) (cache : C) (g : Z) (s : @LoopState X C) :
  len c + 64 < 2 ^ 64 ->
  (forall d, cache_holds cache (cache_key keccak params c) d -> dests_of c d) ->
  reaches keccak params c (initial c ext rd cache g) s ->
  boundary c (position (m_reader (l_machine s))).
Proof.
  intros Hlen Hcache Hr. apply (fi_pos keccak params c).
  induction Hr as [|s1 s2 _ IH _ Hstep]; [|by eapply flow_inv_step].
  constructor; try done. constructor.
Qed.

Lemma pc_on_boundary_witness :
  position (m_reader (l_machine sample_state)) = 5 /\ boundary sample_code (position (m_reader (l_machine sample_state))).
Proof.
  split; [by vm_compute|].
  apply (pc_on_boundary (H := usize_cost) (fun _ => 0) sample_params sample_code sample_world ReturnData_empty
           (∅ : gmap Z BitSet) 100); [by vm_compute|by intros d|apply sample_reaches].
Defined.

(** C11: every instruction, run once the loop's checks have passed, returns
    without a panic: the stack changes by exactly the amount the instruction
    table announces, memory keeps its size, the machine stays well formed, the
    gas handed back is at most the gas provided plus the stipend, a jump or a
    return names the operands on the stack, and the counters of the world move
    only for storage writes, creations and the gas a callee used. *)
Theorem instruction_effect `{CostLaws} {X : Type} `{ExtLaws X} (keccak : bytes -> H256) (params : ActionParams)
    (i : Instruction) (g : Z) (provided : option Z) (mem : bytes) (rd : ReturnData) (r : CodeReader)
    (t l : list U256) (x : X) :
  (forall b, is_u256 (keccak b)) -> params_ok params -> instr_pre params i g provided mem rd r t l x ->
  match exec_instruction keccak g params i provided (mkMachine mem rd r (of_top t l) x) with
  | Ok (res, s') =>
      machine_ok s' /\ size (m_stack s') = len t - args (info_of i) + ret (info_of i) /\
      len (m_mem s') = len mem /\ result_ok (ext_schedule x) g provided i t res /\
      ext_step (allowance (ext_schedule x) i t provided res) x (m_ext s')
  | Err (_, x') => ext_step (counted i) x x'
  | Panic => False
  end.
Proof.
  intros Hk Hp Hpre.
  pose proof (exec_instruction_runs keccak params Hk Hp i g provided mem rd r t l x Hpre) as Hr. unfold costs in Hr.
  destruct (exec_instruction _ _ _ _ _ _) as [[res s']|[e x']|]; [|by destruct Hr|done].
  destruct Hr as [[? Hsz ? ? ? ?] Hres]. cbn [m_stack] in Hsz. rewrite size_of_top in Hsz. split_and!; try done. lia.
Qed.

(** A value-transferring call of 1000 gas on a memory of one word. *)
Definition call_stack : list U256 := [1000; 7; 5; 0; 32; 0; 32; 99].
Lemma call_pre :
  instr_pre sample_params CALL 50000 (Some 1000) (replicate 32 0) ReturnData_empty (mkReader 1 [CALL]) call_stack
    [0; 0; 0; 0] sample_world.
Proof.
  constructor; try done.
  - apply machine_ok_intro; try done; [by repeat constructor|apply sample_rd_ok|by repeat constructor..|].
    apply test_world_ok.
  - constructor; [by right|]. constructor; [by right|constructor].
  - by apply schedule_prices.
  - split; [by repeat constructor|done].
  - intros _. exists 1000. by vm_compute.
Qed.

Lemma instruction_effect_witness :
  match exec_instruction (H := usize_cost) (fun _ => 0) 50000 sample_params CALL (Some 1000)
          (mkMachine (replicate 32 0) ReturnData_empty (mkReader 1 [CALL]) (of_top call_stack [0; 0; 0; 0]) sample_world) with
  | Ok (res, s') =>
      machine_ok s' /\ size (m_stack s') = len call_stack - args (info_of CALL) + ret (info_of CALL) /\
      len (m_mem s') = len (replicate 32 0) /\ result_ok (ext_schedule sample_world) 50000 (Some 1000) CALL call_stack res /\
      ext_step (allowance (ext_schedule sample_world) CALL call_stack (Some 1000) res) sample_world (m_ext s')
  | Err (_, x') => ext_step (counted CALL) sample_world x'
  | Panic => False
  end.
Proof.
  exact (instruction_effect (H := usize_cost) (fun _ => 0) sample_params CALL 50000 (Some 1000) (replicate 32 0)
           ReturnData_empty (mkReader 1 [CALL]) call_stack [0; 0; 0; 0] sample_world
           (fun _ => conj (Z.le_refl 0) eq_refl) sample_params_ok call_pre).
Defined.

(** ** Jump analysis *)

(** C12: the destinations the interpreter jumps to, computed or cached, are
    exactly the [JUMPDEST] bytes on instruction boundaries; the analysis
    terminates on every code, and what it stores in the cache is right. *)
Theorem jump_destinations_exact {C : Type} `{JumpCacheLaws C} (keccak : bytes -> H256) (params : ActionParams)
    (cache : C) (c : bytes) :
  len c + 64 < 2 ^ 64 ->
  (forall d, cache_holds cache (cache_key keccak params c) d -> dests_of c d) ->
  exists d cache', jump_destinations cache (cache_key keccak params c) c = Ok (d, cache') /\
    (forall p, p ∈ d <-> boundary c p /\ c !! Z.to_nat p = Some JUMPDEST) /\
    (forall d, cache_holds cache' (cache_key keccak params c) d -> dests_of c d).
Proof.
  intros Hlen Hcache.
  destruct (jump_destinations cache (cache_key keccak params c) c) as [[d cache']| |] eqn:Hj.
  - exists d, cache'. split; [done|]. by apply (jump_destinations_inv keccak params c Hlen cache).
  - exfalso. destruct (find_jump_destinations_spec c Hlen) as (d & Hd & _). revert Hj. unfold jump_destinations.
    rewrite Hd. destruct (_ =? _); [done|]. by destruct (cache_get_mut _ _) as [[]].
  - exfalso. destruct (find_jump_destinations_spec c Hlen) as (d & Hd & _). revert Hj. unfold jump_destinations.
    rewrite Hd. destruct (_ =? _); [done|]. by destruct (cache_get_mut _ _) as [[]].
Qed.

(** A [JUMPDEST] byte inside a push is no destination; the one after it is. *)
Lemma jump_destinations_exact_witness :
  exists d cache', jump_destinations (∅ : gmap Z BitSet) (cache_key (fun _ => 1) (test_params []) [0x61; 0x5b; 0x5b; 0x5b])
      [0x61; 0x5b; 0x5b; 0x5b] = Ok (d, cache') /\
    (forall p, p ∈ d <-> boundary [0x61; 0x5b; 0x5b; 0x5b] p /\ [0x61; 0x5b; 0x5b; 0x5b] !! Z.to_nat p = Some JUMPDEST) /\
    (forall d, cache_holds cache' (cache_key (fun _ => 1) (test_params []) [0x61; 0x5b; 0x5b; 0x5b]) d ->
       dests_of [0x61; 0x5b; 0x5b; 0x5b] d).
Proof.
  apply (jump_destinations_exact (fun _ => 1) (test_params []) (∅ : gmap Z BitSet) [0x61; 0x5b; 0x5b; 0x5b]);
    [by vm_compute|by intros d].
Defined.

(** ** Gas *)

(** Under EIP-150 a call or creation is provided with the requested gas or,
    if that is more, with all but one 64th of what remains after the call's own
    cost; a request above the cost type's range counts as such. *)
Theorem gas_provided_all_but_one_64th `{CostLaws} (g : Gasometer) (s : Schedule) (needed : Z) (requested : option U256) :
  sub_gas_cap_divisor s = Some 64 -> in_u cost_bits (current_gas g) -> 0 <= needed <= current_gas g ->
  (forall r, requested = Some r -> is_u256 r) ->
  let remaining := current_gas g - needed in
  let cap := remaining - remaining / 64 in
  gas_provided g s needed requested = Ok (match requested with Some r => Z.min r cap | None => cap end) /\
  cap + remaining / 64 = remaining.
Proof.
  intros Hd [Hg0 Hg1] Hn Hr remaining cap. split; [|lia]. unfold gas_provided. rewrite Hd.
  rewrite (proj2 (Z.leb_le _ _)) by lia. rewrite sub_chk_ok by lia. cbn [mbind outcome_bind].
  fold remaining. rewrite Z.eqb_refl, Z.shiftr_div_pow2 by lia. change (2 ^ 6) with 64.
  assert (0 <= remaining / 64 <= remaining).
  { split; [apply Z.div_pos; lia|apply Z.div_le_upper_bound; lia]. }
  rewrite sub_chk_ok by lia. cbn [mbind outcome_bind]. fold cap.
  destruct requested as [r|]; [|done]. cbn [fmap option_fmap option_map]. destruct (Hr r eq_refl) as [Hr0 Hr1].
  destruct (from_u256 r) as [r'|e|] eqn:Hf.
  - apply from_u256_inv in Hf as [-> _]; [done|by apply Hr].
  - assert (2 ^ cost_bits <= r).
    { destruct (Z.le_gt_cases (2 ^ cost_bits) r); [done|]. rewrite from_u256_fits in Hf by done. done. }
    f_equal. lia.
  - by destruct (from_u256_no_panic r).
Qed.

Lemma gas_provided_all_but_one_64th_witness :
  gas_provided (H := usize_cost) (mkGasometer 6500 0) new_byzantium 100 (Some (2 ^ 200)) = Ok (Z.min (2 ^ 200) 6300) /\
  6300 + 6400 / 64 = 6400.
Proof.
  apply (gas_provided_all_but_one_64th (H := usize_cost) (mkGasometer 6500 0) new_byzantium 100 (Some (2 ^ 200)));
    [done|done|done|by intros r [= <-]].
Defined.

(** The overflow checks as conditions. *)
Lemma overflow_add_cond `{CostLaws} a b :
  0 <= a -> 0 <= b ->
  overflowing (overflow_add a b) = if a + b <? 2 ^ cost_bits then Ok (a + b) else Err OutOfGas.
Proof.
  intros. rewrite overflow_add_spec. unfold overflowing, overflowing_add.
  destruct (Z.leb_spec (2 ^ cost_bits) (a + b)); [by rewrite (proj2 (Z.ltb_ge _ _))|].
  rewrite (proj2 (Z.ltb_lt _ _)) by done. by rewrite wrap_small by (split; lia).
Qed.

Lemma overflow_mul_cond `{CostLaws} a b :
  0 <= a -> 0 <= b ->
  overflowing (overflow_mul a b) = if a * b <? 2 ^ cost_bits then Ok (a * b) else Err OutOfGas.
Proof.
  intros. rewrite overflow_mul_spec. unfold overflowing, overflowing_mul.
  destruct (Z.leb_spec (2 ^ cost_bits) (a * b)); [by rewrite (proj2 (Z.ltb_ge _ _))|].
  rewrite (proj2 (Z.ltb_lt _ _)) by done. by rewrite wrap_small by (split; nia).
Qed.

Lemma overflow_mul_shr_cond `{CostLaws} a b n :
  in_u cost_bits a -> in_u cost_bits b -> 0 <= n ->
  overflowing (overflow_mul_shr a b n) = if a * b <? 2 ^ cost_bits then Ok (a * b / 2 ^ n) else Err OutOfGas.
Proof.
  intros Ha Hb Hn. pose proof (overflow_mul_shr_flag a b n Ha Hb) as Hflag.
  destruct (overflow_mul_shr a b n) as [r o] eqn:Hshr. cbn [snd] in Hflag. subst o. unfold overflowing.
  destruct (Z.leb_spec (2 ^ cost_bits) (a * b)); [by rewrite (proj2 (Z.ltb_ge _ _))|].
  apply overflow_mul_shr_spec in Hshr as [-> _]; [|done..]. by rewrite (proj2 (Z.ltb_lt _ _)).
Qed.

Lemma gas_for_mem_cond `{CostLaws} s n :
  SchedulePrices s -> in_u cost_bits n ->
  let w := n / 32 in
  gas_for_mem s n =
    if (w * memory_gas s <? 2 ^ cost_bits) && (w * w <? 2 ^ cost_bits) && (mem_price s n <? 2 ^ cost_bits)
    then Ok (mem_price s n) else Err OutOfGas.
Proof.
  intros Hs [Hn0 Hn1] w. unfold gas_for_mem, mem_price. rewrite Z.shiftr_div_pow2 by lia. change (2 ^ 5) with 32.
  fold w. pose proof (sp_memory _ Hs). assert (Hw : in_u cost_bits w).
  { unfold w. split; [apply Z.div_pos; lia|]. apply Z.div_lt_upper_bound; lia. }
  pose proof Hw as [Hw0 Hw1]. rewrite overflow_mul_cond by lia. destruct (w * memory_gas s <? _); [|done].
  cbn [mbind outcome_bind andb]. rewrite (sp_quad _ Hs), Z.eqb_refl. rewrite overflow_mul_shr_cond by (done || lia).
  destruct (w * w <? _); [|done]. cbn [mbind outcome_bind andb]. change (2 ^ 9) with 512.
  by rewrite overflow_add_cond by (try apply Z.div_pos; nia).
Qed.

(** Growing memory to [m] bytes with the [usize] cost type rounds the size
    up to whole words and charges the difference of the quadratic prices
    (nothing when memory is already that large); the charge is refused with
    [OutOfGas] exactly when the size, one of the two products or the price
    overflows, and nothing panics. *)
Theorem memory_charge (g : Gasometer) (s : Schedule) (ms m : Z) :
  schedule_ok s = true -> mem_inv (H := usize_cost) s g ms -> is_usize m ->
  let n := 32 * ((m + 31) / 32) in
  mem_gas_cost (H := usize_cost) g s ms m =
    if m + 31 <? 2 ^ 64 then
      if ms <? n then
        if (n / 32 * memory_gas s <? 2 ^ 64) && (n / 32 * (n / 32) <? 2 ^ 64) && (mem_price s n <? 2 ^ 64)
        then Ok (mem_price s n - mem_price s ms, mem_price s n, n) else Err OutOfGas
      else Ok (0, mem_price s ms, n)
    else Err OutOfGas.
Proof.
  intros Hs%schedule_prices (Hms0 & Hms32 & Hcg & Hmg & Hmp) [Hm0 Hm1] n. unfold mem_gas_cost.
  rewrite overflow_add_cond by lia. cbn [cost_bits usize_cost]. destruct (Z.ltb_spec (m + 31) (2 ^ 64)); [|done].
  cbn [mbind outcome_bind]. rewrite Z.shiftl_mul_pow2, Z.shiftr_div_pow2 by lia. change (2 ^ 5) with 32.
  rewrite (Z.mul_comm _ 32). fold n.
  assert (Hn : 0 <= n < 2 ^ 64).
  { unfold n. pose proof (Z.mul_div_le (m + 31) 32). pose proof (Z.div_pos (m + 31) 32). lia. }
  destruct (Z.ltb_spec ms n); [|simpl; by rewrite Hmg].
  rewrite (gas_for_mem_cond (H := usize_cost)) by done. cbn [cost_bits usize_cost].
  destruct (_ && _) eqn:E; [|done]. cbn [mbind outcome_bind]. rewrite Hmg. pose proof (sp_memory _ Hs).
  rewrite sub_chk_ok by (apply mem_price_mono; lia). done.
Qed.

Lemma memory_charge_witness :
  mem_gas_cost (H := usize_cost) (mkGasometer 100000 3) new_byzantium 32 1000 = Ok (95, 98, 1024).
Proof.
  refine (eq_trans (memory_charge (mkGasometer 100000 3) new_byzantium 32 1000 eq_refl _ _) _);
    [by repeat split|by split|by vm_compute].
Defined.

(** C13: the requirements of an instruction whose operands are on the stack: for
    the [usize] cost type nothing panics, the charge and the memory price are in
    range, the new memory size is a whole number of words that covers every
    region the instruction will touch, gas is provided exactly for calls and
    creations, on top of the surcharge that pays for the stipend and of one unit
    for a creation, and jumps and storage writes cost at least one unit. *)
Theorem requirements_sound {X : Type} `{ExtLaws X} (g : Gasometer) (x : X) (i : Instruction) (t l : list U256) (ms : Z) :
  schedule_ok (ext_schedule x) = true -> mem_inv (H := usize_cost) (ext_schedule x) g ms -> ext_ok x ->
  Forall (in_u 256) t -> tier (info_of i) <> Invalid -> args (info_of i) <= len t ->
  match requirements (H := usize_cost) g x i (info_of i) (of_top t l) ms with
  | Ok q =>
      is_usize (gas_cost q) /\ memory_required_size q mod 32 = 0 /\ is_usize (memory_required_size q) /\
      Forall (fun '(o, s) => s = 0 \/ o + s <= memory_required_size q) (regions i t) /\
      memory_total_gas q = mem_price (ext_schedule x) (Z.max ms (memory_required_size q)) /\
      (is_Some (provide_gas q) <-> is_call i || is_create i = true) /\
      (forall p, provide_gas q = Some p -> 0 <= p /\ counted i + p + call_surcharge (ext_schedule x) i t <= gas_cost q) /\
      counted i <= gas_cost q /\
      (i = JUMP \/ i = JUMPI -> 1 <= gas_cost q)
  | Err _ => True
  | Panic => False
  end.
Proof.
  intros Hs%schedule_prices Hinv Hx Ht Htier Hargs.
  pose proof (requirements_wp (H := usize_cost) (ext_schedule x) Hs g x i t l ms Hinv Hx eq_refl Ht Htier Hargs) as Hr.
  destruct (requirements _ _ _ _ _ _) as [q| |]; [|done|done]. by destruct Hr.
Qed.

Lemma requirements_sound_witness :
  match requirements (H := usize_cost) (mkGasometer 50000 0) sample_world CALL (info_of CALL) (of_top call_stack []) 0 with
  | Ok q =>
      is_usize (gas_cost q) /\ memory_required_size q mod 32 = 0 /\ is_usize (memory_required_size q) /\
      Forall (fun '(o, s) => s = 0 \/ o + s <= memory_required_size q) (regions CALL call_stack) /\
      memory_total_gas q = mem_price (ext_schedule sample_world) (Z.max 0 (memory_required_size q)) /\
      (is_Some (provide_gas q) <-> is_call CALL || is_create CALL = true) /\
      (forall p, provide_gas q = Some p ->
         0 <= p /\ counted CALL + p + call_surcharge (ext_schedule sample_world) CALL call_stack <= gas_cost q) /\
      counted CALL <= gas_cost q /\
      (CALL = JUMP \/ CALL = JUMPI -> 1 <= gas_cost q)
  | Err _ => True
  | Panic => False
  end.
Proof.
  refine (requirements_sound (mkGasometer 50000 0) sample_world CALL call_stack [] 0 eq_refl _ (test_world_ok _) _ _ _);
    [by repeat split|by repeat constructor|by vm_compute|by vm_compute].
Defined.

(** ** Memory and data *)

(** The copy instructions write, for every destination in memory, source
    offset and size (also far beyond the source), exactly the source bytes and
    zeros past their end, and leave the rest of memory as it was. *)
Theorem copy_data_spec (mem src : bytes) (d so n : U256) :
  len mem < 2 ^ 64 -> len src < 2 ^ 63 -> is_u256 d -> is_u256 so -> is_u256 n -> n = 0 \/ d + n <= len mem ->
  exists mem', copy_data mem d so n src = Ok mem' /\ len mem' = len mem /\
    forall j : nat, mem' !! j =
      if (d <=? Z.of_nat j) && (Z.of_nat j <? d + n) then Some (default 0 (src !! Z.to_nat (so + (Z.of_nat j - d))))
      else mem !! j.
Proof.
  intros Hm Hs Hd Hso Hn Hr. pose proof Hd as [Hd0 _]. pose proof Hso as [Hs0 _]. pose proof Hn as [Hn0 _].
  assert (Hreg : region_ok (len mem) d n) by (unfold region_ok; lia).
  rewrite copy_data_ok by done. eexists. split; [done|].
  destruct (Z.eqb_spec n 0) as [->|Hnz].
  { split; [done|]. intros j. destruct (Z.leb_spec d (Z.of_nat j)), (Z.ltb_spec (Z.of_nat j) (d + 0)); (done || lia). }
  destruct Hreg as [?|(_ & _ & Hfit)]; [done|]. pose proof (len_window src so n Hs0 Hn0) as Hw.
  split; [apply len_splice; lia|]. intros j. rewrite splice_lookup by lia.
  assert (Hwl : length (window src so n) = Z.to_nat n) by (unfold len in Hw; lia). rewrite Hwl.
  destruct (Z.leb_spec d (Z.of_nat j)), (Z.ltb_spec (Z.of_nat j) (d + n)); cbn [andb]; case_decide; try lia; try done.
  rewrite window_lookup by lia. do 3 f_equal. lia.
Qed.

Lemma copy_data_spec_witness :
  exists mem', copy_data (replicate 8 7) 2 3 4 [10; 11; 12; 13; 14] = Ok mem' /\ len mem' = len (replicate 8 7) /\
    forall j : nat, mem' !! j =
      if (2 <=? Z.of_nat j) && (Z.of_nat j <? 2 + 4) then Some (default 0 ([10; 11; 12; 13; 14] !! Z.to_nat (3 + (Z.of_nat j - 2))))
      else replicate 8 7 !! j.
Proof. apply (copy_data_spec (replicate 8 7) [10; 11; 12; 13; 14] 2 3 4); [done..|by right]. Defined.

(** [CALLDATALOAD] pushes the 32 bytes of call data at the offset, read
    big endian with zeros past the end of the data, for every 256-bit offset. *)
Theorem calldataload_spec (data : option bytes) (offset : U256) :
  len (default [] data) < 2 ^ 63 -> is_u256 offset -> is_bytes (default [] data) ->
  exists b, length b = 32%nat /\ calldataload data offset = Ok (be_to_Z b) /\
    forall j : nat, (j < 32)%nat -> b !! j = Some (default 0 (default [] data !! (Z.to_nat offset + j)%nat)).
Proof.
  intros Hl Ho Hb. pose proof Ho as [Ho0 _]. exists (window (default [] data) offset 32). split_and!.
  - pose proof (len_window (default [] data) offset 32 Ho0 ltac:(lia)). unfold len in *. lia.
  - by apply calldataload_ok.
  - intros j Hj. by apply window_lookup.
Qed.

Lemma calldataload_spec_witness :
  exists b, length b = 32%nat /\ calldataload (Some [1; 2; 3]) 1 = Ok (be_to_Z b) /\
    forall j : nat, (j < 32)%nat -> b !! j = Some (default 0 ([1; 2; 3] !! (Z.to_nat 1 + j)%nat)).
Proof. apply (calldataload_spec (Some [1; 2; 3]) 1); [done|done|by repeat constructor]. Defined.

(** A word stored with [MSTORE] is read back by [MLOAD], and the store
    touches no byte outside its 32. *)
Theorem memory_roundtrip (mem : bytes) (offset value : U256) :
  len mem < 2 ^ 64 -> is_u256 offset -> is_u256 value -> offset + 32 <= len mem ->
  exists mem', mem_write (E := Error) mem offset value = Ok mem' /\ mem_read (E := Error) mem' offset = Ok value /\
    len mem' = len mem /\
    forall j : nat, Z.of_nat j < offset \/ offset + 32 <= Z.of_nat j -> mem' !! j = mem !! j.
Proof.
  intros Hm [Ho0 Ho1] [Hv0 Hv1] Hfit. exists (splice mem offset (Z_to_be 32 value)).
  assert (Hl : len (splice mem offset (Z_to_be 32 value)) = len mem) by (apply len_splice; rewrite ?len_Z_to_be; lia).
  split_and!; [by apply mem_write_ok| |done|].
  - rewrite mem_read_ok by (rewrite ?Hl; done). f_equal. unfold splice. unfold len in Hfit.
    rewrite drop_app_length' by (rewrite length_take; lia). rewrite take_app_length' by (by rewrite length_Z_to_be).
    rewrite be_to_Z_to_be. change (256 ^ Z.of_nat 32) with (2 ^ 256). by apply Z.mod_small.
  - intros j Hj. rewrite splice_lookup by (rewrite ?len_Z_to_be; lia). rewrite length_Z_to_be.
    by rewrite decide_False by lia.
Qed.

Lemma memory_roundtrip_witness :
  exists mem', mem_write (E := Error) (replicate 64 9) 5 (2 ^ 255 + 77) = Ok mem' /\
    mem_read (E := Error) mem' 5 = Ok (2 ^ 255 + 77) /\ len mem' = len (replicate 64 9) /\
    forall j : nat, Z.of_nat j < 5 \/ 5 + 32 <= Z.of_nat j -> mem' !! j = replicate 64 9 !! j.
Proof. by apply (memory_roundtrip (replicate 64 9) 5 (2 ^ 255 + 77)). Defined.

(** The data a [RETURN] or [REVERT] hands out is the region of memory it
    names, whichever way it is packed (a slice of the whole memory, or a
    truncated copy when more than 16 KiB would be wasted). *)
Theorem return_data_region (mem : bytes) (offset size : U256) :
  len mem < 2 ^ 64 -> is_u256 offset -> is_u256 size -> size = 0 \/ offset + size <= len mem ->
  exists d b, mem_into_return_data (E := Error) mem offset size = Ok d /\ rd_deref (E := Error) d = Ok b /\
    len b = size /\ forall j : nat, Z.of_nat j < size -> b !! j = mem !! (Z.to_nat offset + j)%nat.
Proof.
  intros Hm Ho Hs Hr. pose proof Ho as [Ho0 _]. pose proof Hs as [Hs0 _].
  assert (Hreg : region_ok (len mem) offset size) by (unfold region_ok; lia).
  destruct (mem_into_return_data_ok (E := Error) mem Hm offset size Ho Hs Hreg) as (d & Hd & Hb).
  exists d, (region mem offset size). split_and!; [done|done|by apply len_region|].
  intros j Hj. unfold region. rewrite (proj2 (Z.eqb_neq size 0)) by lia.
  by rewrite lookup_take_lt, lookup_drop by lia.
Qed.

Lemma return_data_region_witness :
  exists d b, mem_into_return_data (E := Error) (replicate (Z.to_nat 20000) 1) 64 32 = Ok d /\ rd_deref (E := Error) d = Ok b /\
    len b = 32 /\ forall j : nat, Z.of_nat j < 32 -> b !! j = replicate (Z.to_nat 20000) 1 !! (Z.to_nat 64 + j)%nat.
Proof.
  refine (return_data_region (replicate (Z.to_nat 20000) 1) 64 32 _ _ _ _); [by vm_compute|done|done|right; by vm_compute].
Defined.

(** ** Stack *)

(** [VecStack], with its top at the end of the vector, implements the
    abstract stack of its elements from the top down: each operation has the
    effect its name says on every stack large enough, and keeps the others. *)
Theorem stack_refines (t l : list U256) (x : U256) (n : Z) :
  len l = MAX_NO_OF_TOPICS ->
  push (of_top t l) x = of_top (x :: t) l /\
  pop_back (E := Error) (of_top (x :: t) l) = Ok (x, of_top t l) /\
  has (of_top t l) n = (n <=? len t) /\
  (forall y, 0 <= n -> t !! Z.to_nat n = Some y -> peek (E := Error) (of_top t l) n = Ok y) /\
  (forall y, 0 <= n -> t !! Z.to_nat n = Some y ->
     swap_with_top (E := Error) (of_top (x :: t) l) (n + 1) = Ok (of_top (y :: <[Z.to_nat n := x]> t) l)) /\
  (0 <= n <= MAX_NO_OF_TOPICS -> n <= len t -> exists l',
     pop_n (E := Error) (of_top t l) n = Ok (take (Z.to_nat n) t, of_top (drop (Z.to_nat n) t) l') /\
     len l' = MAX_NO_OF_TOPICS) /\
  (0 <= n <= len t -> peek_top (E := Error) (of_top t l) n = Ok (reverse (take (Z.to_nat n) t))).
Proof.
  intros Hl. split_and!.
  - apply push_of_top.
  - apply pop_back_cons.
  - unfold has. change (stack (of_top t l)) with (reverse t). by rewrite len_reverse.
  - intros y Hn Hy. by apply peek_lookup.
  - intros y Hn Hy. rewrite (swap_with_top_spec (x :: t) l (n + 1) x y); [|lia|done|].
    + do 2 f_equal. replace (Z.to_nat (n + 1)) with (S (Z.to_nat n)) by lia. done.
    + by replace (Z.to_nat (n + 1)) with (S (Z.to_nat n)) by lia.
  - intros Hn Ht. eexists. split; [by apply pop_n_spec|]. rewrite len_splice; [done|lia|].
    rewrite len_take by lia. lia.
  - intros Hn. by apply peek_top_spec.
Qed.

Lemma stack_refines_witness :
  push (of_top [1; 2; 3] [0; 0; 0; 0]) 9 = of_top [9; 1; 2; 3] [0; 0; 0; 0] /\
  pop_back (E := Error) (of_top [9; 1; 2; 3] [0; 0; 0; 0]) = Ok (9, of_top [1; 2; 3] [0; 0; 0; 0]) /\
  has (of_top [1; 2; 3] [0; 0; 0; 0]) 2 = true /\
  (forall y, 0 <= 2 -> [1; 2; 3] !! Z.to_nat 2 = Some y -> peek (E := Error) (of_top [1; 2; 3] [0; 0; 0; 0]) 2 = Ok y) /\
  (forall y, 0 <= 2 -> [1; 2; 3] !! Z.to_nat 2 = Some y ->
     swap_with_top (E := Error) (of_top [9; 1; 2; 3] [0; 0; 0; 0]) (2 + 1) =
       Ok (of_top (y :: <[Z.to_nat 2 := 9]> [1; 2; 3]) [0; 0; 0; 0])) /\
  (0 <= 2 <= MAX_NO_OF_TOPICS -> 2 <= len [1; 2; 3] -> exists l',
     pop_n (E := Error) (of_top [1; 2; 3] [0; 0; 0; 0]) 2 =
       Ok (take (Z.to_nat 2) [1; 2; 3], of_top (drop (Z.to_nat 2) [1; 2; 3]) l') /\ len l' = MAX_NO_OF_TOPICS) /\
  (0 <= 2 <= len [1; 2; 3] -> peek_top (E := Error) (of_top [1; 2; 3] [0; 0; 0; 0]) 2 = Ok (reverse (take (Z.to_nat 2) [1; 2; 3]))).
Proof. exact (stack_refines [1; 2; 3] [0; 0; 0; 0] 9 2 eq_refl). Defined.

(** ** Checks *)

(** Is the instruction part of the schedule's instruction set? *)
Definition enabled (s : Schedule) (i : Instruction) : bool :=
  negb (((i =? DELEGATECALL) && negb (have_delegate_call s)) || ((i =? CREATE2) && negb (have_create2 s)) ||
        ((i =? STATICCALL) && negb (have_static_call s)) ||
        (((i =? RETURNDATACOPY) || (i =? RETURNDATASIZE)) && negb (have_return_data s)) ||
        ((i =? REVERT) && negb (have_revert s))) && negb (bool_decide (tier (info_of i) = Invalid)).

(** [verify_instruction] accepts exactly the instructions that are enabled,
    have their operands on the stack and leave the stack within the limit; it
    refuses the others with the error that says why, in that order, and its
    error report does not underflow. *)
Theorem verify_instruction_spec {X : Type} `{VmExt X} (x : X) (i : Instruction) (t l : list U256) :
  len t <= stack_limit (ext_schedule x) ->
  let info := info_of i in
  verify_instruction x i info (of_top t l) =
    if negb (enabled (ext_schedule x) i) then Err (BadInstruction i)
    else if len t <? args info then Err (StackUnderflow (name info) (args info) (len t))
    else if stack_limit (ext_schedule x) <? len t - args info + ret info
    then Err (OutOfStack (name info) (ret info - args info) (stack_limit (ext_schedule x)))
    else Ok tt.
Proof.
  intros Hlim info. unfold verify_instruction, enabled, has. change (stack (of_top t l)) with (reverse t).
  rewrite size_of_top, len_reverse. fold info. destruct (_ || _); [done|]. cbn [negb andb].
  destruct (bool_decide _); [done|]. cbn [negb]. rewrite Z.leb_antisym, negb_involutive.
  destruct (Z.ltb_spec (len t) (args info)); [done|].
  destruct (Z.ltb_spec (stack_limit (ext_schedule x)) (len t - args info + ret info)); [|done].
  by rewrite sub_chk_ok by lia.
Qed.

Lemma verify_instruction_spec_witness :
  verify_instruction sample_world ADD (info_of ADD) (of_top [1] []) = Err (StackUnderflow (name (info_of ADD)) 2 1).
Proof. refine (verify_instruction_spec sample_world ADD [1] [] _). by vm_compute. Defined.

(** ** Cost types *)

(** [overflow_mul_shr] of both cost types is the exact shifted product with
    a flag that is set exactly when the product, before the shift, leaves the
    type. *)
Theorem overflow_mul_shr_exact (a b n : Z) :
  0 <= n ->
  (is_u256 a -> is_u256 b ->
     snd (u256_overflow_mul_shr a b n) = (2 ^ 256 <=? a * b) /\
     (a * b < 2 ^ 256 -> fst (u256_overflow_mul_shr a b n) = a * b / 2 ^ n)) /\
  (is_usize a -> is_usize b ->
     snd (usize_overflow_mul_shr a b n) = (2 ^ 64 <=? a * b) /\
     (a * b < 2 ^ 64 -> fst (usize_overflow_mul_shr a b n) = a * b / 2 ^ n)).
Proof.
  intros Hn. split; intros Ha Hb.
  - pose proof (overflow_mul_shr_flag (H := U256_cost) a b n Ha Hb) as Hflag.
    change (overflow_mul_shr a b n) with (u256_overflow_mul_shr a b n) in Hflag. split; [exact Hflag|]. intros Hlt.
    destruct (u256_overflow_mul_shr a b n) as [r o] eqn:E. cbn [fst snd] in Hflag |- *.
    cbn [cost_bits U256_cost usize_cost] in Hflag.
    rewrite (proj2 (Z.leb_gt _ _)) in Hflag by done. subst o.
    by apply (overflow_mul_shr_spec (H := U256_cost) a b n r).
  - pose proof (overflow_mul_shr_flag (H := usize_cost) a b n Ha Hb) as Hflag.
    change (overflow_mul_shr a b n) with (usize_overflow_mul_shr a b n) in Hflag. split; [exact Hflag|]. intros Hlt.
    destruct (usize_overflow_mul_shr a b n) as [r o] eqn:E. cbn [fst snd] in Hflag |- *.
    cbn [cost_bits U256_cost usize_cost] in Hflag.
    rewrite (proj2 (Z.leb_gt _ _)) in Hflag by done. subst o.
    by apply (overflow_mul_shr_spec (H := usize_cost) a b n r).
Qed.

Lemma overflow_mul_shr_exact_witness :
  (is_u256 (2 ^ 200) -> is_u256 8 ->
     snd (u256_overflow_mul_shr (2 ^ 200) 8 9) = (2 ^ 256 <=? 2 ^ 200 * 8) /\
     (2 ^ 200 * 8 < 2 ^ 256 -> fst (u256_overflow_mul_shr (2 ^ 200) 8 9) = 2 ^ 200 * 8 / 2 ^ 9)) /\
  (is_usize (2 ^ 200) -> is_usize 8 ->
     snd (usize_overflow_mul_shr (2 ^ 200) 8 9) = (2 ^ 64 <=? 2 ^ 200 * 8) /\
     (2 ^ 200 * 8 < 2 ^ 64 -> fst (usize_overflow_mul_shr (2 ^ 200) 8 9) = 2 ^ 200 * 8 / 2 ^ 9)).
Proof. apply (overflow_mul_shr_exact (2 ^ 200) 8 9). lia. Defined.

(** C14: with the [U256] cost type a memory request between 2^64 and 2^128
    bytes panics in [as_usize], whatever the gas: the conversion comes before
    the gas check that would refuse the request with [OutOfGas]. *)
Theorem u256_memory_request_panics (g : Gasometer) (s : Schedule) (ms m : Z) :
  schedule_ok s = true -> mem_inv (H := U256_cost) s g ms -> 2 ^ 64 <= m < 2 ^ 128 -> ms < 2 ^ 64 ->
  mem_gas_cost (H := U256_cost) g s ms m = Panic.
Proof.
  intros Hs%schedule_prices (Hms0 & _ & _ & Hmg & _) Hm Hms. unfold mem_gas_cost.
  rewrite overflow_add_cond by lia. cbn [cost_bits U256_cost]. rewrite (proj2 (Z.ltb_lt _ _)) by lia.
  cbn [mbind outcome_bind]. rewrite Z.shiftl_mul_pow2, Z.shiftr_div_pow2 by lia. change (2 ^ 5) with 32.
  set (n := (m + 31) / 32 * 32).
  assert (Hn : 2 ^ 64 <= n < 2 ^ 129).
  { unfold n. pose proof (Z.mul_div_le (m + 31) 32). pose proof (Z.mod_pos_bound (m + 31) 32).
    pose proof (Z.div_mod (m + 31) 32). lia. }
  rewrite (proj2 (Z.ltb_lt ms n)) by lia. rewrite (gas_for_mem_cond (H := U256_cost)) by (done || split; cbn; lia).
  pose proof (sp_memory _ Hs). destruct (_ && _) eqn:E.
  - cbn [mbind outcome_bind]. rewrite Hmg. rewrite sub_chk_ok by (apply mem_price_mono; lia). cbn [mbind outcome_bind].
    cbn [as_usize U256_cost]. unfold u256_as_usize. by rewrite (proj2 (Z.ltb_ge _ _)) by lia.
  - exfalso. assert (0 <= n / 32 < 2 ^ 124) by (split; [apply Z.div_pos; lia|apply Z.div_lt_upper_bound; lia]).
    assert (n / 32 * memory_gas s < 2 ^ 160).
    { change (2 ^ 160) with (2 ^ 128 * 2 ^ 32). nia. }
    assert (0 <= n / 32 * (n / 32) < 2 ^ 248).
    { change (2 ^ 248) with (2 ^ 124 * 2 ^ 124). nia. }
    assert (n / 32 * (n / 32) / 512 < 2 ^ 248) by (apply Z.div_lt_upper_bound; lia).
    revert E. unfold mem_price. cbn [cost_bits U256_cost]. rewrite !(proj2 (Z.ltb_lt _ _)); [done|lia..].
Qed.

Lemma u256_memory_request_panics_witness :
  mem_gas_cost (H := U256_cost) (mkGasometer 300000 0) new_frontier 0 (2 ^ 100 + 32) = Panic.
Proof.
  apply (u256_memory_request_panics (mkGasometer 300000 0) new_frontier 0 (2 ^ 100 + 32));
    [done|by repeat split|by vm_compute|done].
Defined.

(** The panic reached from a program: [MSTORE] at offset 2^100.  With the [usize]
    cost type the same program runs out of gas. *)
Definition far_store_code : bytes := [0x60; 0x00; 0x6c; 0x10; 0; 0; 0; 0; 0; 0; 0; 0; 0; 0; 0; 0; 0x52].
Example far_store_panics :
  run_result (exec (H := U256_cost) (fun _ => 0) 100 ReturnData_empty (∅ : gmap Z BitSet)
    (test_params far_store_code) (test_ext FakeExt_new)) = Some Panic /\
  run_result (exec (H := usize_cost) (fun _ => 0) 100 ReturnData_empty (∅ : gmap Z BitSet)
    (test_params far_store_code) (test_ext FakeExt_new)) = Some (Err OutOfGas).
Proof. split; vm_compute; reflexivity. Qed.

(** ** Arithmetic *)

(** C15: the arithmetic, comparison, bitwise, byte and sign-extension
    instructions compute the reference semantics: dispatched by
    [exec_instruction] on a stack holding words, each pops exactly its operands
    and pushes the specified word, and changes nothing else. *)
Theorem alu_refines_spec {X : Type} `{CostType} `{VmExt X} (keccak : bytes -> H256) (g : Z)
    (params : ActionParams) (provided : option Z) (i : Instruction) (operands rest l : list Z) (r : Z) (s : Machine X) :
  alu_spec i operands = Some r ->
  Forall (in_u 256) operands ->
  m_stack s = of_top (operands ++ rest) l ->
  exec_instruction keccak g params i provided s = Ok (IOk, set_stack (of_top (r :: rest) l) s) /\ is_u256 r.
Proof.
  intros Hr Hops Hs. split; [|by eapply alu_spec_in_u].
  destruct operands as [|a [|b [|c [|]]]]; try done; rewrite !Forall_cons_iff in Hops; destruct_and! Hops;
    eauto using alu_unary, alu_binary, alu_ternary.
Qed.

(** -7 / 2 truncates towards zero: -3. *)
Lemma alu_refines_spec_witness :
  exec_instruction (H := usize_cost) (fun _ => 0) 100 sample_params SDIV None
    (mkMachine [] ReturnData_empty (mkReader 1 [SDIV]) (of_top [2 ^ 256 - 7; 2; 5] []) sample_world) =
    Ok (IOk, mkMachine [] ReturnData_empty (mkReader 1 [SDIV]) (of_top [2 ^ 256 - 3; 5] []) sample_world) /\
  is_u256 (2 ^ 256 - 3).
Proof.
  apply (alu_refines_spec (H := usize_cost) (fun _ => 0) 100 sample_params None SDIV [2 ^ 256 - 7; 2] [5] [] (2 ^ 256 - 3)
    (mkMachine [] ReturnData_empty (mkReader 1 [SDIV]) (of_top [2 ^ 256 - 7; 2; 5] []) sample_world));
    [by vm_compute|by repeat constructor|done].
Defined.
