(* ===== verification/RlpStream.v ===== *)
(** * RLP encoding ([util/rlp/src/stream.rs], [lib.rs], [traits.rs])

    [RlpStream] writes items into one buffer; an open list reserves one byte for
    its prefix, remembers where its payload starts and how many items are still
    expected, and is closed, its prefix patched in, when the last item arrives.
    A method returns the new stream or panics. *)
From stdpp Require Import base list numbers.
From S2P Require Import Prelude.

Record ListInfo := mkListInfo { li_position : Z; li_current : Z; li_max : option Z }.
Definition ListInfo_new (position : Z) (max : option Z) : ListInfo := mkListInfo position 0 max.

(** [unfinished_lists] is kept with the innermost list (the back of the vector)
    first. *)
Record RlpStream := mkStream {
  unfinished_lists : list ListInfo;
  buffer : bytes;
  finished_list : bool;
}.

(** Stream operations either succeed or panic. *)
Abbreviation run := (outcome Empty_set).

(** [leading_zeros] of a [w]-bit integer. *)
Definition leading_zeros (w x : Z) : Z := if x =? 0 then w else w - 1 - Z.log2 x.

(** [ElasticArray::insert_slice] *)
Definition insert_slice (l : bytes) (pos : Z) (s : bytes) : run bytes :=
  if (0 <=? pos) && (pos <=? len l)
  then Ok (take (Z.to_nat pos) l ++ s ++ drop (Z.to_nat pos) l) else Panic.

(** ** [BasicEncoder] *)
Definition insert_size (buf : bytes) (size position : Z) : run (Z * bytes) :=
  let size := wrap 32 size in
  let leading_empty_bytes := leading_zeros 32 size / 8 in
  let size_bytes := 4 - leading_empty_bytes in
  let buffer := Z_to_be 4 size in
  s ← slice buffer leading_empty_bytes 4;
  buf ← insert_slice buf position s;
  Ok (size_bytes, buf).

Definition insert_list_payload (buf : bytes) (len0 pos : Z) : run bytes :=
  if len0 <=? 55 then
    p ← sub_chk pos 1;
    index_set buf p (0xc0 + len0)
  else
    '(inserted_bytes, buf) ← insert_size buf len0 pos;
    p ← sub_chk pos 1;
    v ← add_chk 8 0xf7 inserted_bytes;
    index_set buf p v.

Definition encode_value (buf value : bytes) : run bytes :=
  let l := len value in
  match value with
  | [] => Ok (buf ++ [0x80])
  | v0 :: _ =>
      if (l =? 1) && (v0 <? 0x80) then Ok (buf ++ [v0])
      else if l <=? 55 then Ok ((buf ++ [0x80 + l]) ++ value)
      else
        let buf := buf ++ [0] in
        let position := len buf in
        '(inserted_bytes, buf) ← insert_size buf l position;
        p ← sub_chk position 1;
        v ← add_chk 8 0xb7 inserted_bytes;
        buf ← index_set buf p v;
        Ok (buf ++ value)
  end.

(** ** [RlpStream] *)
Definition stream_new : RlpStream := mkStream [] [] false.

(** [note_appended]: recursion on the open lists, each of which may be closed by
    the item that was just appended. *)
Fixpoint note_appended (lists : list ListInfo) (buf : bytes) (finished : bool) (inserted_items : Z) : run RlpStream :=
  match lists with
  | [] => Ok (mkStream [] buf finished)
  | x :: rest =>
      current ← add_chk 64 (li_current x) inserted_items;
      let x := mkListInfo (li_position x) current (li_max x) in
      should_finish ←
        (match li_max x with
         | Some max => if max <? current then Panic else Ok (current =? max)
         | None => Ok false
         end);
      if (should_finish : bool) then
        l ← sub_chk (len buf) (li_position x);
        buf ← insert_list_payload buf l (li_position x);
        s ← note_appended rest buf finished 1;
        Ok (mkStream (unfinished_lists s) (buffer s) true)
      else Ok (mkStream (x :: rest) buf false)
  end.

Definition note (s : RlpStream) (inserted_items : Z) : run RlpStream :=
  note_appended (unfinished_lists s) (buffer s) (finished_list s) inserted_items.

Definition begin_list (s : RlpStream) (n : Z) : run RlpStream :=
  if n =? 0 then
    s ← note_appended (unfinished_lists s) (buffer s ++ [0xc0]) false 1;
    Ok (mkStream (unfinished_lists s) (buffer s) true)
  else
    let buf := buffer s ++ [0] in
    Ok (mkStream (ListInfo_new (len buf) (Some n) :: unfinished_lists s) buf false).

Definition new_list (n : Z) : run RlpStream := begin_list stream_new n.

Definition begin_unbounded_list (s : RlpStream) : RlpStream :=
  let buf := buffer s ++ [0] in
  mkStream (ListInfo_new (len buf) None :: unfinished_lists s) buf false.

Definition append_empty_data (s : RlpStream) : run RlpStream :=
  note_appended (unfinished_lists s) (buffer s ++ [0x80]) (finished_list s) 1.

Definition append_raw (s : RlpStream) (b : bytes) (item_count : Z) : run RlpStream :=
  note_appended (unfinished_lists s) (buffer s ++ b) (finished_list s) item_count.

(** The bytes a list prefix needs besides the reserved one. *)
Definition extra_size_bytes (l : Z) : Z := if 55 <? l then 8 - leading_zeros 64 l / 8 else 0.

Definition estimate_size (s : RlpStream) (add : Z) : run Z :=
  total_size ← add_chk 64 (len (buffer s)) add;
  foldr (fun li acc => base_size ← acc; l ← sub_chk total_size (li_position li); add_chk 64 base_size (extra_size_bytes l))
    (Ok total_size) (unfinished_lists s).

Definition append_raw_checked (s : RlpStream) (b : bytes) (item_count max_size : Z) : run (bool * RlpStream) :=
  e ← estimate_size s (len b);
  if max_size <? e then Ok (false, s)
  else s ← append_raw s b item_count; Ok (true, s).

Definition stream_len (s : RlpStream) : run Z := estimate_size s 0.

Definition clear (s : RlpStream) : RlpStream := mkStream [] [] (finished_list s).

Definition is_finished (s : RlpStream) : bool := (len (unfinished_lists s) =? 0).

Definition as_raw (s : RlpStream) : bytes := buffer s.

Definition out (s : RlpStream) : run bytes := if is_finished s then Ok (buffer s) else Panic.
Definition drain (s : RlpStream) : run bytes := if is_finished s then Ok (buffer s) else Panic.

Definition complete_unbounded_list (s : RlpStream) : run RlpStream :=
  match unfinished_lists s with
  | [] => Panic
  | li :: rest =>
      if bool_decide (is_Some (li_max li)) then Panic
      else
        l ← sub_chk (len (buffer s)) (li_position li);
        buf ← insert_list_payload (buffer s) l (li_position li);
        note_appended rest buf (finished_list s) 1
  end.

(** ** [Encodable] *)
Class Encodable (T : Type) := { rlp_append : T -> RlpStream -> run RlpStream }.

Section encodable.
Context {T : Type} `{Encodable T}.

Definition append (s : RlpStream) (value : T) : run RlpStream :=
  s ← rlp_append value (mkStream (unfinished_lists s) (buffer s) false);
  if negb (finished_list s) then note s 1 else Ok s.

Definition append_internal (s : RlpStream) (value : T) : run RlpStream := rlp_append value s.

(** [for value in values { self.append(value) }] *)
Fixpoint append_all (s : RlpStream) (values : list T) : run RlpStream :=
  match values with
  | [] => Ok s
  | v :: vs => s ← append s v; append_all s vs
  end.

Definition append_list (s : RlpStream) (values : list T) : run RlpStream :=
  s ← begin_list s (len values); append_all s values.

Definition rlp_bytes (value : T) : run bytes := s ← rlp_append value stream_new; drain s.
Definition encode (value : T) : run bytes := s ← append stream_new value; drain s.
Definition encode_list (values : list T) : run bytes := s ← append_list stream_new values; drain s.
End encodable.

(** Pushing an encoded value on the stream: [s.encoder().encode_value(..)]. *)
Definition push_value (value : bytes) (s : RlpStream) : run RlpStream :=
  buf ← encode_value (buffer s) value;
  Ok (mkStream (unfinished_lists s) buf (finished_list s)).
