(* ===== verification/RlpEncoding.v ===== *)
(** * The reference RLP encoding

    RLP trees and their encoding as a recursive function, and the proof that
    [RlpStream], with its reserved prefix bytes, counters and patched headers,
    produces it: appending an item to any stream has the effect of appending
    its reference encoding as raw bytes. *)
From stdpp Require Import base list numbers.
From S2P Require Import Prelude RlpStream.

(** ** Trees and their encoding *)
#[local] Set Warnings "-register-all".
Inductive item : Type :=
  | Data (b : bytes)
  | List (l : list item).

(** Minimal big-endian representation. *)
Definition byte_len (n : Z) : Z := if n =? 0 then 0 else Z.log2 n / 8 + 1.
Definition be_min (n : Z) : bytes := Z_to_be (Z.to_nat (byte_len n)) n.

(** The prefix of a payload of [n] bytes. *)
Definition header (short long n : Z) : bytes :=
  if n <=? 55 then [short + n] else (long + byte_len n) :: be_min n.

Definition enc_data (b : bytes) : bytes :=
  match b with
  | [x] => if x <? 0x80 then [x] else header 0x80 0xb7 1 ++ [x]
  | _ => header 0x80 0xb7 (len b) ++ b
  end.

Fixpoint rlp_enc (it : item) : bytes :=
  match it with
  | Data b => enc_data b
  | List l => let p := concat (map rlp_enc l) in header 0xc0 0xf7 (len p) ++ p
  end.

(** Payloads are below 4 GiB: [insert_size] keeps 32 bits of a length. *)
Fixpoint item_ok (it : item) : Prop :=
  match it with
  | Data b => is_bytes b /\ len b < 2 ^ 32
  | List l => foldr (fun i P => item_ok i /\ P) True l /\ len (concat (map rlp_enc l)) < 2 ^ 32
  end.

Lemma item_ok_list l :
  item_ok (List l) <-> Forall item_ok l /\ len (concat (map rlp_enc l)) < 2 ^ 32.
Proof.
  cbn [item_ok]. assert (foldr (fun i P => item_ok i /\ P) True l <-> Forall item_ok l) as ->; [|done].
  induction l as [|i l IH]; simpl; [done|]. by rewrite IH, Forall_cons_iff.
Qed.

(** Induction over trees. *)
Lemma item_ind' (P : item -> Prop) :
  (forall b, P (Data b)) -> (forall l, Forall P l -> P (List l)) -> forall it, P it.
Proof.
  intros HD HL. fix IH 1. intros [b|l]; [apply HD|]. apply HL.
  induction l as [|i l IHl]; constructor; [apply IH|apply IHl].
Qed.

(** ** Leading zero bytes *)
Lemma Z_to_be_app (w m : nat) n :
  (m <= w)%nat -> Z_to_be w n = Z_to_be (w - m) (n / 256 ^ Z.of_nat m) ++ Z_to_be m n.
Proof.
  revert w n. induction m as [|m IH]; intros w n Hm.
  { simpl. by rewrite Z.div_1_r, Nat.sub_0_r, app_nil_r. }
  destruct w as [|w]; [lia|]. cbn [Z_to_be Nat.sub]. rewrite (IH w) by lia.
  rewrite <-app_assoc. f_equal. rewrite Z.div_div by lia. f_equal.
  by rewrite Nat2Z.inj_succ, Z.pow_succ_r by lia.
Qed.

Lemma byte_len_bound n w : 0 <= w -> 0 <= n < 2 ^ (8 * w) -> 0 <= byte_len n <= w.
Proof.
  intros Hw [Hn0 Hn1]. unfold byte_len. destruct (Z.eqb_spec n 0); [lia|].
  pose proof (Z.log2_nonneg n). assert (Z.log2 n < 8 * w) by (apply Z.log2_lt_pow2; lia).
  assert (Z.log2 n / 8 < w) by (apply Z.div_lt_upper_bound; lia). pose proof (Z.div_pos (Z.log2 n) 8). lia.
Qed.

Lemma leading_zero_bytes n w :
  0 <= w -> 0 <= n < 2 ^ (8 * w) -> leading_zeros (8 * w) n / 8 = w - byte_len n.
Proof.
  intros Hw [Hn0 Hn1]. unfold leading_zeros, byte_len. destruct (Z.eqb_spec n 0).
  { rewrite Z.mul_comm, Z.div_mul by lia. lia. }
  pose proof (Z.div_mod (Z.log2 n) 8). pose proof (Z.mod_pos_bound (Z.log2 n) 8).
  replace (8 * w - 1 - Z.log2 n) with ((w - (Z.log2 n / 8 + 1)) * 8 + (7 - Z.log2 n mod 8)) by lia.
  rewrite Z.div_add_l, (Z.div_small (7 - _)) by lia. lia.
Qed.

(** [&buffer[leading_empty_bytes..]] *)
Lemma strip_leading {E} n (w : nat) :
  0 <= n < 2 ^ (8 * Z.of_nat w) ->
  slice (E := E) (Z_to_be w n) (leading_zeros (8 * Z.of_nat w) n / 8) (Z.of_nat w) = Ok (be_min n).
Proof.
  intros Hn. rewrite leading_zero_bytes by lia. pose proof (byte_len_bound n (Z.of_nat w) ltac:(lia) Hn).
  rewrite slice_ok by (rewrite ?len_Z_to_be; lia). f_equal. unfold be_min.
  set (m := Z.to_nat (byte_len n)). rewrite (Z_to_be_app w m) by lia.
  rewrite drop_app_length' by (rewrite length_Z_to_be; lia).
  apply take_ge. rewrite length_Z_to_be. lia.
Qed.

Lemma len_be_min n : 0 <= byte_len n -> len (be_min n) = byte_len n.
Proof. intros. unfold be_min. rewrite len_Z_to_be. lia. Qed.

(** ** The encoder's primitives *)
Lemma insert_size_ok buf n pos :
  0 <= n < 2 ^ 32 -> 0 <= pos <= len buf ->
  insert_size buf n pos = Ok (byte_len n, take (Z.to_nat pos) buf ++ be_min n ++ drop (Z.to_nat pos) buf).
Proof.
  intros Hn Hpos. unfold insert_size. rewrite wrap_small by done.
  pose proof (strip_leading (E := Empty_set) n 4 Hn) as Hs.
  change (8 * Z.of_nat 4) with 32 in Hs. change (Z.of_nat 4) with 4 in Hs. rewrite Hs. cbn [mbind outcome_bind].
  unfold insert_slice. rewrite !(proj2 (Z.leb_le _ _)) by lia. cbn [andb mbind outcome_bind].
  pose proof (leading_zero_bytes n 4 ltac:(lia) Hn) as Hz. change (8 * 4) with 32 in Hz. rewrite Hz. do 2 f_equal. lia.
Qed.

(** A reserved byte is replaced by the header. *)
Lemma patch_header B v (s P : bytes) :
  index_set (E := Empty_set) (B ++ 0 :: s ++ P) (len B) v = Ok (B ++ (v :: s) ++ P).
Proof.
  rewrite index_set_ok by (rewrite len_app, len_cons; pose proof (len_nonneg B); pose proof (len_nonneg (s ++ P)); lia).
  f_equal. unfold len. rewrite Nat2Z.id. by rewrite insert_app_r_alt, Nat.sub_diag by lia.
Qed.

Lemma insert_size_reserved B P n :
  0 <= n < 2 ^ 32 -> insert_size (B ++ 0 :: P) n (len B + 1) = Ok (byte_len n, B ++ 0 :: be_min n ++ P).
Proof.
  intros Hn. rewrite insert_size_ok; [|done|rewrite len_app, len_cons; pose proof (len_nonneg B); pose proof (len_nonneg P); lia].
  replace (Z.to_nat (len B + 1)) with (length (B ++ [0])) by (rewrite length_app; unfold len; simpl; lia).
  replace (B ++ 0 :: P) with ((B ++ [0]) ++ P) by (by rewrite <-app_assoc).
  rewrite take_app_length, drop_app_length. by rewrite <-app_assoc.
Qed.

Lemma byte_len_u32 n : 0 <= n < 2 ^ 32 -> 0 <= byte_len n <= 4.
Proof. apply (byte_len_bound n 4). lia. Qed.

Lemma insert_list_payload_ok B P :
  len P < 2 ^ 32 ->
  insert_list_payload (B ++ 0 :: P) (len P) (len B + 1) = Ok (B ++ header 0xc0 0xf7 (len P) ++ P).
Proof.
  intros HP. pose proof (len_nonneg P). pose proof (byte_len_u32 (len P)). unfold insert_list_payload, header.
  destruct (Z.leb_spec (len P) 55).
  - rewrite sub_chk_ok by (pose proof (len_nonneg B); lia). cbn [mbind outcome_bind]. rewrite Z.add_simpl_r.
    apply (patch_header B (0xc0 + len P) [] P).
  - rewrite insert_size_reserved by lia. cbn [mbind outcome_bind].
    rewrite sub_chk_ok by (pose proof (len_nonneg B); lia). cbn [mbind outcome_bind].
    rewrite add_chk_ok by lia. cbn [mbind outcome_bind]. rewrite Z.add_simpl_r. apply patch_header.
Qed.

Lemma enc_data_long b : 1 < len b -> enc_data b = header 0x80 0xb7 (len b) ++ b.
Proof. unfold enc_data. destruct b as [|x [|y b]]; [done|rewrite len_cons, len_nil; lia|done]. Qed.

Lemma encode_value_ok buf v : len v < 2 ^ 32 -> encode_value buf v = Ok (buf ++ enc_data v).
Proof.
  intros Hv. unfold encode_value. pose proof (len_nonneg v). pose proof (byte_len_u32 (len v)).
  destruct v as [|x v]; [done|]. destruct (Z.eqb_spec (len (x :: v)) 1) as [H1|H1]; cbn [andb].
  - destruct v; [|rewrite !len_cons in H1; pose proof (len_nonneg v); lia].
    cbn [enc_data]. destruct (x <? 0x80); [done|]. change (len [x] <=? 55) with true.
    by rewrite <-app_assoc.
  - assert (1 < len (x :: v)) by (rewrite len_cons in *; pose proof (len_nonneg v); lia).
    rewrite enc_data_long by done. unfold header. destruct (Z.leb_spec (len (x :: v)) 55); [by rewrite <-app_assoc|].
    rewrite len_app. change (len [0]) with 1. rewrite insert_size_reserved by lia. cbn [mbind outcome_bind].
    rewrite sub_chk_ok by (pose proof (len_nonneg buf); lia). cbn [mbind outcome_bind].
    rewrite add_chk_ok by lia. cbn [mbind outcome_bind]. rewrite Z.add_simpl_r.
    rewrite patch_header. cbn [mbind outcome_bind]. by rewrite app_nil_r, <-!app_assoc.
Qed.

(** ** Trees on the stream

    A tree is written the way the [Encodable] instances of composite types are:
    data with [encode_value], a list with [begin_list] and one [append] per
    element. *)
Fixpoint item_append (it : item) (s : RlpStream) : run RlpStream :=
  match it with
  | Data b => push_value b s
  | List l =>
      s ← begin_list s (len l);
      (fix go (s : RlpStream) (l : list item) : run RlpStream :=
         match l with
         | [] => Ok s
         | i :: l =>
             s ← (s ← item_append i (mkStream (unfinished_lists s) (buffer s) false);
                  if negb (finished_list s) then note s 1 else Ok s);
             go s l
         end) s l
  end.

#[global] Instance item_Encodable : Encodable item := {| rlp_append := item_append |}.

Lemma item_append_list l s : rlp_append (List l) s = append_list s l.
Proof.
  cbn [rlp_append item_Encodable item_append]. unfold append_list. destruct (begin_list s (len l)) as [s1| |]; [|done..].
  cbn [mbind outcome_bind]. revert s1. induction l as [|i l IH]; intros s1; [done|].
  cbn [append_all]. unfold append. cbn [rlp_append item_Encodable].
  destruct (item_append i _) as [s2| |]; [|done..]. cbn [mbind outcome_bind].
  destruct (negb _); [|apply IH]. destruct (note s2 1) as [s3| |]; [|done..]. apply IH.
Qed.

(** A result whose last list was closed. *)
Definition closed (o : run RlpStream) : run RlpStream :=
  s ← o; Ok (mkStream (unfinished_lists s) (buffer s) true).

(** The effect of appending an item: raw bytes, and one more item. *)
Definition appended (it : item) (s : RlpStream) : run RlpStream :=
  let r := note_appended (unfinished_lists s) (buffer s ++ rlp_enc it) false 1 in
  match it with Data _ => r | List _ => closed r end.

Lemma append_data b s : len b < 2 ^ 32 -> append s (Data b) = appended (Data b) s.
Proof.
  intros Hb. unfold append. cbn [rlp_append item_Encodable item_append]. unfold push_value. cbn [buffer].
  rewrite encode_value_ok by done. done.
Qed.

(** One item into a bounded list that stays open. *)
Lemma note_open pos k n L buf f :
  0 <= k -> k + 1 < n -> n < 2 ^ 64 ->
  note_appended (mkListInfo pos k (Some n) :: L) buf f 1 = Ok (mkStream (mkListInfo pos (k + 1) (Some n) :: L) buf false).
Proof.
  intros. cbn [note_appended li_current li_max li_position]. rewrite add_chk_ok by lia. cbn [mbind outcome_bind].
  rewrite (proj2 (Z.ltb_ge n (k + 1))), (proj2 (Z.eqb_neq (k + 1) n)) by lia. done.
Qed.

(** The last item closes the list: the prefix is patched and the list counts as
    one item of its parent. *)
Lemma note_close n L B P f :
  0 < n < 2 ^ 64 -> len P < 2 ^ 32 ->
  note_appended (mkListInfo (len B + 1) (n - 1) (Some n) :: L) (B ++ 0 :: P) f 1 =
    closed (note_appended L (B ++ header 0xc0 0xf7 (len P) ++ P) f 1).
Proof.
  intros Hn HP. cbn [note_appended li_current li_max li_position]. rewrite add_chk_ok by lia. cbn [mbind outcome_bind].
  replace (n - 1 + 1) with n by lia. rewrite Z.ltb_irrefl, Z.eqb_refl. cbn [mbind outcome_bind].
  rewrite len_app, len_cons. rewrite sub_chk_ok by (pose proof (len_nonneg P); lia). cbn [mbind outcome_bind].
  replace (len B + (1 + len P) - (len B + 1)) with (len P) by lia.
  rewrite insert_list_payload_ok by done. done.
Qed.

Lemma closed_closed o : closed (closed o) = closed o.
Proof. by destruct o. Qed.

Lemma append_all_ok l L B :
  Forall (fun it => forall s, append s it = appended it s) l ->
  forall k n P f, l <> [] -> 0 <= k -> k + len l = n -> n < 2 ^ 64 ->
    len (P ++ concat (map rlp_enc l)) < 2 ^ 32 ->
    append_all (mkStream (mkListInfo (len B + 1) k (Some n) :: L) (B ++ 0 :: P) f) l =
      closed (note_appended L (B ++ header 0xc0 0xf7 (len (P ++ concat (map rlp_enc l))) ++ P ++ concat (map rlp_enc l))
                false 1).
Proof.
  induction 1 as [|it l Hit Hl IH]; intros k n P f Hne Hk Hn Hn64 Hlen; [done|].
  cbn [append_all]. rewrite Hit. unfold appended. cbn [unfinished_lists buffer].
  rewrite <-app_assoc. cbn [app]. rewrite len_cons in Hn. cbn [map concat] in *.
  destruct l as [|it2 l].
  - assert (k = n - 1) as -> by (rewrite len_nil in Hn; lia). cbn [map concat] in *. rewrite app_nil_r in *.
    rewrite note_close by (rewrite ?len_nil in Hn; lia). destruct it; rewrite ?closed_closed;
      by destruct (note_appended L _ false 1).
  - pose proof (len_nonneg l). rewrite len_cons in Hn. rewrite note_open by lia.
    destruct it; cbn [closed mbind outcome_bind unfinished_lists buffer];
      (rewrite IH; [|done|lia|rewrite len_cons; lia|done|by rewrite <-app_assoc]);
      by rewrite <-!app_assoc.
Qed.

Lemma rlp_enc_nonempty it : 0 < len (rlp_enc it).
Proof.
  assert (Hh : forall s l n, 0 < len (header s l n)).
  { intros. unfold header. case_match; rewrite len_cons; [done|]. pose proof (len_nonneg (be_min n)). lia. }
  destruct it as [b|l]; simpl.
  - unfold enc_data. repeat case_match; rewrite ?len_app, ?len_cons; try done;
      repeat match goal with |- context [len ?x] => lazymatch goal with H : 0 <= len x |- _ => fail | _ => pose proof (len_nonneg x) end end;
      pose proof (Hh 0x80 0xb7); eauto with lia.
  - rewrite len_app. pose proof (Hh 0xc0 0xf7 (len (concat (map rlp_enc l)))). pose proof (len_nonneg (concat (map rlp_enc l))). lia.
Qed.

Lemma len_concat_ge l : len l <= len (concat (map rlp_enc l)).
Proof.
  induction l as [|it l IH]; [done|]. cbn [map concat]. rewrite len_cons, len_app. pose proof (rlp_enc_nonempty it). lia.
Qed.

Lemma append_list_ok l s :
  Forall (fun it => forall s, append s it = appended it s) l -> len (concat (map rlp_enc l)) < 2 ^ 32 ->
  append_list s l = closed (note_appended (unfinished_lists s) (buffer s ++ rlp_enc (List l)) false 1).
Proof.
  intros Hall Hlen. unfold append_list, begin_list. pose proof (len_concat_ge l). pose proof (len_nonneg l).
  destruct (Z.eqb_spec (len l) 0) as [Hz|Hz].
  - destruct l; [|rewrite len_cons in Hz; pose proof (len_nonneg l); lia].
    by destruct (note_appended (unfinished_lists s) (buffer s ++ [0xc0]) false 1) as [s1| |] eqn:Hs;
      cbn [mbind outcome_bind append_all]; change (rlp_enc (List [])) with [0xc0]; rewrite Hs.
  - cbn [mbind outcome_bind]. unfold ListInfo_new. rewrite len_app. change (len [0]) with 1.
    rewrite (append_all_ok l (unfinished_lists s) (buffer s) Hall 0 (len l) [] false); try done; try lia.
    by intros ->.
Qed.

Lemma append_item it : item_ok it -> forall s, append s it = appended it s.
Proof.
  induction it as [b|l IH] using item_ind'.
  - intros [_ Hb] s. by apply append_data.
  - intros [Hok Hlen]%item_ok_list s. unfold append. rewrite item_append_list.
    rewrite append_list_ok; [|by apply Forall_forall; intros it Hit; rewrite Forall_forall in IH, Hok; auto|done].
    unfold appended. cbn [unfinished_lists buffer]. by destruct (note_appended _ _ _ _).
Qed.

(** An unbounded list, completed, leaves the same bytes as a bounded one. *)
Lemma unbounded_note pos k L buf f :
  0 <= k -> k + 1 < 2 ^ 64 ->
  note_appended (mkListInfo pos k None :: L) buf f 1 = Ok (mkStream (mkListInfo pos (k + 1) None :: L) buf false).
Proof. intros. cbn [note_appended li_current li_max li_position]. by rewrite add_chk_ok. Qed.

Lemma unbounded_append_all l L B :
  Forall item_ok l -> forall k P f, 0 <= k -> k + len l < 2 ^ 64 -> exists f',
    append_all (mkStream (mkListInfo (len B + 1) k None :: L) (B ++ 0 :: P) f) l =
      Ok (mkStream (mkListInfo (len B + 1) (k + len l) None :: L) (B ++ 0 :: P ++ concat (map rlp_enc l)) f').
Proof.
  induction 1 as [|it l Hit Hl IH]; intros k P f Hk Hn.
  { exists f. cbn [append_all map concat]. rewrite app_nil_r. change (len (@nil item)) with 0. by rewrite Z.add_0_r. }
  rewrite len_cons in Hn. pose proof (len_nonneg l).
  cbn [append_all]. rewrite append_item by done. unfold appended. cbn [unfinished_lists buffer].
  rewrite unbounded_note by lia. rewrite <-app_assoc. cbn [app].
  destruct (IH (k + 1) (P ++ rlp_enc it) (match it with Data _ => false | List _ => true end)) as [f' Hf]; [lia|lia|].
  exists f'. destruct it; cbn [closed mbind outcome_bind unfinished_lists buffer]; rewrite Hf;
    by rewrite len_cons, Z.add_assoc, <-app_assoc.
Qed.

Lemma complete_unbounded_ok L B P k f :
  len P < 2 ^ 32 ->
  complete_unbounded_list (mkStream (mkListInfo (len B + 1) k None :: L) (B ++ 0 :: P) f) =
    note_appended L (B ++ header 0xc0 0xf7 (len P) ++ P) f 1.
Proof.
  intros HP. unfold complete_unbounded_list. cbn [unfinished_lists buffer li_max li_position finished_list].
  rewrite bool_decide_eq_false_2 by (by intros []). rewrite len_app, len_cons.
  rewrite sub_chk_ok by (pose proof (len_nonneg P); lia). cbn [mbind outcome_bind].
  replace (len B + (1 + len P) - (len B + 1)) with (len P) by lia. by rewrite insert_list_payload_ok.
Qed.
