(* ===== verification/RlpDecode.v ===== *)
(** * RLP decoding ([util/rlp/src/untrusted_rlp.rs], [rlpin.rs], [error.rs])

    [UntrustedRlp] is a view on a byte slice with two interior caches, the
    offset of the last element it was asked for and the number of elements.  A
    method that updates a cache returns the view with the cache it leaves,
    next to its result. *)
From stdpp Require Import base list numbers strings.
From S2P Require Import Prelude.

Inductive DecoderError : Type :=
  | RlpIsTooBig
  | RlpIsTooShort
  | RlpExpectedToBeList
  | RlpExpectedToBeData
  | RlpIncorrectListLen
  | RlpDataLenWithZeroPrefix
  | RlpListLenWithZeroPrefix
  | RlpInvalidIndirection
  | RlpInconsistentLengthAndData
  | RlpInvalidLength
  | Custom (msg : string).

Abbreviation res := (outcome DecoderError).

(** The loop of [decode_usize] and of the integer decoders:
    [for i in 0..l { res = res + ((bytes[i] as T) << ((l - 1 - i) * 8)) }]. *)
Fixpoint be_loop (w : Z) (b : bytes) (l i : Z) (n : nat) (acc : Z) : res Z :=
  match n with
  | O => Ok acc
  | S n' =>
      x ← index b i;
      acc ← add_chk w acc (wrap w (Z.shiftl x ((l - 1 - i) * 8)));
      be_loop w b l (i + 1) n' acc
  end.

Definition decode_usize (b : bytes) : res Z :=
  let l := len b in
  if l <=? 8 then
    b0 ← index b 0;
    if b0 =? 0 then Err RlpInvalidIndirection
    else be_loop 64 b l 0 (length b) 0
  else Err RlpIsTooBig.

(** ** Payload information *)
Record PayloadInfo := mkPayload { header_len : Z; value_len : Z }.

Definition calculate_payload_info (header_bytes : bytes) (len_of_len : Z) : res PayloadInfo :=
  let header_len := 1 + len_of_len in
  match header_bytes !! 1%nat with
  | Some 0 => Err RlpDataLenWithZeroPrefix
  | None => Err RlpIsTooShort
  | _ =>
      if len header_bytes <? header_len then Err RlpIsTooShort
      else
        s ← slice header_bytes 1 header_len;
        value_len ← decode_usize s;
        Ok (mkPayload header_len value_len)
  end.

Definition PayloadInfo_total (p : PayloadInfo) : res Z := add_chk 64 (header_len p) (value_len p).

Definition PayloadInfo_from (header_bytes : bytes) : res PayloadInfo :=
  match header_bytes with
  | [] => Err RlpIsTooShort
  | l :: _ =>
      if l <=? 0x7f then Ok (mkPayload 0 1)
      else if l <=? 0xb7 then Ok (mkPayload 1 (l - 0x80))
      else if l <=? 0xbf then calculate_payload_info header_bytes (l - 0xb7)
      else if l <=? 0xf7 then Ok (mkPayload 1 (l - 0xc0))
      else calculate_payload_info header_bytes (l - 0xf7)
  end.

(** [BasicDecoder::payload_info] *)
Definition payload_info (b : bytes) : res PayloadInfo :=
  item ← PayloadInfo_from b;
  let x := header_len item + value_len item in
  if (x <? 2 ^ 64) && (x <=? len b) then Ok item else Err RlpIsTooShort.

(** ** Views *)
Record OffsetCache := mkOffset { oc_index : Z; oc_offset : Z }.

Record UntrustedRlp := mkRlp {
  rlp_raw : bytes;
  offset_cache : OffsetCache;
  count_cache : option Z;
}.

Definition usize_max : Z := 2 ^ 64 - 1.
Definition UntrustedRlp_new (b : bytes) : UntrustedRlp := mkRlp b (mkOffset usize_max 0) None.

Inductive Prototype : Type := Null | PData (size : Z) | PList (count : Z).

Definition is_null (self : UntrustedRlp) : bool := len (rlp_raw self) =? 0.
Definition is_empty (self : UntrustedRlp) : bool :=
  match rlp_raw self with [] => false | b0 :: _ => (b0 =? 0xc0) || (b0 =? 0x80) end.
Definition is_list (self : UntrustedRlp) : bool :=
  match rlp_raw self with [] => false | b0 :: _ => 0xc0 <=? b0 end.
Definition is_data (self : UntrustedRlp) : bool :=
  match rlp_raw self with [] => false | b0 :: _ => b0 <? 0xc0 end.
Definition is_int (self : UntrustedRlp) : res bool :=
  match rlp_raw self with
  | [] => Ok false
  | b :: _ =>
      if b <=? 0x80 then Ok true
      else if b <=? 0xb7 then x ← index (rlp_raw self) 1; Ok (negb (x =? 0))
      else if b <=? 0xbf then x ← index (rlp_raw self) (1 + b - 0xb7); Ok (negb (x =? 0))
      else Ok false
  end.

Definition data (self : UntrustedRlp) : res bytes :=
  pi ← payload_info (rlp_raw self);
  e ← add_chk 64 (header_len pi) (value_len pi);
  slice (rlp_raw self) (header_len pi) e.

Definition rlp_size (self : UntrustedRlp) : res Z :=
  if is_data self then
    match payload_info (rlp_raw self) with Ok b => Ok (value_len b) | Err _ => Ok 0 | Panic => Panic end
  else Ok 0.

Definition consume (b : bytes) (n : Z) : res bytes :=
  if n <=? len b then slice b n (len b) else Err RlpIsTooShort.

Definition consume_list_payload (self : UntrustedRlp) : res bytes :=
  item ← payload_info (rlp_raw self);
  consume (rlp_raw self) (header_len item).

(** [for _ in 0..items]; the error of an exhausted slice ends the loop early. *)
Fixpoint consume_items_loop (items : nat) (b : bytes) : res bytes :=
  match items with
  | O => Ok b
  | S items' =>
      i ← payload_info b;
      n ← add_chk 64 (header_len i) (value_len i);
      b ← consume b n;
      consume_items_loop items' b
  end.
Definition consume_items (b : bytes) (items : Z) : res bytes := consume_items_loop (Z.to_nat items) b.

(** [at]: the search starts at the cached element when it is not past the one
    asked for.  The cache is updated before the found element is checked. *)
Definition at_start (self : UntrustedRlp) (index : Z) : res (bytes * Z) :=
  let c := offset_cache self in
  if oc_index c <=? index then
    b ← consume (rlp_raw self) (oc_offset c);
    Ok (b, index - oc_index c)
  else
    b ← consume_list_payload self;
    Ok (b, index).

Definition at_index (self : UntrustedRlp) (index : Z) : res UntrustedRlp * UntrustedRlp :=
  if negb (is_list self) then (Err RlpExpectedToBeList, self)
  else
    match ('(b, to_skip) ← at_start self index; consume_items b to_skip) with
    | Ok b =>
        (found ← payload_info b;
         e ← add_chk 64 (header_len found) (value_len found);
         s ← slice b 0 e;
         Ok (UntrustedRlp_new s),
         mkRlp (rlp_raw self) (mkOffset index (len (rlp_raw self) - len b)) (count_cache self))
    | Err e => (Err e, self)
    | Panic => (Panic, self)
    end.

(** The elements [iter] yields from [index] on: [next] is [at(index).ok()]. *)
Fixpoint iter_from (fuel : nat) (self : UntrustedRlp) (index : Z) : res (list UntrustedRlp) * UntrustedRlp :=
  match fuel with
  | O => (Panic, self)
  | S fuel' =>
      match at_index self index with
      | (Ok r, self) =>
          let '(rest, self) := iter_from fuel' self (index + 1) in
          (l ← rest; Ok (r :: l), self)
      | (Err _, self) => (Ok [], self)
      | (Panic, self) => (Panic, self)
      end
  end.

(** Each element takes at least one byte of the view. *)
Definition iter (self : UntrustedRlp) : res (list UntrustedRlp) * UntrustedRlp :=
  iter_from (S (length (rlp_raw self))) self 0.

Definition item_count (self : UntrustedRlp) : res Z * UntrustedRlp :=
  if is_list self then
    match count_cache self with
    | Some c => (Ok c, self)
    | None =>
        let '(l, self) := iter self in
        match l with
        | Ok l => (Ok (len l), mkRlp (rlp_raw self) (offset_cache self) (Some (len l)))
        | Err e => (Err e, self)
        | Panic => (Panic, self)
        end
    end
  else (Err RlpExpectedToBeList, self).

Definition prototype (self : UntrustedRlp) : res Prototype * UntrustedRlp :=
  if is_data self then (s ← rlp_size self; Ok (PData s), self)
  else if is_list self then
    let '(c, self) := item_count self in (c ← c; Ok (PList c), self)
  else (Ok Null, self).

(** ** [BasicDecoder::decode_value] *)
Definition decode_value {T} (self : UntrustedRlp) (f : bytes -> res T) : res T :=
  let b := rlp_raw self in
  match b with
  | [] => Err RlpIsTooShort
  | l :: _ =>
      if l <=? 0x7f then f [l]
      else if l <=? 0xb7 then
        let last_index_of := 1 + l - 0x80 in
        if len b <? last_index_of then Err RlpInconsistentLengthAndData
        else
          d ← slice b 1 last_index_of;
          bad ← (if l =? 0x81 then d0 ← index d 0; Ok (d0 <? 0x80) else Ok false);
          if (bad : bool) then Err RlpInvalidIndirection else f d
      else if l <=? 0xbf then
        let len_of_len := l - 0xb7 in
        let begin_of_value := 1 + len_of_len in
        if len b <? begin_of_value then Err RlpInconsistentLengthAndData
        else
          s ← slice b 1 begin_of_value;
          n ← decode_usize s;
          if 2 ^ 64 <=? begin_of_value + n then Err RlpInvalidLength
          else
            let last_index_of_value := begin_of_value + n in
            if len b <? last_index_of_value then Err RlpInconsistentLengthAndData
            else v ← slice b begin_of_value last_index_of_value; f v
      else Err RlpExpectedToBeData
  end.

(** ** [Decodable] *)
Class Decodable (T : Type) := { decode : UntrustedRlp -> res T * UntrustedRlp }.

Section decodable.
Context {T : Type} `{Decodable T}.

Definition as_val (self : UntrustedRlp) : res T * UntrustedRlp := decode self.

(** [self.iter().map(|rlp| rlp.as_val()).collect()]: the first element that does
    not decode ends the iteration with its error. *)
Fixpoint as_list_from (fuel : nat) (self : UntrustedRlp) (index : Z) : res (list T) * UntrustedRlp :=
  match fuel with
  | O => (Panic, self)
  | S fuel' =>
      match at_index self index with
      | (Ok r, self) =>
          match fst (decode r) with
          | Ok v =>
              let '(rest, self) := as_list_from fuel' self (index + 1) in
              (l ← rest; Ok (v :: l), self)
          | Err e => (Err e, self)
          | Panic => (Panic, self)
          end
      | (Err _, self) => (Ok [], self)
      | (Panic, self) => (Panic, self)
      end
  end.
Definition as_list (self : UntrustedRlp) : res (list T) * UntrustedRlp :=
  as_list_from (S (length (rlp_raw self))) self 0.

Definition val_at (self : UntrustedRlp) (index : Z) : res T * UntrustedRlp :=
  match at_index self index with
  | (Ok r, self) => (fst (decode r), self)
  | (Err e, self) => (Err e, self)
  | (Panic, self) => (Panic, self)
  end.

Definition list_at (self : UntrustedRlp) (index : Z) : res (list T) * UntrustedRlp :=
  match at_index self index with
  | (Ok r, self) => (fst (as_list r), self)
  | (Err e, self) => (Err e, self)
  | (Panic, self) => (Panic, self)
  end.
End decodable.
