(* ===== verification/RlpDecoding.v ===== *)
(** * Decoding the reference encoding

    What the decoder's primitives compute: on any bytes they return without a
    panic and stay inside the slice; on the reference encoding they find the
    header, the payload and the elements. *)
From stdpp Require Import base list numbers.
From S2P Require Import Prelude RlpStream RlpEncoding RlpDecode.

(** ** Big-endian numbers *)
Lemma pow256 n : 0 <= n -> 256 ^ n = 2 ^ (8 * n).
Proof. intros. change 256 with (2 ^ 8). by rewrite <-Z.pow_mul_r by lia. Qed.

Lemma byte_len_spec n : 0 < n -> 0 < byte_len n /\ 256 ^ (byte_len n - 1) <= n < 256 ^ byte_len n.
Proof.
  intros Hn. unfold byte_len. rewrite (proj2 (Z.eqb_neq n 0)) by lia. pose proof (Z.log2_nonneg n).
  pose proof (Z.div_pos (Z.log2 n) 8). pose proof (Z.log2_spec n Hn) as [Hlo Hhi].
  pose proof (Z.div_mod (Z.log2 n) 8). pose proof (Z.mod_pos_bound (Z.log2 n) 8).
  rewrite Z.add_simpl_r, !pow256 by lia. split; [lia|]. split.
  - etrans; [|exact Hlo]. apply Z.pow_le_mono_r; lia.
  - eapply Z.lt_le_trans; [exact Hhi|]. apply Z.pow_le_mono_r; lia.
Qed.

Lemma be_min_to_Z n : 0 <= n -> be_to_Z (be_min n) = n.
Proof.
  intros Hn. unfold be_min. rewrite be_to_Z_to_be. destruct (Z.eq_dec n 0) as [->|]; [done|].
  destruct (byte_len_spec n) as [Hb ?]; [lia|]. rewrite Z2Nat.id by lia. apply Z.mod_small. lia.
Qed.

Lemma be_min_head n : 0 < n -> exists x t, be_min n = x :: t /\ 0 < x < 256.
Proof.
  intros Hn. destruct (byte_len_spec n Hn) as [Hb [Hlo Hhi]]. unfold be_min.
  rewrite (Z_to_be_app _ (Z.to_nat (byte_len n - 1))) by lia.
  replace (Z.to_nat (byte_len n) - Z.to_nat (byte_len n - 1))%nat with 1%nat by lia.
  rewrite Z2Nat.id by lia. eexists _, _. split; [reflexivity|].
  assert (0 < 256 ^ (byte_len n - 1)) by (apply Z.pow_pos_nonneg; lia).
  replace (byte_len n) with (byte_len n - 1 + 1) in Hhi by lia. rewrite Z.pow_add_r in Hhi by lia.
  assert (1 <= n / 256 ^ (byte_len n - 1)) by (apply Z.div_le_lower_bound; lia).
  assert (n / 256 ^ (byte_len n - 1) < 256) by (apply Z.div_lt_upper_bound; lia).
  unfold wrap. rewrite Z.mod_small; lia.
Qed.

(** The accumulation loop computes the number, without overflow when the bytes
    fit the width. *)
Lemma be_loop_ok w pre suf acc :
  is_bytes suf -> 0 <= acc -> 8 * len suf <= w -> acc + be_to_Z suf < 2 ^ w ->
  be_loop w (pre ++ suf) (len (pre ++ suf)) (len pre) (length suf) acc = Ok (acc + be_to_Z suf).
Proof.
  intros Hb. revert pre acc. induction Hb as [|x suf Hx Hb IH]; intros pre acc Hacc Hw Hlt.
  { by rewrite Z.add_0_r. }
  cbn [length be_loop]. pose proof (len_nonneg suf). rewrite len_cons in Hw.
  rewrite (index_ok _ _ x).
  2: apply len_nonneg. 2: { unfold len. by rewrite Nat2Z.id, lookup_app_r, Nat.sub_diag by lia. }
  cbn [mbind outcome_bind]. rewrite len_app, len_cons.
  replace (len pre + (1 + len suf) - 1 - len pre) with (len suf) by lia.
  rewrite be_to_Z_cons in Hlt. pose proof (be_to_Z_bound suf Hb) as Hs.
  assert (0 <= x < 256) by exact Hx. rewrite pow256 in * by lia.
  rewrite Z.shiftl_mul_pow2, (Z.mul_comm (len suf) 8) by lia.
  assert (0 <= x * 2 ^ (8 * len suf)) by (apply Z.mul_nonneg_nonneg; lia).
  rewrite wrap_small by (split; lia). rewrite add_chk_ok by lia. cbn [mbind outcome_bind].
  specialize (IH (pre ++ [x]) (acc + x * 2 ^ (8 * len suf))).
  rewrite <-app_assoc in IH. cbn [app] in IH. rewrite !len_app, len_cons in IH. change (len [x]) with 1 in IH.
  rewrite IH by lia. by rewrite be_to_Z_cons, pow256, Z.add_assoc by lia.
Qed.

Lemma be_loop_all w b :
  is_bytes b -> 8 * len b <= w -> be_loop w b (len b) 0 (length b) 0 = Ok (be_to_Z b).
Proof.
  intros Hb Hw. pose proof (be_to_Z_bound b Hb) as Hlt. rewrite pow256 in Hlt by apply len_nonneg.
  assert (2 ^ (8 * len b) <= 2 ^ w) by (apply Z.pow_le_mono_r; lia).
  apply (be_loop_ok w [] b 0); try done; lia.
Qed.

Lemma decode_usize_wp b : is_bytes b -> 0 < len b -> wp (decode_usize b) (fun n => 0 <= n < 2 ^ 64) any.
Proof.
  intros Hb Hl. unfold decode_usize. destruct (Z.leb_spec (len b) 8) as [Hle|]; [|done].
  destruct (index_exists (E := DecoderError) b 0) as (x & _ & ->); [lia|]. cbn [mbind outcome_bind].
  destruct (x =? 0); [done|]. rewrite be_loop_all by (done || lia).
  pose proof (be_to_Z_bound b Hb) as Hlt. rewrite pow256 in Hlt by lia.
  assert (2 ^ (8 * len b) <= 2 ^ 64) by (apply Z.pow_le_mono_r; lia). cbv [wpp]. lia.
Qed.

Lemma be_min_bytes n : is_bytes (be_min n).
Proof. apply Z_to_be_bytes. Qed.

Lemma decode_usize_ok n : 0 < n < 2 ^ 64 -> decode_usize (be_min n) = Ok n.
Proof.
  intros Hn. unfold decode_usize. pose proof (byte_len_bound n 8 ltac:(lia) ltac:(lia)).
  rewrite len_be_min by lia. rewrite (proj2 (Z.leb_le _ _)) by lia.
  destruct (be_min_head n) as (x & t & Hx & ?); [lia|].
  rewrite (index_ok _ _ x) by (done || by rewrite Hx). cbn [mbind outcome_bind].
  rewrite (proj2 (Z.eqb_neq x 0)) by lia. rewrite <-(len_be_min n) by lia.
  rewrite be_loop_all; [|apply be_min_bytes|rewrite len_be_min; lia]. by rewrite be_min_to_Z by lia.
Qed.

(** ** Headers *)
Definition fits (b : bytes) (p : PayloadInfo) : Prop :=
  0 <= header_len p /\ 0 <= value_len p /\ 1 <= header_len p + value_len p <= len b /\
  header_len p + value_len p < 2 ^ 64.

Ltac split_leb := repeat match goal with |- context [?a <=? ?b] => destruct (Z.leb_spec a b) end.

Lemma calculate_payload_info_wp b k :
  is_bytes b -> 0 < k -> wp (calculate_payload_info b k) (fun p => header_len p = 1 + k /\ 0 <= value_len p) any.
Proof.
  intros Hb Hk. unfold calculate_payload_info. destruct (b !! 1%nat) as [x|]; [|done].
  assert (Hgo : wp (if len b <? 1 + k then Err RlpIsTooShort
     else s ← slice b 1 (1 + k); value_len ← decode_usize s; Ok (mkPayload (1 + k) value_len))
     (fun p => header_len p = 1 + k /\ 0 <= value_len p) any); [|by destruct x].
  destruct (Z.ltb_spec (len b) (1 + k)); [done|]. apply wp_bind.
  destruct (slice b 1 (1 + k)) as [s| |] eqn:Hs; [|by rewrite slice_ok in Hs by lia..].
  cbn [wpp]. apply wp_bind. eapply wp_mono; [| |done].
  { apply decode_usize_wp; [by eapply slice_Forall|]. rewrite (slice_len _ _ _ _ Hs). lia. }
  intros n [Hn _]. by split.
Qed.

Lemma PayloadInfo_from_wp b :
  is_bytes b -> wp (PayloadInfo_from b) (fun p => 0 <= header_len p /\ 0 <= value_len p /\ 1 <= header_len p + value_len p) any.
Proof.
  intros Hb. unfold PayloadInfo_from. destruct b as [|l b]; [done|].
  assert (0 <= l < 256) by (by apply Forall_cons_iff in Hb as [? _]).
  split_leb; try (cbn [wpp header_len value_len]; lia);
    (eapply wp_mono; [apply calculate_payload_info_wp; [done|lia]| |done]); intros p []; lia.
Qed.

(** [payload_info] never panics and what it finds lies inside the slice. *)
Lemma payload_info_wp b : is_bytes b -> wp (payload_info b) (fits b) any.
Proof.
  intros Hb. unfold payload_info. apply wp_bind. eapply wp_mono; [by apply PayloadInfo_from_wp| |done].
  intros p (? & ? & ?). cbv zeta beta.
  destruct (Z.ltb_spec (header_len p + value_len p) (2 ^ 64)); [|done].
  destruct (Z.leb_spec (header_len p + value_len p) (len b)); [|done]. done.
Qed.

Lemma payload_info_fits b p : is_bytes b -> payload_info b = Ok p -> fits b p.
Proof. intros Hb. apply (wp_ok _ _ _ _ _ (payload_info_wp b Hb)). Qed.

(** The header and the payload of an encoded tree. *)
Definition payload (it : item) : bytes :=
  match it with Data b => b | List l => concat (map rlp_enc l) end.
Definition header_of (it : item) : bytes :=
  match it with
  | Data [x] => if x <? 0x80 then [] else header 0x80 0xb7 1
  | Data b => header 0x80 0xb7 (len b)
  | List l => header 0xc0 0xf7 (len (concat (map rlp_enc l)))
  end.

Lemma rlp_enc_split it : rlp_enc it = header_of it ++ payload it.
Proof. destruct it as [[|x [|y b]]|l]; simpl; try done. by destruct (x <? 0x80). Qed.

Lemma PayloadInfo_header n s l rest :
  (s = 0x80 /\ l = 0xb7) \/ (s = 0xc0 /\ l = 0xf7) -> 0 <= n < 2 ^ 32 ->
  PayloadInfo_from (header s l n ++ rest) = Ok (mkPayload (len (header s l n)) n).
Proof.
  intros Hsl Hn. unfold header, PayloadInfo_from. destruct (Z.leb_spec n 55) as [Hs|Hlong]; cbn [app].
  - destruct Hsl as [[-> ->]|[-> ->]]; split_leb; try lia; do 2 f_equal; lia.
  - destruct (byte_len_spec n) as [Hb _]; [lia|]. pose proof (byte_len_u32 n Hn).
    assert (Hc : calculate_payload_info ((l + byte_len n) :: be_min n ++ rest) (byte_len n) =
                 Ok (mkPayload (len ((l + byte_len n) :: be_min n)) n)).
    { destruct (be_min_head n) as (x & t & Hx & ?); [lia|]. unfold calculate_payload_info.
      cbn [lookup list_lookup]. rewrite len_cons, len_app, (len_be_min n) by lia.
      pose proof (len_nonneg rest). rewrite (proj2 (Z.ltb_ge _ _)) by lia.
      rewrite slice_ok by (rewrite ?len_cons, ?len_app, ?len_be_min; lia).
      change (Z.to_nat 1) with 1%nat. cbn [drop]. rewrite drop_0.
      rewrite take_app_length' by (apply Nat2Z.inj; fold (len (be_min n)); rewrite len_be_min by lia; lia).
      cbn [mbind outcome_bind]. rewrite decode_usize_ok by lia. rewrite Hx. cbn [app]. simpl.
      rewrite len_cons, <-Hx, len_be_min by lia. destruct x; try lia; done. }
    destruct Hsl as [[-> ->]|[-> ->]]; split_leb; try lia;
      (etrans; [|exact Hc]); f_equal; lia.
Qed.

Lemma PayloadInfo_enc it rest :
  item_ok it -> PayloadInfo_from (rlp_enc it ++ rest) = Ok (mkPayload (len (header_of it)) (len (payload it))).
Proof.
  intros Hok. rewrite rlp_enc_split, <-app_assoc.
  destruct it as [b|l].
  - destruct Hok as [Hb Hl]. destruct b as [|x [|y b]].
    + by apply PayloadInfo_header; [left|].
    + unfold header_of, payload. destruct (Z.ltb_spec x 0x80).
      * unfold PayloadInfo_from. cbn [app]. rewrite (proj2 (Z.leb_le _ _)) by lia. done.
      * by apply PayloadInfo_header; [left|].
    + apply PayloadInfo_header; [by left|]. split; [apply len_nonneg|done].
  - apply item_ok_list in Hok as [_ Hl]. apply PayloadInfo_header; [by right|]. split; [apply len_nonneg|done].
Qed.

Lemma len_header s l n : 0 <= n < 2 ^ 32 -> 0 <= len (header s l n) <= 5.
Proof.
  intros Hn. split; [apply len_nonneg|]. unfold header. case_match; [done|].
  pose proof (byte_len_u32 n Hn). rewrite len_cons, len_be_min by lia. lia.
Qed.

Lemma item_ok_lens it : item_ok it -> len (header_of it) <= 5 /\ len (payload it) < 2 ^ 32.
Proof.
  destruct it as [b|l].
  - intros [_ Hl]. split; [|done]. destruct b as [|x [|y b]]; unfold header_of; try case_match; try done.
    apply len_header. split; [apply len_nonneg|done].
  - intros [_ Hl]%item_ok_list. split; [|done]. apply len_header. split; [apply len_nonneg|done].
Qed.

Lemma payload_info_enc it rest :
  item_ok it -> payload_info (rlp_enc it ++ rest) = Ok (mkPayload (len (header_of it)) (len (payload it))).
Proof.
  intros Hok. unfold payload_info. rewrite PayloadInfo_enc by done. cbn [mbind outcome_bind header_len value_len].
  destruct (item_ok_lens it Hok). rewrite len_app, rlp_enc_split, len_app. pose proof (len_nonneg rest).
  rewrite (proj2 (Z.ltb_lt _ _)), (proj2 (Z.leb_le _ _)) by lia. done.
Qed.
