(* ===== verification/RlpViews.v ===== *)
(** * Views and their caches

    [at_ref] is the search of [at] without a cache.  A view whose caches are
    consistent with its bytes ([view_ok]) answers every query as [at_ref] does
    and stays consistent, on any bytes, well-formed or not. *)
From stdpp Require Import base list numbers.
From S2P Require Import Prelude RlpStream RlpEncoding RlpDecode RlpDecoding.

(** ** Consuming items *)
Lemma consume_ok b n : 0 <= n <= len b -> consume b n = Ok (drop (Z.to_nat n) b).
Proof.
  intros Hn. unfold consume. rewrite (proj2 (Z.leb_le _ _)) by lia. rewrite slice_ok by lia.
  f_equal. apply take_ge. rewrite length_drop. unfold len in *. lia.
Qed.

Lemma consume_items_step b :
  is_bytes b ->
  (exists e, payload_info b = Err e /\ forall n, consume_items_loop (S n) b = Err e) \/
  (exists p, payload_info b = Ok p /\ fits b p /\
     forall n, consume_items_loop (S n) b = consume_items_loop n (drop (Z.to_nat (header_len p + value_len p)) b)).
Proof.
  intros Hb. pose proof (payload_info_wp b Hb) as Hp. cbn [consume_items_loop].
  destruct (payload_info b) as [p|e|]; [|by left; exists e|done].
  right. exists p. split_and!; [done..|]. intros n. destruct Hp as (? & ? & ? & ?).
  cbn [mbind outcome_bind]. rewrite add_chk_ok by lia. cbn [mbind outcome_bind].
  rewrite consume_ok by lia. done.
Qed.

Lemma consume_items_wp n b :
  is_bytes b ->
  wp (consume_items_loop n b) (fun b' => exists pre, b = pre ++ b' /\ (n <= length pre)%nat) any.
Proof.
  revert b. induction n as [|n IH]; intros b Hb; [by exists []|].
  destruct (consume_items_step b Hb) as [(e & _ & ->)|(p & _ & (? & ? & ? & ?) & ->)]; [done|].
  set (k := Z.to_nat _). eapply wp_mono; [by apply IH, Forall_drop| |done].
  intros b' (pre & Hpre & Hn). exists (take k b ++ pre). split.
  - by rewrite <-app_assoc, <-Hpre, take_drop.
  - rewrite length_app, length_take. unfold k, len in *. lia.
Qed.

Lemma consume_items_app n m b :
  consume_items_loop (n + m) b = consume_items_loop n b ≫= consume_items_loop m.
Proof.
  revert b. induction n as [|n IH]; intros b; [done|]. cbn [consume_items_loop Nat.add].
  destruct (payload_info b) as [p| |]; [|done..]. cbn [mbind outcome_bind].
  destruct (add_chk _ _ _) as [x| |]; [|done..]. cbn [mbind outcome_bind].
  destruct (consume _ _); [|done..]. apply IH.
Qed.

Lemma consume_list_payload_wp raw :
  is_bytes raw ->
  wp (consume_list_payload (UntrustedRlp_new raw)) (fun b => exists pre, raw = pre ++ b) any.
Proof.
  intros Hb. unfold consume_list_payload. cbn [rlp_raw UntrustedRlp_new]. apply wp_bind.
  eapply wp_mono; [by apply payload_info_wp| |done]. intros p (? & ? & ? & ?).
  rewrite consume_ok by lia. exists (take (Z.to_nat (header_len p)) raw). by rewrite take_drop.
Qed.

(** ** The search without a cache *)
Definition at_found (b : bytes) : res UntrustedRlp :=
  found ← payload_info b;
  e ← add_chk 64 (header_len found) (value_len found);
  s ← slice b 0 e;
  Ok (UntrustedRlp_new s).

Definition at_ref (raw : bytes) (index : Z) : res UntrustedRlp :=
  if negb (is_list (UntrustedRlp_new raw)) then Err RlpExpectedToBeList
  else
    b ← consume_list_payload (UntrustedRlp_new raw);
    b ← consume_items b index;
    at_found b.

Lemma at_found_wp b :
  is_bytes b -> wp (at_found b) (fun r => 0 < len b /\ exists k, 0 < k <= len b /\ r = UntrustedRlp_new (take (Z.to_nat k) b)) any.
Proof.
  intros Hb. unfold at_found. apply wp_bind. eapply wp_mono; [by apply payload_info_wp| |done].
  intros p (? & ? & ? & ?). rewrite add_chk_ok by lia. cbn [mbind outcome_bind]. rewrite slice_ok by lia.
  change (Z.to_nat 0) with 0%nat. rewrite drop_0, Z.sub_0_r. cbn [mbind outcome_bind wpp]. split; [lia|].
  eexists; split; [|reflexivity]. lia.
Qed.

(** Only an index below the length of the view can be found. *)
Lemma at_ref_wp raw i :
  is_bytes raw -> 0 <= i ->
  wp (at_ref raw i) (fun r => i < len raw /\ exists b, r = UntrustedRlp_new b /\ is_bytes b /\ len b <= len raw) any.
Proof.
  intros Hb Hi. unfold at_ref. destruct (negb _); [done|]. apply wp_bind.
  eapply wp_mono; [by apply consume_list_payload_wp| |done]. intros b0 [pre0 ->].
  apply Forall_app in Hb as [_ Hb0]. apply wp_bind. unfold consume_items.
  eapply wp_mono; [by apply consume_items_wp| |done]. intros b (pre & -> & Hn).
  apply Forall_app in Hb0 as [_ Hb]. eapply wp_mono; [by apply at_found_wp| |done].
  intros r (Hpos & k & Hk & ->). rewrite !len_app. pose proof (len_nonneg pre0).
  split; [unfold len in *; lia|]. eexists; split; [reflexivity|]. split; [by apply Forall_take|].
  rewrite len_take by lia. pose proof (len_nonneg pre). lia.
Qed.

(** ** Consistent caches *)
Definition offset_ok (raw : bytes) (c : OffsetCache) : Prop :=
  c = mkOffset usize_max 0 \/
  (0 <= oc_index c /\ exists b0 pre b,
     consume_list_payload (UntrustedRlp_new raw) = Ok b0 /\ consume_items b0 (oc_index c) = Ok b /\
     raw = pre ++ b /\ oc_offset c = len pre).

(** The elements from an index on, up to the first that is not found. *)
Inductive elements (raw : bytes) : Z -> list UntrustedRlp -> Prop :=
  | elements_nil i e : at_ref raw i = Err e -> elements raw i []
  | elements_cons i r l : at_ref raw i = Ok r -> elements raw (i + 1) l -> elements raw i (r :: l).

Record view_ok (v : UntrustedRlp) : Prop := {
  vo_bytes : is_bytes (rlp_raw v);
  vo_len : len (rlp_raw v) < 2 ^ 63;
  vo_offset : offset_ok (rlp_raw v) (offset_cache v);
  vo_count : forall c, count_cache v = Some c -> exists l, elements (rlp_raw v) 0 l /\ c = len l;
}.

Lemma view_new b : is_bytes b -> len b < 2 ^ 63 -> view_ok (UntrustedRlp_new b).
Proof. by split; [| |left|]. Qed.

Lemma elements_det raw i l1 l2 : elements raw i l1 -> elements raw i l2 -> l1 = l2.
Proof.
  intros H1. revert l2. induction H1 as [i e He|i r l Hr Hl IH]; intros l2 H2;
    inversion H2 as [? ? He'|? ? ? Hr' Hl']; subst; try congruence.
  rewrite Hr in Hr'. simplify_eq. f_equal. auto.
Qed.

(** [at] with a consistent cache is the search without one. *)
Lemma at_index_ok v i :
  view_ok v -> 0 <= i < usize_max ->
  exists c, at_index v i = (at_ref (rlp_raw v) i, mkRlp (rlp_raw v) c (count_cache v)) /\
    offset_ok (rlp_raw v) c.
Proof.
  intros [Hb Hlen Hc _] Hi. destruct v as [raw [ci co] cnt]. cbn [rlp_raw offset_cache count_cache] in *.
  unfold at_index, at_ref. change (is_list (mkRlp raw _ cnt)) with (is_list (UntrustedRlp_new raw)).
  destruct (negb _); [by exists (mkOffset ci co)|].
  pose proof (consume_list_payload_wp raw Hb) as Hp.
  assert (Hs : ('(b, to_skip) ← at_start (mkRlp raw (mkOffset ci co) cnt) i; consume_items b to_skip) =
               (b ← consume_list_payload (UntrustedRlp_new raw); consume_items b i)).
  { unfold at_start. cbn [rlp_raw offset_cache oc_index oc_offset].
    change (consume_list_payload (mkRlp raw _ cnt)) with (consume_list_payload (UntrustedRlp_new raw)).
    destruct Hc as [[= -> ->]|(Hci & b0 & pre & b & Hb0 & Hit & Hraw & Hco)].
    { rewrite (proj2 (Z.leb_gt _ _)) by lia. by destruct (consume_list_payload _). }
    cbn [oc_index oc_offset] in *. rewrite Hb0. destruct (Z.leb_spec ci i) as [Hle|]; [|done].
    rewrite consume_ok by (subst; rewrite len_app; pose proof (len_nonneg pre); pose proof (len_nonneg b); lia).
    subst co. rewrite Hraw. unfold len. rewrite Nat2Z.id, drop_app_length. cbn [mbind outcome_bind].
    unfold consume_items in *. replace (Z.to_nat i) with (Z.to_nat ci + Z.to_nat (i - ci))%nat by lia.
    by rewrite consume_items_app, Hit. }
  rewrite Hs. clear Hs. destruct (consume_list_payload _) as [b0|e|] eqn:Hb0; cbn [mbind outcome_bind]; [|by exists (mkOffset ci co)..].
  destruct Hp as [pre0 Hpre0].
  assert (is_bytes b0) as Hbb0 by (subst raw; by apply Forall_app in Hb as [_ ?]).
  pose proof (consume_items_wp (Z.to_nat i) b0 Hbb0) as Hw.
  destruct (consume_items b0 i) as [b|e|] eqn:Hit; [|by exists (mkOffset ci co)..]. eexists; split; [reflexivity|].
  right. split; [cbn; lia|]. unfold consume_items in Hit. rewrite Hit in Hw. destruct Hw as (pre & -> & _).
  exists (pre ++ b), (pre0 ++ pre), b. rewrite <-app_assoc. cbn [rlp_raw]. split_and!; try done.
  cbn [oc_offset]. rewrite Hpre0, !len_app. lia.
Qed.

(** A view after queries: the same bytes, consistent caches. *)
Definition requeried (v v' : UntrustedRlp) : Prop := view_ok v' /\ rlp_raw v' = rlp_raw v.

Lemma at_index_view v i :
  view_ok v -> 0 <= i < usize_max ->
  exists v', at_index v i = (at_ref (rlp_raw v) i, v') /\ requeried v v' /\ count_cache v' = count_cache v.
Proof.
  intros Hv Hi. destruct (at_index_ok v i Hv Hi) as (c & -> & Hc). eexists; split; [reflexivity|].
  destruct Hv. split; [|done]. split; [|done]. by split.
Qed.

(** The iteration visits exactly the elements; its fuel is never exhausted. *)
Lemma iter_from_ok fuel v i :
  view_ok v -> 0 <= i -> len (rlp_raw v) < i + Z.of_nat fuel -> i <= len (rlp_raw v) ->
  exists l v', iter_from fuel v i = (Ok l, v') /\ elements (rlp_raw v) i l /\ requeried v v' /\
    count_cache v' = count_cache v.
Proof.
  revert v i. induction fuel as [|fuel IH]; intros v i Hv Hi Hf Hle; [lia|].
  cbn [iter_from]. assert (i < usize_max) by (destruct Hv; unfold usize_max; lia).
  destruct (at_index_view v i Hv) as (v1 & -> & [Hv1 Hraw] & Hc); [lia|].
  pose proof (at_ref_wp (rlp_raw v) i (vo_bytes v Hv) Hi) as Hw.
  destruct (at_ref (rlp_raw v) i) as [r|e|] eqn:Hr; [|by exists [], v1; split; [|split; [econstructor|]]|done].
  destruct Hw as [Hlt _].
  destruct (IH v1 (i + 1)) as (l & v2 & -> & Hl & [Hv2 Hraw2] & Hc2); [done|lia|rewrite Hraw; lia|rewrite Hraw; lia|].
  exists (r :: l), v2. rewrite Hraw in *. split_and!; [done| |done|congruence]. by econstructor.
Qed.

Lemma elements_exist v : view_ok v -> exists l, elements (rlp_raw v) 0 l.
Proof.
  intros Hv. destruct (iter_from_ok (S (length (rlp_raw v))) v 0 Hv) as (l & ? & ? & ? & ?);
    [lia|unfold len; lia|apply len_nonneg|by exists l].
Qed.

Lemma item_count_ok v l :
  view_ok v -> is_list v = true -> elements (rlp_raw v) 0 l ->
  exists v', item_count v = (Ok (len l), v') /\ requeried v v'.
Proof.
  intros Hv Hl Hel. unfold item_count. rewrite Hl. destruct (count_cache v) as [c|] eqn:Hc.
  - destruct (vo_count v Hv c Hc) as (l' & Hl' & ->). exists v. by rewrite (elements_det _ _ _ _ Hel Hl').
  - destruct (iter_from_ok (S (length (rlp_raw v))) v 0 Hv) as (l' & v1 & Hit & Hl' & [[] Hraw] & Hc1);
      [lia|unfold len; lia|apply len_nonneg|].
    unfold iter. rewrite Hit. rewrite (elements_det _ _ _ _ Hel Hl').
    eexists; split; [reflexivity|]. split; [|done]. split; try done. cbn [count_cache rlp_raw].
    rewrite Hraw. intros c [= <-]. by exists l'.
Qed.

(** ** Typed queries *)
Section typed.
Context {T : Type} `{Decodable T}.

(** [collect] on the decoded elements. *)
Fixpoint decode_all (l : list UntrustedRlp) : res (list T) :=
  match l with
  | [] => Ok []
  | r :: l => v ← fst (decode r); vs ← decode_all l; Ok (v :: vs)
  end.

Lemma as_list_from_ok fuel v i l :
  view_ok v -> 0 <= i -> len (rlp_raw v) < i + Z.of_nat fuel -> i <= len (rlp_raw v) ->
  elements (rlp_raw v) i l ->
  exists v', as_list_from fuel v i = (decode_all l, v') /\ requeried v v'.
Proof.
  revert v i l. induction fuel as [|fuel IH]; intros v i l Hv Hi Hf Hle Hl; [lia|].
  cbn [as_list_from]. assert (i < usize_max) by (destruct Hv; unfold usize_max; lia).
  destruct (at_index_view v i Hv) as (v1 & -> & [Hv1 Hraw] & Hc); [lia|].
  pose proof (at_ref_wp (rlp_raw v) i (vo_bytes v Hv) Hi) as Hw.
  inversion Hl as [? e He|? r l' Hr Hl']; subst; [by rewrite He; exists v1|].
  rewrite Hr in *. destruct Hw as [Hlt _]. cbn [decode_all].
  destruct (fst (decode r)) as [x| |]; cbn [mbind outcome_bind]; [|by exists v1..].
  destruct (IH v1 (i + 1) l') as (v2 & -> & [Hv2 Hraw2]); rewrite ?Hraw; try done; try lia.
  exists v2. split; [done|]. split; [done|congruence].
Qed.

Lemma as_list_ok v l :
  view_ok v -> elements (rlp_raw v) 0 l -> exists v', as_list v = (decode_all l, v') /\ requeried v v'.
Proof. intros Hv Hl. apply as_list_from_ok; try done; [unfold len; lia|apply len_nonneg]. Qed.

Lemma val_at_ok v i :
  view_ok v -> 0 <= i < usize_max ->
  exists v', val_at v i = (r ← at_ref (rlp_raw v) i; fst (decode r), v') /\ requeried v v'.
Proof.
  intros Hv Hi. unfold val_at. destruct (at_index_view v i Hv Hi) as (v1 & -> & Hv1 & _).
  exists v1. by destruct (at_ref (rlp_raw v) i).
Qed.
End typed.

(** ** The reference encoding *)
Lemma header_bytes s l n : 0 <= s -> s + 55 < 256 -> 0 <= l -> l + 4 < 256 -> 0 <= n < 2 ^ 32 -> is_bytes (header s l n).
Proof.
  intros. unfold header. pose proof (byte_len_u32 n). case_match.
  - constructor; [|constructor]. split; lia.
  - constructor; [split; lia|apply be_min_bytes].
Qed.

Lemma header_of_bytes it : item_ok it -> is_bytes (header_of it).
Proof.
  destruct it as [b|l].
  - intros [_ Hl]. pose proof (len_nonneg b).
    destruct b as [|x [|y b]]; unfold header_of; try case_match; try apply header_bytes; lia || constructor.
  - intros [_ Hl]%item_ok_list. apply header_bytes; try lia. split; [apply len_nonneg|done].
Qed.

Lemma rlp_enc_bytes it : item_ok it -> is_bytes (rlp_enc it).
Proof.
  induction it as [b|l IH] using item_ind'; intros Hok; rewrite rlp_enc_split;
    (apply Forall_app; split; [by apply header_of_bytes|]); [by destruct Hok|].
  apply item_ok_list in Hok as [Hok _]. cbn [payload].
  induction Hok as [|i l Hi Hl IHl]; [constructor|]. apply Forall_cons_iff in IH as [IHi IH']. cbn [map concat].
  apply Forall_app. split; [by apply IHi|by apply IHl].
Qed.

Lemma rlp_enc_len it : item_ok it -> len (rlp_enc it) < 2 ^ 33.
Proof. intros Hok. rewrite rlp_enc_split, len_app. destruct (item_ok_lens it Hok). lia. Qed.

Lemma view_enc it : item_ok it -> view_ok (UntrustedRlp_new (rlp_enc it)).
Proof. intros Hok. apply view_new; [by apply rlp_enc_bytes|]. pose proof (rlp_enc_len it Hok). lia. Qed.


Lemma enc_list_is_list l : item_ok (List l) -> is_list (UntrustedRlp_new (rlp_enc (List l))) = true.
Proof.
  intros [_ Hl]%item_ok_list. pose proof (len_nonneg (concat (map rlp_enc l))).
  unfold is_list, header. cbn [rlp_raw UntrustedRlp_new rlp_enc]. unfold header.
  pose proof (byte_len_u32 (len (concat (map rlp_enc l)))).
  destruct (Z.leb_spec (len (concat (map rlp_enc l))) 55); cbn [app]; apply Z.leb_le; lia.
Qed.

Lemma consume_list_payload_enc l :
  item_ok (List l) -> consume_list_payload (UntrustedRlp_new (rlp_enc (List l))) = Ok (concat (map rlp_enc l)).
Proof.
  intros Hok. unfold consume_list_payload. cbn [rlp_raw UntrustedRlp_new].
  pose proof (payload_info_enc (List l) [] Hok) as Hp. rewrite app_nil_r in Hp. rewrite Hp.
  cbn [mbind outcome_bind header_len]. rewrite rlp_enc_split.
  rewrite consume_ok by (rewrite len_app; pose proof (len_nonneg (header_of (List l))); pose proof (len_nonneg (payload (List l))); lia).
  unfold len. by rewrite Nat2Z.id, drop_app_length.
Qed.

Lemma consume_items_enc n l :
  Forall item_ok l -> (n <= length l)%nat ->
  consume_items_loop n (concat (map rlp_enc l)) = Ok (concat (map rlp_enc (drop n l))).
Proof.
  revert l. induction n as [|n IH]; intros l Hl Hn; [done|]. destruct l as [|it l]; [simpl in Hn; lia|].
  apply Forall_cons_iff in Hl as [Hit Hl]. cbn [map concat consume_items_loop].
  rewrite payload_info_enc by done. cbn [mbind outcome_bind header_len value_len].
  destruct (item_ok_lens it Hit). rewrite add_chk_ok by lia. cbn [mbind outcome_bind].
  rewrite <-len_app, <-rlp_enc_split. pose proof (len_nonneg (rlp_enc it)). pose proof (len_nonneg (concat (map rlp_enc l))).
  rewrite consume_ok by (rewrite len_app; lia). unfold len at 1. rewrite Nat2Z.id, drop_app_length.
  cbn [mbind outcome_bind drop]. apply IH; [done|simpl in Hn; lia].
Qed.

Lemma at_found_enc it rest : item_ok it -> at_found (rlp_enc it ++ rest) = Ok (UntrustedRlp_new (rlp_enc it)).
Proof.
  intros Hit. unfold at_found. rewrite payload_info_enc by done. cbn [mbind outcome_bind header_len value_len].
  destruct (item_ok_lens it Hit). rewrite add_chk_ok by lia. cbn [mbind outcome_bind].
  rewrite <-len_app, <-rlp_enc_split. pose proof (len_nonneg (rlp_enc it)). pose proof (len_nonneg rest).
  rewrite slice_ok by (rewrite ?len_app; lia). rewrite Z.sub_0_r. unfold len. rewrite Nat2Z.id.
  cbn [Z.to_nat]. by rewrite drop_0, take_app_length.
Qed.

Lemma at_ref_enc l i :
  item_ok (List l) -> 0 <= i ->
  at_ref (rlp_enc (List l)) i =
    match l !! Z.to_nat i with Some it => Ok (UntrustedRlp_new (rlp_enc it)) | None => Err RlpIsTooShort end.
Proof.
  intros Hok Hi. unfold at_ref. rewrite enc_list_is_list by done. cbn [negb].
  rewrite consume_list_payload_enc by done. cbn [mbind outcome_bind].
  pose proof (proj1 (item_ok_list l) Hok) as [Hl _]. unfold consume_items.
  destruct (Z.le_gt_cases i (len l)) as [Hi'|Hi'].
  2: { rewrite lookup_ge_None_2 by (unfold len in Hi'; lia).
       replace (Z.to_nat i) with (length l + S (Z.to_nat (i - len l - 1)))%nat by (unfold len in *; lia).
       by rewrite consume_items_app, consume_items_enc, drop_all by done. }
  rewrite consume_items_enc by (done || unfold len in *; lia). cbn [mbind outcome_bind].
  destruct (l !! Z.to_nat i) as [it|] eqn:Hit.
  - rewrite (drop_S _ _ _ Hit). cbn [map concat]. apply at_found_enc. by eapply Forall_lookup_1.
  - rewrite drop_ge by (by apply lookup_ge_None). done.
Qed.

Lemma elements_enc l :
  item_ok (List l) -> elements (rlp_enc (List l)) 0 (map (fun it => UntrustedRlp_new (rlp_enc it)) l).
Proof.
  intros Hok. cut (forall k, (k <= length l)%nat ->
    elements (rlp_enc (List l)) (Z.of_nat k) (map (fun it => UntrustedRlp_new (rlp_enc it)) (drop k l))).
  { intros Hc. apply (Hc 0%nat). lia. }
  intros k Hk. remember (length l - k)%nat as d eqn:Hd. revert k Hk Hd.
  induction d as [|d IH]; intros k Hk Hd; pose proof (at_ref_enc l (Z.of_nat k) Hok ltac:(lia)) as Ha;
    rewrite Nat2Z.id in Ha.
  - rewrite drop_ge by lia. rewrite lookup_ge_None_2 in Ha by lia. by econstructor.
  - destruct (lookup_lt_is_Some_2 l k) as [it Hit]; [lia|]. rewrite Hit in Ha.
    rewrite (drop_S _ _ _ Hit). cbn [map]. econstructor; [done|].
    replace (Z.of_nat k + 1) with (Z.of_nat (S k)) by lia. apply IH; lia.
Qed.
