(* ===== verification/RlpImpls.v ===== *)
(** * Encodable and decodable types ([util/rlp/src/impls.rs], [call_type.rs])

    The [Encodable]/[Decodable] implementations of the base types, and the
    interface [Codec] that a pair of implementations satisfies: a value is
    written as one RLP tree, and reading that tree gives the value back.
    Integers, hashes and byte vectors share the carrier [Z] or [list Z], so
    their implementations are named rather than found by type. *)
From stdpp Require Import base list numbers strings.
From S2P Require Import Prelude Words Vm RlpStream RlpEncoding RlpDecode.

(** [rlp.decoder().decode_value(f)]: the view is cloned, its caches untouched. *)
Definition with_decoder {T} (f : UntrustedRlp -> bytes -> res T) : Decodable T :=
  {| decode := fun rlp => (decode_value rlp (f rlp), rlp) |}.

(** ** [bool] *)
Definition bool_append (b : bool) (s : RlpStream) : run RlpStream :=
  if b then push_value [1] s else push_value [0] s.
#[global] Instance bool_Encodable : Encodable bool := {| rlp_append := bool_append |}.

Definition bool_value (b : bytes) : res bool :=
  if len b =? 0 then Ok false
  else if len b =? 1 then b0 ← index b 0; Ok (negb (b0 =? 0))
  else Err RlpIsTooBig.
#[global] Instance bool_Decodable : Decodable bool := with_decoder (fun _ => bool_value).

(** ** [Vec<u8>], [&[u8]] and the bytes of a string *)
Definition bytes_append (b : bytes) (s : RlpStream) : run RlpStream := push_value b s.
Definition bytes_Encodable : Encodable bytes := {| rlp_append := bytes_append |}.

Definition bytes_value (b : bytes) : res bytes := Ok b.
Definition bytes_Decodable : Decodable bytes := with_decoder (fun _ => bytes_value).

(** ** [u8] *)
Definition u8_append (x : Z) (s : RlpStream) : run RlpStream :=
  if negb (x =? 0) then push_value [x] s else push_value [] s.
Definition u8_Encodable : Encodable Z := {| rlp_append := u8_append |}.

Definition u8_value (b : bytes) : res Z :=
  match b with
  | [b0] => if negb (b0 =? 0) then Ok b0 else Err RlpInvalidIndirection
  | [] => Ok 0
  | _ => Err RlpIsTooBig
  end.
Definition u8_Decodable : Decodable Z := with_decoder (fun _ => u8_value).

(** ** [u16], [u32], [u64]: [size] bytes *)
Definition uN_append (size : nat) (x : Z) (s : RlpStream) : run RlpStream :=
  let leading_empty_bytes := leading_zeros (8 * Z.of_nat size) x / 8 in
  let buffer := Z_to_be size x in
  b ← slice buffer leading_empty_bytes (Z.of_nat size);
  push_value b s.
Definition uN_Encodable (size : nat) : Encodable Z := {| rlp_append := uN_append size |}.

Definition uN_value (size : nat) (rlp : UntrustedRlp) (b : bytes) : res Z :=
  let l := len b in
  if (l =? 0) || (l =? 1) then fst (@decode _ u8_Decodable rlp)
  else if l <=? Z.of_nat size then
    b0 ← index b 0;
    if b0 =? 0 then Err RlpInvalidIndirection
    else be_loop (8 * Z.of_nat size) b l 0 (length b) 0
  else Err RlpIsTooBig.
Definition uN_Decodable (size : nat) : Decodable Z := with_decoder (uN_value size).

(** ** [usize], as [u64] *)
Definition usize_append (x : Z) (s : RlpStream) : run RlpStream := uN_append 8 x s.
Definition usize_Encodable : Encodable Z := {| rlp_append := usize_append |}.
Definition usize_Decodable : Decodable Z := uN_Decodable 8.

(** ** Hashes of [size] bytes *)
Definition hash_append (h : bytes) (s : RlpStream) : run RlpStream := push_value h s.
Definition hash_Encodable : Encodable bytes := {| rlp_append := hash_append |}.

Definition hash_value (size : Z) (b : bytes) : res bytes :=
  match len b ?= size with
  | Lt => Err RlpIsTooShort
  | Gt => Err RlpIsTooBig
  | Eq => copy_from_slice (replicate (Z.to_nat size) 0) 0 b
  end.
Definition hash_Decodable (size : Z) : Decodable bytes := with_decoder (fun _ => hash_value size).

(** ** [U256] and [U128]: [size] bytes *)
Definition uint_append (size : nat) (x : Z) (s : RlpStream) : run RlpStream :=
  leading_empty_bytes ← sub_chk (Z.of_nat size) ((u256_bits x + 7) / 8);
  let buffer := Z_to_be size x in
  b ← slice buffer leading_empty_bytes (Z.of_nat size);
  push_value b s.
Definition uint_Encodable (size : nat) : Encodable Z := {| rlp_append := uint_append size |}.

Definition uint_value (size : nat) (b : bytes) : res Z :=
  match b with
  | b0 :: _ =>
      if b0 =? 0 then Err RlpInvalidIndirection
      else if len b <=? Z.of_nat size then Ok (be_to_Z b)
      else Err RlpIsTooBig
  | [] => Ok (be_to_Z b)
  end.
Definition uint_Decodable (size : nat) : Decodable Z := with_decoder (fun _ => uint_value size).

(** ** [Option<T>] *)
Definition option_append {T} (E : Encodable T) (o : option T) (s : RlpStream) : run RlpStream :=
  match o with
  | None => begin_list s 0
  | Some value => s ← begin_list s 1; append s value
  end.
#[global] Instance option_Encodable {T} (E : Encodable T) : Encodable (option T) := {| rlp_append := option_append E |}.

Definition option_decode {T} (D : Decodable T) (rlp : UntrustedRlp) : res (option T) * UntrustedRlp :=
  let '(items, rlp) := item_count rlp in
  match items with
  | Ok items =>
      if items =? 1 then let '(v, rlp) := val_at rlp 0 in (v ← v; Ok (Some v), rlp)
      else if items =? 0 then (Ok None, rlp)
      else (Err RlpIncorrectListLen, rlp)
  | Err e => (Err e, rlp)
  | Panic => (Panic, rlp)
  end.
#[global] Instance option_Decodable {T} (D : Decodable T) : Decodable (option T) := {| decode := option_decode D |}.

(** ** [CallType], through [u32] *)
Definition call_type_code (c : CallType) : Z :=
  match c with CT_None => 0 | CT_Call => 1 | CT_CallCode => 2 | CT_DelegateCall => 3 | CT_StaticCall => 4 end.
#[global] Instance CallType_Encodable : Encodable CallType :=
  {| rlp_append := fun c s => uN_append 4 (call_type_code c) s |}.

Definition CallType_decode (rlp : UntrustedRlp) : res CallType * UntrustedRlp :=
  let '(v, rlp) := @as_val _ (uN_Decodable 4) rlp in
  (v ← v;
   (if v =? 0 then Ok CT_None else if v =? 1 then Ok CT_Call else if v =? 2 then Ok CT_CallCode
    else if v =? 3 then Ok CT_DelegateCall else if v =? 4 then Ok CT_StaticCall
    else Err (Custom "Invalid value of CallType item"%string)), rlp).
#[global] Instance CallType_Decodable : Decodable CallType := {| decode := CallType_decode |}.

(** ** The trusted view: every error is a panic ([rlpin.rs], [lib.rs]) *)
Definition unwrap {A} (r : res A) : run A := match r with Ok a => Ok a | _ => Panic end.

Section trusted.
Context {T : Type} `{Decodable T}.
Definition decode_bytes (b : bytes) : run T := unwrap (fst (as_val (UntrustedRlp_new b))).
Definition decode_list (b : bytes) : run (list T) := unwrap (fst (as_list (UntrustedRlp_new b))).
End trusted.
