(* ===== verification/RlpCodecs.v ===== *)
(** * Codecs

    [Codec E D]: what an encoder and a decoder of a type promise each other.  A
    value is written as one RLP tree, [codec_item], whatever the state of the
    stream; the decoder gives the value back from a view on that tree.
    [SafeDecoder D P]: on a view with any bytes the decoder returns a value in
    [P] or an error, and leaves the caches of the view consistent. *)
From stdpp Require Import base list numbers strings.
From S2P Require Import Prelude Words Vm RlpStream RlpEncoding RlpDecode RlpDecoding RlpViews RlpImpls.

Class Codec {T} (E : Encodable T) (D : Decodable T) := {
  codec_ok : T -> Prop;
  codec_item : T -> item;
  codec_item_ok v : codec_ok v -> item_ok (codec_item v);
  codec_append v s : codec_ok v -> append s v = appended (codec_item v) s;
  codec_decode v : codec_ok v -> fst (decode (UntrustedRlp_new (rlp_enc (codec_item v)))) = Ok v;
}.

Class SafeDecoder {T} (D : Decodable T) (P : T -> Prop) :=
  safe_decode v : view_ok v -> wp (fst (decode v)) P any /\ requeried v (snd (decode v)).

Lemma appended_new it : (s ← appended it stream_new; drain s) = Ok (rlp_enc it).
Proof. by destruct it. Qed.

(** [rlp::decode] inverts [rlp::encode]. *)
Lemma codec_roundtrip {T} (E : Encodable T) (D : Decodable T) (C : Codec E D) v :
  codec_ok v -> (b ← encode v; decode_bytes b) = Ok v.
Proof.
  intros Hv. unfold encode. rewrite codec_append, appended_new by done. cbn [mbind outcome_bind].
  unfold decode_bytes, as_val. by rewrite codec_decode.
Qed.

(** ** [decode_value] *)
Lemma decode_value_wp {T} (f : bytes -> res T) P v :
  view_ok v -> (forall b, is_bytes b -> wp (f b) P any) -> wp (decode_value v f) P any.
Proof.
  intros [Hb _ _ _] Hf. unfold decode_value. destruct (rlp_raw v) as [|l raw] eqn:Hraw; [done|].
  assert (0 <= l < 256) by (by apply Forall_cons_iff in Hb as [? _]).
  destruct (Z.leb_spec l 0x7f). { apply Hf. constructor; [done|constructor]. }
  destruct (Z.leb_spec l 0xb7).
  { destruct (Z.ltb_spec (len (l :: raw)) (1 + l - 0x80)); [done|]. apply wp_bind.
    destruct (slice (l :: raw) 1 (1 + l - 0x80)) as [d| |] eqn:Hd; [|by rewrite slice_ok in Hd by lia..].
    pose proof (slice_len _ _ _ _ Hd) as Hdl. apply wp_bind. cbn [wpp].
    destruct (Z.eqb_spec l 0x81) as [->|].
    - destruct (index_exists (E := DecoderError) d 0) as (x & _ & ->); [lia|]. cbn [mbind outcome_bind wpp].
      destruct (x <? 0x80); [done|]. apply Hf. by eapply slice_Forall.
    - cbn [wpp]. apply Hf. by eapply slice_Forall. }
  destruct (Z.leb_spec l 0xbf); [|done].
  destruct (Z.ltb_spec (len (l :: raw)) (1 + (l - 0xb7))); [done|]. apply wp_bind.
  destruct (slice (l :: raw) 1 (1 + (l - 0xb7))) as [s| |] eqn:Hs; [|by rewrite slice_ok in Hs by lia..].
  pose proof (slice_len _ _ _ _ Hs) as Hsl. apply wp_bind.
  eapply wp_mono; [apply decode_usize_wp; [by eapply slice_Forall|lia]| |done]. intros n [Hn0 Hn1].
  destruct (Z.leb_spec (2 ^ 64) (1 + (l - 0xb7) + n)); [done|].
  destruct (Z.ltb_spec (len (l :: raw)) (1 + (l - 0xb7) + n)); [done|]. apply wp_bind.
  destruct (slice (l :: raw) _ (1 + (l - 0xb7) + n)) as [d| |] eqn:Hd; [|by rewrite slice_ok in Hd by lia..].
  apply Hf. by eapply slice_Forall.
Qed.

(** The slice between a header and the end. *)
Lemma slice_payload {E} (h p : bytes) : slice (E := E) (h ++ p) (len h) (len h + len p) = Ok p.
Proof.
  pose proof (len_nonneg h). pose proof (len_nonneg p). rewrite slice_ok by (rewrite ?len_app; lia).
  unfold len. rewrite Nat2Z.id, drop_app_length. f_equal. apply take_ge. lia.
Qed.

Lemma decode_value_long {T} (f : bytes -> res T) b :
  55 < len b < 2 ^ 32 -> decode_value (UntrustedRlp_new (enc_data b)) f = f b.
Proof.
  intros Hl. rewrite enc_data_long by lia. unfold header. rewrite (proj2 (Z.leb_gt _ _)) by lia.
  destruct (byte_len_spec (len b)) as [Hpos _]; [lia|]. pose proof (byte_len_u32 (len b)).
  unfold decode_value. cbn [rlp_raw UntrustedRlp_new app].
  rewrite (proj2 (Z.leb_gt _ 0x7f)), (proj2 (Z.leb_gt _ 0xb7)), (proj2 (Z.leb_le _ 0xbf)) by lia.
  rewrite !len_cons, !len_app, len_be_min by lia.
  replace (0xb7 + byte_len (len b) - 0xb7) with (byte_len (len b)) by lia.
  rewrite (proj2 (Z.ltb_ge _ _)) by lia.
  replace (slice (_ :: be_min (len b) ++ b) 1 (1 + byte_len (len b))) with (Ok (E := DecoderError) (be_min (len b))).
  2: { rewrite slice_ok by (rewrite ?len_cons, ?len_app, ?len_be_min; lia). change (Z.to_nat 1) with 1%nat. cbn [drop].
       rewrite drop_0, take_app_length'; [done|]. apply Nat2Z.inj. fold (len (be_min (len b))). rewrite len_be_min; lia. }
  cbn [mbind outcome_bind]. rewrite decode_usize_ok by lia. cbn [mbind outcome_bind].
  rewrite (proj2 (Z.leb_gt _ _)), (proj2 (Z.ltb_ge _ _)) by lia.
  pose proof (slice_payload (E := DecoderError) ((0xb7 + byte_len (len b)) :: be_min (len b)) b) as Hs.
  rewrite len_cons, len_be_min in Hs by lia. cbn [app] in Hs. by rewrite Hs.
Qed.

(** A view on encoded data decodes to the data. *)
Lemma decode_value_enc {T} (f : bytes -> res T) b :
  item_ok (Data b) -> decode_value (UntrustedRlp_new (enc_data b)) f = f b.
Proof.
  intros [Hb Hl]. destruct (Z.leb_spec (len b) 55) as [Hs|]; [|by apply decode_value_long].
  destruct b as [|x [|y b]].
  - done.
  - cbn [enc_data]. apply Forall_cons_iff in Hb as [Hx _]. assert (0 <= x < 256) by exact Hx.
    destruct (Z.ltb_spec x 0x80); unfold decode_value; cbn [rlp_raw UntrustedRlp_new].
    + by rewrite (proj2 (Z.leb_le _ _)) by lia.
    + change (header 0x80 0xb7 1 ++ [x]) with [0x81; x]. cbn [Z.leb Z.ltb Z.compare Pos.compare Pos.compare_cont].
      change (slice [0x81; x] 1 (1 + 0x81 - 0x80)) with (Ok (E := DecoderError) [x]). cbn [mbind outcome_bind].
      change (len [0x81; x] <? 1 + 0x81 - 0x80) with false. cbn [Z.eqb Pos.eqb].
      change (index [x] 0) with (Ok (E := DecoderError) x). cbn [mbind outcome_bind].
      by rewrite (proj2 (Z.ltb_ge _ _)) by lia.
  - set (b' := x :: y :: b) in *. assert (2 <= len b') by (unfold b'; rewrite !len_cons; pose proof (len_nonneg b); lia).
    rewrite enc_data_long by lia. unfold header. rewrite (proj2 (Z.leb_le _ _)) by lia.
    unfold decode_value. cbn [rlp_raw UntrustedRlp_new app].
    rewrite (proj2 (Z.leb_gt _ 0x7f)), (proj2 (Z.leb_le _ 0xb7)), len_cons by lia.
    rewrite (proj2 (Z.ltb_ge _ _)) by lia. pose proof (slice_payload (E := DecoderError) [0x80 + len b'] b') as Hsl.
    change (len [0x80 + len b']) with 1 in Hsl. cbn [app] in Hsl.
    replace (1 + (0x80 + len b') - 0x80) with (1 + len b') by lia. rewrite Hsl. cbn [mbind outcome_bind].
    by rewrite (proj2 (Z.eqb_neq _ _)) by lia.
Qed.

(** ** Data codecs *)
Lemma append_push {T} (E : Encodable T) v b s :
  (forall s, rlp_append v s = push_value b s) -> len b < 2 ^ 32 -> append s v = appended (Data b) s.
Proof.
  intros Hv Hb. unfold append. rewrite Hv. unfold push_value. cbn [buffer]. by rewrite encode_value_ok.
Qed.

Lemma be_min_byte x : 0 < x < 256 -> be_min x = [x].
Proof.
  intros Hx. destruct (be_min_head x) as (y & t & Hy & ?); [lia|].
  pose proof (be_min_to_Z x ltac:(lia)) as Hv. pose proof (byte_len_bound x 1 ltac:(lia) ltac:(lia)).
  pose proof (len_be_min x ltac:(lia)) as Hl. rewrite Hy in *. rewrite len_cons in Hl. pose proof (len_nonneg t).
  destruct t; [|rewrite len_cons in Hl; pose proof (len_nonneg t); lia].
  rewrite be_to_Z_cons in Hv. change (y * 1 + 0 = x) in Hv. f_equal. lia.
Qed.

Lemma be_min_len x size : in_u (8 * Z.of_nat size) x -> 0 <= len (be_min x) <= Z.of_nat size.
Proof. intros Hx. pose proof (byte_len_bound x (Z.of_nat size) ltac:(lia) Hx). rewrite len_be_min; lia. Qed.

Lemma data_ok b n : is_bytes b -> len b <= n -> n < 2 ^ 32 -> item_ok (Data b).
Proof. intros. split; [done|lia]. Qed.

#[export] Instance bool_codec : Codec bool_Encodable bool_Decodable.
Proof.
  refine {| codec_ok := fun _ => True; codec_item := fun b : bool => Data [if b then 1 else 0] |}.
  - intros [] _; split; (constructor; [done|constructor]) || done.
  - intros [] s _; by apply append_push.
  - intros [] _; reflexivity.
Defined.

#[export] Instance bytes_codec : Codec bytes_Encodable bytes_Decodable.
Proof.
  refine {| codec_ok := fun b : bytes => item_ok (Data b); codec_item := Data |}.
  - done.
  - intros b s [_ Hb]. by apply append_push.
  - intros b Hb. cbn [decode bytes_Decodable with_decoder fst rlp_enc]. by rewrite decode_value_enc.
Defined.

Lemma u8_value_be_min x : in_u 8 x -> u8_value (be_min x) = Ok x.
Proof.
  intros [Hx0 Hx1]. destruct (Z.eq_dec x 0) as [->|]; [done|]. rewrite be_min_byte by lia.
  cbn [u8_value]. by rewrite (proj2 (Z.eqb_neq x 0)) by done.
Qed.

#[export] Instance u8_codec : Codec u8_Encodable u8_Decodable.
Proof.
  refine {| codec_ok := in_u 8; codec_item := fun x => Data (be_min x) |}.
  - intros x Hx. pose proof (be_min_len x 1 Hx). apply (data_ok _ 1); [apply be_min_bytes|lia|lia].
  - intros x s Hx. pose proof (be_min_len x 1 Hx). apply append_push; [|lia]. intros s'.
    cbn [rlp_append u8_Encodable]. unfold u8_append. destruct (Z.eqb_spec x 0) as [->|]; [done|].
    cbn [negb]. rewrite be_min_byte by (destruct Hx; lia). done.
  - intros x Hx. pose proof (be_min_len x 1 Hx). cbn [decode u8_Decodable with_decoder fst rlp_enc].
    rewrite decode_value_enc by (apply (data_ok _ 1); [apply be_min_bytes|lia|lia]). by apply u8_value_be_min.
Defined.

(** Sizes of integers: between one and 32 bytes. *)
Class IntSize (size : nat) := int_size : (1 <= size <= 32)%nat.
#[export] Instance int_size_2 : IntSize 2. Proof. split; lia. Qed.
#[export] Instance int_size_4 : IntSize 4. Proof. split; lia. Qed.
#[export] Instance int_size_8 : IntSize 8. Proof. split; lia. Qed.
#[export] Instance int_size_16 : IntSize 16. Proof. split; lia. Qed.
#[export] Instance int_size_32 : IntSize 32. Proof. split; lia. Qed.

Section integers.
Context (size : nat) `{Hsize : IntSize size}.

Lemma int_item_ok x : in_u (8 * Z.of_nat size) x -> item_ok (Data (be_min x)).
Proof.
  intros Hx. pose proof (be_min_len x size Hx). destruct Hsize.
  apply (data_ok _ 32); [apply be_min_bytes|lia|lia].
Qed.

Lemma uN_push x s : in_u (8 * Z.of_nat size) x -> uN_append size x s = push_value (be_min x) s.
Proof. intros Hx. unfold uN_append. by rewrite (strip_leading x size Hx). Qed.

Lemma uN_value_be_min rlp x :
  in_u (8 * Z.of_nat size) x -> (forall T (f : bytes -> res T), decode_value rlp f = f (be_min x)) ->
  uN_value size rlp (be_min x) = Ok x.
Proof.
  intros Hx Hd. unfold uN_value. pose proof (be_min_len x size Hx). destruct Hx as [Hx0 Hx1].
  destruct (orb _ _) eqn:Hl.
  - cbn [decode u8_Decodable with_decoder fst]. rewrite Hd. apply u8_value_be_min.
    pose proof (be_min_to_Z x Hx0) as Hv. pose proof (be_to_Z_bound (be_min x) (be_min_bytes x)) as Hb.
    apply orb_true_iff in Hl as [Hl%Z.eqb_eq|Hl%Z.eqb_eq]; rewrite Hl, Hv in Hb; split; lia.
  - apply orb_false_iff in Hl as [Hl0%Z.eqb_neq Hl1%Z.eqb_neq].
    rewrite (proj2 (Z.leb_le _ _)) by lia.
    destruct (Z.eq_dec x 0) as [->|]; [done|]. destruct (be_min_head x) as (y & t & Hy & ?); [lia|].
    rewrite (index_ok _ _ y) by (done || by rewrite Hy). cbn [mbind outcome_bind].
    rewrite (proj2 (Z.eqb_neq y 0)), be_loop_all by (apply be_min_bytes || lia). by rewrite be_min_to_Z.
Qed.

#[export] Instance uN_codec : Codec (uN_Encodable size) (uN_Decodable size).
Proof.
  refine {| codec_ok := in_u (8 * Z.of_nat size); codec_item := fun x => Data (be_min x) |}.
  - apply int_item_ok.
  - intros x s Hx. apply append_push; [intros s'; by apply uN_push|]. by apply int_item_ok.
  - intros x Hx. pose proof (int_item_ok x Hx). cbn [decode uN_Decodable with_decoder fst rlp_enc].
    rewrite decode_value_enc by done. apply uN_value_be_min; [done|]. intros. by apply decode_value_enc.
Defined.

Lemma uint_push x s : in_u (8 * Z.of_nat size) x -> uint_append size x s = push_value (be_min x) s.
Proof.
  intros Hx. unfold uint_append. pose proof (byte_len_bound x (Z.of_nat size) ltac:(lia) Hx).
  assert (Hbits : (u256_bits x + 7) / 8 = byte_len x).
  { unfold u256_bits, byte_len. destruct (x =? 0); [done|].
    replace (Z.log2 x + 1 + 7) with (Z.log2 x + 1 * 8) by lia. by rewrite Z.div_add. }
  rewrite Hbits, sub_chk_ok by lia. cbn [mbind outcome_bind].
  rewrite <-leading_zero_bytes by (done || lia). by rewrite strip_leading.
Qed.

#[export] Instance uint_codec : Codec (uint_Encodable size) (uint_Decodable size).
Proof.
  refine {| codec_ok := in_u (8 * Z.of_nat size); codec_item := fun x => Data (be_min x) |}.
  - apply int_item_ok.
  - intros x s Hx. apply append_push; [intros s'; by apply uint_push|]. by apply int_item_ok.
  - intros x Hx. pose proof (int_item_ok x Hx). cbn [decode uint_Decodable with_decoder fst rlp_enc].
    rewrite decode_value_enc by done. unfold uint_value. pose proof (be_min_len x size Hx). destruct Hx as [Hx0 Hx1].
    destruct (Z.eq_dec x 0) as [->|]; [done|]. destruct (be_min_head x) as (y & t & Hy & ?); [lia|].
    pose proof (be_min_to_Z x Hx0) as Hv. rewrite Hy in *.
    rewrite (proj2 (Z.eqb_neq y 0)), (proj2 (Z.leb_le _ _)) by lia. by rewrite Hv.
Defined.
End integers.

#[export] Instance usize_codec : Codec usize_Encodable usize_Decodable := uN_codec 8.

#[export] Instance hash_codec (size : Z) : Codec hash_Encodable (hash_Decodable size).
Proof.
  refine {| codec_ok := fun h => item_ok (Data h) /\ len h = size; codec_item := Data |}.
  - by intros h [? ?].
  - intros h s [[_ Hh] _]. by apply append_push.
  - intros h [Hok <-]. cbn [decode hash_Decodable with_decoder fst rlp_enc]. rewrite decode_value_enc by done.
    unfold hash_value. rewrite Z.compare_refl. pose proof (len_nonneg h).
    rewrite copy_from_slice_ok by (rewrite ?len_replicate; lia). unfold splice. f_equal.
    change (Z.to_nat 0) with 0%nat. rewrite take_0, drop_ge; [by rewrite app_nil_r|].
    rewrite length_replicate. unfold len in *. lia.
Defined.

#[export] Instance CallType_codec : Codec CallType_Encodable CallType_Decodable.
Proof.
  refine {| codec_ok := fun _ => True; codec_item := fun c => Data (be_min (call_type_code c)) |}.
  - intros c _. apply (int_item_ok 4). by destruct c.
  - intros c s _. apply append_push; [|by destruct c]. intros s'. apply (uN_push 4). by destruct c.
  - intros [] _; reflexivity.
Defined.

(** ** Composite codecs *)
Section composite.
Context {T : Type} {E : Encodable T} {D : Decodable T} `{C : !Codec E D}.

Lemma append_codec v s : codec_ok v -> append s v = append s (codec_item v).
Proof. intros Hv. rewrite codec_append by done. by rewrite append_item by (by apply codec_item_ok). Qed.

Lemma append_list_codec vs s : Forall codec_ok vs -> append_list s vs = append_list s (map codec_item vs).
Proof.
  intros Hvs. unfold append_list. replace (len (map codec_item vs)) with (len vs) by (unfold len; by rewrite length_map).
  destruct (begin_list s (len vs)) as [s1| |]; [|done..]. cbn [mbind outcome_bind]. revert s1.
  induction Hvs as [|v vs Hv Hvs IH]; intros s1; [done|]. cbn [map append_all]. rewrite append_codec by done.
  destruct (append s1 (codec_item v)) as [s2| |]; [|done..]. apply IH.
Qed.

Lemma list_items_ok vs :
  Forall codec_ok vs -> len (concat (map rlp_enc (map codec_item vs))) < 2 ^ 32 -> item_ok (List (map codec_item vs)).
Proof.
  intros Hvs Hlen. apply item_ok_list. split; [|done]. apply Forall_map.
  eapply Forall_impl; [exact Hvs|]. intros v. apply codec_item_ok.
Qed.

Lemma append_items l s :
  item_ok (List l) -> append_list s l = closed (note_appended (unfinished_lists s) (buffer s ++ rlp_enc (List l)) false 1).
Proof.
  intros [Hl Hlen]%item_ok_list. apply append_list_ok; [|done].
  eapply Forall_impl; [exact Hl|]. intros it Hit s'. by apply append_item.
Qed.

Lemma decode_all_codec vs :
  Forall codec_ok vs -> decode_all (map (fun it => UntrustedRlp_new (rlp_enc it)) (map codec_item vs)) = Ok vs.
Proof.
  induction 1 as [|v vs Hv Hvs IH]; [done|]. cbn [map decode_all]. rewrite codec_decode by done.
  cbn [mbind outcome_bind]. by rewrite IH.
Qed.

Lemma as_list_codec vs :
  Forall codec_ok vs -> item_ok (List (map codec_item vs)) ->
  fst (as_list (UntrustedRlp_new (rlp_enc (List (map codec_item vs))))) = Ok vs.
Proof.
  intros Hvs Hok. destruct (as_list_ok _ _ (view_enc _ Hok) (elements_enc _ Hok)) as (v' & -> & _).
  by apply decode_all_codec.
Qed.

#[export] Instance option_codec : Codec (option_Encodable E) (option_Decodable D).
Proof.
  refine {| codec_ok := fun o => match o with Some v => codec_ok v /\ len (rlp_enc (codec_item v)) < 2 ^ 32 | None => True end;
            codec_item := fun o => List (match o with Some v => [codec_item v] | None => [] end) |}.
  - intros [v|]; [|done]. intros [Hv Hl]. apply (list_items_ok [v]); [by constructor|]. cbn [map concat]. by rewrite app_nil_r.
  - intros [v|] s.
    + intros [Hv Hl]. assert (Hok : item_ok (List [codec_item v])).
      { apply (list_items_ok [v]); [by constructor|]. cbn [map concat]. by rewrite app_nil_r. }
      pose proof (append_items [codec_item v] (mkStream (unfinished_lists s) (buffer s) false) Hok) as Ha.
      rewrite <-(append_list_codec [v]) in Ha by (by constructor).
      assert (Hr : rlp_append (Some v) (mkStream (unfinished_lists s) (buffer s) false) =
                   append_list (mkStream (unfinished_lists s) (buffer s) false) [v]).
      { cbn [rlp_append option_Encodable option_append]. unfold append_list. change (len [v]) with 1.
        destruct (begin_list _ 1) as [s1| |]; [|done..]. cbn [mbind outcome_bind append_all].
        by destruct (append s1 v). }
      unfold append. rewrite Hr, Ha. unfold appended. cbn [unfinished_lists buffer].
      by destruct (note_appended _ _ false 1).
    + intros _. unfold append, appended. cbn [rlp_append option_Encodable option_append]. unfold begin_list.
      cbn [Z.eqb unfinished_lists buffer]. change (rlp_enc (List [])) with [0xc0].
      by destruct (note_appended _ _ false 1).
  - intros [v|]; [|done]. intros [Hv Hl]. assert (Hok : item_ok (List [codec_item v])).
    { apply (list_items_ok [v]); [by constructor|]. cbn [map concat]. by rewrite app_nil_r. }
    cbn [decode option_Decodable]. unfold option_decode.
    destruct (item_count_ok _ _ (view_enc _ Hok) (enc_list_is_list _ Hok) (elements_enc _ Hok)) as (v1 & -> & Hv1 & Hraw).
    change (len (map _ [codec_item v]) =? 1) with true. cbn [Z.eqb].
    destruct (val_at_ok v1 0 Hv1) as (v2 & -> & _); [done|]. rewrite Hraw. cbn [rlp_raw UntrustedRlp_new].
    rewrite at_ref_enc by done. change ([codec_item v] !! Z.to_nat 0) with (Some (codec_item v)).
    cbn [mbind outcome_bind]. by rewrite codec_decode.
Defined.
End composite.

(** ** Decoders on arbitrary bytes *)
Lemma requeried_refl v : view_ok v -> requeried v v.
Proof. done. Qed.

Lemma safe_with_decoder {T} (f : UntrustedRlp -> bytes -> res T) P :
  (forall v b, view_ok v -> is_bytes b -> wp (f v b) P any) -> SafeDecoder (with_decoder f) P.
Proof.
  intros Hf v Hv. split; [|done]. cbn [decode with_decoder fst]. apply decode_value_wp; [done|]. intros b Hb. by apply Hf.
Qed.

#[export] Instance bool_safe : SafeDecoder bool_Decodable any.
Proof.
  apply safe_with_decoder. intros _ b _ Hb. unfold bool_value. destruct (len b =? 0); [done|].
  destruct (Z.eqb_spec (len b) 1); [|done]. by destruct (index_exists (E := DecoderError) b 0) as (x & _ & ->); [lia|].
Qed.

#[export] Instance bytes_safe : SafeDecoder bytes_Decodable is_bytes.
Proof. by apply safe_with_decoder. Qed.

#[export] Instance u8_safe : SafeDecoder u8_Decodable (in_u 8).
Proof.
  apply safe_with_decoder. intros _ b _ Hb. destruct b as [|x [|y b]]; [done| |done].
  cbn [u8_value]. apply Forall_cons_iff in Hb as [Hx _]. by destruct (negb _).
Qed.

#[export] Instance uN_safe size `{!IntSize size} : SafeDecoder (uN_Decodable size) (in_u (8 * Z.of_nat size)).
Proof.
  apply safe_with_decoder. intros v b Hv Hb. unfold uN_value. unfold IntSize in *. destruct (orb _ _) eqn:Hl.
  - destruct (u8_safe v Hv) as [Hw _]. eapply wp_mono; [exact Hw| |done]. intros x. apply in_u_le. lia.
  - apply orb_false_iff in Hl as [Hl0%Z.eqb_neq Hl1%Z.eqb_neq]. destruct (Z.leb_spec (len b) (Z.of_nat size)); [|done].
    pose proof (len_nonneg b). destruct (index_exists (E := DecoderError) b 0) as (x & _ & ->); [lia|].
    cbn [mbind outcome_bind]. destruct (x =? 0); [done|]. rewrite be_loop_all by (done || lia).
    pose proof (be_to_Z_bound b Hb) as Hlt. rewrite pow256 in Hlt by lia. apply (in_u_le (8 * len b)); [lia|exact Hlt].
Qed.

#[export] Instance hash_safe size : SafeDecoder (hash_Decodable size) (fun h => is_bytes h /\ len h = size).
Proof.
  apply safe_with_decoder. intros _ b _ Hb. unfold hash_value. destruct (Z.compare_spec (len b) size) as [<-| |]; [|done..].
  pose proof (len_nonneg b). rewrite copy_from_slice_ok by (rewrite ?len_replicate; lia).
  split; [|rewrite len_splice by (rewrite ?len_replicate; lia); rewrite len_replicate; lia].
  apply Forall_splice; [|done]. by apply Forall_replicate.
Qed.

#[export] Instance uint_safe size `{!IntSize size} : SafeDecoder (uint_Decodable size) (in_u (8 * Z.of_nat size)).
Proof.
  apply safe_with_decoder. intros _ b _ Hb. pose proof (be_to_Z_bound b Hb) as Hlt.
  pose proof (len_nonneg b). rewrite pow256 in Hlt by lia. unfold uint_value.
  destruct b as [|x b]; [apply in_u_0; lia|]. destruct (x =? 0); [done|].
  destruct (Z.leb_spec (len (x :: b)) (Z.of_nat size)); [|done]. apply (in_u_le (8 * len (x :: b))); [lia|exact Hlt].
Qed.

#[export] Instance CallType_safe : SafeDecoder CallType_Decodable any.
Proof.
  intros v Hv. cbn [decode CallType_Decodable]. unfold CallType_decode, as_val.
  destruct (uN_safe 4 v Hv) as [Hw Hr]. destruct (@decode _ (uN_Decodable 4) v) as [r v'].
  split; [|done]. cbn [fst] in *. destruct r as [x| |]; [|done..]. cbn [mbind outcome_bind].
  by repeat destruct (x =? _).
Qed.

(** The element found by [at] is a consistent view. *)
Lemma at_ref_view v i : view_ok v -> 0 <= i -> wp (at_ref (rlp_raw v) i) view_ok any.
Proof.
  intros [Hb Hl _ _] Hi. eapply wp_mono; [by apply at_ref_wp| |done]. intros r (_ & b & -> & Hb' & Hl').
  apply view_new; [done|lia].
Qed.

Lemma elements_views raw i l : is_bytes raw -> len raw < 2 ^ 63 -> 0 <= i -> elements raw i l -> Forall view_ok l.
Proof.
  intros Hb Hlen Hi Hl. induction Hl as [|i r l Hr Hl IH]; [constructor|]. constructor; [|apply IH; lia].
  pose proof (at_ref_view (UntrustedRlp_new raw) i (view_new raw Hb Hlen) Hi) as Hw.
  cbn [rlp_raw UntrustedRlp_new] in Hw. by rewrite Hr in Hw.
Qed.

Section safe_composite.
Context {T : Type} {D : Decodable T} (P : T -> Prop) `{S : !SafeDecoder D P}.

Lemma as_list_safe v : view_ok v -> wp (fst (as_list v)) (Forall P) any /\ requeried v (snd (as_list v)).
Proof.
  intros Hv. destruct (elements_exist v Hv) as [l Hl]. destruct (as_list_ok v l Hv Hl) as (v' & -> & Hr).
  split; [|done]. cbn [fst]. apply elements_views in Hl; [|by destruct Hv..|lia].
  induction Hl as [|r l Hr' Hl IH]; [constructor|]. cbn [decode_all]. apply wp_bind.
  eapply wp_mono; [by apply S| |done]. intros x Hx. apply wp_bind. eapply wp_mono; [exact IH| |done].
  intros xs Hxs. by constructor.
Qed.

Lemma val_at_safe v i :
  view_ok v -> 0 <= i < usize_max -> wp (fst (val_at v i)) P any /\ requeried v (snd (val_at v i)).
Proof.
  intros Hv Hi. destruct (val_at_ok v i Hv Hi) as (v' & -> & Hr). split; [|done]. cbn [fst]. apply wp_bind.
  eapply wp_mono; [by apply at_ref_view; [|lia]| |done]. intros r Hr'. by apply S.
Qed.

Lemma requeried_trans v1 v2 v3 : requeried v1 v2 -> requeried v2 v3 -> requeried v1 v3.
Proof. intros [? ?] [? ?]. split; [done|congruence]. Qed.

#[export] Instance option_safe : SafeDecoder (option_Decodable D) (fun o => match o with Some v => P v | None => True end).
Proof.
  intros v Hv. cbn [decode option_Decodable]. unfold option_decode.
  destruct (is_list v) eqn:Hl; [|by unfold item_count; rewrite Hl].
  destruct (elements_exist v Hv) as [l Hel].
  destruct (item_count_ok v l Hv Hl Hel) as (v1 & -> & Hr1). destruct (len l =? 1).
  - destruct (val_at_safe v1 0) as [Hw Hr2]; [apply Hr1|done|]. destruct (val_at v1 0) as [r v2].
    split; [|by eapply requeried_trans]. cbn [fst] in *. by destruct r.
  - by destruct (len l =? 0).
Qed.
End safe_composite.
