(* ===== verification/RlpCanonical.v ===== *)
(** * Unique encodings

    The encoding of trees is prefix-free, so a tree is determined by its bytes;
    integer decoders accept a payload only when it is the minimal big-endian
    representation of the number they return. *)
From stdpp Require Import base list numbers strings.
From S2P Require Import Prelude Words Vm RlpStream RlpEncoding RlpDecode RlpDecoding RlpViews RlpImpls RlpCodecs.

(** ** Trees *)
Lemma enc_data_not_list b : item_ok (Data b) -> is_list (UntrustedRlp_new (rlp_enc (Data b))) = false.
Proof.
  intros [Hb Hl]. pose proof (len_nonneg b). pose proof (byte_len_u32 (len b)).
  assert (Hh : forall p, is_list (UntrustedRlp_new (header 0x80 0xb7 (len b) ++ p)) = false).
  { intros p. unfold is_list, header. cbn [rlp_raw UntrustedRlp_new].
    destruct (Z.leb_spec (len b) 55); cbn [app]; apply Z.leb_gt; lia. }
  destruct b as [|x [|y b]]; cbn [rlp_enc enc_data]; try apply Hh.
  destruct (Z.ltb_spec x 0x80); [|apply (Hh [x])]. apply Z.leb_gt. lia.
Qed.

Lemma rlp_enc_app_inv it1 it2 r1 r2 :
  item_ok it1 -> item_ok it2 -> rlp_enc it1 ++ r1 = rlp_enc it2 ++ r2 ->
  rlp_enc it1 = rlp_enc it2 /\ payload it1 = payload it2 /\ r1 = r2.
Proof.
  intros H1 H2 Heq. pose proof (payload_info_enc it1 r1 H1) as P1. rewrite Heq, payload_info_enc in P1 by done.
  simplify_eq. assert (Hh : length (header_of it1) = length (header_of it2)) by (unfold len in *; lia).
  assert (Hp : length (payload it1) = length (payload it2)) by (unfold len in *; lia).
  rewrite !rlp_enc_split in *. apply app_inj_1 in Heq as [Heq ->]; [|by rewrite !length_app, Hh, Hp].
  rewrite Heq. apply app_inj_1 in Heq as [_ ->]; done.
Qed.

Lemma rlp_enc_inj it1 it2 : item_ok it1 -> item_ok it2 -> rlp_enc it1 = rlp_enc it2 -> it1 = it2.
Proof.
  revert it2. induction it1 as [b1|l1 IH] using item_ind'; intros [b2|l2] H1 H2 Heq.
  - destruct (rlp_enc_app_inv (Data b1) (Data b2) [] [] H1 H2) as (_ & Hp & _); [by rewrite !app_nil_r|].
    by rewrite (Hp : b1 = b2).
  - pose proof (enc_data_not_list b1 H1) as Hn. by rewrite Heq, enc_list_is_list in Hn.
  - pose proof (enc_data_not_list b2 H2) as Hn. by rewrite <-Heq, enc_list_is_list in Hn.
  - destruct (rlp_enc_app_inv (List l1) (List l2) [] [] H1 H2) as (_ & Hp & _); [by rewrite !app_nil_r|].
    cbn [payload] in Hp. f_equal. apply item_ok_list in H1 as [H1 _], H2 as [H2 _]. clear Heq.
    revert l2 H2 Hp. induction IH as [|i l1 Hi IH IHl]; intros [|j l2] H2 Hp; cbn [map concat] in Hp; [done| | |].
    + pose proof (rlp_enc_nonempty j) as Hj. apply (f_equal len) in Hp. rewrite len_app in Hp.
      change (len (@nil Z)) with 0 in Hp. pose proof (len_nonneg (concat (map rlp_enc l2))). lia.
    + pose proof (rlp_enc_nonempty i) as Hj. apply (f_equal len) in Hp. rewrite len_app in Hp.
      change (len (@nil Z)) with 0 in Hp. pose proof (len_nonneg (concat (map rlp_enc l1))). lia.
    + apply Forall_cons_iff in H1 as [Hi1 H1], H2 as [Hj2 H2].
      destruct (rlp_enc_app_inv i j _ _ Hi1 Hj2 Hp) as (He & _ & Hr). f_equal; [by apply Hi|by apply IHl].
Qed.

(** ** Numbers *)
Lemma byte_len_unique n k : 0 < k -> 256 ^ (k - 1) <= n < 256 ^ k -> byte_len n = k.
Proof.
  intros Hk [Hlo Hhi]. assert (0 < 256 ^ (k - 1)) by (apply Z.pow_pos_nonneg; lia).
  destruct (byte_len_spec n) as [Hb [Hblo Hbhi]]; [lia|].
  destruct (Z.lt_trichotomy (byte_len n) k) as [Hlt|[?|Hgt]]; [|done|].
  - assert (256 ^ byte_len n <= 256 ^ (k - 1)) by (apply Z.pow_le_mono_r; lia). lia.
  - assert (256 ^ k <= 256 ^ (byte_len n - 1)) by (apply Z.pow_le_mono_r; lia). lia.
Qed.

Lemma be_min_unique x b : is_bytes (x :: b) -> x <> 0 -> be_min (be_to_Z (x :: b)) = x :: b.
Proof.
  intros Hb Hx. assert (0 <= x < 256) by (by apply Forall_cons_iff in Hb as [? _]).
  pose proof (be_to_Z_bound _ Hb) as Hhi. rewrite len_cons in Hhi. pose proof (len_nonneg b).
  assert (byte_len (be_to_Z (x :: b)) = len (x :: b)) as Hl.
  { rewrite len_cons. apply byte_len_unique; [lia|]. split; [|lia].
    replace (1 + len b - 1) with (len b) by lia. rewrite be_to_Z_cons.
    apply Forall_cons_iff in Hb as [_ Hb]. pose proof (be_to_Z_bound b Hb).
    assert (0 < 256 ^ len b) by (apply Z.pow_pos_nonneg; lia). nia. }
  unfold be_min. rewrite Hl. unfold len. rewrite Nat2Z.id. by apply Z_to_be_to_Z.
Qed.

(** ** What a successful [decode_value] has read: the data of the view *)
Lemma data_of raw h n :
  PayloadInfo_from raw = Ok (mkPayload h n) -> 0 <= h -> 0 <= n -> h + n <= len raw -> len raw < 2 ^ 63 ->
  data (UntrustedRlp_new raw) = slice raw h (h + n).
Proof.
  intros Hp Hh Hn Hle Hlen. unfold data, payload_info. cbn [rlp_raw UntrustedRlp_new]. rewrite Hp.
  cbn [mbind outcome_bind header_len value_len].
  rewrite (proj2 (Z.ltb_lt _ _)), (proj2 (Z.leb_le _ _)) by lia. cbn [andb mbind outcome_bind header_len value_len].
  by rewrite add_chk_ok by lia.
Qed.

Lemma decode_value_long_inv {T} (f : bytes -> res T) l raw x :
  is_bytes (l :: raw) -> len (l :: raw) < 2 ^ 63 -> 0xb8 <= l <= 0xbf ->
  decode_value (UntrustedRlp_new (l :: raw)) f = Ok x ->
  exists b, data (UntrustedRlp_new (l :: raw)) = Ok b /\ is_bytes b /\ f b = Ok x.
Proof.
  intros Hb Hlen Hl. unfold decode_value. cbn [rlp_raw UntrustedRlp_new].
  rewrite (proj2 (Z.leb_gt l 0x7f)), (proj2 (Z.leb_gt l 0xb7)), (proj2 (Z.leb_le l 0xbf)) by lia.
  destruct (Z.ltb_spec (len (l :: raw)) (1 + (l - 0xb7))) as [|Hge]; [done|].
  intros (s & Hs & (n & Hn & Hrest)%bind_ok)%bind_ok.
  destruct (Z.leb_spec (2 ^ 64) (1 + (l - 0xb7) + n)); [done|].
  destruct (Z.ltb_spec (len (l :: raw)) (1 + (l - 0xb7) + n)); [done|].
  apply bind_ok in Hrest as (b & Hsl & Hf). exists b.
  pose proof (slice_len _ _ _ _ Hs). pose proof (slice_Forall _ _ _ _ _ Hb Hs) as Hsb.
  pose proof (wp_ok _ _ _ _ _ (decode_usize_wp s Hsb ltac:(lia)) Hn) as [Hn0 _].
  split; [|split; [exact (slice_Forall _ _ _ _ _ Hb Hsl)|done]]. rewrite <-Hsl. apply data_of; try lia.
  unfold PayloadInfo_from. rewrite (proj2 (Z.leb_gt l 0x7f)), (proj2 (Z.leb_gt l 0xb7)), (proj2 (Z.leb_le l 0xbf)) by lia.
  unfold calculate_payload_info. rewrite (proj2 (Z.ltb_ge _ _)), Hs by lia. cbn [mbind outcome_bind]. rewrite Hn.
  (* the first byte of the length is not zero, or [decode_usize] had failed *)
  destruct raw as [|r0 raw]; [change (len [l]) with 1 in Hge; lia|]. cbn [lookup list_lookup].
  destruct (Z.eq_dec r0 0) as [->|]; [|by destruct r0]. exfalso.
  rewrite slice_ok in Hs by lia. change (Z.to_nat 1) with 1%nat in Hs. cbn [drop] in Hs.
  destruct (Z.to_nat (1 + (l - 183) - 1)) eqn:Hk; [lia|]. injection Hs as <-. unfold decode_usize in Hn.
  destruct (_ <=? 8); [|done]. by change (index (0 :: take n0 raw) 0) with (Ok (E := DecoderError) 0) in Hn.
Qed.

Lemma decode_value_data {T} (f : bytes -> res T) v x :
  view_ok v -> decode_value v f = Ok x -> exists b, data v = Ok b /\ is_bytes b /\ f b = Ok x.
Proof.
  intros [Hb Hlen _ _]. change (data v) with (data (UntrustedRlp_new (rlp_raw v))).
  change (decode_value v f) with (decode_value (UntrustedRlp_new (rlp_raw v)) f).
  destruct (rlp_raw v) as [|l raw]; [done|]. pose proof (len_nonneg raw).
  assert (0 <= l < 256) as Hl by (by apply Forall_cons_iff in Hb as [? _]).
  destruct (Z.leb_spec 0xb8 l) as [Hlong|Hshort].
  { destruct (Z.leb_spec l 0xbf); [by apply decode_value_long_inv|]. unfold decode_value. cbn [rlp_raw UntrustedRlp_new].
    by rewrite (proj2 (Z.leb_gt l 0x7f)), (proj2 (Z.leb_gt l 0xb7)), (proj2 (Z.leb_gt l 0xbf)) by lia. }
  unfold decode_value. cbn [rlp_raw UntrustedRlp_new]. destruct (Z.leb_spec l 0x7f) as [Hs|Hs].
  - intros Hf. exists [l]. split_and!; [|by constructor; [|constructor]|done].
    rewrite (data_of _ 0 1); [|unfold PayloadInfo_from; by rewrite (proj2 (Z.leb_le l 0x7f)) by lia|rewrite ?len_cons in *; lia..].
    rewrite slice_ok by (rewrite ?len_cons; lia). cbn. by rewrite ?take_0.
  - rewrite (proj2 (Z.leb_le l 0xb7)) by lia.
    destruct (Z.ltb_spec (len (l :: raw)) (1 + l - 0x80)); [done|].
    intros (d & Hd & (bad & _ & Hf)%bind_ok)%bind_ok. destruct bad; [done|].
    exists d. split_and!; [|by eapply slice_Forall|done]. rewrite (data_of _ 1 (l - 0x80)); [|unfold PayloadInfo_from|lia..].
    { by replace (1 + (l - 0x80)) with (1 + l - 0x80) by lia. }
    by rewrite (proj2 (Z.leb_gt l 0x7f)), (proj2 (Z.leb_le l 0xb7)) by lia.
Qed.

(** ** Integer payloads *)
Lemma u8_value_canonical b x : is_bytes b -> u8_value b = Ok x -> b = be_min x.
Proof.
  intros Hb. destruct b as [|y [|z b]]; cbn [u8_value]; [by intros [= <-]| |done].
  destruct (Z.eqb_spec y 0) as [|Hy]; [done|]. intros [= <-]. by rewrite be_min_byte by (apply Forall_cons_iff in Hb as [[] _]; lia).
Qed.

Lemma uN_value_canonical size v b x :
  view_ok v -> data v = Ok b -> is_bytes b -> Z.of_nat size <= 32 -> uN_value size v b = Ok x -> b = be_min x.
Proof.
  intros Hv Hd Hb Hsize. unfold uN_value. destruct (orb _ _) eqn:Hl.
  - cbn [decode u8_Decodable with_decoder fst]. intros Hx. destruct (decode_value_data _ _ _ Hv Hx) as (b' & Hd' & Hb' & Hu).
    rewrite Hd in Hd'. injection Hd' as <-. by apply u8_value_canonical.
  - destruct (Z.leb_spec (len b) (Z.of_nat size)); [|done]. intros (b0 & Hi & Hx)%bind_ok.
    destruct b as [|y b]; [done|]. change (index (y :: b) 0) with (Ok (E := DecoderError) y) in Hi. injection Hi as <-.
    destruct (Z.eqb_spec y 0); [done|]. rewrite be_loop_all in Hx by (done || lia). injection Hx as <-.
    by rewrite be_min_unique.
Qed.

Lemma uint_value_canonical size b x : is_bytes b -> uint_value size b = Ok x -> b = be_min x.
Proof.
  intros Hb. destruct b as [|y b]; cbn [uint_value]; [by intros [= <-]|].
  destruct (Z.eqb_spec y 0); [done|]. destruct (_ <=? _); [|done]. intros [= <-]. by rewrite be_min_unique.
Qed.
