(* ===== verification/RlpTheorems.v ===== *)
(** * RLP: the properties of the library

    The stream computes the reference encoding; encodings are unique; views
    answer the same with and without their caches and never leave their slice;
    the typed encoders and decoders are inverse to each other and total. *)
From stdpp Require Import base list numbers strings.
From S2P Require Import Prelude Words Vm RlpStream RlpEncoding RlpDecode RlpDecoding RlpViews RlpImpls RlpCodecs RlpCanonical.

(** ["cat", ["dog", ""], 1024] *)
Definition sample : item := List [Data [99; 97; 116]; List [Data [100; 111; 103]; Data []]; Data [4; 0]].

Ltac solve_bytes := repeat first [apply Forall_nil_2 | apply Forall_cons_2; [split; reflexivity || discriminate|]].
Ltac solve_item_ok := cbn [item_ok sample foldr]; repeat (done || split || solve_bytes).

(** ** Encoding *)

(** C24: appending an RLP tree, at any point of any stream, writes exactly its
    reference encoding at the end of the buffer and counts as one item of the
    innermost open list: the lists it completes are closed with the right
    prefix, however deep.  Stated for every tree whose payloads are below 4 GiB. *)
Theorem stream_append_reference (it : item) (s : RlpStream) :
  item_ok it ->
  append s it =
    (let r := note_appended (unfinished_lists s) (buffer s ++ rlp_enc it) false 1 in
     match it with Data _ => r | List _ => closed r end).
Proof. intros Hok. by rewrite append_item. Qed.

Lemma stream_append_reference_witness :
  append (mkStream [mkListInfo 1 1 (Some 2)] [0; 5] false) sample =
    (let r := note_appended [mkListInfo 1 1 (Some 2)] ([0; 5] ++ rlp_enc sample) false 1 in closed r).
Proof. apply (stream_append_reference sample (mkStream [mkListInfo 1 1 (Some 2)] [0; 5] false)). solve_item_ok. Defined.

(** [rlp::encode] of a tree returns its reference encoding, and
    [encode_list] of a list of trees the encoding of the list. *)
Theorem encode_reference (it : item) (l : list item) :
  item_ok it -> item_ok (List l) -> encode it = Ok (rlp_enc it) /\ encode_list l = Ok (rlp_enc (List l)).
Proof.
  intros Hit Hl. unfold encode, encode_list. rewrite append_item, append_items by done. by destruct it.
Qed.

Lemma encode_reference_witness :
  encode sample = Ok (rlp_enc sample) /\ encode_list [sample; Data [7]] = Ok (rlp_enc (List [sample; Data [7]])).
Proof. apply (encode_reference sample [sample; Data [7]]); solve_item_ok. Defined.

(** A list of unknown length, opened with [begin_unbounded_list], filled
    and closed with [complete_unbounded_list], leaves the bytes of the list of
    known length. *)
Theorem unbounded_list_reference (l : list item) (s : RlpStream) :
  item_ok (List l) ->
  exists f, (s1 ← append_all (begin_unbounded_list s) l; complete_unbounded_list s1) =
    note_appended (unfinished_lists s) (buffer s ++ rlp_enc (List l)) f 1.
Proof.
  intros [Hl Hlen]%item_ok_list. unfold begin_unbounded_list, ListInfo_new. rewrite len_app. change (len [0]) with 1.
  pose proof (len_concat_ge l). destruct (unbounded_append_all l (unfinished_lists s) (buffer s) Hl 0 [] false) as [f Hf]; [done|lia|].
  exists f. rewrite Hf. cbn [mbind outcome_bind app]. rewrite complete_unbounded_ok by done. done.
Qed.

Lemma unbounded_list_reference_witness :
  exists f, (s1 ← append_all (begin_unbounded_list stream_new) [sample; Data [7]]; complete_unbounded_list s1) =
    note_appended [] ([] ++ rlp_enc (List [sample; Data [7]])) f 1.
Proof. apply (unbounded_list_reference [sample; Data [7]] stream_new). solve_item_ok. Defined.

(** C25: two different trees, with payloads below 4 GiB, never have the same
    bytes, and no encoding is a proper prefix of another. *)
Theorem encode_injective (it1 it2 : item) (r1 r2 : bytes) :
  item_ok it1 -> item_ok it2 ->
  (b1 ← encode it1; Ok (b1 ++ r1)) = (b2 ← encode it2; Ok (b2 ++ r2)) -> it1 = it2 /\ r1 = r2.
Proof.
  intros H1 H2. unfold encode. rewrite !append_item by done.
  intros Heq. assert (rlp_enc it1 ++ r1 = rlp_enc it2 ++ r2) as Hr by (destruct it1, it2; by injection Heq).
  destruct (rlp_enc_app_inv _ _ _ _ H1 H2 Hr) as (He & _ & ->). split; [|done]. by apply rlp_enc_inj.
Qed.

Lemma encode_injective_witness : List [Data [5]] = List [Data [5]] /\ [1] = [1].
Proof. apply (encode_injective (List [Data [5]]) (List [Data [5]]) [1] [1]); [solve_item_ok..|reflexivity]. Defined.

(** ** Views *)

(** The header of any byte string is parsed without a panic, and the item it
    announces is not empty and lies inside the string. *)
Theorem payload_info_in_bounds (b : bytes) :
  is_bytes b ->
  payload_info b <> Panic /\
  forall p, payload_info b = Ok p -> 0 <= header_len p /\ 0 <= value_len p /\ 1 <= header_len p + value_len p <= len b.
Proof.
  intros Hb. split; [by eapply wp_no_panic, payload_info_wp|].
  intros p Hp. destruct (payload_info_fits b p Hb Hp) as (? & ? & ? & ?). done.
Qed.

Lemma payload_info_in_bounds_witness :
  payload_info [0xbf; 0xff; 0xff] <> Panic /\
  forall p, payload_info [0xbf; 0xff; 0xff] = Ok p ->
    0 <= header_len p /\ 0 <= value_len p /\ 1 <= header_len p + value_len p <= len [0xbf; 0xff; 0xff].
Proof. apply (payload_info_in_bounds [0xbf; 0xff; 0xff]). solve_bytes. Defined.

(** C26: the offset cache is transparent for every index below [usize::MAX]: [at]
    on a view that has answered any queries gives what it gives on a fresh view
    of the same bytes, well-formed or not, and leaves caches that are consistent
    again.  The index [usize::MAX] is left out: a fresh cache holds it as the mark
    of no entry, so that a fresh view answers with the list itself, see
    [largest_index_is_the_list]. *)
Theorem at_cache_transparent (v : UntrustedRlp) (i : Z) :
  view_ok v -> 0 <= i < usize_max ->
  fst (at_index v i) = fst (at_index (UntrustedRlp_new (rlp_raw v)) i) /\
  view_ok (snd (at_index v i)) /\ rlp_raw (snd (at_index v i)) = rlp_raw v.
Proof.
  intros Hv Hi. destruct (at_index_view v i Hv Hi) as (v1 & -> & [Hv1 Hr1] & _).
  destruct (at_index_view (UntrustedRlp_new (rlp_raw v)) i) as (v2 & -> & _); [|done|done].
  destruct Hv. by apply view_new.
Qed.

(** A view on [["cat", "dog"]] that has been asked for the second element. *)
Definition cat_dog : bytes := [0xc8; 0x83; 99; 97; 116; 0x83; 100; 111; 103].
Definition asked : UntrustedRlp := mkRlp cat_dog (mkOffset 1 5) None.

Lemma asked_ok : view_ok asked.
Proof.
  split; [cbn [rlp_raw asked cat_dog]; solve_bytes|done| |done].
  right. split; [done|]. exists (drop 1 cat_dog), (take 5 cat_dog), (drop 5 cat_dog). by vm_compute.
Defined.

Lemma at_cache_transparent_witness :
  fst (at_index asked 0) = fst (at_index (UntrustedRlp_new (rlp_raw asked)) 0) /\
  view_ok (snd (at_index asked 0)) /\ rlp_raw (snd (at_index asked 0)) = rlp_raw asked.
Proof. exact (at_cache_transparent asked 0 asked_ok (conj (Z.le_refl 0) eq_refl)). Defined.

(** On an encoded list, [item_count] is the number of elements and [at]
    finds each of them, and nothing after the last. *)
Theorem list_access (l : list item) (i : Z) :
  item_ok (List l) -> 0 <= i < usize_max ->
  fst (item_count (UntrustedRlp_new (rlp_enc (List l)))) = Ok (len l) /\
  fst (at_index (UntrustedRlp_new (rlp_enc (List l))) i) =
    match l !! Z.to_nat i with
    | Some it => Ok (UntrustedRlp_new (rlp_enc it))
    | None => Err RlpIsTooShort
    end.
Proof.
  intros Hok Hi. pose proof (view_enc _ Hok) as Hv. split.
  - destruct (item_count_ok _ _ Hv (enc_list_is_list _ Hok) (elements_enc _ Hok)) as (v' & -> & _).
    cbn [fst]. unfold len. by rewrite length_map.
  - destruct (at_index_view _ i Hv Hi) as (v' & -> & _). apply at_ref_enc; [done|lia].
Qed.

Lemma list_access_witness :
  fst (item_count (UntrustedRlp_new (rlp_enc (List [Data [1]; sample])))) = Ok 2 /\
  fst (at_index (UntrustedRlp_new (rlp_enc (List [Data [1]; sample]))) 1) = Ok (UntrustedRlp_new (rlp_enc sample)).
Proof. apply (list_access [Data [1]; sample] 1); [solve_item_ok|done]. Defined.

(** ** Typed decoding *)

(** C27: no decoder of a base type panics, on any view of any bytes: it returns an
    error or a value in the range of its type. *)
Theorem decoders_total (v : UntrustedRlp) (n : nat) (size : Z) :
  view_ok v -> In n [2; 4; 8]%nat ->
  wp (fst (@decode _ bool_Decodable v)) any any /\
  wp (fst (@decode _ bytes_Decodable v)) is_bytes any /\
  wp (fst (@decode _ u8_Decodable v)) (in_u 8) any /\
  wp (fst (@decode _ (uN_Decodable n) v)) (in_u (8 * Z.of_nat n)) any /\
  wp (fst (@decode _ usize_Decodable v)) (in_u 64) any /\
  wp (fst (@decode _ (uint_Decodable 16) v)) (in_u 128) any /\
  wp (fst (@decode _ (uint_Decodable 32) v)) (in_u 256) any /\
  wp (fst (@decode _ (hash_Decodable size) v)) (fun h => is_bytes h /\ len h = size) any /\
  wp (fst (@decode _ CallType_Decodable v)) any any.
Proof.
  intros Hv Hn. assert (IntSize n) by (destruct Hn as [<-|[<-|[<-|[]]]]; apply _).
  split_and!; [by apply bool_safe|by apply bytes_safe|by apply u8_safe|by apply uN_safe|by apply (uN_safe 8)
    |by apply (uint_safe 16)|by apply (uint_safe 32)|by apply hash_safe|by apply CallType_safe].
Qed.

Lemma decoders_total_witness :
  wp (fst (@decode _ bool_Decodable asked)) any any /\
  wp (fst (@decode _ bytes_Decodable asked)) is_bytes any /\
  wp (fst (@decode _ u8_Decodable asked)) (in_u 8) any /\
  wp (fst (@decode _ (uN_Decodable 4) asked)) (in_u (8 * Z.of_nat 4)) any /\
  wp (fst (@decode _ usize_Decodable asked)) (in_u 64) any /\
  wp (fst (@decode _ (uint_Decodable 16) asked)) (in_u 128) any /\
  wp (fst (@decode _ (uint_Decodable 32) asked)) (in_u 256) any /\
  wp (fst (@decode _ (hash_Decodable 20) asked)) (fun h => is_bytes h /\ len h = 20) any /\
  wp (fst (@decode _ CallType_Decodable asked)) any any.
Proof. exact (decoders_total asked 4 20 asked_ok (or_intror (or_introl eq_refl))). Defined.

(** Decoding a container never panics when decoding its elements does not: an
    [Option], a list ([as_list], which stops within the fuel of its model), an
    element by its index, and a list by its index. *)
Theorem containers_total {T} (D : Decodable T) (P : T -> Prop) (v : UntrustedRlp) (i : Z) :
  SafeDecoder D P -> view_ok v -> 0 <= i < usize_max ->
  wp (fst (@decode _ (option_Decodable D) v)) (fun o => match o with Some x => P x | None => True end) any /\
  wp (fst (as_list v)) (Forall P) any /\
  wp (fst (val_at v i)) P any /\
  wp (fst (list_at v i)) (Forall P) any.
Proof.
  intros HD Hv Hi. split; [by apply option_safe|]. split; [by apply as_list_safe|]. split; [by apply val_at_safe|].
  unfold list_at. destruct (at_index_view v i Hv Hi) as (v1 & -> & _).
  pose proof (at_ref_view v i Hv ltac:(lia)) as Hr. destruct (at_ref (rlp_raw v) i); [|done..]. by apply as_list_safe.
Qed.

Lemma containers_total_witness :
  wp (fst (@decode _ (option_Decodable (uint_Decodable 32)) asked)) (fun o => match o with Some x => in_u 256 x | None => True end) any /\
  wp (fst (@as_list _ (uint_Decodable 32) asked)) (Forall (in_u 256)) any /\
  wp (fst (@val_at _ (uint_Decodable 32) asked 1)) (in_u 256) any /\
  wp (fst (@list_at _ (uint_Decodable 32) asked 1)) (Forall (in_u 256)) any.
Proof. exact (containers_total (uint_Decodable 32) (in_u 256) asked 1 (uint_safe 32) asked_ok (conj Z.le_0_1 eq_refl)). Defined.

(** C28: integers in the range of their type survive [encode] and [decode]: [u8],
    [u16], [u32], [u64], [usize], [U128] and [U256]. *)
Theorem integer_roundtrip (n : nat) (x y : Z) :
  In n [2; 4; 8; 16; 32]%nat -> in_u (8 * Z.of_nat n) x -> in_u 8 y ->
  (b ← @encode _ (uN_Encodable n) x; @decode_bytes _ (uN_Decodable n) b) = Ok x /\
  (b ← @encode _ (uint_Encodable n) x; @decode_bytes _ (uint_Decodable n) b) = Ok x /\
  (b ← @encode _ u8_Encodable y; @decode_bytes _ u8_Decodable b) = Ok y.
Proof.
  intros Hn Hx Hy. assert (IntSize n) by (repeat destruct Hn as [<-|Hn]; try apply _; done).
  split; [by apply (codec_roundtrip _ _ (uN_codec n))|].
  split; [by apply (codec_roundtrip _ _ (uint_codec n))|by apply (codec_roundtrip _ _ u8_codec)].
Qed.

Lemma integer_roundtrip_witness :
  (b ← @encode _ (uN_Encodable 8) 300; @decode_bytes _ (uN_Decodable 8) b) = Ok 300 /\
  (b ← @encode _ (uint_Encodable 8) 300; @decode_bytes _ (uint_Decodable 8) b) = Ok 300 /\
  (b ← @encode _ u8_Encodable 0; @decode_bytes _ u8_Decodable b) = Ok 0.
Proof. apply (integer_roundtrip 8 300 0); [by right; right; left|done|done]. Defined.

(** Booleans, byte vectors, hashes of every size and call types survive
    [encode] and [decode]. *)
Theorem data_roundtrip (b : bool) (v h : bytes) (c : CallType) :
  is_bytes v -> len v < 2 ^ 32 -> is_bytes h -> len h < 2 ^ 32 ->
  (x ← encode b; decode_bytes x) = Ok b /\
  (x ← @encode _ bytes_Encodable v; @decode_bytes _ bytes_Decodable x) = Ok v /\
  (x ← @encode _ hash_Encodable h; @decode_bytes _ (hash_Decodable (len h)) x) = Ok h /\
  (x ← encode c; decode_bytes x) = Ok c.
Proof.
  intros. split; [by apply codec_roundtrip with (C := bool_codec)|].
  split; [by apply (codec_roundtrip _ _ bytes_codec)|]. split; [by apply (codec_roundtrip _ _ (hash_codec (len h)))|].
  by apply codec_roundtrip with (C := CallType_codec).
Qed.

Lemma data_roundtrip_witness :
  (x ← encode true; decode_bytes x) = Ok true /\
  (x ← @encode _ bytes_Encodable [0; 255]; @decode_bytes _ bytes_Decodable x) = Ok [0; 255] /\
  (x ← @encode _ hash_Encodable [1; 2; 3; 4; 5; 6; 7; 8]; @decode_bytes _ (hash_Decodable (len [1; 2; 3; 4; 5; 6; 7; 8])) x)
    = Ok [1; 2; 3; 4; 5; 6; 7; 8] /\
  (x ← encode CT_StaticCall; decode_bytes x) = Ok CT_StaticCall.
Proof. apply (data_roundtrip true [0; 255] [1; 2; 3; 4; 5; 6; 7; 8] CT_StaticCall); solve_bytes || done. Defined.

(** Containers survive too, over any type whose codec is lawful: an [Option]
    with [encode] and [decode], a list with [encode_list] and [decode_list]. *)
Theorem container_roundtrip {T} (E : Encodable T) (D : Decodable T) (C : Codec E D) (o : option T) (vs : list T) :
  match o with Some v => codec_ok v /\ len (rlp_enc (codec_item v)) < 2 ^ 32 | None => True end ->
  Forall codec_ok vs -> len (concat (map rlp_enc (map codec_item vs))) < 2 ^ 32 ->
  (b ← encode o; decode_bytes b) = Ok o /\
  (b ← encode_list vs; decode_list b) = Ok vs.
Proof.
  intros Ho Hvs Hlen. split; [by apply (codec_roundtrip _ _ option_codec)|].
  pose proof (list_items_ok vs Hvs Hlen) as Hok. unfold encode_list.
  rewrite append_list_codec, append_items by done. cbn [unfinished_lists buffer stream_new note_appended app closed mbind outcome_bind].
  change (drain _) with (Ok (E := Empty_set) (rlp_enc (List (map codec_item vs)))). cbn [mbind outcome_bind].
  unfold decode_list. by rewrite as_list_codec.
Qed.

Lemma container_roundtrip_witness :
  (b ← @encode _ (option_Encodable (uint_Encodable 32)) (Some 0); @decode_bytes _ (option_Decodable (uint_Decodable 32)) b) = Ok (Some 0) /\
  (b ← @encode_list _ (uint_Encodable 32) [1; 2 ^ 200]; @decode_list _ (uint_Decodable 32) b) = Ok [1; 2 ^ 200].
Proof.
  apply (container_roundtrip (uint_Encodable 32) (uint_Decodable 32) (uint_codec 32) (Some 0) [1; 2 ^ 200]).
  - by vm_compute.
  - repeat constructor; done.
  - by vm_compute.
Defined.

(** An integer is decoded only from its canonical payload: the data of the
    view is the shortest big-endian representation of the result (a leading zero
    byte is refused), and the result is in range. *)
Theorem integer_canonical (v : UntrustedRlp) (n : nat) (x y : Z) :
  view_ok v -> In n [2; 4; 8; 16; 32]%nat ->
  (fst (@decode _ (uN_Decodable n) v) = Ok x -> data v = Ok (be_min x) /\ in_u (8 * Z.of_nat n) x) /\
  (fst (@decode _ (uint_Decodable n) v) = Ok y -> data v = Ok (be_min y) /\ in_u (8 * Z.of_nat n) y).
Proof.
  intros Hv Hn. assert (IntSize n) as Hs by (repeat destruct Hn as [<-|Hn]; try apply _; done).
  destruct (uN_safe n v Hv) as [Hx _], (uint_safe n v Hv) as [Hy _].
  split; intros Hd.
  - split; [|exact (wp_ok _ _ _ _ _ Hx Hd)].
    destruct (decode_value_data _ _ _ Hv Hd) as (b & Hb & Hbytes & Hf). rewrite Hb. f_equal.
    apply (uN_value_canonical n v); try done. destruct Hs. lia.
  - split; [|exact (wp_ok _ _ _ _ _ Hy Hd)].
    destruct (decode_value_data _ _ _ Hv Hd) as (b & Hb & Hbytes & Hf). rewrite Hb. f_equal.
    by apply (uint_value_canonical n).
Qed.

Lemma integer_canonical_witness :
  (fst (@decode _ (uN_Decodable 2) (UntrustedRlp_new [0x82; 1; 2])) = Ok 258 ->
     data (UntrustedRlp_new [0x82; 1; 2]) = Ok (be_min 258) /\ in_u (8 * Z.of_nat 2) 258) /\
  (fst (@decode _ (uint_Decodable 2) (UntrustedRlp_new [0x82; 1; 2])) = Ok 258 ->
     data (UntrustedRlp_new [0x82; 1; 2]) = Ok (be_min 258) /\ in_u (8 * Z.of_nat 2) 258).
Proof. apply (integer_canonical (UntrustedRlp_new [0x82; 1; 2]) 2 258 258); [apply view_new; [solve_bytes|done]|by left]. Defined.

(** ** Corner cases *)

(** A value that writes itself as an unbounded list is counted by
    [complete_unbounded_list] and once more by [append]: a list announced with
    two elements is closed after the first. *)
Definition unbounded_Encodable : Encodable unit :=
  {| rlp_append := fun _ s => complete_unbounded_list (begin_unbounded_list s) |}.

Example unbounded_value_counted_twice :
  (s ← new_list 2; @append _ unbounded_Encodable s tt) = Ok (mkStream [] [0xc1; 0xc0] true).
Proof. reflexivity. Qed.

(** [is_int] reads past the end of truncated data. *)
Example is_int_panics : is_int (UntrustedRlp_new [0x81]) = Panic.
Proof. reflexivity. Qed.

(** Bytes after the payload of a list are counted and found as its elements. *)
Example elements_past_the_payload :
  fst (item_count (UntrustedRlp_new [0xc1; 1; 2])) = Ok 2 /\
  fst (at_index (UntrustedRlp_new [0xc1; 1; 2]) 1) = Ok (UntrustedRlp_new [2]).
Proof. by split. Qed.

(** A malformed list is silently cut at its first malformed element. *)
Example malformed_list_truncated :
  fst (@as_list _ u8_Decodable (UntrustedRlp_new [0xc2; 1; 0x82])) = Ok [1].
Proof. reflexivity. Qed.

(** A length that fits the short form is accepted in the long form. *)
Example long_form_accepted : fst (@decode _ u8_Decodable (UntrustedRlp_new [0xb8; 1; 0xff])) = Ok 0xff.
Proof. reflexivity. Qed.

(** The initial cache answers for the largest index with the list itself. *)
Example largest_index_is_the_list :
  fst (at_index (UntrustedRlp_new [0xc1; 5]) usize_max) = Ok (UntrustedRlp_new [0xc1; 5]).
Proof. reflexivity. Qed.
