(* ===== verification/Account.v ===== *)
(** * Accounts ([ethcore/src/state/account.rs], [ethcore/types/src/basic_account.rs])

    An account of the state with its caches: the code, the entries of the
    storage trie it has looked up, and the storage changes that are not in the
    trie yet.  Databases and tries are an interface, [HashDB]; so is the LRU
    cache of an external crate.  A method on [&self] that fills a cache returns
    the account with the cache it leaves. *)
From stdpp Require Import base list numbers gmap.
From S2P Require Import Prelude JumpDests RlpStream RlpEncoding RlpDecode RlpDecoding RlpViews RlpImpls RlpCodecs.

Definition KECCAK_NULL_RLP : Z := 0x56e81f171bcc55a6ff8345e692c0f86e5b48e01b996cadc001622fb5e363b421.

Inductive TrieError : Type :=
  | InvalidStateRoot (root : Z)
  | IncompleteDatabase (missing : Z).

(** A content-addressed database, the view of it that belongs to one account,
    and the lookup of a key in the secure trie with a given root. *)
Class HashDB (DB : Type) := {
  db_get : DB -> Z -> option bytes;
  accountdb_readonly : DB -> Z -> DB;
  sec_trie_get : DB -> Z -> bytes -> outcome TrieError (option bytes);
}.

(** The LRU cache of the crate [lru_cache], from words to words. *)
Class LruCache (C : Type) := {
  lru_new : Z -> C;
  lru_get_mut : C -> Z -> option Z * C;
  lru_insert : C -> Z -> Z -> C;
  lru_into_iter : C -> list (Z * Z);
}.

(** It holds only what was inserted, and the last value of a key. *)
Class LruLaws (C : Type) `{LruCache C} := {
  lru_holds : C -> Z -> Z -> Prop;
  lru_new_holds n k v : ~ lru_holds (lru_new n) k v;
  lru_get_holds c k v : fst (lru_get_mut c k) = Some v -> lru_holds c k v;
  lru_get_keeps c k k' v : lru_holds (snd (lru_get_mut c k)) k' v -> lru_holds c k' v;
  lru_insert_holds c k v k' v' :
    lru_holds (lru_insert c k v) k' v' -> (k' = k /\ v' = v) \/ (k' <> k /\ lru_holds c k' v');
  lru_iter_holds c k v : (k, v) ∈ lru_into_iter c -> lru_holds c k v;
}.

(** ** The account as it is in the trie *)
Record BasicAccount := mkBasic { b_nonce : Z; b_balance : Z; b_storage_root : Z; b_code_hash : Z }.

(** [H256] is an integer here; on the wire it is a string of 32 bytes. *)
Definition h256_append (h : Z) (s : RlpStream) : run RlpStream := hash_append (Z_to_be 32 h) s.
Definition h256_Encodable : Encodable Z := {| rlp_append := h256_append |}.
Definition h256_Decodable : Decodable Z :=
  {| decode rlp := let '(r, rlp) := @decode _ (hash_Decodable 32) rlp in (b ← r; Ok (be_to_Z b), rlp) |}.

(** [#[derive(RlpDecodable)]]: the fields in order, each by its index. *)
Definition BasicAccount_decode (rlp : UntrustedRlp) : res BasicAccount * UntrustedRlp :=
  let '(nonce, rlp) := @val_at _ (uint_Decodable 32) rlp 0 in
  match nonce with
  | Ok nonce =>
      let '(balance, rlp) := @val_at _ (uint_Decodable 32) rlp 1 in
      match balance with
      | Ok balance =>
          let '(storage_root, rlp) := @val_at _ h256_Decodable rlp 2 in
          match storage_root with
          | Ok storage_root =>
              let '(code_hash, rlp) := @val_at _ h256_Decodable rlp 3 in
              (code_hash ← code_hash; Ok (mkBasic nonce balance storage_root code_hash), rlp)
          | Err e => (Err e, rlp)
          | Panic => (Panic, rlp)
          end
      | Err e => (Err e, rlp)
      | Panic => (Panic, rlp)
      end
  | Err e => (Err e, rlp)
  | Panic => (Panic, rlp)
  end.
#[global] Instance BasicAccount_Decodable : Decodable BasicAccount := {| decode := BasicAccount_decode |}.

(** ** The account with its caches *)
Definition STORAGE_CACHE_ITEMS : Z := 8192.

Inductive Filth : Type := FilthClean | FilthDirty.

Definition is_dirty_code (f : Filth) : bool := match f with FilthDirty => true | FilthClean => false end.

Section account.
Context {C : Type} `{LruCache C} (keccak : bytes -> Z).

Record Account := mkAccount {
  acc_balance : Z;
  acc_nonce : Z;
  acc_storage_root : Z;
  acc_storage_cache : C;
  acc_storage_changes : gmap Z Z;
  acc_code_hash : Z;
  acc_code_size : option Z;
  acc_code_cache : bytes;
  acc_code_filth : Filth;
  acc_address_hash : option Z;
}.

Definition empty_storage_cache : C := lru_new STORAGE_CACHE_ITEMS.

Definition Account_from (basic : BasicAccount) : Account :=
  mkAccount (b_balance basic) (b_nonce basic) (b_storage_root basic) empty_storage_cache ∅ (b_code_hash basic) None []
    FilthClean None.

Definition new_basic (balance nonce : Z) : Account :=
  mkAccount balance nonce KECCAK_NULL_RLP empty_storage_cache ∅ KECCAK_EMPTY (Some 0) [] FilthClean None.

Definition from_rlp (rlp : bytes) : run Account := basic ← decode_bytes rlp; Ok (Account_from basic).

Definition Account_new_contract (balance nonce : Z) : Account :=
  mkAccount balance nonce KECCAK_NULL_RLP empty_storage_cache ∅ KECCAK_EMPTY None [] FilthClean None.

(** Field updates. *)
Definition with_code (hash : Z) (size : option Z) (code : bytes) (filth : Filth) (self : Account) : Account :=
  mkAccount (acc_balance self) (acc_nonce self) (acc_storage_root self) (acc_storage_cache self) (acc_storage_changes self)
    hash size code filth (acc_address_hash self).
Definition with_storage (root : Z) (cache : C) (changes : gmap Z Z) (self : Account) : Account :=
  mkAccount (acc_balance self) (acc_nonce self) root cache changes (acc_code_hash self) (acc_code_size self)
    (acc_code_cache self) (acc_code_filth self) (acc_address_hash self).
Definition with_basics (balance nonce : Z) (address_hash : option Z) (self : Account) : Account :=
  mkAccount balance nonce (acc_storage_root self) (acc_storage_cache self) (acc_storage_changes self) (acc_code_hash self)
    (acc_code_size self) (acc_code_cache self) (acc_code_filth self) address_hash.

Definition account_init_code (code : bytes) (self : Account) : Account :=
  with_code (keccak code) (Some (len code)) code FilthDirty self.
Definition account_reset_code (code : bytes) (self : Account) : Account := account_init_code code self.

Definition account_set_storage (key value : Z) (self : Account) : Account :=
  with_storage (acc_storage_root self) (acc_storage_cache self) (<[key := value]> (acc_storage_changes self)) self.

Definition cached_storage_at (self : Account) (key : Z) : option Z * Account :=
  match acc_storage_changes self !! key with
  | Some value => (Some value, self)
  | None =>
      let '(r, cache) := lru_get_mut (acc_storage_cache self) key in
      (r, with_storage (acc_storage_root self) cache (acc_storage_changes self) self)
  end.

Definition address_hash (self : Account) (address : Z) : Z * Account :=
  match acc_address_hash self with
  | Some hash => (hash, self)
  | None =>
      let hash := keccak (Z_to_be 20 address) in
      (hash, with_basics (acc_balance self) (acc_nonce self) (Some hash) self)
  end.

Definition account_code (self : Account) : option bytes :=
  if negb (acc_code_hash self =? KECCAK_EMPTY) && (len (acc_code_cache self) =? 0) then None else Some (acc_code_cache self).

Definition is_cached (self : Account) : bool :=
  negb (len (acc_code_cache self) =? 0) || ((len (acc_code_cache self) =? 0) && (acc_code_hash self =? KECCAK_EMPTY)).

Definition cache_given_code (code : bytes) (self : Account) : Account :=
  with_code (acc_code_hash self) (Some (len code)) code (acc_code_filth self) self.

Definition storage_is_clean (self : Account) : bool := bool_decide (acc_storage_changes self = ∅).

Definition is_null (self : Account) : bool :=
  (acc_balance self =? 0) && (acc_nonce self =? 0) && (acc_code_hash self =? KECCAK_EMPTY).

Definition is_empty {E} (self : Account) : outcome E bool :=
  if storage_is_clean self then Ok (is_null self && (acc_storage_root self =? KECCAK_NULL_RLP)) else Panic.

Definition is_basic (self : Account) : bool := acc_code_hash self =? KECCAK_EMPTY.

Definition account_storage_root (self : Account) : option Z :=
  if storage_is_clean self then Some (acc_storage_root self) else None.

Definition account_inc_nonce {E} (self : Account) : outcome E Account :=
  n ← add_chk 256 (acc_nonce self) 1; Ok (with_basics (acc_balance self) n (acc_address_hash self) self).

Definition account_add_balance {E} (x : Z) (self : Account) : outcome E Account :=
  b ← add_chk 256 (acc_balance self) x; Ok (with_basics b (acc_nonce self) (acc_address_hash self) self).

Definition account_sub_balance {E} (x : Z) (self : Account) : outcome E Account :=
  if x <=? acc_balance self then
    b ← sub_chk (acc_balance self) x; Ok (with_basics b (acc_nonce self) (acc_address_hash self) self)
  else Panic.

Definition account_rlp (self : Account) : run bytes :=
  s ← new_list 4;
  s ← @append _ (uint_Encodable 32) s (acc_nonce self);
  s ← @append _ (uint_Encodable 32) s (acc_balance self);
  s ← @append _ h256_Encodable s (acc_storage_root self);
  s ← @append _ h256_Encodable s (acc_code_hash self);
  drain s.

Definition clone_basic (self : Account) : Account :=
  with_storage (acc_storage_root self) empty_storage_cache ∅ self.
Definition account_clone_dirty (self : Account) : Account :=
  let account := clone_basic self in
  with_storage (acc_storage_root account) (acc_storage_cache account) (acc_storage_changes self) account.
Definition clone_all (self : Account) : Account :=
  let account := account_clone_dirty self in
  with_storage (acc_storage_root account) (acc_storage_cache self) (acc_storage_changes account) account.

(** Everything from [other], except the storage cache, to which the entries of
    [other]'s are added. *)
Definition account_overwrite_with (self other : Account) : Account :=
  mkAccount (acc_balance other) (acc_nonce other) (acc_storage_root other)
    (fold_left (fun cache '(k, v) => lru_insert cache k v) (lru_into_iter (acc_storage_cache other)) (acc_storage_cache self))
    (acc_storage_changes other) (acc_code_hash other) (acc_code_size other) (acc_code_cache other) (acc_code_filth other)
    (acc_address_hash other).

Section database.
Context {DB : Type} `{HashDB DB}.

Definition account_storage_at (self : Account) (db : DB) (key : Z) : outcome TrieError Z * Account :=
  match cached_storage_at self key with
  | (Some value, self) => (Ok value, self)
  | (None, self) =>
      match sec_trie_get db (acc_storage_root self) (Z_to_be 32 key) with
      | Ok item =>
          match match item with Some rlp => @decode_bytes _ (uint_Decodable 32) rlp | None => Ok 0 end with
          | Ok value =>
              (Ok value,
               with_storage (acc_storage_root self) (lru_insert (acc_storage_cache self) key value) (acc_storage_changes self) self)
          | _ => (Panic, self)
          end
      | Err e => (Err e, self)
      | Panic => (Panic, self)
      end
  end.

Definition cache_code (self : Account) (db : DB) : option bytes * Account :=
  if is_cached self then (Some (acc_code_cache self), self)
  else
    match db_get db (acc_code_hash self) with
    | Some x => (Some x, with_code (acc_code_hash self) (Some (len x)) x (acc_code_filth self) self)
    | None => (None, self)
    end.

Definition cache_code_size (self : Account) (db : DB) : bool * Account :=
  if bool_decide (is_Some (acc_code_size self)) then (true, self)
  else if negb (acc_code_hash self =? KECCAK_EMPTY) then
    match db_get db (acc_code_hash self) with
    | Some x => (true, with_code (acc_code_hash self) (Some (len x)) (acc_code_cache self) (acc_code_filth self) self)
    | None => (false, self)
    end
  else (false, self).
End database.
End account.
Arguments Account : clear implicits.
