(* ===== verification/AccountCodec.v ===== *)
(** * Accounts in the trie

    The four fields an account has in the trie, written by [Account::rlp], are
    read back by the decoder derived for [BasicAccount]. *)
From stdpp Require Import base list numbers gmap.
From S2P Require Import Prelude JumpDests RlpStream RlpEncoding RlpDecode RlpDecoding RlpViews RlpImpls RlpCodecs Account.

#[export] Instance h256_codec : Codec h256_Encodable h256_Decodable.
Proof.
  assert (Hok : forall h, @codec_ok _ _ _ (hash_codec 32) (Z_to_be 32 h)).
  { intros h. split; [|by rewrite len_Z_to_be]. apply (data_ok _ 32); [apply Z_to_be_bytes|by rewrite len_Z_to_be|done]. }
  refine {| codec_ok h := in_u 256 h; codec_item h := Data (Z_to_be 32 h) |}.
  - intros h _. apply (@codec_item_ok _ _ _ (hash_codec 32)), Hok.
  - intros h s _. exact (@codec_append _ _ _ (hash_codec 32) (Z_to_be 32 h) s (Hok h)).
  - intros h Hh. cbn [decode h256_Decodable].
    pose proof (@codec_decode _ _ _ (hash_codec 32) (Z_to_be 32 h) (Hok h)) as Hd. cbn [codec_item hash_codec] in Hd.
    destruct (@decode _ (hash_Decodable 32) _) as [r v]. cbn [fst] in *. rewrite Hd. cbn [mbind outcome_bind fst].
    rewrite be_to_Z_to_be, Z.mod_small; [done|]. exact Hh.
Defined.

(** The four items of an account. *)
Definition account_item (b : BasicAccount) : item :=
  List [Data (be_min (b_nonce b)); Data (be_min (b_balance b)); Data (Z_to_be 32 (b_storage_root b)); Data (Z_to_be 32 (b_code_hash b))].

Definition basic_ok (b : BasicAccount) : Prop :=
  in_u 256 (b_nonce b) /\ in_u 256 (b_balance b) /\ in_u 256 (b_storage_root b) /\ in_u 256 (b_code_hash b).

#[local] Instance int_size_32 : IntSize 32.
Proof. unfold IntSize. lia. Qed.

Lemma enc_data_len b n : len b <= n -> n <= 55 -> len (enc_data b) <= 1 + n.
Proof.
  intros. unfold enc_data, header. pose proof (len_nonneg b). rewrite (proj2 (Z.leb_le (len b) 55)) by lia.
  repeat case_match; rewrite ?len_app, ?len_cons, ?len_nil in *; lia.
Qed.

Lemma account_item_ok b : basic_ok b -> item_ok (account_item b).
Proof.
  intros (Hn & Hb & Hs & Hc). apply item_ok_list. split.
  - repeat (apply Forall_cons; split); [by apply (int_item_ok 32)|by apply (int_item_ok 32)|by apply (@codec_item_ok _ _ _ h256_codec)|
      by apply (@codec_item_ok _ _ _ h256_codec)|constructor].
  - cbn [map concat rlp_enc]. rewrite !len_app, len_nil.
    pose proof (enc_data_len _ 32 (proj2 (be_min_len (b_nonce b) 32 Hn)) ltac:(lia)).
    pose proof (enc_data_len _ 32 (proj2 (be_min_len (b_balance b) 32 Hb)) ltac:(lia)).
    pose proof (enc_data_len (Z_to_be 32 (b_storage_root b)) 32 ltac:(by rewrite len_Z_to_be) ltac:(lia)).
    pose proof (enc_data_len (Z_to_be 32 (b_code_hash b)) 32 ltac:(by rewrite len_Z_to_be) ltac:(lia)). lia.
Qed.

Section codec.
Context {C : Type} `{LruCache C}.

Definition basic_of (acc : Account C) : BasicAccount :=
  mkBasic (acc_nonce acc) (acc_balance acc) (acc_storage_root acc) (acc_code_hash acc).

Lemma account_rlp_ok (acc : Account C) : basic_ok (basic_of acc) -> account_rlp acc = Ok (rlp_enc (account_item (basic_of acc))).
Proof.
  intros Hok. pose proof (account_item_ok _ Hok) as Hit. destruct Hok as (Hn & Hb & Hs & Hc). cbn in Hn, Hb, Hs, Hc.
  transitivity (encode_list [Data (be_min (acc_nonce acc)); Data (be_min (acc_balance acc)); Data (Z_to_be 32 (acc_storage_root acc));
    Data (Z_to_be 32 (acc_code_hash acc))]).
  - unfold account_rlp, encode_list, append_list, new_list. change (len [_; _; _; _]) with 4.
    destruct (begin_list stream_new 4) as [s| |]; [|done..]. cbn [mbind outcome_bind append_all].
    rewrite (append_codec (C := uint_codec 32) (acc_nonce acc)) by done. cbn [codec_item uint_codec].
    destruct (append s _) as [s1| |]; [|done..]. cbn [mbind outcome_bind].
    rewrite (append_codec (C := uint_codec 32) (acc_balance acc)) by done. cbn [codec_item uint_codec].
    destruct (append s1 _) as [s2| |]; [|done..]. cbn [mbind outcome_bind].
    rewrite (append_codec (C := h256_codec) (acc_storage_root acc)) by done. cbn [codec_item h256_codec].
    destruct (append s2 _) as [s3| |]; [|done..]. cbn [mbind outcome_bind].
    rewrite (append_codec (C := h256_codec) (acc_code_hash acc)) by done. cbn [codec_item h256_codec].
    by destruct (append s3 _).
  - unfold encode_list. by rewrite append_items.
Qed.

(** One field of an account, from a view that may have been asked before. *)
Lemma field_ok {T} {E : Encodable T} {D : Decodable T} (Cd : Codec E D) v i (x : T) l :
  item_ok (List l) -> view_ok v -> rlp_raw v = rlp_enc (List l) -> 0 <= i < usize_max ->
  l !! Z.to_nat i = Some (codec_item x) -> codec_ok x ->
  exists v', val_at v i = (Ok x, v') /\ view_ok v' /\ rlp_raw v' = rlp_enc (List l).
Proof.
  intros Hok Hv Hraw Hi Hl Hx. destruct (val_at_ok v i Hv Hi) as (v' & -> & Hv' & Hr). rewrite Hraw, at_ref_enc by (done || lia). rewrite Hl.
  cbn [mbind outcome_bind]. exists v'. rewrite codec_decode by done. by rewrite Hr.
Qed.

Lemma from_rlp_ok b : basic_ok b -> from_rlp (C := C) (rlp_enc (account_item b)) = Ok (Account_from b).
Proof.
  intros Hok. pose proof (account_item_ok _ Hok) as Hit. destruct Hok as (Hn & Hb & Hs & Hc). unfold from_rlp, decode_bytes, as_val.
  cbn [decode BasicAccount_Decodable]. unfold BasicAccount_decode. pose proof (view_enc _ Hit) as Hv.
  destruct (field_ok (uint_codec 32) (UntrustedRlp_new (rlp_enc (account_item b))) 0 (b_nonce b) _ Hit Hv eq_refl ltac:(done) eq_refl Hn) as (v1 & -> & Hv1 & Hr1).
  destruct (field_ok (uint_codec 32) v1 1 (b_balance b) _ Hit Hv1 Hr1 ltac:(done) eq_refl Hb) as (v2 & -> & Hv2 & Hr2).
  destruct (field_ok h256_codec v2 2 (b_storage_root b) _ Hit Hv2 Hr2 ltac:(done) eq_refl Hs) as (v3 & -> & Hv3 & Hr3).
  destruct (field_ok h256_codec v3 3 (b_code_hash b) _ Hit Hv3 Hr3 ltac:(done) eq_refl Hc) as (v4 & -> & Hv4 & Hr4).
  by destruct b.
Qed.
End codec.
