(* ===== verification/State.v ===== *)
(** * The state of all accounts ([ethcore/src/state/mod.rs], [substate.rs])

    [State] is an overlay of changed accounts over a trie, with a second,
    shared cache behind it (the trait [Backend]), and a stack of checkpoints
    that remember the accounts changed since.  The methods on [&self] fill
    caches through [RefCell]s: they return the state they leave, like the
    methods on [&mut self], also next to an error. *)
From stdpp Require Import base list numbers gmap.
From S2P Require Import Prelude JumpDests RlpImpls Account.

(** ** The backend ([backend.rs])

    [cached_get_mut] looks an account up in the shared cache and [cached_put]
    writes back what a closure of [get_cached] did to it. *)
Class Backend (B DB C : Type) := {
  as_hashdb : B -> DB;
  cached_get_mut : B -> Z -> option (option (Account C)) * B;
  cached_put : B -> Z -> option (Account C) -> B;
  get_cached_account : B -> Z -> option (option (Account C)) * B;
  backend_cache_code : B -> Z -> bytes -> B;
  get_cached_code : B -> Z -> option bytes * B;
  is_known_null : B -> Z -> bool;
}.

(** The closure sees the backend and may fill its code cache. *)
Definition get_cached {B DB C U} `{Backend B DB C} (b : B) (a : Z) (f : B -> option (Account C) -> U * option (Account C) * B) :
    option U * B :=
  match cached_get_mut b a with
  | (Some acc, b) => let '(u, acc, b) := f b acc in (Some u, cached_put b a acc)
  | (None, b) => (None, b)
  end.

(** ** Entries *)
Inductive AccountState : Type := CleanFresh | CleanCached | Dirty | Committed.

#[global] Instance AccountState_eq_dec : EqDecision AccountState.
Proof. solve_decision. Defined.

Inductive RequireCache : Type := RequireNone | RequireCodeSize | RequireCode.

(** [TrackTouched] carries the set it adds to. *)
Inductive CleanupMode : Type := ForceCreate | NoEmpty | TrackTouched (touched : gset Z).

Section state.
Context {B DB C : Type} `{HashDB DB} `{LruCache C} `{Backend B DB C} (keccak : bytes -> Z).

Record AccountEntry := mkEntry { account : option (Account C); old_balance : option Z; entry_state : AccountState }.

Definition is_dirty (e : AccountEntry) : bool := bool_decide (entry_state e = Dirty).
Definition exists_and_is_null (e : AccountEntry) : bool := match account e with Some a => is_null a | None => false end.
Definition clone_dirty (e : AccountEntry) : AccountEntry :=
  mkEntry (account_clone_dirty <$> account e) (old_balance e) (entry_state e).
Definition new_dirty (acc : option (Account C)) : AccountEntry := mkEntry acc (acc_balance <$> acc) Dirty.
Definition new_clean (acc : option (Account C)) : AccountEntry := mkEntry acc (acc_balance <$> acc) CleanFresh.
Definition new_clean_cached (acc : option (Account C)) : AccountEntry := mkEntry acc (acc_balance <$> acc) CleanCached.

(** An entry whose account is gone stays without one. *)
Definition overwrite_with (self other : AccountEntry) : AccountEntry :=
  mkEntry
    (match account other with
     | Some acc => match account self with Some ours => Some (account_overwrite_with ours acc) | None => None end
     | None => None
     end) (old_balance self) (entry_state other).

(** ** The state *)
Record State := mkState {
  st_db : B;
  st_root : Z;
  st_cache : gmap Z AccountEntry;
  st_checkpoints : list (gmap Z (option AccountEntry)); (* the last one first *)
  account_start_nonce : Z;
}.

#[local] Abbreviation sres A := (outcome (TrieError * State) (A * State)).

Definition with_db (b : B) (s : State) : State :=
  mkState b (st_root s) (st_cache s) (st_checkpoints s) (account_start_nonce s).
Definition with_cache (c : gmap Z AccountEntry) (s : State) : State :=
  mkState (st_db s) (st_root s) c (st_checkpoints s) (account_start_nonce s).
Definition with_checkpoints (l : list (gmap Z (option AccountEntry))) (s : State) : State :=
  mkState (st_db s) (st_root s) (st_cache s) l (account_start_nonce s).

(** *** Checkpoints *)
Definition checkpoint (s : State) : State := with_checkpoints (∅ :: st_checkpoints s) s.

(** [or_insert] keeps what the previous checkpoint already has. *)
Definition discard_checkpoint (s : State) : State :=
  match st_checkpoints s with
  | [] => s
  | [_] => with_checkpoints [] s
  | last :: prev :: l =>
      with_checkpoints ((if bool_decide (prev = ∅) then last else prev ∪ last) :: l) s
  end.

Definition revert_entry (cache : gmap Z AccountEntry) (k : Z) (v : option AccountEntry) : gmap Z AccountEntry :=
  match v with
  | Some v => match cache !! k with Some e => <[k := overwrite_with e v]> cache | None => <[k := v]> cache end
  | None => match cache !! k with Some e => if is_dirty e then delete k cache else cache | None => cache end
  end.

Definition revert_to_checkpoint (s : State) : State :=
  match st_checkpoints s with
  | [] => s
  | last :: l =>
      with_cache (fold_left (fun cache '(k, v) => revert_entry cache k v) (map_to_list last) (st_cache s)) (with_checkpoints l s)
  end.

Definition insert_cache (a : Z) (e : AccountEntry) (s : State) : State :=
  let old_value := st_cache s !! a in
  let s' := with_cache (<[a := e]> (st_cache s)) s in
  if is_dirty e then
    match st_checkpoints s with
    | last :: l =>
        with_checkpoints ((match last !! a with Some _ => last | None => <[a := old_value]> last end) :: l) s'
    | [] => s'
    end
  else s'.

Definition note_cache (a : Z) (s : State) : State :=
  match st_checkpoints s with
  | last :: l =>
      with_checkpoints
        ((match last !! a with Some _ => last | None => <[a := clone_dirty <$> (st_cache s !! a)]> last end) :: l) s
  | [] => s
  end.

(** *** Loading accounts *)

(** [trie.readonly(db, &root)?.get_with(a, Account::from_rlp)?] *)
Definition trie_account (s : State) (a : Z) : outcome TrieError (option (Account C)) :=
  item ← sec_trie_get (as_hashdb (st_db s)) (st_root s) (Z_to_be 20 a);
  match item with
  | Some rlp => match from_rlp rlp with Ok acc => Ok (Some acc) | _ => Panic end
  | None => Ok None
  end.

Definition update_account_cache (require : RequireCache) (acc : Account C) (b : B) (db : DB) : Account C * B :=
  match require with
  | RequireNone => (acc, b)
  | _ =>
      if is_cached acc then (acc, b)
      else
        let hash := acc_code_hash acc in
        match get_cached_code b hash with
        | (Some code, b) => (cache_given_code code acc, b)
        | (None, b) =>
            match require with
            | RequireNone => (acc, b)
            | RequireCode =>
                match cache_code acc db with
                | (Some code, acc) => (acc, backend_cache_code b hash code)
                | (None, acc) => (acc, b)
                end
            | RequireCodeSize => (snd (cache_code_size acc db), b)
            end
        end
  end.

(** [address_hash], the account's database, and [update_account_cache]. *)
Definition update_account (require : RequireCache) (a : Z) (acc : Account C) (b : B) : Account C * B :=
  let '(h, acc) := address_hash keccak acc a in
  update_account_cache require acc b (accountdb_readonly (as_hashdb b) h).

Definition update_optional (require : RequireCache) (a : Z) (acc : option (Account C)) (b : B) : option (Account C) * B :=
  match acc with
  | Some acc => let '(acc, b) := update_account require a acc b in (Some acc, b)
  | None => (None, b)
  end.

(** [?] and [expect] on a trie result. *)
Definition try_trie {A} (s : State) (r : outcome TrieError A) : outcome (TrieError * State) A :=
  match r with Ok x => Ok x | Err e => Err (e, s) | Panic => Panic end.
Definition expect_root {A} (r : outcome TrieError A) : outcome TrieError A :=
  match r with Err (InvalidStateRoot _) => Panic | r => r end.

Definition ensure_cached {U} (s : State) (a : Z) (require : RequireCache) (check_null : bool) (f : option (Account C) -> U) : sres U :=
  match st_cache s !! a with
  | Some e =>
      let '(acc, b) := update_optional require a (account e) (st_db s) in
      Ok (f acc, with_cache (<[a := mkEntry acc (old_balance e) (entry_state e)]> (st_cache s)) (with_db b s))
  | None =>
      match get_cached (st_db s) a (fun b acc => let '(acc, b) := update_optional require a acc b in (f acc, acc, b)) with
      | (Some r, b) => Ok (r, with_db b s)
      | (None, b) =>
          let s := with_db b s in
          if check_null && is_known_null b a then Ok (f None, s)
          else
            maybe_acc ← try_trie s (trie_account s a);
            let '(maybe_acc, b) := update_optional require a maybe_acc (st_db s) in
            Ok (f maybe_acc, insert_cache a (new_clean maybe_acc) (with_db b s))
      end
  end.

(** The block [if !contains_key { .. }] of [require_or_from]. *)
Definition load_entry (s : State) (a : Z) : outcome (TrieError * State) State :=
  match st_cache s !! a with
  | Some _ => Ok s
  | None =>
      match get_cached_account (st_db s) a with
      | (Some acc, b) => Ok (insert_cache a (new_clean_cached acc) (with_db b s))
      | (None, b) =>
          let s := with_db b s in
          if negb (is_known_null b a) then
            acc ← try_trie s (trie_account s a); Ok (insert_cache a (new_clean acc) s)
          else Ok (insert_cache a (new_clean None) s)
      end
  end.

(** Returned is the account to be changed, already stored back marked as dirty. *)
Definition require_or_from (s : State) (a : Z) (require_code : bool) (default : Account C) : sres (Account C) :=
  s ← load_entry s a;
  let s := note_cache a s in
  match st_cache s !! a with
  | None => Panic
  | Some e =>
      let acc := match account e with Some acc => acc | None => default end in
      let '(acc, b) := if require_code then update_account RequireCode a acc (st_db s) else (acc, st_db s) in
      Ok (acc, with_cache (<[a := mkEntry (Some acc) (old_balance e) Dirty]> (st_cache s)) (with_db b s))
  end.

Definition require (s : State) (a : Z) (require_code : bool) : sres (Account C) :=
  require_or_from s a require_code (new_basic 0 (account_start_nonce s)).

(** Assignment through the reference [require] returns. *)
Definition store_account (s : State) (a : Z) (acc : Account C) : State :=
  match st_cache s !! a with
  | Some e => with_cache (<[a := mkEntry (Some acc) (old_balance e) (entry_state e)]> (st_cache s)) s
  | None => s
  end.

(** *** Queries *)
Definition state_exists (s : State) (a : Z) : sres bool :=
  ensure_cached s a RequireNone false (fun acc => bool_decide (is_Some acc)).
Definition exists_and_not_null (s : State) (a : Z) : sres bool :=
  ensure_cached s a RequireNone false (fun acc => match acc with Some acc => negb (is_null acc) | None => false end).
Definition exists_and_has_code_or_nonce (s : State) (a : Z) : sres bool :=
  ensure_cached s a RequireCodeSize false
    (fun acc => match acc with
                | Some acc => negb (acc_code_hash acc =? KECCAK_EMPTY) || negb (acc_nonce acc =? account_start_nonce s)
                | None => false
                end).
Definition balance (s : State) (a : Z) : sres Z :=
  ensure_cached s a RequireNone true (fun acc => match acc with Some acc => acc_balance acc | None => 0 end).
Definition nonce (s : State) (a : Z) : sres Z :=
  ensure_cached s a RequireNone true (fun acc => match acc with Some acc => acc_nonce acc | None => account_start_nonce s end).
Definition storage_root (s : State) (a : Z) : sres (option Z) :=
  ensure_cached s a RequireNone true (fun acc => acc ≫= account_storage_root).
Definition code (s : State) (a : Z) : sres (option bytes) :=
  ensure_cached s a RequireCode true (fun acc => acc ≫= account_code).
Definition code_hash (s : State) (a : Z) : sres Z :=
  ensure_cached s a RequireNone true (fun acc => match acc with Some acc => acc_code_hash acc | None => KECCAK_EMPTY end).
Definition code_size (s : State) (a : Z) : sres (option Z) :=
  ensure_cached s a RequireCodeSize true (fun acc => acc ≫= acc_code_size).

(** [account_db] and [account.storage_at] *)
Definition storage_of (b : B) (a : Z) (acc : Account C) (key : Z) : outcome TrieError Z * Account C :=
  let '(h, acc) := address_hash keccak acc a in
  account_storage_at acc (accountdb_readonly (as_hashdb b) h) key.

Definition storage_at (s : State) (a key : Z) : sres Z :=
  (* the local cache *)
  let local := match st_cache s !! a with
    | Some e =>
        match account e with
        | Some acc => let '(r, acc) := cached_storage_at acc key in Some (r, Some acc, mkEntry (Some acc) (old_balance e) (entry_state e))
        | None => Some (Some 0, None, e)
        end
    | None => None
    end in
  let s := match local with Some (_, _, e) => with_cache (<[a := e]> (st_cache s)) s | None => s end in
  match local with
  | Some (Some value, _, _) => Ok (value, s)
  | _ =>
      (* the global cache *)
      match get_cached (st_db s) a
        (fun b acc => match acc with
                      | None => (Ok 0, None, b)
                      | Some acc => let '(r, acc) := storage_of b a acc key in (r, Some acc, b)
                      end) with
      | (Some r, b) => let s := with_db b s in v ← try_trie s r; Ok (v, s)
      | (None, b) =>
          let s := with_db b s in
          match local with
          | Some (_, Some acc, e) =>
              let '(r, acc) := storage_of b a acc key in
              let s := with_cache (<[a := mkEntry (Some acc) (old_balance e) (entry_state e)]> (st_cache s)) s in
              v ← try_trie s r; Ok (v, s)
          | Some (_, None, _) => Ok (0, s)
          | None =>
              if is_known_null b a then Ok (0, s)
              else
                maybe_acc ← try_trie s (expect_root (trie_account s a));
                let '(r, maybe_acc) := match maybe_acc with
                  | Some acc => let '(r, acc) := storage_of b a acc key in (r, Some acc)
                  | None => (Ok 0, None)
                  end in
                let s := insert_cache a (new_clean maybe_acc) s in
                v ← try_trie s r; Ok (v, s)
          end
      end
  end.

(** *** Changes *)
Definition new_contract (s : State) (contract bal nonce_offset : Z) : outcome (TrieError * State) State :=
  n ← add_chk 256 (account_start_nonce s) nonce_offset;
  Ok (insert_cache contract (new_dirty (Some (Account_new_contract bal n))) s).

Definition kill_account (s : State) (a : Z) : State := insert_cache a (new_dirty None) s.

Definition touch (s : State) (a : Z) : sres unit := '(_, s) ← require s a false; Ok (tt, s).

(** [self.require(a, false)?.f()] *)
Definition modify (s : State) (a : Z) (f : Account C -> outcome (TrieError * State) (Account C)) : sres unit :=
  '(acc, s) ← require s a false; acc ← f acc; Ok (tt, store_account s a acc).

Definition add_balance (s : State) (a incr : Z) (mode : CleanupMode) : sres CleanupMode :=
  if negb (incr =? 0) then '(_, s) ← modify s a (account_add_balance incr); Ok (mode, s)
  else
    match mode with
    | ForceCreate =>
        '(ex, s) ← state_exists s a;
        if negb (ex : bool) then '(_, s) ← modify s a (account_add_balance incr); Ok (mode, s) else Ok (mode, s)
    | NoEmpty => Ok (mode, s)
    | TrackTouched touched =>
        '(ex, s) ← state_exists s a;
        if (ex : bool) then '(_, s) ← touch s a; Ok (TrackTouched ({[a]} ∪ touched), s) else Ok (mode, s)
    end.

Definition sub_balance (s : State) (a decr : Z) (mode : CleanupMode) : sres CleanupMode :=
  '(change, s) ← (if negb (decr =? 0) then Ok (true, s) else '(ex, s) ← state_exists s a; Ok (negb ex, s));
  '(_, s) ← (if (change : bool) then modify s a (account_sub_balance decr) else Ok (tt, s));
  Ok (match mode with TrackTouched touched => TrackTouched ({[a]} ∪ touched) | m => m end, s).

Definition transfer_balance (s : State) (from to by_ : Z) (mode : CleanupMode) : sres CleanupMode :=
  '(mode, s) ← sub_balance s from by_ mode; add_balance s to by_ mode.

Definition inc_nonce (s : State) (a : Z) : sres unit := modify s a account_inc_nonce.

Definition set_storage (s : State) (a key value : Z) : sres unit :=
  '(v, s) ← storage_at s a key;
  if negb (v =? value) then modify s a (fun acc => Ok (account_set_storage key value acc)) else Ok (tt, s).

Definition init_code (s : State) (a : Z) (code : bytes) : sres unit :=
  '(acc, s) ← require_or_from s a true (Account_new_contract 0 (account_start_nonce s));
  Ok (tt, store_account s a (account_init_code keccak code acc)).
Definition reset_code (s : State) (a : Z) (code : bytes) : sres unit :=
  '(acc, s) ← require_or_from s a true (Account_new_contract 0 (account_start_nonce s));
  Ok (tt, store_account s a (account_reset_code keccak code acc)).

Definition state_clear (s : State) : State := with_cache ∅ s.

(** The accounts [kill_garbage] removes. *)
Definition to_kill (touched : gset Z) (remove_empty_touched : bool) (min_balance : option Z) (kill_contracts : bool)
    (a : Z) (e : AccountEntry) : bool :=
  bool_decide (a ∈ touched) &&
  ((remove_empty_touched && exists_and_is_null e) ||
   match min_balance, account e with
   | Some bal, Some acc =>
       (is_basic acc || kill_contracts) && (acc_balance acc <? bal) &&
       match old_balance e with Some b => acc_balance acc <? b | None => false end
   | _, _ => false
   end).
Definition kill_garbage (s : State) (touched : gset Z) (remove_empty_touched : bool) (min_balance : option Z) (kill_contracts : bool) : State :=
  fold_left (fun s '(a, e) => if to_kill touched remove_empty_touched min_balance kill_contracts a e then kill_account s a else s)
    (map_to_list (st_cache s)) s.
End state.
Arguments AccountEntry : clear implicits.
Arguments State : clear implicits.
