(* ===== verification/StateSpec.v ===== *)
(** * What the state implements

    The abstract state is a function from addresses to accounts with a stack of
    saved copies: [checkpoint] pushes a copy, [revert_to_checkpoint] restores
    it, [discard_checkpoint] forgets it.  [sim] relates [State], with its
    caches and undo records, to it. *)
From stdpp Require Import base list numbers gmap.
From S2P Require Import Prelude JumpDests RlpImpls Account State.

(** ** Abstract accounts *)
Record AAccount := mkA { aa_balance : Z; aa_nonce : Z; aa_code_hash : Z; aa_code : bytes; aa_storage : Z -> Z }.

(** Equal up to the representation of storage. *)
Definition aeq (x y : option AAccount) : Prop :=
  match x, y with
  | Some x, Some y =>
      aa_balance x = aa_balance y /\ aa_nonce x = aa_nonce y /\ aa_code_hash x = aa_code_hash y /\ aa_code x = aa_code y /\
      forall k, aa_storage x k = aa_storage y k
  | None, None => True
  | _, _ => False
  end.

#[global] Instance aeq_equiv : Equivalence aeq.
Proof.
  split.
  - intros [x|]; by cbn.
  - intros [x|] [y|]; cbn; try done. intros (-> & -> & -> & -> & Hs). by repeat split.
  - intros [x|] [y|] [z|]; cbn; try done. intros (-> & -> & -> & -> & Hs) (-> & -> & -> & -> & Ht). repeat split.
    intros k. by rewrite Hs.
Qed.

(** The accounts, and the copies saved by the open checkpoints, last first. *)
Record AState := mkAState { a_cur : Z -> option AAccount; a_saved : list (Z -> option AAccount) }.

(** ** What the database holds *)
Section spec.
Context {DB C : Type} `{HashDB DB} `{LruLaws C} (keccak : bytes -> Z) (D : DB) (root : Z) (codes : Z -> option bytes).

Definition ah (a : Z) : Z := keccak (Z_to_be 20 a).
Definition adb (a : Z) : DB := accountdb_readonly D (ah a).

Definition db_account (a : Z) : option BasicAccount :=
  match sec_trie_get D root (Z_to_be 20 a) with
  | Ok (Some rlp) => match decode_bytes rlp with Ok b => Some b | _ => None end
  | _ => None
  end.
Definition storage_in (a r k : Z) : Z :=
  match sec_trie_get (adb a) r (Z_to_be 32 k) with
  | Ok (Some rlp) => match @decode_bytes _ (uint_Decodable 32) rlp with Ok v => v | _ => 0 end
  | _ => 0
  end.
Definition db_storage (a k : Z) : Z :=
  match db_account a with Some b => storage_in a (b_storage_root b) k | None => 0 end.

Definition code_of_hash (h : Z) : bytes := if h =? KECCAK_EMPTY then [] else default [] (codes h).

Definition db_view (a : Z) : option AAccount :=
  b ← db_account a; Some (mkA (b_balance b) (b_nonce b) (b_code_hash b) (code_of_hash (b_code_hash b)) (db_storage a)).

(** A storage trie all of which can be read. *)
Definition readable (a r : Z) : Prop :=
  forall k, exists o, sec_trie_get (adb a) r (Z_to_be 32 k) = Ok o /\
    match o with Some rlp => exists v, @decode_bytes _ (uint_Decodable 32) rlp = Ok v | None => True end.

(** The database holds the whole state: accounts, storage and code; code is
    determined by its hash. *)
Record db_complete : Prop := {
  dc_account a : exists o, sec_trie_get D root (Z_to_be 20 a) = Ok o /\
    match o with Some rlp => exists b : BasicAccount, decode_bytes rlp = Ok b | None => True end;
  dc_storage a b : db_account a = Some b -> readable a (b_storage_root b);
  dc_null a k : sec_trie_get (adb a) KECCAK_NULL_RLP (Z_to_be 32 k) = Ok None;
  dc_code a b : db_account a = Some b -> b_code_hash b <> KECCAK_EMPTY ->
    exists c, c <> [] /\ db_get (adb a) (b_code_hash b) = Some c;
  dc_codes a h c : db_get (adb a) h = Some c -> codes h = Some c;
}.

(** ** Accounts with consistent caches *)
Definition code_view (acc : Account C) : bytes :=
  match acc_code_cache acc with [] => code_of_hash (acc_code_hash acc) | c => c end.

Definition abs_acc (base : Z -> Z) (acc : Account C) : AAccount :=
  mkA (acc_balance acc) (acc_nonce acc) (acc_code_hash acc) (code_view acc)
    (fun k => default (base k) (acc_storage_changes acc !! k)).

Record code_ok (a : Z) (acc : Account C) : Prop := {
  cok_size n : acc_code_size acc = Some n -> n = len (code_view acc);
  cok_cached : acc_code_cache acc <> [] -> is_Some (acc_code_size acc);
  cok_stored : acc_code_cache acc = [] -> acc_code_hash acc <> KECCAK_EMPTY ->
    exists c, c <> [] /\ db_get (adb a) (acc_code_hash acc) = Some c;
}.

(** [base]: the storage below the account's own changes. *)
Record acc_ok (a : Z) (base : Z -> Z) (acc : Account C) : Prop := {
  ao_readable : readable a (acc_storage_root acc);
  ao_base k : storage_in a (acc_storage_root acc) k = base k;
  ao_cache k v : lru_holds (acc_storage_cache acc) k v -> v = base k;
  ao_hash h : acc_address_hash acc = Some h -> h = ah a;
  ao_code : code_ok a acc;
}.

(** An account as the database has it. *)
Definition from_db (a : Z) (o : option (Account C)) : Prop :=
  aeq (abs_acc (db_storage a) <$> o) (db_view a) /\ forall acc, o = Some acc -> acc_ok a (db_storage a) acc.

(** ** What the state relies on its backend for

    A shared cache that answers only with accounts of the database, a code cache
    that answers only with code of the database, and a filter that only claims
    absent accounts to be null.  [backend_private b a]: the shared cache does not
    answer for [a]. *)
Class BackendLaws (B : Type) `{Backend B DB C} := {
  backend_ok : B -> Prop;
  backend_private : B -> Z -> Prop;
  backend_kept (b b' : B) : Prop := backend_ok b' /\ forall a, backend_private b a -> backend_private b' a;
  bl_db b : backend_ok b -> as_hashdb b = D;
  bl_get b a : backend_ok b -> backend_kept b (snd (cached_get_mut b a)) /\
    forall o, fst (cached_get_mut b a) = Some o -> from_db a o /\ ~ backend_private b a;
  bl_put b a o : backend_ok b -> from_db a o -> backend_kept b (cached_put b a o);
  bl_account b a : backend_ok b -> backend_kept b (snd (get_cached_account b a)) /\
    forall o, fst (get_cached_account b a) = Some o -> from_db a o;
  bl_code b h : backend_ok b -> backend_kept b (snd (get_cached_code b h)) /\
    forall c, fst (get_cached_code b h) = Some c -> codes h = Some c;
  bl_cache_code b h c : backend_ok b -> codes h = Some c -> backend_kept b (backend_cache_code b h c);
  bl_null b a : backend_ok b -> is_known_null b a = true -> db_account a = None;
}.

(** ** The relation *)
Section sim.
Context {B : Type} `{BackendLaws B}.
Implicit Types (s : State B C) (e : AccountEntry C) (cache : gmap Z (AccountEntry C)) (c : gmap Z (option (AccountEntry C))).

Definition is_clean e : Prop := entry_state e <> Dirty.

Record entry_ok (a : Z) (base : Z -> Z) e : Prop := {
  eo_account acc : account e = Some acc -> acc_ok a base acc;
  eo_absent : account e = None -> forall k, base k = 0;
  eo_clean : is_clean e -> aeq (abs_acc base <$> account e) (db_view a) /\ forall k, base k = db_storage a k;
}.

Definition view (base : Z -> Z -> Z) cache (a : Z) : option AAccount :=
  match cache !! a with Some e => abs_acc (base a) <$> account e | None => db_view a end.

(** What a checkpoint says the state was. *)
Definition unwind (base : Z -> Z -> Z) c (cur : Z -> option AAccount) (a : Z) : option AAccount :=
  match c !! a with
  | Some (Some e) => abs_acc (base a) <$> account e
  | Some None => db_view a
  | None => cur a
  end.

Fixpoint unwinds (base : Z -> Z -> Z) (cur : Z -> option AAccount) (cs : list (gmap Z (option (AccountEntry C))))
    (saved : list (Z -> option AAccount)) : Prop :=
  match cs, saved with
  | [], [] => True
  | c :: cs, old :: saved => (forall a, aeq (unwind base c cur a) (old a)) /\ unwinds base old cs saved
  | _, _ => False
  end.

(** An account a checkpoint remembers has existed ever since. *)
Definition present (o : option (AccountEntry C)) : Prop := exists e, o = Some e /\ is_Some (account e).

Fixpoint alive (a : Z) (P : Prop) (cs : list (gmap Z (option (AccountEntry C)))) : Prop :=
  match cs with
  | [] => True
  | c :: cs =>
      match c !! a with
      | Some o => (present o -> P) /\ alive a (present o) cs
      | None => alive a P cs
      end
  end.

Definition saved_ok (base : Z -> Z -> Z) c : Prop :=
  forall a o, c !! a = Some o ->
    match o with Some e => entry_ok a (base a) e | None => forall k, base a k = db_storage a k end.

(** [base a]: the storage of [a] in the database, or nothing once the account
    was removed; in that case the shared cache must not know it. *)
Record state_ok (base : Z -> Z -> Z) s : Prop := {
  so_backend : backend_ok (st_db s);
  so_root : st_root s = root;
  so_base a : (forall k, base a k = db_storage a k) \/ (backend_private (st_db s) a /\ forall k, base a k = 0);
  so_entries a e : st_cache s !! a = Some e -> entry_ok a (base a) e;
  so_vacant a : st_cache s !! a = None -> forall k, base a k = db_storage a k;
  so_saved : Forall (saved_ok base) (st_checkpoints s);
  so_alive a : alive a (present (st_cache s !! a)) (st_checkpoints s);
}.

Record rep (base : Z -> Z -> Z) s (A : AState) : Prop := {
  rep_ok : state_ok base s;
  rep_cur a : aeq (view base (st_cache s) a) (a_cur A a);
  rep_saved : unwinds base (a_cur A) (st_checkpoints s) (a_saved A);
}.

Definition sim s (A : AState) : Prop := exists base, rep base s A.
End sim.
End spec.
Arguments backend_ok {DB C H H0 H1 keccak D root codes B H2 BackendLaws}.
Arguments backend_private {DB C H H0 H1 keccak D root codes B H2 BackendLaws}.
Arguments backend_kept {DB C H H0 H1 keccak D root codes B H2 BackendLaws}.
Arguments bl_db {DB C H H0 H1 keccak D root codes B H2 BackendLaws}.
Arguments bl_get {DB C H H0 H1 keccak D root codes B H2 BackendLaws}.
Arguments bl_put {DB C H H0 H1 keccak D root codes B H2 BackendLaws}.
Arguments bl_account {DB C H H0 H1 keccak D root codes B H2 BackendLaws}.
Arguments bl_code {DB C H H0 H1 keccak D root codes B H2 BackendLaws}.
Arguments bl_cache_code {DB C H H0 H1 keccak D root codes B H2 BackendLaws}.
Arguments bl_null {DB C H H0 H1 keccak D root codes B H2 BackendLaws}.

(** ** A backend without caches ([Basic] of [ethcore/src/state/backend.rs])

    It wraps the database and answers nothing by itself.  Over a complete
    database it keeps the laws, and no account is ever in a shared cache, which
    is what the removals at the end of a transaction rely on. *)
Record Basic (H : Type) := mkBasicBackend { basic_db : H }.
Arguments mkBasicBackend {H}.
Arguments basic_db {H}.

#[global] Instance Basic_backend {DB C} : Backend (Basic DB) DB C := {|
  as_hashdb b := basic_db b;
  cached_get_mut b _ := (None, b);
  cached_put b _ _ := b;
  get_cached_account b _ := (None, b);
  backend_cache_code b _ _ := b;
  get_cached_code b _ := (None, b);
  is_known_null _ _ := false;
|}.

#[global] Instance Basic_laws {DB C} `{HashDB DB} `{LruLaws C} (keccak : bytes -> Z) (D : DB) (root : Z) (codes : Z -> option bytes) :
  BackendLaws keccak D root codes (Basic DB).
Proof. refine {| backend_ok (b : Basic DB) := basic_db b = D; backend_private _ _ := True |}; by repeat split. Defined.

Lemma Basic_private {DB C} `{HashDB DB} `{LruLaws C} (keccak : bytes -> Z) (D : DB) root codes (b : Basic DB) a :
  backend_ok (keccak := keccak) (D := D) (root := root) (codes := codes) b -> backend_private (keccak := keccak) (D := D) (root := root) (codes := codes) b a.
Proof. done. Qed.
