(* ===== verification/StateReads.v ===== *)
(** * Queries of the state

    Filling a cache changes no account; every query answers with what the
    abstract state holds and leaves a state that represents it. *)
From stdpp Require Import base list numbers gmap.
From S2P Require Import Prelude JumpDests RlpImpls Account State StateSpec.

Section reads.
Context {DB C : Type} `{HashDB DB} `{LruLaws C} (keccak : bytes -> Z) (D : DB) (root : Z) (codes : Z -> option bytes).
Context {B : Type} `{!Backend B DB C} `{!BackendLaws keccak D root codes B} (Hdb : db_complete keccak D root codes).
Implicit Types (s : State B C) (e : AccountEntry C) (acc : Account C) (base : Z -> Z -> Z).

#[local] Abbreviation acc_ok := (acc_ok keccak D).
#[local] Abbreviation abs_acc := (abs_acc codes).
#[local] Abbreviation db_view := (db_view keccak D root codes).
#[local] Abbreviation db_storage := (db_storage keccak D root).
#[local] Abbreviation from_db := (from_db keccak D root codes).
#[local] Abbreviation entry_ok := (entry_ok keccak D root codes).
#[local] Abbreviation state_ok := (state_ok keccak D root codes).
#[local] Abbreviation view := (view keccak D root codes).

#[local] Arguments KECCAK_EMPTY : simpl never.

Lemma backend_kept_refl (b : B) : backend_ok b -> backend_kept b b.
Proof. by split. Qed.

Lemma backend_kept_trans (b1 b2 b3 : B) : backend_kept b1 b2 -> backend_kept b2 b3 -> backend_kept b1 b3.
Proof. intros [? ?] [? ?]. split; auto. Qed.

(** ** Accounts *)
Lemma storage_null a k : storage_in keccak D a KECCAK_NULL_RLP k = 0.
Proof. unfold storage_in. by rewrite (dc_null _ _ _ _ Hdb). Qed.

Lemma readable_null a : readable keccak D a KECCAK_NULL_RLP.
Proof. intros k. exists None. by rewrite (dc_null _ _ _ _ Hdb). Qed.

(** A new account, below which there is no storage. *)
Lemma fresh_ok a (base : Z -> Z) acc :
  (forall k, base k = 0) -> acc_storage_root acc = KECCAK_NULL_RLP -> acc_storage_cache acc = empty_storage_cache ->
  acc_code_hash acc = KECCAK_EMPTY -> acc_code_cache acc = [] -> acc_address_hash acc = None ->
  (acc_code_size acc = None \/ acc_code_size acc = Some 0) -> acc_ok codes a base acc.
Proof.
  intros Hb Hr Hc Hh Hcc Ha Hs. split.
  - rewrite Hr. apply readable_null.
  - intros k. by rewrite Hr, storage_null.
  - intros k v. rewrite Hc. by intros ?%lru_new_holds.
  - intros h. by rewrite Ha.
  - split; [|done|done]. intros n Hn. unfold code_view, code_of_hash. rewrite Hcc, Hh, Z.eqb_refl. destruct Hs as [Hs|Hs]; by simplify_eq.
Qed.

Lemma cached_storage_at_ok a (base : Z -> Z) acc key :
  acc_ok codes a base acc ->
  exists r acc', cached_storage_at acc key = (r, acc') /\ acc_ok codes a base acc' /\ abs_acc base acc' = abs_acc base acc /\
    acc_storage_root acc' = acc_storage_root acc /\
    match r with
    | Some v => v = aa_storage (abs_acc base acc) key
    | None => acc_storage_changes acc' !! key = None
    end.
Proof.
  intros [Hr Hb Hc Hh Hcode]. unfold cached_storage_at. destruct (acc_storage_changes acc !! key) as [v|] eqn:Hk.
  { eexists _, _. split; [done|]. split; [done|]. split; [done|]. split; [done|]. cbn. by rewrite Hk. }
  pose proof (lru_get_holds (acc_storage_cache acc) key) as Hg. pose proof (lru_get_keeps (acc_storage_cache acc) key) as Hkeep.
  destruct (lru_get_mut (acc_storage_cache acc) key) as [r c]. eexists _, _. split; [done|]. split; [|split; [done|split; [done|]]].
  - split; [done|done| |done|by destruct Hcode]. intros k v Hv. by apply Hc, Hkeep.
  - destruct r as [v|]; [|done]. cbn. rewrite Hk. cbn. apply Hc, Hg. done.
Qed.

Lemma address_hash_ok a (base : Z -> Z) acc :
  acc_ok codes a base acc ->
  exists acc', address_hash keccak acc a = (ah keccak a, acc') /\ acc_ok codes a base acc' /\ abs_acc base acc' = abs_acc base acc /\
    acc_storage_root acc' = acc_storage_root acc /\ acc_storage_changes acc' = acc_storage_changes acc /\
    acc_storage_cache acc' = acc_storage_cache acc.
Proof.
  intros Hok. unfold address_hash. destruct (acc_address_hash acc) as [h|] eqn:Hh.
  - rewrite (ao_hash _ _ _ _ _ _ Hok h Hh). by exists acc.
  - eexists. split; [done|]. split; [|done]. destruct Hok as [Hr Hb Hc _ Hcode]. split; [done|done|done| |by destruct Hcode].
    by intros h [= <-].
Qed.

Lemma storage_of_ok b a (base : Z -> Z) acc key :
  as_hashdb b = D -> acc_ok codes a base acc ->
  exists acc', storage_of keccak b a acc key = (Ok (aa_storage (abs_acc base acc) key), acc') /\ acc_ok codes a base acc' /\
    abs_acc base acc' = abs_acc base acc.
Proof.
  intros Hb Hok. unfold storage_of. destruct (address_hash_ok a base acc Hok) as (acc1 & -> & Hok1 & Habs1 & _).
  unfold account_storage_at. rewrite Hb. destruct (cached_storage_at_ok a base acc1 key Hok1) as (r & acc2 & -> & Hok2 & Habs2 & Hr2 & Hr).
  rewrite <-Habs1. destruct r as [v|]; [by rewrite <-Hr; exists acc2; rewrite Habs2|].
  assert (Hst : aa_storage (abs_acc base acc1) key = base key) by (rewrite <-Habs2; cbn; by rewrite Hr).
  destruct (ao_readable _ _ _ _ _ _ Hok2 key) as (o & Ho & Hdec). pose proof (ao_base _ _ _ _ _ _ Hok2 key) as Hbase.
  unfold storage_in, adb in Hbase. unfold adb in Ho. rewrite Ho in *. rewrite Hst.
  assert (Hv : exists v, match o with Some rlp => @decode_bytes _ (uint_Decodable 32) rlp | None => Ok 0 end = Ok v /\ v = base key).
  { destruct o as [rlp|]; [|by exists 0]. destruct Hdec as [v Hv]. rewrite Hv in Hbase. by exists v. }
  destruct Hv as (v & -> & ->). eexists. split; [done|]. split; [|by rewrite <-Habs2].
  destruct Hok2 as [Hrd Hb2 Hc Hh Hcode]. split; [done|done| |done|by destruct Hcode].
  intros k v [[-> ->]|[_ Hin]]%lru_insert_holds; [done|by apply Hc].
Qed.

(** ** Code *)
Definition loaded (require : RequireCache) acc : Prop :=
  match require with
  | RequireNone => True
  | RequireCode => account_code acc = Some (code_view codes acc)
  | RequireCodeSize => default 0 (acc_code_size acc) = len (code_view codes acc)
  end.

Lemma is_cached_false acc : is_cached acc = false -> acc_code_cache acc = [] /\ acc_code_hash acc <> KECCAK_EMPTY.
Proof.
  unfold is_cached. destruct (acc_code_cache acc) as [|x l]; cbn; [|by rewrite len_cons; destruct (Z.eqb_spec (1 + len l) 0); [pose proof (len_nonneg l); lia|]].
  by intros Hf%Z.eqb_neq.
Qed.

Lemma is_cached_true a acc : code_ok keccak D codes a acc -> is_cached acc = true ->
  account_code acc = Some (code_view codes acc) /\ default 0 (acc_code_size acc) = len (code_view codes acc).
Proof.
  intros [Hs Hc _] Hcached. unfold is_cached, account_code, code_view, code_of_hash in *.
  destruct (acc_code_cache acc) as [|x l]; cbn in *.
  - change (len (@nil Z) =? 0) with true in *. cbn in Hcached. rewrite Hcached in *. cbn. split; [done|]. destruct (acc_code_size acc) as [n|]; [by apply Hs|done].
  - destruct Hc as [n Hn]; [done|]. rewrite len_cons in *. destruct (Z.eqb_spec (1 + len l) 0); [pose proof (len_nonneg l); lia|].
    rewrite andb_false_r. split; [done|]. rewrite Hn. by apply Hs.
Qed.

(** Code that was found for an account that has none loaded. *)
Lemma give_code_ok a (base : Z -> Z) acc c :
  acc_ok codes a base acc -> is_cached acc = false -> codes (acc_code_hash acc) = Some c ->
  acc_ok codes a base (cache_given_code c acc) /\ abs_acc base (cache_given_code c acc) = abs_acc base acc /\
  c <> [] /\ db_get (adb keccak D a) (acc_code_hash acc) = Some c.
Proof.
  intros Hok [Hcc Hh]%is_cached_false Hc. pose proof (ao_code _ _ _ _ _ _ Hok) as Hcode.
  destruct (cok_stored _ _ _ _ _ Hcode Hcc Hh) as (c' & Hne & Hget). pose proof (dc_codes _ _ _ _ Hdb _ _ _ Hget) as Hc'. simplify_eq.
  assert (Hv : code_view codes (cache_given_code c acc) = code_view codes acc).
  { unfold code_view, code_of_hash. cbn. rewrite Hcc. apply Z.eqb_neq in Hh. rewrite Hh, Hc. by destruct c. }
  split_and!; [|unfold abs_acc; by rewrite Hv|done|done]. destruct Hok as [Hr Hb Hcache Hah _]. split; [done|done|done|done|].
  split; [|by intros _; cbn; eexists|by cbn]. intros n. rewrite Hv. unfold code_view, code_of_hash. cbn. intros [= <-].
  rewrite Hcc. apply Z.eqb_neq in Hh. by rewrite Hh, Hc.
Qed.

Lemma update_account_cache_ok require a (base : Z -> Z) acc b :
  acc_ok codes a base acc -> backend_ok b ->
  exists acc' b', update_account_cache require acc b (adb keccak D a) = (acc', b') /\ acc_ok codes a base acc' /\
    abs_acc base acc' = abs_acc base acc /\ backend_kept b b' /\ loaded require acc'.
Proof.
  intros Hok Hb. pose proof (ao_code _ _ _ _ _ _ Hok) as Hcode.
  destruct require; cbn [update_account_cache]; [eexists _, _; split_and!; [done..|by apply backend_kept_refl|done]| |].
  all: destruct (is_cached acc) eqn:Hic; [destruct (is_cached_true a acc Hcode Hic); eexists _, _; split_and!; [done..|by apply backend_kept_refl|done]|].
  all: destruct (bl_code b (acc_code_hash acc) Hb) as [Hkept Hc]; destruct (get_cached_code b (acc_code_hash acc)) as [[c|] b1]; cbn [fst snd] in *.
  1, 3: destruct (give_code_ok a base acc c Hok Hic (Hc c eq_refl)) as (Hok' & Habs & Hne & _); eexists _, _; split_and!; try done.
  1, 2: destruct (is_cached_true a (cache_given_code c acc)) as [Hcd Hsz]; [apply Hok'|by destruct c|]; done.
  all: destruct (is_cached_false _ Hic) as [Hcc Hh]; destruct (cok_stored _ _ _ _ _ Hcode Hcc Hh) as (c & Hne & Hget).
  all: pose proof (dc_codes _ _ _ _ Hdb _ _ _ Hget) as Hcs; destruct (give_code_ok a base acc c Hok Hic Hcs) as (Hok' & Habs & _).
  - eexists _, _. split; [done|]. unfold cache_code_size. destruct (acc_code_size acc) as [n|] eqn:Hn.
    { rewrite bool_decide_true by done. cbn [snd]. split_and!; try done. cbn. rewrite Hn. cbn. by apply (cok_size _ _ _ _ _ Hcode). }
    rewrite bool_decide_false by (by intros []). apply Z.eqb_neq in Hh as Hh'. rewrite Hh', Hget. cbn [negb snd].
    assert (Hcv : code_view codes acc = c) by (unfold code_view, code_of_hash; by rewrite Hcc, Hh', Hcs).
    split_and!; [|done|done|unfold loaded; cbn [acc_code_size with_code]; unfold code_view, code_of_hash; cbn; by rewrite Hcc, Hh', Hcs].
    destruct Hok as [Hr Hbs Hcache Hah _]. split; [done|done|done|done|]. split; [|by cbn|exact (cok_stored _ _ _ _ _ Hcode)].
    intros m [= <-]. unfold code_view, code_of_hash. cbn. by rewrite Hcc, Hh', Hcs.
  - unfold cache_code. rewrite Hic, Hget. eexists _, _. split; [done|]. split_and!; [done|done| |].
    + eapply backend_kept_trans; [done|]. apply bl_cache_code; [apply Hkept|done].
    + apply (is_cached_true a); [apply Hok'|]. by destruct c.
Qed.

Lemma update_account_ok require a (base : Z -> Z) acc b :
  acc_ok codes a base acc -> backend_ok b ->
  exists acc' b', update_account keccak require a acc b = (acc', b') /\ acc_ok codes a base acc' /\
    abs_acc base acc' = abs_acc base acc /\ backend_kept b b' /\ loaded require acc'.
Proof.
  intros Hok Hb. unfold update_account. destruct (address_hash_ok a base acc Hok) as (acc1 & -> & Hok1 & Habs1 & _).
  rewrite (bl_db b Hb). destruct (update_account_cache_ok require a base acc1 b Hok1 Hb) as (acc2 & b2 & Hu & ? & Habs2 & ? & ?).
  exists acc2, b2. rewrite <-Habs1. done.
Qed.
(** ** States that represent the same accounts *)
Lemma alive_mono a (P Q : Prop) (cs : list (gmap Z (option (AccountEntry C)))) : (P -> Q) -> alive a P cs -> alive a Q cs.
Proof. revert P Q. induction cs as [|c cs IH]; intros P Q HPQ; [done|]. cbn. destruct (c !! a); [naive_solver|]. by apply IH. Qed.

Lemma with_db_ok base s b : state_ok base s -> backend_kept (st_db s) b -> state_ok base (with_db b s).
Proof.
  intros [Hbk Hrt Hbs Hen Hva Hsv Hal] [Hb Hpriv]. split; try done. intros a. destruct (Hbs a) as [Hd|[Hp Hz]]; [by left|right]. split; [by apply Hpriv|done].
Qed.

(** Replacing the entry of [a]. *)
Lemma set_entry_ok base s a e :
  state_ok base s -> entry_ok a (base a) e -> (st_checkpoints s <> [] -> present (st_cache s !! a) -> is_Some (account e)) ->
  state_ok base (with_cache (<[a := e]> (st_cache s)) s).
Proof.
  intros [Hbk Hrt Hbs Hen Hva Hsv Hal] He Hp. split; try done; cbn [st_cache st_checkpoints with_cache].
  - intros a' e'. destruct (decide (a = a')) as [<-|]; [rewrite lookup_insert_eq; by intros [= <-]|rewrite lookup_insert_ne by done; apply Hen].
  - intros a'. destruct (decide (a = a')) as [<-|]; [by rewrite lookup_insert_eq|rewrite lookup_insert_ne by done; apply Hva].
  - intros a'. destruct (decide (a = a')) as [<-|]; [|rewrite lookup_insert_ne by done; apply Hal].
    rewrite lookup_insert_eq. specialize (Hal a). destruct (st_checkpoints s) as [|c cs]; [done|]. eapply alive_mono; [|exact Hal].
    intros Hpres. exists e. split; [done|]. by apply Hp.
Qed.

Lemma view_insert base (cache : gmap Z (AccountEntry C)) a e a' :
  view base (<[a := e]> cache) a' = if decide (a = a') then abs_acc (base a) <$> account e else view base cache a'.
Proof.
  unfold StateSpec.view. destruct (decide (a = a')) as [<-|]; [by rewrite lookup_insert_eq|by rewrite lookup_insert_ne].
Qed.

Record kept base s s' : Prop := {
  kp_ok : state_ok base s';
  kp_view a : aeq (view base (st_cache s') a) (view base (st_cache s) a);
  kp_checkpoints : st_checkpoints s' = st_checkpoints s;
  kp_nonce : account_start_nonce s' = account_start_nonce s;
}.

Lemma kept_refl base s : state_ok base s -> kept base s s.
Proof. by split. Qed.

Lemma kept_trans base s1 s2 s3 : kept base s1 s2 -> kept base s2 s3 -> kept base s1 s3.
Proof. intros [? Hv ? ?] [? Hv' ? ?]. split; [done| |congruence..]. intros a. by rewrite Hv', Hv. Qed.

Lemma kept_db base s b : state_ok base s -> backend_kept (st_db s) b -> kept base s (with_db b s).
Proof. intros. split; [by apply with_db_ok|done..]. Qed.

(** The entry of [a] with the same account, or an entry loaded from the database. *)
Lemma kept_entry base s a e :
  state_ok base s -> entry_ok a (base a) e -> aeq (abs_acc (base a) <$> account e) (view base (st_cache s) a) ->
  kept base s (with_cache (<[a := e]> (st_cache s)) s).
Proof.
  intros Hs He Hv. split; [|intros a'; cbn [st_cache with_cache]; rewrite view_insert; by case_decide as Ha; [destruct Ha|]|done..].
  apply set_entry_ok; [done..|]. intros _ (e' & He' & [acc Hacc]). unfold StateSpec.view in Hv. rewrite He', Hacc in Hv.
  destruct (account e); [by eexists|done].
Qed.

(** ** Loading *)
Lemma from_db_basic a b : db_account D root a = Some b -> from_db a (Some (Account_from b)).
Proof.
  intros Hda. split.
  - unfold StateSpec.db_view. rewrite Hda. by cbn.
  - intros acc [= <-]. split.
    + by apply (dc_storage _ _ _ _ Hdb).
    + intros k. unfold StateSpec.db_storage. by rewrite Hda.
    + intros k v ?%lru_new_holds. done.
    + done.
    + split; [done|done|]. intros _ Hh. by apply (dc_code _ _ _ _ Hdb a b Hda).
Qed.

Lemma trie_account_ok base s a :
  state_ok base s -> exists o, trie_account s a = Ok o /\ from_db a o.
Proof.
  intros Hs. unfold trie_account. rewrite (bl_db _ (so_backend _ _ _ _ _ _ Hs)), (so_root _ _ _ _ _ _ Hs).
  destruct (dc_account _ _ _ _ Hdb a) as (o & Ho & Hdec). rewrite Ho. cbn [mbind outcome_bind].
  assert (Hda : db_account D root a = o ≫= fun rlp => match decode_bytes rlp with Ok b => Some b | _ => None end).
  { unfold db_account. rewrite Ho. by destruct o. }
  destruct o as [rlp|].
  - destruct Hdec as [b Hb]. unfold from_rlp. rewrite Hb. cbn [mbind outcome_bind]. eexists. split; [done|].
    apply from_db_basic. cbn in Hda. by rewrite Hb in Hda.
  - exists None. split; [done|]. split; [|done]. unfold StateSpec.db_view. by rewrite Hda.
Qed.

Lemma from_db_same a acc acc' :
  from_db a (Some acc) -> acc_ok codes a (db_storage a) acc' -> abs_acc (db_storage a) acc' = abs_acc (db_storage a) acc -> from_db a (Some acc').
Proof. intros [Hv _] Hok Habs. split; [change (aeq (Some (abs_acc (db_storage a) acc')) (db_view a)); by rewrite Habs|]. by intros ? [= <-]. Qed.

Lemma from_db_ext (base : Z -> Z) a o :
  from_db a o -> (forall k, base k = db_storage a k) ->
  aeq (abs_acc base <$> o) (db_view a) /\ forall acc, o = Some acc -> acc_ok codes a base acc.
Proof.
  intros [Hv Hok] Hb. split.
  - rewrite <-Hv. destruct o as [acc|]; [|done]. cbn. repeat split. intros k. by rewrite Hb.
  - intros acc Hacc. destruct (Hok acc Hacc) as [Hr Hbs Hc Hh Hcode]. split; [done| | |done|done].
    + intros k. by rewrite Hb, Hbs.
    + intros k v Hkv. rewrite Hb. by apply Hc.
Qed.

(** A clean entry for an account that the state has not loaded. *)
Lemma clean_entry_ok base s a o st :
  state_ok base s -> st_cache s !! a = None -> from_db a o -> st = CleanFresh \/ st = CleanCached ->
  kept base s (insert_cache a (mkEntry o (acc_balance <$> o) st) s).
Proof.
  intros Hs Hnone Hdbo Hst. pose proof (so_vacant _ _ _ _ _ _ Hs a Hnone) as Hb. destruct (from_db_ext (base a) a o Hdbo Hb) as [Hv Hok].
  unfold insert_cache, is_dirty. rewrite bool_decide_false by (cbn; by destruct Hst as [-> | ->]).
  apply kept_entry; [done| |]; cbn [account].
  - split; [by apply Hok| |by intros _]. cbn [account]. intros -> k. rewrite Hb. unfold StateSpec.db_storage.
    unfold StateSpec.db_view in Hv. by destruct (db_account D root a).
  - unfold StateSpec.view. by rewrite Hnone.
Qed.

Lemma update_optional_ok require a (base : Z -> Z) o b :
  (forall acc, o = Some acc -> acc_ok codes a base acc) -> backend_ok b ->
  exists o' b', update_optional keccak require a o b = (o', b') /\ (forall acc, o' = Some acc -> acc_ok codes a base acc /\ loaded require acc) /\
    abs_acc base <$> o' = abs_acc base <$> o /\ backend_kept b b'.
Proof.
  intros Ho Hb. destruct o as [acc|]; cbn [update_optional].
  - destruct (update_account_ok require a base acc b (Ho acc eq_refl) Hb) as (acc' & b' & -> & ? & Habs & ? & ?).
    eexists _, _. split; [done|]. split; [by intros ? [= <-]|]. split; [|done]. change (Some (abs_acc base acc') = Some (abs_acc base acc)). by rewrite Habs.
  - eexists _, _. split; [done|]. split; [done|]. split; [done|]. by apply backend_kept_refl.
Qed.
Lemma get_cached_ok {U} base s a (f : B -> option (Account C) -> U * option (Account C) * B) (Q : U -> Prop) :
  state_ok base s ->
  (forall b o, backend_ok b -> from_db a o ->
    exists u o' b', f b o = (u, o', b') /\ from_db a o' /\ backend_kept b b' /\ Q u) ->
  exists r b, get_cached (st_db s) a f = (r, b) /\ backend_kept (st_db s) b /\
    match r with Some u => Q u /\ forall k, base a k = db_storage a k | None => True end.
Proof.
  intros Hs Hf. unfold get_cached. pose proof (so_backend _ _ _ _ _ _ Hs) as Hb. destruct (bl_get (st_db s) a Hb) as [Hk Hget].
  destruct (cached_get_mut (st_db s) a) as [[o|] b1]; cbn [fst snd] in *; [|by eexists None, _].
  destruct (Hget o eq_refl) as [Ho Hpriv]. destruct (Hf b1 o (proj1 Hk) Ho) as (u & o' & b2 & -> & Ho' & Hk2 & Hq).
  eexists (Some u), _. split; [done|]. split; [|split; [done|]].
  - eapply backend_kept_trans; [done|]. eapply backend_kept_trans; [done|]. apply bl_put; [apply Hk2|done].
  - destruct (so_base _ _ _ _ _ _ Hs a) as [|[? _]]; done.
Qed.

(** [ensure_cached] applies its closure to the account of [a]. *)
Lemma ensure_cached_ok {U} base s a require check_null (f : option (Account C) -> U) :
  state_ok base s ->
  exists o s', ensure_cached keccak s a require check_null f = Ok (f o, s') /\ kept base s s' /\
    aeq (abs_acc (base a) <$> o) (view base (st_cache s) a) /\ (forall acc, o = Some acc -> loaded require acc).
Proof.
  intros Hs. pose proof (so_backend _ _ _ _ _ _ Hs) as Hb. unfold ensure_cached, StateSpec.view. destruct (st_cache s !! a) as [e|] eqn:He.
  { destruct (so_entries _ _ _ _ _ _ Hs a e He) as [Hacc Habsent Hclean].
    destruct (update_optional_ok require a (base a) (account e) (st_db s) Hacc Hb) as (o & b & -> & Ho & Habs & Hk).
    eexists _, _. split; [done|]. rewrite Habs. split; [|split; [done|naive_solver]].
    eapply kept_trans; [by apply kept_db|]. change (st_cache s) with (st_cache (with_db b s)).
    apply kept_entry; [by apply with_db_ok| |unfold StateSpec.view; cbn [st_cache with_db]; by rewrite He, <-Habs].
    split; cbn [account]; [naive_solver| |]. { intros ->. apply Habsent. by destruct (account e). }
    intros Hcl. rewrite Habs. by apply Hclean. }
  assert (Hdbv : forall o, from_db a o -> (forall k, base a k = db_storage a k) -> aeq (abs_acc (base a) <$> o) (db_view a)).
  { intros o Ho Hbs. by apply (from_db_ext (base a)). }
  destruct (get_cached_ok base s a (fun b (acc : option (Account C)) => let '(acc, b) := update_optional keccak require a acc b in (f acc, acc, b))
    (fun u => exists o, u = f o /\ from_db a o /\ forall acc, o = Some acc -> loaded require acc) Hs) as (r & b & -> & Hk & Hr).
  { intros b o Hbo Ho. destruct (update_optional_ok require a (db_storage a) o b (proj2 Ho) Hbo) as (o' & b' & -> & Ho' & Habs & Hk).
    eexists _, _, _. split; [done|]. assert (from_db a o') by (split; [rewrite Habs; apply Ho|naive_solver]). naive_solver. }
  destruct r as [u|]; [destruct Hr as [(o & -> & Ho & Hl) Hbs]; eexists _, _; split; [done|]; split; [by apply kept_db|]; auto|].
  destruct (check_null && is_known_null b a) eqn:Hnull.
  { apply andb_true_iff in Hnull as [_ Hnull]. pose proof (bl_null b a (proj1 Hk) Hnull) as Hnone.
    eexists None, _. split; [done|]. split; [by apply kept_db|]. split; [|done]. cbn. unfold StateSpec.db_view. by rewrite Hnone. }
  pose proof (with_db_ok base s b Hs Hk) as Hs1. destruct (trie_account_ok base _ a Hs1) as (o & -> & Ho). cbn [try_trie mbind outcome_bind].
  destruct (update_optional_ok require a (db_storage a) o b (proj2 Ho) (proj1 Hk)) as (o' & b' & Hu & Ho' & Habs & Hk').
  cbn [st_db with_db]. rewrite Hu. assert (Hdo : from_db a o') by (split; [rewrite Habs; apply Ho|naive_solver]).
  eexists _, _. split; [done|]. split; [|split; [apply Hdbv; [done|by apply (so_vacant _ _ _ _ _ _ Hs)]|naive_solver]].
  assert (Hk2 : backend_kept (st_db s) b') by (by eapply backend_kept_trans).
  eapply kept_trans; [by apply (kept_db base s b')|]. apply clean_entry_ok; [by apply with_db_ok|done|done|by left].
Qed.

(** ** Storage *)
Definition storage_view base s (a key : Z) : Z :=
  match view base (st_cache s) a with Some x => aa_storage x key | None => 0 end.

(** The answer of the shared cache. *)
Lemma shared_storage_ok base s a key :
  state_ok base s ->
  exists r b, get_cached (st_db s) a
      (fun b (acc : option (Account C)) => match acc with
                    | None => (Ok 0, None, b)
                    | Some acc => let '(r, acc) := storage_of keccak b a acc key in (r, Some acc, b)
                    end) = (r, b) /\ backend_kept (st_db s) b /\
    match r with Some u => u = Ok (db_storage a key) /\ forall k, base a k = db_storage a k | None => True end.
Proof.
  intros Hs. apply get_cached_ok; [done|]. intros b o Hb Ho. destruct o as [acc|].
  - destruct (storage_of_ok b a (db_storage a) acc key (bl_db b Hb) (proj2 Ho acc eq_refl)) as (acc' & -> & Hok & Habs).
    eexists _, _, _. split; [done|]. split; [by eapply from_db_same|]. split; [by apply backend_kept_refl|].
    destruct Ho as [Hv _]. unfold StateSpec.db_view, StateSpec.db_storage in *. destruct (db_account D root a); [|done].
    cbn in Hv. destruct Hv as (_ & _ & _ & _ & Hst). f_equal. exact (Hst key).
  - eexists _, _, _. split; [done|]. split; [done|]. split; [by apply backend_kept_refl|].
    destruct Ho as [Hv _]. unfold StateSpec.db_view, StateSpec.db_storage in *. by destruct (db_account D root a).
Qed.
(** The entry of [a] with its account replaced by one that differs in caches. *)
Lemma recache_ok base s a e acc acc' :
  state_ok base s -> st_cache s !! a = Some e -> account e = Some acc ->
  acc_ok codes a (base a) acc' -> abs_acc (base a) acc' = abs_acc (base a) acc ->
  kept base s (with_cache (<[a := mkEntry (Some acc') (old_balance e) (entry_state e)]> (st_cache s)) s).
Proof.
  intros Hs He Hacc Hok Habs. destruct (so_entries _ _ _ _ _ _ Hs a e He) as [_ _ Hclean].
  apply kept_entry; [done| |].
  - split; cbn [account]; [by intros ? [= <-]|done|]. intros Hc. destruct (Hclean Hc) as [Hv Hb]. split; [|done].
    rewrite Hacc in Hv. change (aeq (Some (abs_acc (base a) acc')) (db_view a)). by rewrite Habs.
  - unfold StateSpec.view. rewrite He, Hacc. change (aeq (Some (abs_acc (base a) acc')) (Some (abs_acc (base a) acc))). by rewrite Habs.
Qed.

Lemma storage_at_local base s a key e acc :
  state_ok base s -> st_cache s !! a = Some e -> account e = Some acc ->
  exists s', storage_at keccak s a key = Ok (aa_storage (abs_acc (base a) acc) key, s') /\ kept base s s'.
Proof.
  intros Hs He Hacc. pose proof (eo_account _ _ _ _ _ _ _ (so_entries _ _ _ _ _ _ Hs a e He) acc Hacc) as Hok.
  unfold storage_at. rewrite He, Hacc. destruct (cached_storage_at_ok a (base a) acc key Hok) as (r & acc1 & -> & Hok1 & Habs1 & _ & Hr).
  pose proof (recache_ok base s a e acc acc1 Hs He Hacc Hok1 Habs1) as Hk1. set (e1 := mkEntry (Some acc1) _ _) in *.
  set (s1 := with_cache (<[a := e1]> (st_cache s)) s) in *. pose proof (kp_ok _ _ _ Hk1) as Hs1.
  destruct r as [v|]; [rewrite Hr; by exists s1|]. assert (Hbase : aa_storage (abs_acc (base a) acc) key = base a key).
  { rewrite <-Habs1. cbn. by rewrite Hr. }
  rewrite Hbase. destruct (shared_storage_ok base s1 a key Hs1) as (r & b & -> & Hkb & Hrb). destruct r as [u|].
  { destruct Hrb as [-> Hb]. cbn [try_trie mbind outcome_bind]. eexists. split; [by rewrite <-Hb|]. eapply kept_trans; [done|by apply kept_db]. }
  pose proof (bl_db b (proj1 Hkb)) as Hd. destruct (storage_of_ok b a (base a) acc1 key Hd Hok1) as (acc2 & -> & Hok2 & Habs2).
  cbn [try_trie mbind outcome_bind]. eexists. split; [by rewrite Habs1, Hbase|]. eapply kept_trans; [done|].
  eapply kept_trans; [by apply kept_db|]. change (st_cache s1) with (st_cache (with_db b s1)).
  apply (recache_ok base (with_db b s1) a e1 acc1); [by apply with_db_ok|apply lookup_insert_eq|done|done|done].
Qed.

Lemma storage_at_ok base s a key :
  state_ok base s -> exists s', storage_at keccak s a key = Ok (storage_view base s a key, s') /\ kept base s s'.
Proof.
  intros Hs. destruct (st_cache s !! a) as [e|] eqn:He.
  { unfold storage_view, StateSpec.view. rewrite He. destruct (account e) as [acc|] eqn:Hacc; [by apply (storage_at_local base s a key e acc)|].
    unfold storage_at. rewrite He, Hacc. cbn. eexists. split; [done|]. by rewrite insert_id by done; destruct s; apply kept_refl. }
  pose proof (so_vacant _ _ _ _ _ _ Hs a He) as Hb.
  assert (Hsv : storage_view base s a key = db_storage a key).
  { unfold storage_view, StateSpec.view. rewrite He. unfold StateSpec.db_view, StateSpec.db_storage. by destruct (db_account D root a). }
  unfold storage_at. rewrite He, Hsv. destruct (shared_storage_ok base s a key Hs) as (r & b & -> & Hkb & Hrb). destruct r as [u|].
  { destruct Hrb as [-> _]. cbn. eexists. split; [done|by apply kept_db]. }
  destruct (is_known_null b a) eqn:Hnull.
  { pose proof (bl_null b a (proj1 Hkb) Hnull) as Hn. eexists. split; [unfold StateSpec.db_storage; by rewrite Hn|by apply kept_db]. }
  pose proof (with_db_ok base s b Hs Hkb) as Hs1. destruct (trie_account_ok base _ a Hs1) as (o & -> & Ho).
  cbn [expect_root try_trie mbind outcome_bind]. destruct o as [acc|].
  - destruct (storage_of_ok b a (db_storage a) acc key (bl_db b (proj1 Hkb)) (proj2 Ho acc eq_refl)) as (acc' & -> & Hok & Habs).
    cbn [try_trie mbind outcome_bind]. eexists. split.
    + destruct Ho as [Hv _]. unfold StateSpec.db_view, StateSpec.db_storage in *. destruct (db_account D root a); [|done].
      cbn in Hv. destruct Hv as (_ & _ & _ & _ & Hst). do 2 f_equal. exact (Hst key).
    + eapply kept_trans; [by apply kept_db|]. apply clean_entry_ok; [done|done|by eapply from_db_same|by left].
  - cbn [try_trie mbind outcome_bind]. eexists. split.
    + destruct Ho as [Hv _]. unfold StateSpec.db_view, StateSpec.db_storage in *. by destruct (db_account D root a).
    + eapply kept_trans; [by apply kept_db|]. apply clean_entry_ok; [done|done|done|by left].
Qed.
End reads.
