(* ===== verification/StateWorld.v ===== *)
(** * A small database

    A database with one account in the trie, a backend with a shared account
    cache over it, and the proof that they satisfy the laws the state relies on:
    the laws can be met, with the shared cache in use. *)
From stdpp Require Import base list numbers gmap.
From S2P Require Import Prelude JumpDests RlpStream RlpImpls Account State StateSpec StateReads.

(** ** An unbounded cache *)
#[global] Instance map_lru : LruCache (gmap Z Z) := {|
  lru_new _ := ∅;
  lru_get_mut c k := (c !! k, c);
  lru_insert c k v := <[k := v]> c;
  lru_into_iter c := map_to_list c;
|}.

#[global] Instance map_lru_laws : LruLaws (gmap Z Z).
Proof.
  refine {| lru_holds (c : gmap Z Z) k v := c !! k = Some v |}; cbn.
  - intros _ k v. by rewrite lookup_empty.
  - done.
  - done.
  - intros c k v k' v'. destruct (decide (k' = k)) as [->|]; [rewrite lookup_insert_eq; intros [= <-]; by left|].
    rewrite lookup_insert_ne by done. by right.
  - intros c k v. apply elem_of_map_to_list.
Defined.

(** ** The database *)
Record MapDb := mkDb { db_prefix : Z; db_tries : gmap (Z * (Z * list Z)) bytes; db_codes : gmap Z bytes }.

#[global] Instance MapDb_hashdb : HashDB MapDb := {|
  db_get db h := db_codes db !! h;
  accountdb_readonly db h := mkDb h (db_tries db) (db_codes db);
  sec_trie_get db r key := Ok (if r =? KECCAK_NULL_RLP then None else db_tries db !! (db_prefix db, (r, key)));
|}.

(** Any function will do as a hash here. *)
Definition test_keccak (b : bytes) : Z := match b with [] => KECCAK_EMPTY | _ => len b mod 2 ^ 256 end.

Definition test_basic : BasicAccount := mkBasic 3 1000000 7 2.
Definition test_code : bytes := [0x60; 0x01].
Definition test_root : Z := 100.

Definition run_bytes (r : run bytes) : bytes := match r with Ok b => b | _ => [] end.

(** Account 1: nonce 3, balance 1000000, a contract with 5 in its storage slot 1. *)
Definition test_db : MapDb :=
  mkDb 0 (<[(0, (test_root, Z_to_be 20 1)) := run_bytes (account_rlp (Account_from (C := gmap Z Z) test_basic))]>
          {[(20, (7, Z_to_be 32 1)) := [5]]}) {[2 := test_code]}.
Definition test_codes (h : Z) : option bytes := db_codes test_db !! h.

Lemma test_decodes : decode_bytes (run_bytes (account_rlp (Account_from (C := gmap Z Z) test_basic))) = Ok test_basic.
Proof. vm_compute. reflexivity. Qed.

Lemma test_trie k : db_tries test_db !! (0, (test_root, Z_to_be 20 k)) =
  if decide (Z_to_be 20 1 = Z_to_be 20 k) then Some (run_bytes (account_rlp (Account_from (C := gmap Z Z) test_basic))) else None.
Proof.
  unfold test_db. cbn [db_tries]. case_decide as Hk; [by rewrite Hk, lookup_insert_eq|].
  rewrite lookup_insert_ne by congruence. by rewrite lookup_singleton_ne.
Qed.

Lemma test_account a : db_account test_db test_root a = if decide (Z_to_be 20 1 = Z_to_be 20 a) then Some test_basic else None.
Proof.
  unfold db_account, sec_trie_get, MapDb_hashdb. change (test_root =? KECCAK_NULL_RLP) with false. change (db_prefix test_db) with 0.
  cbn match. rewrite test_trie. case_decide; [|done]. by rewrite test_decodes.
Qed.

Lemma test_complete : db_complete test_keccak test_db test_root test_codes.
Proof.
  split.
  - intros a. eexists. split; [done|]. unfold MapDb_hashdb. change (test_root =? KECCAK_NULL_RLP) with false. change (db_prefix test_db) with 0.
    cbn match. rewrite test_trie. case_decide; [|done]. exists test_basic. apply test_decodes.
  - intros a b. rewrite test_account. case_decide; [|done]. intros [= <-] k. eexists. split; [done|].
    change (b_storage_root test_basic =? KECCAK_NULL_RLP) with false. change (db_prefix (adb test_keccak test_db a)) with 20.
    change (db_tries (adb test_keccak test_db a)) with (db_tries test_db). unfold test_db. cbn [db_tries b_storage_root test_basic].
    rewrite lookup_insert_ne by done. destruct (decide (Z_to_be 32 1 = Z_to_be 32 k)) as [Hk|Hk].
    + rewrite <-Hk, lookup_singleton_eq. exists 5. vm_compute. reflexivity.
    + by rewrite lookup_singleton_ne by congruence.
  - done.
  - intros a b. rewrite test_account. case_decide; [|done]. intros [= <-] _. exists test_code. split; [done|]. vm_compute. reflexivity.
  - done.
Qed.

(** ** The backend *)
Record SharedDb := mkShared { sh_db : MapDb; sh_accounts : gmap Z (option (Account (gmap Z Z))); sh_codes : gmap Z bytes }.

#[global] Instance SharedDb_backend : Backend SharedDb MapDb (gmap Z Z) := {|
  as_hashdb b := sh_db b;
  cached_get_mut b a := (sh_accounts b !! a, b);
  cached_put b a o :=
    match sh_accounts b !! a with Some _ => mkShared (sh_db b) (<[a := o]> (sh_accounts b)) (sh_codes b) | None => b end;
  get_cached_account b a := (option_map (option_map clone_basic) (sh_accounts b !! a), b);
  backend_cache_code b h c := mkShared (sh_db b) (sh_accounts b) (<[h := c]> (sh_codes b));
  get_cached_code b h := (sh_codes b !! h, b);
  is_known_null b a := false;
|}.

Lemma clone_basic_from_db {DB C} `{HashDB DB} `{LruLaws C} keccak (D : DB) root codes a (o : option (Account C)) :
  from_db keccak D root codes a o -> from_db keccak D root codes a (clone_basic <$> o).
Proof.
  intros [Hv Hok]. destruct o as [acc|]; [|done]. split.
  - unfold db_view in *. cbn in *. destruct (db_account D root a) as [b|]; [|done]. destruct Hv as (? & ? & ? & ? & _). by repeat split.
  - intros ? [= <-]. destruct (Hok acc eq_refl) as [Hr Hb Hc Hh [Hs Hcd Hst]]. split; [done|done| |done|by split].
    intros k v ?%lru_new_holds. done.
Qed.

Definition shared_ok (b : SharedDb) : Prop :=
  sh_db b = test_db /\ map_Forall (fun a o => from_db test_keccak test_db test_root test_codes a o) (sh_accounts b) /\
  map_Forall (fun h c => test_codes h = Some c) (sh_codes b).

#[global] Instance SharedDb_laws : BackendLaws test_keccak test_db test_root test_codes SharedDb.
Proof.
  refine {| backend_ok := shared_ok; backend_private b a := sh_accounts b !! a = None |}.
  - by intros b (? & _).
  - intros b a Hb. split; [by split|]. cbn. intros o Ho. split; [by apply Hb in Ho|]. by rewrite Ho.
  - intros b a o (Hd & Ha & Hc) Ho. cbn. destruct (sh_accounts b !! a) eqn:He; [|by split]. split; cbn.
    + split; [done|]. split; [by apply map_Forall_insert_2|done].
    + intros a' Ha'. rewrite lookup_insert_ne; [done|]. intros ->. congruence.
  - intros b a Hb. split; [by split|]. cbn. intros o Ho. destruct (sh_accounts b !! a) as [o'|] eqn:He; [|done]. injection Ho as <-.
    apply clone_basic_from_db. by apply Hb in He.
  - intros b h Hb. split; [by split|]. intros c Hc. by apply Hb in Hc.
  - intros b h c (Hd & Ha & Hc) Hh. split; [|done]. split; [done|]. split; [done|]. by apply map_Forall_insert_2.
  - done.
Defined.

(** Account 1 as the trie has it, in the shared cache. *)
Definition test_backend : SharedDb := mkShared test_db {[1 := Some (Account_from test_basic)]} ∅.

Lemma test_backend_ok : backend_ok test_backend.
Proof.
  split; [done|]. split; [|apply map_Forall_empty]. apply map_Forall_singleton.
  apply (from_db_basic test_keccak test_db test_root test_codes test_complete). rewrite test_account. by rewrite decide_True.
Qed.
