(* ===== verification/StateWrites.v ===== *)
(** * Changes of the state and checkpoints

    A change first records the old account in the last checkpoint, so that the
    accounts every checkpoint stands for remain what they were; reverting puts
    the recorded accounts back and keeps what the caches have learnt. *)
From stdpp Require Import base list numbers gmap.
From S2P Require Import Prelude JumpDests RlpImpls Account State StateSpec StateReads.

Section writes.
Context {DB C : Type} `{HashDB DB} `{LruLaws C} (keccak : bytes -> Z) (D : DB) (root : Z) (codes : Z -> option bytes).
Context {B : Type} `{!Backend B DB C} `{!BackendLaws keccak D root codes B} (Hdb : db_complete keccak D root codes).
Implicit Types (s : State B C) (e : AccountEntry C) (acc : Account C) (base : Z -> Z -> Z) (A : AState).

#[local] Abbreviation acc_ok := (acc_ok keccak D codes).
#[local] Abbreviation abs_acc := (abs_acc codes).
#[local] Abbreviation db_view := (db_view keccak D root codes).
#[local] Abbreviation db_storage := (db_storage keccak D root).
#[local] Abbreviation entry_ok := (entry_ok keccak D root codes).
#[local] Abbreviation state_ok := (state_ok keccak D root codes).
#[local] Abbreviation view := (view keccak D root codes).
#[local] Abbreviation unwind := (unwind keccak D root codes).
#[local] Abbreviation unwinds := (unwinds keccak D root codes).
#[local] Abbreviation saved_ok := (saved_ok keccak D root codes).
#[local] Abbreviation rep := (rep keccak D root codes).
#[local] Arguments KECCAK_EMPTY : simpl never.

(** ** The relation *)
Definition upd (cur : Z -> option AAccount) (a : Z) (x : option AAccount) (a' : Z) : option AAccount :=
  if decide (a' = a) then x else cur a'.

Definition set_cur A (a : Z) (x : option AAccount) : AState := mkAState (upd (a_cur A) a x) (a_saved A).

Lemma upd_eq cur a x : upd cur a x a = x.
Proof. unfold upd. by rewrite decide_True. Qed.
Lemma upd_ne cur a x a' : a' <> a -> upd cur a x a' = cur a'.
Proof. intros. unfold upd. by rewrite decide_False. Qed.

Lemma unwinds_ext base cur cur' (cs : list (gmap Z (option (AccountEntry C)))) saved :
  (forall a, aeq (cur a) (cur' a)) -> unwinds base cur cs saved -> unwinds base cur' cs saved.
Proof.
  intros Hc. destruct cs as [|c cs], saved as [|old saved]; [done..|]. cbn. intros [Hu Hr]. split; [|done].
  intros a. rewrite <-Hu. unfold StateSpec.unwind. destruct (c !! a) as [[e|]|]; [done..|]. by rewrite Hc.
Qed.

Lemma rep_ext base s A A' : rep base s A -> (forall a, aeq (a_cur A a) (a_cur A' a)) -> a_saved A = a_saved A' -> rep base s A'.
Proof.
  intros [Hok Hc Hs] Hcur Hsv. split; [done| |rewrite <-Hsv; by eapply unwinds_ext]. intros a. by rewrite Hc, Hcur.
Qed.

Lemma rep_set_ext base s A a x y : rep base s (set_cur A a x) -> aeq x y -> rep base s (set_cur A a y).
Proof. intros Hr Hxy. eapply rep_ext; [done| |done]. intros a'. cbn. unfold upd. by case_decide. Qed.

Lemma rep_kept base s s' A : rep base s A -> kept keccak D root codes base s s' -> rep base s' A.
Proof. intros [Hok Hc Hs] [Hok' Hv Hcp Hn]. split; [done| |by rewrite Hcp]. intros a. by rewrite Hv, Hc. Qed.

(** ** Recording *)
Definition noted (a : Z) s : Prop := match st_checkpoints s with c :: _ => is_Some (c !! a) | [] => True end.

(** The record of what [a] is now. *)
Lemma record_rep base s A a c cs o :
  rep base s A -> st_checkpoints s = c :: cs -> c !! a = None ->
  match o with Some e => entry_ok a (base a) e | None => forall k, base a k = db_storage a k end ->
  match o with Some e => abs_acc (base a) <$> account e | None => db_view a end = view base (st_cache s) a ->
  (present o <-> present (st_cache s !! a)) ->
  rep base (with_checkpoints (<[a := o]> c :: cs) s) A.
Proof.
  intros [[Hbk Hrt Hbs Hen Hva Hsv Hal] Hc Hs] Hcs Hca Ho Hov Hp. rewrite Hcs in *. split; [split; try done| done|].
  - apply Forall_cons in Hsv as [Hc0 Hsv]. apply Forall_cons. split; [|done]. intros a' o'.
    destruct (decide (a = a')) as [<-|]; [rewrite lookup_insert_eq; by intros [= <-]|rewrite lookup_insert_ne by done; apply Hc0].
  - intros a'. cbn [st_cache st_checkpoints with_checkpoints]. specialize (Hal a'). cbn [alive] in *.
    destruct (decide (a = a')) as [<-|]; [|by rewrite lookup_insert_ne].
    rewrite lookup_insert_eq. rewrite Hca in Hal. split; [by apply Hp|]. eapply alive_mono; [|exact Hal]. apply Hp.
  - cbn [st_checkpoints with_checkpoints]. destruct (a_saved A) as [|old saved]; [done|]. cbn in Hs |- *. destruct Hs as [Hu Hr].
    split; [|done]. intros a'. rewrite <-Hu. unfold StateSpec.unwind. destruct (decide (a = a')) as [<-|]; [|by rewrite lookup_insert_ne].
    rewrite lookup_insert_eq, Hca, <-(Hc a), <-Hov. by destruct o.
Qed.

Lemma clone_dirty_ok a (base : Z -> Z) e :
  entry_ok a base e -> entry_ok a base (clone_dirty e) /\ abs_acc base <$> account (clone_dirty e) = abs_acc base <$> account e.
Proof.
  intros [Hacc Habs Hcl]. assert (Heq : abs_acc base <$> account (clone_dirty e) = abs_acc base <$> account e).
  { cbn. by destruct (account e). }
  split; [|done]. split.
  - cbn. intros acc. destruct (account e) as [acc0|] eqn:He; [|done]. intros [= <-]. destruct (Hacc acc0 eq_refl) as [Hr Hb Hc Hh Hcode].
    split; [done|done| |done|]. { intros k v ?%lru_new_holds. done. } destruct Hcode as [Hsz Hcd Hst]. by split.
  - cbn. destruct (account e); [done|]. by auto.
  - intros Hc. rewrite Heq. by apply Hcl.
Qed.

Lemma note_cache_rep base s A a e :
  rep base s A -> st_cache s !! a = Some e -> rep base (note_cache a s) A /\ noted a (note_cache a s) /\ st_cache (note_cache a s) = st_cache s.
Proof.
  intros Hrep He. unfold note_cache, noted. destruct (st_checkpoints s) as [|c cs] eqn:Hcs; [by rewrite Hcs|].
  cbn [st_checkpoints with_checkpoints]. destruct (c !! a) as [o|] eqn:Hca.
  { rewrite Hca. split; [|done]. destruct s. cbn in Hcs. by subst. }
  rewrite lookup_insert_eq. split; [|done]. rewrite He. cbn [fmap option_fmap option_map].
  pose proof (so_entries _ _ _ _ _ _ (rep_ok _ _ _ _ _ _ _ Hrep) a e He) as Hen. destruct (clone_dirty_ok a (base a) e Hen) as [Hcl Heq].
  apply record_rep; [done..| |]. { rewrite Heq. unfold StateSpec.view. by rewrite He. }
  rewrite He. split; intros (e' & [= <-] & Hs); eexists; (split; [done|]); cbn in *; by destruct (account e).
Qed.

(** ** Writing *)
Lemma write_rep base s A a e :
  rep base s A -> noted a s -> entry_ok a (base a) e -> (st_checkpoints s <> [] -> present (st_cache s !! a) -> is_Some (account e)) ->
  rep base (with_cache (<[a := e]> (st_cache s)) s) (set_cur A a (abs_acc (base a) <$> account e)).
Proof.
  intros [Hok Hc Hs] Hn He Hp. split.
  - by apply set_entry_ok.
  - intros a'. cbn [st_cache with_cache a_cur set_cur]. rewrite view_insert. unfold upd. case_decide as Ha; [by rewrite decide_True by congruence|].
    rewrite decide_False by congruence. apply Hc.
  - cbn [st_checkpoints with_cache a_cur a_saved set_cur]. unfold noted in Hn. destruct (st_checkpoints s) as [|c cs], (a_saved A) as [|old saved]; [done..|].
    destruct Hs as [Hu Hr]. split; [|done]. intros a'. rewrite <-Hu. unfold StateSpec.unwind, upd. case_decide as Ha; [|done].
    subst a'. by destruct Hn as [o ->].
Qed.

Lemma insert_dirty_rep base s A a e :
  rep base s A -> entry_state e = Dirty -> entry_ok a (base a) e ->
  (st_checkpoints s <> [] -> present (st_cache s !! a) -> is_Some (account e)) ->
  rep base (insert_cache a e s) (set_cur A a (abs_acc (base a) <$> account e)).
Proof.
  intros Hrep Hd He Hp. unfold insert_cache, is_dirty. rewrite bool_decide_true by done.
  destruct (st_checkpoints s) as [|c cs] eqn:Hcs; [apply write_rep; [done| |done|by rewrite Hcs]; unfold noted; by rewrite Hcs|].
  set (c' := match c !! a with Some _ => c | None => <[a := st_cache s !! a]> c end).
  change (rep base (with_cache (<[a := e]> (st_cache (with_checkpoints (c' :: cs) s))) (with_checkpoints (c' :: cs) s))
    (set_cur A a (abs_acc (base a) <$> account e))).
  apply write_rep; [| |done|intros _; by apply Hp].
  - subst c'. destruct (c !! a) as [o|] eqn:Hca; [destruct s; cbn in Hcs; by subst|]. apply record_rep; try done.
    + destruct (st_cache s !! a) as [e0|] eqn:He0; [by apply (so_entries _ _ _ _ _ _ (rep_ok _ _ _ _ _ _ _ Hrep))|].
      by apply (so_vacant _ _ _ _ _ _ (rep_ok _ _ _ _ _ _ _ Hrep)).
  - unfold noted. cbn. subst c'. destruct (c !! a) as [o|] eqn:Hca; [by rewrite Hca|by rewrite lookup_insert_eq].
Qed.

(** ** [require_or_from] *)
Lemma load_ok base s A a :
  rep base s A ->
  exists s', load_entry s a = Ok s' /\ rep base s' A /\ is_Some (st_cache s' !! a) /\ account_start_nonce s' = account_start_nonce s.
Proof.
  intros Hrep. pose proof (rep_ok _ _ _ _ _ _ _ Hrep) as Hs. unfold load_entry. destruct (st_cache s !! a) as [e|] eqn:He; [exists s; by rewrite He|].
  destruct (bl_account (st_db s) a (so_backend _ _ _ _ _ _ Hs)) as [Hk Hget].
  destruct (get_cached_account (st_db s) a) as [[o|] b]; cbn [fst snd] in *.
  all: pose proof (with_db_ok keccak D root codes base s b Hs Hk) as Hs1.
  all: pose proof (rep_kept base s _ A Hrep (kept_db keccak D root codes base s b Hs Hk)) as Hrep1.
  all: assert (Hload : forall o st, from_db keccak D root codes a o -> st = CleanFresh \/ st = CleanCached ->
    rep base (insert_cache a (mkEntry o (acc_balance <$> o) st) (with_db b s)) A /\
    is_Some (st_cache (insert_cache a (mkEntry o (acc_balance <$> o) st) (with_db b s)) !! a) /\
    account_start_nonce (insert_cache a (mkEntry o (acc_balance <$> o) st) (with_db b s)) = account_start_nonce s);
    [intros o' st Ho' Hst; pose proof (clean_entry_ok keccak D root codes base (with_db b s) a o' st Hs1 He Ho' Hst) as Hk2;
     split; [by eapply rep_kept|]; split; [|apply Hk2]; unfold insert_cache, is_dirty;
     rewrite bool_decide_false by (cbn; by destruct Hst as [-> | ->]); cbn; by rewrite lookup_insert_eq|].
  - eexists. split; [done|]. apply Hload; [by apply Hget|by right].
  - cbn zeta. destruct (is_known_null b a) eqn:Hnull; cbn [negb].
    + eexists. split; [done|]. apply (Hload None); [|by left]. split; [|done]. cbn. unfold StateSpec.db_view.
      by rewrite (bl_null b a (proj1 Hk) Hnull).
    + destruct (trie_account_ok keccak D root codes Hdb base _ a Hs1) as (o & -> & Ho). cbn [try_trie mbind outcome_bind].
      eexists. split; [done|]. apply (Hload o); [done|by left].
Qed.
(** [a] is in the cache, marked dirty and recorded, with account [acc]. *)
Record opened base s A (a : Z) acc : Prop := {
  op_rep : rep base s (set_cur A a (Some (abs_acc (base a) acc)));
  op_noted : noted a s;
  op_entry : exists e, st_cache s !! a = Some e /\ account e = Some acc /\ entry_state e = Dirty;
  op_acc : acc_ok a (base a) acc;
}.

Lemma require_or_from_ok base s A a require_code (d : Account C) x0 :
  rep base s A ->
  (forall b : Z -> Z, (forall k, b k = 0) -> acc_ok a b d /\ aeq (Some (abs_acc b d)) (Some x0)) ->
  exists acc s', require_or_from keccak s a require_code d = Ok (acc, s') /\ opened base s' A a acc /\
    aeq (Some (abs_acc (base a) acc)) (Some (default x0 (a_cur A a))) /\ account_start_nonce s' = account_start_nonce s.
Proof.
  intros Hrep Hd. unfold require_or_from. destruct (load_ok base s A a Hrep) as (s1 & -> & Hrep1 & [e He] & Hn1). cbn [mbind outcome_bind].
  destruct (note_cache_rep base s1 A a e Hrep1 He) as (Hrep2 & Hnoted & Hcache). rewrite Hcache, He.
  assert (Hn2 : account_start_nonce (note_cache a s1) = account_start_nonce s).
  { rewrite <-Hn1. unfold note_cache. by destruct (st_checkpoints s1). }
  set (s2 := note_cache a s1) in *. pose proof (rep_ok _ _ _ _ _ _ _ Hrep2) as Hs2. rewrite <-Hcache in He.
  pose proof (so_entries _ _ _ _ _ _ Hs2 a e He) as Hen. set (acc0 := match account e with Some acc => acc | None => d end).
  assert (Hacc0 : acc_ok a (base a) acc0 /\ aeq (Some (abs_acc (base a) acc0)) (Some (default x0 (a_cur A a)))).
  { pose proof (rep_cur _ _ _ _ _ _ _ Hrep2 a) as Hv. unfold StateSpec.view in Hv. rewrite He in Hv. subst acc0.
    destruct (account e) as [acc|] eqn:Hacc.
    - split; [by apply (eo_account _ _ _ _ _ _ _ Hen)|]. by destruct (a_cur A a).
    - destruct (Hd (base a)) as [? ?]; [by apply (eo_absent _ _ _ _ _ _ _ Hen)|]. split; [done|]. by destruct (a_cur A a). }
  destruct Hacc0 as [Hok0 Habs0].
  assert (Hu : exists acc b, (if require_code then update_account keccak RequireCode a acc0 (st_db s2) else (acc0, st_db s2)) = (acc, b) /\
    acc_ok a (base a) acc /\ abs_acc (base a) acc = abs_acc (base a) acc0 /\ backend_kept (st_db s2) b).
  { pose proof (so_backend _ _ _ _ _ _ Hs2) as Hb. destruct require_code.
    - destruct (update_account_ok keccak D root codes Hdb RequireCode a (base a) acc0 (st_db s2) Hok0 Hb) as (acc & b & Hu & ? & ? & ? & _).
      by exists acc, b.
    - eexists _, _. split; [done|]. split; [done|]. split; [done|]. by apply backend_kept_refl. }
  destruct Hu as (acc & b & -> & Hok & Habs & Hkb). eexists _, _. split; [done|]. split; [|split; [by rewrite Habs|done]].
  set (e' := mkEntry (Some acc) (old_balance e) Dirty).
  split; [|done|cbn; rewrite lookup_insert_eq; by exists e'|done].
  rewrite <-Hcache. change (rep base (with_cache (<[a := e']> (st_cache (with_db b s2))) (with_db b s2)) (set_cur A a (abs_acc (base a) <$> account e'))).
  apply write_rep; [|done| |by intros; eexists].
  - eapply rep_kept; [done|]. by apply kept_db.
  - split; [by intros ? [= <-]|done|done].
Qed.

(** A change of the account through the reference. *)
Lemma store_account_rep base s A a acc acc' :
  opened base s A a acc -> acc_ok a (base a) acc' ->
  rep base (store_account s a acc') (set_cur A a (Some (abs_acc (base a) acc'))).
Proof.
  intros [Hrep Hn (e & He & Hacc & Hd) _] Hok. unfold store_account. rewrite He.
  set (e' := mkEntry (Some acc') (old_balance e) (entry_state e)). assert (He' : entry_ok a (base a) e').
  { split; [by intros ? [= <-]|done|]. intros Hc. by destruct Hc. }
  pose proof (write_rep base s _ a e' Hrep Hn He' (fun _ _ => ltac:(by eexists))) as Hw. eapply rep_ext; [exact Hw| |done].
  intros a'. cbn. unfold upd. by case_decide.
Qed.

Lemma new_basic_ok n a (b : Z -> Z) :
  (forall k, b k = 0) -> acc_ok a b (new_basic 0 n) /\
  aeq (Some (abs_acc b (new_basic (C := C) 0 n))) (Some (mkA 0 n KECCAK_EMPTY [] (fun _ => 0))).
Proof.
  intros Hb. split; [apply (fresh_ok keccak D root codes Hdb); auto|]. cbn. unfold code_view, code_of_hash. cbn. by rewrite Z.eqb_refl.
Qed.

Lemma new_contract_ok bal n a (b : Z -> Z) :
  (forall k, b k = 0) -> acc_ok a b (Account_new_contract bal n) /\
  aeq (Some (abs_acc b (Account_new_contract (C := C) bal n))) (Some (mkA bal n KECCAK_EMPTY [] (fun _ => 0))).
Proof.
  intros Hb. split; [apply (fresh_ok keccak D root codes Hdb); auto|]. cbn. unfold code_view, code_of_hash. cbn. by rewrite Z.eqb_refl.
Qed.

(** ** Checkpoints *)
Lemma checkpoint_rep base s A : rep base s A -> rep base (checkpoint s) (mkAState (a_cur A) (a_cur A :: a_saved A)).
Proof.
  intros [[Hbk Hrt Hbs Hen Hva Hsv Hal] Hc Hs]. split; [split; try done|done|].
  - apply Forall_cons. split; [|done]. intros a o. by rewrite lookup_empty.
  - cbn. split; [|done]. intros a. unfold StateSpec.unwind. by rewrite lookup_empty.
Qed.

Lemma discard_checkpoint_rep base s A : rep base s A -> rep base (discard_checkpoint s) (mkAState (a_cur A) (tail (a_saved A))).
Proof.
  intros Hrep. pose proof Hrep as [[Hbk Hrt Hbs Hen Hva Hsv Hal] Hc Hs]. unfold discard_checkpoint.
  destruct (st_checkpoints s) as [|c [|c1 cs]] eqn:Hcs.
  { destruct (a_saved A) eqn:Hsa; [|done]. by eapply rep_ext. }
  { destruct (a_saved A) as [|old [|]]; [done| |by destruct Hs]. split; [split; try done; by constructor|done|done]. }
  assert (Heq : (if bool_decide (c1 = ∅) then c else c1 ∪ c) = c1 ∪ c) by (case_bool_decide as He; [by rewrite He, (left_id_L ∅ (∪))|done]).
  rewrite Heq. destruct (a_saved A) as [|old [|old1 saved]]; [done|by destruct Hs|]. destruct Hs as (Hu & Hu1 & Hr).
  apply Forall_cons in Hsv as [Hsc Hsv]. apply Forall_cons in Hsv as [Hsc1 Hsv]. split; [split; try done|done|].
  - apply Forall_cons. split; [|done]. intros a o Ho. apply lookup_union_Some_raw in Ho as [Ho|[_ Ho]]; [by apply Hsc1|by apply Hsc].
  - intros a. specialize (Hal a). cbn in Hal |- *. rewrite lookup_union. destruct (c1 !! a) as [o1|], (c !! a) as [o|]; cbn in *; naive_solver.
  - cbn. split; [|done]. intros a. rewrite <-Hu1. specialize (Hu a). unfold StateSpec.unwind in *. rewrite lookup_union.
    destruct (c1 !! a) as [o1|]; [by destruct (c !! a)|]. by destruct (c !! a) as [[e|]|].
Qed.
Definition reverted (o : option (AccountEntry C)) (v : option (AccountEntry C)) : option (AccountEntry C) :=
  match v with
  | Some v => Some (match o with Some e => overwrite_with e v | None => v end)
  | None => e ← o; if is_dirty e then None else Some e
  end.

Lemma revert_entry_lookup (cache : gmap Z (AccountEntry C)) k v a :
  revert_entry cache k v !! a = if decide (k = a) then reverted (cache !! a) v else cache !! a.
Proof.
  unfold revert_entry, reverted. destruct (decide (k = a)) as [<-|Hne].
  - destruct v as [v|], (cache !! k) as [e|] eqn:He; cbn; try (by rewrite lookup_insert_eq); try done.
    destruct (is_dirty e); [by rewrite lookup_delete_eq|done].
  - destruct v as [v|], (cache !! k) as [e|]; try (by rewrite lookup_insert_ne); try done.
    destruct (is_dirty e); [by rewrite lookup_delete_ne|done].
Qed.

Lemma revert_lookup (c : gmap Z (option (AccountEntry C))) (cache : gmap Z (AccountEntry C)) a :
  fold_left (fun cache '(k, v) => revert_entry cache k v) (map_to_list c) cache !! a =
  match c !! a with Some v => reverted (cache !! a) v | None => cache !! a end.
Proof.
  assert (Hl : forall (l : list (Z * option (AccountEntry C))) cache, NoDup l.*1 ->
    (forall v, (a, v) ∈ l -> fold_left (fun cache '(k, v) => revert_entry cache k v) l cache !! a = reverted (cache !! a) v) /\
    (~ a ∈ l.*1 -> fold_left (fun cache '(k, v) => revert_entry cache k v) l cache !! a = cache !! a)).
  { induction l as [|[k v] l IH]; intros cache' Hnd; [split; [by intros v ?%not_elem_of_nil|done]|].
    cbn in Hnd. apply NoDup_cons in Hnd as [Hk Hnd]. destruct (IH (revert_entry cache' k v) Hnd) as [Hin Hout]. cbn [fold_left fmap list_fmap fst]. split.
    - intros v' [[= -> ->]|Hv']%elem_of_cons.
      + rewrite Hout by done. by rewrite revert_entry_lookup, decide_True.
      + rewrite (Hin v' Hv'), revert_entry_lookup, decide_False; [done|]. intros ->. apply Hk. apply list_elem_of_fmap. by exists (a, v').
    - intros [Hne Hna]%not_elem_of_cons. rewrite Hout by done. by rewrite revert_entry_lookup, decide_False. }
  destruct (Hl (map_to_list c) cache (NoDup_fst_map_to_list c)) as [Hin Hout]. destruct (c !! a) as [v|] eqn:Hc.
  - apply Hin. by apply elem_of_map_to_list.
  - apply Hout. intros ([k v] & -> & Hkv%elem_of_map_to_list)%list_elem_of_fmap. cbn in Hc. by rewrite Hkv in Hc.
Qed.

(** The recorded account with the caches of the present one. *)
Lemma overwrite_ok a (base : Z -> Z) ours acc :
  acc_ok a base ours -> acc_ok a base acc ->
  acc_ok a base (account_overwrite_with ours acc) /\ abs_acc base (account_overwrite_with ours acc) = abs_acc base acc.
Proof.
  intros [_ _ Hc1 _ _] [Hr Hb Hc2 Hh [Hsz Hcd Hst]]. split; [|done]. split; [done|done| |done|by split]. cbn.
  assert (Hall : forall l c, (forall k v, (k, v) ∈ l -> v = base k) -> (forall k v, lru_holds c k v -> v = base k) ->
    forall k v, lru_holds (fold_left (fun c '(k, v) => lru_insert c k v) l c) k v -> v = base k).
  { induction l as [|[k0 v0] l IH]; intros c Hl Hc; [done|]. cbn [fold_left]. apply IH; [intros; apply Hl; by right|].
    intros k v [[-> ->]|[_ Hin]]%lru_insert_holds; [apply Hl; by left|by apply Hc]. }
  apply Hall; [|done]. intros k v Hin. by apply Hc2, lru_iter_holds.
Qed.

Lemma overwrite_entry_ok a (base : Z -> Z) e v :
  entry_ok a base e -> entry_ok a base v -> (is_Some (account v) -> is_Some (account e)) ->
  entry_ok a base (overwrite_with e v) /\ abs_acc base <$> account (overwrite_with e v) = abs_acc base <$> account v.
Proof.
  intros [He _ _] [Hv Hva Hvc] Hp. assert (Heq : abs_acc base <$> account (overwrite_with e v) = abs_acc base <$> account v).
  { cbn. destruct (account v) as [acc|]; [|done]. destruct (account e) as [ours|] eqn:Ho; [done|]. by destruct Hp. }
  split; [|done]. split.
  - cbn. intros acc'. destruct (account v) as [acc|]; [|done]. destruct (account e) as [ours|]; [|done]. intros [= <-].
    apply overwrite_ok; [by apply He|by apply Hv].
  - cbn. intros Hn. apply Hva. destruct (account v) as [acc|]; [|done]. destruct (account e) as [ours|]; [done|]. by destruct Hp.
  - intros Hc. rewrite Heq. by apply Hvc.
Qed.

Lemma revert_rep base s A c cs old saved :
  rep base s A -> st_checkpoints s = c :: cs -> a_saved A = old :: saved ->
  rep base (revert_to_checkpoint s) (mkAState old saved).
Proof.
  intros [[Hbk Hrt Hbs Hen Hva Hsv Hal] Hcur Hs] Hcs Hsa. unfold revert_to_checkpoint. rewrite Hcs, Hsa in *. destruct Hs as [Hu Hr].
  apply Forall_cons in Hsv as [Hsc Hsv].
  assert (Hentry : forall a v, c !! a = Some (Some v) ->
    exists e, reverted (st_cache s !! a) (Some v) = Some e /\ entry_ok a (base a) e /\ abs_acc (base a) <$> account e = abs_acc (base a) <$> account v).
  { intros a v Hv. specialize (Hal a). cbn in Hal. rewrite Hv in Hal. destruct Hal as [Hp _]. eexists. split; [done|].
    destruct (st_cache s !! a) as [e|] eqn:He; [|by split; [apply (Hsc a _ Hv)|]].
    apply overwrite_entry_ok; [by apply Hen|apply (Hsc a _ Hv)|]. intros Hv'. destruct Hp as (e' & [= <-] & He'); [by exists v|done]. }
  split; [split; try done|..]; cbn [st_cache st_checkpoints with_cache with_checkpoints a_cur a_saved].
  - intros a e. rewrite revert_lookup. destruct (c !! a) as [[v|]|] eqn:Hv; [|cbn|by apply Hen].
    + destruct (Hentry a v Hv) as (e' & -> & He' & _). by intros [= <-].
    + destruct (st_cache s !! a) as [e'|] eqn:He'; [|done]. cbn. destruct (is_dirty e'); [done|]. intros [= <-]. by apply Hen.
  - intros a. rewrite revert_lookup. destruct (c !! a) as [[v|]|] eqn:Hv; [done| |by apply Hva]. intros _. apply (Hsc a _ Hv).
  - intros a. rewrite revert_lookup. specialize (Hal a). cbn in Hal. destruct (c !! a) as [[v|]|] eqn:Hv; [| |done].
    + destruct Hal as [_ Hal]. destruct (Hentry a v Hv) as (e & -> & _ & Heq). eapply alive_mono; [|exact Hal].
      intros (v' & [= <-] & Hs'). exists e. split; [done|]. by destruct (account e), (account v); try destruct Hs'.
    + destruct Hal as [_ Hal]. eapply alive_mono; [|exact Hal]. by intros (? & ? & _).
  - intros a. rewrite <-Hu. unfold StateSpec.view, StateSpec.unwind. rewrite revert_lookup. destruct (c !! a) as [[v|]|] eqn:Hv; [| |apply Hcur].
    + destruct (Hentry a v Hv) as (e & -> & _ & Heq). by rewrite Heq.
    + cbn. destruct (st_cache s !! a) as [e|] eqn:He; [|done]. cbn. destruct (is_dirty e) eqn:Hd; [done|].
      apply (eo_clean _ _ _ _ _ _ _ (Hen a e He)). unfold is_dirty in Hd. by apply bool_decide_eq_false in Hd.
  - done.
Qed.

(** ** Removing an account, when no checkpoint is open *)
Lemma kill_account_rep base s A a :
  rep base s A -> st_checkpoints s = [] -> (forall k, db_storage a k = 0) \/ backend_private (st_db s) a ->
  rep (fun a' => if decide (a' = a) then fun _ => 0 else base a') (kill_account s a) (set_cur A a None).
Proof.
  intros [[Hbk Hrt Hbs Hen Hva Hsv Hal] Hcur Hs] Hcs Hblank.
  unfold kill_account, insert_cache, is_dirty. rewrite Hcs, bool_decide_true by done.
  rewrite Hcs in Hs. destruct (a_saved A) as [|] eqn:Hsa; [|done].
  assert (Hlook : forall a', <[a := new_dirty (None : option (Account C))]> (st_cache s) !! a' =
    if decide (a' = a) then Some (new_dirty None) else st_cache s !! a').
  { intros a'. case_decide as Ha; [by rewrite Ha, lookup_insert_eq|by rewrite lookup_insert_ne]. }
  split; [split; try done|..]; cbn [st_cache st_checkpoints st_db with_cache a_cur a_saved set_cur].
  - intros a'. case_decide as Ha; [|apply Hbs]. subst a'. destruct Hblank as [Hz|Hp]; [left; by intros k; rewrite Hz|by right].
  - intros a' e. rewrite Hlook. case_decide as Ha; [|apply Hen]. intros [= <-]. split; [done|done|]. intros Hc. by destruct Hc.
  - intros a'. rewrite Hlook. case_decide; [done|apply Hva].
  - by rewrite Hcs.
  - intros a'. by rewrite Hcs.
  - intros a'. unfold StateSpec.view, upd. rewrite Hlook. case_decide as Ha; [done|]. apply Hcur.
  - by rewrite Hcs, Hsa.
Qed.
End writes.
