(* ===== verification/StateOps.v ===== *)
(** * The operations of the state

    Each operation does on [State] what its abstract counterpart does on a
    function from addresses to accounts with saved copies. *)
From stdpp Require Import base list numbers gmap.
From S2P Require Import Prelude JumpDests RlpImpls Account State StateSpec StateReads StateWrites.

(** ** Abstract operations *)

(** The account a first change creates. *)
Definition blank_account (n : Z) : AAccount := mkA 0 n KECCAK_EMPTY [] (fun _ => 0).

Definition add_u256 (x y : Z) : option Z := if x + y <? 2 ^ 256 then Some (x + y) else None.

Definition a_modify (n : Z) (A : AState) (a : Z) (f : AAccount -> option AAccount) : option AState :=
  x ← f (default (blank_account n) (a_cur A a)); Some (set_cur A a (Some x)).

Definition a_earn (v : Z) (x : AAccount) : option AAccount :=
  b ← add_u256 (aa_balance x) v; Some (mkA b (aa_nonce x) (aa_code_hash x) (aa_code x) (aa_storage x)).
Definition a_spend (v : Z) (x : AAccount) : option AAccount :=
  if v <=? aa_balance x then Some (mkA (aa_balance x - v) (aa_nonce x) (aa_code_hash x) (aa_code x) (aa_storage x)) else None.
Definition a_inc_nonce (x : AAccount) : option AAccount :=
  n ← add_u256 (aa_nonce x) 1; Some (mkA (aa_balance x) n (aa_code_hash x) (aa_code x) (aa_storage x)).
Definition a_set_storage (key value : Z) (x : AAccount) : option AAccount :=
  Some (mkA (aa_balance x) (aa_nonce x) (aa_code_hash x) (aa_code x) (fun k => if decide (k = key) then value else aa_storage x k)).
Definition a_set_code (hash : Z) (code : bytes) (x : AAccount) : option AAccount :=
  Some (mkA (aa_balance x) (aa_nonce x) hash code (aa_storage x)).

Definition a_add_balance (n : Z) (A : AState) (a incr : Z) (mode : CleanupMode) : option (CleanupMode * AState) :=
  if negb (incr =? 0) then A' ← a_modify n A a (a_earn incr); Some (mode, A')
  else
    match mode, a_cur A a with
    | ForceCreate, None => A' ← a_modify n A a (a_earn incr); Some (mode, A')
    | TrackTouched touched, Some _ => Some (TrackTouched ({[a]} ∪ touched), A)
    | _, _ => Some (mode, A)
    end.
Definition a_sub_balance (n : Z) (A : AState) (a decr : Z) (mode : CleanupMode) : option (CleanupMode * AState) :=
  A' ← (if negb (decr =? 0) || negb (bool_decide (is_Some (a_cur A a))) then a_modify n A a (a_spend decr) else Some A);
  Some (match mode with TrackTouched touched => TrackTouched ({[a]} ∪ touched) | m => m end, A').

(** ** All operations *)
Inductive state_op : Type :=
  | OpExists (a : Z) | OpExistsAndNotNull (a : Z) | OpExistsAndHasCodeOrNonce (a : Z)
  | OpBalance (a : Z) | OpNonce (a : Z) | OpStorageAt (a key : Z)
  | OpCode (a : Z) | OpCodeHash (a : Z) | OpCodeSize (a : Z)
  | OpAddBalance (a incr : Z) (mode : CleanupMode)
  | OpSubBalance (a decr : Z) (mode : CleanupMode)
  | OpTransferBalance (from to by_ : Z) (mode : CleanupMode)
  | OpIncNonce (a : Z) | OpSetStorage (a key value : Z)
  | OpInitCode (a : Z) (code : bytes) | OpResetCode (a : Z) (code : bytes)
  | OpNewContract (a bal nonce_offset : Z) | OpKillAccount (a : Z)
  | OpCheckpoint | OpDiscardCheckpoint | OpRevertToCheckpoint.

Inductive answer : Type :=
  | ABool (b : bool) | AWord (z : Z) | ABytes (b : option bytes) | AMode (m : CleanupMode) | AUnit.

Definition a_query (A : AState) (v : answer) : option (answer * AState) := Some (v, A).
Definition a_unit (o : option AState) : option (answer * AState) := A ← o; Some (AUnit, A).
Definition a_mode (o : option (CleanupMode * AState)) : option (answer * AState) := '(m, A) ← o; Some (AMode m, A).

Definition abs_op (keccak : bytes -> Z) (n : Z) (A : AState) (o : state_op) : option (answer * AState) :=
  match o with
  | OpExists a => a_query A (ABool (bool_decide (is_Some (a_cur A a))))
  | OpExistsAndNotNull a => a_query A (ABool
      match a_cur A a with
      | Some x => negb ((aa_balance x =? 0) && (aa_nonce x =? 0) && (aa_code_hash x =? KECCAK_EMPTY))
      | None => false
      end)
  | OpExistsAndHasCodeOrNonce a => a_query A (ABool
      match a_cur A a with Some x => negb (aa_code_hash x =? KECCAK_EMPTY) || negb (aa_nonce x =? n) | None => false end)
  | OpBalance a => a_query A (AWord match a_cur A a with Some x => aa_balance x | None => 0 end)
  | OpNonce a => a_query A (AWord match a_cur A a with Some x => aa_nonce x | None => n end)
  | OpStorageAt a key => a_query A (AWord match a_cur A a with Some x => aa_storage x key | None => 0 end)
  | OpCode a => a_query A (ABytes (aa_code <$> a_cur A a))
  | OpCodeHash a => a_query A (AWord match a_cur A a with Some x => aa_code_hash x | None => KECCAK_EMPTY end)
  | OpCodeSize a => a_query A (AWord match a_cur A a with Some x => len (aa_code x) | None => 0 end)
  | OpAddBalance a incr mode => a_mode (a_add_balance n A a incr mode)
  | OpSubBalance a decr mode => a_mode (a_sub_balance n A a decr mode)
  | OpTransferBalance from to by_ mode => a_mode ('(mode, A) ← a_sub_balance n A from by_ mode; a_add_balance n A to by_ mode)
  | OpIncNonce a => a_unit (a_modify n A a a_inc_nonce)
  | OpSetStorage a key value =>
      if match a_cur A a with Some x => aa_storage x key | None => 0 end =? value then Some (AUnit, A)
      else a_unit (a_modify n A a (a_set_storage key value))
  | OpInitCode a code | OpResetCode a code => a_unit (a_modify n A a (a_set_code (keccak code) code))
  | OpNewContract a bal nonce_offset =>
      n ← add_u256 n nonce_offset; Some (AUnit, set_cur A a (Some (mkA bal n KECCAK_EMPTY [] (fun _ => 0))))
  | OpKillAccount a => Some (AUnit, set_cur A a None)
  | OpCheckpoint => Some (AUnit, mkAState (a_cur A) (a_cur A :: a_saved A))
  | OpDiscardCheckpoint => Some (AUnit, mkAState (a_cur A) (tail (a_saved A)))
  | OpRevertToCheckpoint => Some (AUnit, match a_saved A with old :: saved => mkAState old saved | [] => A end)
  end.

Section run.
Context {B DB C : Type} `{HashDB DB} `{LruCache C} `{Backend B DB C} (keccak : bytes -> Z).

Definition answered {U} (f : U -> answer) (r : outcome (TrieError * State B C) (U * State B C)) :
    outcome (TrieError * State B C) (answer * State B C) := '(u, s) ← r; Ok (f u, s).

Definition run_op (s : State B C) (o : state_op) : outcome (TrieError * State B C) (answer * State B C) :=
  match o with
  | OpExists a => answered ABool (state_exists keccak s a)
  | OpExistsAndNotNull a => answered ABool (exists_and_not_null keccak s a)
  | OpExistsAndHasCodeOrNonce a => answered ABool (exists_and_has_code_or_nonce keccak s a)
  | OpBalance a => answered AWord (balance keccak s a)
  | OpNonce a => answered AWord (nonce keccak s a)
  | OpStorageAt a key => answered AWord (storage_at keccak s a key)
  | OpCode a => answered ABytes (code keccak s a)
  | OpCodeHash a => answered AWord (code_hash keccak s a)
  | OpCodeSize a => answered (fun r => AWord (default 0 r)) (code_size keccak s a)
  | OpAddBalance a incr mode => answered AMode (add_balance keccak s a incr mode)
  | OpSubBalance a decr mode => answered AMode (sub_balance keccak s a decr mode)
  | OpTransferBalance from to by_ mode => answered AMode (transfer_balance keccak s from to by_ mode)
  | OpIncNonce a => answered (fun _ => AUnit) (inc_nonce keccak s a)
  | OpSetStorage a key value => answered (fun _ => AUnit) (set_storage keccak s a key value)
  | OpInitCode a code => answered (fun _ => AUnit) (init_code keccak s a code)
  | OpResetCode a code => answered (fun _ => AUnit) (reset_code keccak s a code)
  | OpNewContract a bal nonce_offset => s ← new_contract s a bal nonce_offset; Ok (AUnit, s)
  | OpKillAccount a => Ok (AUnit, kill_account s a)
  | OpCheckpoint => Ok (AUnit, checkpoint s)
  | OpDiscardCheckpoint => Ok (AUnit, discard_checkpoint s)
  | OpRevertToCheckpoint => Ok (AUnit, revert_to_checkpoint s)
  end.
End run.

(** ** Each operation simulates its abstract counterpart *)
Section simulation.
Context {DB C : Type} `{HashDB DB} `{LruLaws C} (keccak : bytes -> Z) (D : DB) (root : Z) (codes : Z -> option bytes).
Context {B : Type} `{!Backend B DB C} `{!BackendLaws keccak D root codes B} (Hdb : db_complete keccak D root codes).
Context (Hempty : keccak [] = KECCAK_EMPTY).
Implicit Types (s : State B C) (acc : Account C) (base : Z -> Z -> Z) (A : AState).

#[local] Abbreviation sim := (sim keccak D root codes).
#[local] Abbreviation rep := (rep keccak D root codes).
#[local] Abbreviation abs_acc := (abs_acc codes).
#[local] Arguments KECCAK_EMPTY : simpl never.

(** [r] does from [s] what the abstract operation does, over the same base. *)
Definition simulates {V} base s (r : outcome (TrieError * State B C) (V * State B C)) (ar : option (V * AState)) : Prop :=
  match ar with
  | Some (v, A) => exists s', r = Ok (v, s') /\ rep base s' A /\ account_start_nonce s' = account_start_nonce s
  | None => r = Panic
  end.

Lemma simulates_answered {U} base s (r : outcome (TrieError * State B C) (U * State B C)) ar (f : U -> answer) :
  simulates base s r ar -> simulates base s (answered f r) ('(u, A) ← ar; Some (f u, A)).
Proof. destruct ar as [[u A]|]; [|intros ->; done]. intros (s' & -> & ?). by exists s'. Qed.

Lemma answered_simulates {U} base s (r : outcome (TrieError * State B C) (U * State B C)) v A (f : U -> answer) :
  (forall u, f u = f v -> u = v) -> simulates base s (answered f r) (Some (f v, A)) -> simulates base s r (Some (v, A)).
Proof.
  intros Hinj (s' & Hr & ?). exists s'. split; [|done]. unfold answered in Hr. destruct r as [[u s1]| |]; [|done..].
  injection Hr as Hf <-. by rewrite (Hinj u Hf).
Qed.

Lemma simulates_bind {U V} base s (r : outcome (TrieError * State B C) (U * State B C)) ar (k : U * State B C -> _) (ak : U * AState -> option (V * AState)) :
  simulates base s r ar ->
  (forall s' u A, rep base s' A -> account_start_nonce s' = account_start_nonce s -> simulates base s' (k (u, s')) (ak (u, A))) ->
  simulates base s (mbind k r) (mbind ak ar).
Proof.
  intros Hr Hk. destruct ar as [[u A]|]; cbn in *; [|by rewrite Hr]. destruct Hr as (s' & -> & Hs & Hn). cbn. specialize (Hk s' u A Hs Hn).
  unfold simulates in *. destruct (ak (u, A)) as [[v A']|]; [|done]. destruct Hk as (s2 & ? & ? & Hn2). exists s2. rewrite <-Hn. done.
Qed.

Variable base : Z -> Z -> Z.

(** *** Queries *)
Lemma ensure_cached_sim {U} s A a require check_null (f : option (Account C) -> U) (g : option AAccount -> U) :
  rep base s A ->
  (forall (b : Z -> Z) o x, aeq (abs_acc b <$> o) x -> (forall acc, o = Some acc -> loaded codes require acc) -> f o = g x) ->
  simulates base s (ensure_cached keccak s a require check_null f) (Some (g (a_cur A a), A)).
Proof.
  intros Hrep Hfg. pose proof (rep_ok _ _ _ _ _ _ _ Hrep) as Hs.
  destruct (ensure_cached_ok keccak D root codes Hdb base s a require check_null f Hs) as (o & s' & -> & Hk & Hv & Hl). exists s'.
  split; [|split; [by eapply rep_kept|apply Hk]]. rewrite (Hfg (base a) o (a_cur A a)); [done| |done].
  rewrite Hv. apply (rep_cur _ _ _ _ _ _ _ Hrep).
Qed.

Lemma storage_at_sim s A a key :
  rep base s A -> simulates base s (storage_at keccak s a key) (Some (match a_cur A a with Some x => aa_storage x key | None => 0 end, A)).
Proof.
  intros Hrep. destruct (storage_at_ok keccak D root codes Hdb base s a key (rep_ok _ _ _ _ _ _ _ Hrep)) as (s' & -> & Hk). exists s'.
  split; [|split; [by eapply rep_kept|apply Hk]]. do 2 f_equal. unfold storage_view. pose proof (rep_cur _ _ _ _ _ _ _ Hrep a) as Hc.
  destruct (view keccak D root codes base (st_cache s) a), (a_cur A a); try done. destruct Hc as (_ & _ & _ & _ & Hst). exact (Hst key).
Qed.

Lemma state_exists_sim s A a : rep base s A -> simulates base s (state_exists keccak s a) (Some (bool_decide (is_Some (a_cur A a)), A)).
Proof.
  intros Hs. pose (g := fun x : option AAccount => bool_decide (is_Some x)). apply (ensure_cached_sim s A a RequireNone false _ g Hs).
  intros b o x Ho _. by destruct o, x.
Qed.

Lemma query_sim {U} s A a require check_null (h : option (Account C) -> U) (f : U -> answer) v :
  rep base s A ->
  (forall (b : Z -> Z) o, aeq (abs_acc b <$> o) (a_cur A a) -> (forall acc, o = Some acc -> loaded codes require acc) -> f (h o) = v) ->
  simulates base s (answered f (ensure_cached keccak s a require check_null h)) (Some (v, A)).
Proof.
  intros Hrep Hfv. pose proof (rep_ok _ _ _ _ _ _ _ Hrep) as Hs.
  destruct (ensure_cached_ok keccak D root codes Hdb base s a require check_null h Hs) as (o & s' & -> & Hk & Hv & Hl). exists s'.
  split; [|split; [by eapply rep_kept|apply Hk]]. cbn. rewrite (Hfv (base a) o); [done| |done].
  rewrite Hv. apply (rep_cur _ _ _ _ _ _ _ Hrep).
Qed.

(** *** Changes *)

(** [f] on accounts does what [g] does on abstract accounts. *)
Definition realises (f : Account C -> outcome (TrieError * State B C) (Account C)) (g : AAccount -> option AAccount) : Prop :=
  forall a (b : Z -> Z) acc x, acc_ok keccak D codes a b acc -> aeq (Some (abs_acc b acc)) (Some x) ->
    match g x with
    | Some x' => exists acc', f acc = Ok acc' /\ acc_ok keccak D codes a b acc' /\ aeq (Some (abs_acc b acc')) (Some x')
    | None => f acc = Panic
    end.

Lemma open_sim s A a require_code (d : Account C) :
  rep base s A ->
  (forall b : Z -> Z, (forall k, b k = 0) -> acc_ok keccak D codes a b d /\ aeq (Some (abs_acc b d)) (Some (blank_account (account_start_nonce s)))) ->
  forall f g, realises f g ->
  simulates base s ('(acc, s) ← require_or_from keccak s a require_code d; acc ← f acc; Ok (tt, store_account s a acc))
    (A' ← a_modify (account_start_nonce s) A a g; Some (tt, A')).
Proof.
  intros Hrep Hd f g Hfg.
  destruct (require_or_from_ok keccak D root codes Hdb base s A a require_code d _ Hrep Hd) as (acc & s1 & -> & Hop & Habs & Hn).
  cbn [mbind outcome_bind]. specialize (Hfg a (base a) acc _ (op_acc _ _ _ _ _ _ _ _ _ Hop) Habs). unfold a_modify.
  destruct (g (default (blank_account (account_start_nonce s)) (a_cur A a))) as [x'|]; cbn; [|by rewrite Hfg].
  destruct Hfg as (acc' & -> & Hok' & Habs'). cbn. eexists. split; [done|]. split.
  - eapply rep_set_ext; [|exact Habs']. by eapply store_account_rep.
  - rewrite <-Hn. unfold store_account. by destruct (st_cache s1 !! a).
Qed.

Lemma modify_sim s A a f g :
  rep base s A -> realises f g ->
  simulates base s (modify keccak s a f) (A' ← a_modify (account_start_nonce s) A a g; Some (tt, A')).
Proof. intros Hs. apply open_sim; [done|]. intros b. by apply (new_basic_ok keccak D root codes Hdb). Qed.

Lemma acc_ok_basics a (b : Z -> Z) acc bal n :
  acc_ok keccak D codes a b acc -> acc_ok keccak D codes a b (with_basics bal n (acc_address_hash acc) acc).
Proof. intros [Hr Hb Hc Hh [Hs Hcd Hst]]. split; [done..|]. by split. Qed.

Lemma earn_realises v : realises (account_add_balance v) (a_earn v).
Proof.
  intros a b acc x Hok (Hb & Hn & Hh & Hc & Hs). unfold a_earn, account_add_balance, add_u256, add_chk. cbn in Hb. rewrite <-Hb.
  destruct (acc_balance acc + v <? 2 ^ 256); [|done]. cbn. eexists. split; [done|]. split; [by apply acc_ok_basics|done].
Qed.

Lemma spend_realises v : realises (account_sub_balance v) (a_spend v).
Proof.
  intros a b acc x Hok (Hb & Hn & Hh & Hc & Hs). unfold a_spend, account_sub_balance, sub_chk. cbn in Hb. rewrite <-Hb.
  destruct (v <=? acc_balance acc); [|done]. cbn. eexists. split; [done|]. split; [by apply acc_ok_basics|done].
Qed.

Lemma inc_nonce_realises : realises account_inc_nonce a_inc_nonce.
Proof.
  intros a b acc x Hok (Hb & Hn & Hh & Hc & Hs). unfold a_inc_nonce, account_inc_nonce, add_u256, add_chk. cbn in Hn. rewrite <-Hn.
  destruct (acc_nonce acc + 1 <? 2 ^ 256); [|done]. cbn. eexists. split; [done|]. split; [by apply acc_ok_basics|done].
Qed.

Lemma set_storage_realises key value : realises (fun acc => Ok (account_set_storage key value acc)) (a_set_storage key value).
Proof.
  intros a b acc x Hok (Hb & Hn & Hh & Hc & Hs). eexists. split; [done|]. split.
  - destruct Hok as [Hr Hbs Hcc Hah [Hsz Hcd Hst]]. split; [done..|]. by split.
  - repeat (split; [done|]). intros k. cbn. case_decide as Hk; [by rewrite Hk, lookup_insert_eq|]. rewrite lookup_insert_ne by done. apply Hs.
Qed.

Lemma init_code_realises code : realises (fun acc => Ok (account_init_code keccak code acc)) (a_set_code (keccak code) code).
Proof.
  intros a b acc x Hok (Hb & Hn & Hh & Hc & Hs). eexists. split; [done|].
  assert (Hv : code_view codes (account_init_code keccak code acc) = code).
  { unfold code_view, code_of_hash. cbn. destruct code as [|c code]; [by rewrite Hempty, Z.eqb_refl|done]. }
  split.
  - destruct Hok as [Hr Hbs Hcc Hah _]. split; [done..|]. split; [|by intros; eexists|].
    + intros n. rewrite Hv. by intros [= <-].
    + cbn. intros -> Hne. by destruct Hne.
  - repeat (split; [done|]). done.
Qed.
Lemma touch_sim s A a x : rep base s A -> a_cur A a = Some x -> simulates base s (touch keccak s a) (Some (tt, A)).
Proof.
  intros Hrep Hx. unfold touch, require.
  destruct (require_or_from_ok keccak D root codes Hdb base s A a false (new_basic 0 (account_start_nonce s)) (blank_account (account_start_nonce s)) Hrep)
    as (acc & s1 & -> & Hop & Habs & Hn); [intros b; by apply (new_basic_ok keccak D root codes Hdb)|].
  eexists. split; [done|]. split; [|done]. eapply rep_ext; [apply Hop| |done]. intros a'. cbn. unfold upd.
  case_decide as Ha; [|done]. subst a'. by rewrite Hx in *.
Qed.

Lemma add_balance_sim s A a incr mode :
  rep base s A -> simulates base s (add_balance keccak s a incr mode) (a_add_balance (account_start_nonce s) A a incr mode).
Proof.
  intros Hs. assert (Hm : forall s1 A1, rep base s1 A1 -> simulates base s1 ('(_, s) ← modify keccak s1 a (account_add_balance incr); Ok (mode, s))
    (A' ← a_modify (account_start_nonce s1) A1 a (a_earn incr); Some (mode, A'))).
  { intros s1 A1 Hs1. pose proof (modify_sim s1 A1 a _ _ Hs1 (earn_realises incr)) as Hms.
    destruct (a_modify (account_start_nonce s1) A1 a (a_earn incr)); cbn in *; [|by rewrite Hms]. destruct Hms as (s' & -> & ?). by exists s'. }
  unfold add_balance, a_add_balance. destruct (incr =? 0); cbn [negb]; [|by apply Hm].
  destruct mode as [| |touched].
  - destruct (state_exists_sim s A a Hs) as (s1 & -> & Hs1 & Hn1). cbn [mbind outcome_bind]. destruct (a_cur A a) as [x|]; cbn.
    + by exists s1.
    + specialize (Hm s1 A Hs1). rewrite Hn1 in Hm. unfold simulates in *. by rewrite Hn1 in Hm.
  - by exists s.
  - destruct (state_exists_sim s A a Hs) as (s1 & -> & Hs1 & Hn1). cbn [mbind outcome_bind]. destruct (a_cur A a) as [x|] eqn:Hx; cbn.
    + destruct (touch_sim s1 A a x Hs1 Hx) as (s2 & -> & Hs2 & Hn2). exists s2. by rewrite <-Hn1.
    + by exists s1.
Qed.

Lemma sub_balance_sim s A a decr mode :
  rep base s A -> simulates base s (sub_balance keccak s a decr mode) (a_sub_balance (account_start_nonce s) A a decr mode).
Proof.
  intros Hs. unfold sub_balance, a_sub_balance. set (c := negb (decr =? 0) || negb (bool_decide (is_Some (a_cur A a)))).
  assert (Hc : exists s1, (if negb (decr =? 0) then Ok (true, s) else '(ex, s) ← state_exists keccak s a; Ok (negb ex, s)) = Ok (c, s1) /\
    rep base s1 A /\ account_start_nonce s1 = account_start_nonce s).
  { subst c. destruct (decr =? 0); cbn [negb orb]; [|by exists s]. destruct (state_exists_sim s A a Hs) as (s1 & -> & ?). by exists s1. }
  destruct Hc as (s1 & -> & Hs1 & Hn1). cbn [mbind outcome_bind]. destruct c; cbn [mbind option_bind]; [|by exists s1].
  pose proof (modify_sim s1 A a _ _ Hs1 (spend_realises decr)) as Hms. rewrite Hn1 in Hms.
  destruct (a_modify (account_start_nonce s) A a (a_spend decr)); cbn in *; [|by rewrite Hms]. destruct Hms as (s' & -> & ? & Hn). exists s'.
  by rewrite Hn.
Qed.

Lemma open_code_sim s A a code :
  rep base s A ->
  simulates base s (init_code keccak s a code) (A' ← a_modify (account_start_nonce s) A a (a_set_code (keccak code) code); Some (tt, A')).
Proof.
  intros Hs.
  pose proof (open_sim s A a true (Account_new_contract 0 (account_start_nonce s)) Hs
    (fun b => new_contract_ok keccak D root codes Hdb 0 (account_start_nonce s) a b) _ _ (init_code_realises code)) as Ho.
  unfold init_code. by destruct (require_or_from keccak s a true _) as [[acc s1]| |].
Qed.

(** Where no account is, there is no storage below. *)
Lemma rep_absent s A a : rep base s A -> a_cur A a = None -> forall k, base a k = 0.
Proof.
  intros Hrep Hnone k. pose proof (rep_ok _ _ _ _ _ _ _ Hrep) as Hs.
  pose proof (rep_cur _ _ _ _ _ _ _ Hrep a) as Hv. rewrite Hnone in Hv. unfold view in Hv.
  destruct (st_cache s !! a) as [e|] eqn:He.
  - apply (eo_absent _ _ _ _ _ _ _ (so_entries _ _ _ _ _ _ Hs a e He)). by destruct (account e).
  - rewrite (so_vacant _ _ _ _ _ _ Hs a He). unfold db_view, db_storage in *. by destruct (db_account D root a).
Qed.

(** The operations that work over one base: no account is removed, and a
    contract is created where there is no storage below. *)
Definition op_over (o : state_op) : Prop :=
  match o with OpNewContract a _ _ => forall k, base a k = 0 | OpKillAccount _ => False | _ => True end.

Lemma new_contract_sim s A a bal off :
  rep base s A -> (forall k, base a k = 0) ->
  simulates base s (run_op keccak s (OpNewContract a bal off)) (abs_op keccak (account_start_nonce s) A (OpNewContract a bal off)).
Proof.
  intros Hrep Hz. cbn. unfold new_contract, add_u256, add_chk. destruct (account_start_nonce s + off <? 2 ^ 256); [|done]. cbn.
  destruct (new_contract_ok keccak D root codes Hdb bal (account_start_nonce s + off) a (base a) Hz) as [Hok Habs].
  eexists. split; [done|]. split.
  - eapply rep_set_ext; [apply insert_dirty_rep; [done|done| |by intros; eexists]|exact Habs].
    split; [by intros ? [= <-]|done|]. intros Hc. by destruct Hc.
  - unfold insert_cache. by destruct (is_dirty _), (st_checkpoints s).
Qed.

Lemma unwinds_nil A s : rep base s A -> (st_checkpoints s = [] <-> a_saved A = []).
Proof. intros [_ _ Hs]. by destruct (st_checkpoints s), (a_saved A). Qed.

Lemma revert_sim s A old saved : rep base s A -> a_saved A = old :: saved -> rep base (revert_to_checkpoint s) (mkAState old saved).
Proof.
  intros Hrep Hsa. pose proof (unwinds_nil A s Hrep) as Hn. destruct (st_checkpoints s) as [|c cs] eqn:Hcs.
  - rewrite Hsa in Hn. by destruct Hn as [Hn _]; specialize (Hn eq_refl).
  - by eapply revert_rep.
Qed.

Lemma discard_start_nonce s : account_start_nonce (discard_checkpoint s) = account_start_nonce s.
Proof. unfold discard_checkpoint. by destruct (st_checkpoints s) as [|? [|]]. Qed.
Lemma revert_start_nonce s : account_start_nonce (revert_to_checkpoint s) = account_start_nonce s.
Proof. unfold revert_to_checkpoint. by destruct (st_checkpoints s). Qed.

Lemma checkpoint_ops_sim s A o :
  rep base s A ->
  match o with
  | OpCheckpoint | OpDiscardCheckpoint | OpRevertToCheckpoint =>
      simulates base s (run_op keccak s o) (abs_op keccak (account_start_nonce s) A o)
  | _ => True
  end.
Proof.
  intros Hrep. destruct o; try done; cbn; eexists; (split; [done|]).
  - split; [by apply checkpoint_rep|done].
  - split; [by apply discard_checkpoint_rep|apply discard_start_nonce].
  - split; [|apply revert_start_nonce]. destruct (a_saved A) as [|old saved] eqn:Hsa; [|by apply (revert_sim s A)].
    unfold revert_to_checkpoint. by rewrite (proj2 (unwinds_nil A s Hrep) Hsa).
Qed.

Lemma run_op_over s A o :
  rep base s A -> op_over o -> simulates base s (run_op keccak s o) (abs_op keccak (account_start_nonce s) A o).
Proof.
  intros Hs Hal. pose proof (checkpoint_ops_sim s A o Hs) as Hcp.
  assert (Hunit : forall r m, simulates base s r (A' ← m; Some (tt, A')) -> simulates base s (answered (fun _ : unit => AUnit) r) (a_unit m)).
  { intros r [A'|]; cbn; [|by intros ->]. intros (s' & -> & ?). by exists s'. }
  destruct o; try exact Hcp; try done; cbn [run_op abs_op a_query].
  1, 2, 3, 4, 5, 7, 8, 9: (apply query_sim; [done|]; intros b o Ho Hl; destruct o as [acc|], (a_cur A a) as [x|]; try done;
    try destruct Ho as (Hb & Hn & Hh & Hc & _); cbn in *; unfold is_null; rewrite <-?Hb, <-?Hn, <-?Hh; try done).
  - rewrite (Hl acc eq_refl). cbn. by rewrite Hc.
  - rewrite (Hl acc eq_refl). by rewrite Hc.
  - by apply (simulates_answered base s _ (Some (_, A))), storage_at_sim.
  - by apply simulates_answered, add_balance_sim.
  - by apply simulates_answered, sub_balance_sim.
  - apply simulates_answered. apply simulates_bind; [by apply sub_balance_sim|]. intros s' m A' Hs' Hn. rewrite <-Hn. by apply add_balance_sim.
  - apply Hunit, modify_sim; [done|apply inc_nonce_realises].
  - unfold set_storage. destruct (storage_at_sim s A a key Hs) as (s1 & -> & Hs1 & Hn1). cbn [mbind outcome_bind answered].
    set (v := match a_cur A a with Some x => aa_storage x key | None => 0 end). destruct (v =? value); cbn [negb]; [by exists s1|].
    pose proof (modify_sim s1 A a _ _ Hs1 (set_storage_realises key value)) as Hm. rewrite Hn1 in Hm. apply Hunit.
    unfold simulates in *. by rewrite Hn1 in Hm.
  - by apply Hunit, open_code_sim.
  - by apply Hunit, open_code_sim.
  - by apply new_contract_sim.
Qed.
End simulation.

(** ** Any base *)
Section any_base.
Context {DB C : Type} `{HashDB DB} `{LruLaws C} (keccak : bytes -> Z) (D : DB) (root : Z) (codes : Z -> option bytes).
Context {B : Type} `{!Backend B DB C} `{!BackendLaws keccak D root codes B} (Hdb : db_complete keccak D root codes).
Context (Hempty : keccak [] = KECCAK_EMPTY).
Implicit Types (s : State B C) (A : AState).

Definition blank (a : Z) : Prop := forall k, db_storage keccak D root a k = 0.

Definition op_allowed s A (o : state_op) : Prop :=
  match o with
  | OpNewContract a _ _ => blank a \/ a_cur A a = None
  | OpKillAccount a => a_saved A = [] /\ (blank a \/ backend_private (st_db s) a)
  | _ => True
  end.

Lemma op_allowed_over base s A o :
  rep keccak D root codes base s A -> op_allowed s A o -> (exists a, o = OpKillAccount a) \/ op_over base o.
Proof.
  intros Hrep Hal. destruct o; try (by right); [|by left; eexists]. right. intros k. destruct Hal as [Hb|Hnone].
  - destruct (so_base _ _ _ _ _ _ (rep_ok _ _ _ _ _ _ _ Hrep) a) as [Heq|[_ Heq]]; [by rewrite Heq|done].
  - by apply (rep_absent keccak D root codes base s A).
Qed.

Lemma kill_account_start_nonce s a : account_start_nonce (kill_account s a) = account_start_nonce s.
Proof. unfold kill_account, insert_cache. by destruct (is_dirty _), (st_checkpoints s). Qed.

Lemma run_op_sim s A o :
  sim keccak D root codes s A -> op_allowed s A o ->
  match abs_op keccak (account_start_nonce s) A o with
  | Some (v, A') => exists s', run_op keccak s o = Ok (v, s') /\ sim keccak D root codes s' A' /\
      account_start_nonce s' = account_start_nonce s
  | None => run_op keccak s o = Panic
  end.
Proof.
  intros [base Hrep] Hal. destruct (op_allowed_over base s A o Hrep Hal) as [[a ->]|Hov].
  - destruct Hal as [Hsv Hb]. apply (unwinds_nil keccak D root codes base A s Hrep) in Hsv. cbn. eexists. split; [done|].
    split; [eexists; by apply (kill_account_rep keccak D root codes base)|apply kill_account_start_nonce].
  - pose proof (run_op_over keccak D root codes Hdb Hempty base s A o Hrep Hov) as Hs. unfold simulates in Hs.
    destruct (abs_op _ _ _ _) as [[v A']|]; [|done]. destruct Hs as (s' & ? & ? & ?). exists s'. split; [done|]. split; [by exists base|done].
Qed.
End any_base.
