(* ===== verification/StateTheorems.v ===== *)
(** * The state: its properties

    [State] behaves as a function from addresses to accounts with a stack of
    saved copies, whatever its caches hold; reverting undoes everything.  The
    accounts survive their trip through the trie.  The examples show where the
    code departs from this. *)
From stdpp Require Import base list numbers gmap.
From S2P Require Import Prelude JumpDests RlpStream RlpEncoding RlpDecode RlpDecoding RlpViews RlpImpls RlpCodecs Account AccountCodec State StateSpec StateReads StateWorld StateWrites StateOps.

(** ** Sequences of operations *)
Section sequences.
Context {B DB C : Type} `{HashDB DB} `{LruCache C} `{Backend B DB C} (keccak : bytes -> Z).

Fixpoint run_ops (s : State B C) (ops : list state_op) : outcome (TrieError * State B C) (list answer * State B C) :=
  match ops with
  | [] => Ok ([], s)
  | o :: ops => '(v, s) ← run_op keccak s o; '(vs, s) ← run_ops s ops; Ok (v :: vs, s)
  end.
End sequences.

(** Every checkpoint that is opened is closed, and no other. *)
Fixpoint nested (depth : nat) (ops : list state_op) : bool :=
  match ops with
  | [] => (depth =? 0)%nat
  | OpCheckpoint :: ops => nested (S depth) ops
  | (OpDiscardCheckpoint | OpRevertToCheckpoint) :: ops => match depth with O => false | S depth => nested depth ops end
  | _ :: ops => nested depth ops
  end.

Definition is_query (o : state_op) : bool :=
  match o with
  | OpExists _ | OpExistsAndNotNull _ | OpExistsAndHasCodeOrNonce _ | OpBalance _ | OpNonce _ | OpStorageAt _ _
  | OpCode _ | OpCodeHash _ | OpCodeSize _ => true
  | _ => false
  end.

(** The copies an operation leaves. *)
Definition saved_after (o : state_op) (A : AState) : list (Z -> option AAccount) :=
  match o with
  | OpCheckpoint => a_cur A :: a_saved A
  | OpDiscardCheckpoint | OpRevertToCheckpoint => tail (a_saved A)
  | _ => a_saved A
  end.

Lemma abs_op_saved keccak n A o v A' : abs_op keccak n A o = Some (v, A') -> a_saved A' = saved_after o A.
Proof.
  assert (Hm : forall A a f A', a_modify n A a f = Some A' -> a_saved A' = a_saved A).
  { intros A0 a f A1. unfold a_modify. destruct (f _); [|done]. by intros [= <-]. }
  assert (Hadd : forall A a i m m' A', a_add_balance n A a i m = Some (m', A') -> a_saved A' = a_saved A).
  { intros A0 a i m m' A1. unfold a_add_balance. destruct (negb _); [destruct (a_modify _ _ _ _) eqn:E; [|done]; intros [= _ <-]; by apply Hm in E|].
    destruct m, (a_cur A0 a); try (by intros [= _ <-]). destruct (a_modify _ _ _ _) eqn:E; [|done]. intros [= _ <-]. by apply Hm in E. }
  assert (Hsub : forall A a i m m' A', a_sub_balance n A a i m = Some (m', A') -> a_saved A' = a_saved A).
  { intros A0 a i m m' A1. unfold a_sub_balance. destruct (negb _ || _); [|by intros [= _ <-]].
    destruct (a_modify _ _ _ _) eqn:E; [|done]. intros [= _ <-]. by apply Hm in E. }
  assert (Hunit : forall o, a_unit o = Some (v, A') -> o = Some A') by (intros [A0|]; [by intros [= _ <-]|done]).
  assert (Hmode : forall o, a_mode o = Some (v, A') -> exists m, o = Some (m, A')) by (intros [[m A0]|]; [intros [= _ <-]; by exists m|done]).
  destruct o; cbn [abs_op a_query saved_after]; try (by intros [= _ <-]).
  - intros [m ?%Hadd]%Hmode. done.
  - intros [m ?%Hsub]%Hmode. done.
  - intros [m Ht]%Hmode. destruct (a_sub_balance n A from by_ mode) as [[m1 A1]|] eqn:E; [|done]. cbn [mbind option_bind] in Ht. apply Hadd in Ht. apply Hsub in E. congruence.
  - by intros ?%Hunit%Hm.
  - destruct (_ =? _); [by intros [= _ <-]|]. by intros ?%Hunit%Hm.
  - destruct (add_u256 _ _); [|done]. by intros [= _ <-].
  - destruct (a_saved A) eqn:Hsv; intros [= _ <-]; [done|]. by rewrite ?Hsv.
Qed.

Lemma abs_query keccak n A o : is_query o = true -> exists v, abs_op keccak n A o = Some (v, A).
Proof. destruct o; try done; intros _; by eexists. Qed.

Section theorems.
Context {DB C : Type} `{HashDB DB} `{LruLaws C} (keccak : bytes -> Z) (D : DB) (root : Z) (codes : Z -> option bytes).
Context {B : Type} `{!Backend B DB C} `{!BackendLaws keccak D root codes B}.
Implicit Types (s : State B C) (A : AState).

(** No account is removed, and contracts are created at addresses without storage. *)
Definition op_safe (o : state_op) : Prop :=
  match o with OpKillAccount _ => False | OpNewContract a _ _ => blank keccak D root a | _ => True end.

Lemma nested_run ops s A extra rest vs s1 :
  db_complete keccak D root codes -> keccak [] = KECCAK_EMPTY ->
  sim keccak D root codes s A -> a_saved A = extra ++ rest -> nested (length extra) ops = true -> Forall op_safe ops ->
  run_ops keccak s ops = Ok (vs, s1) ->
  exists A1, sim keccak D root codes s1 A1 /\ a_saved A1 = rest /\ account_start_nonce s1 = account_start_nonce s.
Proof.
  intros Hdb He. revert s A extra vs. induction ops as [|o ops IH]; intros s A extra vs Hs Hsv Hn Hsafe Hrun.
  { destruct extra; [|done]. injection Hrun as _ <-. by exists A. }
  apply Forall_cons in Hsafe as [Ho Hsafe]. cbn in Hrun.
  assert (Hal : op_allowed keccak D root codes s A o) by (destruct o; try done; by left).
  pose proof (run_op_sim keccak D root codes Hdb He s A o Hs Hal) as Hsim.
  destruct (abs_op keccak (account_start_nonce s) A o) as [[v A']|] eqn:Habs; [|by rewrite Hsim in Hrun].
  destruct Hsim as (s' & Hr & Hs' & Hn'). rewrite Hr in Hrun. cbn in Hrun. apply abs_op_saved in Habs.
  destruct (run_ops keccak s' ops) as [[vs' s2]| |] eqn:Hrun'; [|done..]. injection Hrun as _ <-.
  assert (Hgo : forall extra', a_saved A' = extra' ++ rest -> nested (length extra') ops = true ->
    exists A1, sim keccak D root codes s2 A1 /\ a_saved A1 = rest /\ account_start_nonce s2 = account_start_nonce s).
  { intros extra' He' Hn''. destruct (IH s' A' extra' vs' Hs' He' Hn'' Hsafe Hrun') as (A1 & ? & ? & Hnn). exists A1. by rewrite Hnn. }
  destruct o; try (by apply (Hgo extra); [rewrite Habs|]).
  - apply (Hgo (a_cur A :: extra)); [rewrite Habs; cbn; by rewrite Hsv|done].
  - destruct extra as [|x extra]; [done|]. apply (Hgo extra); [rewrite Habs; cbn; by rewrite Hsv|done].
  - destruct extra as [|x extra]; [done|]. apply (Hgo extra); [rewrite Habs; cbn; by rewrite Hsv|done].
Qed.

Lemma sim_new b n : backend_ok b -> sim keccak D root codes (mkState b root ∅ [] n) (mkAState (db_view keccak D root codes) []).
Proof.
  intros Hb. exists (db_storage keccak D root). split; [split; try done|..]; cbn.
  - intros a. by left.
  - intros a. unfold view. cbn. by rewrite lookup_empty.
  - done.
Qed.

(** C34: [State] implements the function from addresses to accounts with a stack
    of saved copies: a new state over a complete database stands for what the
    database holds, and every operation (queries, balance, nonce, storage and
    code changes, new contracts, removals, checkpoints) answers as on the
    function and leaves a state that stands for the result; it panics exactly on
    an overflow or when a balance does not suffice.  Two operations have
    conditions ([op_allowed]): a contract is created where the database has no
    storage or the state no account; an account is removed only outside
    checkpoints, and only if the database has no storage for it or the backend's
    shared cache does not know it, since [storage_at] would otherwise answer from
    that cache (see [removed_storage_reappears]). *)
Theorem state_refines b n s A (o : state_op) :
  db_complete keccak D root codes -> keccak [] = KECCAK_EMPTY -> backend_ok b ->
  sim keccak D root codes (mkState b root ∅ [] n) (mkAState (db_view keccak D root codes) []) /\
  (sim keccak D root codes s A -> op_allowed keccak D root codes s A o ->
   match abs_op keccak (account_start_nonce s) A o with
   | Some (v, A') => exists s', run_op keccak s o = Ok (v, s') /\ sim keccak D root codes s' A' /\
       account_start_nonce s' = account_start_nonce s
   | None => run_op keccak s o = Panic
   end).
Proof. intros Hdb He Hb. split; [by apply sim_new|]. exact (run_op_sim keccak D root codes Hdb He s A o). Qed.

(** C35: reverting to a checkpoint undoes balance, nonce, storage and code changes
    and creations: after any such operations with their own checkpoints opened
    and closed in between, every query answers as it did before, and the state
    stands for the same accounts and saved copies.  The operations in between do
    not remove accounts, which the code does not revert (see
    [kill_is_not_reverted]), and create contracts only at addresses for which the
    database has no storage (see [reverted_contract_leaves_storage]). *)
Theorem revert_restores s A ops vs s1 (q : state_op) :
  db_complete keccak D root codes -> keccak [] = KECCAK_EMPTY -> sim keccak D root codes s A ->
  nested 0 ops = true -> Forall op_safe ops -> run_ops keccak (checkpoint s) ops = Ok (vs, s1) -> is_query q = true ->
  sim keccak D root codes (revert_to_checkpoint s1) A /\
  exists v s2 s3, run_op keccak s q = Ok (v, s2) /\ run_op keccak (revert_to_checkpoint s1) q = Ok (v, s3).
Proof.
  intros Hdb He Hs Hn Hsafe Hrun Hq.
  destruct (run_op_sim keccak D root codes Hdb He s A OpCheckpoint Hs I) as (sc & [= <-] & Hsc & Hnc).
  destruct (nested_run ops (checkpoint s) _ [] (a_cur A :: a_saved A) vs s1 Hdb He Hsc eq_refl Hn Hsafe Hrun) as (A1 & Hs1 & Hsv & Hn1).
  destruct (run_op_sim keccak D root codes Hdb He s1 A1 OpRevertToCheckpoint Hs1 I) as (sr & [= <-] & Hsr & Hnr). rewrite Hsv in Hsr.
  assert (HsrA : sim keccak D root codes (revert_to_checkpoint s1) A) by (by destruct A).
  split; [done|]. destruct (abs_query keccak (account_start_nonce s) A q Hq) as [v Hv].
  assert (Hal : forall s, op_allowed keccak D root codes s A q) by (by intros; destruct q).
  pose proof (run_op_sim keccak D root codes Hdb He s A q Hs (Hal s)) as H2. pose proof (run_op_sim keccak D root codes Hdb He _ A q HsrA (Hal _)) as H3.
  rewrite Hnr, Hn1 in H3. cbn in H3. rewrite Hv in *.
  destruct H2 as (s2 & ? & _), H3 as (s3 & ? & _). by exists v, s2, s3.
Qed.
End theorems.

(** An account written to the trie by [Account::rlp] is read back by
    [Account::from_rlp] with the same nonce, balance, storage root and code hash,
    and with empty caches. *)
Theorem account_roundtrip {C : Type} `{LruCache C} (acc : Account C) :
  in_u 256 (acc_nonce acc) -> in_u 256 (acc_balance acc) -> in_u 256 (acc_storage_root acc) -> in_u 256 (acc_code_hash acc) ->
  (b ← account_rlp acc; from_rlp (C := C) b) =
  Ok (mkAccount (acc_balance acc) (acc_nonce acc) (acc_storage_root acc) empty_storage_cache ∅ (acc_code_hash acc) None [] FilthClean None).
Proof.
  intros Hn Hb Hs Hc. assert (Hok : basic_ok (basic_of acc)) by done. rewrite account_rlp_ok by done. cbn [mbind outcome_bind].
  by rewrite from_rlp_ok.
Qed.

(** ** Witnesses *)
Definition test_state : State SharedDb (gmap Z Z) := mkState test_backend test_root ∅ [] 0.
Definition test_view : AState := mkAState (db_view test_keccak test_db test_root test_codes) [].

Lemma test_state_sim : sim test_keccak test_db test_root test_codes test_state test_view.
Proof. apply sim_new, test_backend_ok. Qed.

Lemma account_roundtrip_witness :
  (b ← account_rlp (Account_from (C := gmap Z Z) test_basic); from_rlp (C := gmap Z Z) b) = Ok (Account_from test_basic).
Proof. apply (account_roundtrip (Account_from (C := gmap Z Z) test_basic)); done. Defined.

Lemma state_refines_witness : exists s', run_op test_keccak test_state (OpStorageAt 1 1) = Ok (AWord 5, s').
Proof.
  destruct (state_refines test_keccak test_db test_root test_codes test_backend 0 test_state test_view (OpStorageAt 1 1)
    test_complete eq_refl test_backend_ok) as [_ Hr].
  destruct (Hr test_state_sim I) as (s' & Hs' & _). exists s'. rewrite Hs'. vm_compute. reflexivity.
Defined.

(** Storage, a transfer in an inner checkpoint, and a new contract. *)
Definition test_ops : list state_op :=
  [OpSetStorage 1 1 9; OpCheckpoint; OpTransferBalance 1 2 10 ForceCreate; OpDiscardCheckpoint; OpNewContract 3 1 0; OpStorageAt 1 1].

Definition answers {E S A} (o : outcome E (list A * S)) : list A := match o with Ok (vs, _) => vs | _ => [] end.
Definition left_by {E A} (s : State SharedDb (gmap Z Z)) (o : outcome E (A * State SharedDb (gmap Z Z))) : State SharedDb (gmap Z Z) :=
  match o with Ok (_, s) => s | _ => s end.

Lemma revert_restores_witness :
  exists v s2 s3, run_op test_keccak test_state (OpStorageAt 1 1) = Ok (v, s2) /\
    run_op test_keccak (revert_to_checkpoint (left_by test_state (run_ops test_keccak (checkpoint test_state) test_ops))) (OpStorageAt 1 1) = Ok (v, s3).
Proof.
  destruct (revert_restores test_keccak test_db test_root test_codes test_state test_view test_ops
    (answers (run_ops test_keccak (checkpoint test_state) test_ops))
    (left_by test_state (run_ops test_keccak (checkpoint test_state) test_ops)) (OpStorageAt 1 1)) as [_ Hq].
  - exact test_complete.
  - reflexivity.
  - exact test_state_sim.
  - reflexivity.
  - repeat (apply Forall_cons; split); try exact I; [|apply Forall_nil; exact I]. intros k. unfold db_storage. rewrite test_account.
    rewrite decide_False by (vm_compute; discriminate). reflexivity.
  - vm_compute. reflexivity.
  - reflexivity.
  - exact Hq.
Defined.

(** ** Where the caches show *)

(** The removal of an account is not undone: [overwrite_with] puts an account
    back only where there still is one. *)
Example kill_is_not_reverted :
  answers (run_ops test_keccak test_state
    [OpIncNonce 1; OpExists 1; OpCheckpoint; OpKillAccount 1; OpRevertToCheckpoint; OpExists 1]) =
  [AUnit; ABool true; AUnit; AUnit; AUnit; ABool false].
Proof. vm_compute. reflexivity. Qed.

(** An account that was removed and comes into being again shows the storage of
    the old one, which the shared cache still has. *)
Example removed_storage_reappears :
  answers (run_ops test_keccak test_state [OpKillAccount 1; OpStorageAt 1 1; OpAddBalance 1 5 NoEmpty; OpStorageAt 1 1]) =
  [AUnit; AWord 0; AMode NoEmpty; AWord 5].
Proof. vm_compute. reflexivity. Qed.

(** A contract created over an account with storage, then reverted: the account
    keeps the empty storage the contract was seen with, since the cached entries
    are merged although the storage roots differ. *)
Example reverted_contract_leaves_storage :
  answers (run_ops test_keccak (mkState (mkShared test_db ∅ ∅) test_root ∅ [] 0)
    [OpIncNonce 1; OpCheckpoint; OpNewContract 1 0 0; OpStorageAt 1 1; OpRevertToCheckpoint; OpStorageAt 1 1]) =
  [AUnit; AUnit; AUnit; AWord 0; AUnit; AWord 0].
Proof. vm_compute. reflexivity. Qed.
