(* ===== verification/Nibbles.v ===== *)
(** * Nibbles ([util/patricia_trie/src/nibbleslice.rs], [nibblevec.rs])

    The keys of a trie are read four bits at a time.  [NibbleSlice] is a view on
    a byte slice from a nibble offset on, optionally followed by a second one;
    [NibbleVec] owns its nibbles.  Both are related to plain lists of nibbles,
    and the prefixed form in which partial keys are stored ([encoded],
    [from_encoded]) to the function [hp] on such lists. *)
From stdpp Require Import base list numbers.
From S2P Require Import Prelude.

(** ** The code *)
Record NibbleSlice := mkNibbles {
  ns_data : bytes;
  ns_offset : Z;
  ns_data_suffix : bytes;
  ns_offset_suffix : Z;
}.

Definition ns_new_offset (data : bytes) (offset : Z) : NibbleSlice := mkNibbles data offset [] 0.
Definition ns_new (data : bytes) : NibbleSlice := ns_new_offset data 0.
Definition ns_new_composed (a b : NibbleSlice) : NibbleSlice :=
  mkNibbles (ns_data a) (ns_offset a) (ns_data b) (ns_offset b).

Section nibbles.
Context {E : Type}.

(** The upper or the lower half of a byte. *)
Definition nibble_of (data : bytes) (j : Z) : outcome E Z :=
  x ← index data (j / 2); Ok (if Z.land j 1 =? 1 then Z.land x 15 else Z.shiftr x 4).

Definition from_encoded (data : bytes) : outcome E (NibbleSlice * bool) :=
  d0 ← index data 0;
  Ok (ns_new_offset data (if Z.land d0 16 =? 16 then 1 else 2), Z.land d0 32 =? 32).

Definition ns_len (self : NibbleSlice) : outcome E Z :=
  n ← mul_chk 64 (len (ns_data self) + len (ns_data_suffix self)) 2;
  n ← sub_chk n (ns_offset self);
  sub_chk n (ns_offset_suffix self).

Definition ns_is_empty (self : NibbleSlice) : outcome E bool := l ← ns_len self; Ok (l =? 0).

Definition ns_at (self : NibbleSlice) (i : Z) : outcome E Z :=
  l ← sub_chk (len (ns_data self) * 2) (ns_offset self);
  if i <? l then nibble_of (ns_data self) (ns_offset self + i)
  else nibble_of (ns_data_suffix self) (ns_offset_suffix self + (i - l)).

Definition ns_mid (self : NibbleSlice) (i : Z) : NibbleSlice := ns_new_offset (ns_data self) (ns_offset self + i).

(** [while i < s { if self.at(i) != them.at(i) { break } i += 1 }] *)
Fixpoint common_prefix_loop (n : nat) (self them : NibbleSlice) (i : Z) : outcome E Z :=
  match n with
  | O => Ok i
  | S n' =>
      a ← ns_at self i;
      b ← ns_at them i;
      if negb (a =? b) then Ok i else common_prefix_loop n' self them (i + 1)
  end.
Definition common_prefix (self them : NibbleSlice) : outcome E Z :=
  l ← ns_len self;
  l' ← ns_len them;
  common_prefix_loop (Z.to_nat (Z.min l l')) self them 0.

Definition starts_with (self them : NibbleSlice) : outcome E bool :=
  c ← common_prefix self them; l ← ns_len them; Ok (c =? l).

Definition ns_eq (self them : NibbleSlice) : outcome E bool :=
  l ← ns_len self;
  l' ← ns_len them;
  if l =? l' then starts_with self them else Ok false.

Fixpoint cmp_loop (n : nat) (self them : NibbleSlice) (i : Z) : outcome E comparison :=
  match n with
  | O => l ← ns_len self; l' ← ns_len them; Ok (l ?= l')
  | S n' =>
      a ← ns_at self i;
      b ← ns_at them i;
      match a ?= b with Eq => cmp_loop n' self them (i + 1) | c => Ok c end
  end.
Definition ns_partial_cmp (self them : NibbleSlice) : outcome E comparison :=
  l ← ns_len self;
  l' ← ns_len them;
  cmp_loop (Z.to_nat (Z.min l l')) self them 0.

(** [while i < l { r.push(self.at(i) * 16 + self.at(i + 1)); i += 2 }] *)
Fixpoint encoded_loop (n : nat) (self : NibbleSlice) (l i : Z) (r : bytes) : outcome E bytes :=
  if i <? l then
    match n with
    | O => Panic
    | S n' =>
        a ← ns_at self i;
        a ← mul_chk 8 a 16;
        b ← ns_at self (i + 1);
        x ← add_chk 8 a b;
        encoded_loop n' self l (i + 2) (r ++ [x])
    end
  else Ok r.

(** The body [encoded] and [encoded_leftmost] share. *)
Definition encoded_upto (self : NibbleSlice) (l : Z) (is_leaf : bool) : outcome E bytes :=
  let i := l mod 2 in
  first ← (if i =? 1 then a ← ns_at self 0; add_chk 8 0x10 a else Ok 0);
  first ← add_chk 8 first (if is_leaf then 0x20 else 0);
  encoded_loop (Z.to_nat l) self l i [first].

Definition ns_encoded (self : NibbleSlice) (is_leaf : bool) : outcome E bytes :=
  l ← ns_len self; encoded_upto self l is_leaf.

Definition encoded_leftmost (self : NibbleSlice) (n : Z) (is_leaf : bool) : outcome E bytes :=
  l ← ns_len self; encoded_upto self (Z.min l n) is_leaf.

(** The nibbles [iter] yields, one by one. *)
Fixpoint ns_iter_from (n : nat) (self : NibbleSlice) (i : Z) : outcome E (list Z) :=
  match n with
  | O => Ok []
  | S n' => x ← ns_at self i; l ← ns_iter_from n' self (i + 1); Ok (x :: l)
  end.
Definition ns_iter (self : NibbleSlice) : outcome E (list Z) :=
  l ← ns_len self; ns_iter_from (Z.to_nat l) self 0.

(** *** [NibbleVec] *)
Record NibbleVec := mkNibbleVec { nv_inner : bytes; nv_len : Z }.

Definition nv_new : NibbleVec := mkNibbleVec [] 0.
Definition nv_is_empty (v : NibbleVec) : bool := nv_len v =? 0.

Definition nv_at (v : NibbleVec) (idx : Z) : outcome E Z :=
  x ← index (nv_inner v) (idx / 2);
  Ok (if idx mod 2 =? 0 then Z.shiftr x 4 else Z.land x 0x0f).

Definition nv_push (v : NibbleVec) (nibble : Z) : outcome E NibbleVec :=
  let nibble := Z.land nibble 0x0f in
  inner ←
    (if nv_len v mod 2 =? 0 then Ok (nv_inner v ++ [wrap 8 (Z.shiftl nibble 4)])
     else
       match list.last (nv_inner v) with
       | Some x => Ok (removelast (nv_inner v) ++ [Z.lor x nibble])
       | None => Panic
       end);
  n ← add_chk 64 (nv_len v) 1;
  Ok (mkNibbleVec inner n).

Definition nv_pop (v : NibbleVec) : outcome E (option Z * NibbleVec) :=
  if nv_is_empty v then Ok (None, v)
  else
    match list.last (nv_inner v) with
    | None => Panic
    | Some byte =>
        let inner := removelast (nv_inner v) in
        if nv_len v mod 2 =? 0
        then Ok (Some (Z.land byte 0x0f), mkNibbleVec (inner ++ [Z.land byte 0xf0]) (nv_len v - 1))
        else Ok (Some (Z.shiftr byte 4), mkNibbleVec inner (nv_len v - 1))
    end.

Definition as_nibbleslice (v : NibbleVec) : option NibbleSlice :=
  if nv_len v mod 2 =? 0 then Some (ns_new (nv_inner v)) else None.

(** [From<NibbleSlice>]: [for i in 0..s.len() { v.push(s.at(i)) }] *)
Fixpoint nv_from_loop (n : nat) (s : NibbleSlice) (i : Z) (v : NibbleVec) : outcome E NibbleVec :=
  match n with
  | O => Ok v
  | S n' => x ← ns_at s i; v ← nv_push v x; nv_from_loop n' s (i + 1) v
  end.
Definition nv_from (s : NibbleSlice) : outcome E NibbleVec :=
  l ← ns_len s; nv_from_loop (Z.to_nat l) s 0 nv_new.
End nibbles.

(** ** Lists of nibbles *)
Abbreviation is_nibbles := (Forall (in_u 4)).

Fixpoint to_nibs (b : bytes) : list Z :=
  match b with [] => [] | x :: b => x / 16 :: x mod 16 :: to_nibs b end.

Fixpoint pack (k : list Z) : bytes :=
  match k with a :: b :: k => a * 16 + b :: pack k | _ => [] end.

(** The prefixed form of a partial key: the first byte holds a flag for leaves
    and, if the number of nibbles is odd, the first of them. *)
Definition hp (k : list Z) (is_leaf : bool) : bytes :=
  let flag := if is_leaf then 0x20 else 0 in
  match k with
  | a :: k' => if Z.even (len k) then flag :: pack k else 0x10 + a + flag :: pack k'
  | [] => [flag]
  end.

Definition nibs (s : NibbleSlice) : list Z :=
  drop (Z.to_nat (ns_offset s)) (to_nibs (ns_data s)) ++ drop (Z.to_nat (ns_offset_suffix s)) (to_nibs (ns_data_suffix s)).

Record slice_wf (s : NibbleSlice) : Prop := {
  sw_data : is_bytes (ns_data s);
  sw_suffix : is_bytes (ns_data_suffix s);
  sw_len : len (ns_data s) + len (ns_data_suffix s) < 2 ^ 62;
  sw_offset : 0 <= ns_offset s <= 2 * len (ns_data s);
  sw_offset_suffix : 0 <= ns_offset_suffix s <= 2 * len (ns_data_suffix s);
}.

(** A view on one slice; the only kind [mid] is taken of. *)
Definition plain (s : NibbleSlice) : Prop := slice_wf s /\ ns_data_suffix s = [].

Fixpoint common (a b : list Z) : nat :=
  match a, b with
  | x :: a, y :: b => if x =? y then S (common a b) else O
  | _, _ => O
  end.

Fixpoint lex_cmp (a b : list Z) : comparison :=
  match a, b with
  | [], [] => Eq
  | [], _ => Lt
  | _, [] => Gt
  | x :: a, y :: b => match x ?= y with Eq => lex_cmp a b | c => c end
  end.

Lemma len_to_nibs b : len (to_nibs b) = 2 * len b.
Proof. induction b as [|x b IH]; [done|]. cbn [to_nibs]. rewrite !len_cons, IH. lia. Qed.

Lemma length_to_nibs b : length (to_nibs b) = (2 * length b)%nat.
Proof. pose proof (len_to_nibs b). unfold len in *. lia. Qed.

Lemma to_nibs_nibbles b : is_bytes b -> is_nibbles (to_nibs b).
Proof.
  induction 1 as [|x b [Hx1 Hx2] Hb IH]; [constructor|]. change (2 ^ 8) with 256 in *. cbn [to_nibs].
  assert (in_u 4 (x / 16)) by (split; [apply Z.div_pos; lia|apply Z.div_lt_upper_bound; lia]).
  assert (in_u 4 (x mod 16)) by (pose proof (Z.mod_pos_bound x 16); unfold in_u; lia). do 2 (constructor; [done|]). done.
Qed.

Lemma to_nibs_app a b : to_nibs (a ++ b) = to_nibs a ++ to_nibs b.
Proof. induction a as [|x a IH]; [done|]. cbn [to_nibs app]. by rewrite IH. Qed.

Lemma to_nibs_inj a b : is_bytes a -> is_bytes b -> to_nibs a = to_nibs b -> a = b.
Proof.
  intros Ha. revert b. induction Ha as [|x a Hx Ha IH]; intros b Hb He; [by destruct b|].
  destruct b as [|y b]; [done|]. inversion Hb; subst. cbn [to_nibs] in He. injection He as Hd Hm Hr.
  f_equal; [|by apply IH]. rewrite (Z.div_mod x 16), (Z.div_mod y 16) by lia. congruence.
Qed.

Lemma nibble_of_ok {E} data j :
  0 <= j -> @nibble_of E data j = match to_nibs data !! Z.to_nat j with Some n => Ok n | None => Panic end.
Proof.
  intros Hj. unfold nibble_of. rewrite (Z.land_ones j 1 ltac:(lia) : Z.land j 1 = j mod 2).
  revert j Hj. induction data as [|x data IH]; intros j Hj.
  { unfold index. rewrite (proj2 (Z.leb_le _ _)) by (apply Z.div_pos; lia). by rewrite !lookup_nil. }
  destruct (decide (j < 2)) as [Hlt|Hge].
  - assert (j = 0 \/ j = 1) as [-> | ->] by lia; cbn [to_nibs lookup list_lookup].
    + change (Z.to_nat 0) with 0%nat. change (index (x :: data) (0 / 2)) with (@Ok E Z x). change (0 mod 2 =? 1) with false.
      cbn [mbind outcome_bind]. by rewrite Z.shiftr_div_pow2.
    + change (Z.to_nat 1) with 1%nat. change (index (x :: data) (1 / 2)) with (@Ok E Z x). change (1 mod 2 =? 1) with true.
      cbn [mbind outcome_bind]. by rewrite (Z.land_ones x 4 ltac:(lia) : Z.land x 15 = x mod 16).
  - assert (j / 2 = (j - 2) / 2 + 1) as -> by (rewrite <-Z.div_add by lia; f_equal; lia).
    assert (j mod 2 = (j - 2) mod 2) as -> by (rewrite <-(Z.mod_add (j - 2) 1) by lia; f_equal; lia).
    replace (Z.to_nat j) with (S (S (Z.to_nat (j - 2)))) by lia. cbn [to_nibs]. 
    specialize (IH (j - 2) ltac:(lia)). 
    change ((x / 16 :: x mod 16 :: to_nibs data) !! S (S (Z.to_nat (j - 2)))) with (to_nibs data !! Z.to_nat (j - 2)). rewrite <-IH.
    unfold index. assert (0 <= (j - 2) / 2) by (apply Z.div_pos; lia).
    rewrite !(proj2 (Z.leb_le _ _)) by lia. by replace (Z.to_nat ((j - 2) / 2 + 1)) with (S (Z.to_nat ((j - 2) / 2))) by lia.
Qed.

Section slices.
Context {E : Type}.
Implicit Types s : NibbleSlice.

Lemma len_nibs s : slice_wf s ->
  len (nibs s) = 2 * len (ns_data s) - ns_offset s + (2 * len (ns_data_suffix s) - ns_offset_suffix s).
Proof.
  intros []. unfold nibs. rewrite len_app, !len_drop, !len_to_nibs by (rewrite len_to_nibs; lia). lia.
Qed.

Lemma nibs_len_bound s : slice_wf s -> len (nibs s) < 2 ^ 63.
Proof. intros Hs. rewrite len_nibs by done. destruct Hs. lia. Qed.

Lemma nibs_nibbles s : slice_wf s -> is_nibbles (nibs s).
Proof. intros []. apply Forall_app_2; by apply Forall_drop, to_nibs_nibbles. Qed.

Lemma ns_len_ok s : slice_wf s -> @ns_len E s = Ok (len (nibs s)).
Proof.
  intros Hs. rewrite len_nibs by done. destruct Hs. unfold ns_len. rewrite mul_chk_ok by lia. cbn [mbind outcome_bind].
  rewrite sub_chk_ok by lia. cbn [mbind outcome_bind]. rewrite sub_chk_ok by lia. f_equal. lia.
Qed.

Lemma ns_is_empty_ok s : slice_wf s -> @ns_is_empty E s = Ok (bool_decide (nibs s = [])).
Proof.
  intros Hs. unfold ns_is_empty. rewrite ns_len_ok by done. cbn. f_equal.
  destruct (nibs s) as [|x l]; [done|]. rewrite len_cons. pose proof (len_nonneg l).
  rewrite bool_decide_eq_false_2 by done. apply Z.eqb_neq. lia.
Qed.

Lemma ns_at_lookup s i : slice_wf s -> 0 <= i ->
  @ns_at E s i = match nibs s !! Z.to_nat i with Some n => Ok n | None => Panic end.
Proof.
  intros [] Hi. unfold ns_at. rewrite sub_chk_ok by lia. cbn [mbind outcome_bind]. unfold nibs.
  destruct (Z.ltb_spec i (len (ns_data s) * 2 - ns_offset s)) as [Hlt|Hge].
  - rewrite nibble_of_ok by lia. rewrite lookup_app_l, lookup_drop.
    + by replace (Z.to_nat (ns_offset s) + Z.to_nat i)%nat with (Z.to_nat (ns_offset s + i)) by lia.
    + rewrite length_drop, length_to_nibs. unfold len in *. lia.
  - rewrite nibble_of_ok by lia. rewrite lookup_app_r, lookup_drop.
    + rewrite length_drop, length_to_nibs.
      by replace (Z.to_nat (ns_offset_suffix s) + (Z.to_nat i - (2 * length (ns_data s) - Z.to_nat (ns_offset s))))%nat
        with (Z.to_nat (ns_offset_suffix s + (i - (len (ns_data s) * 2 - ns_offset s)))) by (unfold len in *; lia).
    + rewrite length_drop, length_to_nibs. unfold len in *. lia.
Qed.

Lemma ns_at_ok s i x : slice_wf s -> nibs s !! i = Some x -> @ns_at E s (Z.of_nat i) = Ok x.
Proof. intros Hs Hx. rewrite ns_at_lookup, Nat2Z.id by (done || lia). by rewrite Hx. Qed.

Lemma ns_at_0 s x l : slice_wf s -> nibs s = x :: l -> @ns_at E s 0 = Ok x.
Proof. intros Hs Hx. apply (ns_at_ok s 0); [done|]. by rewrite Hx. Qed.

Lemma plain_new b : is_bytes b -> len b < 2 ^ 62 -> plain (ns_new b).
Proof. intros. split; [|done]. pose proof (len_nonneg b). split; cbn; try done; unfold len in *; cbn; try lia. constructor. Qed.

Lemma nibs_new b : nibs (ns_new b) = to_nibs b.
Proof. unfold nibs. cbn. apply app_nil_r. Qed.

Lemma nibs_plain s : plain s -> nibs s = drop (Z.to_nat (ns_offset s)) (to_nibs (ns_data s)).
Proof. intros [[] Hd]. unfold nibs. rewrite Hd. cbn. rewrite drop_nil. apply app_nil_r. Qed.

Lemma plain_mid s i : plain s -> 0 <= i <= len (nibs s) -> plain (ns_mid s i).
Proof.
  intros [Hs Hd] Hi. rewrite len_nibs in Hi by done. rewrite Hd in Hi. destruct Hs. rewrite Hd in *.
  split; [|done]. split; cbn; try done; try constructor; unfold len in *; cbn in *; lia.
Qed.

Lemma nibs_mid s i : plain s -> 0 <= i <= len (nibs s) -> nibs (ns_mid s i) = drop (Z.to_nat i) (nibs s).
Proof.
  intros Hs Hi. rewrite (nibs_plain (ns_mid s i)) by by apply plain_mid. rewrite nibs_plain by done. cbn.
  destruct Hs as [[] _]. rewrite drop_drop. f_equal. lia.
Qed.

(** ** Common prefixes *)
Lemma common_le a b : (common a b <= length a)%nat /\ (common a b <= length b)%nat.
Proof. revert b. induction a as [|x a IH]; intros [|y b]; cbn; try lia. case_match; [|lia]. destruct (IH b). lia. Qed.

Lemma common_take a b : take (common a b) a = take (common a b) b.
Proof. revert b. induction a as [|x a IH]; intros [|y b]; cbn; try done. case_match; [|done]. b2p. subst. cbn. by rewrite IH. Qed.

Lemma common_app a b : common a (a ++ b) = length a.
Proof. induction a as [|x a IH]; [done|]. cbn. by rewrite Z.eqb_refl, IH. Qed.

Lemma common_diverge a b x y : a !! common a b = Some x -> b !! common a b = Some y -> x <> y.
Proof.
  revert b. induction a as [|x' a IH]; intros [|y' b]; cbn; try done.
  destruct (Z.eqb_spec x' y'); cbn; [by apply IH|]. congruence.
Qed.

Lemma common_prefix_split a b : exists p a' b', a = p ++ a' /\ b = p ++ b' /\ length p = common a b /\
  match a', b' with x :: _, y :: _ => x <> y | _, _ => True end.
Proof.
  exists (take (common a b) a), (drop (common a b) a), (drop (common a b) b).
  destruct (common_le a b). split_and!; [by rewrite take_drop|by rewrite common_take, take_drop|rewrite length_take; lia|].
  destruct (drop (common a b) a) as [|x a'] eqn:Ha, (drop (common a b) b) as [|y b'] eqn:Hb; try done.
  eapply common_diverge.
  - by rewrite <-(Nat.add_0_r (common a b)), <-lookup_drop, Ha.
  - by rewrite <-(Nat.add_0_r (common a b)), <-lookup_drop, Hb.
Qed.

Lemma common_comm a b : common a b = common b a.
Proof. revert b. induction a as [|x a IH]; intros [|y b]; cbn; try done. rewrite (Z.eqb_sym x y). case_match; [|done]. by rewrite IH. Qed.

Lemma common_full a b : common a b = length b <-> exists c, a = b ++ c.
Proof.
  split; [|intros [c ->]; by rewrite common_comm, common_app].
  intros Hc. exists (drop (length b) a). rewrite <-Hc. pose proof (common_take a b) as Ht. rewrite Hc in Ht at 2.
  rewrite firstn_all in Ht. rewrite <-Ht at 1. by rewrite take_drop.
Qed.

Lemma common_prefix_loop_ok n s t i :
  slice_wf s -> slice_wf t -> (i + n = length (nibs s) `min` length (nibs t))%nat ->
  @common_prefix_loop E n s t (Z.of_nat i) = Ok (Z.of_nat (i + common (drop i (nibs s)) (drop i (nibs t)))).
Proof.
  intros Hs Ht. revert i. induction n as [|n IH]; intros i Hi; cbn [common_prefix_loop].
  - f_equal. assert (drop i (nibs s) = [] \/ drop i (nibs t) = []) as [-> | ->].
    { destruct (decide (length (nibs s) <= length (nibs t))%nat); [left|right]; apply drop_ge; lia. }
    all: try (destruct (drop _ _); cbn; lia).
  - destruct (lookup_lt_is_Some_2 (nibs s) i) as [x Hx]; [lia|]. destruct (lookup_lt_is_Some_2 (nibs t) i) as [y Hy]; [lia|].
    rewrite (ns_at_ok s i x), (ns_at_ok t i y) by done. cbn [mbind outcome_bind].
    rewrite (drop_S _ _ _ Hx), (drop_S _ _ _ Hy). cbn [common].
    destruct (x =? y); cbn [negb]; [|f_equal; lia].
    replace (Z.of_nat i + 1) with (Z.of_nat (S i)) by lia. rewrite IH by lia. f_equal. lia.
Qed.

Lemma common_prefix_ok s t : slice_wf s -> slice_wf t -> @common_prefix E s t = Ok (Z.of_nat (common (nibs s) (nibs t))).
Proof.
  intros Hs Ht. unfold common_prefix. rewrite !ns_len_ok by done. cbn [mbind outcome_bind].
  apply (common_prefix_loop_ok _ s t 0); [done|done|]. unfold len. lia.
Qed.

Lemma starts_with_ok s t :
  slice_wf s -> slice_wf t -> @starts_with E s t = Ok (bool_decide (take (length (nibs t)) (nibs s) = nibs t)).
Proof.
  intros Hs Ht. unfold starts_with. rewrite common_prefix_ok, ns_len_ok by done. cbn [mbind outcome_bind]. f_equal.
  apply eq_bool_prop_intro. rewrite Is_true_true, bool_decide_spec, Z.eqb_eq. unfold len.
  transitivity (common (nibs s) (nibs t) = length (nibs t)); [lia|]. rewrite common_full. split.
  - intros [c ->]. by rewrite take_app_length.
  - intros Hq. exists (drop (length (nibs t)) (nibs s)). rewrite <-Hq at 1. by rewrite take_drop.
Qed.

Lemma ns_eq_ok s t : slice_wf s -> slice_wf t -> @ns_eq E s t = Ok (bool_decide (nibs s = nibs t)).
Proof.
  intros Hs Ht. unfold ns_eq. rewrite !ns_len_ok by done. cbn [mbind outcome_bind]. unfold len.
  destruct (Z.eqb_spec (Z.of_nat (length (nibs s))) (Z.of_nat (length (nibs t)))) as [He|He].
  - rewrite starts_with_ok by done. f_equal. apply bool_decide_ext.
    by rewrite take_ge by lia.
  - f_equal. symmetry. apply bool_decide_eq_false_2. intros Hq. rewrite Hq in He. done.
Qed.

Lemma cmp_loop_ok n s t i :
  slice_wf s -> slice_wf t -> (i + n = length (nibs s) `min` length (nibs t))%nat ->
  @cmp_loop E n s t (Z.of_nat i) = Ok (lex_cmp (drop i (nibs s)) (drop i (nibs t))).
Proof.
  intros Hs Ht. revert i. induction n as [|n IH]; intros i Hi; cbn [cmp_loop].
  - rewrite !ns_len_ok by done. cbn [mbind outcome_bind]. f_equal. unfold len.
    destruct (Z.compare_spec (Z.of_nat (length (nibs s))) (Z.of_nat (length (nibs t)))).
    + by rewrite !drop_ge by lia.
    + rewrite drop_ge by lia. destruct (drop i (nibs t)) eqn:Hd; [|done]. apply (f_equal length) in Hd. rewrite length_drop in Hd. cbn in Hd. lia.
    + rewrite (drop_ge (nibs t)) by lia. destruct (drop i (nibs s)) eqn:Hd; [|done]. apply (f_equal length) in Hd. rewrite length_drop in Hd. cbn in Hd. lia.
  - destruct (lookup_lt_is_Some_2 (nibs s) i) as [x Hx]; [lia|]. destruct (lookup_lt_is_Some_2 (nibs t) i) as [y Hy]; [lia|].
    rewrite (ns_at_ok s i x), (ns_at_ok t i y) by done. cbn [mbind outcome_bind].
    rewrite (drop_S _ _ _ Hx), (drop_S _ _ _ Hy). cbn [lex_cmp]. destruct (x ?= y); [|done..].
    replace (Z.of_nat i + 1) with (Z.of_nat (S i)) by lia. by apply IH; lia.
Qed.

(** The order of slices is the lexicographic one. *)
Lemma ns_partial_cmp_ok s t : slice_wf s -> slice_wf t -> @ns_partial_cmp E s t = Ok (lex_cmp (nibs s) (nibs t)).
Proof.
  intros Hs Ht. unfold ns_partial_cmp. rewrite !ns_len_ok by done. cbn [mbind outcome_bind].
  apply (cmp_loop_ok _ s t 0); [done|done|]. unfold len. lia.
Qed.

Lemma ns_iter_ok s : slice_wf s -> @ns_iter E s = Ok (nibs s).
Proof.
  intros Hs. unfold ns_iter. rewrite ns_len_ok by done. cbn [mbind outcome_bind].
  cut (forall n i, (i + n = length (nibs s))%nat -> @ns_iter_from E n s (Z.of_nat i) = Ok (drop i (nibs s))).
  { intros Hc. by apply (Hc _ 0%nat); unfold len; lia. }
  induction n as [|n IH]; intros i Hi; cbn [ns_iter_from]; [by rewrite drop_ge by lia|].
  destruct (lookup_lt_is_Some_2 (nibs s) i) as [x Hx]; [lia|]. rewrite (ns_at_ok s i x) by done. cbn [mbind outcome_bind].
  replace (Z.of_nat i + 1) with (Z.of_nat (S i)) by lia. rewrite IH by lia. by rewrite (drop_S _ _ _ Hx).
Qed.
End slices.

(** ** The prefixed form *)
Lemma pair_ind (P : list Z -> Prop) :
  P [] -> (forall a, P [a]) -> (forall a b l, P l -> P (a :: b :: l)) -> forall l, P l.
Proof. intros H0 H1 H2. fix IH 1. intros [|a [|b l]]; [apply H0|apply H1|apply H2, IH]. Qed.

Lemma even_list_ind (P : list Z -> Prop) :
  P [] -> (forall a b l, P l -> P (a :: b :: l)) -> forall l, Z.even (len l) = true -> P l.
Proof.
  intros H0 H2 l. induction l as [|a|a b l IH] using pair_ind; [done|done|]. intros Hl. apply H2, IH.
  rewrite !len_cons, !Z.even_add in Hl. by destruct (Z.even (len l)).
Qed.

Lemma to_nibs_pack k : is_nibbles k -> Z.even (len k) = true -> to_nibs (pack k) = k.
Proof.
  intros Hk He. revert k He Hk. refine (even_list_ind _ _ _); [done|]. intros a b l IH Hk.
  inversion_clear Hk as [|? ? [Ha1 Ha2] Hk']. inversion_clear Hk' as [|? ? [Hb1 Hb2] Hl]. change (2 ^ 4) with 16 in *.
  cbn [pack to_nibs]. rewrite IH by done. do 2 f_equal.
  - rewrite Z.div_add_l, Z.div_small; lia.
  - rewrite Z.add_comm, Z.mod_add, Z.mod_small; lia.
Qed.

Lemma pack_to_nibs b : is_bytes b -> pack (to_nibs b) = b.
Proof.
  induction 1 as [|x b Hx Hb IH]; [done|]. cbn [to_nibs pack]. rewrite IH. f_equal.
  rewrite (Z.div_mod x 16) at 3 by lia. lia.
Qed.

Lemma pack_app a b : Z.even (len a) = true -> pack (a ++ b) = pack a ++ pack b.
Proof. revert a. refine (even_list_ind _ _ _); [done|]. intros x y l IH. cbn [app pack]. by rewrite IH. Qed.

Lemma pack_bytes k : is_nibbles k -> is_bytes (pack k).
Proof.
  induction k as [|a|a b l IH] using pair_ind; intros Hk; [constructor|constructor|]. cbn [pack].
  inversion_clear Hk as [|? ? [Ha1 Ha2] Hk']. inversion_clear Hk' as [|? ? [Hb1 Hb2] Hl]. change (2 ^ 4) with 16 in *.
  constructor; [|by apply IH]. split; [lia|]. change (2 ^ 8) with 256. lia.
Qed.

Lemma len_pack k : 2 * len (pack k) <= len k.
Proof. induction k as [|a|a b l IH] using pair_ind; [done|done|]. cbn [pack]. rewrite !len_cons. lia. Qed.

Lemma hp_bytes k leaf : is_nibbles k -> is_bytes (hp k leaf).
Proof.
  intros Hk. destruct k as [|a k']; cbn [hp].
  - constructor; [|constructor]. by destruct leaf.
  - inversion Hk as [|? ? [Ha1 Ha2] Hk']; subst. change (2 ^ 4) with 16 in *. case_match; constructor; try by apply pack_bytes.
    + by destruct leaf.
    + change (in_u 8 (16 + a + (if leaf then 32 else 0))). unfold in_u. change (2 ^ 8) with 256. destruct leaf; lia.
Qed.

Lemma len_hp k leaf : 0 < len (hp k leaf) <= 1 + len k.
Proof.
  destruct k as [|a k']; cbn [hp]; [done|].
  case_match; rewrite len_cons.
  - pose proof (len_pack (a :: k')). pose proof (len_nonneg (pack (a :: k'))). lia.
  - pose proof (len_pack k'). pose proof (len_nonneg (pack k')). rewrite len_cons. lia.
Qed.

(** A fact about every nibble can be checked one by one. *)
Lemma nibble_cases (P : Z -> Prop) : Forall P [0;1;2;3;4;5;6;7;8;9;10;11;12;13;14;15] -> forall a, in_u 4 a -> P a.
Proof.
  intros HP a [H1 H2]. change (2 ^ 4) with 16 in H2. eapply List.Forall_forall; [exact HP|].
  assert (a = 0 \/ a = 1 \/ a = 2 \/ a = 3 \/ a = 4 \/ a = 5 \/ a = 6 \/ a = 7 \/ a = 8 \/ a = 9 \/ a = 10 \/ a = 11 \/
    a = 12 \/ a = 13 \/ a = 14 \/ a = 15) as Ha by lia. cbn. intuition.
Qed.

(** [from_encoded] reads back what [hp] writes. *)
Lemma first_byte_even (leaf : bool) : let f : Z := if leaf then 0x20 else 0 in (Z.land f 16 =? 16) = false /\ (Z.land f 32 =? 32) = leaf.
Proof. by destruct leaf. Qed.

Lemma first_byte_odd a (leaf : bool) : in_u 4 a ->
  (Z.land (0x10 + a + (if leaf then 0x20 else 0)) 16 =? 16) = true /\
  (Z.land (0x10 + a + (if leaf then 0x20 else 0)) 32 =? 32) = leaf /\ (0x10 + a + (if leaf then 0x20 else 0)) mod 16 = a.
Proof.
  revert a. apply nibble_cases. destruct leaf; vm_compute; repeat constructor.
Qed.

Lemma from_encoded_hp {E} k leaf :
  is_nibbles k -> len k < 2 ^ 62 - 1 -> exists s, @from_encoded E (hp k leaf) = Ok (s, leaf) /\ plain s /\ nibs s = k.
Proof.
  intros Hk Hl. pose proof (hp_bytes k leaf Hk) as Hb. pose proof (len_hp k leaf) as Hlen.
  assert (exists f t, hp k leaf = f :: t /\
    (((Z.land f 16 =? 16) = false /\ to_nibs t = k) \/ ((Z.land f 16 =? 16) = true /\ f mod 16 :: to_nibs t = k)) /\ (Z.land f 32 =? 32) = leaf)
    as (f & t & Hf & Hcase & Hleaf).
  { destruct k as [|a k']; cbn [hp].
    - destruct (first_byte_even leaf). do 2 eexists; split; [done|]. by split; [left|].
    - inversion Hk as [|? ? Ha Hk']; subst. destruct (Z.even (len (a :: k'))) eqn:He; do 2 eexists; (split; [done|]).
      + destruct (first_byte_even leaf). split; [left; split; [done|]|done]. by apply to_nibs_pack.
      + destruct (first_byte_odd a leaf Ha) as (H1 & H2 & H3). split; [right; split; [done|]|done]. rewrite H3.
        f_equal. apply to_nibs_pack; [done|]. rewrite len_cons, Z.even_add in He. by destruct (Z.even (len k')). }
  unfold from_encoded. rewrite Hf in *. change (index (f :: t) 0) with (@Ok E Z f). cbn [mbind outcome_bind]. rewrite Hleaf.
  rewrite len_cons in Hlen. pose proof (len_nonneg t).
  eexists; split; [reflexivity|].
  assert (plain (ns_new_offset (f :: t) (if Z.land f 16 =? 16 then 1 else 2))) as Hp.
  { split; [|done]. split; cbn [ns_data ns_offset ns_data_suffix ns_offset_suffix ns_new_offset]; rewrite ?len_cons, ?len_nil; try done; try lia.
    - constructor.
    - case_match; lia. }
  split; [done|]. rewrite nibs_plain by done. cbn [ns_new_offset ns_data ns_offset to_nibs].
  by destruct Hcase as [[-> <-]|[-> <-]].
Qed.

Lemma even_of_nat n : Z.even (Z.of_nat n) = Nat.even n.
Proof. induction n as [|n IH]; [done|]. by rewrite Nat2Z.inj_succ, Z.even_succ, Nat.even_succ, <-Z.negb_even, <-Nat.negb_even, IH. Qed.

Section encoded.
Context {E : Type}.

Lemma encoded_loop_ok n s l i r :
  slice_wf s -> (i <= l <= length (nibs s))%nat -> (l - i <= n)%nat -> Nat.even (l - i) = true ->
  @encoded_loop E n s (Z.of_nat l) (Z.of_nat i) r = Ok (r ++ pack (drop i (take l (nibs s)))).
Proof.
  intros Hs. revert i r. induction n as [|n IH]; intros i r Hi Hn He; cbn [encoded_loop].
  { rewrite (proj2 (Z.ltb_ge _ _)) by lia. rewrite drop_ge by (rewrite length_take; lia). by rewrite app_nil_r. }
  destruct (Z.ltb_spec (Z.of_nat i) (Z.of_nat l)) as [Hlt|Hge].
  2: { rewrite drop_ge by (rewrite length_take; lia). by rewrite app_nil_r. }
  destruct (decide (l = S i)) as [->|]; [by replace (S i - i)%nat with 1%nat in He by lia|].
  destruct (lookup_lt_is_Some_2 (nibs s) i) as [x Hx]; [lia|]. destruct (lookup_lt_is_Some_2 (nibs s) (S i)) as [y Hy]; [lia|].
  pose proof (nibs_nibbles s Hs) as Hnib. pose proof (Forall_lookup_1 _ _ _ _ Hnib Hx) as [Hx1 Hx2].
  pose proof (Forall_lookup_1 _ _ _ _ Hnib Hy) as [Hy1 Hy2]. change (2 ^ 4) with 16 in *.
  rewrite (ns_at_ok s i x) by done. cbn [mbind outcome_bind]. rewrite mul_chk_ok by lia. cbn [mbind outcome_bind].
  replace (Z.of_nat i + 1) with (Z.of_nat (S i)) by lia. rewrite (ns_at_ok s (S i) y) by done. cbn [mbind outcome_bind].
  rewrite add_chk_ok by lia. cbn [mbind outcome_bind]. replace (Z.of_nat i + 2) with (Z.of_nat (S (S i))) by lia.
  rewrite IH; [|lia|lia|].
  2: { replace (l - i)%nat with (S (S (l - S (S i)))) in He by lia. done. }
  rewrite (drop_S (take l (nibs s)) x i), (drop_S (take l (nibs s)) y (S i)) by (by rewrite lookup_take_lt by lia).
  cbn [pack]. by rewrite <-app_assoc.
Qed.

Lemma encoded_upto_ok s (l : nat) leaf :
  slice_wf s -> (l <= length (nibs s))%nat -> @encoded_upto E s (Z.of_nat l) leaf = Ok (hp (take l (nibs s)) leaf).
Proof.
  intros Hs Hl. unfold encoded_upto. rewrite Nat2Z.id. destruct (nibs s) as [|a k] eqn:Hk.
  { cbn in Hl. assert (l = 0)%nat as -> by lia. by destruct leaf. }
  destruct l as [|l]; [by destruct leaf|]. cbn [take hp].
  pose proof (nibs_nibbles s Hs) as Hnib. rewrite Hk in Hnib. inversion Hnib as [|? ? [Ha1 Ha2] _]; subst. change (2 ^ 4) with 16 in *.
  assert (length (take l k) = l) as Hlt by (rewrite length_take; cbn in Hl; lia).
  assert (len (a :: take l k) = Z.of_nat (S l)) as -> by (unfold len; cbn [length]; lia).
  rewrite Zmod_even, even_of_nat. destruct (Nat.even (S l)) eqn:He.
  - change (0 =? 1) with false. cbn [mbind outcome_bind]. rewrite add_chk_ok by (by destruct leaf). cbn [mbind outcome_bind].
    rewrite (encoded_loop_ok (S l) s (S l) 0); [|done|rewrite Hk; lia|lia|by rewrite Nat.sub_0_r].
    rewrite Hk. by destruct leaf.
  - change (1 =? 1) with true. cbn match. rewrite (ns_at_0 s a k) by done. cbn [mbind outcome_bind]. rewrite add_chk_ok by lia.
    cbn [mbind outcome_bind]. rewrite add_chk_ok by (destruct leaf; lia). cbn [mbind outcome_bind].
    rewrite (encoded_loop_ok (S l) s (S l) 1); [|done|rewrite Hk; lia|lia|].
    2: { cbn. rewrite Nat.sub_0_r. by rewrite Nat.even_succ, <-Nat.negb_even, negb_false_iff in He. }
    by rewrite Hk.
Qed.

Lemma ns_encoded_ok s leaf : slice_wf s -> @ns_encoded E s leaf = Ok (hp (nibs s) leaf).
Proof.
  intros Hs. unfold ns_encoded. rewrite ns_len_ok by done. cbn [mbind outcome_bind]. unfold len.
  rewrite encoded_upto_ok by (done || lia). by rewrite firstn_all.
Qed.

Lemma encoded_leftmost_ok s (n : nat) leaf :
  slice_wf s -> (n <= length (nibs s))%nat -> @encoded_leftmost E s (Z.of_nat n) leaf = Ok (hp (take n (nibs s)) leaf).
Proof.
  intros Hs Hn. unfold encoded_leftmost. rewrite ns_len_ok by done. cbn [mbind outcome_bind]. unfold len.
  rewrite Z.min_r by lia. by apply encoded_upto_ok.
Qed.

Lemma composed_ok a b :
  plain a -> plain b -> len (nibs a) + len (nibs b) < 2 ^ 60 ->
  ns_offset a <= 2 -> ns_offset b <= 2 ->
  slice_wf (ns_new_composed a b) /\ nibs (ns_new_composed a b) = nibs a ++ nibs b.
Proof.
  intros Ha Hb Hl Hoa Hob. pose proof (nibs_plain a Ha) as Hna. pose proof (nibs_plain b Hb) as Hnb.
  destruct Ha as [Ha Hda], Hb as [Hb Hdb]. rewrite !len_nibs in Hl by done. rewrite Hda, Hdb in Hl. destruct Ha, Hb.
  rewrite Hda, Hdb in *. unfold len in Hl, sw_offset_suffix0, sw_offset_suffix1; cbn [length] in *.
  split; [split; cbn; try done; unfold len in *; lia|]. rewrite Hna, Hnb. done.
Qed.
End encoded.

(** ** [NibbleVec] *)
Definition nv_ok (v : NibbleVec) (l : list Z) : Prop :=
  nv_len v = len l /\ is_nibbles l /\ nv_inner v = pack (if Z.even (len l) then l else l ++ [0]).

Lemma nibble_shift n : in_u 4 n -> wrap 8 (Z.shiftl (Z.land n 0x0f) 4) = n * 16.
Proof.
  intros [H1 H2]. rewrite (Z.land_ones n 4 ltac:(lia) : Z.land n 15 = n mod 16). change (2 ^ 4) with 16 in *. rewrite Z.mod_small by lia.
  rewrite Z.shiftl_mul_pow2 by lia. apply wrap_small. split; [lia|]. change (2 ^ 8) with 256. lia.
Qed.

Lemma nibble_or a n : in_u 4 a -> in_u 4 n -> Z.lor (a * 16 + 0) (Z.land n 0x0f) = a * 16 + n.
Proof.
  intros Ha [H1 H2]. rewrite (Z.land_ones n 4 ltac:(lia) : Z.land n 15 = n mod 16). change (2 ^ 4) with 16 in *. rewrite Z.mod_small by lia.
  rewrite Z.add_0_r. assert (Z.land (a * 16) n = 0) as Hz.
  { apply Z.bits_inj'. intros i Hi. rewrite Z.land_spec, Z.bits_0. change 16 with (2 ^ 4). destruct (decide (i < 4)).
    - by rewrite Z.mul_pow2_bits_low by lia.
    - rewrite (Z.bits_above_log2 n i); [apply andb_false_r|lia|]. destruct (decide (n = 0)) as [->|]; [cbn; lia|].
      apply Z.log2_lt_pow2; [lia|]. apply Z.lt_le_trans with (2 ^ 4); [done|]. apply Z.pow_le_mono_r; lia. }
  rewrite <-Z.lxor_lor by done. by rewrite <-Z.add_nocarry_lxor.
Qed.

Section nibblevec.
Context {E : Type}.

Lemma nv_new_ok : nv_ok nv_new [].
Proof. by split_and!. Qed.

Lemma odd_split (l : list Z) : Z.even (len l) = false -> exists l' a, l = l' ++ [a] /\ Z.even (len l') = true.
Proof.
  intros Hl. destruct l as [|a l' _] using rev_ind; [done|]. exists l', a. split; [done|].
  rewrite len_app, Z.even_add in Hl. change (len [a]) with 1 in Hl. by destruct (Z.even (len l')).
Qed.

Lemma nv_push_ok v l x :
  nv_ok v l -> in_u 4 x -> len l + 1 < 2 ^ 64 -> exists v', @nv_push E v x = Ok v' /\ nv_ok v' (l ++ [x]).
Proof.
  intros (Hl & Hn & Hi) Hx Hb. unfold nv_push. rewrite Hl, Hi. rewrite Zmod_even.
  destruct (Z.even (len l)) eqn:He.
  - change (0 =? 0) with true. cbn [mbind outcome_bind]. rewrite add_chk_ok by lia. eexists; split; [reflexivity|].
    split_and!; cbn [nv_len nv_inner]; [by rewrite len_app|by apply Forall_app_2; [|constructor]|].
    rewrite len_app, Z.even_add, He. change (len [x]) with 1. cbn [Z.even eqb]. cbn match.
    rewrite <-app_assoc, pack_app by done. cbn [app pack]. by rewrite nibble_shift, Z.add_0_r.
  - change (1 =? 0) with false. cbn match. destruct (odd_split l He) as (l' & a & -> & He').
    apply Forall_app in Hn as [Hn' Ha]. inversion_clear Ha as [|? ? Ha' _].
    rewrite <-app_assoc, pack_app by done. cbn [app pack]. rewrite last_snoc, removelast_last. cbn [mbind outcome_bind].
    rewrite add_chk_ok by lia. eexists; split; [reflexivity|]. rewrite nibble_or by done.
    split_and!; cbn [nv_len nv_inner]; [by rewrite (len_app _ [x])|repeat apply Forall_app_2; try done; by constructor|].
    rewrite (len_app _ [x]), Z.even_add, He. change (len [x]) with 1. cbn [Z.even eqb]. cbn match.
    rewrite <-app_assoc, pack_app by done. done.
Qed.

Lemma nv_at_ok v l i x : nv_ok v l -> l !! i = Some x -> @nv_at E v (Z.of_nat i) = Ok x.
Proof.
  intros (Hl & Hn & Hi) Hx. set (l' := if Z.even (len l) then l else l ++ [0]) in *.
  assert (to_nibs (nv_inner v) = l') as Hl'.
  { rewrite Hi. unfold l'. destruct (Z.even (len l)) eqn:He; apply to_nibs_pack; try done.
    - apply Forall_app_2; [done|]. by constructor.
    - rewrite len_app, Z.even_add, He. done. }
  assert (l' !! i = Some x) as Hx' by (unfold l'; case_match; [done|by apply lookup_app_l_Some]).
  pose proof (@nibble_of_ok E (nv_inner v) (Z.of_nat i) ltac:(lia)) as Hk. rewrite Hl', Nat2Z.id, Hx' in Hk.
  unfold nibble_of in Hk. unfold nv_at. rewrite (Z.land_ones (Z.of_nat i) 1 ltac:(lia) : Z.land (Z.of_nat i) 1 = Z.of_nat i mod 2) in Hk.
  destruct (index (nv_inner v) _); [|done..]. cbn [mbind outcome_bind] in *. rewrite <-Hk. f_equal.
  rewrite Zmod_even. by destruct (Z.even (Z.of_nat i)).
Qed.

Lemma nv_from_ok s : slice_wf s -> exists v, @nv_from E s = Ok v /\ nv_ok v (nibs s).
Proof.
  intros Hs. unfold nv_from. rewrite ns_len_ok by done. cbn [mbind outcome_bind].
  cut (forall n i v, (i + n = length (nibs s))%nat -> nv_ok v (take i (nibs s)) ->
    exists v', @nv_from_loop E n s (Z.of_nat i) v = Ok v' /\ nv_ok v' (nibs s)).
  { intros Hc. apply (Hc _ 0%nat); [unfold len; lia|]. apply nv_new_ok. }
  induction n as [|n IH]; intros i v Hi Hv; cbn [nv_from_loop].
  { exists v. by rewrite take_ge in Hv by lia. }
  destruct (lookup_lt_is_Some_2 (nibs s) i) as [x Hx]; [lia|]. rewrite (ns_at_ok s i x) by done. cbn [mbind outcome_bind].
  pose proof (nibs_len_bound s Hs).
  destruct (nv_push_ok v (take i (nibs s)) x) as (v' & -> & Hv'); [done| | |].
  { by eapply Forall_lookup_1; [apply nibs_nibbles|]. }
  { unfold len in *. rewrite length_take. lia. }
  cbn [mbind outcome_bind]. replace (Z.of_nat i + 1) with (Z.of_nat (S i)) by lia. apply IH; [lia|].
  by rewrite (take_S_r _ _ x).
Qed.

(** [pop] undoes [push]. *)
Lemma nv_pop_ok v l x : nv_ok v (l ++ [x]) -> exists v', @nv_pop E v = Ok (Some x, v') /\ nv_ok v' l.
Proof.
  intros (Hl & Hn & Hi). pose proof (len_nonneg l). apply Forall_app in Hn as [Hn Hx]. inversion_clear Hx as [|? ? [Hx1 Hx2] _].
  rewrite len_app in *. change (len [x]) with 1 in *. rewrite Z.even_add in Hi. unfold nv_pop, nv_is_empty.
  rewrite Hl, (proj2 (Z.eqb_neq _ _)) by lia. rewrite Zmod_even, Z.even_add. change (2 ^ 4) with 16 in *.
  destruct (Z.even (len l)) eqn:He; cbn [Z.even xorb eqb] in *; rewrite Hi.
  - rewrite <-app_assoc, pack_app by done. cbn [app pack]. rewrite last_snoc, removelast_last. change (1 =? 0) with false. cbn match.
    eexists; split; [rewrite Z.shiftr_div_pow2 by lia; change (2 ^ 4) with 16; rewrite Z.div_add_l, Z.div_small, Z.add_0_r by lia; reflexivity|].
    split_and!; cbn; [lia|done|]. by rewrite He.
  - destruct (odd_split l He) as (l' & a & -> & He'). apply Forall_app in Hn as [Hn' Ha].
    inversion Ha as [|? ? [Ha1 Ha2] _]; subst. change (2 ^ 4) with 16 in *.
    rewrite <-app_assoc, pack_app by done. cbn [app pack]. rewrite last_snoc, removelast_last. change (0 =? 0) with true. cbn match.
    eexists; split.
    { rewrite (Z.land_ones _ 4 ltac:(lia) : Z.land (a * 16 + x) 15 = (a * 16 + x) mod 16).
      rewrite Z.add_comm, Z.mod_add, Z.mod_small by lia. reflexivity. }
    split_and!; cbn [nv_len nv_inner]; [lia|by apply Forall_app_2|]. rewrite He, <-app_assoc, pack_app by done. cbn [app pack].
    do 2 f_equal. clear -Ha1 Ha2 Hx1 Hx2. assert (in_u 4 x) as Hex by done. assert (in_u 4 a) as Hea by done.
    clear Ha1 Ha2 Hx1 Hx2. revert x Hex a Hea. refine (nibble_cases (fun x => forall a, in_u 4 a -> Z.land (x + a * 16) 240 = a * 16 + 0) _).
    repeat constructor; apply nibble_cases; repeat constructor.
Qed.
End nibblevec.
