(* ===== verification/HashDb.v ===== *)
(** * Hash databases ([util/hashdb/src/lib.rs], [util/memorydb/src/lib.rs])

    A [HashDB] stores byte strings under their hash and counts references: data
    inserted twice has to be removed twice, and a removal can be owed before the
    insertion.  The trait is a class, what its clients rely on are the laws
    [HashStoreLaws], and [MemoryDB] is proved to keep them. *)
From stdpp Require Import base list numbers gmap.
From S2P Require Import Prelude RlpStream Account.

Definition NULL_RLP : bytes := [0x80].

Class HashStore (DB : Type) := {
  hdb_keys : DB -> run (gmap Z Z);
  hdb_get : DB -> Z -> option bytes;
  hdb_contains : DB -> Z -> bool;
  hdb_insert : DB -> bytes -> run (Z * DB);
  hdb_emplace : DB -> Z -> bytes -> run DB;
  hdb_remove : DB -> Z -> run DB;
}.

(** ** [MemoryDB] *)
Section memorydb.
Context (keccak : bytes -> Z).

Record MemoryDB := mkMemoryDB { md_data : gmap Z (bytes * Z) }.

(** [i32] arithmetic on a reference count. *)
Definition i32_add (a b : Z) : run Z := if (- 2 ^ 31 <=? a + b) && (a + b <? 2 ^ 31) then Ok (a + b) else Panic.

Definition MemoryDB_new : MemoryDB := mkMemoryDB ∅.
Definition md_clear (self : MemoryDB) : MemoryDB := mkMemoryDB ∅.
Definition md_purge (self : MemoryDB) : MemoryDB := mkMemoryDB (filter (fun '(_, (_, rc)) => rc <> 0) (md_data self)).
Definition md_drain (self : MemoryDB) : gmap Z (bytes * Z) * MemoryDB := (md_data self, mkMemoryDB ∅).

Definition md_raw (self : MemoryDB) (key : Z) : option (bytes * Z) :=
  if key =? KECCAK_NULL_RLP then Some (NULL_RLP, 1) else md_data self !! key.

Definition remove_and_purge (self : MemoryDB) (key : Z) : run (option bytes * MemoryDB) :=
  if key =? KECCAK_NULL_RLP then Ok (None, self)
  else
    match md_data self !! key with
    | Some (v, rc) =>
        if rc =? 1 then Ok (Some v, mkMemoryDB (delete key (md_data self)))
        else rc ← i32_add rc (-1); Ok (None, mkMemoryDB (<[key := (v, rc)]> (md_data self)))
    | None => Ok (None, mkMemoryDB (<[key := ([], -1)]> (md_data self)))
    end.

Definition consolidate_entry (data : gmap Z (bytes * Z)) (key : Z) (value : bytes) (rc : Z) : run (gmap Z (bytes * Z)) :=
  match data !! key with
  | Some (v, rc') =>
      n ← i32_add rc' rc;
      Ok (<[key := (if rc' <? 0 then value else v, n)]> data)
  | None => Ok (<[key := (value, rc)]> data)
  end.

Definition consolidate (self other : MemoryDB) : run MemoryDB :=
  data ← foldl (fun data '(key, (value, rc)) => data ← data; consolidate_entry data key value rc)
    (Ok (md_data self)) (map_to_list (fst (md_drain other)));
  Ok (mkMemoryDB data).

Definition md_get (self : MemoryDB) (key : Z) : option bytes :=
  if key =? KECCAK_NULL_RLP then Some NULL_RLP
  else match md_data self !! key with Some (d, rc) => if 0 <? rc then Some d else None | None => None end.

Definition md_keys (self : MemoryDB) : gmap Z Z := snd <$> md_data (md_purge self).

Definition md_contains (self : MemoryDB) (key : Z) : bool :=
  if key =? KECCAK_NULL_RLP then true
  else match md_data self !! key with Some (_, x) => 0 <? x | None => false end.

(** The entry [insert] and [emplace] leave. *)
Definition md_add (self : MemoryDB) (key : Z) (value : bytes) : run MemoryDB :=
  match md_data self !! key with
  | Some (old_value, rc) =>
      let old_value := if (- 0x80000000 <=? rc) && (rc <=? 0) then value else old_value in
      rc ← i32_add rc 1;
      Ok (mkMemoryDB (<[key := (old_value, rc)]> (md_data self)))
  | None => Ok (mkMemoryDB (<[key := (value, 1)]> (md_data self)))
  end.

Definition md_insert (self : MemoryDB) (value : bytes) : run (Z * MemoryDB) :=
  if bool_decide (value = NULL_RLP) then Ok (KECCAK_NULL_RLP, self)
  else
    let key := keccak value in
    self ← md_add self key value; Ok (key, self).

Definition md_emplace (self : MemoryDB) (key : Z) (value : bytes) : run MemoryDB :=
  if bool_decide (value = NULL_RLP) then Ok self else md_add self key value.

Definition md_remove (self : MemoryDB) (key : Z) : run MemoryDB :=
  if key =? KECCAK_NULL_RLP then Ok self
  else
    match md_data self !! key with
    | Some (v, rc) => rc ← i32_add rc (-1); Ok (mkMemoryDB (<[key := (v, rc)]> (md_data self)))
    | None => Ok (mkMemoryDB (<[key := ([], -1)]> (md_data self)))
    end.

Definition MemoryDB_store : HashStore MemoryDB := {|
  hdb_keys := fun self => Ok (md_keys self);
  hdb_get := md_get;
  hdb_contains := md_contains;
  hdb_insert := md_insert;
  hdb_emplace := md_emplace;
  hdb_remove := md_remove;
|}.
End memorydb.

(** ** What clients rely on

    [hdb_refs d h] is the number of references of [h], negative if removals are
    owed; the hash of the empty node is always there and never counted. *)
Class HashStoreLaws (DB : Type) (H : HashStore DB) (keccak : bytes -> Z) := {
  hdb_ok : DB -> Prop;
  hdb_refs : DB -> Z -> Z;
  hl_get d h v : hdb_ok d -> h <> KECCAK_NULL_RLP -> hdb_get d h = Some v -> keccak v = h;
  hl_null d : hdb_ok d -> hdb_get d KECCAK_NULL_RLP = Some NULL_RLP;
  hl_refs d h : hdb_ok d -> h <> KECCAK_NULL_RLP -> (is_Some (hdb_get d h) <-> 0 < hdb_refs d h);
  hl_contains d h : hdb_ok d -> hdb_contains d h = bool_decide (is_Some (hdb_get d h));
  hl_insert d v : hdb_ok d -> v <> NULL_RLP -> hdb_refs d (keccak v) < 2 ^ 31 - 1 ->
    exists d', hdb_insert d v = Ok (keccak v, d') /\ hdb_ok d' /\
      (forall h, hdb_refs d' h = hdb_refs d h + (if h =? keccak v then 1 else 0)) /\
      (forall h w, hdb_get d' h = Some w -> w = v \/ hdb_get d h = Some w);
  hl_insert_null d : hdb_ok d -> hdb_insert d NULL_RLP = Ok (KECCAK_NULL_RLP, d);
  hl_remove d h : hdb_ok d -> h <> KECCAK_NULL_RLP -> - 2 ^ 31 < hdb_refs d h ->
    exists d', hdb_remove d h = Ok d' /\ hdb_ok d' /\
      (forall h', hdb_refs d' h' = hdb_refs d h' - (if h' =? h then 1 else 0)) /\
      (forall h' w, hdb_get d' h' = Some w -> hdb_get d h' = Some w);
  hl_remove_null d : hdb_ok d -> hdb_remove d KECCAK_NULL_RLP = Ok d;
}.

(** ** [MemoryDB] keeps the laws *)
Section laws.
Context (keccak : bytes -> Z).

Definition md_refs (d : MemoryDB) (h : Z) : Z := match md_data d !! h with Some (_, rc) => rc | None => 0 end.

Definition md_ok (d : MemoryDB) : Prop :=
  map_Forall (fun h '(v, rc) => (0 <= rc -> keccak v = h) /\ - 2 ^ 31 <= rc < 2 ^ 31) (md_data d).

Lemma md_refs_range d h : md_ok d -> - 2 ^ 31 <= md_refs d h < 2 ^ 31.
Proof. intros Hd. unfold md_refs. destruct (md_data d !! h) as [[v rc]|] eqn:He; [|lia]. by apply Hd in He as [_ ?]. Qed.

Lemma i32_add_ok a b : - 2 ^ 31 <= a + b < 2 ^ 31 -> i32_add a b = Ok (a + b).
Proof. intros. unfold i32_add. by rewrite (proj2 (Z.leb_le _ _)), (proj2 (Z.ltb_lt _ _)) by lia. Qed.

Lemma md_refs_insert d key v rc h : md_refs (mkMemoryDB (<[key := (v, rc)]> (md_data d))) h = if h =? key then rc else md_refs d h.
Proof.
  unfold md_refs. cbn. destruct (Z.eqb_spec h key) as [->|]; [by rewrite lookup_insert_eq|]. by rewrite lookup_insert_ne.
Qed.

Lemma md_ok_insert d key v rc :
  md_ok d -> (0 <= rc -> keccak v = key) -> - 2 ^ 31 <= rc < 2 ^ 31 -> md_ok (mkMemoryDB (<[key := (v, rc)]> (md_data d))).
Proof. intros Hd ? ?. by apply map_Forall_insert_2. Qed.

Lemma md_get_insert d key v rc h w :
  md_get (mkMemoryDB (<[key := (v, rc)]> (md_data d))) h = Some w -> (h = key /\ 0 < rc /\ w = v /\ h <> KECCAK_NULL_RLP) \/ md_get d h = Some w.
Proof.
  unfold md_get. destruct (Z.eqb_spec h KECCAK_NULL_RLP); [by right|]. cbn [md_data]. destruct (decide (h = key)) as [->|].
  - rewrite lookup_insert_eq. destruct (Z.ltb_spec 0 rc); [|done]. intros [= <-]. by left.
  - rewrite lookup_insert_ne by done. by right.
Qed.

(** What is inserted under a key that has references is not stored: the value
    that is there has the same hash. *)
Lemma md_add_ok d v :
  md_ok d -> md_refs d (keccak v) < 2 ^ 31 - 1 ->
  exists d', md_add d (keccak v) v = Ok d' /\ md_ok d' /\ (forall h, md_refs d' h = md_refs d h + (if h =? keccak v then 1 else 0)) /\
    (forall h w, md_get d' h = Some w -> w = v \/ md_get d h = Some w).
Proof.
  intros Hd Hr. unfold md_add. pose proof (md_refs_range d (keccak v) Hd) as Hb. unfold md_refs in Hr, Hb.
  destruct (md_data d !! keccak v) as [[w rc]|] eqn:He.
  - rewrite i32_add_ok by lia. cbn [mbind outcome_bind]. eexists; split; [reflexivity|]. split.
    + apply md_ok_insert; [done| |lia]. intros _. change (- 0x80000000) with (- 2 ^ 31). rewrite (proj2 (Z.leb_le _ _)) by lia. cbn [andb].
      destruct (Z.leb_spec rc 0); [done|]. apply Hd in He as [Hw _]. apply Hw. lia.
    + split; [intros h; rewrite md_refs_insert; destruct (Z.eqb_spec h (keccak v)) as [->|]; [|lia]; unfold md_refs; by rewrite He|].
      intros h x [(-> & Hp & -> & Hn)|?]%md_get_insert; [|by right]. change (- 0x80000000) with (- 2 ^ 31). rewrite (proj2 (Z.leb_le _ _)) by lia.
      destruct (Z.leb_spec rc 0); [by left|]. right. unfold md_get. rewrite (proj2 (Z.eqb_neq _ _)) by done. rewrite He.
      by rewrite (proj2 (Z.ltb_lt _ _)) by lia.
  - eexists; split; [reflexivity|]. split; [by apply md_ok_insert|]. split.
    + intros h. rewrite md_refs_insert. destruct (Z.eqb_spec h (keccak v)) as [->|]; [|lia]. unfold md_refs. by rewrite He.
    + intros h x [(_ & _ & -> & _)|?]%md_get_insert; [by left|by right].
Qed.

#[export] Instance MemoryDB_laws : HashStoreLaws MemoryDB (MemoryDB_store keccak) keccak.
Proof.
  refine {| hdb_ok := md_ok : MemoryDB -> Prop; hdb_refs := md_refs : MemoryDB -> Z -> Z |}; cbn [hdb_get hdb_contains hdb_insert hdb_remove MemoryDB_store].
  - intros d h v Hd Hn. unfold md_get. rewrite (proj2 (Z.eqb_neq _ _)) by done.
    destruct (md_data d !! h) as [[w rc]|] eqn:He; [|done]. destruct (Z.ltb_spec 0 rc); [|done]. intros [= <-]. apply Hd in He as [Hw _]. apply Hw. lia.
  - done.
  - intros d h Hd Hn. unfold md_get, md_refs. rewrite (proj2 (Z.eqb_neq _ _)) by done.
    destruct (md_data d !! h) as [[w rc]|]; [|by split; [intros []|lia]].
    destruct (Z.ltb_spec 0 rc); split; try lia; [by eexists|by intros []].
  - intros d h Hd. unfold md_contains, md_get. destruct (h =? KECCAK_NULL_RLP); [done|].
    destruct (md_data d !! h) as [[w rc]|]; [|done]. by destruct (0 <? rc).
  - intros d v Hd Hv Hr. unfold md_insert. rewrite bool_decide_eq_false_2 by done.
    destruct (md_add_ok d v Hd Hr) as (d' & -> & ? & ? & ?). by exists d'.
  - intros d _. unfold md_insert. by rewrite bool_decide_eq_true_2.
  - intros d h Hd Hn Hr. unfold md_remove. rewrite (proj2 (Z.eqb_neq _ _)) by done. pose proof (md_refs_range d h Hd) as Hb.
    unfold md_refs in Hr, Hb. destruct (md_data d !! h) as [[w rc]|] eqn:He.
    + rewrite i32_add_ok by lia. cbn [mbind outcome_bind]. eexists; split; [reflexivity|]. split.
      * apply md_ok_insert; [done| |lia]. intros. apply Hd in He as [Hw _]. apply Hw. lia.
      * split; [intros h'; rewrite md_refs_insert; destruct (Z.eqb_spec h' h) as [->|]; [|lia]; unfold md_refs; by rewrite He|].
        intros h' x [(-> & Hp & -> & _)|?]%md_get_insert; [|done]. unfold md_get. rewrite (proj2 (Z.eqb_neq _ _)) by done. rewrite He.
        by rewrite (proj2 (Z.ltb_lt _ _)) by lia.
    + eexists; split; [reflexivity|]. split; [by apply md_ok_insert|]. split.
      * intros h'. rewrite md_refs_insert. destruct (Z.eqb_spec h' h) as [->|]; [|lia]. unfold md_refs. by rewrite He.
      * intros h' x [(_ & Hp & _)|?]%md_get_insert; [lia|done].
  - done.
Defined.

(** ** The other operations of [MemoryDB] *)
Lemma md_purge_refs d h : md_refs (md_purge d) h = md_refs d h.
Proof.
  unfold md_refs, md_purge. cbn. rewrite map_lookup_filter. destruct (md_data d !! h) as [[v rc]|]; [|done]. cbn.
  destruct (decide (rc = 0)) as [->|]; [by rewrite option_guard_False by naive_solver|by rewrite option_guard_True].
Qed.

Lemma md_purge_get d h : md_get (md_purge d) h = md_get d h.
Proof.
  unfold md_get, md_purge. case_match; [done|]. cbn. rewrite map_lookup_filter. destruct (md_data d !! h) as [[v rc]|]; [|done]. cbn.
  destruct (decide (rc = 0)) as [->|]; [by rewrite option_guard_False by naive_solver|by rewrite option_guard_True].
Qed.

Lemma i32_add_inv a b n : i32_add a b = Ok n -> n = a + b /\ - 2 ^ 31 <= n < 2 ^ 31.
Proof. unfold i32_add. destruct ((_ <=? _) && _) eqn:Hb; [|done]. intros [= <-]. b2p. lia. Qed.

Lemma consolidate_entry_ok data key value rc data' :
  md_ok (mkMemoryDB data) -> (0 <= rc -> keccak value = key) -> - 2 ^ 31 <= rc < 2 ^ 31 ->
  consolidate_entry data key value rc = Ok data' ->
  md_ok (mkMemoryDB data') /\
  forall h, md_refs (mkMemoryDB data') h = md_refs (mkMemoryDB data) h + (if h =? key then rc else 0).
Proof.
  unfold consolidate_entry. intros Hd Hv Hrc Hc. destruct (data !! key) as [[v rc']|] eqn:He.
  - pose proof (Hd _ _ He) as [Hw Hrc']. destruct (i32_add rc' rc) as [n| |] eqn:Hn; [|done..]. apply i32_add_inv in Hn as [-> Hn].
    injection Hc as <-. split.
    + apply (md_ok_insert (mkMemoryDB data)); [done| |done]. intros. destruct (Z.ltb_spec rc' 0); auto with lia.
    + intros h. rewrite (md_refs_insert (mkMemoryDB data)). destruct (Z.eqb_spec h key) as [->|]; [|lia]. unfold md_refs. cbn. by rewrite He.
  - injection Hc as <-. split; [by apply (md_ok_insert (mkMemoryDB data))|].
    intros h. rewrite (md_refs_insert (mkMemoryDB data)). destruct (Z.eqb_spec h key) as [->|]; [|lia]. unfold md_refs. cbn. by rewrite He.
Qed.

(** Consolidating adds the counts. *)
Lemma consolidate_ok d1 d2 d :
  md_ok d1 -> md_ok d2 -> consolidate d1 d2 = Ok d -> md_ok d /\ forall h, md_refs d h = md_refs d1 h + md_refs d2 h.
Proof.
  intros H1 H2. unfold consolidate. cbn [md_drain fst].
  assert (forall h, md_refs d2 h = md_refs (mkMemoryDB (list_to_map (map_to_list (md_data d2)))) h) as Heq
    by (intros; by rewrite list_to_map_to_list).
  assert (Forall (fun '(k, (v, rc)) => (0 <= rc -> keccak v = k) /\ - 2 ^ 31 <= rc < 2 ^ 31) (map_to_list (md_data d2))) as Hall.
  { apply Forall_forall. intros [k [v rc]] Hin%elem_of_map_to_list. by apply H2 in Hin. }
  pose proof (NoDup_fst_map_to_list (md_data d2)) as Hnd. revert Heq Hall Hnd.
  generalize (map_to_list (md_data d2)) as l. intros l Heq Hall Hnd Hc.
  destruct (foldl _ _ l) as [data'| |] eqn:Hf; [|done..]. injection Hc as <-.
  cut (md_ok (mkMemoryDB data') /\ forall h, md_refs (mkMemoryDB data') h = md_refs d1 h + md_refs (mkMemoryDB (list_to_map l)) h).
  { intros [? Hr]. split; [done|]. intros h. by rewrite Hr, Heq. }
  clear Heq d2 H2. destruct d1 as [data]. cbn [md_data] in *. revert data H1 Hf. induction l as [|[k [v rc]] l IH]; intros data H1 Hf.
  { cbn in Hf. injection Hf as <-. split; [done|]. intros h. unfold md_refs at 3. cbn. rewrite lookup_empty. lia. }
  apply Forall_cons in Hall as [[Hk Hrc] Hall']. inversion Hnd as [|? ? Hnin Hnd']; subst. cbn [foldl] in Hf. cbn [mbind outcome_bind] in Hf.
  destruct (consolidate_entry data k v rc) as [data1|[]|] eqn:He.
  2: { exfalso. clear -Hf. induction l as [|[? []]]; [done|]. by apply IHl. }
  destruct (consolidate_entry_ok data k v rc data1 H1 Hk Hrc He) as [H1' Hr1].
  destruct (IH Hall' Hnd' data1 H1' Hf) as [Hok Hr]. split; [done|]. intros h. rewrite Hr, Hr1.
  pose proof (md_refs_insert (mkMemoryDB (list_to_map l)) k v rc h) as Hi. cbn [md_data] in Hi.
  cbn [list_to_map foldr fst snd uncurry] in Hi |- *. rewrite Hi. clear Hi. destruct (Z.eqb_spec h k) as [->|]; [|lia].
  unfold md_refs at 2. cbn. rewrite not_elem_of_list_to_map_1 by done. lia.
Qed.
End laws.
