(* ===== verification/AccountDb.v ===== *)
(** * Databases of accounts ([ethcore/src/account_db.rs])

    The storage tries and the codes of all accounts share one database.  Each
    account sees it through a view that changes the last twenty bytes of every
    key with the hash of its address, so that accounts with equal nodes do not
    share, and cannot remove, each other's. *)
From stdpp Require Import base list numbers gmap.
From S2P Require Import Prelude Words RlpStream Account HashDb.

(** ** The code *)

(** [k ^= a] on the bytes from the twelfth. *)
Definition combine_key (address_hash key : Z) : Z :=
  be_to_Z (take 12 (Z_to_be 32 key) ++
    zip_with Z.lxor (drop 12 (Z_to_be 32 key)) (drop 12 (Z_to_be 32 address_hash))).

Inductive Factory : Type := Mangled | Plain.
Definition Factory_default : Factory := Mangled.

Section views.
Context {DB : Type} {H : HashStore DB} (keccak : bytes -> Z).

(** The views are the database they borrow with the hash of the address. *)
Record AccountDB := mkAccountDB { ad_db : DB; ad_address_hash : Z }.
Record AccountDBMut := mkAccountDBMut { adm_db : DB; adm_address_hash : Z }.
Record Wrapping := mkWrapping { w_db : DB }.
Record WrappingMut := mkWrappingMut { wm_db : DB }.

Definition mangled_get (db : DB) (address_hash key : Z) : option bytes :=
  if key =? KECCAK_NULL_RLP then Some NULL_RLP else hdb_get db (combine_key address_hash key).
Definition mangled_contains (db : DB) (address_hash key : Z) : bool :=
  if key =? KECCAK_NULL_RLP then true else hdb_contains db (combine_key address_hash key).
Definition plain_get (db : DB) (key : Z) : option bytes :=
  if key =? KECCAK_NULL_RLP then Some NULL_RLP else hdb_get db key.
Definition plain_contains (db : DB) (key : Z) : bool :=
  if key =? KECCAK_NULL_RLP then true else hdb_contains db key.

Definition AccountDB_store : HashStore AccountDB := {|
  hdb_keys _ := Panic;
  hdb_get self key := mangled_get (ad_db self) (ad_address_hash self) key;
  hdb_contains self key := mangled_contains (ad_db self) (ad_address_hash self) key;
  hdb_insert _ _ := Panic;
  hdb_emplace _ _ _ := Panic;
  hdb_remove _ _ := Panic;
|}.

Definition adm_insert (self : AccountDBMut) (value : bytes) : run (Z * AccountDBMut) :=
  if bool_decide (value = NULL_RLP) then Ok (KECCAK_NULL_RLP, self)
  else
    let k := keccak value in
    let ak := combine_key (adm_address_hash self) k in
    db ← hdb_emplace (adm_db self) ak value;
    Ok (k, mkAccountDBMut db (adm_address_hash self)).
Definition adm_emplace (self : AccountDBMut) (key : Z) (value : bytes) : run AccountDBMut :=
  if key =? KECCAK_NULL_RLP then Ok self
  else db ← hdb_emplace (adm_db self) (combine_key (adm_address_hash self) key) value; Ok (mkAccountDBMut db (adm_address_hash self)).
Definition adm_remove (self : AccountDBMut) (key : Z) : run AccountDBMut :=
  if key =? KECCAK_NULL_RLP then Ok self
  else db ← hdb_remove (adm_db self) (combine_key (adm_address_hash self) key); Ok (mkAccountDBMut db (adm_address_hash self)).

Definition AccountDBMut_store : HashStore AccountDBMut := {|
  hdb_keys _ := Panic;
  hdb_get self key := mangled_get (adm_db self) (adm_address_hash self) key;
  hdb_contains self key := mangled_contains (adm_db self) (adm_address_hash self) key;
  hdb_insert := adm_insert;
  hdb_emplace := adm_emplace;
  hdb_remove := adm_remove;
|}.

Definition Wrapping_store : HashStore Wrapping := {|
  hdb_keys _ := Panic;
  hdb_get self key := plain_get (w_db self) key;
  hdb_contains self key := plain_contains (w_db self) key;
  hdb_insert _ _ := Panic;
  hdb_emplace _ _ _ := Panic;
  hdb_remove _ _ := Panic;
|}.

Definition wm_insert (self : WrappingMut) (value : bytes) : run (Z * WrappingMut) :=
  if bool_decide (value = NULL_RLP) then Ok (KECCAK_NULL_RLP, self)
  else '(k, db) ← hdb_insert (wm_db self) value; Ok (k, mkWrappingMut db).
Definition wm_emplace (self : WrappingMut) (key : Z) (value : bytes) : run WrappingMut :=
  if key =? KECCAK_NULL_RLP then Ok self else db ← hdb_emplace (wm_db self) key value; Ok (mkWrappingMut db).
Definition wm_remove (self : WrappingMut) (key : Z) : run WrappingMut :=
  if key =? KECCAK_NULL_RLP then Ok self else db ← hdb_remove (wm_db self) key; Ok (mkWrappingMut db).

Definition WrappingMut_store : HashStore WrappingMut := {|
  hdb_keys _ := Panic;
  hdb_get self key := plain_get (wm_db self) key;
  hdb_contains self key := plain_contains (wm_db self) key;
  hdb_insert := wm_insert;
  hdb_emplace := wm_emplace;
  hdb_remove := wm_remove;
|}.

(** The boxed views that [Factory] makes. *)
Inductive AccountView : Type := ViewMangled (v : AccountDB) | ViewPlain (v : Wrapping).
Inductive AccountViewMut : Type := MutMangled (v : AccountDBMut) | MutPlain (v : WrappingMut).

Definition factory_readonly_view (self : Factory) (db : DB) (address_hash : Z) : AccountView :=
  match self with Mangled => ViewMangled (mkAccountDB db address_hash) | Plain => ViewPlain (mkWrapping db) end.
Definition factory_create_view (self : Factory) (db : DB) (address_hash : Z) : AccountViewMut :=
  match self with Mangled => MutMangled (mkAccountDBMut db address_hash) | Plain => MutPlain (mkWrappingMut db) end.
End views.
Arguments AccountDB : clear implicits.
Arguments AccountDBMut : clear implicits.
Arguments Wrapping : clear implicits.
Arguments WrappingMut : clear implicits.

(** ** The keys of a view *)
Definition xor_tail (a k : bytes) : bytes := take 12 k ++ zip_with Z.lxor (drop 12 k) (drop 12 a).

Lemma zip_lxor_twice l m : length l = length m -> zip_with Z.lxor (zip_with Z.lxor l m) m = l.
Proof.
  revert m. induction l as [|x l IH]; intros [|y m] Hl; try done. cbn [zip_with]. injection Hl as Hl.
  by rewrite Z.lxor_assoc, Z.lxor_nilpotent, Z.lxor_0_r, IH.
Qed.

Lemma zip_lxor_bytes l m : is_bytes l -> is_bytes m -> is_bytes (zip_with Z.lxor l m).
Proof.
  intros Hl. revert m. induction Hl as [|x l Hx Hl IH]; intros m Hm; destruct Hm as [|y m Hy Hm]; cbn [zip_with]; [constructor..|].
  constructor; [by apply lxor_in_u|by apply IH].
Qed.

Lemma xor_tail_length a k : length a = 32%nat -> length k = 32%nat -> length (xor_tail a k) = 32%nat.
Proof. intros. unfold xor_tail. rewrite length_app, length_take, length_zip_with, !length_drop. lia. Qed.

Lemma xor_tail_bytes a k : is_bytes a -> is_bytes k -> is_bytes (xor_tail a k).
Proof.
  intros Ha Hk. apply Forall_app. split; [by apply Forall_take|]. by apply zip_lxor_bytes; apply Forall_drop.
Qed.

Lemma xor_tail_twice a k : length a = 32%nat -> length k = 32%nat -> xor_tail a (xor_tail a k) = k.
Proof.
  intros Ha Hk. unfold xor_tail. rewrite take_app_length', drop_app_length' by (rewrite length_take; lia).
  rewrite zip_lxor_twice by (rewrite !length_drop; lia). apply take_drop.
Qed.

Lemma combine_key_bytes a k : Z_to_be 32 (combine_key a k) = xor_tail (Z_to_be 32 a) (Z_to_be 32 k).
Proof.
  unfold combine_key. fold (xor_tail (Z_to_be 32 a) (Z_to_be 32 k)).
  rewrite <-(xor_tail_length (Z_to_be 32 a) (Z_to_be 32 k)) at 1 by apply length_Z_to_be.
  apply Z_to_be_to_Z, xor_tail_bytes; apply Z_to_be_bytes.
Qed.

Lemma be_32_inj x y : in_u 256 x -> in_u 256 y -> Z_to_be 32 x = Z_to_be 32 y -> x = y.
Proof.
  intros Hx Hy He. apply (f_equal be_to_Z) in He. rewrite !be_to_Z_to_be in He. unfold in_u in *. change (256 ^ Z.of_nat 32) with (2 ^ 256) in He.
  by rewrite !Z.mod_small in He.
Qed.

Lemma combine_key_range a k : in_u 256 (combine_key a k).
Proof.
  unfold combine_key. fold (xor_tail (Z_to_be 32 a) (Z_to_be 32 k)).
  pose proof (be_to_Z_bound (xor_tail (Z_to_be 32 a) (Z_to_be 32 k))) as Hb. unfold len in Hb. rewrite xor_tail_length in Hb by apply length_Z_to_be.
  apply Hb, xor_tail_bytes; apply Z_to_be_bytes.
Qed.

(** A view's change of a key is its own inverse. *)
Lemma combine_key_twice a k : in_u 256 k -> combine_key a (combine_key a k) = k.
Proof.
  intros Hk. apply be_32_inj; [apply combine_key_range|done|]. rewrite !combine_key_bytes. apply xor_tail_twice; apply length_Z_to_be.
Qed.

Lemma combine_key_inj a k1 k2 : in_u 256 k1 -> in_u 256 k2 -> combine_key a k1 = combine_key a k2 -> k1 = k2.
Proof. intros H1 H2 He. by rewrite <-(combine_key_twice a k1), He, combine_key_twice. Qed.

(** The first 96 bits are left alone. *)
Lemma combine_key_prefix a k : take 12 (Z_to_be 32 (combine_key a k)) = take 12 (Z_to_be 32 k).
Proof. rewrite combine_key_bytes. unfold xor_tail. by rewrite take_app_length' by (rewrite length_take, length_Z_to_be; lia). Qed.

Lemma zip_lxor_inj l m1 m2 : length m1 = length l -> length m2 = length l -> zip_with Z.lxor l m1 = zip_with Z.lxor l m2 -> m1 = m2.
Proof.
  revert m1 m2. induction l as [|x l IH]; intros [|y m1] [|z m2] H1 H2; try done. cbn [zip_with]. intros [= Hx He]. f_equal.
  - apply (f_equal (Z.lxor x)) in Hx. by rewrite <-!Z.lxor_assoc, Z.lxor_nilpotent, !Z.lxor_0_l in Hx.
  - apply IH; cbn in *; congruence.
Qed.

(** Accounts with different hashes, apart from the first 96 bits, never use the
    same place for the same key. *)
Lemma combine_key_apart a b k : combine_key a k = combine_key b k -> drop 12 (Z_to_be 32 a) = drop 12 (Z_to_be 32 b).
Proof.
  intros He%(f_equal (Z_to_be 32)). rewrite !combine_key_bytes in He. unfold xor_tail in He. apply app_inv_head in He.
  by eapply zip_lxor_inj; [| |exact He]; rewrite !length_drop, !length_Z_to_be.
Qed.

(** Conversion leaves the keys of a view as they are. *)
Strategy 100 [combine_key].

(** ** What a view changes of a [MemoryDB] *)
Section memory.
Context (keccak : bytes -> Z).
#[local] Existing Instance MemoryDB_store.
Abbreviation view := (AccountDBMut MemoryDB).
Implicit Types d : MemoryDB.

Lemma md_add_other d k v d' k' : md_add d k v = Ok d' -> k' <> k -> md_data d' !! k' = md_data d !! k'.
Proof.
  unfold md_add. intros Ha Hk. destruct (md_data d !! k) as [[w rc]|]; [destruct (i32_add rc 1); [|done..]|]; injection Ha as <-; cbn [md_data];
    by rewrite lookup_insert_ne.
Qed.

Lemma md_remove_other d k d' k' : md_remove d k = Ok d' -> k' <> k -> md_data d' !! k' = md_data d !! k'.
Proof.
  unfold md_remove. intros Ha Hk. destruct (k =? KECCAK_NULL_RLP); [by injection Ha as <-|].
  destruct (md_data d !! k) as [[w rc]|]; [destruct (i32_add rc (-1)); [|done..]|]; injection Ha as <-; cbn [md_data]; by rewrite lookup_insert_ne.
Qed.

(** An operation through the view of [a] on the key [k]. *)
Inductive view_write (d : MemoryDB) (a k : Z) (d' : MemoryDB) : Prop :=
  | write_emplace v : adm_emplace (H := MemoryDB_store keccak) (mkAccountDBMut d a) k v = Ok (mkAccountDBMut d' a) -> view_write d a k d'
  | write_insert v : adm_insert (H := MemoryDB_store keccak) keccak (mkAccountDBMut d a) v = Ok (k, mkAccountDBMut d' a) -> view_write d a k d'
  | write_remove : adm_remove (H := MemoryDB_store keccak) (mkAccountDBMut d a) k = Ok (mkAccountDBMut d' a) -> view_write d a k d'.

Lemma view_write_other d a k d' k' : view_write d a k d' -> k' <> combine_key a k -> md_data d' !! k' = md_data d !! k'.
Proof.
  intros [v Hw|v Hw|Hw] Hk.
  - unfold adm_emplace in Hw. destruct (k =? _); [by injection Hw as <-|]. cbn [hdb_emplace MemoryDB_store adm_db adm_address_hash] in Hw. unfold md_emplace in Hw.
    case_bool_decide; [by injection Hw as <-|]. destruct (md_add d _ v) eqn:Ha; [|done..]. injection Hw as <-. by eapply md_add_other.
  - unfold adm_insert in Hw. case_bool_decide; [by injection Hw as _ <-|]. cbn [hdb_emplace MemoryDB_store adm_db adm_address_hash] in Hw. unfold md_emplace in Hw.
    rewrite bool_decide_eq_false_2 in Hw by done. destruct (md_add d _ v) eqn:Ha; [|done..]. injection Hw as <- <-. by eapply md_add_other.
  - unfold adm_remove in Hw. destruct (k =? _); [by injection Hw as <-|]. cbn [hdb_remove MemoryDB_store adm_db adm_address_hash] in Hw. destruct (md_remove d _) eqn:Ha; [|done..].
    injection Hw as <-. by eapply md_remove_other.
Qed.

Lemma mangled_get_same d d' b k : md_data d' !! combine_key b k = md_data d !! combine_key b k ->
  mangled_get (H := MemoryDB_store keccak) d' b k = mangled_get (H := MemoryDB_store keccak) d b k.
Proof. intros He. unfold mangled_get. cbn [hdb_get MemoryDB_store]. unfold md_get. by rewrite He. Qed.
End memory.
