(* ===== verification/Trie.v ===== *)
(** * Patricia tries as trees

    The reference for the trie code: trees of leaves, extensions and branches,
    the map from keys (lists of nibbles) to values a tree stands for, the normal
    form the code maintains ([wf]), and the proof that a tree in normal form is
    determined by its map. *)
From stdpp Require Import base list numbers sorting.
From S2P Require Import Prelude Nibbles.

#[local] Set Warnings "-register-all".
Inductive trie : Type :=
  | TEmpty
  | TLeaf (k : list Z) (v : bytes)
  | TExt (k : list Z) (t : trie)
  | TBranch (ch : list trie) (v : option bytes).

Lemma trie_ind' (P : trie -> Prop) :
  P TEmpty -> (forall k v, P (TLeaf k v)) -> (forall k t, P t -> P (TExt k t)) ->
  (forall ch v, Forall P ch -> P (TBranch ch v)) -> forall t, P t.
Proof.
  intros He Hl Hx Hb. fix IH 1. intros [|k v|k t|ch v]; [apply He|apply Hl|apply Hx, IH|apply Hb].
  induction ch as [|c ch IHch]; constructor; [apply IH|apply IHch].
Qed.

(** ** The map of a tree *)
Definition strip (k q : list Z) : option (list Z) :=
  if decide (take (length k) q = k) then Some (drop (length k) q) else None.

Fixpoint tget (t : trie) (q : list Z) : option bytes :=
  match t with
  | TEmpty => None
  | TLeaf k v => if decide (q = k) then Some v else None
  | TExt k t => match strip k q with Some q => tget t q | None => None end
  | TBranch ch v =>
      match q with
      | [] => v
      | n :: q =>
          if 0 <=? n then
            (fix go (ch : list trie) (n : nat) : option bytes :=
               match ch, n with
               | [], _ => None
               | c :: _, O => tget c q
               | _ :: ch, S n => go ch n
               end) ch (Z.to_nat n)
          else None
      end
  end.

Lemma tget_branch ch v n q :
  tget (TBranch ch v) (n :: q) = if 0 <=? n then ch !! Z.to_nat n ≫= (fun c => tget c q) else None.
Proof.
  cbn [tget]. case_match; [|done]. generalize (Z.to_nat n) as m. induction ch as [|c ch IH]; intros [|m]; [done..|].
  cbn. by rewrite IH.
Qed.

(** A child by its nibble, empty if there is none. *)
Definition child (ch : list trie) (n : Z) : trie := if 0 <=? n then default TEmpty (ch !! Z.to_nat n) else TEmpty.

Lemma tget_child ch v n q : tget (TBranch ch v) (n :: q) = tget (child ch n) q.
Proof. rewrite tget_branch. unfold child. case_match; [|done]. by destruct (ch !! _). Qed.

Lemma strip_app k q : strip k (k ++ q) = Some q.
Proof. unfold strip. by rewrite take_app_length, decide_True, drop_app_length. Qed.

Lemma strip_Some k q r : strip k q = Some r <-> q = k ++ r.
Proof.
  split; [|intros ->; apply strip_app]. unfold strip. case_decide as Hd; [|done]. intros [= <-]. by rewrite <-Hd at 1; rewrite take_drop.
Qed.

Lemma strip_nil q : strip [] q = Some q.
Proof. done. Qed.

Lemma tget_ext k t q : tget (TExt k t) (k ++ q) = tget t q.
Proof. cbn [tget]. by rewrite strip_app. Qed.

Lemma tget_ext_Some k t q v : tget (TExt k t) q = Some v <-> exists r, q = k ++ r /\ tget t r = Some v.
Proof.
  cbn [tget]. split.
  - destruct (strip k q) as [r|] eqn:Hs; [|done]. apply strip_Some in Hs as ->. eauto.
  - intros (r & -> & Hr). by rewrite strip_app.
Qed.

(** ** Normal form *)
Definition is_branch (t : trie) : bool := match t with TBranch _ _ => true | _ => false end.
Definition nonempty (t : trie) : bool := match t with TEmpty => false | _ => true end.

Definition entries (ch : list trie) (v : option bytes) : nat :=
  (length (List.filter nonempty ch) + match v with Some _ => 1 | None => 0 end)%nat.

(** A non-empty tree: an extension has a key and leads to a branch, a branch
    has sixteen children and at least two entries. *)
Fixpoint wfn (t : trie) : Prop :=
  match t with
  | TEmpty => False
  | TLeaf _ _ => True
  | TExt k t => k <> [] /\ is_branch t = true /\ wfn t
  | TBranch ch v =>
      length ch = 16%nat /\ foldr (fun c P => (c = TEmpty \/ wfn c) /\ P) True ch /\ (2 <= entries ch v)%nat
  end.

Definition wf (t : trie) : Prop := t = TEmpty \/ wfn t.

Lemma wfn_branch ch v : wfn (TBranch ch v) <-> length ch = 16%nat /\ Forall wf ch /\ (2 <= entries ch v)%nat.
Proof.
  cbn [wfn]. assert (foldr (fun c P => (c = TEmpty \/ wfn c) /\ P) True ch <-> Forall wf ch) as ->; [|done].
  clear. induction ch as [|c ch IH]; cbn [foldr]; [by split|]. by rewrite IH, Forall_cons.
Qed.

Lemma wf_nonempty t : wf t -> nonempty t = true -> wfn t.
Proof. by intros [->|?]. Qed.

Lemma wfn_nonempty t : wfn t -> nonempty t = true.
Proof. by destruct t. Qed.

Lemma child_wf ch v n : wfn (TBranch ch v) -> wf (child ch n).
Proof.
  intros (_ & Hf & _)%wfn_branch. unfold child. case_match; [|by left]. destruct (ch !! Z.to_nat n) as [c|] eqn:Hc; cbn; [|by left].
  by eapply Forall_lookup_1.
Qed.

(** ** Keys of a tree in normal form *)

(** Two different keys without a common nibble at the start. *)
Definition diverge (q1 q2 : list Z) : Prop :=
  match q1, q2 with [], [] => False | x :: _, y :: _ => x <> y | _, _ => True end.

(** Two non-empty children, or one and a value. *)
Lemma entries_two ch v :
  (2 <= entries ch v)%nat ->
  (exists i j ci cj, i <> j /\ ch !! i = Some ci /\ ch !! j = Some cj /\ nonempty ci = true /\ nonempty cj = true) \/
  (exists i ci, ch !! i = Some ci /\ nonempty ci = true /\ is_Some v).
Proof.
  assert (Hone : forall ch, (1 <= length (List.filter nonempty ch))%nat -> exists i ci, ch !! i = Some ci /\ nonempty ci = true).
  { clear. intros ch. induction ch as [|c ch IH]; cbn; [lia|]. destruct (nonempty c) eqn:Hc; [by exists 0%nat, c|].
    intros (i & ci & ? & ?)%IH. by exists (S i), ci. }
  unfold entries. destruct v as [v|].
  { intros Hn. right. destruct (Hone ch) as (i & ci & ? & ?); [lia|]. by exists i, ci. }
  intros Hn. left. rewrite Nat.add_0_r in Hn. induction ch as [|c ch IH]; cbn in Hn; [lia|].
  destruct (nonempty c) eqn:Hc; cbn in Hn.
  - destruct (Hone ch) as (j & cj & ? & ?); [lia|]. by exists 0%nat, (S j), c, cj.
  - destruct (IH Hn) as (i & j & ci & cj & ? & ? & ? & ? & ?). exists (S i), (S j), ci, cj. by split_and!; try congruence.
Qed.

Lemma wfn_key t : wfn t -> exists q, is_Some (tget t q).
Proof.
  induction t as [|k v|k t IH|ch v IH] using trie_ind'; [done| | |].
  - intros _. exists k. cbn. rewrite decide_True by done. by eexists.
  - intros (_ & _ & Hw). destruct (IH Hw) as (q & Hq). exists (k ++ q). by rewrite tget_ext.
  - intros (Hl & Hf & He)%wfn_branch.
    destruct (entries_two ch v He) as [(i & _ & ci & _ & _ & Hi & _ & Hn & _)|(i & ci & Hi & Hn & _)].
    all: rewrite Forall_forall in IH, Hf; apply list_elem_of_lookup_2 in Hi as Hin;
      destruct (IH ci Hin (wf_nonempty ci (Hf ci Hin) Hn)) as (q & Hq);
      exists (Z.of_nat i :: q); rewrite tget_branch, (proj2 (Z.leb_le _ _)), Nat2Z.id, Hi by lia; done.
Qed.

Lemma branch_diverges ch v :
  wfn (TBranch ch v) -> exists q1 q2, diverge q1 q2 /\ is_Some (tget (TBranch ch v) q1) /\ is_Some (tget (TBranch ch v) q2).
Proof.
  intros (Hl & Hf & He)%wfn_branch.
  assert (Hkey : forall i ci, ch !! i = Some ci -> nonempty ci = true -> exists q, is_Some (tget (TBranch ch v) (Z.of_nat i :: q))).
  { intros i ci Hi Hn. destruct (wfn_key ci) as (q & Hq); [by eapply wf_nonempty; [eapply Forall_lookup_1|]|].
    exists q. by rewrite tget_branch, (proj2 (Z.leb_le _ _)), Nat2Z.id, Hi by lia. }
  destruct (entries_two ch v He) as [(i & j & ci & cj & Hij & Hi & Hj & Hni & Hnj)|(i & ci & Hi & Hn & Hv)].
  - destruct (Hkey i ci Hi Hni) as (q1 & H1), (Hkey j cj Hj Hnj) as (q2 & H2).
    exists (Z.of_nat i :: q1), (Z.of_nat j :: q2). split_and!; [|done|done]. cbn. lia.
  - destruct (Hkey i ci Hi Hn) as (q1 & H1). exists (Z.of_nat i :: q1), []. by split_and!.
Qed.

Lemma diverge_branch t q1 q2 : wfn t -> diverge q1 q2 -> is_Some (tget t q1) -> is_Some (tget t q2) -> is_branch t = true.
Proof.
  destruct t as [|k v|k t|ch v]; [done| | |done]; intros Hw Hd [v1 H1] [v2 H2]; exfalso.
  - cbn in H1, H2. repeat case_decide; simplify_eq. by destruct k.
  - destruct Hw as (Hk & _). apply tget_ext_Some in H1 as (r1 & -> & _), H2 as (r2 & -> & _). by destruct k.
Qed.

(** ** A tree in normal form is determined by its map *)
Lemma diverge_prefix_le k k2 q1 q2 s1 s2 :
  diverge q1 q2 -> k ++ q1 = k2 ++ s1 -> k ++ q2 = k2 ++ s2 -> (length k2 <= length k)%nat.
Proof.
  intros Hd H1 H2. destruct (decide (length k < length k2)%nat) as [Hlt|]; [exfalso|lia].
  assert (k2 = k ++ drop (length k) k2) as E.
  { rewrite <-(take_drop (length k) k2) at 1. f_equal. apply (f_equal (take (length k))) in H1.
    rewrite take_app_length, take_app_le in H1 by lia. done. }
  destruct (drop (length k) k2) as [|x l] eqn:Hdr; [apply (f_equal length) in Hdr; rewrite length_drop in Hdr; cbn in Hdr; lia|].
  rewrite E, <-app_assoc in H1, H2. apply (inj (app k)) in H1, H2. subst q1 q2. by apply Hd.
Qed.

Lemma prefixes_eq k k2 q1 q2 s1 s2 p1 p2 r1 r2 :
  diverge q1 q2 -> diverge p1 p2 -> k ++ q1 = k2 ++ s1 -> k ++ q2 = k2 ++ s2 -> k2 ++ p1 = k ++ r1 -> k2 ++ p2 = k ++ r2 -> k = k2.
Proof.
  intros Hd Hd2 H1 H2 G1 G2. pose proof (diverge_prefix_le k k2 _ _ _ _ Hd H1 H2).
  pose proof (diverge_prefix_le k2 k _ _ _ _ Hd2 G1 G2).
  apply (f_equal (take (length k))) in H1. rewrite take_app_length, take_app_le, take_ge in H1 by lia. done.
Qed.

Lemma wf_ext t1 t2 : wf t1 -> wf t2 -> (forall q, tget t1 q = tget t2 q) -> t1 = t2.
Proof.
  assert (Hempty : forall t, wf t -> (forall q, tget t q = None) -> t = TEmpty).
  { intros t [->|Hw] Hq; [done|]. destruct (wfn_key t Hw) as (q & Hs). rewrite Hq in Hs. by destruct Hs. }
  revert t2. induction t1 as [|k v|k t IH|ch v IH] using trie_ind'; intros t2 Hw1 Hw2 Hq.
  - symmetry. apply Hempty; [done|]. intros q. by rewrite <-Hq.
  - destruct Hw2 as [->|Hw2]; [by apply Hempty|].
    assert (Hk : forall q, is_Some (tget t2 q) <-> q = k).
    { intros q. rewrite <-Hq. cbn. case_decide; split; try done; by intros []. }
    destruct t2 as [|k2 v2|k2 t2|ch2 v2]; [done| | |].
    + specialize (Hq k). cbn in Hq. rewrite decide_True in Hq by done. case_decide; [congruence|done].
    + exfalso. destruct Hw2 as (_ & Hb & Hw2). destruct t2; try done. destruct (branch_diverges _ _ Hw2) as (q1 & q2 & Hd & H1 & H2).
      rewrite <-(tget_ext k2), Hk in H1, H2. rewrite <-H2 in H1. apply (inj (app k2)) in H1 as ->. by destruct q2.
    + exfalso. destruct (branch_diverges _ _ Hw2) as (q1 & q2 & Hd & ->%Hk & ->%Hk). by destruct k.
  - destruct Hw2 as [->|Hw2]; [by apply Hempty|]. destruct Hw1 as [?|(Hk & Hb & Hw1)]; [done|].
    destruct t as [| | |ch v]; try done. destruct (branch_diverges _ _ Hw1) as (q1 & q2 & Hd & H1 & H2).
    assert (Hp : forall q, is_Some (tget t2 q) -> exists r, q = k ++ r).
    { intros q [x Hx]. rewrite <-Hq in Hx. apply tget_ext_Some in Hx as (r & -> & _). by exists r. }
    rewrite <-(tget_ext k), Hq in H1, H2.
    destruct t2 as [|k2 v2|k2 t2|ch2 v2]; [done| | |].
    + exfalso. cbn in H1, H2. do 2 (case_decide; [|by (destruct H1 || destruct H2)]). simplify_list_eq. by destruct q1.
    + destruct Hw2 as (Hk2 & Hb2 & Hw2). destruct t2 as [| | |ch2 v2]; try done.
      assert (k = k2) as <-.
      { destruct (branch_diverges _ _ Hw2) as (p1 & p2 & Hd2 & G1 & G2). rewrite <-(tget_ext k2) in G1, G2.
        apply Hp in G1 as (r1 & G1), G2 as (r2 & G2). destruct H1 as [? H1], H2 as [? H2].
        apply tget_ext_Some in H1 as (s1 & H1 & _), H2 as (s2 & H2 & _). exact (prefixes_eq k k2 _ _ _ _ _ _ _ _ Hd Hd2 H1 H2 G1 G2). }
      f_equal. apply IH; [by right|by right|]. intros q. by rewrite <-(tget_ext k (TBranch ch v)), Hq, tget_ext.
    + exfalso. destruct (branch_diverges _ _ Hw2) as (p1 & p2 & Hd2 & G1 & G2). apply Hp in G1 as (r1 & ->), G2 as (r2 & ->).
      destruct k; [done|]. by apply Hd2.
  - destruct Hw1 as [?|Hw1]; [done|]. destruct (branch_diverges _ _ Hw1) as (q1 & q2 & Hd & H1 & H2). rewrite Hq in H1, H2.
    destruct Hw2 as [->|Hw2]; [by destruct H1|]. pose proof (diverge_branch t2 q1 q2 Hw2 Hd H1 H2) as Hb.
    destruct t2 as [| | |ch2 v2]; try done. pose proof (Hq []) as Hv. cbn in Hv. subst v2. f_equal.
    apply wfn_branch in Hw1 as (Hl1 & Hf1 & _), Hw2 as (Hl2 & Hf2 & _). apply list_eq_same_length with 16%nat; [done|done|].
    intros i c1 c2 _ Hc1 Hc2. rewrite Forall_forall in IH, Hf1, Hf2. apply list_elem_of_lookup_2 in Hc1 as Hi1, Hc2 as Hi2.
    apply IH; [done|by apply Hf1|by apply Hf2|]. intros q. specialize (Hq (Z.of_nat i :: q)).
    rewrite !tget_branch, (proj2 (Z.leb_le _ _)), Nat2Z.id, Hc1, Hc2 in Hq by lia. done.
Qed.

(** ** Branches with too few entries, as they occur while a tree is rebuilt *)
Definition loose (t : trie) : Prop := match t with TBranch ch _ => length ch = 16%nat /\ Forall wf ch | _ => False end.

Lemma filter_nonempty_lookup ch i c : ch !! i = Some c -> nonempty c = true -> (1 <= length (List.filter nonempty ch))%nat.
Proof.
  revert i. induction ch as [|d ch IH]; intros [|i] Hi Hc; try done; cbn in *.
  - injection Hi as ->. rewrite Hc. cbn. lia.
  - specialize (IH i Hi Hc). destruct (nonempty d); cbn; lia.
Qed.

Lemma filter_nonempty_two ch i j ci cj :
  i <> j -> ch !! i = Some ci -> ch !! j = Some cj -> nonempty ci = true -> nonempty cj = true ->
  (2 <= length (List.filter nonempty ch))%nat.
Proof.
  revert i j. induction ch as [|d ch IH]; intros [|i] [|j] Hij Hi Hj Hni Hnj; try done; cbn in *.
  - injection Hi as ->. rewrite Hni. cbn. pose proof (filter_nonempty_lookup ch j cj Hj Hnj). lia.
  - injection Hj as ->. rewrite Hnj. cbn. pose proof (filter_nonempty_lookup ch i ci Hi Hni). lia.
  - assert (i <> j) as Hij' by congruence. specialize (IH i j Hij' Hi Hj Hni Hnj). destruct (nonempty d); cbn; lia.
Qed.

Lemma tget_cons_child ch v n q : is_Some (tget (TBranch ch v) (n :: q)) ->
  exists c, 0 <= n /\ ch !! Z.to_nat n = Some c /\ nonempty c = true /\ is_Some (tget c q).
Proof.
  rewrite tget_branch. destruct (Z.leb_spec 0 n); [|by intros []]. destruct (ch !! Z.to_nat n) as [c|]; cbn; [|by intros []].
  intros Hs. exists c. split_and!; try done. destruct c; [|done..]. by destruct Hs.
Qed.

Lemma entries_diverge ch v q1 q2 :
  diverge q1 q2 -> is_Some (tget (TBranch ch v) q1) -> is_Some (tget (TBranch ch v) q2) -> (2 <= entries ch v)%nat.
Proof.
  unfold entries. destruct q1 as [|x q1], q2 as [|y q2]; cbn [diverge]; intros Hd H1 H2; [done| | |].
  - apply tget_cons_child in H2 as (c & _ & Hc & Hn & _). pose proof (filter_nonempty_lookup _ _ _ Hc Hn).
    cbn in H1. destruct H1 as [? ->]. lia.
  - apply tget_cons_child in H1 as (c & _ & Hc & Hn & _). pose proof (filter_nonempty_lookup _ _ _ Hc Hn).
    cbn in H2. destruct H2 as [? ->]. lia.
  - apply tget_cons_child in H1 as (c & Hx & Hc & Hn & _), H2 as (d & Hy & Hd' & Hm & _).
    pose proof (filter_nonempty_two ch (Z.to_nat x) (Z.to_nat y) c d ltac:(lia) Hc Hd' Hn Hm). lia.
Qed.

Lemma loose_wfn t q1 q2 : loose t -> diverge q1 q2 -> is_Some (tget t q1) -> is_Some (tget t q2) -> wfn t.
Proof.
  destruct t as [| | |ch v]; try done. intros [Hl Hf] Hd H1 H2. apply wfn_branch. split_and!; [done|done|].
  by eapply entries_diverge.
Qed.

Lemma wfn_loose t : wfn t -> is_branch t = true -> loose t.
Proof. destruct t; try done. by intros (? & ? & _)%wfn_branch. Qed.

Definition empties : list trie := replicate 16 TEmpty.

Lemma child_empties n : child empties n = TEmpty.
Proof. unfold child, empties. case_match; [|done]. destruct (replicate 16 TEmpty !! _) eqn:He; [|done]. by apply lookup_replicate in He as [-> _]. Qed.

Lemma loose_empties v : loose (TBranch empties v).
Proof. split; [done|]. apply Forall_replicate. by left. Qed.

Lemma child_insert ch n c m :
  length ch = 16%nat -> in_u 4 n -> child (<[Z.to_nat n := c]> ch) m = if decide (m = n) then c else child ch m.
Proof.
  intros Hl [Hn1 Hn2]. change (2 ^ 4) with 16 in Hn2. unfold child. case_decide as Hm.
  - subst m. rewrite (proj2 (Z.leb_le _ _)) by lia. by rewrite list_lookup_insert_eq by lia.
  - destruct (Z.leb_spec 0 m); [|done]. by rewrite list_lookup_insert_ne by lia.
Qed.

Lemma loose_insert ch v n c : loose (TBranch ch v) -> wf c -> loose (TBranch (<[n := c]> ch) v).
Proof. intros [Hl Hf] Hc. split; [by rewrite length_insert|by apply Forall_insert]. Qed.

Lemma child_lookup ch n : length ch = 16%nat -> in_u 4 n -> ch !! Z.to_nat n = Some (child ch n).
Proof.
  intros Hl [Hn1 Hn2]. change (2 ^ 4) with 16 in Hn2. unfold child. rewrite (proj2 (Z.leb_le _ _)) by lia.
  by destruct (lookup_lt_is_Some_2 ch (Z.to_nat n)) as [c ->]; [lia|].
Qed.

Lemma loose_child ch v n : loose (TBranch ch v) -> wf (child ch n).
Proof.
  intros [Hl Hf]. unfold child. case_match; [|by left]. destruct (ch !! Z.to_nat n) eqn:Hc; cbn; [|by left]. by eapply Forall_lookup_1.
Qed.

(** ** Maps *)
Definition upd (m : list Z -> option bytes) (k : list Z) (v : bytes) (q : list Z) : option bytes :=
  if decide (q = k) then Some v else m q.
Definition del (m : list Z -> option bytes) (k : list Z) (q : list Z) : option bytes :=
  if decide (q = k) then None else m q.

Lemma upd_same m k v : m k = Some v -> forall q, upd m k v q = m q.
Proof. intros Hk q. unfold upd. case_decide; congruence. Qed.
Lemma del_same m k : m k = None -> forall q, del m k q = m q.
Proof. intros Hk q. unfold del. case_decide; congruence. Qed.

(** Keys are nibbles, neither keys nor values are beyond what an encoding
    can hold, and the empty value stands for absence. *)
Definition bound : Z := 2 ^ 30.
Definition content_ok (m : list Z -> option bytes) : Prop :=
  forall q v, m q = Some v -> is_nibbles q /\ len q < bound /\ is_bytes v /\ 0 < len v < bound.

Lemma content_upd m k v :
  content_ok m -> is_nibbles k -> len k < bound -> is_bytes v -> 0 < len v < bound -> content_ok (upd m k v).
Proof. intros Hm ? ? ? ? q w. unfold upd. case_decide; [intros [= <-]; by subst|apply Hm]. Qed.
Lemma content_del m k : content_ok m -> content_ok (del m k).
Proof. intros Hm q w. unfold del. case_decide; [done|apply Hm]. Qed.

(** The map below a prefix. *)
Lemma content_sub m m' k : content_ok m -> (forall q, m' q = m (k ++ q)) -> content_ok m'.
Proof.
  intros Hm Hs q v Hq. rewrite Hs in Hq. destruct (Hm _ _ Hq) as (Hn & Hl & ? & ?). apply Forall_app in Hn as [_ ?].
  rewrite len_app in Hl. pose proof (len_nonneg k). split_and!; try done; lia.
Qed.

Lemma content_child ch v n : content_ok (tget (TBranch ch v)) -> content_ok (tget (child ch n)).
Proof. intros Hm. apply (content_sub _ _ [n] Hm). intros q. by rewrite <-(tget_child ch v). Qed.

Lemma content_ext k t : content_ok (tget (TExt k t)) -> content_ok (tget t).
Proof. intros Hm. apply (content_sub _ _ k Hm). intros q. by rewrite tget_ext. Qed.

Lemma content_ext_key k t : content_ok (tget (TExt k t)) -> wfn t -> is_nibbles k /\ len k < bound.
Proof.
  intros Hm Hw. destruct (wfn_key t Hw) as (q & [v Hq]). rewrite <-(tget_ext k) in Hq.
  destruct (Hm _ _ Hq) as (Hn & Hl & _). apply Forall_app in Hn as [? _]. rewrite len_app in Hl. pose proof (len_nonneg q). split; [done|lia].
Qed.

Lemma content_leaf k v : content_ok (tget (TLeaf k v)) -> is_nibbles k /\ len k < bound /\ is_bytes v /\ 0 < len v < bound.
Proof. intros Hm. apply Hm. cbn. by rewrite decide_True. Qed.

(** ** The entries in order *)
Definition prepend (k : list Z) : list (list Z * bytes) -> list (list Z * bytes) := map (fun '(q, v) => (k ++ q, v)).

Fixpoint elements (t : trie) : list (list Z * bytes) :=
  match t with
  | TEmpty => []
  | TLeaf k v => [(k, v)]
  | TExt k t => prepend k (elements t)
  | TBranch ch v =>
      match v with Some v => [([], v)] | None => [] end ++
      (fix go (i : Z) (ch : list trie) : list (list Z * bytes) :=
         match ch with [] => [] | c :: ch => prepend [i] (elements c) ++ go (i + 1) ch end) 0 ch
  end.

Fixpoint elements_from (i : Z) (ch : list trie) : list (list Z * bytes) :=
  match ch with [] => [] | c :: ch => prepend [i] (elements c) ++ elements_from (i + 1) ch end.

Lemma elements_branch ch v :
  elements (TBranch ch v) = match v with Some v => [([], v)] | None => [] end ++ elements_from 0 ch.
Proof. reflexivity. Qed.

Lemma elem_of_prepend k l q v : (q, v) ∈ prepend k l <-> exists r, q = k ++ r /\ (r, v) ∈ l.
Proof.
  unfold prepend. rewrite list_elem_of_fmap. split.
  - intros ([r w] & [= -> ->] & ?). by exists r.
  - intros (r & -> & ?). by exists (r, v).
Qed.

Lemma elem_of_elements_from i ch q v :
  (q, v) ∈ elements_from i ch <-> exists j c r, ch !! j = Some c /\ q = (i + Z.of_nat j) :: r /\ (r, v) ∈ elements c.
Proof.
  revert i. induction ch as [|c ch IH]; intros i; cbn [elements_from].
  - split; [by intros ?%not_elem_of_nil|]. by intros (j & c & r & ? & _).
  - rewrite elem_of_app, elem_of_prepend, IH. split.
    + intros [(r & -> & Hr)|(j & d & r & Hj & -> & Hr)].
      * exists 0%nat, c, r. rewrite Z.add_0_r. done.
      * exists (S j), d, r. split_and!; [done| |done]. f_equal. lia.
    + intros ([|j] & d & r & Hj & -> & Hr).
      * left. injection Hj as ->. exists r. by rewrite Z.add_0_r.
      * right. exists j, d, r. split_and!; [done| |done]. f_equal. lia.
Qed.

(** They are the entries of the map, *)
Lemma elem_of_elements t q v : (q, v) ∈ elements t <-> tget t q = Some v.
Proof.
  revert q. induction t as [|k w|k t IH|ch w IH] using trie_ind'; intros q.
  - cbn. split; [by intros ?%not_elem_of_nil|done].
  - cbn. rewrite list_elem_of_singleton. case_decide; split; try congruence.
  - cbn [elements]. rewrite elem_of_prepend, tget_ext_Some. split; intros (r & -> & Hr); exists r; (split; [done|]); by apply IH.
  - rewrite elements_branch, elem_of_app, elem_of_elements_from. rewrite Forall_forall in IH. destruct q as [|n q].
    + cbn [tget]. split.
      * intros [Hin|(j & c & r & _ & ? & _)]; [|done]. destruct w; [|by apply not_elem_of_nil in Hin].
        apply list_elem_of_singleton in Hin. congruence.
      * intros ->. left. by apply list_elem_of_singleton.
    + rewrite tget_branch. split.
      * intros [Hin|(j & c & r & Hj & [= -> ->] & Hr)]; [destruct w; [by apply list_elem_of_singleton in Hin|by apply not_elem_of_nil in Hin]|].
        rewrite (proj2 (Z.leb_le _ _)) by lia. replace (Z.to_nat (0 + Z.of_nat j)) with j by lia. rewrite Hj. cbn.
        apply IH; [by eapply list_elem_of_lookup_2|done].
      * destruct (Z.leb_spec 0 n); [|done]. destruct (ch !! Z.to_nat n) as [c|] eqn:Hc; [|done]. cbn. intros Hq. right.
        exists (Z.to_nat n), c, q. split_and!; [done|f_equal; lia|]. apply IH; [by eapply list_elem_of_lookup_2|done].
Qed.

(** in strictly increasing order of the keys. *)
Definition lex_lt (a b : list Z) : Prop := lex_cmp a b = Lt.

Lemma lex_cmp_app k a b : lex_cmp (k ++ a) (k ++ b) = lex_cmp a b.
Proof. induction k as [|x k IH]; [done|]. cbn. by rewrite Z.compare_refl. Qed.

Lemma sorted_prepend k l : StronglySorted lex_lt (map fst l) -> StronglySorted lex_lt (map fst (prepend k l)).
Proof.
  induction l as [|[q v] l IH]; cbn; [by constructor|]. intros Hs. apply StronglySorted_inv in Hs as [Hs Hf]. constructor; [by apply IH|].
  rewrite List.Forall_map in Hf |- *. unfold prepend. rewrite List.Forall_map. eapply Forall_impl; [exact Hf|].
  intros [r w] Hr. cbn in *. unfold lex_lt. by rewrite lex_cmp_app.
Qed.

Lemma StronglySorted_app_2 {A} (R : A -> A -> Prop) l1 l2 :
  StronglySorted R l1 -> StronglySorted R l2 -> (forall x y, x ∈ l1 -> y ∈ l2 -> R x y) -> StronglySorted R (l1 ++ l2).
Proof.
  intros H1 H2 H. induction H1 as [|x l1 H1 IH Hf]; [done|]. cbn. constructor.
  - apply IH. intros y z Hy Hz. apply H; [by right|done].
  - apply Forall_app_2; [done|]. apply Forall_forall. intros y Hy. apply H; [by left|done].
Qed.

Lemma elements_sorted t : StronglySorted lex_lt (map fst (elements t)).
Proof.
  induction t as [|k w|k t IH|ch w IH] using trie_ind'; [constructor|by repeat constructor|by apply sorted_prepend|].
  rewrite elements_branch, map_app.
  assert (Hfst : forall l (q : list Z), q ∈ map (fst (B := bytes)) l -> exists v, (q, v) ∈ l).
  { intros l q ([r v] & -> & ?)%list_elem_of_fmap. by exists v. }
  apply StronglySorted_app_2; [destruct w; by repeat constructor| |].
  2: { intros x y Hx [v (j & c & r & _ & -> & _)%elem_of_elements_from]%Hfst.
       destruct w; cbn in Hx; [|by apply not_elem_of_nil in Hx]. by apply list_elem_of_singleton in Hx as ->. }
  generalize 0 as i. induction IH as [|c ch Hc Hch IH]; intros i; cbn [elements_from]; [constructor|].
  rewrite map_app. apply StronglySorted_app_2; [by apply sorted_prepend|by apply IH|].
  intros x y [v (q & -> & _)%elem_of_prepend]%Hfst [v' (j & d & r & _ & -> & _)%elem_of_elements_from]%Hfst.
  unfold lex_lt. cbn. rewrite (proj2 (Z.compare_lt_iff _ _)) by lia. done.
Qed.
