(* ===== verification/TrieNode.v ===== *)
(** * Trie nodes and their encoding ([util/patricia_trie/src/node.rs])

    A node is stored as RLP: a list of two items for a leaf or an extension, of
    seventeen for a branch.  A child is written inline if its encoding is
    shorter than a hash, and by its hash otherwise.  [enc] is the encoding of a
    tree; [Node_decoded] reads one level of it back. *)
From stdpp Require Import base list numbers.
From S2P Require Import Prelude RlpStream RlpEncoding RlpDecode RlpDecoding RlpViews RlpImpls RlpCodecs RlpCanonical.
From S2P Require Import Account AccountCodec Nibbles HashDb Trie.

(** ** Trusted views: [Rlp] unwraps what [UntrustedRlp] returns ([rlpin.rs]) *)
Definition Rlp_prototype (r : UntrustedRlp) : run (Prototype * UntrustedRlp) :=
  let '(p, r) := prototype r in p ← unwrap p; Ok (p, r).
Definition Rlp_at (r : UntrustedRlp) (i : Z) : run (UntrustedRlp * UntrustedRlp) :=
  let '(x, r) := at_index r i in x ← unwrap x; Ok (x, r).
Definition Rlp_data (r : UntrustedRlp) : run bytes := unwrap (data r).
Definition Rlp_size (r : UntrustedRlp) : run Z := unwrap (rlp_size r).

(** Code that cannot fail, where an error is expected. *)
Definition infallible {E A} (r : run A) : outcome E A :=
  match r with Ok a => Ok a | Err e => match e with end | Panic => Panic end.

(** ** The code *)
Inductive RlpNode : Type :=
  | RlpEmpty
  | RlpLeaf (key : NibbleSlice) (value : bytes)
  | RlpExtension (key : NibbleSlice) (item : bytes)
  | RlpBranch (nodes : list bytes) (value : option bytes).

(** [for i in 0..16 { nodes[i] = r.at(i).as_raw() }] *)
Fixpoint raw_children (n : nat) (r : UntrustedRlp) (i : Z) : run (list bytes * UntrustedRlp) :=
  match n with
  | O => Ok ([], r)
  | S n' =>
      '(c, r) ← Rlp_at r i;
      '(l, r) ← raw_children n' r (i + 1);
      Ok (rlp_raw c :: l, r)
  end.

Definition Node_decoded (node_rlp : bytes) : run RlpNode :=
  '(p, r) ← Rlp_prototype (UntrustedRlp_new node_rlp);
  match p with
  | PList 2 =>
      '(key, r) ← Rlp_at r 0;
      key ← Rlp_data key;
      '(slice, is_leaf) ← from_encoded key;
      '(item, r) ← Rlp_at r 1;
      if (is_leaf : bool) then value ← Rlp_data item; Ok (RlpLeaf slice value)
      else Ok (RlpExtension slice (rlp_raw item))
  | PList 17 =>
      '(nodes, r) ← raw_children 16 r 0;
      '(item, r) ← Rlp_at r 16;
      if RlpDecode.is_empty item then Ok (RlpBranch nodes None)
      else '(item, r) ← Rlp_at r 16; value ← Rlp_data item; Ok (RlpBranch nodes (Some value))
  | PData 0 => Ok RlpEmpty
  | _ => Panic
  end.

Definition append_bytes (s : RlpStream) (b : bytes) : run RlpStream := @append _ bytes_Encodable s b.

Fixpoint append_raw_all (s : RlpStream) (nodes : list bytes) : run RlpStream :=
  match nodes with [] => Ok s | b :: nodes => s ← append_raw s b 1; append_raw_all s nodes end.

Definition Node_encoded (self : RlpNode) : run bytes :=
  match self with
  | RlpLeaf slice value =>
      s ← new_list 2;
      k ← ns_encoded slice true;
      s ← append_bytes s k;
      s ← append_bytes s value;
      out s
  | RlpExtension slice raw_rlp =>
      s ← new_list 2;
      k ← ns_encoded slice false;
      s ← append_bytes s k;
      s ← append_raw s raw_rlp 1;
      out s
  | RlpBranch nodes value =>
      s ← new_list 17;
      s ← append_raw_all s nodes;
      s ← match value with Some n => append_bytes s n | None => append_empty_data s end;
      out s
  | RlpEmpty => s ← append_empty_data stream_new; out s
  end.

Inductive OwnedNode : Type :=
  | OwnedEmpty
  | OwnedLeaf (key : NibbleVec) (value : bytes)
  | OwnedExtension (key : NibbleVec) (item : bytes)
  | OwnedBranch (children : list bytes) (value : option bytes).

Definition OwnedNode_from (node : RlpNode) : run OwnedNode :=
  match node with
  | RlpEmpty => Ok OwnedEmpty
  | RlpLeaf k v => k ← nv_from k; Ok (OwnedLeaf k v)
  | RlpExtension k child => k ← nv_from k; Ok (OwnedExtension k child)
  | RlpBranch c val => Ok (OwnedBranch c val)
  end.

(** Is a child referred to by its hash? [r.is_data() && r.size() == 32] *)
Definition child_hash (node : bytes) : run (option Z) :=
  let r := UntrustedRlp_new node in
  size ← (if is_data r then Rlp_size r else Ok 0);
  if is_data r && (size =? 32) then h ← unwrap (fst (@as_val _ h256_Decodable r)); Ok (Some h) else Ok None.

(** ** The reference encoding *)
Section encoding.
Context (keccak : bytes -> Z).

(** How a node refers to a child with the given encoding. *)
Definition ref_item (it : item) : item :=
  if 32 <=? len (rlp_enc it) then Data (Z_to_be 32 (keccak (rlp_enc it))) else it.

Definition value_or (v : option bytes) : bytes := match v with Some v => v | None => [] end.

Fixpoint node_item (t : trie) : item :=
  match t with
  | TEmpty => Data []
  | TLeaf k v => List [Data (hp k true); Data v]
  | TExt k t => List [Data (hp k false); ref_item (node_item t)]
  | TBranch ch v => List (map (fun c => ref_item (node_item c)) ch ++ [Data (value_or v)])
  end.

Definition enc (t : trie) : bytes := rlp_enc (node_item t).
Definition ref (t : trie) : item := ref_item (node_item t).

(** Is the node stored under its hash? *)
Definition hashed (t : trie) : bool := 32 <=? len (enc t).

(** The encodings of the nodes below the root that are, in every position. *)
Fixpoint below (t : trie) : list bytes :=
  match t with
  | TEmpty | TLeaf _ _ => []
  | TExt _ t => (if hashed t then [enc t] else []) ++ below t
  | TBranch ch _ => concat (map (fun t => (if hashed t then [enc t] else []) ++ below t) ch)
  end.

Definition nodes (t : trie) : list bytes := (if hashed t then [enc t] else []) ++ below t.

Lemma below_branch ch v : below (TBranch ch v) = concat (map nodes ch).
Proof. reflexivity. Qed.

Lemma below_ext k t : below (TExt k t) = nodes t.
Proof. reflexivity. Qed.

(** ** Sizes *)
Lemma len_enc_data b : len b < 2 ^ 32 -> len (rlp_enc (Data b)) <= 5 + len b.
Proof.
  intros Hb. rewrite rlp_enc_split, len_app. cbn [payload].
  assert (len (header_of (Data b)) <= 5); [|lia]. destruct b as [|x [|y b]]; cbn [header_of]; [done|case_match; done|].
  apply len_header. split; [apply len_nonneg|done].
Qed.

Lemma len_ref it : len (rlp_enc (ref_item it)) <= 37.
Proof.
  unfold ref_item. destruct (Z.leb_spec 32 (len (rlp_enc it))); [|lia].
  pose proof (len_enc_data (Z_to_be 32 (keccak (rlp_enc it)))) as Hl. rewrite len_Z_to_be in Hl. specialize (Hl ltac:(lia)). lia.
Qed.

Lemma ref_item_ok it : item_ok it -> item_ok (ref_item it).
Proof. intros Hit. unfold ref_item. case_match; [|done]. split; [apply Z_to_be_bytes|by rewrite len_Z_to_be]. Qed.

Lemma len_concat_refs ch : len (concat (map rlp_enc (map (fun c => ref_item (node_item c)) ch))) <= 37 * len ch.
Proof.
  induction ch as [|c ch IH]; cbn [map concat]; [done|]. rewrite len_app, len_cons. pose proof (len_ref (node_item c)). lia.
Qed.

Lemma hp_item_ok k leaf : is_nibbles k -> len k < bound -> item_ok (Data (hp k leaf)).
Proof. intros Hk Hl. split; [by apply hp_bytes|]. pose proof (len_hp k leaf). unfold bound in Hl. lia. Qed.

Lemma len_hp_item k leaf : len k < bound -> len (rlp_enc (Data (hp k leaf))) <= 6 + bound.
Proof. intros Hl. pose proof (len_hp k leaf). unfold bound in *. pose proof (len_enc_data (hp k leaf) ltac:(lia)). lia. Qed.

Lemma node_item_ok t : (t = TEmpty \/ wfn t \/ loose t) -> content_ok (tget t) -> item_ok (node_item t).
Proof.
  induction t as [|k v|k t IH|ch v IH] using trie_ind'; intros Hw Hc; cbn [node_item].
  - by split; [constructor|].
  - apply content_leaf in Hc as (Hk & Hl & Hv & Hlv). apply item_ok_list.
    assert (item_ok (Data v)) by (split; [done|unfold bound in Hlv; lia]).
    split; [by repeat (constructor; [by apply hp_item_ok||done|])|]. cbn [map concat]. rewrite !len_app, len_nil.
    pose proof (len_hp_item k true Hl). pose proof (len_enc_data v ltac:(unfold bound in Hlv; lia)). unfold bound in *. lia.
  - destruct Hw as [?|[(_ & _ & Hw)|[]]]; [done|].
    destruct (content_ext_key k t Hc Hw) as [Hk Hl]. apply item_ok_list.
    assert (item_ok (ref_item (node_item t))) by (apply ref_item_ok, IH; [by right; left|by eapply content_ext]).
    split; [by repeat (constructor; [by apply hp_item_ok||done|])|]. cbn [map concat]. rewrite !len_app, len_nil.
    pose proof (len_hp_item k false Hl). pose proof (len_ref (node_item t)). unfold bound in *. lia.
  - assert (length ch = 16%nat /\ Forall wf ch) as [Hlen Hf].
    { destruct Hw as [?|[Hw|Hw]]; [done| |exact Hw]. apply wfn_branch in Hw as (? & ? & _). done. }
    assert (item_ok (Data (value_or v)) /\ len (value_or v) < bound) as [Hv Hlv].
    { destruct v as [v|]; cbn [value_or]; [|by split; [split; [constructor|]|]].
      destruct (Hc [] v eq_refl) as (_ & _ & Hv & Hlv). unfold bound in *. split; [split; [done|lia]|lia]. }
    apply item_ok_list. split.
    + apply Forall_app_2; [|by constructor]. apply Forall_map. apply Forall_lookup_2. intros i c Hi. apply ref_item_ok.
      rewrite Forall_lookup in IH, Hf. apply (IH i c Hi).
      * destruct (Hf i c Hi); auto.
      * apply (content_child ch v (Z.of_nat i)) in Hc. unfold child in Hc.
        rewrite (proj2 (Z.leb_le _ _)), Nat2Z.id, Hi in Hc by lia. done.
    + rewrite map_app, concat_app, len_app. cbn [map concat]. rewrite app_nil_r.
      pose proof (len_concat_refs ch). unfold len at 2 in H. rewrite Hlen in H.
      pose proof (len_enc_data (value_or v) ltac:(unfold bound in *; lia)). unfold bound in *. lia.
Qed.

Lemma enc_ok t : wf t -> content_ok (tget t) -> item_ok (node_item t).
Proof. intros Hw. apply node_item_ok. destruct Hw; auto. Qed.

(** ** Views on encodings *)
Lemma view_data it : item_ok it -> data (UntrustedRlp_new (rlp_enc it)) = Ok (payload it).
Proof.
  intros Hit. unfold data. cbn [rlp_raw UntrustedRlp_new]. pose proof (payload_info_enc it [] Hit) as Hp. rewrite app_nil_r in Hp.
  rewrite Hp. cbn [mbind outcome_bind header_len value_len]. destruct (item_ok_lens it Hit). rewrite add_chk_ok by lia.
  cbn [mbind outcome_bind]. rewrite rlp_enc_split. apply slice_payload.
Qed.

Lemma data_is_data b : item_ok (Data b) -> is_data (UntrustedRlp_new (rlp_enc (Data b))) = true.
Proof.
  intros Hb. pose proof (enc_data_not_list b Hb) as Hl. pose proof (rlp_enc_nonempty (Data b)) as Hn. unfold is_list, is_data in *. cbn [rlp_raw UntrustedRlp_new] in *.
  destruct (rlp_enc (Data b)) as [|x l]; [done|]. b2p. by apply Z.ltb_lt.
Qed.

Lemma list_not_data l : item_ok (List l) -> is_data (UntrustedRlp_new (rlp_enc (List l))) = false.
Proof.
  intros Hb. pose proof (enc_list_is_list l Hb) as Hl. unfold is_list, is_data in *. cbn [rlp_raw UntrustedRlp_new] in *.
  destruct (rlp_enc (List l)) as [|x r]; [done|]. b2p. by apply Z.ltb_ge.
Qed.

Lemma Rlp_size_data b : item_ok (Data b) -> Rlp_size (UntrustedRlp_new (rlp_enc (Data b))) = Ok (len b).
Proof.
  intros Hb. unfold Rlp_size, rlp_size. rewrite data_is_data by done. cbn [rlp_raw UntrustedRlp_new].
  pose proof (payload_info_enc (Data b) [] Hb) as Hp. rewrite app_nil_r in Hp. by rewrite Hp.
Qed.

Lemma Rlp_prototype_list l : item_ok (List l) ->
  exists r, Rlp_prototype (UntrustedRlp_new (rlp_enc (List l))) = Ok (PList (len l), r) /\
    requeried (UntrustedRlp_new (rlp_enc (List l))) r.
Proof.
  intros Hl. unfold Rlp_prototype, prototype. rewrite list_not_data, enc_list_is_list by done.
  destruct (item_count_ok _ _ (view_enc _ Hl) (enc_list_is_list l Hl) (elements_enc l Hl)) as (r & -> & Hr).
  exists r. split; [|done]. cbn. do 3 f_equal. unfold len. by rewrite length_map.
Qed.

Lemma Rlp_prototype_data b : item_ok (Data b) ->
  Rlp_prototype (UntrustedRlp_new (rlp_enc (Data b))) = Ok (PData (len b), UntrustedRlp_new (rlp_enc (Data b))).
Proof.
  intros Hb. unfold Rlp_prototype, prototype. rewrite data_is_data by done. pose proof (Rlp_size_data b Hb) as Hs. unfold Rlp_size in Hs.
  destruct (rlp_size _) as [s| |]; [|done..]. cbn in *. congruence.
Qed.

Lemma Rlp_at_enc l r i it :
  item_ok (List l) -> requeried (UntrustedRlp_new (rlp_enc (List l))) r -> 0 <= i -> i < usize_max -> l !! Z.to_nat i = Some it ->
  exists r', Rlp_at r i = Ok (UntrustedRlp_new (rlp_enc it), r') /\ requeried (UntrustedRlp_new (rlp_enc (List l))) r'.
Proof.
  intros Hl [Hv Hraw] Hi Hi' Hit. unfold Rlp_at.
  destruct (at_index_view r i Hv ltac:(done)) as (r' & -> & [Hv' Hraw'] & _). cbn [rlp_raw UntrustedRlp_new] in Hraw. rewrite Hraw, at_ref_enc, Hit by done.
  exists r'. split; [done|]. split; [done|]. by rewrite Hraw'.
Qed.

Lemma raw_children_enc l n r i :
  item_ok (List l) -> requeried (UntrustedRlp_new (rlp_enc (List l))) r -> (i + n <= length l)%nat -> Z.of_nat (length l) < usize_max ->
  exists r', raw_children n r (Z.of_nat i) = Ok (map rlp_enc (take n (drop i l)), r') /\ requeried (UntrustedRlp_new (rlp_enc (List l))) r'.
Proof.
  intros Hl. revert r i. induction n as [|n IH]; intros r i Hr Hi Hb; cbn [raw_children]; [by exists r|].
  destruct (lookup_lt_is_Some_2 l i) as [it Hit]; [lia|].
  destruct (Rlp_at_enc l r (Z.of_nat i) it) as (r1 & -> & Hr1); [done|done|lia|lia|by rewrite Nat2Z.id|]. cbn [mbind outcome_bind].
  replace (Z.of_nat i + 1) with (Z.of_nat (S i)) by lia. destruct (IH r1 (S i)) as (r2 & -> & Hr2); [done|lia|done|].
  exists r2. split; [|done]. cbn [mbind outcome_bind]. by rewrite (drop_S _ _ _ Hit).
Qed.

(** ** Decoding one level *)
Definition node_of (t : trie) (n : RlpNode) : Prop :=
  match t, n with
  | TEmpty, RlpEmpty => True
  | TLeaf k v, RlpLeaf s v' => plain s /\ nibs s = k /\ v' = v
  | TExt k c, RlpExtension s raw => plain s /\ nibs s = k /\ raw = rlp_enc (ref c)
  | TBranch ch v, RlpBranch raws v' => raws = map (fun c => rlp_enc (ref c)) ch /\ v' = v
  | _, _ => False
  end.

Lemma data_nonempty_view b : item_ok (Data b) -> RlpDecode.is_empty (UntrustedRlp_new (rlp_enc (Data b))) = (len b =? 0).
Proof.
  intros Hb. pose proof (enc_data_not_list b Hb) as Hl. unfold is_list, RlpDecode.is_empty in *. cbn [rlp_raw UntrustedRlp_new] in *.
  destruct b as [|x [|y b]]; [done| |].
  - cbn [rlp_enc enc_data] in *. destruct (Z.ltb_spec x 0x80); [|done]. cbn in *. b2p. change (len [x] =? 0) with false.
    apply orb_false_iff. split; apply Z.eqb_neq; lia.
  - destruct Hb as [_ Hb]. cbn [rlp_enc enc_data] in *. rewrite !len_cons in *. pose proof (len_nonneg b).
    rewrite (proj2 (Z.eqb_neq _ _)) by lia. unfold header in *. pose proof (byte_len_u32 (1 + (1 + len b)) ltac:(lia)).
    destruct (Z.leb_spec (1 + (1 + len b)) 55); cbn [app] in *; apply orb_false_iff; split; apply Z.eqb_neq; lia.
Qed.

Lemma Node_decoded_ok t : wf t -> content_ok (tget t) -> exists n, Node_decoded (enc t) = Ok n /\ node_of t n.
Proof.
  intros Hw Hc. pose proof (enc_ok t Hw Hc) as Hok. unfold Node_decoded, enc.
  destruct t as [|k v|k t|ch v]; cbn [node_item] in *.
  - rewrite Rlp_prototype_data by done. by exists RlpEmpty.
  - apply content_leaf in Hc as (Hk & Hl & _). set (l := [Data (hp k true); Data v]) in *.
    pose proof (proj1 (item_ok_list l) Hok) as [Hits _]. apply Forall_cons_iff in Hits as [Hit0 Hits]. apply Forall_cons_iff in Hits as [Hit1 _].
    destruct (Rlp_prototype_list l Hok) as (r & -> & Hr). cbn [mbind outcome_bind]. change (len l) with 2. cbn match.
    destruct (Rlp_at_enc l r 0 _ Hok Hr ltac:(done) ltac:(done) eq_refl) as (r1 & -> & Hr1). cbn [mbind outcome_bind].
    unfold Rlp_data. rewrite view_data by done. cbn [mbind outcome_bind unwrap payload].
    destruct (@from_encoded_hp Empty_set k true Hk ltac:(unfold bound in Hl; lia)) as (s & -> & Hs & Hn). cbn [mbind outcome_bind].
    destruct (Rlp_at_enc l r1 1 _ Hok Hr1 ltac:(done) ltac:(done) eq_refl) as (r2 & -> & Hr2). cbn [mbind outcome_bind].
    rewrite view_data by done. by exists (RlpLeaf s v).
  - destruct Hw as [?|(_ & _ & Hw)]; [done|]. destruct (content_ext_key k t Hc Hw) as (Hk & Hl).
    set (l := [Data (hp k false); ref_item (node_item t)]) in *.
    pose proof (proj1 (item_ok_list l) Hok) as [Hits _]. apply Forall_cons_iff in Hits as [Hit0 Hits].
    destruct (Rlp_prototype_list l Hok) as (r & -> & Hr). cbn [mbind outcome_bind]. change (len l) with 2. cbn match.
    destruct (Rlp_at_enc l r 0 _ Hok Hr ltac:(done) ltac:(done) eq_refl) as (r1 & -> & Hr1). cbn [mbind outcome_bind].
    unfold Rlp_data. rewrite view_data by done. cbn [mbind outcome_bind unwrap payload].
    destruct (@from_encoded_hp Empty_set k false Hk ltac:(unfold bound in Hl; lia)) as (s & -> & Hs & Hn). cbn [mbind outcome_bind].
    destruct (Rlp_at_enc l r1 1 _ Hok Hr1 ltac:(done) ltac:(done) eq_refl) as (r2 & -> & Hr2). by eexists.
  - destruct Hw as [?|(Hlen & Hf & _)%wfn_branch]; [done|].
    set (l := map (fun c => ref_item (node_item c)) ch ++ [Data (value_or v)]) in *.
    assert (length l = 17%nat) as Hll by (unfold l; rewrite length_app, length_map, Hlen; done).
    assert (l !! 16%nat = Some (Data (value_or v))) as H16 by (unfold l; by rewrite lookup_app_r, length_map, Hlen by (rewrite length_map; lia)).
    pose proof (proj1 (item_ok_list l) Hok) as [Hits _].
    assert (item_ok (Data (value_or v))) as Hvok by (by eapply Forall_lookup_1).
    destruct (Rlp_prototype_list l Hok) as (r & -> & Hr). cbn [mbind outcome_bind].
    assert (len l = 17) as -> by (unfold len; by rewrite Hll). cbn match.
    change (raw_children 16 r 0) with (raw_children 16 r (Z.of_nat 0)). destruct (raw_children_enc l 16 r 0 Hok Hr ltac:(lia)) as (r1 & -> & Hr1); [by rewrite Hll|]. cbn [mbind outcome_bind].
    destruct (Rlp_at_enc l r1 16 _ Hok Hr1 ltac:(done) ltac:(done) H16) as (r2 & -> & Hr2). cbn [mbind outcome_bind].
    assert (map rlp_enc (take 16 (drop 0 l)) = map (fun c => rlp_enc (ref c)) ch) as ->.
    { unfold l. rewrite drop_0, take_app_length' by (by rewrite length_map). by rewrite map_map. }
    rewrite data_nonempty_view by done. destruct v as [v|]; cbn [value_or] in *.
    + destruct (Hc [] v eq_refl) as (_ & _ & _ & Hv). rewrite (proj2 (Z.eqb_neq _ _)) by lia.
      destruct (Rlp_at_enc l r2 16 _ Hok Hr2 ltac:(done) ltac:(done) H16) as (r3 & -> & _). cbn [mbind outcome_bind].
      unfold Rlp_data. rewrite view_data by done. by eexists.
    + by eexists.
Qed.

(** A reference is a hash exactly if the child is stored under it. *)
Lemma child_hash_ref t : wf t -> content_ok (tget t) -> (forall b, in_u 256 (keccak b)) ->
  child_hash (rlp_enc (ref t)) = Ok (if hashed t then Some (keccak (enc t)) else None).
Proof.
  intros Hw Hc Hk. pose proof (enc_ok t Hw Hc) as Hok. unfold ref, ref_item, hashed, enc, child_hash.
  destruct (Z.leb_spec 32 (len (rlp_enc (node_item t)))) as [Hl|Hl].
  - set (h := keccak (rlp_enc (node_item t))). pose proof (Hk (rlp_enc (node_item t)) : in_u 256 h) as Hh.
    assert (item_ok (Data (Z_to_be 32 h))) as Hd by (by apply (@codec_item_ok _ _ _ h256_codec h)).
    rewrite data_is_data, Rlp_size_data by done. cbn [mbind outcome_bind]. rewrite len_Z_to_be. change (Z.of_nat 32 =? 32) with true. cbn [andb].
    pose proof (@codec_decode _ _ _ h256_codec h Hh) as Hdec. cbn [codec_item h256_codec] in Hdec. unfold as_val. by rewrite Hdec.
  - destruct (node_item t) as [b|l] eqn:Hit.
    + assert (b = []) as -> by (by destruct t; cbn in Hit; simplify_eq). done.
    + by rewrite list_not_data by done.
Qed.

(** An absent child is the empty string. *)
Lemma ref_list_view l : item_ok (List l) -> l <> [] -> (forall b, in_u 256 (keccak b)) ->
  RlpDecode.is_empty (UntrustedRlp_new (rlp_enc (ref_item (List l)))) = false.
Proof.
  intros Hok Hl Hk. unfold ref_item. destruct (32 <=? _).
  { rewrite data_nonempty_view by (apply (@codec_item_ok _ _ _ h256_codec (keccak (rlp_enc (List l)))), Hk). by rewrite len_Z_to_be. }
  assert (0 < len (concat (map rlp_enc l)) < 2 ^ 32) as Hp.
  { apply item_ok_list in Hok as [_ Hok]. split; [|done]. pose proof (len_concat_ge l). destruct l as [|x l]; [done|].
    rewrite len_cons in H. pose proof (len_nonneg l). lia. }
  unfold RlpDecode.is_empty. cbn [rlp_raw UntrustedRlp_new rlp_enc]. pose proof (byte_len_u32 (len (concat (map rlp_enc l))) ltac:(lia)).
  destruct (byte_len_spec (len (concat (map rlp_enc l))) ltac:(lia)) as [Hb _].
  unfold header. destruct (Z.leb_spec (len (concat (map rlp_enc l))) 55); cbn [app]; apply orb_false_iff; split; apply Z.eqb_neq; lia.
Qed.

Lemma ref_empty t : wf t -> content_ok (tget t) -> (forall b, in_u 256 (keccak b)) ->
  RlpDecode.is_empty (UntrustedRlp_new (rlp_enc (ref t))) = negb (nonempty t).
Proof.
  intros Hw Hc Hk. pose proof (enc_ok t Hw Hc) as Hok. destruct t as [|k v|k t|ch v]; [done| | |]; apply ref_list_view; try done.
  by destruct ch.
Qed.
End encoding.

(** ** Writing a list item by item

    [building n its s]: the stream was opened with [new_list n] and holds the
    items [its]; with the last of them the list is closed. *)
Definition building (n : Z) (its : list item) (s : RlpStream) : Prop :=
  (len its < n /\ exists f, s = mkStream [mkListInfo 1 (len its) (Some n)] (0 :: concat (map rlp_enc its)) f) \/
  (len its = n /\ exists f, s = mkStream [] (rlp_enc (List its)) f).

Lemma building_new n : 0 < n -> exists s, new_list n = Ok s /\ building n [] s.
Proof.
  intros Hn. unfold new_list, begin_list. rewrite (proj2 (Z.eqb_neq n 0)) by lia. eexists; split; [reflexivity|]. left. split; [done|].
  by eexists.
Qed.

Lemma building_push n its s it f :
  building n its s -> len its < n -> n < 2 ^ 64 -> len (concat (map rlp_enc (its ++ [it]))) < 2 ^ 32 ->
  exists s', note_appended (unfinished_lists s) (buffer s ++ rlp_enc it) f 1 = Ok s' /\ building n (its ++ [it]) s'.
Proof.
  intros Hb Hn Hn64 Hl. destruct Hb as [(_ & f' & ->)|(? & _)]; [|lia]. cbn [unfinished_lists buffer].
  assert (concat (map rlp_enc (its ++ [it])) = concat (map rlp_enc its) ++ rlp_enc it) as Hc
    by (rewrite map_app, concat_app; cbn [map concat]; by rewrite app_nil_r).
  assert (len (its ++ [it]) = len its + 1) as Hlen by (by rewrite len_app).
  pose proof (len_nonneg its). destruct (decide (len its + 1 < n)) as [Hlt|Hge].
  - rewrite note_open by lia. eexists; split; [reflexivity|]. left. rewrite Hlen. split; [done|]. eexists. by rewrite Hc, <-app_comm_cons.
  - assert (len its = n - 1) as -> by lia.
    pose proof (note_close n [] [] (concat (map rlp_enc (its ++ [it]))) f ltac:(lia) Hl) as Hnc.
    cbn [app] in Hnc. change (len []) with 0 in Hnc. rewrite Hc, Z.add_0_l in Hnc. cbn [app]. rewrite Hnc.
    eexists; split; [reflexivity|]. right. split; [lia|]. eexists. cbn [rlp_enc]. by rewrite Hc.
Qed.

Lemma building_raw n its s it :
  building n its s -> len its < n -> n < 2 ^ 64 -> len (concat (map rlp_enc (its ++ [it]))) < 2 ^ 32 ->
  exists s', append_raw s (rlp_enc it) 1 = Ok s' /\ building n (its ++ [it]) s'.
Proof. intros. unfold append_raw. by apply building_push. Qed.

Lemma building_data n its s b :
  building n its s -> len its < n -> n < 2 ^ 64 -> len b < 2 ^ 32 -> len (concat (map rlp_enc (its ++ [Data b]))) < 2 ^ 32 ->
  exists s', append_bytes s b = Ok s' /\ building n (its ++ [Data b]) s'.
Proof.
  intros Hb Hn Hn64 Hlb Hl. unfold append_bytes.
  rewrite (append_push bytes_Encodable b b s) by (done || intros; reflexivity). by apply building_push.
Qed.

Lemma building_empty n its s :
  building n its s -> len its < n -> n < 2 ^ 64 -> len (concat (map rlp_enc (its ++ [Data []]))) < 2 ^ 32 ->
  exists s', append_empty_data s = Ok s' /\ building n (its ++ [Data []]) s'.
Proof. intros. unfold append_empty_data. by apply (building_push n its s (Data [])). Qed.

Lemma building_done n its s : building n its s -> len its = n -> drain s = Ok (rlp_enc (List its)) /\ out s = Ok (rlp_enc (List its)).
Proof. intros [[? _]|(_ & f & ->)] Hn; [lia|]. done. Qed.

Lemma concat_prefix_lt its rest : item_ok (List (its ++ rest)) -> len (concat (map rlp_enc its)) < 2 ^ 32.
Proof.
  intros [_ Hl]%item_ok_list. rewrite map_app, concat_app, len_app in Hl. pose proof (len_nonneg (concat (map rlp_enc rest))). lia.
Qed.

Lemma building_step (P : RlpStream -> run RlpStream) n its it rest s :
  (forall s, building n its s -> len its < n -> n < 2 ^ 64 -> len (concat (map rlp_enc (its ++ [it]))) < 2 ^ 32 ->
    exists s', P s = Ok s' /\ building n (its ++ [it]) s') ->
  building n its s -> n = len (its ++ it :: rest) -> n < 2 ^ 64 -> item_ok (List (its ++ it :: rest)) ->
  exists s', P s = Ok s' /\ building n (its ++ [it]) s'.
Proof.
  intros HP Hb Hn Hn64 Hok. apply HP; [done| |done|].
  - rewrite Hn, len_app, len_cons. pose proof (len_nonneg rest). lia.
  - eapply (concat_prefix_lt _ rest). by rewrite <-app_assoc.
Qed.

(** ** Encoding a decoded node *)
Lemma append_raw_all_ok n its its2 rest s :
  building n its s -> n = len (its ++ its2 ++ rest) -> n < 2 ^ 64 -> item_ok (List (its ++ its2 ++ rest)) ->
  exists s', append_raw_all s (map rlp_enc its2) = Ok s' /\ building n (its ++ its2) s'.
Proof.
  revert its s. induction its2 as [|it its2 IH]; intros its s Hb Hn Hn64 Hok; cbn [map append_raw_all]; [exists s; by rewrite app_nil_r|].
  destruct (building_step (fun s => append_raw s (rlp_enc it) 1) n its it (its2 ++ rest) s) as (s1 & -> & Hb1); try done; [by intros; apply building_raw|].
  cbn [mbind outcome_bind]. cbn [app] in Hn, Hok. rewrite cons_middle, app_assoc in Hn, Hok. destruct (IH (its ++ [it]) s1) as (s2 & -> & Hb2); try done.
  exists s2. by rewrite <-app_assoc in Hb2.
Qed.

Lemma Node_encoded_ok keccak t n : wf t -> content_ok (tget t) -> node_of keccak t n -> Node_encoded n = Ok (enc keccak t).
Proof.
  intros Hw Hc Hn. pose proof (enc_ok keccak t Hw Hc) as Hok. unfold enc.
  destruct t as [|k v|k t|ch v], n as [|s v'|s raw|raws v']; try done; cbn [Node_encoded node_item] in *.
  - destruct Hn as (Hs & <- & ->). destruct (building_new 2 ltac:(done)) as (s0 & -> & Hb0). cbn [mbind outcome_bind].
    rewrite ns_encoded_ok by apply Hs. cbn [mbind outcome_bind].
    apply item_ok_list in Hok as Hits. destruct Hits as [Hits _]. apply Forall_cons_iff in Hits as [[_ Hk] Hits]. apply Forall_cons_iff in Hits as [[_ Hv] _].
    destruct (building_step (fun s0 => append_bytes s0 (hp (nibs s) true)) 2 [] (Data (hp (nibs s) true)) [Data v] s0) as (s1 & -> & Hb1); try done; [by intros; apply building_data|].
    cbn [mbind outcome_bind app] in *.
    destruct (building_step (fun s0 => append_bytes s0 v) 2 [Data (hp (nibs s) true)] (Data v) [] s1) as (s2 & -> & Hb2); try done; [by intros; apply building_data|].
    cbn [mbind outcome_bind app] in *. by destruct (building_done _ _ _ Hb2 eq_refl) as [_ ->].
  - destruct Hn as (Hs & <- & ->). destruct (building_new 2 ltac:(done)) as (s0 & -> & Hb0). cbn [mbind outcome_bind].
    rewrite ns_encoded_ok by apply Hs. cbn [mbind outcome_bind].
    apply item_ok_list in Hok as Hits. destruct Hits as [Hits _]. apply Forall_cons_iff in Hits as [[_ Hk] _].
    destruct (building_step (fun s0 => append_bytes s0 (hp (nibs s) false)) 2 [] (Data (hp (nibs s) false)) [ref keccak t] s0) as (s1 & -> & Hb1); try done; [by intros; apply building_data|].
    cbn [mbind outcome_bind app] in *.
    destruct (building_step (fun s0 => append_raw s0 (rlp_enc (ref keccak t)) 1) 2 [Data (hp (nibs s) false)] (ref keccak t) [] s1) as (s2 & -> & Hb2); try done; [by intros; apply building_raw|].
    cbn [mbind outcome_bind app] in *. by destruct (building_done _ _ _ Hb2 eq_refl) as [_ ->].
  - destruct Hn as (-> & ->). destruct Hw as [?|(Hl & _)%wfn_branch]; [done|]. destruct (building_new 17 ltac:(done)) as (s0 & -> & Hb0). cbn [mbind outcome_bind].
    assert (17 = len (map (ref keccak) ch ++ [Data (value_or v)])) as Hlen by (rewrite len_app; unfold len; by rewrite length_map, Hl).
    destruct (append_raw_all_ok 17 [] (map (ref keccak) ch) [Data (value_or v)] s0) as (s1 & Hs1 & Hb1); try done.
    rewrite map_map in Hs1. rewrite Hs1. cbn [mbind outcome_bind app] in *.
    assert (exists s2, (match v with Some value => append_bytes s1 value | None => append_empty_data s1 end) = Ok s2 /\
      building 17 (map (ref keccak) ch ++ [Data (value_or v)]) s2) as (s2 & -> & Hb2).
    { apply item_ok_list in Hok as Hits. destruct Hits as [Hits _]. apply Forall_app in Hits as [_ Hits]. apply Forall_cons_iff in Hits as [[_ Hv] _].
      destruct v as [v|]; [eapply (building_step (fun st => append_bytes st v)); try done; by intros; apply building_data|].
      eapply (building_step append_empty_data); try done. by intros; apply building_empty. }
    cbn [mbind outcome_bind]. by destruct (building_done _ _ _ Hb2 (eq_sym Hlen)) as [_ ->].
Qed.
