(* ===== verification/TrieDb.v ===== *)
(** * Reading a trie ([util/patricia_trie/src/lookup.rs], [triedb.rs],
    [sectriedb.rs], [recorder.rs], and the traits of [lib.rs])

    [Lookup] follows a key through the nodes of a database, hash by hash.  On a
    database that holds nodes of a tree, and perhaps not all of them, it finds
    what the tree has for the key or reports the node that is missing. *)
From stdpp Require Import base list numbers.
From S2P Require Import Prelude RlpStream RlpEncoding RlpDecode RlpViews RlpImpls Account Nibbles HashDb Trie TrieNode.

(** ** Queries

    What a lookup does with the nodes it passes and the value it finds. *)
Record Query (Q I : Type) := mkQuery {
  q_decode : Q -> bytes -> I;
  q_record : Q -> Z -> bytes -> Z -> run Q;
}.
Arguments q_decode {Q I}.
Arguments q_record {Q I}.

(** A function on bytes, which records nothing. *)
Definition fn_query {I} (f : bytes -> I) : Query unit I := mkQuery unit I (fun _ => f) (fun q _ _ _ => Ok q).

(** *** [Recorder] *)
Record Rec := mkRec { rec_depth : Z; rec_data : bytes; rec_hash : Z }.
Record Recorder := mkRecorder { r_nodes : list Rec; r_min_depth : Z }.

Definition recorder_with_depth (depth : Z) : Recorder := mkRecorder [] depth.
Definition recorder_new : Recorder := recorder_with_depth 0.

Section trie.
Context {DB : Type} `{HashStore DB} (keccak : bytes -> Z).

(** The first line is a debug assertion. *)
Definition recorder_record (self : Recorder) (hash : Z) (data : bytes) (depth : Z) : run Recorder :=
  if negb (keccak data =? hash) then Panic
  else
    Ok (if r_min_depth self <=? depth then mkRecorder (r_nodes self ++ [mkRec depth data hash]) (r_min_depth self) else self).
Definition recorder_drain (self : Recorder) : list Rec * Recorder := (r_nodes self, mkRecorder [] (r_min_depth self)).

Definition recorder_query : Query Recorder bytes := mkQuery Recorder bytes (fun _ v => v) recorder_record.

(** ** [Lookup] *)
Inductive LookupStep : Type := Found (v : option bytes) | Follow (hash : Z) (key : NibbleSlice).

(** The loop over the inline children of a node, ending with a value or with
    the hash to go on with. *)
Fixpoint inline_loop (fuel : nat) (node_data : bytes) (key : NibbleSlice) : run LookupStep :=
  match fuel with
  | O => Panic
  | S fuel' =>
      node ← Node_decoded node_data;
      step ←
        (match node with
         | RlpLeaf slice value => e ← ns_eq slice key; Ok (inl (if (e : bool) then Some value else None))
         | RlpExtension slice item =>
             b ← starts_with key slice;
             if (b : bool) then l ← ns_len slice; Ok (inr (item, ns_mid key l)) else Ok (inl None)
         | RlpBranch children value =>
             e ← ns_is_empty key;
             if (e : bool) then Ok (inl value)
             else n ← ns_at key 0; c ← index children n; Ok (inr (c, ns_mid key 1))
         | RlpEmpty => Ok (inl None)
         end);
      match step with
      | inl v => Ok (Found v)
      | inr (node_data, key) =>
          h ← child_hash node_data;
          match h with Some hash => Ok (Follow hash key) | None => inline_loop fuel' node_data key end
      end
  end.

(** One round per nibble is enough for either loop. *)
Definition key_fuel (key : NibbleSlice) : nat := S (S (2 * length (ns_data key))).

Fixpoint look_up_loop {Q I} (query : Query Q I) (fuel : nat) (db : DB) (q : Q) (hash : Z) (key : NibbleSlice) (depth : Z) :
    outcome TrieError (option I) * Q :=
  match fuel with
  | O => (Panic, q)
  | S fuel' =>
      match hdb_get db hash with
      | None => (Err (if depth =? 0 then InvalidStateRoot hash else IncompleteDatabase hash), q)
      | Some node_data =>
          match q_record query q hash node_data depth with
          | Ok q =>
              match inline_loop (key_fuel key) node_data key with
              | Ok (Found v) => (Ok (q_decode query q <$> v), q)
              | Ok (Follow hash key) => look_up_loop query fuel' db q hash key (depth + 1)
              | _ => (Panic, q)
              end
          | _ => (Panic, q)
          end
      end
  end.

Definition look_up {Q I} (query : Query Q I) (db : DB) (q : Q) (hash : Z) (key : NibbleSlice) : outcome TrieError (option I) * Q :=
  look_up_loop query (key_fuel key) db q hash key 0.

(** ** [TrieDB] *)
Record TrieDB := mkTrieDB { td_db : DB; td_root : Z; td_hash_count : Z }.

Definition TrieDB_new (db : DB) (root : Z) : outcome TrieError TrieDB :=
  if negb (hdb_contains db root) then Err (InvalidStateRoot root) else Ok (mkTrieDB db root 0).

Definition root_data (self : TrieDB) : outcome TrieError bytes :=
  match hdb_get (td_db self) (td_root self) with Some d => Ok d | None => Err (InvalidStateRoot (td_root self)) end.

Definition get_raw_or_lookup (self : TrieDB) (node : bytes) : outcome TrieError bytes :=
  h ← infallible (child_hash node);
  match h with
  | Some key => match hdb_get (td_db self) key with Some d => Ok d | None => Err (IncompleteDatabase key) end
  | None => Ok node
  end.

Definition trie_get_with {Q I} (self : TrieDB) (key : bytes) (query : Query Q I) (q : Q) : outcome TrieError (option I) * Q :=
  look_up query (td_db self) q (td_root self) (ns_new key).

Definition trie_get (self : TrieDB) (key : bytes) : outcome TrieError (option bytes) :=
  fst (trie_get_with self key (fn_query (fun v => v)) tt).

Definition trie_contains (self : TrieDB) (key : bytes) : outcome TrieError bool :=
  x ← trie_get self key; Ok (bool_decide (is_Some x)).

Definition trie_is_empty (self : TrieDB) : bool := td_root self =? KECCAK_NULL_RLP.

(** ** [SecTrieDB]: the same with hashed keys *)
Definition sec_get_with {Q I} (self : TrieDB) (key : bytes) (query : Query Q I) (q : Q) : outcome TrieError (option I) * Q :=
  trie_get_with self (Z_to_be 32 (keccak key)) query q.
Definition sec_get (self : TrieDB) (key : bytes) : outcome TrieError (option bytes) :=
  fst (sec_get_with self key (fn_query (fun v => v)) tt).
Definition sec_contains (self : TrieDB) (key : bytes) : outcome TrieError bool :=
  trie_contains self (Z_to_be 32 (keccak key)).

(** ** Following a key through a tree *)
Lemma raw_child ch n : length ch = 16%nat -> in_u 4 n ->
  @index Empty_set _ (map (fun c => rlp_enc (ref keccak c)) ch) n = Ok (rlp_enc (ref keccak (child ch n))).
Proof.
  intros Hl Hn. apply index_ok; [apply Hn|]. by rewrite list_lookup_fmap, child_lookup.
Qed.

Lemma below_child ch v n : nonempty (child ch n) = true -> nodes keccak (child ch n) ⊆ below keccak (TBranch ch v).
Proof.
  intros Hn e He. rewrite below_branch. unfold child in *. destruct (0 <=? n); [|done].
  destruct (ch !! Z.to_nat n) as [c|] eqn:Hc; [|done]. cbn in *. apply list_elem_of_In, in_concat. exists (nodes keccak c).
  split; [|by apply list_elem_of_In]. apply in_map. apply list_elem_of_In. by eapply list_elem_of_lookup_2.
Qed.

Lemma below_nodes t : below keccak t ⊆ nodes keccak t.
Proof. intros e He. unfold nodes. apply elem_of_app. by right. Qed.

Lemma enc_in_nodes t : hashed keccak t = true -> enc keccak t ∈ nodes keccak t.
Proof. intros Ht. unfold nodes. rewrite Ht. by left. Qed.

Context (Hword : forall b, in_u 256 (keccak b)).

(** The key and the tree after one step down. *)
Inductive descends (t : trie) (q : list Z) (c : trie) (r : list Z) : Prop :=
  descends_intro : wf c -> content_ok (tget c) -> nodes keccak c ⊆ below keccak t -> tget c r = tget t q ->
    (length r < length q)%nat -> descends t q c r.

Lemma inline_loop_ok fuel t key :
  wf t -> content_ok (tget t) -> plain key -> (length (nibs key) < fuel)%nat ->
  inline_loop fuel (enc keccak t) key = Ok (Found (tget t (nibs key))) \/
  exists c key', inline_loop fuel (enc keccak t) key = Ok (Follow (keccak (enc keccak c)) key') /\ hashed keccak c = true /\
    plain key' /\ descends t (nibs key) c (nibs key').
Proof.
  revert t key. induction fuel as [|fuel IH]; intros t key Hw Hc Hkey Hf; [lia|]. cbn [inline_loop].
  destruct (Node_decoded_ok keccak t Hw Hc) as (n & -> & Hn). cbn [mbind outcome_bind].
  assert (Hnext : forall c key', plain key' -> descends t (nibs key) c (nibs key') ->
    (h ← child_hash (rlp_enc (ref keccak c));
     match h with Some hash => Ok (Follow hash key') | None => inline_loop fuel (rlp_enc (ref keccak c)) key' end) =
      Ok (Found (tget t (nibs key))) \/
    exists c0 key'0,
      (h ← child_hash (rlp_enc (ref keccak c));
       match h with Some hash => Ok (Follow hash key') | None => inline_loop fuel (rlp_enc (ref keccak c)) key' end) =
        Ok (Follow (keccak (enc keccak c0)) key'0) /\ hashed keccak c0 = true /\ plain key'0 /\ descends t (nibs key) c0 (nibs key'0)).
  { intros c key' Hk' Hd. destruct Hd as [Hwc Hcc Hsub Hget Hlt]. rewrite child_hash_ref by done. cbn [mbind outcome_bind].
    destruct (hashed keccak c) eqn:Hh; [right; by exists c, key'|].
    assert (rlp_enc (ref keccak c) = enc keccak c) as -> by (unfold ref, ref_item, hashed, enc in *; by rewrite Hh).
    destruct (IH c key' Hwc Hcc Hk' ltac:(lia)) as [->|(c0 & key0 & -> & Hh0 & Hk0 & [Hw0 Hc0 Hs0 Hg0 Hl0])]; [left; by rewrite Hget|].
    right. exists c0, key0. split_and!; try done. split; try done; [|congruence|lia].
    etrans; [exact Hs0|]. etrans; [apply below_nodes|exact Hsub]. }
  destruct t as [|k v|k t|ch v], n as [|s v'|s raw|raws v']; try done.
  - by left.
  - destruct Hn as (Hs & <- & ->). left. rewrite ns_eq_ok by apply Hs || apply Hkey. cbn [mbind outcome_bind tget].
    case_decide as Hd; [by rewrite bool_decide_eq_true_2|by rewrite bool_decide_eq_false_2].
  - destruct Hn as (Hs & Hk & ->). destruct Hw as [?|(Hne & Hbr & Hw)]; [done|]. rewrite starts_with_ok by apply Hkey || apply Hs.
    cbn [mbind outcome_bind]. rewrite Hk. cbn [tget] in Hnext |- *. unfold strip in *. case_decide as Hd.
    2: { rewrite bool_decide_eq_false_2 by done. by left. }
    rewrite bool_decide_eq_true_2 by done. rewrite ns_len_ok by apply Hs. cbn [mbind outcome_bind]. rewrite Hk.
    assert (0 <= len k <= len (nibs key)) as Hkl.
    { unfold len. split; [lia|]. apply (f_equal length) in Hd. rewrite length_take in Hd. lia. }
    assert (nibs (ns_mid key (len k)) = drop (length k) (nibs key)) as Hmid
      by (rewrite nibs_mid by done; unfold len; by rewrite Nat2Z.id).
    apply Hnext; [by apply plain_mid|]. rewrite Hmid. split; [by right|by eapply content_ext|by rewrite below_ext|cbn [tget]; unfold strip; by rewrite decide_True|].
    rewrite length_drop. destruct k; [done|]. unfold len in Hkl. cbn [length] in *. lia.
  - destruct Hn as (-> & ->). destruct Hw as [?|Hw]; [done|]. rewrite ns_is_empty_ok by apply Hkey. cbn [mbind outcome_bind].
    destruct (nibs key) as [|x q] eqn:Hq; [by left|]. rewrite bool_decide_eq_false_2 by done. rewrite (ns_at_0 key x q) by apply Hkey || done.
    cbn [mbind outcome_bind]. pose proof (nibs_nibbles key (proj1 Hkey)) as Hnib. rewrite Hq in Hnib. inversion_clear Hnib as [|? ? Hx Hqn].
    rewrite raw_child by (by apply wfn_branch in Hw as (? & _)). cbn [mbind outcome_bind].
    assert (nibs (ns_mid key 1) = q) as Hmid.
    { rewrite nibs_mid; [by rewrite Hq|done|]. rewrite Hq, len_cons. pose proof (len_nonneg q). lia. }
    assert (plain (ns_mid key 1)) as Hkey1 by (apply plain_mid; [done|]; rewrite Hq, len_cons; pose proof (len_nonneg q); lia).
    destruct (nonempty (child ch x)) eqn:Hne.
    + apply Hnext; [done|]. rewrite Hmid. split; [by eapply child_wf|by eapply content_child|by apply below_child|by rewrite <-(tget_child ch v)|cbn; lia].
    + left. rewrite tget_child. destruct (child ch x); try done. cbn [length] in Hf.
      destruct fuel as [|fuel]; [lia|]. reflexivity.
Qed.

(** ** A database with nodes of the tree, perhaps not all *)

(** Under the hash of a node there is that node or nothing. *)
Definition genuine (db : DB) (t : trie) : Prop :=
  forall e, e ∈ below keccak t -> hdb_get db (keccak e) = Some e \/ hdb_get db (keccak e) = None.
Definition stored (db : DB) (t : trie) : Prop := forall e, e ∈ below keccak t -> hdb_get db (keccak e) = Some e.

Section queries.
Context {Q I : Type} (query : Query Q I) (rec_ok : Z -> bytes -> Prop).
Hypothesis Hrec : forall q hash data depth, rec_ok hash data -> exists q', q_record query q hash data depth = Ok q'.
Hypothesis Hdec : forall q q' v, q_decode query q v = q_decode query q' v.

Lemma key_fuel_enough key : plain key -> (length (nibs key) < key_fuel key)%nat.
Proof. intros Hk. rewrite nibs_plain by done. rewrite length_drop, length_to_nibs. unfold key_fuel. lia. Qed.

Lemma look_up_loop_ok fuel db q t hash key depth :
  wf t -> content_ok (tget t) -> genuine db t -> hdb_get db hash = Some (enc keccak t) -> plain key ->
  (forall e, e ∈ below keccak t -> rec_ok (keccak e) e) -> rec_ok hash (enc keccak t) -> 0 <= depth ->
  (length (nibs key) < fuel)%nat ->
  let r := look_up_loop query fuel db q hash key depth in
  fst r = Ok (q_decode query q <$> tget t (nibs key)) \/
  exists e, e ∈ below keccak t /\ hdb_get db (keccak e) = None /\ fst r = Err (IncompleteDatabase (keccak e)).
Proof.
  revert q t hash key depth. induction fuel as [|fuel IH]; intros q t hash key depth Hw Hc Hg Hget Hkey Hre Hr Hd Hf; [lia|]. cbn [look_up_loop].
  rewrite Hget. destruct (Hrec q hash (enc keccak t) depth Hr) as [q' ->].
  destruct (inline_loop_ok (key_fuel key) t key Hw Hc Hkey (key_fuel_enough key Hkey)) as [->|(c & key' & -> & Hh & Hk' & [Hwc Hcc Hsub Hgc Hlt])].
  { left. cbn. destruct (tget t (nibs key)); [|done]. cbn. by rewrite (Hdec q q'). }
  assert (enc keccak c ∈ below keccak t) as Hin by (apply Hsub; by apply enc_in_nodes).
  assert (forall e, e ∈ below keccak c -> e ∈ below keccak t) as Hbc by (intros e He; apply Hsub; by apply below_nodes).
  destruct (Hg _ Hin) as [Hgc'|Hgn].
  - destruct (IH q' c (keccak (enc keccak c)) key' (depth + 1) Hwc Hcc) as [Hok|(e & He & Hn & Hok)]; try done; try lia.
    + intros e He. apply Hg. auto.
    + intros e He. apply Hre. auto.
    + by apply Hre.
    + left. rewrite Hok, Hgc. destruct (tget t (nibs key)); [|done]. cbn. by rewrite (Hdec q q').
    + right. exists e. by split_and!; [apply Hbc| |].
  - right. exists (enc keccak c). split_and!; [done|done|]. destruct fuel; [lia|]. cbn. rewrite Hgn.
    by rewrite (proj2 (Z.eqb_neq _ _)) by lia.
Qed.

Lemma look_up_loop_stored fuel db q t hash key depth :
  wf t -> content_ok (tget t) -> stored db t -> hdb_get db hash = Some (enc keccak t) -> plain key ->
  (forall e, e ∈ below keccak t -> rec_ok (keccak e) e) -> rec_ok hash (enc keccak t) -> 0 <= depth ->
  (length (nibs key) < fuel)%nat ->
  fst (look_up_loop query fuel db q hash key depth) = Ok (q_decode query q <$> tget t (nibs key)).
Proof.
  intros Hw Hc Hs Hget Hkey Hre Hr Hd Hf.
  destruct (look_up_loop_ok fuel db q t hash key depth Hw Hc) as [Hok|(e & He & Hn & _)]; try done.
  - intros e He. left. by apply Hs.
  - rewrite Hs in Hn by done. done.
Qed.
End queries.

Lemma look_up_value db t hash key :
  wf t -> content_ok (tget t) -> stored db t -> hdb_get db hash = Some (enc keccak t) -> plain key ->
  fst (look_up (fn_query (fun v => v)) db tt hash key) = Ok (tget t (nibs key)).
Proof.
  intros Hw Hc Hs Hget Hkey. unfold look_up.
  rewrite (look_up_loop_stored _ (fun _ _ => True)) with (t := t); try done.
  - by destruct (tget t (nibs key)).
  - intros q ? ? ? _. by exists q.
  - by apply key_fuel_enough.
Qed.
End trie.
