(* ===== verification/TrieDbMut.v ===== *)
(** * Changing a trie ([util/patricia_trie/src/triedbmut.rs], [sectriedbmut.rs])

    [TrieDBMut] keeps the nodes it has touched in an arena of slots that are
    reused; a node refers to its children by slot or, if they were not loaded
    yet, by hash.  Changes are written to the database by [commit], which also
    removes the nodes that were replaced (the [death_row]).

    The methods on [&mut self] are a state monad that keeps the state next to an
    error, as the caller can go on using the trie.  Mutual recursion is tied
    through an argument; the recursive functions take fuel. *)
From stdpp Require Import base list numbers gmap.
From S2P Require Import Prelude RlpStream RlpEncoding RlpDecode RlpImpls Account Nibbles HashDb TrieNode TrieDb.

(** ** Nodes in memory *)
Abbreviation StorageHandle := nat.

Inductive NodeHandle : Type := InMemory (h : StorageHandle) | HashHandle (hash : Z).

Inductive Node : Type :=
  | NodeEmpty
  | NodeLeaf (partial : bytes) (value : bytes)
  | NodeExtension (partial : bytes) (child : NodeHandle)
  | NodeBranch (children : list (option NodeHandle)) (value : option bytes).

Definition empty_children : list (option NodeHandle) := replicate 16 None.

Inductive Action : Type := Replace (n : Node) | Restore (n : Node) | Delete.
Inductive InsertAction : Type := InsertReplace (n : Node) | InsertRestore (n : Node).

Definition into_action (a : InsertAction) : Action :=
  match a with InsertReplace n => Replace n | InsertRestore n => Restore n end.
Definition unwrap_node (a : InsertAction) : Node := match a with InsertReplace n | InsertRestore n => n end.

Inductive Stored : Type := New (n : Node) | Cached (n : Node) (hash : Z).

(** ** The arena *)
Record NodeStorage := mkStorage { st_nodes : list Stored; free_indices : list nat }.

Definition storage_empty : NodeStorage := mkStorage [] [].

Definition alloc (self : NodeStorage) (s : Stored) : run (StorageHandle * NodeStorage) :=
  match free_indices self with
  | idx :: free =>
      if (idx <? length (st_nodes self))%nat then Ok (idx, mkStorage (<[idx := s]> (st_nodes self)) free) else Panic
  | [] => Ok (length (st_nodes self), mkStorage (st_nodes self ++ [s]) [])
  end.

Definition destroy (self : NodeStorage) (idx : StorageHandle) : run (Stored * NodeStorage) :=
  match st_nodes self !! idx with
  | Some s => Ok (s, mkStorage (<[idx := New NodeEmpty]> (st_nodes self)) (free_indices self ++ [idx]))
  | None => Panic
  end.

Definition stored_node (s : Stored) : Node := match s with New n | Cached n _ => n end.

Definition storage_index (self : NodeStorage) (h : StorageHandle) : run Node :=
  match st_nodes self !! h with Some s => Ok (stored_node s) | None => Panic end.

(** ** Loading and writing nodes *)
Definition inline_or_hash (from_rlp : bytes -> NodeStorage -> run (Node * NodeStorage)) (node : bytes) (storage : NodeStorage) :
    run (NodeHandle * NodeStorage) :=
  h ← child_hash node;
  match h with
  | Some hash => Ok (HashHandle hash, storage)
  | None =>
      '(child, storage) ← from_rlp node storage;
      '(i, storage) ← alloc storage (New child);
      Ok (InMemory i, storage)
  end.

(** [for i in 0..16 { if !child_rlp.is_empty() { children[i] = .. } }] *)
Fixpoint load_children (load : bytes -> NodeStorage -> run (NodeHandle * NodeStorage)) (raws : list bytes) (storage : NodeStorage) :
    run (list (option NodeHandle) * NodeStorage) :=
  match raws with
  | [] => Ok ([], storage)
  | raw :: raws =>
      '(c, storage) ←
        (if negb (RlpDecode.is_empty (UntrustedRlp_new raw)) then '(h, storage) ← load raw storage; Ok (Some h, storage) else Ok (None, storage));
      '(l, storage) ← load_children load raws storage;
      Ok (c :: l, storage)
  end.

Fixpoint from_rlp (fuel : nat) (rlp : bytes) (storage : NodeStorage) : run (Node * NodeStorage) :=
  match fuel with
  | O => Panic
  | S fuel' =>
      node ← Node_decoded rlp;
      match node with
      | RlpEmpty => Ok (NodeEmpty, storage)
      | RlpLeaf k v => k ← ns_encoded k true; Ok (NodeLeaf k v, storage)
      | RlpExtension key cb =>
          k ← ns_encoded key false;
          '(h, storage) ← inline_or_hash (from_rlp fuel') cb storage;
          Ok (NodeExtension k h, storage)
      | RlpBranch children_rlp val =>
          '(children, storage) ← load_children (inline_or_hash (from_rlp fuel')) children_rlp storage;
          Ok (NodeBranch children val, storage)
      end
  end.

Section into_rlp.
Context {T : Type} (child_cb : NodeHandle -> RlpStream -> T -> run (RlpStream * T)).

Fixpoint append_children (children : list (option NodeHandle)) (s : RlpStream) (t : T) : run (RlpStream * T) :=
  match children with
  | [] => Ok (s, t)
  | Some handle :: children => '(s, t) ← child_cb handle s t; append_children children s t
  | None :: children => s ← append_empty_data s; append_children children s t
  end.

Definition into_rlp (self : Node) (t : T) : run (bytes * T) :=
  match self with
  | NodeEmpty => s ← append_empty_data stream_new; b ← drain s; Ok (b, t)
  | NodeLeaf partial value =>
      s ← new_list 2;
      s ← append_bytes s partial;
      s ← append_bytes s value;
      b ← drain s; Ok (b, t)
  | NodeExtension partial child =>
      s ← new_list 2;
      s ← append_bytes s partial;
      '(s, t) ← child_cb child s t;
      b ← drain s; Ok (b, t)
  | NodeBranch children value =>
      s ← new_list 17;
      '(s, t) ← append_children children s t;
      s ← match value with Some value => append_bytes s value | None => append_empty_data s end;
      b ← drain s; Ok (b, t)
  end.
End into_rlp.

(** ** The trie *)
Section triedbmut.
Context {DB : Type} `{HashStore DB}.

Record TrieDBMut := mkTrie {
  tm_storage : NodeStorage;
  tm_db : DB;
  tm_root : Z;
  tm_root_handle : NodeHandle;
  death_row : gset Z;
  hash_count : Z;
}.

Definition with_storage_of (st : NodeStorage) (s : TrieDBMut) : TrieDBMut :=
  mkTrie st (tm_db s) (tm_root s) (tm_root_handle s) (death_row s) (hash_count s).
Definition with_death (d : gset Z) (s : TrieDBMut) : TrieDBMut :=
  mkTrie (tm_storage s) (tm_db s) (tm_root s) (tm_root_handle s) d (hash_count s).
Definition with_root_handle (h : NodeHandle) (s : TrieDBMut) : TrieDBMut :=
  mkTrie (tm_storage s) (tm_db s) (tm_root s) h (death_row s) (hash_count s).

(** *** State and errors *)
Definition M (A : Type) : Type := TrieDBMut -> outcome (TrieError * TrieDBMut) (A * TrieDBMut).

#[global] Instance M_ret : MRet M := fun A a s => Ok (a, s).
#[global] Instance M_bind : MBind M := fun A B f m s => match m s with Ok (a, s) => f a s | Err e => Err e | Panic => Panic end.

Definition pureM {A} (r : run A) : M A := fun s => a ← infallible r; Ok (a, s).
Definition panicM {A} : M A := fun _ => Panic.

Definition allocM (x : Stored) : M StorageHandle := fun s =>
  '(i, st) ← infallible (alloc (tm_storage s) x); Ok (i, with_storage_of st s).
Definition destroyM (h : StorageHandle) : M Stored := fun s =>
  '(x, st) ← infallible (destroy (tm_storage s) h); Ok (x, with_storage_of st s).
Definition killM (hash : Z) : M unit := fun s => Ok (tt, with_death ({[hash]} ∪ death_row s) s).

(** *** Construction *)
Definition TrieDBMut_new (db : DB) : TrieDBMut :=
  mkTrie storage_empty db KECCAK_NULL_RLP (HashHandle KECCAK_NULL_RLP) ∅ 0.

Definition from_existing (db : DB) (root : Z) : outcome TrieError TrieDBMut :=
  if negb (hdb_contains db root) then Err (InvalidStateRoot root)
  else Ok (mkTrie storage_empty db root (HashHandle root) ∅ 0).

(** An inline child is shorter than its parent. *)
Definition cache (hash : Z) : M StorageHandle := fun s =>
  match hdb_get (tm_db s) hash with
  | None => Err (IncompleteDatabase hash, s)
  | Some node_rlp =>
      '(node, st) ← infallible (from_rlp (S (length node_rlp)) node_rlp (tm_storage s));
      allocM (Cached node hash) (with_storage_of st s)
  end.

Definition inspect {X} (s : Stored) (inspector : Node -> M (Action * X)) : M (option (Stored * bool) * X) :=
  match s with
  | New node =>
      '(a, x) ← inspector node;
      mret (match a with
            | Restore node => Some (New node, false)
            | Replace node => Some (New node, true)
            | Delete => None
            end, x)
  | Cached node hash =>
      '(a, x) ← inspector node;
      match a with
      | Restore node => mret (Some (Cached node hash, false), x)
      | Replace node => killM hash;; mret (Some (New node, true), x)
      | Delete => killM hash;; mret (None, x)
      end
  end.

(** *** Lookup *)
Fixpoint tm_lookup (fuel : nat) (s : TrieDBMut) (partial : NibbleSlice) (handle : NodeHandle) : outcome TrieError (option bytes) :=
  match fuel with
  | O => Panic
  | S fuel' =>
      match handle with
      | HashHandle hash => fst (look_up (fn_query (fun v => v)) (tm_db s) tt hash partial)
      | InMemory h =>
          node ← infallible (storage_index (tm_storage s) h);
          match node with
          | NodeEmpty => Ok None
          | NodeLeaf key value =>
              '(key, _) ← from_encoded key;
              e ← ns_eq key partial;
              Ok (if (e : bool) then Some value else None)
          | NodeExtension slice child =>
              '(slice, _) ← from_encoded slice;
              b ← starts_with partial slice;
              if (b : bool) then mid ← ns_len slice; tm_lookup fuel' s (ns_mid partial mid) child else Ok None
          | NodeBranch children value =>
              e ← ns_is_empty partial;
              if (e : bool) then Ok value
              else
                idx ← ns_at partial 0;
                c ← index children idx;
                match c with Some child => tm_lookup fuel' s (ns_mid partial 1) child | None => Ok None end
          end
      end
  end.

(** *** Insertion *)
Definition insert_at (inspector : Node -> NibbleSlice -> bytes -> option bytes -> M (InsertAction * option bytes))
    (handle : NodeHandle) (partial : NibbleSlice) (value : bytes) (old_val : option bytes) : M (StorageHandle * bool * option bytes) :=
  h ← match handle with InMemory h => mret h | HashHandle h => cache h end;
  stored ← destroyM h;
  '(r, old_val) ← inspect stored (fun node => '(a, old_val) ← inspector node partial value old_val; mret (into_action a, old_val));
  match r with
  | None => panicM
  | Some (new_stored, changed) => i ← allocM new_stored; mret (i, changed, old_val)
  end.

(** [existing_key.at(0)] as an index, and [mid(1)] of a key. *)
Definition set_child (children : list (option NodeHandle)) (idx : Z) (c : option NodeHandle) : M (list (option NodeHandle)) :=
  pureM (index_set children idx c).

Fixpoint insert_inspector (fuel : nat) (node : Node) (partial : NibbleSlice) (value : bytes) (old_val : option bytes) :
    M (InsertAction * option bytes) :=
  match fuel with
  | O => panicM
  | S fuel' =>
      match node with
      | NodeEmpty => k ← pureM (ns_encoded partial true); mret (InsertReplace (NodeLeaf k value), old_val)
      | NodeBranch children stored_value =>
          e ← pureM (ns_is_empty partial);
          if (e : bool) then
            let unchanged := bool_decide (stored_value = Some value) in
            let branch := NodeBranch children (Some value) in
            mret (if unchanged then InsertRestore branch else InsertReplace branch, stored_value)
          else
            idx ← pureM (ns_at partial 0);
            let partial := ns_mid partial 1 in
            c ← pureM (index children idx);
            match c with
            | Some child =>
                '(new_child, changed, old_val) ← insert_at (insert_inspector fuel') child partial value old_val;
                children ← set_child children idx (Some (InMemory new_child));
                mret (if (changed : bool) then InsertReplace (NodeBranch children stored_value)
                      else InsertRestore (NodeBranch children stored_value), old_val)
            | None =>
                k ← pureM (ns_encoded partial true);
                leaf ← allocM (New (NodeLeaf k value));
                children ← set_child children idx (Some (InMemory leaf));
                mret (InsertReplace (NodeBranch children stored_value), old_val)
            end
      | NodeLeaf encoded stored_value =>
          '(existing_key, _) ← pureM (from_encoded encoded);
          cp ← pureM (common_prefix partial existing_key);
          elen ← pureM (ns_len existing_key);
          plen ← pureM (ns_len partial);
          if (cp =? elen) && (cp =? plen) then
            let unchanged := bool_decide (stored_value = value) in
            mret (if unchanged then InsertRestore (NodeLeaf encoded value) else InsertReplace (NodeLeaf encoded value), Some stored_value)
          else if cp =? 0 then
            e ← pureM (ns_is_empty existing_key);
            branch ←
              (if (e : bool) then mret (NodeBranch empty_children (Some stored_value))
               else
                 idx ← pureM (ns_at existing_key 0);
                 k ← pureM (ns_encoded (ns_mid existing_key 1) true);
                 i ← allocM (New (NodeLeaf k stored_value));
                 children ← set_child empty_children idx (Some (InMemory i));
                 mret (NodeBranch children None));
            '(a, old_val) ← insert_inspector fuel' branch partial value old_val;
            mret (InsertReplace (unwrap_node a), old_val)
          else if cp =? elen then
            let branch := NodeBranch empty_children (Some stored_value) in
            '(a, old_val) ← insert_inspector fuel' branch (ns_mid partial cp) value old_val;
            i ← allocM (New (unwrap_node a));
            k ← pureM (ns_encoded existing_key false);
            mret (InsertReplace (NodeExtension k (InMemory i)), old_val)
          else
            low_key ← pureM (ns_encoded (ns_mid existing_key cp) true);
            let low := NodeLeaf low_key stored_value in
            '(a, old_val) ← insert_inspector fuel' low (ns_mid partial cp) value old_val;
            k ← pureM (encoded_leftmost existing_key cp false);
            i ← allocM (New (unwrap_node a));
            mret (InsertReplace (NodeExtension k (InMemory i)), old_val)
      | NodeExtension encoded child_branch =>
          '(existing_key, _) ← pureM (from_encoded encoded);
          cp ← pureM (common_prefix partial existing_key);
          elen ← pureM (ns_len existing_key);
          if cp =? 0 then
            e ← pureM (ns_is_empty existing_key);
            if (e : bool) then panicM
            else
              idx ← pureM (ns_at existing_key 0);
              c ← (if elen =? 1 then mret child_branch
                   else
                     k ← pureM (ns_encoded (ns_mid existing_key 1) false);
                     i ← allocM (New (NodeExtension k child_branch));
                     mret (InMemory i));
              children ← set_child empty_children idx (Some c);
              '(a, old_val) ← insert_inspector fuel' (NodeBranch children None) partial value old_val;
              mret (InsertReplace (unwrap_node a), old_val)
          else if cp =? elen then
            '(new_child, changed, old_val) ← insert_at (insert_inspector fuel') child_branch (ns_mid partial cp) value old_val;
            k ← pureM (ns_encoded existing_key false);
            let new_ext := NodeExtension k (InMemory new_child) in
            mret (if (changed : bool) then InsertReplace new_ext else InsertRestore new_ext, old_val)
          else
            low_key ← pureM (ns_encoded (ns_mid existing_key cp) false);
            let low := NodeExtension low_key child_branch in
            '(a, old_val) ← insert_inspector fuel' low (ns_mid partial cp) value old_val;
            k ← pureM (encoded_leftmost existing_key cp false);
            i ← allocM (New (unwrap_node a));
            mret (InsertReplace (NodeExtension k (InMemory i)), old_val)
      end
  end.

(** *** Removal *)
Inductive UsedIndex : Type := UsedNone | UsedOne (i : Z) | UsedMany.

Fixpoint used_index_loop (children : list (option NodeHandle)) (i : Z) (used : UsedIndex) : UsedIndex :=
  match children with
  | [] => used
  | c :: children =>
      match c, used with
      | Some _, UsedNone => used_index_loop children (i + 1) (UsedOne i)
      | Some _, UsedOne _ => UsedMany
      | _, _ => used_index_loop children (i + 1) used
      end
  end.

(** [match handle { InMemory(h) => destroy(h), Hash(h) => destroy(cache(h)?) }] *)
Definition take_node (handle : NodeHandle) : M Stored :=
  match handle with
  | InMemory h => destroyM h
  | HashHandle h => handle ← cache h; destroyM handle
  end.

Fixpoint fix_node (fuel : nat) (node : Node) : M Node :=
  match fuel with
  | O => panicM
  | S fuel' =>
      match node with
      | NodeBranch children value =>
          match used_index_loop children 0 UsedNone, value with
          | UsedNone, None => panicM
          | UsedOne a, None =>
              new_partial ← pureM (ns_encoded (ns_new_offset [a] 1) false);
              c ← pureM (index children a);
              match c with
              | Some child => fix_node fuel' (NodeExtension new_partial child)
              | None => panicM
              end
          | UsedNone, Some value =>
              k ← pureM (ns_encoded (ns_new []) true); mret (NodeLeaf k value)
          | _, value => mret (NodeBranch children value)
          end
      | NodeExtension partial child =>
          stored ← take_node child;
          let '(child_node, maybe_hash) := match stored with New node => (node, None) | Cached node hash => (node, Some hash) end in
          match child_node with
          | NodeExtension sub_partial sub_child =>
              match maybe_hash with Some hash => killM hash | None => mret tt end;;
              '(partial, _) ← pureM (from_encoded partial);
              '(sub_partial, _) ← pureM (from_encoded sub_partial);
              k ← pureM (ns_encoded (ns_new_composed partial sub_partial) false);
              fix_node fuel' (NodeExtension k sub_child)
          | NodeLeaf sub_partial value =>
              match maybe_hash with Some hash => killM hash | None => mret tt end;;
              '(partial, _) ← pureM (from_encoded partial);
              '(sub_partial, _) ← pureM (from_encoded sub_partial);
              k ← pureM (ns_encoded (ns_new_composed partial sub_partial) true);
              mret (NodeLeaf k value)
          | child_node =>
              i ← allocM (match maybe_hash with Some hash => Cached child_node hash | None => New child_node end);
              mret (NodeExtension partial (InMemory i))
          end
      | other => mret other
      end
  end.

Definition remove_at (inspector : Node -> NibbleSlice -> option bytes -> M (Action * option bytes))
    (handle : NodeHandle) (partial : NibbleSlice) (old_val : option bytes) : M (option (StorageHandle * bool) * option bytes) :=
  stored ← take_node handle;
  '(opt, old_val) ← inspect stored (fun node => inspector node partial old_val);
  match opt with
  | Some (new, changed) => i ← allocM new; mret (Some (i, changed), old_val)
  | None => mret (None, old_val)
  end.

Fixpoint remove_inspector (fuel : nat) (node : Node) (partial : NibbleSlice) (old_val : option bytes) : M (Action * option bytes) :=
  match fuel with
  | O => panicM
  | S fuel' =>
      e ← pureM (ns_is_empty partial);
      match node, (e : bool) with
      | NodeEmpty, _ => mret (Delete, old_val)
      | NodeBranch c None, true => mret (Restore (NodeBranch c None), old_val)
      | NodeBranch children (Some val), true =>
          n ← fix_node fuel' (NodeBranch children None); mret (Replace n, Some val)
      | NodeBranch children value, false =>
          idx ← pureM (ns_at partial 0);
          c ← pureM (index children idx);
          match c with
          | Some child =>
              children ← set_child children idx None;
              '(r, old_val) ← remove_at (remove_inspector fuel') child (ns_mid partial 1) old_val;
              match r with
              | Some (new, changed) =>
                  children ← set_child children idx (Some (InMemory new));
                  let branch := NodeBranch children value in
                  mret (if (changed : bool) then Replace branch else Restore branch, old_val)
              | None => n ← fix_node fuel' (NodeBranch children value); mret (Replace n, old_val)
              end
          | None => mret (Restore (NodeBranch children value), old_val)
          end
      | NodeLeaf encoded value, _ =>
          '(key, _) ← pureM (from_encoded encoded);
          same ← pureM (ns_eq key partial);
          if (same : bool) then mret (Delete, Some value) else mret (Restore (NodeLeaf encoded value), old_val)
      | NodeExtension encoded child_branch, _ =>
          '(existing_key, _) ← pureM (from_encoded encoded);
          cp ← pureM (common_prefix existing_key partial);
          existing_len ← pureM (ns_len existing_key);
          if cp =? existing_len then
            '(r, old_val) ← remove_at (remove_inspector fuel') child_branch (ns_mid partial cp) old_val;
            match r with
            | Some (new_child, changed) =>
                if (changed : bool) then n ← fix_node fuel' (NodeExtension encoded (InMemory new_child)); mret (Replace n, old_val)
                else mret (Restore (NodeExtension encoded (InMemory new_child)), old_val)
            | None => mret (Delete, old_val)
            end
          else mret (Restore (NodeExtension encoded child_branch), old_val)
      end
  end.

(** *** Committing *)
Definition append_hash (s : RlpStream) (h : Z) : run RlpStream := @append _ h256_Encodable s h.

(** Inserts a node and counts it. *)
Definition insert_node (node_rlp : bytes) (t : TrieDBMut) : run (Z * TrieDBMut) :=
  '(hash, db) ← hdb_insert (tm_db t) node_rlp;
  Ok (hash, mkTrie (tm_storage t) db (tm_root t) (tm_root_handle t) (death_row t) (hash_count t + 1)).

Fixpoint commit_node (fuel : nat) (handle : NodeHandle) (s : RlpStream) (t : TrieDBMut) : run (RlpStream * TrieDBMut) :=
  match fuel with
  | O => Panic
  | S fuel' =>
      match handle with
      | HashHandle h => s ← append_hash s h; Ok (s, t)
      | InMemory h =>
          '(x, st) ← destroy (tm_storage t) h;
          let t := with_storage_of st t in
          match x with
          | Cached _ h => s ← append_hash s h; Ok (s, t)
          | New node =>
              '(node_rlp, t) ← into_rlp (commit_node fuel') node t;
              if 32 <=? len node_rlp then
                '(hash, t) ← insert_node node_rlp t;
                s ← append_hash s hash; Ok (s, t)
              else s ← append_raw s node_rlp 1; Ok (s, t)
          end
      end
  end.

Definition kill_all (db : DB) (hashes : list Z) : run DB := foldl (fun db h => db ← db; hdb_remove db h) (Ok db) hashes.

Definition commit (t : TrieDBMut) : run TrieDBMut :=
  db ← kill_all (tm_db t) (base.elements (death_row t));
  let t := mkTrie (tm_storage t) db (tm_root t) (tm_root_handle t) ∅ (hash_count t) in
  match tm_root_handle t with
  | HashHandle _ => Ok t
  | InMemory h =>
      '(x, st) ← destroy (tm_storage t) h;
      let t := with_storage_of st t in
      match x with
      | New node =>
          '(root_rlp, t) ← into_rlp (commit_node (S (length (st_nodes st)))) node t;
          '(root, t) ← insert_node root_rlp t;
          Ok (mkTrie (tm_storage t) (tm_db t) root (HashHandle root) (death_row t) (hash_count t))
      | Cached node hash =>
          '(i, st) ← alloc (tm_storage t) (Cached node hash);
          Ok (mkTrie st (tm_db t) hash (InMemory i) (death_row t) (hash_count t))
      end
  end.

(** ** [TrieMut] *)
Definition tm_root_op (t : TrieDBMut) : run (Z * TrieDBMut) := t ← commit t; Ok (tm_root t, t).

Definition tm_is_empty (t : TrieDBMut) : run bool :=
  match tm_root_handle t with
  | HashHandle h => Ok (h =? KECCAK_NULL_RLP)
  | InMemory h => n ← storage_index (tm_storage t) h; Ok (match n with NodeEmpty => true | _ => false end)
  end.

(** Enough rounds for a key: at most three calls per nibble. *)
Definition op_fuel (key : bytes) : nat := (8 * length key + 12)%nat.

Definition tm_get (t : TrieDBMut) (key : bytes) : outcome TrieError (option bytes) :=
  tm_lookup (op_fuel key) t (ns_new key) (tm_root_handle t).

Definition tm_contains (t : TrieDBMut) (key : bytes) : outcome TrieError bool :=
  x ← tm_get t key; Ok (bool_decide (is_Some x)).

Definition set_root (h : NodeHandle) : M unit := fun t => Ok (tt, with_root_handle h t).
Definition obliterate : M unit := fun t =>
  Ok (tt, mkTrie (tm_storage t) (tm_db t) KECCAK_NULL_RLP (HashHandle KECCAK_NULL_RLP) (death_row t) (hash_count t)).

Definition tm_remove (key : bytes) : M (option bytes) := fun t =>
  ('(r, old_val) ← remove_at (remove_inspector (op_fuel key)) (tm_root_handle t) (ns_new key) None;
   match r with Some (handle, changed) => set_root (InMemory handle) | None => obliterate end;;
   mret old_val) t.

Definition tm_insert (key value : bytes) : M (option bytes) := fun t =>
  if len value =? 0 then tm_remove key t
  else
    ('(new_handle, changed, old_val) ← insert_at (insert_inspector (op_fuel key)) (tm_root_handle t) (ns_new key) value None;
     set_root (InMemory new_handle);;
     mret old_val) t.

(** [Drop] *)
Definition tm_drop (t : TrieDBMut) : run TrieDBMut := commit t.
End triedbmut.
Arguments TrieDBMut : clear implicits.

(** ** [SecTrieDBMut]: the same with hashed keys *)
Section sec.
Context {DB : Type} `{HashStore DB} (keccak : bytes -> Z).
Definition sec_key (key : bytes) : bytes := Z_to_be 32 (keccak key).
Definition stm_get (t : TrieDBMut DB) (key : bytes) : outcome TrieError (option bytes) := tm_get t (sec_key key).
Definition stm_contains (t : TrieDBMut DB) (key : bytes) : outcome TrieError bool := tm_contains t (sec_key key).
Definition stm_insert (key value : bytes) : M (option bytes) := tm_insert (DB := DB) (sec_key key) value.
Definition stm_remove (key : bytes) : M (option bytes) := tm_remove (DB := DB) (sec_key key).
End sec.
