(* ===== verification/TrieRep.v ===== *)
(** * What the arena of a trie stands for

    [rep_h m N h t]: the slots [m] of the arena, and the references to the
    database counted by [N], make up the tree [t] behind the handle [h].  The
    slots are exactly those in use for [t], so that trees with disjoint slots do
    not affect each other. *)
From stdpp Require Import base list numbers gmap gmultiset.
From S2P Require Import Prelude RlpStream RlpEncoding RlpDecode RlpViews RlpImpls Account Nibbles HashDb Trie TrieNode TrieDb TrieDbMut.

(** ** The arena as a finite map *)
Definition models (st : NodeStorage) (σ : gmap nat Stored) : Prop :=
  NoDup (free_indices st) /\ Forall (fun i => (i < length (st_nodes st))%nat) (free_indices st) /\
  forall i, σ !! i = if decide (i ∈ free_indices st) then None else st_nodes st !! i.

Lemma models_empty : models storage_empty ∅.
Proof. split_and!; [constructor|constructor|]. intros i. rewrite lookup_empty. by case_decide. Qed.

Lemma alloc_ok st σ x : models st σ -> exists i st', alloc st x = Ok (i, st') /\ σ !! i = None /\ models st' (<[i := x]> σ).
Proof.
  intros (Hnd & Hr & Hl). unfold alloc. destruct (free_indices st) as [|idx free] eqn:Hf.
  - eexists _, _. split; [reflexivity|]. split.
    + rewrite Hl. rewrite decide_False by set_solver. by apply lookup_ge_None_2.
    + split_and!; cbn; [constructor|constructor|]. intros i. rewrite decide_False by set_solver.
      destruct (decide (i = length (st_nodes st))) as [->|Hi]; [by rewrite lookup_insert_eq, list_lookup_middle|].
      rewrite lookup_insert_ne, Hl, decide_False by (done || set_solver).
      destruct (decide (i < length (st_nodes st))%nat); [by rewrite lookup_app_l|].
      rewrite !lookup_ge_None_2; [done|rewrite length_app; cbn; lia|lia].
  - apply Forall_cons_iff in Hr as [Hi Hr]. apply list.NoDup_cons in Hnd as [Hnin Hnd]. rewrite (proj2 (Nat.ltb_lt _ _)) by done.
    eexists _, _. split; [reflexivity|]. split; [rewrite Hl; by rewrite decide_True by set_solver|].
    split_and!; cbn; [done|by rewrite length_insert|]. intros i. destruct (decide (i = idx)) as [->|Hne].
    + by rewrite lookup_insert_eq, decide_False, list_lookup_insert_eq.
    + rewrite lookup_insert_ne, list_lookup_insert_ne by done. rewrite Hl. repeat case_decide; set_solver.
Qed.

Lemma destroy_ok st σ i x : models st σ -> σ !! i = Some x -> exists st', destroy st i = Ok (x, st') /\ models st' (delete i σ).
Proof.
  intros (Hnd & Hr & Hl) Hi. rewrite Hl in Hi. case_decide as Hf; [done|]. unfold destroy. rewrite Hi. eexists; split; [reflexivity|].
  apply lookup_lt_Some in Hi as Hlt. split_and!; cbn.
  - apply list.NoDup_app. split_and!; [done|set_solver|]. apply NoDup_singleton.
  - rewrite length_insert. apply Forall_app_2; [done|]. by constructor.
  - intros j. destruct (decide (j = i)) as [->|Hne]; [by rewrite lookup_delete_eq, decide_True by set_solver|].
    rewrite lookup_delete_ne, list_lookup_insert_ne, Hl by done. repeat case_decide; set_solver.
Qed.

Lemma storage_index_ok st σ i x : models st σ -> σ !! i = Some x -> storage_index st i = Ok (stored_node x).
Proof. intros (_ & _ & Hl) Hi. rewrite Hl in Hi. case_decide; [done|]. unfold storage_index. by rewrite Hi. Qed.

(** A lookup below a frame. *)
Lemma models_live st σ i : models st σ -> is_Some (σ !! i) -> (i < length (st_nodes st))%nat.
Proof. intros (_ & _ & Hl) [x Hi]. rewrite Hl in Hi. case_decide; [done|]. by apply lookup_lt_Some in Hi. Qed.

Lemma models_size st σ : models st σ -> (size σ <= length (st_nodes st))%nat.
Proof.
  intros Hm. assert (dom σ ⊆ set_seq 0 (length (st_nodes st))) as Hd.
  { intros i Hi. apply elem_of_set_seq. apply elem_of_dom in Hi. pose proof (models_live _ _ _ Hm Hi). lia. }
  apply subseteq_size in Hd. rewrite size_dom, size_set_seq in Hd. done.
Qed.

(** ** Representation *)
Section rep.
Context (keccak : bytes -> Z) (known : bytes -> Prop).

(** The references a tree makes to the database if it was written to it. *)
Definition keys_of (l : list bytes) : gmultiset Z := list_to_set_disj (map keccak l).

(** At the top of the trie a short node is stored under its hash as well. *)
Inductive rep_h : bool -> gmap nat Stored -> gmultiset Z -> NodeHandle -> trie -> Prop :=
  | rep_hash top t : top || hashed keccak t = true -> known (enc keccak t) -> Forall known (below keccak t) ->
      rep_h top ∅ ({[+ keccak (enc keccak t) +]} ⊎ keys_of (below keccak t)) (HashHandle (keccak (enc keccak t))) t
  | rep_new top i n t m N : m !! i = None -> rep_n m N n t -> rep_h top (<[i := New n]> m) N (InMemory i) t
  | rep_cached top i n t m : m !! i = None -> rep_n m (keys_of (below keccak t)) n t -> top || hashed keccak t = true ->
      known (enc keccak t) ->
      rep_h top (<[i := Cached n (keccak (enc keccak t))]> m) ({[+ keccak (enc keccak t) +]} ⊎ keys_of (below keccak t)) (InMemory i) t
with rep_n : gmap nat Stored -> gmultiset Z -> Node -> trie -> Prop :=
  | rn_empty : rep_n ∅ ∅ NodeEmpty TEmpty
  | rn_leaf k v : rep_n ∅ ∅ (NodeLeaf (hp k true) v) (TLeaf k v)
  | rn_ext m N k h t : rep_h false m N h t -> rep_n m N (NodeExtension (hp k false) h) (TExt k t)
  | rn_branch m N hs ts v : rep_c m N hs ts -> rep_n m N (NodeBranch hs v) (TBranch ts v)
with rep_c : gmap nat Stored -> gmultiset Z -> list (option NodeHandle) -> list trie -> Prop :=
  | rc_nil : rep_c ∅ ∅ [] []
  | rc_none m N hs ts : rep_c m N hs ts -> rep_c m N (None :: hs) (TEmpty :: ts)
  | rc_some m1 m2 N1 N2 h t hs ts : m1 ##ₘ m2 -> rep_h false m1 N1 h t -> nonempty t = true -> rep_c m2 N2 hs ts ->
      rep_c (m1 ∪ m2) (N1 ⊎ N2) (Some h :: hs) (t :: ts).

(** *** Children *)
Lemma rep_c_length m N hs ts : rep_c m N hs ts -> length hs = length ts.
Proof. induction 1; cbn; lia. Qed.

(** A child that is there, taken out. *)
Lemma rep_c_take m N hs ts i h :
  rep_c m N hs ts -> hs !! i = Some (Some h) ->
  exists t m1 m2 N1 N2, ts !! i = Some t /\ nonempty t = true /\ m = m1 ∪ m2 /\ m1 ##ₘ m2 /\ N = N1 ⊎ N2 /\ rep_h false m1 N1 h t /\
    rep_c m2 N2 (<[i := None]> hs) (<[i := TEmpty]> ts).
Proof.
  intros Hr. revert i. induction Hr as [|m N hs ts Hr IH|m1 m2 N1 N2 h' t hs ts Hd Hh Hne Hr IH]; intros [|i] Hi; try done; cbn in Hi.
  - destruct (IH i Hi) as (t & m1 & m2 & N1 & N2 & Ht & Hn & -> & Hd & -> & Hh & Hc).
    exists t, m1, m2, N1, N2. split_and!; try done. cbn. by constructor.
  - injection Hi as ->. exists t, m1, m2, N1, N2. split_and!; try done. cbn. by constructor.
  - destruct (IH i Hi) as (t' & m1' & m2' & N1' & N2' & Ht & Hn & -> & Hd' & -> & Hh' & Hc).
    apply map_disjoint_union_r in Hd as [Hd1 Hd2].
    exists t', m1', (m1 ∪ m2'), N1', (N1 ⊎ N2'). split_and!; try done.
    + rewrite !(map_union_assoc). f_equal. by apply map_union_comm.
    + apply map_disjoint_union_r. split; [done|done].
    + multiset_solver.
    + cbn. by constructor.
Qed.

(** A child put where there was none. *)
Lemma rep_c_put m N hs ts i h t m1 N1 :
  rep_c m N hs ts -> hs !! i = Some None -> rep_h false m1 N1 h t -> nonempty t = true -> m1 ##ₘ m ->
  rep_c (m1 ∪ m) (N1 ⊎ N) (<[i := Some h]> hs) (<[i := t]> ts).
Proof.
  intros Hr. revert i. induction Hr as [|m N hs ts Hr IH|m2 m3 N2 N3 h' t' hs ts Hd Hh Hne Hr IH]; intros [|i] Hi Hh1 Hne1 Hd1; try done; cbn in *.
  - by constructor.
  - constructor. by apply IH.
  - apply map_disjoint_union_r in Hd1 as [Hd2 Hd3].
    replace (m1 ∪ (m2 ∪ m3)) with (m2 ∪ (m1 ∪ m3)) by (rewrite !map_union_assoc; f_equal; by apply map_union_comm).
    replace (N1 ⊎ (N2 ⊎ N3)) with (N2 ⊎ (N1 ⊎ N3)) by multiset_solver.
    constructor; [|done|done|by apply IH]. apply map_disjoint_union_r. split; [done|done].
Qed.

Lemma rep_c_none m N hs ts i : rep_c m N hs ts -> hs !! i = Some None -> ts !! i = Some TEmpty.
Proof. intros Hr. revert i. induction Hr; intros [|i] Hi; try done; cbn in *; auto. Qed.

Lemma rep_c_empty : rep_c ∅ ∅ empty_children empties.
Proof. unfold empty_children, empties. by repeat constructor. Qed.

Lemma rep_h_top top m N h t : rep_h false m N h t -> rep_h top m N h t.
Proof.
  inversion 1 as [? ? Hh ? ?|? ? ? ? ? ? ? ?|? ? ? ? ? ? ? Hh ?]; subst.
  - constructor; try done. cbn in Hh. rewrite Hh. apply orb_true_r.
  - by constructor.
  - constructor; try done. cbn in Hh. rewrite Hh. apply orb_true_r.
Qed.

(** Slots of a handle. *)
Lemma rep_h_slots top m N i t : rep_h top m N (InMemory i) t -> exists x m', m = <[i := x]> m' /\ m' !! i = None.
Proof. inversion 1; subst; eauto. Qed.
End rep.

(** ** The hash function and the database

    [known] collects the byte strings that are ever hashed; among them there is
    no collision. *)
Record hash_ok (keccak : bytes -> Z) (known : bytes -> Prop) : Prop := {
  ho_word b : in_u 256 (keccak b);
  ho_null : keccak NULL_RLP = KECCAK_NULL_RLP;
  ho_known : known NULL_RLP;
  ho_inj a b : known a -> known b -> keccak a = keccak b -> a = b;
}.

Section db.
Context {DB : Type} {H : HashStore DB} (keccak : bytes -> Z) {L : HashStoreLaws DB H keccak} (known : bytes -> Prop).
Context (Hh : hash_ok keccak known).

Abbreviation rep_h := (rep_h keccak known).
Abbreviation rep_n := (rep_n keccak known).
Abbreviation rep_c := (rep_c keccak known).
Abbreviation enc := (enc keccak).
Abbreviation hashed := (hashed keccak).
Abbreviation below := (below keccak).
Abbreviation nodes := (nodes keccak).
Abbreviation keys_of := (keys_of keccak).

Record db_ok (d : DB) : Prop := {
  do_ok : hdb_ok d;
  do_known h v : hdb_get d h = Some v -> known v;
}.

(** Every reference, and every removal that is still to be done, is backed by
    a count. *)
Definition owed (N : gmultiset Z) (D : gset Z) (x : Z) : Z := Z.of_nat (multiplicity x N) + (if decide (x ∈ D) then 1 else 0).
Definition covered (d : DB) (N : gmultiset Z) (D : gset Z) : Prop := forall x, x <> KECCAK_NULL_RLP -> owed N D x <= hdb_refs d x.

Lemma covered_mono d N1 N2 D : covered d (N1 ⊎ N2) D -> covered d N1 D.
Proof. intros Hc x Hx. specialize (Hc x Hx). unfold owed in *. rewrite multiplicity_disj_union in Hc. lia. Qed.

Lemma covered_mono_r d N1 N2 D : covered d (N1 ⊎ N2) D -> covered d N2 D.
Proof. intros Hc x Hx. specialize (Hc x Hx). unfold owed in *. rewrite multiplicity_disj_union in Hc. lia. Qed.

Lemma covered_le d N N' D D' : covered d N D -> (forall x, owed N' D' x <= owed N D x) -> covered d N' D'.
Proof. intros Hc Hl x Hx. specialize (Hl x). specialize (Hc x Hx). lia. Qed.

Lemma fetch d N D b : db_ok d -> covered d N D -> keccak b ∈ N -> known b -> hdb_get d (keccak b) = Some b.
Proof.
  intros [Hd Hk] Hc Hin Hb. destruct (decide (keccak b = KECCAK_NULL_RLP)) as [Hn|Hn].
  - rewrite Hn, hl_null by done. f_equal. symmetry. apply (ho_inj _ _ Hh); [done|apply (ho_known _ _ Hh)|]. by rewrite (ho_null _ _ Hh).
  - specialize (Hc _ Hn). unfold owed in Hc. apply (proj1 (elem_of_multiplicity _ _)) in Hin.
    destruct (proj2 (hl_refs d (keccak b) Hd Hn)) as [v Hv]; [case_decide; lia|]. rewrite Hv. f_equal.
    apply (ho_inj _ _ Hh); [by eapply Hk|done|]. by apply (hl_get d).
Qed.

Lemma keys_of_app a b : keys_of (a ++ b) = keys_of a ⊎ keys_of b.
Proof. unfold TrieRep.keys_of. by rewrite map_app, list_to_set_disj_app. Qed.

Lemma keys_of_cons a l : keys_of (a :: l) = {[+ keccak a +]} ⊎ keys_of l.
Proof. done. Qed.

Lemma elem_of_keys_of e l : e ∈ l -> keccak e ∈ keys_of l.
Proof. intros He. apply elem_of_list_to_set_disj. apply list_elem_of_fmap. by exists e. Qed.

Lemma stored_covered d N D t : db_ok d -> covered d N D -> keys_of (below t) ⊆ N -> Forall known (below t) -> stored keccak d t.
Proof.
  intros Hd Hc Hs Hk e He. eapply fetch; [done|done| |by apply (proj1 (list.Forall_forall _ _) Hk)].
  eapply gmultiset_elem_of_subseteq; [|exact Hs]. by apply elem_of_keys_of.
Qed.

(** ** Loading a node *)
Lemma rlp_enc_item_lt it l : it ∈ l -> (length (rlp_enc it) < length (rlp_enc (List l)))%nat.
Proof.
  intros Hin. cbn [rlp_enc]. rewrite length_app. assert (length (rlp_enc it) <= length (concat (map rlp_enc l)))%nat.
  { induction l as [|x l IH]; [by apply not_elem_of_nil in Hin|]. cbn. rewrite length_app. apply elem_of_cons in Hin as [->|Hin]; [lia|].
    specialize (IH Hin). lia. }
  assert (0 < length (header 0xc0 0xf7 (len (concat (map rlp_enc l)))))%nat; [|lia]. unfold header. case_match; cbn; lia.
Qed.

Lemma ref_inline t : hashed t = false -> ref keccak t = node_item keccak t.
Proof. intros Hf. unfold ref, ref_item. unfold TrieNode.hashed, TrieNode.enc in Hf. by rewrite Hf. Qed.

Lemma inline_shorter_ext k t : hashed t = false -> (length (enc t) < length (enc (TExt k t)))%nat.
Proof.
  intros Hf. unfold TrieNode.enc. cbn [node_item]. apply rlp_enc_item_lt. change (ref_item keccak (node_item keccak t)) with (ref keccak t).
  rewrite ref_inline by done. set_solver.
Qed.

Lemma inline_shorter_branch ch v t : t ∈ ch -> hashed t = false -> (length (enc t) < length (enc (TBranch ch v)))%nat.
Proof.
  intros Hin Hf. unfold TrieNode.enc. cbn [node_item]. apply rlp_enc_item_lt. apply elem_of_app. left. rewrite <-ref_inline by done. apply list_elem_of_fmap. by exists t.
Qed.

Lemma inline_or_hash_ok fuel c st σ :
  wf c -> content_ok (tget c) -> Forall known (nodes c) -> models st σ ->
  (hashed c = false -> exists n st' m, from_rlp fuel (enc c) st = Ok (n, st') /\ m ##ₘ σ /\ models st' (m ∪ σ) /\ rep_n m (keys_of (below c)) n c) ->
  exists h st' m, inline_or_hash (from_rlp fuel) (rlp_enc (ref keccak c)) st = Ok (h, st') /\ m ##ₘ σ /\ models st' (m ∪ σ) /\
    rep_h false m (keys_of (nodes c)) h c.
Proof.
  intros Hw Hc Hk Hm Hload. unfold inline_or_hash. rewrite child_hash_ref by (done || apply Hh). cbn [mbind outcome_bind].
  unfold TrieNode.nodes in *. destruct (hashed c) eqn:Hhs.
  - eexists _, st, ∅. split; [reflexivity|]. split_and!; [apply map_disjoint_empty_l|by rewrite map_empty_union|].
    apply Forall_cons_iff in Hk as [Hk1 Hk2]. by constructor.
  - destruct (Hload eq_refl) as (n & st' & m & He & Hd & Hm' & Hr). rewrite ref_inline by done. fold (enc c). rewrite He. cbn [mbind outcome_bind].
    destruct (alloc_ok _ _ (New n) Hm') as (i & st'' & -> & Hi & Hm''). cbn [mbind outcome_bind].
    apply lookup_union_None in Hi as [Hi1 Hi2]. eexists _, _, (<[i := New n]> m). split; [reflexivity|].
    split_and!; [by apply map_disjoint_insert_l|by rewrite <-insert_union_l|]. by constructor.
Qed.

Lemma load_children_ok fuel ch st σ :
  Forall wf ch -> Forall (fun c => content_ok (tget c)) ch -> Forall known (concat (map nodes ch)) -> models st σ ->
  (forall c st σ, c ∈ ch -> wf c -> content_ok (tget c) -> Forall known (below c) -> models st σ -> hashed c = false ->
    exists n st' m, from_rlp fuel (enc c) st = Ok (n, st') /\ m ##ₘ σ /\ models st' (m ∪ σ) /\ rep_n m (keys_of (below c)) n c) ->
  exists hs st' m, load_children (inline_or_hash (from_rlp fuel)) (map (fun c => rlp_enc (ref keccak c)) ch) st = Ok (hs, st') /\
    m ##ₘ σ /\ models st' (m ∪ σ) /\ rep_c m (keys_of (concat (map nodes ch))) hs ch.
Proof.
  intros Hw. revert st σ. induction Hw as [|c ch Hwc Hw IH]; intros st σ Hc Hk Hm Hload; cbn [map concat load_children].
  { eexists [], st, ∅. split; [reflexivity|]. split_and!; [apply map_disjoint_empty_l|by rewrite map_empty_union|constructor]. }
  apply Forall_cons_iff in Hc as [Hcc Hc]. cbn [map concat] in Hk. apply Forall_app in Hk as [Hkc Hk].
  rewrite ref_empty by (done || apply Hh). rewrite negb_involutive. rewrite keys_of_app.
  destruct (nonempty c) eqn:Hne.
  - destruct (inline_or_hash_ok fuel c st σ Hwc Hcc Hkc Hm) as (h & st1 & m1 & -> & Hd1 & Hm1 & Hr1).
    { intros Hf. apply Hload; try done; [set_solver|]. unfold TrieNode.nodes in Hkc. by rewrite Hf in Hkc. }
    cbn [mbind outcome_bind]. destruct (IH st1 (m1 ∪ σ) Hc Hk Hm1) as (hs & st2 & m2 & -> & Hd2 & Hm2 & Hr2).
    { intros. apply Hload; try done. set_solver. }
    cbn [mbind outcome_bind]. apply map_disjoint_union_r in Hd2 as [Hd2 Hd2'].
    eexists _, _, (m1 ∪ m2). split; [reflexivity|]. split_and!.
    + apply map_disjoint_union_l. done.
    + rewrite (map_union_comm m1 m2) by done. by rewrite <-map_union_assoc.
    + by constructor.
  - assert (c = TEmpty) as -> by (by destruct c). cbn [mbind outcome_bind].
    destruct (IH st σ Hc Hk Hm) as (hs & st2 & m2 & -> & Hd2 & Hm2 & Hr2).
    { intros. apply Hload; try done. set_solver. }
    eexists _, _, m2. split; [reflexivity|]. split_and!; [done|done|].
    change (keys_of (nodes TEmpty)) with (∅ : gmultiset Z). rewrite (left_id_L ∅ (⊎)). by constructor.
Qed.

Lemma node_from_rlp_ok fuel t st σ :
  wf t -> content_ok (tget t) -> Forall known (below t) -> (length (enc t) < fuel)%nat -> models st σ ->
  exists n st' m, from_rlp fuel (enc t) st = Ok (n, st') /\ m ##ₘ σ /\ models st' (m ∪ σ) /\ rep_n m (keys_of (below t)) n t.
Proof.
  revert t st σ. induction fuel as [|fuel IH]; intros t st σ Hw Hc Hk Hf Hm; [lia|]. cbn [from_rlp].
  destruct (Node_decoded_ok keccak t Hw Hc) as (n & -> & Hn). cbn [mbind outcome_bind].
  destruct t as [|k v|k t|ch v], n as [|s v'|s raw|raws v']; try done.
  - eexists _, st, ∅. split; [reflexivity|]. split_and!; [apply map_disjoint_empty_l|by rewrite map_empty_union|constructor].
  - destruct Hn as ([Hs _] & <- & ->). rewrite ns_encoded_ok by done. cbn [mbind outcome_bind].
    eexists _, st, ∅. split; [reflexivity|]. split_and!; [apply map_disjoint_empty_l|by rewrite map_empty_union|constructor].
  - destruct Hn as ([Hs _] & <- & ->). destruct Hw as [?|(_ & _ & Hw)]; [done|]. rewrite ns_encoded_ok by done. cbn [mbind outcome_bind].
    destruct (inline_or_hash_ok fuel t st σ) as (h & st' & m & -> & Hd & Hm' & Hr); [by right|by eapply content_ext|done|done| |].
    { intros Hhs. pose proof (inline_shorter_ext (nibs s) t Hhs). rewrite below_ext in Hk.
      apply IH; [by right|by eapply content_ext| |lia|done]. unfold TrieNode.nodes in Hk. by rewrite Hhs in Hk. }
    cbn [mbind outcome_bind]. eexists _, _, m. split; [reflexivity|]. split_and!; [done|done|]. by constructor.
  - destruct Hn as (-> & ->). destruct Hw as [?|(Hl & Hfw & _)%wfn_branch]; [done|].
    destruct (load_children_ok fuel ch st σ) as (hs & st' & m & -> & Hd & Hm' & Hr); try done.
    { apply Forall_lookup_2. intros i c Hi. apply (content_child ch v (Z.of_nat i)) in Hc. unfold child in Hc.
      by rewrite (proj2 (Z.leb_le _ _)), Nat2Z.id, Hi in Hc by lia. }
    { intros c st1 σ1 Hin Hwc Hcc Hkc Hm1 Hhs. pose proof (inline_shorter_branch ch v c Hin Hhs). apply IH; try done. lia. }
    cbn [mbind outcome_bind]. eexists _, _, m. split; [reflexivity|]. split_and!; [done|done|]. by constructor.
Qed.

(** ** States *)

(** What the operations on the arena leave alone. *)
Record same (s s' : TrieDBMut DB) : Prop := {
  sa_db : tm_db s' = tm_db s;
  sa_root : tm_root s' = tm_root s;
  sa_handle : tm_root_handle s' = tm_root_handle s;
  sa_count : hash_count s' = hash_count s;
}.

Lemma same_refl s : same s s.
Proof. done. Qed.
Lemma same_trans s1 s2 s3 : same s1 s2 -> same s2 s3 -> same s1 s3.
Proof. intros [] []. split; congruence. Qed.
Lemma same_storage st s : same s (with_storage_of st s).
Proof. done. Qed.
Lemma same_death D s : same s (with_death D s).
Proof. done. Qed.

(** [holds s σ]: the arena of [s] is [σ]. *)
Definition holds (s : TrieDBMut DB) (σ : gmap nat Stored) : Prop := models (tm_storage s) σ.

Lemma allocM_ok s σ x : holds s σ ->
  exists i s', allocM x s = Ok (i, s') /\ σ !! i = None /\ holds s' (<[i := x]> σ) /\ same s s' /\ death_row s' = death_row s.
Proof.
  intros Hs. destruct (alloc_ok _ _ x Hs) as (i & st & Ha & Hi & Hm). unfold allocM. rewrite Ha. cbn. by eexists _, _.
Qed.

Lemma destroyM_ok s σ i x : holds s σ -> σ !! i = Some x ->
  exists s', destroyM i s = Ok (x, s') /\ holds s' (delete i σ) /\ same s s' /\ death_row s' = death_row s.
Proof.
  intros Hs Hi. destruct (destroy_ok _ _ _ _ Hs Hi) as (st & Ha & Hm). unfold destroyM. rewrite Ha. cbn. by eexists _.
Qed.

Lemma bindM {A B} (m : M A) (f : A -> M B) (s s' : TrieDBMut DB) a : m s = Ok (a, s') -> (m ≫= f) s = f a s'.
Proof. intros Hm. unfold mbind, M_bind. by rewrite Hm. Qed.

Lemma pureM_ok {A} (r : run A) a (s : TrieDBMut DB) : r = Ok a -> pureM r s = Ok (a, s).
Proof. by intros ->. Qed.

Lemma cache_ok s σ top N t :
  db_ok (tm_db s) -> covered (tm_db s) N (death_row s) -> holds s σ -> wf t -> content_ok (tget t) ->
  rep_h top ∅ N (HashHandle (keccak (enc t))) t ->
  exists i s' m, cache (keccak (enc t)) s = Ok (i, s') /\ m ##ₘ σ /\ holds s' (m ∪ σ) /\ same s s' /\ death_row s' = death_row s /\
    rep_h top m N (InMemory i) t.
Proof.
  intros Hd Hc Hs Hw Hct Hr. inversion Hr as [? ? Htop Hk Hkb He1 He2 He3| |]; subst. unfold cache.
  rewrite (fetch _ _ _ _ Hd Hc) by (done || multiset_solver).
  destruct (node_from_rlp_ok (S (length (enc t))) t (tm_storage s) σ Hw Hct Hkb ltac:(lia) Hs) as (n & st & m & -> & Hdj & Hm & Hrn).
  cbn [infallible mbind outcome_bind].
  destruct (allocM_ok (with_storage_of st s) (m ∪ σ) (Cached n (keccak (enc t))) Hm) as (i & s' & -> & Hi & Hs' & Hsm & Hdr).
  apply lookup_union_None in Hi as [Hi1 Hi2]. eexists _, _, (<[i := Cached n (keccak (enc t))]> m). split; [reflexivity|].
  split_and!; [by apply map_disjoint_insert_l|by rewrite <-insert_union_l|by eapply same_trans; [apply (same_storage st)|]|done|]. by constructor.
Qed.
End db.
