(* ===== verification/TrieSteps.v ===== *)
(** * Steps on the arena

    What the operations on a trie share: reading and replacing a child, taking
    a node out of the arena, putting its successor back, and looking a key up. *)
From stdpp Require Import base list numbers gmap gmultiset.
From S2P Require Import Prelude RlpStream RlpEncoding RlpDecode RlpViews RlpImpls Account Nibbles HashDb Trie TrieNode TrieDb TrieDbMut TrieRep.

(** ** The first nibbles of a key *)
Lemma mid_cons s x q : plain s -> nibs s = x :: q -> plain (ns_mid s 1) /\ nibs (ns_mid s 1) = q.
Proof.
  intros Hs Hq. assert (0 <= 1 <= len (nibs s)) as Hl by (rewrite Hq, len_cons; pose proof (len_nonneg q); lia).
  split; [by apply plain_mid|]. rewrite nibs_mid by done. by rewrite Hq.
Qed.

Lemma mid_app s p q : plain s -> nibs s = p ++ q -> plain (ns_mid s (Z.of_nat (length p))) /\ nibs (ns_mid s (Z.of_nat (length p))) = q.
Proof.
  intros Hs Hq. assert (0 <= Z.of_nat (length p) <= len (nibs s)) as Hl by (rewrite Hq, len_app; unfold len; lia).
  split; [by apply plain_mid|]. rewrite nibs_mid by done. by rewrite Hq, Nat2Z.id, drop_app_length.
Qed.

Lemma nibs_cons_nibble s x q : plain s -> nibs s = x :: q -> in_u 4 x /\ is_nibbles q.
Proof. intros [Hs _] Hq. pose proof (nibs_nibbles s Hs) as Hn. rewrite Hq in Hn. by inversion Hn. Qed.

(** ** The monad *)
Section monad.
Context {DB : Type}.
Implicit Types s : TrieDBMut DB.

Lemma bind_pureM {A B} (r : run A) a (f : A -> M B) s : r = Ok a -> (pureM r ≫= f) s = f a s.
Proof. by intros ->. Qed.

Lemma retM {A} (a : A) s : mret (M := M) a s = Ok (a, s).
Proof. done. Qed.

Lemma bind_retM {A B} (a : A) (f : A -> M B) s : (mret (M := M) a ≫= f) s = f a s.
Proof. done. Qed.

Lemma bind_bindM {A B C} (m : M A) (f : A -> M B) (g : B -> M C) s : ((m ≫= f) ≫= g) s = (m ≫= (fun a => f a ≫= g)) s.
Proof. unfold mbind, M_bind. by destruct (m s) as [[a s']|e|]. Qed.
End monad.

(** Runs the next pure step of a program by an equation, or any step. *)
Tactic Notation "mpure" uconstr(H) := rewrite (bind_pureM _ _ _ _ H); cbv beta iota.
Tactic Notation "mstep" uconstr(H) := rewrite (bindM _ _ _ _ _ H); cbv beta iota.

(** ** Children by nibble *)
Section children.
Context (keccak : bytes -> Z) (known : bytes -> Prop).

Lemma set_child_ok {DB} hs n c (s : TrieDBMut DB) : length hs = 16%nat -> in_u 4 n -> set_child hs n c s = Ok (<[Z.to_nat n := c]> hs, s).
Proof.
  intros Hl [H1 H2]. change (2 ^ 4) with 16 in H2. unfold set_child. apply pureM_ok. apply index_set_ok. unfold len. rewrite Hl. lia.
Qed.

Lemma rep_c_at {E} m N hs ts n :
  rep_c keccak known m N hs ts -> length ts = 16%nat -> in_u 4 n ->
  (@index E _ hs n = Ok None /\ hs !! Z.to_nat n = Some None /\ child ts n = TEmpty) \/
  exists h m1 m2 N1 N2, @index E _ hs n = Ok (Some h) /\ nonempty (child ts n) = true /\ m = m1 ∪ m2 /\ m1 ##ₘ m2 /\ N = N1 ⊎ N2 /\
    rep_h keccak known false m1 N1 h (child ts n) /\
    rep_c keccak known m2 N2 (<[Z.to_nat n := None]> hs) (<[Z.to_nat n := TEmpty]> ts).
Proof.
  intros Hr Hl Hn. pose proof (child_lookup ts n Hl Hn) as Hc. destruct Hn as [H1 H2]. change (2 ^ 4) with 16 in H2.
  destruct (@index_exists E _ hs n) as (c & Hcn & Hi); [unfold len; rewrite (rep_c_length _ _ _ _ _ _ Hr), Hl; lia|].
  destruct c as [h|].
  - right. destruct (rep_c_take _ _ _ _ _ _ _ _ Hr Hcn) as (t & m1 & m2 & N1 & N2 & Ht & Hne & ? & ? & ? & Hh & Hc').
    rewrite Hc in Ht. injection Ht as <-. exists h, m1, m2, N1, N2. split_and!; done.
  - left. split_and!; [done|done|]. pose proof (rep_c_none _ _ _ _ _ _ _ Hr Hcn) as Ht. rewrite Hc in Ht. congruence.
Qed.

Lemma rep_c_set m N hs ts n h t m1 N1 :
  rep_c keccak known m N hs ts -> hs !! Z.to_nat n = Some None -> rep_h keccak known false m1 N1 h t -> nonempty t = true -> m1 ##ₘ m ->
  rep_c keccak known (m1 ∪ m) (N1 ⊎ N) (<[Z.to_nat n := Some h]> hs) (<[Z.to_nat n := t]> ts).
Proof. apply rep_c_put. Qed.

(** A new node put where there was none. *)
Lemma rep_c_put_new m N hs ts i a n t m1 N1 :
  rep_c keccak known m N hs ts -> hs !! i = Some None -> rep_n keccak known m1 N1 n t -> nonempty t = true -> m1 ##ₘ m ->
  m1 !! a = None -> m !! a = None ->
  rep_c keccak known (<[a := New n]> (m1 ∪ m)) (N1 ⊎ N) (<[i := Some (InMemory a)]> hs) (<[i := t]> ts).
Proof.
  intros Hr Hi Hn Hne Hd H1 H2. rewrite insert_union_l. apply rep_c_put; try done; [by constructor|by apply map_disjoint_insert_l].
Qed.

Lemma rep_c_put_leaf m N hs ts i a k v :
  rep_c keccak known m N hs ts -> hs !! i = Some None -> m !! a = None ->
  rep_c keccak known (<[a := New (NodeLeaf (hp k true) v)]> m) N (<[i := Some (InMemory a)]> hs) (<[i := TLeaf k v]> ts).
Proof.
  intros Hr Hi Ha. pose proof (rep_c_put_new m N hs ts i a _ _ ∅ ∅ Hr Hi (rn_leaf _ _ k v) eq_refl (map_disjoint_empty_l _) eq_refl Ha) as Hc.
  rewrite map_empty_union in Hc. by rewrite (left_id_L (∅ : gmultiset Z) (⊎)) in Hc.
Qed.

(** A child taken out and put back. *)
Lemma rep_c_reset m N hs ts n h t m1 N1 :
  rep_c keccak known m N (<[Z.to_nat n := None]> hs) (<[Z.to_nat n := TEmpty]> ts) -> length hs = 16%nat -> in_u 4 n ->
  rep_h keccak known false m1 N1 h t -> nonempty t = true -> m1 ##ₘ m ->
  rep_c keccak known (m1 ∪ m) (N1 ⊎ N) (<[Z.to_nat n := Some h]> hs) (<[Z.to_nat n := t]> ts).
Proof.
  intros Hr Hl [H1 H2] Hh Hne Hd. change (2 ^ 4) with 16 in H2.
  rewrite <-(list_insert_insert_eq hs _ (Some h) None), <-(list_insert_insert_eq ts _ t TEmpty).
  apply rep_c_put; try done. apply list_lookup_insert_eq. lia.
Qed.
End children.

(** ** Stored nodes *)
Definition rewrap (x : Stored) (n : Node) : Stored := match x with New _ => New n | Cached _ h => Cached n h end.
Definition killed (x : Stored) : gset Z := match x with New _ => ∅ | Cached _ h => {[h]} end.

(** The references of a stored node without, or with, the one to itself. *)
Definition rewrap_refs (x : Stored) (N : gmultiset Z) : gmultiset Z := match x with New _ => N | Cached _ h => {[+ h +]} ⊎ N end.

Lemma owed_rewrap x N D y : owed (rewrap_refs x N) D y = owed N D y + (if decide (y ∈ killed x) then 1 else 0).
Proof.
  unfold owed. destruct x as [n|n h]; cbn [rewrap_refs killed]; [rewrite (decide_False (P := y ∈ (∅ : gset Z))) by set_solver; lia|].
  rewrite multiplicity_disj_union, multiplicity_singleton. destruct (decide (y = h)) as [->|Hne].
  - rewrite (decide_True (P := h ∈ ({[h]} : gset Z))) by set_solver. lia.
  - rewrite (decide_False (P := y ∈ ({[h]} : gset Z))) by set_solver. lia.
Qed.

Lemma owed_killed x N D y : owed N (killed x ∪ D) y <= owed N D y + (if decide (y ∈ killed x) then 1 else 0).
Proof.
  unfold owed. destruct (decide (y ∈ killed x ∪ D)) as [[?|?]%elem_of_union|]; repeat case_decide; done || lia.
Qed.

Section steps.
Context {DB : Type} {H : HashStore DB} (keccak : bytes -> Z) {L : HashStoreLaws DB H keccak} (known : bytes -> Prop).
Context (Hh : hash_ok keccak known).

Abbreviation rep_h := (rep_h keccak known).
Abbreviation rep_n := (rep_n keccak known).
Abbreviation rep_c := (rep_c keccak known).
Abbreviation enc := (enc keccak).
Abbreviation hashed := (hashed keccak).
Abbreviation db_ok := (db_ok keccak known).
Abbreviation covered := (covered keccak).
Implicit Types s : TrieDBMut DB.

(** ** Progress

    The slots of a tree changed, those of the frame [σf] did not; a reference
    is given up only for an entry of the death row. *)
Record moved s s' (σf : gmap nat Stored) (N : gmultiset Z) (m' : gmap nat Stored) (N' : gmultiset Z) : Prop := {
  mv_disj : m' ##ₘ σf;
  mv_holds : holds s' (m' ∪ σf);
  mv_same : same s s';
  mv_owed x : owed N' (death_row s') x <= owed N (death_row s) x;
}.

(** A state in which the tree with slots [m] and references [N] can be worked on. *)
Record ready s (σf : gmap nat Stored) (m : gmap nat Stored) (N : gmultiset Z) : Prop := {
  rd_disj : m ##ₘ σf;
  rd_holds : holds s (m ∪ σf);
  rd_db : db_ok (tm_db s);
  rd_covered : covered (tm_db s) N (death_row s);
}.

Lemma moved_ready s s' σf m N m' N' : ready s σf m N -> moved s s' σf N m' N' -> ready s' σf m' N'.
Proof. intros [] []. destruct mv_same0. split; [done|done|by rewrite sa_db|rewrite sa_db; by eapply covered_le]. Qed.

Lemma arena_moved_trans s1 s2 s3 σf N1 m2 N2 m3 N3 : moved s1 s2 σf N1 m2 N2 -> moved s2 s3 σf N2 m3 N3 -> moved s1 s3 σf N1 m3 N3.
Proof. intros [] []. split; [done|done|by eapply same_trans|]. intros x. etrans; [apply mv_owed1|done]. Qed.

Lemma arena_moved_refl s σf m N : ready s σf m N -> moved s s σf N m N.
Proof. intros []. split; done. Qed.

(** Work on a part, with the rest in the frame. *)
Lemma ready_part s σf m1 m2 N1 N2 : m1 ##ₘ m2 -> ready s σf (m1 ∪ m2) (N1 ⊎ N2) -> ready s (m2 ∪ σf) m1 N1.
Proof.
  intros Hd []. apply map_disjoint_union_l in rd_disj0 as [? ?]. split.
  - by apply map_disjoint_union_r.
  - by rewrite map_union_assoc.
  - done.
  - by eapply covered_mono.
Qed.

Lemma ready_frame s σf m1 m2 N : ready s σf (m1 ∪ m2) N -> m2 ##ₘ σf.
Proof. intros []. by apply map_disjoint_union_l in rd_disj0 as [_ ?]. Qed.

Lemma moved_part s s' σf m1' m2 N1 N1' N2 : m2 ##ₘ σf -> moved s s' (m2 ∪ σf) N1 m1' N1' ->
  m1' ##ₘ m2 /\ moved s s' σf (N1 ⊎ N2) (m1' ∪ m2) (N1' ⊎ N2).
Proof.
  intros Hd []. apply map_disjoint_union_r in mv_disj0 as [? ?]. split; [done|]. split.
  - by apply map_disjoint_union_l.
  - by rewrite <-map_union_assoc.
  - done.
  - intros x. specialize (mv_owed0 x). unfold owed in *. rewrite !multiplicity_disj_union. lia.
Qed.

Lemma moved_alloc s σf m N x : ready s σf m N ->
  exists i s', allocM x s = Ok (i, s') /\ m !! i = None /\ moved s s' σf N (<[i := x]> m) N.
Proof.
  intros []. destruct (allocM_ok s _ x rd_holds0) as (i & s' & Ha & Hi & Hs & Hsm & Hdr).
  apply lookup_union_None in Hi as [Hi1 Hi2]. exists i, s'. split_and!; [done|done|]. split.
  - by apply map_disjoint_insert_l.
  - by rewrite <-insert_union_l.
  - done.
  - intros y. by rewrite Hdr.
Qed.

(** ** Taking a node out and putting one back *)
Definition rep_s (top : bool) (m : gmap nat Stored) (N : gmultiset Z) (x : Stored) (t : trie) : Prop :=
  match x with
  | New n => rep_n m N n t
  | Cached n h =>
      h = keccak (enc t) /\ top || hashed t = true /\ known (enc t) /\ N = {[+ h +]} ⊎ keys_of keccak (TrieNode.below keccak t) /\
      rep_n m (keys_of keccak (TrieNode.below keccak t)) n t
  end.

Lemma rep_h_alloc top m N x t i : rep_s top m N x t -> m !! i = None -> rep_h top (<[i := x]> m) N (InMemory i) t.
Proof. destruct x as [n|n h]; cbn; [by constructor|]. intros (-> & ? & ? & -> & ?) ?. by constructor. Qed.

Lemma rep_h_stored top m N i t : rep_h top m N (InMemory i) t -> exists x m0, m = <[i := x]> m0 /\ m0 !! i = None /\ rep_s top m0 N x t.
Proof. inversion 1; subst; eexists _, _; split_and!; try done; cbn; eauto 10. Qed.

Lemma take_node_ok s σf top m N h t :
  ready s σf m N -> rep_h top m N h t -> wf t -> content_ok (tget t) ->
  exists x s' m', take_node h s = Ok (x, s') /\ moved s s' σf N m' N /\ death_row s' = death_row s /\ rep_s top m' N x t.
Proof.
  intros Hrd Hr Hw Hc.
  assert (Hmem : forall s m i, ready s σf m N -> rep_h top m N (InMemory i) t ->
    exists x s' m', destroyM i s = Ok (x, s') /\ moved s s' σf N m' N /\ death_row s' = death_row s /\ rep_s top m' N x t).
  { clear s m Hrd Hr. intros s m i [] Hr. apply rep_h_stored in Hr as (x & m0 & -> & Hi & Hs).
    apply map_disjoint_insert_l in rd_disj0 as [Hif Hd].
    destruct (destroyM_ok s _ i x rd_holds0) as (s' & Hds & Hs' & Hsm & Hdr); [apply lookup_union_Some_l, lookup_insert_eq|].
    exists x, s', m0. split_and!; [done| |done|done]. rewrite <-insert_union_l, delete_insert_id in Hs' by (by apply lookup_union_None).
    split; [done|done|done|]. intros y. by rewrite Hdr. }
  destruct h as [i|h]; cbn [take_node]; [by eapply Hmem|].
  assert (h = keccak (enc t) /\ m = ∅) as [-> ->] by (by inversion Hr). pose proof Hrd as [].
  destruct (cache_ok keccak known Hh s _ top N t rd_db0 rd_covered0 rd_holds0 Hw Hc Hr) as (i & s1 & m1 & Hca & Hd & Hh1 & Hsm & Hdr & Hr1).
  rewrite (bindM _ _ _ _ _ Hca). rewrite map_empty_union in Hd, Hh1.
  assert (moved s s1 σf N m1 N) as Hmv by (split; try done; intros y; by rewrite Hdr).
  destruct (Hmem s1 m1 i) as (x & s' & m' & He & Hmv' & Hdr' & Hs); [by eapply moved_ready|done|].
  exists x, s', m'. split_and!; [done|by eapply arena_moved_trans|congruence|done].
Qed.

(** What [inspect] makes of the answer of the inspector. *)
Lemma inspect_ok {X} x (insp : Node -> M (Action * X)) s a o s' :
  insp (stored_node x) s = Ok (a, o, s') ->
  exists s'', inspect x insp s =
      Ok (match a with Restore n => Some (rewrap x n, false) | Replace n => Some (New n, true) | Delete => None end, o, s'') /\
    tm_storage s'' = tm_storage s' /\ same s' s'' /\
    death_row s'' = match a with Restore _ => ∅ | _ => killed x end ∪ death_row s'.
Proof.
  intros Hi. destruct x as [n|n h]; cbn [inspect stored_node rewrap killed] in *; mstep Hi.
  - exists s'. split_and!; try done. destruct a; set_solver.
  - destruct a as [n'|n'|]; eexists; (split; [reflexivity|]); split_and!; try done; set_solver.
Qed.

Lemma rep_s_node top m N x t : rep_s top m N x t -> exists N0, rep_n m N0 (stored_node x) t /\ N = rewrap_refs x N0.
Proof. destruct x as [n|n h]; cbn [rep_s stored_node rewrap_refs]; [by exists N|]. intros (-> & _ & _ & -> & ?). eauto. Qed.

Lemma rep_s_rewrap top m N x t m' N' n : rep_s top m N x t -> N = rewrap_refs x N' -> rep_n m' N' n t -> rep_s top m' N (rewrap x n) t.
Proof.
  destruct x as [n0|n0 h]; cbn [rep_s rewrap rewrap_refs]; [by intros _ ->|]. intros (-> & ? & ? & -> & _) HN ?. split_and!; try done.
  apply (inj (disj_union _)) in HN. by rewrite HN.
Qed.

Lemma ready_stored s σf m x N : ready s σf m (rewrap_refs x N) -> ready s σf m N.
Proof. intros []. destruct x; cbn [rewrap_refs] in *; split; try done. by eapply covered_mono_r. Qed.

(** Inspecting a node, with the references that are left. *)
Definition action_refs (x : Stored) (a : Action) (N : gmultiset Z) : gmultiset Z := match a with Restore _ => rewrap_refs x N | _ => N end.

Lemma inspect_moved {X} top s σf m m' N N0 x t (insp : Node -> M (Action * X)) a o s' N' :
  ready s σf m N -> rep_s top m N x t -> rep_n m N0 (stored_node x) t -> N = rewrap_refs x N0 ->
  insp (stored_node x) s = Ok (a, o, s') -> moved s s' σf N0 m' N' ->
  exists s'', inspect x insp s =
      Ok (match a with Restore n => Some (rewrap x n, false) | Replace n => Some (New n, true) | Delete => None end, o, s'') /\
    moved s s'' σf N m' (action_refs x a N').
Proof.
  intros Hrd Hs Hn -> Hi [Hd Hho Hsm How]. destruct (inspect_ok x insp s a o s' Hi) as (s'' & He & Hst & Hsm' & Hdr).
  exists s''. split; [done|]. split; [done|by unfold holds; rewrite Hst|by eapply same_trans|].
  intros y. rewrite owed_rewrap, Hdr. specialize (How y). destruct a as [n|n|]; cbn [action_refs].
  - pose proof (owed_killed x N' (death_row s') y). lia.
  - rewrite (left_id_L ∅ (∪)), owed_rewrap. lia.
  - pose proof (owed_killed x N' (death_row s') y). lia.
Qed.

(** ** Lookup *)
Lemma tm_lookup_ok fuel s σ top m N h t partial :
  holds s σ -> m ⊆ σ -> db_ok (tm_db s) -> covered (tm_db s) N (death_row s) ->
  rep_h top m N h t -> wf t -> content_ok (tget t) -> plain partial -> (length (nibs partial) < fuel)%nat ->
  tm_lookup fuel s partial h = Ok (tget t (nibs partial)).
Proof.
  intros Hs Hm Hd. revert top m N h t partial Hm. induction fuel as [|fuel IH]; intros top m N h t partial Hm Hcov Hr Hw Hc Hp Hf; [lia|].
  cbn [tm_lookup]. destruct h as [i|h].
  2: { inversion Hr as [? ? Htop Hk Hkb| |]; subst. apply (look_up_value keccak (ho_word _ _ Hh)); try done.
       - eapply (stored_covered keccak known Hh); [done|done| |done]. multiset_solver.
       - eapply (fetch keccak known Hh); [done|done| |done]. multiset_solver. }
  apply rep_h_stored in Hr as (x & m0 & -> & Hi & Hx).
  assert (σ !! i = Some x) as Hσ by (by eapply lookup_weaken, Hm; apply lookup_insert_eq).
  rewrite (storage_index_ok _ _ _ _ Hs Hσ). cbn [infallible mbind outcome_bind].
  assert (m0 ⊆ σ) as Hm0 by (etrans; [by apply insert_subseteq|exact Hm]).
  assert (exists N0, rep_n m0 N0 (stored_node x) t /\ covered (tm_db s) N0 (death_row s)) as (N0 & Hn & Hcov0).
  { destruct x as [n|n h]; cbn [rep_s stored_node] in *; [by exists N|]. destruct Hx as (-> & _ & _ & -> & Hn). eexists. split; [done|].
    by eapply covered_mono_r. }
  destruct Hn as [|k v|m0 N0 k h c Hr|m0 N0 hs ts v Hr]; cbn [stored_node] in *.
  - done.
  - destruct (content_leaf _ _ Hc) as (Hk & Hl & _).
    destruct (@from_encoded_hp TrieError k true Hk ltac:(unfold bound in Hl; lia)) as (sl & -> & Hsl & <-). cbn [mbind outcome_bind].
    rewrite ns_eq_ok by apply Hsl || apply Hp. cbn [mbind outcome_bind tget].
    case_decide; [by rewrite bool_decide_eq_true_2|by rewrite bool_decide_eq_false_2].
  - destruct Hw as [?|(Hne & Hb & Hw)]; [done|]. destruct (content_ext_key _ _ Hc Hw) as [Hk Hl].
    destruct (@from_encoded_hp TrieError k false Hk ltac:(unfold bound in Hl; lia)) as (sl & -> & Hsl & Hks). cbn [mbind outcome_bind].
    rewrite starts_with_ok by apply Hsl || apply Hp. cbn [mbind outcome_bind tget]. rewrite Hks. unfold strip. case_decide as Hpre.
    2: { by rewrite bool_decide_eq_false_2. }
    rewrite bool_decide_eq_true_2 by done. rewrite ns_len_ok by apply Hsl. cbn [mbind outcome_bind]. rewrite Hks.
    assert (nibs partial = k ++ drop (length k) (nibs partial)) as Hpk by (rewrite <-Hpre at 1; by rewrite take_drop).
    destruct (mid_app partial k _ Hp Hpk) as [Hp' Hq]. unfold len. rewrite <-Hq.
    eapply IH; [exact Hm0|done|done|by right|by eapply content_ext|done|].
    rewrite Hq, length_drop. assert (length (nibs partial) = length k + length (drop (length k) (nibs partial)))%nat as Hlen
      by (rewrite Hpk at 1; by rewrite length_app). rewrite length_drop in Hlen. destruct k; [done|]. cbn [length] in *. lia.
  - destruct Hw as [?|Hw]; [done|]. rewrite ns_is_empty_ok by apply Hp. cbn [mbind outcome_bind].
    destruct (nibs partial) as [|x' q] eqn:Hq; [done|]. rewrite bool_decide_eq_false_2 by done.
    rewrite (ns_at_0 partial x' q) by apply Hp || done. cbn [mbind outcome_bind].
    destruct (nibs_cons_nibble partial x' q Hp Hq) as [Hx' _]. destruct (mid_cons partial x' q Hp Hq) as [Hp' Hq'].
    rewrite tget_child.
    destruct (rep_c_at (E := TrieError) _ _ _ _ _ _ x' Hr) as [(-> & _ & ->)|(h & m1 & m2 & N1 & N2 & -> & Hne & -> & Hdj & -> & Hrh & _)];
      [by apply wfn_branch in Hw as (? & _)|done|done|].
    cbn [mbind outcome_bind]. rewrite <-Hq'. eapply (IH false m1 N1); try done.
    + etrans; [apply map_union_subseteq_l|exact Hm0].
    + by eapply covered_mono.
    + by eapply child_wf.
    + by eapply content_child.
    + rewrite Hq'. cbn [length] in Hf. lia.
Qed.
End steps.
