(* ===== verification/TrieInsert.v ===== *)
(** * Insertion into a trie

    [insert_inspector] turns the representation of a tree into one of the tree
    with the new entry, in normal form again; what it calls unchanged is. *)
From stdpp Require Import base list numbers gmap gmultiset.
From S2P Require Import Prelude RlpStream RlpEncoding RlpDecode RlpViews RlpImpls Account Nibbles HashDb Trie TrieNode TrieDb TrieDbMut TrieRep TrieSteps.

(** ** Trees *)
Lemma upd_Some m k v q : is_Some (m q) -> is_Some (upd m k v q).
Proof. unfold upd. by case_decide. Qed.

Lemma upd_key m k v : upd m k v k = Some v.
Proof. unfold upd. by rewrite decide_True. Qed.

(** A branch stays a branch. *)
Lemma upd_loose_wfn t t' k v : wfn t -> loose t -> loose t' -> (forall q, tget t' q = upd (tget t) k v q) -> wfn t'.
Proof.
  intros Hw Hl Hl' Hq. destruct t as [| | |ch w]; try done. destruct (branch_diverges _ _ Hw) as (q1 & q2 & Hd & H1 & H2).
  apply (loose_wfn t' q1 q2 Hl' Hd); rewrite Hq; by apply upd_Some.
Qed.

Lemma upd_is_branch t t' k v : wfn t -> is_branch t = true -> wfn t' -> (forall q, tget t' q = upd (tget t) k v q) -> is_branch t' = true.
Proof.
  intros Hw Hb Hw' Hq. destruct t as [| | |ch w]; try done. destruct (branch_diverges _ _ Hw) as (q1 & q2 & Hd & H1 & H2).
  apply (diverge_branch t' q1 q2 Hw' Hd); rewrite Hq; by apply upd_Some.
Qed.

Lemma tget_value ch v w q : tget (TBranch ch (Some w)) q = upd (tget (TBranch ch v)) [] w q.
Proof. unfold upd. by destruct q; [|rewrite decide_False by done; rewrite !tget_child]. Qed.

Lemma tget_set_child ch v n c q : length ch = 16%nat -> in_u 4 n ->
  tget (TBranch (<[Z.to_nat n := c]> ch) v) q =
    match q with [] => v | x :: r => if decide (x = n) then tget c r else tget (child ch x) r end.
Proof. intros Hl Hn. destruct q as [|x r]; [done|]. rewrite tget_child, child_insert by done. by case_decide. Qed.

(** Updating below a prefix. *)
Lemma upd_child ch v n c r w q : length ch = 16%nat -> in_u 4 n -> (forall q, tget c q = upd (tget (child ch n)) r w q) ->
  tget (TBranch (<[Z.to_nat n := c]> ch) v) q = upd (tget (TBranch ch v)) (n :: r) w q.
Proof.
  intros Hl Hn Hc. rewrite tget_set_child by done. unfold upd in *. destruct q as [|x q]; [done|]. rewrite tget_child.
  repeat case_decide; simplify_eq; rewrite ?Hc; try done; case_decide; congruence.
Qed.

Lemma strip_prefix p q r : strip (p ++ q) (p ++ r) = strip q r.
Proof.
  destruct (strip q r) as [x|] eqn:Hs; [apply strip_Some in Hs as ->; by rewrite app_assoc, strip_app|].
  destruct (strip (p ++ q) (p ++ r)) as [x|] eqn:Hs'; [|done]. apply strip_Some in Hs'. rewrite <-app_assoc in Hs'.
  apply (inj (app p)) in Hs' as ->. by rewrite strip_app in Hs.
Qed.

Lemma upd_ext p m t k v q : (forall q, tget t q = upd m k v q) ->
  tget (TExt p t) q = upd (fun q => match strip p q with Some r => m r | None => None end) (p ++ k) v q.
Proof.
  intros Ht. cbn [tget]. unfold upd in *. destruct (strip p q) as [r|] eqn:Hs.
  - apply strip_Some in Hs as ->. rewrite Ht. repeat case_decide; simplify_eq; try done.
  - case_decide as Hq; [|done]. subst q. by rewrite strip_app in Hs.
Qed.

Lemma tget_leaf_app p k v q : tget (TLeaf (p ++ k) v) q = match strip p q with Some r => tget (TLeaf k v) r | None => None end.
Proof.
  cbn [tget]. destruct (strip p q) as [r|] eqn:Hs.
  - apply strip_Some in Hs as ->. repeat case_decide; simplify_eq; done.
  - case_decide as Hq; [|done]. subst q. by rewrite strip_app in Hs.
Qed.

Lemma tget_ext_app p k t q : tget (TExt (p ++ k) t) q = match strip p q with Some r => tget (TExt k t) r | None => None end.
Proof.
  cbn [tget]. destruct (strip p q) as [r|] eqn:Hs.
  - apply strip_Some in Hs as ->. by rewrite strip_prefix.
  - destruct (strip (p ++ k) q) as [r|] eqn:Hs'; [|done]. apply strip_Some in Hs' as ->. by rewrite <-app_assoc, strip_app in Hs.
Qed.

Lemma tget_ext_nil t q : tget (TExt [] t) q = tget t q.
Proof. done. Qed.

Lemma upd_proper m m' k v q : (forall q, m q = m' q) -> upd m k v q = upd m' k v q.
Proof. intros Hm. unfold upd. by case_decide. Qed.

(** Two keys split at their common prefix. *)
Lemma common_split a b : exists p a' b', a = p ++ a' /\ b = p ++ b' /\ common a b = length p /\ (a' = [] /\ b' = [] \/ diverge a' b').
Proof.
  destruct (common_prefix_split a b) as (p & a' & b' & Ha & Hb & Hp & Hd). exists p, a', b'. split_and!; try done.
  destruct a', b'; cbn; auto.
Qed.

Lemma common_nil a b : diverge a b -> common a b = O.
Proof. destruct a, b; try done. cbn. intros Hd. by rewrite (proj2 (Z.eqb_neq _ _)). Qed.

(** The branch that takes the place of a leaf or an extension. *)
Definition stub (n : Z) (c : trie) : trie := TBranch (<[Z.to_nat n := c]> empties) None.

Lemma loose_stub n c : wf c -> loose (stub n c).
Proof. intros Hc. apply (loose_insert empties None (Z.to_nat n) c); [apply loose_empties|done]. Qed.

Lemma tget_stub n c q : in_u 4 n -> tget (stub n c) q = match q with [] => None | x :: r => if decide (x = n) then tget c r else None end.
Proof. intros Hn. unfold stub. rewrite tget_set_child by done. destruct q as [|x r]; [done|]. case_decide; [done|]. by rewrite child_empties. Qed.

Lemma child_stub n c x : in_u 4 n -> child (<[Z.to_nat n := c]> empties) x = if decide (x = n) then c else TEmpty.
Proof. intros Hn. rewrite child_insert by done. case_decide; [done|]. apply child_empties. Qed.

Lemma tget_stub_leaf n k v q : in_u 4 n -> tget (stub n (TLeaf k v)) q = tget (TLeaf (n :: k) v) q.
Proof. intros Hn. rewrite tget_stub by done. cbn [tget]. destruct q as [|x r]; [done|]. repeat case_decide; simplify_eq; done. Qed.

Lemma tget_stub_ext n k t q : in_u 4 n -> tget (stub n (TExt k t)) q = tget (TExt (n :: k) t) q.
Proof.
  intros Hn. rewrite tget_stub by done. change (n :: k) with ([n] ++ k). rewrite tget_ext_app. destruct q as [|x r]; [done|].
  unfold strip at 1. cbn [length take drop]. repeat case_decide; simplify_eq; done.
Qed.

Lemma tget_stub_child n t q : in_u 4 n -> tget (stub n t) q = tget (TExt [n] t) q.
Proof. intros Hn. rewrite <-(tget_stub_ext n [] t q Hn). rewrite !tget_stub by done. done. Qed.

(** ** The code *)
Section insert.
Context {DB : Type} {H : HashStore DB} (keccak : bytes -> Z) {L : HashStoreLaws DB H keccak} (known : bytes -> Prop).
Context (Hh : hash_ok keccak known).

Abbreviation rep_h := (rep_h keccak known).
Abbreviation rep_n := (rep_n keccak known).
Abbreviation rep_c := (rep_c keccak known).
Abbreviation ready := (ready keccak known).
Implicit Types s : TrieDBMut DB.

Definition is_restore (a : InsertAction) : bool := match a with InsertRestore _ => true | _ => false end.

(** What the inspector does to the tree [t]. *)
Definition inserts (Q : trie -> Prop) s σf N t k v (r : outcome (TrieError * TrieDBMut DB) (InsertAction * option bytes * TrieDBMut DB)) : Prop :=
  exists a s' m' N' t', r = Ok (a, tget t k, s') /\ moved s s' σf N m' N' /\ rep_n m' N' (unwrap_node a) t' /\
    (forall q, tget t' q = upd (tget t) k v q) /\ (is_restore a = true -> t' = t /\ N' = N) /\ Q t'.

(** A branch with room for the key. *)
Lemma insert_branch fuel s σf m N hs ch w partial v :
  ready s σf m N -> rep_c m N hs ch -> loose (TBranch ch w) -> plain partial ->
  match nibs partial with [] => True | x :: _ => child ch x = TEmpty end ->
  inserts loose s σf N (TBranch ch w) (nibs partial) v (insert_inspector (S fuel) (NodeBranch hs w) partial v None s).
Proof.
  intros Hrd Hr Hl Hp Hroom. cbn [insert_inspector]. mpure (ns_is_empty_ok partial (proj1 Hp)).
  pose proof (rep_c_length _ _ _ _ _ _ Hr) as Hlen. destruct Hl as [Hl16 Hf]. rewrite Hl16 in Hlen.
  destruct (nibs partial) as [|x q] eqn:Hq.
  - rewrite bool_decide_eq_true_2 by done. rewrite retM.
    exists (if bool_decide (w = Some v) then InsertRestore (NodeBranch hs (Some v)) else InsertReplace (NodeBranch hs (Some v))), s, m, N, (TBranch ch (Some v)).
    split_and!; [done|by eapply arena_moved_refl| | | |done].
    + case_bool_decide; by constructor.
    + intros r. apply tget_value.
    + case_bool_decide; [by subst|done].
  - rewrite bool_decide_eq_false_2 by done. mpure (ns_at_0 partial x q (proj1 Hp) Hq).
    destruct (nibs_cons_nibble _ _ _ Hp Hq) as [Hx Hqn]. destruct (mid_cons _ _ _ Hp Hq) as [Hp' Hq'].
    destruct (rep_c_at (E := Empty_set) _ _ _ _ _ _ x Hr Hl16 Hx) as [(Hi & Hno & _)|(h & m1 & m2 & N1 & N2 & _ & Hne & _)]; [|by rewrite Hroom in Hne].
    mpure Hi. mpure (ns_encoded_ok (ns_mid partial 1) true (proj1 Hp')). rewrite Hq'.
    destruct (moved_alloc keccak known s σf m N (New (NodeLeaf (hp q true) v)) Hrd) as (i & s' & Ha & Hi' & Hmv). mstep Ha.
    mstep (set_child_ok hs x (Some (InMemory i)) s' Hlen Hx). rewrite retM.
    eexists _, s', _, N, (TBranch (<[Z.to_nat x := TLeaf q v]> ch) w). split_and!; [by rewrite tget_child, Hroom|exact Hmv| | |done|].
    + constructor. by apply rep_c_put_leaf.
    + intros r. apply upd_child; [done|done|]. intros r'. rewrite Hroom. unfold upd. cbn [tget]. done.
    + apply loose_insert; [done|by right].
Qed.

(** A leaf whose key has nothing in common with the new one. *)
Lemma insert_leaf_apart fuel s σf k w partial v :
  ready s σf ∅ ∅ -> content_ok (tget (TLeaf k w)) -> plain partial -> diverge (nibs partial) k ->
  inserts (fun t' => wfn t' /\ is_branch t' = true) s σf ∅ (TLeaf k w) (nibs partial) v
    (insert_inspector (S (S fuel)) (NodeLeaf (hp k true) w) partial v None s).
Proof.
  intros Hrd Hc Hp Hd. destruct (content_leaf _ _ Hc) as (Hk & Hkl & _).
  set (fuel' := S fuel). cbn [insert_inspector].
  destruct (@from_encoded_hp Empty_set k true Hk ltac:(unfold bound in Hkl; lia)) as (sl & Hfe & Hsl & Hks). mpure Hfe.
  mpure (common_prefix_ok partial sl (proj1 Hp) (proj1 Hsl)). mpure (ns_len_ok sl (proj1 Hsl)).
  mpure (ns_len_ok partial (proj1 Hp)). rewrite Hks, common_nil by done.
  assert ((Z.of_nat 0 =? len k) && (Z.of_nat 0 =? len (nibs partial)) = false) as ->.
  { apply andb_false_iff. destruct k, (nibs partial); cbn in Hd; try done; [right|left|left]; apply Z.eqb_neq; rewrite len_cons;
    match goal with |- context [len ?l] => pose proof (len_nonneg l) end; lia. }
  change (Z.of_nat 0 =? 0) with true. cbv iota. mpure (ns_is_empty_ok sl (proj1 Hsl)). rewrite Hks.
  assert (Hgoal : forall s1 m1 hs ch o, moved s s1 σf ∅ m1 ∅ -> rep_c m1 ∅ hs ch -> loose (TBranch ch o) ->
    match nibs partial with [] => True | x :: _ => child ch x = TEmpty end ->
    (forall q, tget (TBranch ch o) q = tget (TLeaf k w) q) ->
    inserts (fun t' => wfn t' /\ is_branch t' = true) s σf ∅ (TLeaf k w) (nibs partial) v
      (('(a, old_val) ← insert_inspector fuel' (NodeBranch hs o) partial v None; mret (InsertReplace (unwrap_node a), old_val)) s1)).
  { intros s1 m1 hs ch o Hmv Hr Hl Hroom Heq.
    destruct (insert_branch fuel s1 σf m1 ∅ hs ch o partial v) as (a & s2 & m2 & N2 & t' & Hi & Hmv2 & Hr2 & Hq & _ & Hl'); try done;
      [by eapply moved_ready|].
    fold fuel' in Hi. mstep Hi. rewrite retM. eexists _, s2, m2, N2, t'. split_and!; [by rewrite Heq|by eapply arena_moved_trans|done| |done| |].
    - intros q. rewrite Hq. by apply upd_proper.
    - apply (loose_wfn t' (nibs partial) k Hl' Hd); rewrite Hq; [by rewrite upd_key|]. apply upd_Some. rewrite Heq. cbn. by rewrite decide_True.
    - by destruct t'. }
  destruct k as [|n k].
  - rewrite bool_decide_eq_true_2 by done. rewrite bind_retM. apply (Hgoal s ∅ empty_children empties); try done.
    + by eapply arena_moved_refl.
    + apply rep_c_empty.
    + apply loose_empties.
    + case_match; [done|]. apply child_empties.
    + intros [|x q]; [done|]. by rewrite tget_child, child_empties.
  - rewrite bool_decide_eq_false_2 by done. rewrite bind_bindM. mpure (ns_at_0 sl n k (proj1 Hsl) Hks).
    destruct (nibs_cons_nibble _ _ _ Hsl Hks) as [Hn Hkn]. destruct (mid_cons _ _ _ Hsl Hks) as [Hsl' Hks'].
    rewrite bind_bindM. mpure (ns_encoded_ok (ns_mid sl 1) true (proj1 Hsl')). rewrite Hks'.
    destruct (moved_alloc keccak known s σf ∅ ∅ (New (NodeLeaf (hp k true) w)) Hrd) as (i & s1 & Ha & _ & Hmv).
    rewrite bind_bindM. mstep Ha. rewrite bind_bindM. mstep (set_child_ok empty_children n (Some (InMemory i)) s1 eq_refl Hn). rewrite bind_retM.
    apply (Hgoal s1 _ _ (<[Z.to_nat n := TLeaf k w]> empties) None Hmv).
    + apply rep_c_put_leaf; [apply rep_c_empty| |done].
      apply lookup_replicate. split; [done|]. destruct Hn as [? Hn]. change (2 ^ 4) with 16 in Hn. lia.
    + apply loose_stub. by right.
    + destruct (nibs partial) as [|x q]; [done|]. rewrite child_stub by done. cbn in Hd. by rewrite decide_False.
    + intros q. by apply tget_stub_leaf.
Qed.

(** The same for an extension. *)
Lemma insert_ext_apart fuel s σf m N k h t partial v :
  ready s σf m N -> rep_h false m N h t -> wfn (TExt k t) -> content_ok (tget (TExt k t)) -> plain partial -> diverge (nibs partial) k ->
  inserts (fun t' => wfn t' /\ is_branch t' = true) s σf N (TExt k t) (nibs partial) v
    (insert_inspector (S (S fuel)) (NodeExtension (hp k false) h) partial v None s).
Proof.
  intros Hrd Hr (Hne & Hb & Hw) Hc Hp Hd. destruct (content_ext_key _ _ Hc Hw) as (Hk & Hkl).
  set (fuel' := S fuel). cbn [insert_inspector].
  destruct (@from_encoded_hp Empty_set k false Hk ltac:(unfold bound in Hkl; lia)) as (sl & Hfe & Hsl & Hks). mpure Hfe.
  mpure (common_prefix_ok partial sl (proj1 Hp) (proj1 Hsl)). mpure (ns_len_ok sl (proj1 Hsl)). rewrite Hks, common_nil by done.
  change (Z.of_nat 0 =? 0) with true. cbv iota. mpure (ns_is_empty_ok sl (proj1 Hsl)). rewrite Hks, bool_decide_eq_false_2 by done.
  destruct k as [|n k]; [done|]. mpure (ns_at_0 sl n k (proj1 Hsl) Hks).
  destruct (nibs_cons_nibble _ _ _ Hsl Hks) as [Hn Hkn]. destruct (mid_cons _ _ _ Hsl Hks) as [Hsl' Hks'].
  assert (Hnone : empty_children !! Z.to_nat n = Some None).
  { apply lookup_replicate. split; [done|]. destruct Hn as [? Hn]. change (2 ^ 4) with 16 in Hn. lia. }
  assert (Hgoal : forall s1 m1 h1 c, moved s s1 σf N m1 N -> rep_h false m1 N h1 c -> wfn c ->
    (forall q, tget (stub n c) q = tget (TExt (n :: k) t) q) ->
    inserts (fun t' => wfn t' /\ is_branch t' = true) s σf N (TExt (n :: k) t) (nibs partial) v
      ((children ← set_child empty_children n (Some h1);
        '(a, old_val) ← insert_inspector fuel' (NodeBranch children None) partial v None; mret (InsertReplace (unwrap_node a), old_val)) s1)).
  { intros s1 m1 h1 c Hmv Hr1 Hwc Heq. mstep (set_child_ok empty_children n (Some h1) s1 eq_refl Hn).
    pose proof (rep_c_put _ _ _ _ _ _ _ _ _ _ _ (rep_c_empty keccak known) Hnone Hr1 (wfn_nonempty _ Hwc) (map_disjoint_empty_r _)) as Hrc.
    rewrite (right_id_L ∅ (∪)), (right_id_L (∅ : gmultiset Z) (⊎)) in Hrc.
    destruct (insert_branch fuel s1 σf m1 N _ _ None partial v (moved_ready _ _ _ _ _ _ _ _ _ Hrd Hmv) Hrc)
      as (a & s2 & m2 & N2 & t' & Hi & Hmv2 & Hr2 & Hq & _ & Hl'); [apply loose_stub; by right|done| |].
    { destruct (nibs partial) as [|x q]; [done|]. rewrite child_stub by done. cbn in Hd. by rewrite decide_False. }
    fold (stub n c) in *. fold fuel' in Hi. mstep Hi. rewrite retM. eexists _, s2, m2, N2, t'.
    split_and!; [by rewrite Heq|by eapply arena_moved_trans|done| |done| |].
    - intros q. rewrite Hq. by apply upd_proper.
    - destruct (wfn_key t Hw) as (r & Hr'). apply (loose_wfn t' (nibs partial) (n :: k ++ r) Hl').
      + by destruct (nibs partial).
      + rewrite Hq. by rewrite upd_key.
      + rewrite Hq. apply upd_Some. rewrite Heq. change (n :: k ++ r) with ((n :: k) ++ r). by rewrite tget_ext.
    - by destruct t'. }
  destruct (Z.eqb_spec (len (n :: k)) 1) as [Hl1|Hl1].
  - assert (k = []) as -> by (destruct k as [|? k']; [done|]; rewrite !len_cons in Hl1; pose proof (len_nonneg k'); lia).
    rewrite bind_retM. apply (Hgoal s m h t); try done; [by eapply arena_moved_refl|]. intros q. by apply tget_stub_child.
  - rewrite bind_bindM. mpure (ns_encoded_ok (ns_mid sl 1) false (proj1 Hsl')). rewrite Hks', bind_bindM.
    destruct (moved_alloc keccak known s σf m N (New (NodeExtension (hp k false) h)) Hrd) as (i & s1 & Ha & Hi & Hmv). mstep Ha. rewrite bind_retM.
    apply (Hgoal s1 _ _ (TExt k t) Hmv).
    + constructor; [done|]. by constructor.
    + split_and!; try done. intros ->. by apply Hl1.
    + intros q. by apply tget_stub_ext.
Qed.

(** ** Below a handle *)
Definition inserts_at (Q : trie -> Prop) top s σf N t k v
    (r : outcome (TrieError * TrieDBMut DB) (StorageHandle * bool * option bytes * TrieDBMut DB)) : Prop :=
  exists i changed s' m' N' t', r = Ok (i, changed, tget t k, s') /\ moved s s' σf N m' N' /\ rep_h top m' N' (InMemory i) t' /\
    (forall q, tget t' q = upd (tget t) k v q) /\ (changed = false -> t' = t /\ N' = N) /\ Q t'.

Lemma insert_at_take insp h partial v o s :
  insert_at insp h partial v o s =
  (stored ← take_node h;
   '(r, old_val) ← inspect stored (fun node => '(a, old_val) ← insp node partial v o; mret (into_action a, old_val));
   match r with
   | None => panicM
   | Some (new_stored, changed) => i ← allocM new_stored; mret (i, changed, old_val)
   end) s.
Proof. unfold insert_at. destruct h as [i|h]; cbn [take_node]; [by rewrite bind_retM|by rewrite bind_bindM]. Qed.

Lemma insert_at_ok (Q : trie -> Prop) insp top s σf m N h t partial v :
  ready s σf m N -> rep_h top m N h t -> wf t -> content_ok (tget t) ->
  (forall s1 m1 N1 n, ready s1 σf m1 N1 -> rep_n m1 N1 n t -> inserts Q s1 σf N1 t (nibs partial) v (insp n partial v None s1)) ->
  inserts_at Q top s σf N t (nibs partial) v (insert_at insp h partial v None s).
Proof.
  intros Hrd Hr Hw Hc Hinsp. rewrite insert_at_take.
  destruct (take_node_ok keccak known Hh s σf top m N h t Hrd Hr Hw Hc) as (x & s1 & m1 & Ht & Hmv1 & Hdr1 & Hs1). mstep Ht.
  pose proof (moved_ready _ _ _ _ _ _ _ _ _ Hrd Hmv1) as Hrd1.
  destruct (rep_s_node _ _ _ _ _ _ _ Hs1) as (N1 & Hr1 & HN1).
  destruct (Hinsp s1 m1 N1 (stored_node x)) as (a & s2 & m2 & N2 & t' & Hi & Hmv2 & Hr2 & Hq & Hres & HQ); [rewrite HN1 in Hrd1; by eapply ready_stored|done|].
  set (g := (fun node => '(a, old_val) ← insp node partial v None; mret (into_action a, old_val)) : Node -> M (DB := DB) (Action * option bytes)).
  assert (Hin : g (stored_node x) s1 = Ok (into_action a, tget t (nibs partial), s2)) by (unfold g; by mstep Hi).
  destruct (inspect_moved keccak known Hh _ _ _ _ _ _ _ _ _ _ _ _ _ _ Hrd1 Hs1 Hr1 HN1 Hin Hmv2) as (s3 & Hins & Hmv3).
  mstep Hins. destruct a as [n|n]; cbn [into_action unwrap_node is_restore action_refs] in *.
  - destruct (moved_alloc keccak known s3 σf m2 N2 (New n)) as (i & s4 & Ha & Hi4 & Hmv4); [by eapply moved_ready|]. mstep Ha. rewrite retM.
    eexists i, true, s4, _, N2, t'. split_and!; [done|by do 2 (eapply arena_moved_trans; [done|])|by constructor|done|done|done].
  - destruct (Hres eq_refl) as [-> ->]. rewrite <-HN1 in Hmv3.
    destruct (moved_alloc keccak known s3 σf m2 N (rewrap x n)) as (i & s4 & Ha & Hi4 & Hmv4); [by eapply moved_ready|]. mstep Ha. rewrite retM.
    eexists i, false, s4, _, _, t. split_and!; [done|by do 2 (eapply arena_moved_trans; [done|])| |done|done|done].
    apply rep_h_alloc; [|done]. by eapply rep_s_rewrap.
Qed.

(** ** Any node *)
Lemma inserts_weaken (Q Q' : trie -> Prop) s σf N t k v r : (forall t', (forall q, tget t' q = upd (tget t) k v q) -> Q t' -> Q' t') ->
  inserts Q s σf N t k v r -> inserts Q' s σf N t k v r.
Proof. intros HQ (a & s' & m' & N' & t' & ? & ? & ? & ? & ? & ?). exists a, s', m', N', t'. split_and!; auto. Qed.

(** A new branch [low] below a prefix, put in a slot of its own. *)
Lemma inserts_ext s σf m N p low t q v a o s1 :
  ready s σf m N -> p <> [] -> (forall r, tget t r = match strip p r with Some r => tget low r | None => None end) ->
  inserts (fun t' => wfn t' /\ is_branch t' = true) s σf N low q v (Ok (a, o, s1)) ->
  exists i s2, allocM (New (unwrap_node a)) s1 = Ok (i, s2) /\
    inserts wfn s σf N t (p ++ q) v (Ok (InsertReplace (NodeExtension (hp p false) (InMemory i)), o, s2)).
Proof.
  intros Hrd Hp Ht (a' & s' & m' & N' & t' & [= <- -> <-] & Hmv & Hr & Hq & _ & Hw & Hb).
  destruct (moved_alloc keccak known s1 σf m' N' (New (unwrap_node a))) as (i & s2 & Ha & Hi & Hmv2); [by eapply moved_ready|].
  exists i, s2. split; [done|]. eexists _, s2, _, N', (TExt p t').
  split_and!; [by rewrite Ht, strip_app|by eapply arena_moved_trans|constructor; by constructor| |done|done].
  intros r. rewrite (upd_ext p (tget low) t' q v r Hq). by apply upd_proper.
Qed.

Lemma insert_leaf fuel s σf k w partial v :
  ready s σf ∅ ∅ -> content_ok (tget (TLeaf k w)) -> plain partial ->
  inserts wfn s σf ∅ (TLeaf k w) (nibs partial) v (insert_inspector (S (S (S fuel))) (NodeLeaf (hp k true) w) partial v None s).
Proof.
  intros Hrd Hc Hp. destruct (common_split (nibs partial) k) as (p & q & k' & Hq & -> & Hcp & Hd).
  assert (p = [] /\ diverge q k' \/ (q = [] /\ k' = [] \/ diverge q k' /\ p <> [])) as [[-> Hd']|Hnd] by (destruct Hd, p; auto).
  { eapply inserts_weaken; [|apply insert_leaf_apart; try done; by rewrite Hq]. by intros t' _ [? _]. }
  destruct (content_leaf _ _ Hc) as (Hk & Hkl & _). set (fuel' := S (S fuel)). cbn [insert_inspector].
  destruct (@from_encoded_hp Empty_set (p ++ k') true Hk ltac:(unfold bound in Hkl; lia)) as (sl & Hfe & Hsl & Hks). mpure Hfe.
  mpure (common_prefix_ok partial sl (proj1 Hp) (proj1 Hsl)). mpure (ns_len_ok sl (proj1 Hsl)).
  mpure (ns_len_ok partial (proj1 Hp)). rewrite Hks, Hcp. destruct (mid_app _ _ _ Hp Hq) as [Hp' Hq'].
  destruct (mid_app _ _ _ Hsl Hks) as [Hsl' Hks']. rewrite Hq. unfold len. rewrite !length_app.
  destruct Hnd as [[-> ->]|[Hd' Hpne]].
  - rewrite !app_nil_r, Nat.add_0_r, !Z.eqb_refl. cbn [andb]. rewrite retM.
    eexists _, s, ∅, ∅, (TLeaf p v). split_and!; [by cbn [tget]; rewrite decide_True|by eapply arena_moved_refl| | | |done].
    + case_bool_decide; constructor.
    + intros r. unfold upd. cbn [tget]. by case_decide.
    + case_bool_decide; [by subst|done].
  - clear Hd. rename Hd' into Hd. assert ((Z.of_nat (length p) =? Z.of_nat (length p + length k')) && (Z.of_nat (length p) =? Z.of_nat (length p + length q)) = false) as ->.
    { apply andb_false_iff. destruct k' as [|? ?], q as [|? ?]; try done; [right|left|left]; apply Z.eqb_neq; cbn; lia. }
    rewrite (proj2 (Z.eqb_neq (Z.of_nat (length p)) 0)) by (destruct p; [done|cbn; lia]).
    destruct k' as [|n k'].
    + rewrite Nat.add_0_r, Z.eqb_refl. rewrite app_nil_r in *.
      assert (inserts (fun t' => wfn t' /\ is_branch t' = true) s σf ∅ (TBranch empties (Some w)) q v
        (insert_inspector fuel' (NodeBranch empty_children (Some w)) (ns_mid partial (Z.of_nat (length p))) v None s)) as Hin.
      { rewrite <-Hq'. eapply inserts_weaken; [|eapply insert_branch; try done; [apply rep_c_empty|apply loose_empties|case_match; [done|apply child_empties]]].
        intros t' Ht' Hl. split; [|by destruct t']. apply (loose_wfn t' q [] Hl Hd); rewrite Ht', Hq'; [by rewrite upd_key|by apply upd_Some]. }
      pose proof Hin as (a & s1 & _ & _ & _ & Hi & _). rewrite Hi in Hin. mstep Hi.
      destruct (fun Ht => inserts_ext s σf ∅ ∅ p _ (TLeaf p w) q v _ _ _ Hrd Hpne Ht Hin) as (i & s2 & Ha & Hres).
      { intros r. rewrite <-(app_nil_r p) at 1. rewrite tget_leaf_app. destruct (strip p r) as [[|x r']|]; [done| |done].
        by rewrite tget_child, child_empties. }
      mstep Ha. mpure (ns_encoded_ok sl false (proj1 Hsl)). rewrite Hks. exact Hres.
    + rewrite (proj2 (Z.eqb_neq _ _)) by (cbn; lia). mpure (ns_encoded_ok _ true (proj1 Hsl')). rewrite Hks'.
      assert (inserts (fun t' => wfn t' /\ is_branch t' = true) s σf ∅ (TLeaf (n :: k') w) q v
        (insert_inspector fuel' (NodeLeaf (hp (n :: k') true) w) (ns_mid partial (Z.of_nat (length p))) v None s)) as Hin.
      { rewrite <-Hq'. apply insert_leaf_apart; try done; [|by rewrite Hq']. eapply (content_sub _ _ p Hc). intros r. by rewrite tget_leaf_app, strip_app. }
      pose proof Hin as (a & s1 & _ & _ & _ & Hi & _). rewrite Hi in Hin. mstep Hi.
      destruct (inserts_ext s σf ∅ ∅ p _ (TLeaf (p ++ n :: k') w) q v _ _ _ Hrd Hpne (fun r => tget_leaf_app p _ w r) Hin) as (i & s2 & Ha & Hres).
      mpure (encoded_leftmost_ok sl (length p) false (proj1 Hsl) ltac:(rewrite Hks, length_app; lia)). rewrite Hks, take_app_length.
      mstep Ha. exact Hres.
Qed.

Lemma insert_ok fuel s σf m N n t partial v :
  ready s σf m N -> rep_n m N n t -> wf t -> content_ok (tget t) -> plain partial -> (length (nibs partial) + 3 <= fuel)%nat ->
  inserts wfn s σf N t (nibs partial) v (insert_inspector fuel n partial v None s).
Proof.
  revert s σf m N n t partial. induction fuel as [|fuel IH]; intros s σf m N n t partial Hrd Hr Hw Hc Hp Hf; [lia|].
  destruct Hr as [|k w|m N k h t Hr|m N hs ch w Hr].
  - cbn [insert_inspector]. mpure (ns_encoded_ok partial true (proj1 Hp)). rewrite retM. eexists _, s, ∅, ∅, (TLeaf (nibs partial) v).
    split_and!; [done|by eapply arena_moved_refl|constructor|done|done|done].
  - destruct fuel as [|[|fuel]]; [lia..|]. by apply insert_leaf.
  - destruct Hw as [?|Hw]; [done|]. pose proof Hw as (Hne & Hb & Hwt). destruct (common_split (nibs partial) k) as (p & q & k' & Hq & -> & Hcp & Hd).
    destruct (decide (p = [])) as [->|Hpne].
    { destruct Hd as [[-> ->]|Hd]; [done|]. destruct fuel as [|fuel]; [lia|].
      eapply inserts_weaken; [|eapply insert_ext_apart; try done; by rewrite Hq]. by intros t' _ [? _]. }
    destruct (content_ext_key _ _ Hc Hwt) as (Hk & Hkl). cbn [insert_inspector].
    destruct (@from_encoded_hp Empty_set (p ++ k') false Hk ltac:(unfold bound in Hkl; lia)) as (sl & Hfe & Hsl & Hks). mpure Hfe.
    mpure (common_prefix_ok partial sl (proj1 Hp) (proj1 Hsl)). mpure (ns_len_ok sl (proj1 Hsl)). rewrite Hks, Hcp.
    destruct (mid_app _ _ _ Hp Hq) as [Hp' Hq']. destruct (mid_app _ _ _ Hsl Hks) as [Hsl' Hks']. unfold len. rewrite length_app.
    rewrite (proj2 (Z.eqb_neq (Z.of_nat (length p)) 0)) by (destruct p; [done|cbn; lia]).
    destruct k' as [|x k'].
    + rewrite Nat.add_0_r, Z.eqb_refl. rewrite app_nil_r in *.
      assert (length (nibs partial) = length p + length q)%nat as Hlen by (by rewrite Hq, length_app).
      assert (0 < length p)%nat by (destruct p; [done|cbn; lia]).
      destruct (insert_at_ok wfn (insert_inspector fuel) false s σf m N h t (ns_mid partial (Z.of_nat (length p))) v Hrd Hr)
        as (i & changed & s1 & m1 & N1 & t' & Hi & Hmv & Hr1 & Ht' & Hch & Hw'); [by right|by eapply content_ext| |].
      { intros s1 m1 N1 n Hrd1 Hr1. eapply IH; try done; [by right|by eapply content_ext|]. rewrite Hq'. lia. }
      mstep Hi. mpure (ns_encoded_ok sl false (proj1 Hsl)). rewrite Hks, retM, Hq, Hq'.
      eexists _, s1, m1, N1, (TExt p t'). split_and!; [by rewrite tget_ext|done| | | |].
      * destruct changed; by constructor.
      * intros r. rewrite Hq' in Ht'. by rewrite (upd_ext p (tget t) t' q v r Ht').
      * destruct changed; [done|]. intros _. by destruct (Hch eq_refl) as [-> ->].
      * split_and!; [done| |done]. by eapply (upd_is_branch t).
    + destruct Hd as [[_ ?]|Hd]; [done|]. destruct fuel as [|[|fuel]]; [lia..|].
      rewrite (proj2 (Z.eqb_neq _ _)) by (cbn; lia). mpure (ns_encoded_ok _ false (proj1 Hsl')). rewrite Hks'.
      assert (inserts (fun t' => wfn t' /\ is_branch t' = true) s σf N (TExt (x :: k') t) q v
        (insert_inspector (S (S fuel)) (NodeExtension (hp (x :: k') false) h) (ns_mid partial (Z.of_nat (length p))) v None s)) as Hin.
      { rewrite <-Hq'. eapply insert_ext_apart; try done; [|by rewrite Hq']. eapply (content_sub _ _ p Hc). intros r. by rewrite tget_ext_app, strip_app. }
      pose proof Hin as (a & s1 & _ & _ & _ & Hi & _). rewrite Hi in Hin. mstep Hi. rewrite Hq.
      destruct (inserts_ext s σf m N p _ (TExt (p ++ x :: k') t) q v _ _ _ Hrd Hpne (fun r => tget_ext_app p _ t r) Hin) as (i & s2 & Ha & Hres).
      mpure (encoded_leftmost_ok sl (length p) false (proj1 Hsl) ltac:(rewrite Hks, length_app; lia)). rewrite Hks, take_app_length.
      mstep Ha. exact Hres.
  - destruct Hw as [?|Hw]; [done|]. pose proof (wfn_loose _ Hw eq_refl) as Hl.
    assert (match nibs partial with [] => True | x :: _ => child ch x = TEmpty end ->
      inserts wfn s σf N (TBranch ch w) (nibs partial) v (insert_inspector (S fuel) (NodeBranch hs w) partial v None s)) as Hroom.
    { intros Hroom. eapply inserts_weaken; [|by eapply insert_branch]. intros t' Ht' Hl'. by eapply (upd_loose_wfn (TBranch ch w)). }
    destruct (nibs partial) as [|x q] eqn:Hq; [by apply Hroom|]. destruct (nibs_cons_nibble _ _ _ Hp Hq) as [Hx Hqn].
    destruct (mid_cons _ _ _ Hp Hq) as [Hp' Hq']. destruct Hl as [Hl16 Hfw]. pose proof (rep_c_length _ _ _ _ _ _ Hr) as Hlen. rewrite Hl16 in Hlen.
    destruct (rep_c_at (E := Empty_set) _ _ _ _ _ _ x Hr Hl16 Hx) as [(_ & _ & He)|(h & m1 & m2 & N1 & N2 & Hi & Hne & -> & Hdj & -> & Hrh & Hrc)].
    { by apply Hroom. }
    clear Hroom. cbn [insert_inspector]. mpure (ns_is_empty_ok partial (proj1 Hp)). rewrite Hq, bool_decide_eq_false_2 by done.
    mpure (ns_at_0 partial x q (proj1 Hp) Hq). mpure Hi.
    assert (wf (child ch x)) as Hwc by (by eapply child_wf). assert (content_ok (tget (child ch x))) as Hcc by (by eapply content_child).
    destruct (insert_at_ok wfn (insert_inspector fuel) false s (m2 ∪ σf) m1 N1 h (child ch x) (ns_mid partial 1) v) as (i & changed & s1 & m1' & N1' & t' & Hia & Hmv & Hr1 & Ht' & Hch & Hw');
      [by eapply ready_part|done|done|done| |].
    { intros s1 m1' N1' n Hrd1 Hr1. eapply IH; try done. rewrite Hq'. cbn [length] in Hf. lia. }
    mstep Hia. mstep (set_child_ok hs x (Some (InMemory i)) s1 Hlen Hx). rewrite retM.
    assert (m2 ##ₘ σf) as Hd2 by (by eapply ready_frame).
    destruct (moved_part _ _ _ _ _ _ _ N2 Hd2 Hmv) as [Hd1 Hmv'].
    eexists _, s1, _, _, (TBranch (<[Z.to_nat x := t']> ch) w). split_and!; [by rewrite Hq', <-(tget_child ch w)|exact Hmv'| | | |].
    + pose proof (rep_c_reset _ _ _ _ _ _ _ _ _ _ _ Hrc Hlen Hx Hr1 (wfn_nonempty _ Hw') Hd1) as Hrc'. destruct changed; by constructor.
    + intros r. apply upd_child; [done|done|]. by rewrite <-Hq'.
    + destruct changed; [done|]. intros _. destruct (Hch eq_refl) as [-> ->]. split; [|done]. f_equal. apply list_insert_id. by apply child_lookup.
    + eapply (upd_loose_wfn (TBranch ch w)); [done|by split| |].
      * apply loose_insert; [by split|by right].
      * intros r. apply upd_child; [done|done|]. intros r'. by rewrite Ht', Hq'.
Qed.
End insert.
