(* ===== verification/TrieRemove.v ===== *)
(** * Removal from a trie

    [fix_node] brings a node that lost an entry back into normal form, and
    [remove_inspector] turns the representation of a tree into one of the tree
    without the key. *)
From stdpp Require Import base list numbers gmap gmultiset.
From S2P Require Import Prelude RlpStream RlpEncoding RlpDecode RlpViews RlpImpls Account Nibbles HashDb Trie TrieNode TrieDb TrieDbMut TrieRep TrieSteps TrieInsert.

(** ** Trees *)
Lemma del_child ch v n c r q : length ch = 16%nat -> in_u 4 n -> (forall q, tget c q = del (tget (child ch n)) r q) ->
  tget (TBranch (<[Z.to_nat n := c]> ch) v) q = del (tget (TBranch ch v)) (n :: r) q.
Proof.
  intros Hl Hn Hc. rewrite tget_set_child by done. unfold del in *. destruct q as [|x q]; [done|]. rewrite tget_child.
  repeat case_decide; simplify_eq; rewrite ?Hc; try done; case_decide; congruence.
Qed.

Lemma del_ext p t t' k q : (forall q, tget t' q = del (tget t) k q) -> tget (TExt p t') q = del (tget (TExt p t)) (p ++ k) q.
Proof.
  intros Ht. cbn [tget]. unfold del in *. destruct (strip p q) as [r|] eqn:Hs.
  - apply strip_Some in Hs as ->. rewrite Ht. repeat case_decide; simplify_eq; try done.
  - by case_decide.
Qed.

Lemma del_value ch v q : tget (TBranch ch None) q = del (tget (TBranch ch v)) [] q.
Proof. unfold del. by destruct q; [|rewrite decide_False by done; rewrite !tget_child]. Qed.

(** A branch keeps an entry when it loses one. *)
Lemma del_branch_key ch v k : wfn (TBranch ch v) -> exists q, is_Some (del (tget (TBranch ch v)) k q).
Proof.
  intros Hw. destruct (branch_diverges _ _ Hw) as (q1 & q2 & Hd & H1 & H2). unfold del. destruct (decide (q1 = k)) as [->|Hne].
  - exists q2. rewrite decide_False; [done|]. intros ->. by destruct k.
  - exists q1. by rewrite decide_False.
Qed.

Lemma entries_set ch v i c c' : ch !! i = Some c -> nonempty c = true -> nonempty c' = true -> entries (<[i := c']> ch) v = entries ch v.
Proof.
  intros Hi Hc Hc'. unfold entries. f_equal. revert i Hi. induction ch as [|d ch IH]; intros [|i] Hi; try done.
  - cbn in *. injection Hi as ->. by rewrite Hc, Hc'.
  - specialize (IH i Hi). change (<[S i := c']> (d :: ch)) with (d :: <[i := c']> ch). cbn [List.filter]. destruct (nonempty d); cbn [length]; by rewrite IH.
Qed.

(** ** The only child of a branch *)
Section used.
Context (keccak : bytes -> Z) (known : bytes -> Prop).

Lemma used_many_loop hs i u : used_index_loop hs i (UsedOne u) = UsedOne u \/ used_index_loop hs i (UsedOne u) = UsedMany.
Proof. revert i. induction hs as [|[h|] hs IH]; intros i; cbn; auto. Qed.

Lemma used_one_loop m N hs ts i u : rep_c keccak known m N hs ts ->
  (used_index_loop hs i (UsedOne u) = UsedOne u /\ m = ∅ /\ N = ∅ /\ Forall (fun t => t = TEmpty) ts) \/
  (used_index_loop hs i (UsedOne u) = UsedMany /\ (1 <= length (List.filter nonempty ts))%nat).
Proof.
  intros Hr. revert i. induction Hr as [|m N hs ts Hr IH|m1 m2 N1 N2 h t hs ts Hd Hh Hne Hr IH]; intros i; cbn [used_index_loop].
  - left. by split_and!.
  - destruct (IH (i + 1)) as [(-> & -> & -> & Hf)|[-> Hf]]; [left|right]; split_and!; try done. by constructor.
  - right. split; [done|]. cbn. rewrite Hne. cbn. lia.
Qed.

Inductive used_view (m : gmap nat Stored) (N : gmultiset Z) (hs : list (option NodeHandle)) (ts : list trie) (i : Z) : UsedIndex -> Prop :=
  | uv_none : m = ∅ -> N = ∅ -> Forall (fun t => t = TEmpty) ts -> used_view m N hs ts i UsedNone
  | uv_one j h t : hs !! j = Some (Some h) -> ts !! j = Some t -> nonempty t = true -> rep_h keccak known false m N h t ->
      (forall j' t', j' <> j -> ts !! j' = Some t' -> t' = TEmpty) -> used_view m N hs ts i (UsedOne (i + Z.of_nat j))
  | uv_many : (2 <= length (List.filter nonempty ts))%nat -> used_view m N hs ts i UsedMany.

Lemma used_index_view m N hs ts i : rep_c keccak known m N hs ts -> used_view m N hs ts i (used_index_loop hs i UsedNone).
Proof.
  intros Hr. revert i. induction Hr as [|m N hs ts Hr IH|m1 m2 N1 N2 h t hs ts Hd Hh Hne Hr IH]; intros i; cbn [used_index_loop].
  - by constructor.
  - destruct (IH (i + 1)) as [-> -> Hf|j h t Hj Ht Hne Hh Ho|Hf].
    + constructor; try done. by constructor.
    + replace (i + 1 + Z.of_nat j) with (i + Z.of_nat (S j)) by lia. apply (uv_one _ _ _ _ _ (S j) h t); try done.
      intros [|j'] t' Hj' Ht'; [by injection Ht'|]. eapply (Ho j'); [congruence|done].
    + by constructor.
  - destruct (used_one_loop _ _ _ _ (i + 1) i Hr) as [(-> & -> & -> & Hf)|[-> Hf]].
    + replace i with (i + Z.of_nat 0) at 2 by lia. apply (uv_one _ _ _ _ _ 0%nat h t); try done.
      * by rewrite (right_id_L ∅ (∪)), (right_id_L (∅ : gmultiset Z) (⊎)).
      * intros [|j'] t' Hj' Ht'; [done|]. cbn in Ht'. exact (Forall_lookup_1 _ _ _ _ Hf Ht').
    + constructor. cbn. rewrite Hne. cbn. lia.
Qed.
End used.

Lemma tget_only ch j t q : length ch = 16%nat -> ch !! j = Some t -> (forall j' t', j' <> j -> ch !! j' = Some t' -> t' = TEmpty) ->
  tget (TBranch ch None) q = tget (TExt [Z.of_nat j] t) q.
Proof.
  intros Hl Hj Ho. destruct q as [|x q]; [done|]. rewrite tget_branch. cbn [tget]. unfold strip. cbn [length firstn skipn]. rewrite take_0, drop_0.
  destruct (Z.leb_spec 0 x).
  - destruct (decide ([x] = [Z.of_nat j])) as [[= ->]|Hne]; [by rewrite Nat2Z.id, Hj|].
    destruct (ch !! Z.to_nat x) as [t'|] eqn:Ht'; [|done]. cbn. rewrite (Ho (Z.to_nat x) t'); [done| |done].
    intros <-. apply Hne. f_equal. lia.
  - rewrite decide_False; [done|]. intros [= ->]. lia.
Qed.

Lemma from_encoded_offset {E} d s (leaf : bool) : @from_encoded E d = Ok (s, leaf) -> ns_offset s <= 2.
Proof. unfold from_encoded. destruct (index d 0); try done. cbn. intros [= <- _]. cbn. case_match; lia. Qed.

Lemma hp_composed {E} k1 k2 l1 l2 leaf : is_nibbles (k1 ++ k2) -> len (k1 ++ k2) < bound ->
  exists s1 s2, @from_encoded E (hp k1 l1) = Ok (s1, l1) /\ @from_encoded E (hp k2 l2) = Ok (s2, l2) /\
    @ns_encoded E (ns_new_composed s1 s2) leaf = Ok (hp (k1 ++ k2) leaf).
Proof.
  intros Hk Hl. apply Forall_app in Hk as [H1 H2]. rewrite len_app in Hl. pose proof (len_nonneg k1). pose proof (len_nonneg k2). unfold bound in Hl.
  destruct (@from_encoded_hp E k1 l1 H1 ltac:(lia)) as (s1 & He1 & Hs1 & <-), (@from_encoded_hp E k2 l2 H2 ltac:(lia)) as (s2 & He2 & Hs2 & <-).
  exists s1, s2. split_and!; [done|done|]. destruct (composed_ok s1 s2 Hs1 Hs2) as [Hw Hn]; [lia|by eapply from_encoded_offset|by eapply from_encoded_offset|].
  by rewrite ns_encoded_ok, Hn.
Qed.

Lemma nibble_encoded {E} a : in_u 4 a -> @ns_encoded E (ns_new_offset [a] 1) false = Ok (hp [a] false).
Proof. revert a. apply nibble_cases. repeat (constructor; [reflexivity|]). constructor. Qed.

(** ** The code *)
Section remove.
Context {DB : Type} {H : HashStore DB} (keccak : bytes -> Z) {L : HashStoreLaws DB H keccak} (known : bytes -> Prop).
Context (Hh : hash_ok keccak known).

Abbreviation rep_h := (rep_h keccak known).
Abbreviation rep_n := (rep_n keccak known).
Abbreviation rep_c := (rep_c keccak known).
Abbreviation ready := (ready keccak known).
Implicit Types s : TrieDBMut DB.

(** The node stands for the same map, in normal form. *)
Definition fixes s σf N t (r : outcome (TrieError * TrieDBMut DB) (Node * TrieDBMut DB)) : Prop :=
  exists n s' m' N' t', r = Ok (n, s') /\ moved s s' σf N m' N' /\ rep_n m' N' n t' /\ wfn t' /\ (forall q, tget t' q = tget t q).

(** Dropping a cached node that is merged with its parent. *)
Lemma kill_stored s σf m N x N0 : ready s σf m N -> N = rewrap_refs x N0 ->
  exists s', (match (match x with New _ => None | Cached _ hash => Some hash end) with Some hash => killM hash | None => mret tt end) s = Ok (tt, s') /\
    moved s s' σf N m N0.
Proof.
  intros [] ->. exists (with_death (killed x ∪ death_row s) s). split.
  - destruct x; cbn [killed]; [|done]. rewrite retM, (left_id_L ∅ (∪)). by destruct s.
  - split; try done. intros y. cbn [death_row with_death]. rewrite owed_rewrap. by eapply owed_killed.
Qed.

Lemma fix_ext_branch fuel s σf m N k h t :
  ready s σf m N -> rep_h false m N h t -> wfn t -> is_branch t = true -> k <> [] -> content_ok (tget t) ->
  fixes s σf N (TExt k t) (fix_node (S fuel) (NodeExtension (hp k false) h) s).
Proof.
  intros Hrd Hr Hw Hb Hk Hc. cbn [fix_node].
  destruct (take_node_ok keccak known Hh s σf false m N h t Hrd Hr (or_intror Hw) Hc) as (x & s1 & m1 & Ht & Hmv1 & _ & Hs1). mstep Ht.
  pose proof (moved_ready _ _ _ _ _ _ _ _ _ Hrd Hmv1) as Hrd1.
  destruct (moved_alloc keccak known s1 σf m1 N x Hrd1) as (i & s2 & Ha & Hi & Hmv2).
  destruct (rep_s_node _ _ _ _ _ _ _ Hs1) as (N0 & Hr0 & _).
  assert (exists hs v, stored_node x = NodeBranch hs v) as (hs & v & Hx) by (destruct Hr0; try done; eauto).
  exists (NodeExtension (hp k false) (InMemory i)), s2, (<[i := x]> m1), N, (TExt k t). split_and!.
  - destruct x as [n|n hash]; cbn [stored_node] in Hx; subst n; by mstep Ha.
  - by eapply arena_moved_trans.
  - constructor. by apply rep_h_alloc.
  - by split_and!.
  - done.
Qed.

Lemma fix_ext fuel s σf m N k h t :
  ready s σf m N -> rep_h false m N h t -> wfn t -> k <> [] -> content_ok (tget (TExt k t)) ->
  fixes s σf N (TExt k t) (fix_node (S (S fuel)) (NodeExtension (hp k false) h) s).
Proof.
  intros Hrd Hr Hw Hk Hc. pose proof (content_ext _ _ Hc) as Hct. set (fuel' := S fuel).
  destruct (is_branch t) eqn:Hb; [by eapply fix_ext_branch|]. cbn [fix_node].
  destruct (take_node_ok keccak known Hh s σf false m N h t Hrd Hr (or_intror Hw) Hct) as (x & s1 & m1 & Ht & Hmv1 & _ & Hs1). mstep Ht.
  pose proof (moved_ready _ _ _ _ _ _ _ _ _ Hrd Hmv1) as Hrd1.
  destruct (rep_s_node _ _ _ _ _ _ _ Hs1) as (N0 & Hr0 & HN0).
  destruct (kill_stored s1 σf m1 N x N0 Hrd1 HN0) as (s2 & Hkill & Hmv2). pose proof (moved_ready _ _ _ _ _ _ _ _ _ Hrd1 Hmv2) as Hrd2.
  assert (Hx : (match x with New node => (node, None) | Cached node hash => (node, Some hash) end) =
    (stored_node x, match x with New _ => None | Cached _ hash => Some hash end)) by (by destruct x).
  rewrite Hx. clear Hx. cbv beta iota. destruct Hr0 as [|k2 v|m1 N0 k2 h2 t2 Hr2|]; try done.
  - mstep Hkill. assert (is_nibbles (k ++ k2) /\ len (k ++ k2) < bound) as [Hn Hl].
    { destruct (Hc (k ++ k2) v) as (? & ? & _); [|done]. rewrite tget_ext. cbn. by rewrite decide_True. }
    destruct (@hp_composed Empty_set k k2 false true true Hn Hl) as (sl1 & sl2 & He1 & He2 & He). mpure He1. mpure He2. mpure He. rewrite retM.
    eexists _, s2, ∅, ∅, (TLeaf (k ++ k2) v). split_and!; [done|by eapply arena_moved_trans|constructor|done|]. intros q. by rewrite tget_leaf_app.
  - mstep Hkill. destruct Hw as (Hk2 & Hb2 & Hw2). destruct (wfn_key _ Hw2) as (q & w & Hq).
    assert (is_nibbles (k ++ k2) /\ len (k ++ k2) < bound) as [Hn Hl].
    { destruct (Hc (k ++ k2 ++ q) w) as (Hn & Hl & _); [by rewrite !tget_ext|]. rewrite app_assoc in Hn, Hl. apply Forall_app in Hn as [? _].
      rewrite len_app in Hl. pose proof (len_nonneg q). split; [done|lia]. }
    destruct (@hp_composed Empty_set k k2 false false false Hn Hl) as (sl1 & sl2 & He1 & He2 & He). mpure He1. mpure He2. mpure He.
    destruct (fix_ext_branch fuel s2 σf m1 N0 (k ++ k2) h2 t2 Hrd2 Hr2 Hw2 Hb2) as (n & s3 & m3 & N3 & t3 & Hf & Hmv3 & Hr3 & Hw3 & Hq3);
      [by destruct k|by eapply content_ext|].
    fold fuel' in Hf. rewrite Hf. exists n, s3, m3, N3, t3. split_and!; [done|by do 2 (eapply arena_moved_trans; [done|])|done|done|].
    intros r. by rewrite Hq3, tget_ext_app.
Qed.

Lemma fix_branch fuel s σf m N hs ch v :
  ready s σf m N -> rep_c m N hs ch -> loose (TBranch ch v) -> content_ok (tget (TBranch ch v)) -> (exists q, is_Some (tget (TBranch ch v) q)) ->
  fixes s σf N (TBranch ch v) (fix_node (S (S (S fuel))) (NodeBranch hs v) s).
Proof.
  intros Hrd Hr [Hl Hf] Hc [q Hq]. set (fuel' := S (S fuel)). cbn [fix_node].
  pose proof (rep_c_length _ _ _ _ _ _ Hr) as Hlen. rewrite Hl in Hlen.
  assert (Hkeep : (2 <= entries ch v)%nat -> fixes s σf N (TBranch ch v) (mret (M := M) (NodeBranch hs v) s)).
  { intros He. eexists _, s, m, N, (TBranch ch v). rewrite retM. split_and!; [done|by eapply arena_moved_refl|by constructor|by apply wfn_branch|done]. }
  destruct (used_index_view _ _ _ _ _ _ 0 Hr) as [-> -> Hall|j h t Hj Ht Hne Hrh Ho|Hmany].
  - assert (forall r x, tget (TBranch ch v) (x :: r) = None) as Hnone.
    { intros r x. rewrite tget_child. unfold child. case_match; [|done]. destruct (ch !! _) eqn:Hx; [|done]. cbn. by rewrite (Forall_lookup_1 _ _ _ _ Hall Hx). }
    destruct v as [v|].
    + mpure (ns_encoded_ok (ns_new []) true (proj1 (plain_new [] (Forall_nil_2 _) eq_refl))). rewrite retM.
      eexists _, s, ∅, ∅, (TLeaf [] v). split_and!; [done|by eapply arena_moved_refl|constructor|done|]. intros [|x r]; [done|]. by rewrite Hnone.
    + exfalso. destruct q as [|x q]; [by destruct Hq|]. rewrite Hnone in Hq. by destruct Hq.
  - rewrite Z.add_0_l in *. apply lookup_lt_Some in Ht as Hj16. rewrite Hl in Hj16.
    assert (in_u 4 (Z.of_nat j)) as Hj4 by (split; [lia|]; change (2 ^ 4) with 16; lia).
    destruct v as [v|].
    { apply Hkeep. unfold entries. pose proof (filter_nonempty_lookup ch j t Ht Hne). lia. }
    mpure (nibble_encoded (Z.of_nat j) Hj4). mpure (index_ok hs (Z.of_nat j) (Some h) ltac:(lia) ltac:(by rewrite Nat2Z.id)).
    pose proof (fun r => tget_only ch j t r Hl Ht Ho) as Honly.
    destruct (fix_ext fuel s σf m N [Z.of_nat j] h t Hrd Hrh) as (n & s1 & m1 & N1 & t1 & Hfx & Hmv & Hr1 & Hw1 & Hq1); [| done | |].
    + eapply wf_nonempty; [by eapply Forall_lookup_1|done].
    + intros r w. rewrite <-Honly. apply Hc.
    + fold fuel' in Hfx. rewrite Hfx. exists n, s1, m1, N1, t1. split_and!; try done. intros r. by rewrite Hq1, Honly.
  - apply Hkeep. unfold entries. lia.
Qed.

(** ** Removing a key *)
Definition removes s σf N t k (r : outcome (TrieError * TrieDBMut DB) (Action * option bytes * TrieDBMut DB)) : Prop :=
  exists a s', r = Ok (a, tget t k, s') /\
    match a with
    | Delete => moved s s' σf N ∅ ∅ /\ forall q, del (tget t) k q = None
    | Restore n => exists m', moved s s' σf N m' N /\ rep_n m' N n t /\ tget t k = None /\ wfn t
    | Replace n => exists m' N' t', moved s s' σf N m' N' /\ rep_n m' N' n t' /\ wfn t' /\ forall q, tget t' q = del (tget t) k q
    end.

Definition removes_at top s σf N t k
    (r : outcome (TrieError * TrieDBMut DB) (option (StorageHandle * bool) * option bytes * TrieDBMut DB)) : Prop :=
  exists o s', r = Ok (o, tget t k, s') /\
    match o with
    | None => moved s s' σf N ∅ ∅ /\ forall q, del (tget t) k q = None
    | Some (i, changed) => exists m' N' t', moved s s' σf N m' N' /\ rep_h top m' N' (InMemory i) t' /\ wfn t' /\
        (forall q, tget t' q = del (tget t) k q) /\ (changed = false -> t' = t /\ N' = N /\ tget t k = None)
    end.

Lemma remove_at_ok insp top s σf m N h t partial :
  ready s σf m N -> rep_h top m N h t -> wf t -> content_ok (tget t) ->
  (forall s1 m1 N1 n, ready s1 σf m1 N1 -> rep_n m1 N1 n t -> removes s1 σf N1 t (nibs partial) (insp n partial None s1)) ->
  removes_at top s σf N t (nibs partial) (remove_at insp h partial None s).
Proof.
  intros Hrd Hr Hw Hc Hinsp. unfold remove_at.
  destruct (take_node_ok keccak known Hh s σf top m N h t Hrd Hr Hw Hc) as (x & s1 & m1 & Ht & Hmv1 & Hdr1 & Hs1). mstep Ht.
  pose proof (moved_ready _ _ _ _ _ _ _ _ _ Hrd Hmv1) as Hrd1.
  destruct (rep_s_node _ _ _ _ _ _ _ Hs1) as (N1 & Hr1 & HN1).
  destruct (Hinsp s1 m1 N1 (stored_node x)) as (a & s2 & Hi & Hcase); [rewrite HN1 in Hrd1; by eapply ready_stored|done|].
  assert (Hgo : forall m2 N2, moved s1 s2 σf N1 m2 N2 -> exists s3,
    inspect x (fun node => insp node partial None) s1 =
      Ok (match a with Restore n => Some (rewrap x n, false) | Replace n => Some (New n, true) | Delete => None end, tget t (nibs partial), s3) /\
    moved s s3 σf N m2 (action_refs x a N2)).
  { intros m2 N2 Hmv2. destruct (inspect_moved keccak known Hh _ _ _ _ _ _ _ _ _ (fun node => insp node partial None) _ _ _ _ Hrd1 Hs1 Hr1 HN1 Hi Hmv2) as (s3 & Hins & Hmv3).
    exists s3. split; [done|]. by eapply arena_moved_trans. }
  destruct a as [n|n|]; cbn [action_refs] in *.
  - destruct Hcase as (m2 & N2 & t' & Hmv2 & Hr2 & Hw2 & Hq). destruct (Hgo _ _ Hmv2) as (s3 & Hins & Hmv3). mstep Hins.
    destruct (moved_alloc keccak known s3 σf m2 N2 (New n)) as (i & s4 & Ha & Hi4 & Hmv4); [exact (moved_ready _ _ _ _ _ _ _ _ _ Hrd Hmv3)|]. mstep Ha. rewrite retM.
    eexists (Some (i, true)), s4. split; [done|]. eexists _, N2, t'. split_and!; [by eapply arena_moved_trans|by constructor|done|done|done].
  - destruct Hcase as (m2 & Hmv2 & Hr2 & Hno & Hwn). destruct (Hgo _ _ Hmv2) as (s3 & Hins & Hmv3). rewrite <-HN1 in Hmv3. mstep Hins.
    destruct (moved_alloc keccak known s3 σf m2 N (rewrap x n)) as (i & s4 & Ha & Hi4 & Hmv4); [exact (moved_ready _ _ _ _ _ _ _ _ _ Hrd Hmv3)|]. mstep Ha. rewrite retM.
    eexists (Some (i, false)), s4. split; [done|]. eexists _, _, t. split_and!; [by eapply arena_moved_trans| |done|intros q; by rewrite (del_same _ _ Hno)|done].
    apply rep_h_alloc; [|done]. by eapply rep_s_rewrap.
  - destruct Hcase as [Hmv2 Hq]. destruct (Hgo _ _ Hmv2) as (s3 & Hins & Hmv3). mstep Hins. rewrite retM. by eexists None, s3.
Qed.

(** The node after an entry was taken out of it. *)
Lemma removes_fix s s1 σf m1 N N1 t k n t1 fuel :
  ready s1 σf m1 N1 -> moved s s1 σf N m1 N1 ->
  fixes s1 σf N1 t1 (fix_node fuel n s1) -> (forall q, tget t1 q = del (tget t) k q) ->
  removes s σf N t k ((n ← fix_node fuel n; mret (Replace n, tget t k)) s1).
Proof.
  intros Hrd Hmv (n' & s2 & m2 & N2 & t2 & Hf & Hmv2 & Hr2 & Hw2 & Hq2) Hq. mstep Hf. rewrite retM. eexists _, s2. split; [done|].
  exists m2, N2, t2. split_and!; [by eapply arena_moved_trans|done|done|]. intros q. by rewrite Hq2.
Qed.

Lemma removes_restore s σf m N n t k : ready s σf m N -> rep_n m N n t -> wfn t -> tget t k = None ->
  removes s σf N t k (mret (M := M) (Restore n, None) s).
Proof.
  intros Hrd Hr Hw Hk. eexists (Restore n), s. split; [by rewrite Hk|]. exists m. split_and!; try done. by eapply arena_moved_refl.
Qed.

Lemma remove_branch_child fuel hs w partial x q s :
  plain partial -> nibs partial = x :: q -> length hs = 16%nat -> in_u 4 x ->
  remove_inspector (S fuel) (NodeBranch hs w) partial None s =
  (c ← pureM (index hs x);
   match c with
   | Some child =>
       '(r, old_val) ← remove_at (remove_inspector fuel) child (ns_mid partial 1) None;
       match r with
       | Some (new, changed) =>
           mret (if (changed : bool) then Replace (NodeBranch (<[Z.to_nat x := Some (InMemory new)]> hs) w)
                 else Restore (NodeBranch (<[Z.to_nat x := Some (InMemory new)]> hs) w), old_val)
       | None => n ← fix_node fuel (NodeBranch (<[Z.to_nat x := None]> hs) w); mret (Replace n, old_val)
       end
   | None => mret (Restore (NodeBranch hs w), None)
   end) s.
Proof.
  intros Hp Hq Hl Hx. cbn [remove_inspector]. mpure (ns_is_empty_ok partial (proj1 Hp)). rewrite Hq, bool_decide_eq_false_2 by done.
  destruct w; mpure (ns_at_0 partial x q (proj1 Hp) Hq); unfold mbind, M_bind; (destruct (pureM _ s) as [[[c|] s1]| |]; try done);
    rewrite (set_child_ok hs x None s1 Hl Hx); (destruct (remove_at _ _ _ _ s1) as [[[[[i changed]|] o] s2]| |]; try done);
    by rewrite (set_child_ok _ x _ s2) by (done || by rewrite length_insert); rewrite list_insert_insert_eq.
Qed.

Lemma trie_remove_ok fuel s σf m N n t partial :
  ready s σf m N -> rep_n m N n t -> wf t -> content_ok (tget t) -> plain partial -> (length (nibs partial) + 4 <= fuel)%nat ->
  removes s σf N t (nibs partial) (remove_inspector fuel n partial None s).
Proof.
  revert s σf m N n t partial. induction fuel as [|fuel IH]; intros s σf m N n t partial Hrd Hr Hw Hc Hp Hf; [lia|].
  destruct Hr as [|k w|m N k h t Hr|m N hs ch w Hr]; [| | |destruct (nibs partial) as [|x q] eqn:Hq];
    [cbn [remove_inspector]; mpure (ns_is_empty_ok partial (proj1 Hp))..|].
  - rewrite retM. eexists Delete, s. split; [done|]. split; [by eapply arena_moved_refl|]. intros q. unfold del. by case_decide.
  - destruct (content_leaf _ _ Hc) as (Hk & Hkl & _).
    destruct (@from_encoded_hp Empty_set k true Hk ltac:(unfold bound in Hkl; lia)) as (sl & Hfe & Hsl & Hks). mpure Hfe.
    mpure (ns_eq_ok sl partial (proj1 Hsl) (proj1 Hp)). rewrite Hks. case_bool_decide as He.
    + rewrite retM. eexists Delete, s. split; [cbn [tget]; by rewrite decide_True|]. split; [by eapply arena_moved_refl|].
      intros q. unfold del. cbn [tget]. repeat case_decide; congruence.
    + eapply removes_restore; try done; [constructor|]. cbn [tget]. by rewrite decide_False.
  - destruct Hw as [?|Hw]; [done|]. pose proof Hw as (Hne & Hb & Hwt). destruct (content_ext_key _ _ Hc Hwt) as (Hk & Hkl).
    destruct (@from_encoded_hp Empty_set k false Hk ltac:(unfold bound in Hkl; lia)) as (sl & Hfe & Hsl & Hks). mpure Hfe.
    mpure (common_prefix_ok sl partial (proj1 Hsl) (proj1 Hp)). mpure (ns_len_ok sl (proj1 Hsl)). rewrite Hks. unfold len.
    destruct (Z.eqb_spec (Z.of_nat (common k (nibs partial))) (Z.of_nat (length k))) as [He|He].
    2: { eapply removes_restore; try done; [by constructor|]. cbn [tget]. destruct (strip k (nibs partial)) as [r|] eqn:Hs; [|done].
         apply strip_Some in Hs. exfalso. apply He. by rewrite Hs, common_app. }
    apply Nat2Z.inj in He. rewrite common_comm in He. apply common_full in He as Hex. destruct Hex as [q Hq]. rewrite common_comm in He. rewrite He.
    destruct (mid_app _ _ _ Hp Hq) as [Hp' Hq']. assert (length (nibs partial) = length k + length q)%nat as Hlen by (by rewrite Hq, length_app).
    assert (0 < length k)%nat by (destruct k; [done|cbn; lia]).
    destruct (remove_at_ok (remove_inspector fuel) false s σf m N h t (ns_mid partial (Z.of_nat (length k))) Hrd Hr) as (o & s1 & Hi & Hcase);
      [by right|by eapply content_ext| |].
    { intros s1 m1 N1 n Hrd1 Hr1. eapply IH; try done; [by right|by eapply content_ext|]. rewrite Hq'. lia. }
    mstep Hi. rewrite Hq' in *. rewrite Hq, <-(tget_ext k t q). destruct o as [[i changed]|].
    + destruct Hcase as (m1 & N1 & t' & Hmv & Hr1 & Hw' & Ht' & Hch). destruct changed.
      * assert (content_ok (tget (TExt k t'))) as Hc'.
        { intros r v Hv. rewrite (del_ext k t t' q r Ht') in Hv. by apply (content_del _ _ Hc r v Hv). }
        destruct fuel as [|[|fuel]]; [lia..|].
        eapply (removes_fix s s1 σf m1 N N1 (TExt k t) (k ++ q)); [by eapply moved_ready|done| |].
        -- eapply fix_ext; try done. by eapply moved_ready.
        -- intros r. by apply del_ext.
      * destruct (Hch eq_refl) as (-> & -> & Hno). rewrite retM. eexists (Restore _), s1. split; [done|]. exists m1.
        split_and!; [done|by constructor|by rewrite tget_ext|done].
    + rewrite retM. destruct Hcase as [Hmv Hno]. eexists Delete, s1. split; [done|]. split; [done|].
      intros r. rewrite <-(del_ext k t TEmpty q r); [by cbn [tget]; case_match|]. intros r'. by rewrite Hno.
  - (* the value of a branch *)
    rewrite Hq, bool_decide_eq_true_2 by done.
    destruct Hw as [?|Hw]; [done|]. destruct (wfn_loose _ Hw eq_refl) as [Hl16 Hfw]. destruct w as [w|].
    + destruct fuel as [|[|[|fuel]]]; [cbn in Hf; lia..|].
      change (Some w) with (tget (TBranch ch (Some w)) []) at 2.
      eapply (removes_fix s s σf m N N (TBranch ch (Some w)) []); [done|by eapply arena_moved_refl| |intros r; by apply del_value].
      destruct (del_branch_key ch (Some w) [] Hw) as [r Hr']. eapply fix_branch; try done.
      * intros r' v Hv. rewrite (del_value ch (Some w)) in Hv. by apply (content_del _ _ Hc r' v Hv).
      * exists r. by rewrite (del_value ch (Some w)).
    + eapply removes_restore; try done. by constructor.
  - (* a child of a branch *)
    destruct Hw as [?|Hw]; [done|]. destruct (wfn_loose _ Hw eq_refl) as [Hl16 Hfw].
    destruct (nibs_cons_nibble _ _ _ Hp Hq) as [Hx Hqn]. destruct (mid_cons _ _ _ Hp Hq) as [Hp' Hq'].
    pose proof (rep_c_length _ _ _ _ _ _ Hr) as Hlen. rewrite Hl16 in Hlen.
    assert (wf (child ch x)) as Hwc by (by eapply child_wf). assert (content_ok (tget (child ch x))) as Hcc by (by eapply content_child).
    rewrite (remove_branch_child fuel hs w partial x q s) by done.
    destruct (rep_c_at (E := Empty_set) _ _ _ _ _ _ x Hr Hl16 Hx) as [(Hi & _ & He)|(h & m1 & m2 & N1 & N2 & Hi & Hne & -> & Hdj & -> & Hrh & Hrc)]; mpure Hi.
    { eapply removes_restore; try done; [by constructor|]. by rewrite tget_child, He. }
    destruct (remove_at_ok (remove_inspector fuel) false s (m2 ∪ σf) m1 N1 h (child ch x) (ns_mid partial 1)) as (o & s1 & Hia & Hcase);
      [by eapply ready_part|done|done|done| |].
    { intros s1 m1' N1' n Hrd1 Hr1. eapply IH; try done. rewrite Hq'. cbn [length] in Hf. lia. }
    mstep Hia. rewrite Hq' in *. rewrite <-(tget_child ch w). pose proof (ready_frame _ _ _ _ _ _ _ Hrd) as Hd2. destruct o as [[i changed]|].
    + destruct Hcase as (m1' & N1' & t' & Hmv & Hr1 & Hw' & Ht' & Hch). destruct (moved_part _ _ _ _ _ _ _ N2 Hd2 Hmv) as [Hd1 Hmv'].
      pose proof (rep_c_reset _ _ _ _ _ _ _ _ _ _ _ Hrc Hlen Hx Hr1 (wfn_nonempty _ Hw') Hd1) as Hrc'. rewrite retM.
      destruct changed.
      * eexists (Replace _), s1. split; [done|]. eexists _, _, (TBranch (<[Z.to_nat x := t']> ch) w). split_and!; [done|by constructor| |].
        -- apply wfn_branch in Hw as (_ & _ & He). apply wfn_branch. split_and!; [by rewrite length_insert|apply Forall_insert; [done|by right]|].
           by rewrite (entries_set ch w (Z.to_nat x) (child ch x) t') by (done || by apply child_lookup || by apply wfn_nonempty).
        -- intros r. by apply del_child.
      * destruct (Hch eq_refl) as (-> & -> & Hno). eexists (Restore _), s1. split; [done|]. eexists _. split_and!; [exact Hmv'| |by rewrite tget_child|done].
        rewrite (list_insert_id ch) in Hrc' by (by apply child_lookup). by constructor.
    + destruct Hcase as [Hmv Hno]. destruct (moved_part _ _ _ _ _ _ _ N2 Hd2 Hmv) as [_ Hmv'].
      rewrite map_empty_union, (left_id_L (∅ : gmultiset Z) (⊎)) in Hmv'. destruct fuel as [|[|[|fuel]]]; [cbn in Hf; lia..|].
      assert (forall r, tget (TBranch (<[Z.to_nat x := TEmpty]> ch) w) r = del (tget (TBranch ch w)) (x :: q) r) as Hdel.
      { intros r. apply del_child; [done|done|]. intros r'. by rewrite Hno. }
      eapply (removes_fix s s1 σf m2 _ N2 (TBranch ch w) (x :: q)); [by eapply moved_ready|exact Hmv'| |exact Hdel].
      eapply fix_branch; [by eapply moved_ready|done| | |].
      * apply loose_insert; [by split|by left].
      * intros r v Hv. rewrite Hdel in Hv. by apply (content_del _ _ Hc r v Hv).
      * destruct (del_branch_key ch w (x :: q) Hw) as [r Hr']. exists r. by rewrite Hdel.
Qed.
End remove.
