(* ===== verification/TrieCommit.v ===== *)
(** * Committing a trie

    [commit] writes the tree that the arena stands for: every node that is not
    short is inserted under its hash once per position, the nodes on the death
    row lose one reference, and the root becomes the hash of the whole tree. *)
From stdpp Require Import base list numbers gmap gmultiset.
From S2P Require Import Prelude RlpStream RlpEncoding RlpDecode RlpViews RlpImpls RlpCodecs Account AccountCodec Nibbles HashDb Trie TrieNode TrieDb.
From S2P Require Import TrieDbMut TrieRep TrieSteps.

(** ** Encodings *)
Lemma building_hash n its s h :
  in_u 256 h -> building n its s -> len its < n -> n < 2 ^ 64 -> len (concat (map rlp_enc (its ++ [Data (Z_to_be 32 h)]))) < 2 ^ 32 ->
  exists s', append_hash s h = Ok s' /\ building n (its ++ [Data (Z_to_be 32 h)]) s'.
Proof.
  intros Hh Hb Hn Hn64 Hl. unfold append_hash. rewrite (append_push h256_Encodable h (Z_to_be 32 h) s) by (by rewrite ?len_Z_to_be || intros; reflexivity).
  by apply building_push.
Qed.

Section commit.
Context {DB : Type} {H : HashStore DB} (keccak : bytes -> Z) {L : HashStoreLaws DB H keccak} (known : bytes -> Prop).
Context (Hh : hash_ok keccak known).

Abbreviation rep_h := (rep_h keccak known).
Abbreviation rep_n := (rep_n keccak known).
Abbreviation rep_c := (rep_c keccak known).
Abbreviation enc := (enc keccak).
Abbreviation ref := (ref keccak).
Abbreviation hashed := (hashed keccak).
Abbreviation below := (below keccak).
Abbreviation nodes := (nodes keccak).
Abbreviation keys_of := (keys_of keccak).
Abbreviation db_ok := (db_ok keccak known).
Implicit Types s : TrieDBMut DB.

Lemma enc_not_null t : wfn t -> enc t <> NULL_RLP.
Proof.
  assert (forall l, rlp_enc (List l) <> NULL_RLP) as Hl.
  { intros l. cbn [rlp_enc]. unfold header, NULL_RLP. pose proof (len_nonneg (concat (map rlp_enc l))). case_match; cbn; intros [=]; b2p; [lia|].
    assert (0 <= byte_len (len (concat (map rlp_enc l)))); [|lia]. unfold byte_len. case_match; [done|].
    pose proof (Z.div_pos (Z.log2 (len (concat (map rlp_enc l)))) 8 (Z.log2_nonneg _) ltac:(lia)). lia. }
  destruct t; [done|intros _; apply Hl..].
Qed.

(** ** Reference counts *)

(** There is room for [k] more references. *)
Definition room (d : DB) (k : Z) : Prop := forall x, x <> KECCAK_NULL_RLP -> hdb_refs d x + k <= 2 ^ 31 - 1.

(** The nodes [l] were added, in exchange for the references [N]. *)
Definition counts (d d' : DB) (N : gmultiset Z) (l : list bytes) : Prop :=
  forall x, x <> KECCAK_NULL_RLP -> hdb_refs d' x = hdb_refs d x + Z.of_nat (multiplicity x (keys_of l)) - Z.of_nat (multiplicity x N).

Lemma multiplicity_keys_le l x : (multiplicity x (keys_of l) <= length l)%nat.
Proof.
  induction l as [|b l IH]; [unfold TrieRep.keys_of; cbn [map list_to_set_disj]; rewrite multiplicity_empty; lia|].
  rewrite keys_of_cons, multiplicity_disj_union, multiplicity_singleton. cbn [length]. case_decide; lia.
Qed.

Lemma room_counts d d' N l k : room d (len l + k) -> counts d d' N l -> room d' k.
Proof. intros Hr Hc x Hx. rewrite (Hc x Hx). specialize (Hr x Hx). pose proof (multiplicity_keys_le l x). unfold len in Hr. lia. Qed.

Lemma room_le d k k' : room d k -> k' <= k -> room d k'.
Proof. intros Hr Hk x Hx. specialize (Hr x Hx). lia. Qed.

Lemma counts_refl d N l : N = keys_of l -> counts d d N l.
Proof. intros -> x _. lia. Qed.

Lemma counts_app d1 d2 d3 N1 N2 l1 l2 : counts d1 d2 N1 l1 -> counts d2 d3 N2 l2 -> counts d1 d3 (N1 ⊎ N2) (l1 ++ l2).
Proof.
  intros H1 H2 x Hx. rewrite (H2 x Hx), (H1 x Hx), keys_of_app, !multiplicity_disj_union. lia.
Qed.

Lemma insert_counts d b : db_ok d -> known b -> b <> NULL_RLP -> room d 1 ->
  exists d', hdb_insert d b = Ok (keccak b, d') /\ db_ok d' /\ counts d d' ∅ [b].
Proof.
  intros [Hd Hk] Hb Hn Hr. assert (keccak b <> KECCAK_NULL_RLP) as Hbn.
  { intros He. apply Hn. apply (ho_inj _ _ Hh); [done|apply (ho_known _ _ Hh)|]. by rewrite (ho_null _ _ Hh). }
  specialize (Hr _ Hbn). destruct (hl_insert d b Hd Hn ltac:(lia)) as (d' & Hi & Hd' & Hrf & Hg). exists d'. split_and!; [done| |].
  - split; [done|]. intros h v Hv. destruct (Hg h v Hv) as [->|Hv']; [done|]. by eapply Hk.
  - intros x Hx. rewrite Hrf, keys_of_cons, multiplicity_disj_union, multiplicity_singleton, multiplicity_empty.
    change (keys_of []) with (∅ : gmultiset Z). rewrite multiplicity_empty. case_decide as Hxe; [subst; rewrite Z.eqb_refl; lia|].
    rewrite (proj2 (Z.eqb_neq _ _)) by done. lia.
Qed.

(** ** Writing nodes *)
Record written s s' (m σf : gmap nat Stored) (N : gmultiset Z) (l : list bytes) : Prop := {
  wr_holds : exists g, g ⊆ m /\ holds s' (g ∪ σf);
  wr_root : tm_root s' = tm_root s;
  wr_handle : tm_root_handle s' = tm_root_handle s;
  wr_death : death_row s' = death_row s;
  wr_db : db_ok (tm_db s');
  wr_counts : counts (tm_db s) (tm_db s') N l;
}.

Record writable s (m σf : gmap nat Stored) (l : list bytes) : Prop := {
  wa_disj : m ##ₘ σf;
  wa_holds : holds s (m ∪ σf);
  wa_db : db_ok (tm_db s);
  wa_known : Forall known l;
  wa_room : room (tm_db s) (len l);
}.

Lemma written_nothing s m σf N l : writable s m σf l -> N = keys_of l -> written s s m σf N l.
Proof. intros [] ->. split; try done; [by exists m|by apply counts_refl]. Qed.

(** One part after the other. *)
Lemma written_app s1 s2 s3 m1 m2 σf N1 N2 l1 l2 g :
  m1 ##ₘ m2 -> g ⊆ m1 -> written s1 s2 m1 (m2 ∪ σf) N1 l1 -> written s2 s3 m2 (g ∪ σf) N2 l2 -> written s1 s3 (m1 ∪ m2) σf (N1 ⊎ N2) (l1 ++ l2).
Proof.
  intros Hd Hg [] []. split; [|congruence|congruence|congruence|done|by eapply counts_app].
  destruct wr_holds1 as (g' & Hg' & Hho). exists (g' ∪ g). split; [|by rewrite <-map_union_assoc].
    apply map_union_least; [etrans; [exact Hg'|by apply map_union_subseteq_r]|etrans; [exact Hg|apply map_union_subseteq_l]].
Qed.

Lemma writable_first s m1 m2 σf l1 l2 : m1 ##ₘ m2 -> writable s (m1 ∪ m2) σf (l1 ++ l2) -> writable s m1 (m2 ∪ σf) l1.
Proof.
  intros Hd []. apply map_disjoint_union_l in wa_disj0 as [? ?]. apply Forall_app in wa_known0 as [? _]. split; try done.
  - by apply map_disjoint_union_r.
  - by rewrite map_union_assoc.
  - eapply room_le; [done|]. rewrite len_app. pose proof (len_nonneg l2). lia.
Qed.

Lemma writable_second s s2 m1 m2 σf N l1 l2 : m1 ##ₘ m2 -> writable s (m1 ∪ m2) σf (l1 ++ l2) -> written s s2 m1 (m2 ∪ σf) N l1 ->
  exists g, g ⊆ m1 /\ writable s2 m2 (g ∪ σf) l2.
Proof.
  intros Hd [] []. destruct wr_holds0 as (g & Hg & Hho). exists g. split; [done|]. apply map_disjoint_union_l in wa_disj0 as [Hd1 Hd2].
  apply Forall_app in wa_known0 as [_ ?]. assert (g ##ₘ m2) by (by eapply map_disjoint_weaken_l).
  split; try done.
  - apply map_disjoint_union_r. split; [done|done].
  - rewrite map_union_assoc, (map_union_comm m2 g), <-map_union_assoc by done. done.
  - eapply room_counts; [|done]. by rewrite len_app in wa_room0.
Qed.

(** [commit_node] appends the reference to a tree. *)
Definition commits (fuel : nat) : Prop := forall s m σf N h t n its rest st,
  writable s m σf (nodes t) -> rep_h false m N h t -> wfn t -> content_ok (tget t) -> (size m < fuel)%nat ->
  building n its st -> n = len (its ++ ref t :: rest) -> n < 2 ^ 64 -> item_ok (List (its ++ ref t :: rest)) ->
  exists st' s', commit_node fuel h st s = Ok (st', s') /\ building n (its ++ [ref t]) st' /\ written s s' m σf N (nodes t).

Lemma append_children_ok fuel s m σf N hs ts n its rest st :
  commits fuel -> writable s m σf (concat (map nodes ts)) -> rep_c m N hs ts -> Forall wf ts -> Forall (fun t => content_ok (tget t)) ts -> (size m < fuel)%nat ->
  building n its st -> n = len (its ++ map ref ts ++ rest) -> n < 2 ^ 64 -> item_ok (List (its ++ map ref ts ++ rest)) ->
  exists st' s', append_children (commit_node fuel) hs st s = Ok (st', s') /\ building n (its ++ map ref ts) st' /\
    written s s' m σf N (concat (map nodes ts)).
Proof.
  intros Hcm Hwr Hr. revert s σf its st Hwr. induction Hr as [|m N hs ts Hr IH|m1 m2 N1 N2 h t hs ts Hd Hh1 Hne Hr IH];
    intros s σf its st Hwr Hw Hc Hsz Hb Hn Hn64 Hok; cbn [append_children map concat].
  - eexists _, _. split; [reflexivity|]. rewrite app_nil_r. split; [done|]. by apply written_nothing.
  - apply Forall_cons_iff in Hw as [_ Hw], Hc as [_ Hc]. cbn [map app] in Hn, Hok.
    assert (exists st1, append_empty_data st = Ok st1 /\ building n (its ++ [ref TEmpty]) st1) as (st1 & -> & Hb1).
    { eapply (building_step append_empty_data _ its (ref TEmpty)); [|done|exact Hn|done|exact Hok]. intros. by apply building_empty. }
    cbn [mbind outcome_bind]. destruct (IH s σf (its ++ [ref TEmpty]) st1) as (st2 & s2 & -> & Hb2 & Hw2); try done.
    { by rewrite <-app_assoc. } { by rewrite <-app_assoc. }
    eexists _, _. split; [reflexivity|]. split; [by rewrite <-app_assoc in Hb2|]. done.
  - apply Forall_cons_iff in Hw as [Hwt Hw], Hc as [Hct Hc]. cbn [map app concat] in Hn, Hok, Hwr.
    assert (size m1 <= size (m1 ∪ m2) /\ size m2 <= size (m1 ∪ m2))%nat as [Hs1 Hs2] by (rewrite map_size_disj_union by done; lia).
    destruct (Hcm s m1 (m2 ∪ σf) N1 h t n its (map ref ts ++ rest) st) as (st1 & s1 & -> & Hb1 & Hw1); try done;
      [by eapply writable_first|by apply wf_nonempty|lia|].
    cbn [mbind outcome_bind]. destruct (writable_second _ _ _ _ _ _ _ _ Hd Hwr Hw1) as (g & Hg & Hwr2).
    destruct (IH s1 (g ∪ σf) (its ++ [ref t]) st1 Hwr2) as (st2 & s2 & -> & Hb2 & Hw2); try done; [lia| | |].
    { by rewrite <-app_assoc. } { by rewrite <-app_assoc. }
    eexists _, _. split; [reflexivity|]. split; [by rewrite <-app_assoc in Hb2|]. by eapply written_app.
Qed.

Lemma into_rlp_ok fuel s m σf N n t :
  commits fuel -> writable s m σf (below t) -> rep_n m N n t -> wf t -> content_ok (tget t) -> (size m < fuel)%nat ->
  exists s', into_rlp (commit_node fuel) n s = Ok (enc t, s') /\ written s s' m σf N (below t).
Proof.
  intros Hcm Hwr Hr Hw Hc Hsz. pose proof (enc_ok keccak t Hw Hc) as Hok.
  destruct Hr as [|k v|m N k h t Hr|m N hs ts v Hr]; cbn [into_rlp node_item] in *; unfold TrieNode.enc; cbn [node_item].
  - exists s. split; [done|]. by apply written_nothing.
  - destruct (building_new 2 ltac:(done)) as (st0 & -> & Hb0). cbn [mbind outcome_bind].
    apply item_ok_list in Hok as Hok'. destruct Hok' as [Hits _]. apply Forall_cons_iff in Hits as [[_ Hk] Hits]. apply Forall_cons_iff in Hits as [[_ Hv] _].
    destruct (building_step (fun st => append_bytes st (hp k true)) 2 [] (Data (hp k true)) [Data v] st0) as (st1 & -> & Hb1); try done; [by intros; apply building_data|].
    cbn [mbind outcome_bind app] in *.
    destruct (building_step (fun st => append_bytes st v) 2 [Data (hp k true)] (Data v) [] st1) as (st2 & -> & Hb2); try done; [by intros; apply building_data|].
    cbn [mbind outcome_bind app] in *. destruct (building_done _ _ _ Hb2 eq_refl) as [-> _]. exists s. split; [done|]. by apply written_nothing.
  - destruct Hw as [?|(_ & _ & Hw)]; [done|]. destruct (building_new 2 ltac:(done)) as (st0 & -> & Hb0). cbn [mbind outcome_bind].
    apply item_ok_list in Hok as Hok'. destruct Hok' as [Hits _]. apply Forall_cons_iff in Hits as [[_ Hk] _].
    destruct (building_step (fun st => append_bytes st (hp k false)) 2 [] (Data (hp k false)) [ref t] st0) as (st1 & -> & Hb1); try done; [by intros; apply building_data|].
    cbn [mbind outcome_bind app] in *.
    destruct (Hcm s m σf N h t 2 [Data (hp k false)] [] st1) as (st2 & s' & -> & Hb2 & Hws); try done; [by eapply content_ext|].
    cbn [mbind outcome_bind app] in *. destruct (building_done _ _ _ Hb2 eq_refl) as [-> _]. exists s'. by split.
  - destruct Hw as [?|(Hl & Hf & _)%wfn_branch]; [done|]. destruct (building_new 17 ltac:(done)) as (st0 & -> & Hb0). cbn [mbind outcome_bind].
    assert (17 = len (map ref ts ++ [Data (value_or v)])) as Hlen by (rewrite len_app; unfold len; by rewrite length_map, Hl).
    destruct (append_children_ok fuel s m σf N hs ts 17 [] [Data (value_or v)] st0) as (st1 & s' & -> & Hb1 & Hws); try done.
    { apply Forall_lookup_2. intros i c Hi. apply (content_child ts v (Z.of_nat i)) in Hc. unfold child in Hc.
      by rewrite (proj2 (Z.leb_le _ _)), Nat2Z.id, Hi in Hc by lia. }
    cbn [mbind outcome_bind app] in *.
    assert (exists st2, (match v with Some value => append_bytes st1 value | None => append_empty_data st1 end) = Ok st2 /\
      building 17 (map ref ts ++ [Data (value_or v)]) st2) as (st2 & -> & Hb2).
    { apply item_ok_list in Hok as Hok'. destruct Hok' as [Hits _]. apply Forall_app in Hits as [_ Hits]. apply Forall_cons_iff in Hits as [[_ Hv] _].
      destruct v as [v|]; [eapply (building_step (fun st => append_bytes st v)); try done; by intros; apply building_data|].
      eapply (building_step append_empty_data); try done. by intros; apply building_empty. }
    cbn [mbind outcome_bind]. destruct (building_done _ _ _ Hb2 (eq_sym Hlen)) as [-> _]. exists s'. by split.
Qed.

(** Slots that are not used any more do not matter. *)
Lemma written_weaken s s' m m' σf N l : m ⊆ m' -> written s s' m σf N l -> written s s' m' σf N l.
Proof. intros Hm []. split; try done. destruct wr_holds0 as (g & Hg & ?). exists g. split; [by etrans|done]. Qed.

Lemma hashed_nodes t : hashed t = true -> nodes t = enc t :: below t.
Proof. unfold TrieNode.nodes. by intros ->. Qed.

Lemma insert_node_ok s m σf N l b :
  writable s m σf (b :: l) -> forall s1, written s s1 m σf N l -> b <> NULL_RLP ->
  exists s2, insert_node b s1 = Ok (keccak b, s2) /\ written s s2 m σf N (b :: l).
Proof.
  intros [] s1 [] Hb. apply Forall_cons_iff in wa_known0 as [Hkb _].
  destruct (insert_counts (tm_db s1) b wr_db0 Hkb Hb) as (d' & Hi & Hd' & Hc).
  { eapply room_counts; [|done]. rewrite len_cons in wa_room0. by rewrite Z.add_comm. }
  eexists. split; [unfold insert_node; by rewrite Hi|]. split; try done. intros x Hx. cbn [tm_db]. rewrite (Hc x Hx), (wr_counts0 x Hx).
  rewrite !keys_of_cons, !multiplicity_disj_union, multiplicity_empty. change (keys_of []) with (∅ : gmultiset Z). rewrite multiplicity_empty. lia.
Qed.

Lemma commit_node_ok fuel : commits fuel.
Proof.
  induction fuel as [|fuel IH]; intros s m σf N h t n its rest st Hwr Hr Hw Hc Hsz Hb Hn Hn64 Hok; [lia|]. cbn [commit_node].
  assert (Hhash : hashed t = true -> exists st', append_hash st (keccak (enc t)) = Ok st' /\ building n (its ++ [ref t]) st').
  { intros Hhs. assert (ref t = Data (Z_to_be 32 (keccak (enc t)))) as Href by (unfold TrieNode.ref, ref_item; unfold TrieNode.hashed, TrieNode.enc in Hhs; by rewrite Hhs).
    eapply (building_step (fun st => append_hash st (keccak (enc t)))); try done. rewrite Href. intros. apply building_hash; [apply (ho_word _ _ Hh)|done..]. }
  destruct h as [i|h].
  2: { inversion Hr as [? ? Hhs Hk1 Hk2| |]; subst. cbn [orb] in Hhs. destruct (Hhash Hhs) as (st' & -> & Hb'). cbn [mbind outcome_bind].
       eexists _, _. split; [reflexivity|]. split; [done|]. apply written_nothing; [done|]. by rewrite hashed_nodes. }
  pose proof Hwr as []. apply rep_h_stored in Hr as (x & m0 & -> & Hi & Hx). apply map_disjoint_insert_l in wa_disj0 as [Hif Hd].
  destruct (destroy_ok (tm_storage s) _ i x wa_holds0) as (stg & -> & Hs'); [apply lookup_union_Some_l, lookup_insert_eq|].
  rewrite <-insert_union_l, delete_insert_id in Hs' by (by apply lookup_union_None). cbn [mbind outcome_bind].
  rewrite map_size_insert_None in Hsz by done. assert (m0 ⊆ <[i := x]> m0) as Hsub by (by apply insert_subseteq).
  destruct x as [nd|nd h]; cbn [rep_s] in Hx.
  - assert (writable (with_storage_of stg s) m0 σf (nodes t)) as Hwr0 by (split; done).
    assert (writable (with_storage_of stg s) m0 σf (below t)) as Hwrb.
    { destruct Hwr0. split; try done.
      - unfold TrieNode.nodes in wa_known1. by apply Forall_app in wa_known1 as [_ ?].
      - eapply room_le; [exact wa_room1|]. unfold TrieNode.nodes. rewrite len_app. case_match; rewrite ?len_cons, ?len_nil; lia. }
    destruct (into_rlp_ok fuel (with_storage_of stg s) m0 σf N nd t IH Hwrb Hx (or_intror Hw) Hc ltac:(lia)) as (s1 & -> & Hws).
    cbn [mbind outcome_bind]. change (32 <=? len (enc t)) with (hashed t). destruct (hashed t) eqn:Hhs.
    + rewrite hashed_nodes in * by done.
      destruct (insert_node_ok _ _ _ _ _ _ Hwr0 s1 Hws (enc_not_null t Hw)) as (s2 & -> & Hws2). cbn [mbind outcome_bind].
      destruct (Hhash eq_refl) as (st' & -> & Hb'). cbn [mbind outcome_bind]. eexists _, _. split; [reflexivity|]. split; [done|].
      eapply written_weaken; [exact Hsub|]. by destruct Hws2.
    + assert (ref t = node_item keccak t) as Href by (by apply ref_inline).
      destruct (building_step (fun st => append_raw st (enc t) 1) n its (ref t) rest st) as (st' & -> & Hb'); try done.
      { rewrite Href. intros. by apply building_raw. }
      cbn [mbind outcome_bind]. eexists _, _. split; [reflexivity|]. split; [done|].
      assert (nodes t = below t) as -> by (unfold TrieNode.nodes; by rewrite Hhs).
      eapply written_weaken; [exact Hsub|]. by destruct Hws.
  - destruct Hx as (-> & Hhs & _ & -> & _). cbn [orb] in Hhs. destruct (Hhash Hhs) as (st' & -> & Hb'). cbn [mbind outcome_bind].
    eexists _, _. split; [reflexivity|]. split; [done|]. eapply written_weaken; [exact Hsub|].
    assert (written (with_storage_of stg s) (with_storage_of stg s) m0 σf ({[+ keccak (enc t) +]} ⊎ keys_of (below t)) (nodes t)) as Hws
      by (apply written_nothing; [by split|by rewrite hashed_nodes]). by destruct Hws.
Qed.

(** ** The death row *)
Lemma kill_all_ok d N l :
  NoDup l -> db_ok d -> (forall x, x <> KECCAK_NULL_RLP -> owed N (list_to_set l) x <= hdb_refs d x) ->
  exists d', kill_all d l = Ok d' /\ db_ok d' /\ (forall x, x <> KECCAK_NULL_RLP -> owed N ∅ x <= hdb_refs d' x) /\
    (forall x, hdb_refs d' x <= hdb_refs d x).
Proof.
  unfold kill_all. revert d. induction l as [|h l IH]; intros d Hnd Hd Hc; cbn [foldl]; [by exists d|].
  apply list.NoDup_cons in Hnd as [Hh' Hnd]. cbn [mbind outcome_bind]. destruct Hd as [Hd Hk].
  destruct (decide (h = KECCAK_NULL_RLP)) as [->|Hne].
  - rewrite hl_remove_null by done. apply IH; [done|done|]. intros x Hx. etrans; [|by apply Hc]. unfold owed. cbn [list_to_set].
    repeat case_decide; set_solver by lia.
  - destruct (hl_remove d h Hd Hne) as (d1 & -> & Hd1 & Hr1 & Hg1).
    { specialize (Hc h Hne). unfold owed in Hc. case_decide; lia. }
    destruct (IH d1 Hnd) as (d' & He & Hd' & Hc' & Hle).
    + split; [done|]. intros x v Hv. by eapply Hk, Hg1.
    + intros x Hx. rewrite Hr1. specialize (Hc x Hx). unfold owed in *. cbn [list_to_set] in Hc. destruct (Z.eqb_spec x h) as [->|Hxh].
      * rewrite decide_False by (by rewrite elem_of_list_to_set). rewrite decide_True in Hc by set_solver. lia.
      * destruct (decide (x ∈ list_to_set l)); [rewrite decide_True in Hc by set_solver; lia|]. case_decide; lia.
    + exists d'. split_and!; try done. intros x. etrans; [apply Hle|]. rewrite Hr1. case_match; lia.
Qed.

Lemma commit_ok s σf m N t :
  ready keccak known s σf m N -> rep_h true m N (tm_root_handle s) t -> wf t -> content_ok (tget t) ->
  known (enc t) -> Forall known (below t) -> room (tm_db s) (1 + len (below t)) ->
  (forall h, tm_root_handle s = HashHandle h -> tm_root s = h) ->
  exists s' σf' m' N', commit s = Ok s' /\ ready keccak known s' σf' m' N' /\ rep_h true m' N' (tm_root_handle s') t /\
    tm_root s' = keccak (enc t) /\ death_row s' = ∅ /\ (forall h, tm_root_handle s' = HashHandle h -> tm_root s' = h) /\
    N' = {[+ keccak (enc t) +]} ⊎ keys_of (below t) /\
    (forall x, x <> KECCAK_NULL_RLP -> hdb_refs (tm_db s') x <= hdb_refs (tm_db s) x + (1 + len (below t))).
Proof.
  intros [] Hr Hw Hc Hke Hkb Hrm Hrt. unfold commit.
  destruct (kill_all_ok (tm_db s) N (base.elements (death_row s))) as (d1 & -> & Hd1 & Hc1 & Hle1); [apply NoDup_elements|done| |].
  { intros x Hx. rewrite list_to_set_elements_L. by apply rd_covered. }
  cbn [mbind outcome_bind tm_root_handle]. pose proof (len_nonneg (below t)) as Hlb.
  destruct (tm_root_handle s) as [i|h] eqn:Hhd.
  2: { eexists _, σf, m, N. split; [reflexivity|]. cbn [tm_root_handle tm_root tm_db death_row].
       inversion Hr as [? ? Htop Hk1 Hk2| |]; subst. split_and!; [split; done|done|by apply Hrt|done|done|done|].
       intros x Hx. specialize (Hle1 x). lia. }
  apply rep_h_stored in Hr as (x & m0 & -> & Hi & Hx). apply map_disjoint_insert_l in rd_disj as [Hif Hd].
  cbn [tm_storage]. destruct (destroy_ok (tm_storage s) _ i x rd_holds) as (stg & -> & Hs'); [apply lookup_union_Some_l, lookup_insert_eq|].
  rewrite <-insert_union_l, delete_insert_id in Hs' by (by apply lookup_union_None). cbn [mbind outcome_bind].
  destruct x as [nd|nd h]; cbn [rep_s] in Hx.
  - set (s1 := with_storage_of stg _).
    assert (writable s1 m0 σf (enc t :: below t)) as Hwr.
    { split; [done|done|done|by constructor|]. rewrite len_cons. intros y Hy. specialize (Hrm y Hy). specialize (Hle1 y). cbn [tm_db s1 with_storage_of]. lia. }
    assert (size m0 < S (length (st_nodes stg)))%nat as Hsz.
    { pose proof (models_size _ _ Hs') as Hms. rewrite map_size_disj_union in Hms by done. lia. }
    destruct (into_rlp_ok (S (length (st_nodes stg))) s1 m0 σf N nd t (commit_node_ok _)) as (s2 & -> & Hws); try done.
    { destruct Hwr. apply Forall_cons_iff in wa_known0 as [_ ?]. split; try done. eapply room_le; [exact wa_room0|]. rewrite len_cons. lia. }
    cbn [mbind outcome_bind].
    assert (exists s3, insert_node (enc t) s2 = Ok (keccak (enc t), s3) /\ written s1 s3 m0 σf N (below t ++ (if nonempty t then [enc t] else []))) as (s3 & -> & Hws3).
    { destruct Hw as [->|Hw].
      - eexists. unfold insert_node. rewrite hl_insert_null by apply Hws. split; [by rewrite <-(ho_null _ _ Hh)|]. cbn [nonempty]. rewrite app_nil_r. by destruct Hws.
      - destruct (insert_node_ok _ _ _ _ _ _ Hwr s2 Hws (enc_not_null t Hw)) as (s3 & He & Hws3). exists s3. split; [done|].
        rewrite wfn_nonempty by done. destruct Hws3. split; try done. intros y Hy. rewrite (wr_counts0 y Hy), keys_of_app, keys_of_cons, !multiplicity_disj_union.
        rewrite (keys_of_cons keccak (enc t) []), multiplicity_disj_union. change (keys_of []) with (∅ : gmultiset Z). rewrite multiplicity_empty. lia. }
    cbn [mbind outcome_bind]. destruct Hws3. destruct wr_holds0 as (g & Hg & Hho).
    eexists _, (g ∪ σf), ∅, _. split; [reflexivity|]. cbn [tm_root_handle tm_root death_row tm_db].
    split_and!; [|by constructor|done|by rewrite wr_death0|by intros h [= <-]|done|].
    + split; cbn [tm_db death_row]; [apply map_disjoint_empty_l|by rewrite map_empty_union|done|].
      intros y Hy. rewrite (wr_counts0 y Hy). specialize (Hc1 y Hy). rewrite wr_death0. cbn [s1 with_storage_of tm_db death_row] in *. unfold owed in *.
      rewrite decide_False in * by set_solver. rewrite keys_of_app, !multiplicity_disj_union.
      destruct Hw as [->|Hw]; cbn [nonempty].
      * unfold TrieNode.enc at 1. cbn [node_item]. change (rlp_enc (Data [])) with NULL_RLP. rewrite (ho_null _ _ Hh), multiplicity_singleton_ne by done. lia.
      * rewrite wfn_nonempty by done. rewrite keys_of_cons, multiplicity_disj_union. lia.
    + intros y Hy. rewrite (wr_counts0 y Hy). cbn [s1 with_storage_of tm_db]. specialize (Hle1 y).
      pose proof (multiplicity_keys_le (below t ++ if nonempty t then [enc t] else []) y) as Hml. rewrite length_app in Hml. unfold len.
      destruct (nonempty t); cbn [length] in Hml; lia.
  - destruct Hx as (-> & Htop & _ & -> & Hrn). cbn [tm_storage with_storage_of].
    destruct (alloc_ok stg _ (Cached nd (keccak (enc t))) Hs') as (j & stg' & -> & Hj & Hs''). cbn [mbind outcome_bind].
    apply lookup_union_None in Hj as [Hj1 Hj2]. eexists _, σf, (<[j := Cached nd (keccak (enc t))]> m0), _. split; [reflexivity|].
    cbn [tm_root_handle tm_root death_row tm_db with_storage_of]. split_and!; [|by constructor|done|done|done|done|].
    + split; [by apply map_disjoint_insert_l|unfold holds; cbn; by rewrite <-insert_union_l|done|done].
    + intros y Hy. specialize (Hle1 y). lia.
Qed.
End commit.
