(* ===== verification/TrieHash.v ===== *)
(** * The root of a set of entries ([util/triehash/src/lib.rs])

    [trie_root] computes the root of the trie of a list of entries without
    building it: the entries are sorted, and the node of a run of entries with a
    common prefix is written directly.  It is the hash of the encoding of the
    tree with these entries. *)
From stdpp Require Import base list numbers sorting gmap.
From S2P Require Import Prelude RlpStream RlpEncoding RlpDecode RlpViews RlpImpls RlpCodecs Account Nibbles HashDb Trie TrieNode TrieDbMut TrieCommit.

(** ** The code *)

(** [(0..len).take_while(|&i| first[i] == second[i]).count()] *)
Fixpoint shared_prefix_len (first second : bytes) : Z :=
  match first, second with
  | x :: first, y :: second => if x =? y then 1 + shared_prefix_len first second else 0
  | _, _ => 0
  end.

(** [while offset < inlen { .. offset += 2 }] *)
Fixpoint hex_loop (n : nat) (nibbles : bytes) (offset : Z) (res : bytes) : run bytes :=
  match n with
  | O => Ok res
  | S n' =>
      if offset <? len nibbles then
        a ← index nibbles offset;
        b ← index nibbles (offset + 1);
        byte ← add_chk 8 (wrap 8 (Z.shiftl a 4)) b;
        hex_loop n' nibbles (offset + 2) (res ++ [byte])
      else Ok res
  end.

Definition hex_prefix_encode (nibbles : bytes) (leaf : bool) : run bytes :=
  let inlen := len nibbles in
  let oddness_factor := inlen mod 2 in
  let bits := wrap 8 (Z.shiftl (Z.land (wrap 8 inlen) 1 + 2 * Z.b2z leaf) 4) in
  first_byte ← (if oddness_factor =? 1 then a ← index nibbles 0; add_chk 8 bits a else Ok bits);
  hex_loop (S (length nibbles)) nibbles oddness_factor [first_byte].

Fixpoint as_nibbles (b : bytes) : bytes :=
  match b with [] => [] | byte :: b => Z.shiftr byte 4 :: Z.land byte 15 :: as_nibbles b end.

(** [input[begin..].iter().take_while(|pair| pair.0[pre_len] == i).count()] *)
Fixpoint count_nibble (input : list (bytes * bytes)) (pre_len i : Z) : run Z :=
  match input with
  | [] => Ok 0
  | (k, _) :: input =>
      x ← index k pre_len;
      if x =? i then n ← count_nibble input pre_len i; Ok (1 + n) else Ok 0
  end.

Section triehash.
Context (keccak : bytes -> Z).

Definition hash256aux (hash256rlp : list (bytes * bytes) -> Z -> RlpStream -> run RlpStream)
    (input : list (bytes * bytes)) (pre_len : Z) (stream : RlpStream) : run RlpStream :=
  s ← hash256rlp input pre_len stream_new;
  o ← out s;
  if len o <=? 31 then append_raw stream o 1 else append_hash stream (keccak o).

(** [for i in 0..16 { .. }], with the loop's [begin] *)
Fixpoint hash_children (hash256rlp : list (bytes * bytes) -> Z -> RlpStream -> run RlpStream) (n : nat)
    (input : list (bytes * bytes)) (pre_len i begin : Z) (stream : RlpStream) : run RlpStream :=
  match n with
  | O => Ok stream
  | S n' =>
      l ← (if begin <? len input then rest ← slice input begin (len input); count_nibble rest pre_len i else Ok 0);
      stream ← (if l =? 0 then append_empty_data stream
                else part ← slice input begin (begin + l); hash256aux hash256rlp part (pre_len + 1) stream);
      hash_children hash256rlp n' input pre_len (i + 1) (begin + l) stream
  end.

Fixpoint hash256rlp (fuel : nat) (input : list (bytes * bytes)) (pre_len : Z) (stream : RlpStream) : run RlpStream :=
  match fuel with
  | O => Panic
  | S fuel' =>
      match input with
      | [] => append_empty_data stream
      | [(key, value)] =>
          stream ← begin_list stream 2;
          suffix ← slice key pre_len (len key);
          k ← hex_prefix_encode suffix true;
          stream ← append_bytes stream k;
          append_bytes stream value
      | (key, value) :: rest =>
          let shared_prefix := fold_left (fun acc '(k, _) => Z.min (shared_prefix_len key k) acc) rest (len key) in
          if pre_len <? shared_prefix then
            stream ← begin_list stream 2;
            part ← slice key pre_len shared_prefix;
            k ← hex_prefix_encode part false;
            stream ← append_bytes stream k;
            hash256aux (hash256rlp fuel') input shared_prefix stream
          else
            stream ← begin_list stream 17;
            let begin := if pre_len =? len key then 1 else 0 in
            stream ← hash_children (hash256rlp fuel') 16 input pre_len 0 begin stream;
            if pre_len =? len key then append_bytes stream value else append_empty_data stream
      end
  end.

(** Every call goes at least one nibble deeper, or writes a leaf. *)
Definition hash_fuel (input : list (bytes * bytes)) : nat := S (S (list_max (map (fun '(k, _) => length k) input))).

Definition gen_trie_root (input : list (bytes * bytes)) : run Z :=
  stream ← hash256rlp (hash_fuel input) input 0 stream_new;
  o ← out stream;
  Ok (keccak o).

(** [collect::<BTreeMap<_, _>>()] and back into a vector *)
Fixpoint btree_insert (k v : bytes) (m : list (bytes * bytes)) : list (bytes * bytes) :=
  match m with
  | [] => [(k, v)]
  | (k', v') :: m' =>
      match lex_cmp k k' with
      | Lt => (k, v) :: m
      | Eq => (k', v) :: m'
      | Gt => (k', v') :: btree_insert k v m'
      end
  end.
Definition btree_collect (input : list (bytes * bytes)) : list (bytes * bytes) := fold_left (fun m '(k, v) => btree_insert k v m) input [].

Definition nibble_keys (input : list (bytes * bytes)) : list (bytes * bytes) := map (fun '(k, v) => (as_nibbles k, v)) input.

Definition trie_root (input : list (bytes * bytes)) : run Z := gen_trie_root (nibble_keys (btree_collect input)).

(** [input.into_iter().enumerate().map(|(i, vec)| (rlp::encode(&i).into_vec(), vec))] *)
Fixpoint enumerate_encoded (i : Z) (input : list bytes) : run (list (bytes * bytes)) :=
  match input with
  | [] => Ok []
  | v :: input =>
      s ← @append _ usize_Encodable stream_new i;
      k ← out s;
      l ← enumerate_encoded (i + 1) input;
      Ok ((k, v) :: l)
  end.

Definition ordered_trie_root (input : list bytes) : run Z :=
  gen_input ← enumerate_encoded 0 input;
  gen_trie_root (nibble_keys (btree_collect gen_input)).

Definition sec_trie_root (input : list (bytes * bytes)) : run Z :=
  gen_trie_root (nibble_keys (btree_collect (map (fun '(k, v) => (Z_to_be 32 (keccak k), v)) input))).
End triehash.

(** ** Keys *)
Lemma shared_prefix_common a b : shared_prefix_len a b = Z.of_nat (common a b).
Proof. revert b. induction a as [|x a IH]; intros [|y b]; cbn; try done. case_match; [rewrite IH; lia|done]. Qed.

Lemma as_nibbles_ok b : as_nibbles b = to_nibs b.
Proof.
  induction b as [|x b IH]; [done|]. cbn [as_nibbles to_nibs]. rewrite IH, Z.shiftr_div_pow2 by lia.
  by rewrite (Z.land_ones x 4 ltac:(lia) : Z.land x 15 = x mod 16).
Qed.

Lemma hex_loop_ok n k i res : is_nibbles k -> (i <= length k)%nat -> (length k - i <= n)%nat -> Nat.even (length k - i) = true ->
  hex_loop n k (Z.of_nat i) res = Ok (res ++ pack (drop i k)).
Proof.
  intros Hk. revert i res. induction n as [|n IH]; intros i res Hi Hn He; cbn [hex_loop].
  { rewrite drop_ge by lia. by rewrite app_nil_r. }
  unfold len. destruct (Z.ltb_spec (Z.of_nat i) (Z.of_nat (length k))) as [Hlt|Hge]; [|rewrite drop_ge by lia; by rewrite app_nil_r].
  destruct (drop i k) as [|a [|b r]] eqn:Hd.
  { apply (f_equal length) in Hd. rewrite length_drop in Hd. cbn in Hd. lia. }
  { apply (f_equal length) in Hd. rewrite length_drop in Hd. cbn in Hd. rewrite Hd in He. done. }
  assert (k !! i = Some a) as Ha by (rewrite <-(Nat.add_0_r i), <-lookup_drop, Hd; done).
  assert (k !! (i + 1)%nat = Some b) as Hb by (rewrite <-lookup_drop, Hd; done).
  rewrite (index_ok k (Z.of_nat i) a) by (lia || by rewrite Nat2Z.id). cbn [mbind outcome_bind].
  rewrite (index_ok k (Z.of_nat i + 1) b) by (lia || by replace (Z.to_nat (Z.of_nat i + 1)) with (i + 1)%nat by lia). cbn [mbind outcome_bind].
  destruct (Forall_lookup_1 _ _ _ _ Hk Ha) as [Ha1 Ha2], (Forall_lookup_1 _ _ _ _ Hk Hb) as [Hb1 Hb2]. change (2 ^ 4) with 16 in *.
  rewrite Z.shiftl_mul_pow2 by lia. change (2 ^ 4) with 16. rewrite wrap_small by (split; [lia|change (2 ^ 8) with 256; lia]).
  rewrite add_chk_ok by (change (2 ^ 8) with 256; lia). cbn [mbind outcome_bind].
  apply lookup_lt_Some in Hb as Hlb. replace (Z.of_nat i + 2) with (Z.of_nat (i + 2)) by lia. rewrite IH; [|lia|lia|].
  - rewrite <-app_assoc. cbn [app pack]. do 3 f_equal. replace (drop (i + 2) k) with (drop 2 (drop i k)) by (rewrite drop_drop; f_equal; lia). by rewrite Hd.
  - replace (length k - i)%nat with (S (S (length k - (i + 2)))) in He by (apply lookup_lt_Some in Hb; lia). done.
Qed.

Lemma hex_prefix_ok k leaf : is_nibbles k -> hex_prefix_encode k leaf = Ok (hp k leaf).
Proof.
  intros Hk. unfold hex_prefix_encode.
  assert (Z.land (wrap 8 (len k)) 1 = len k mod 2) as ->.
  { rewrite (Z.land_ones _ 1 ltac:(lia) : Z.land (wrap 8 (len k)) 1 = wrap 8 (len k) mod 2). unfold wrap.
    apply Z.mod_mod_divide. by exists 128. }
  destruct k as [|a k]; [by destruct leaf|]. inversion Hk as [|? ? [Ha1 Ha2] Hk']; subst. change (2 ^ 4) with 16 in *.
  cbn [hp]. rewrite Zmod_even. unfold len. rewrite even_of_nat. destruct (Nat.even (length (a :: k))) eqn:He.
  - change (0 =? 1) with false. cbn [mbind outcome_bind].
    pose proof (fun r => hex_loop_ok (S (length (a :: k))) (a :: k) 0 r Hk ltac:(lia) ltac:(lia) ltac:(by rewrite Nat.sub_0_r)) as Hl.
    change (Z.of_nat 0) with 0 in Hl. rewrite Hl. by destruct leaf.
  - change (1 =? 1) with true. cbn match. rewrite (index_ok (a :: k) 0 a) by done. cbn [mbind outcome_bind].
    assert (wrap 8 (Z.shiftl (1 + 2 * Z.b2z leaf) 4) = 16 + (if leaf then 32 else 0)) as -> by (by destruct leaf).
    rewrite add_chk_ok by (destruct leaf; lia). cbn [mbind outcome_bind].
    assert (Nat.even (length (a :: k) - 1) = true) as He'.
    { cbn [length] in *. rewrite Nat.sub_succ, Nat.sub_0_r. by rewrite Nat.even_succ, <-Nat.negb_even, negb_false_iff in He. }
    pose proof (fun r => hex_loop_ok (S (length (a :: k))) (a :: k) 1 r Hk ltac:(cbn; lia) ltac:(lia) He') as Hl.
    change (Z.of_nat 1) with 1 in Hl. rewrite Hl. cbn [app]. do 2 f_equal. lia.
Qed.

(** ** The entries of a tree *)
Lemma prepend_app p k l : prepend p (prepend k l) = prepend (p ++ k) l.
Proof. unfold prepend. rewrite map_map. apply map_ext. intros [q v]. by rewrite app_assoc. Qed.

Lemma prepend_nil_key l : prepend [] l = l.
Proof. unfold prepend. rewrite <-(map_id l) at 2. apply map_ext. by intros [q v]. Qed.

Lemma prepend_cat p l1 l2 : prepend p (l1 ++ l2) = prepend p l1 ++ prepend p l2.
Proof. apply map_app. Qed.

Lemma len_prepend p l : len (prepend p l) = len l.
Proof. unfold len, prepend. by rewrite length_map. Qed.

Lemma elements_nil t : wf t -> elements t = [] -> t = TEmpty.
Proof.
  intros [->|Hw] He; [done|]. destruct (wfn_key t Hw) as (q & v & Hq). apply elem_of_elements in Hq. rewrite He in Hq. by apply not_elem_of_nil in Hq.
Qed.

Lemma common_prefix_app p a b : common (p ++ a) (p ++ b) = (length p + common a b)%nat.
Proof. induction p as [|x p IH]; [done|]. cbn. rewrite Z.eqb_refl. by rewrite IH. Qed.

Lemma fold_min_le l f a : fold_left (fun acc x => Z.min (f x) acc) l a <= a /\ forall x : bytes * bytes, x ∈ l -> fold_left (fun acc x => Z.min (f x) acc) l a <= f x.
Proof.
  revert a. induction l as [|y l IH]; intros a; cbn [fold_left]; [split; [lia|by intros ? ?%not_elem_of_nil]|].
  destruct (IH (Z.min (f y) a)) as [H1 H2]. split; [lia|]. intros x [->|Hx]%elem_of_cons; [lia|by apply H2].
Qed.

Lemma fold_min_ge l f a b : b <= a -> (forall x : bytes * bytes, x ∈ l -> b <= f x) -> b <= fold_left (fun acc x => Z.min (f x) acc) l a.
Proof.
  revert a. induction l as [|y l IH]; intros a Ha Hl; cbn [fold_left]; [done|]. apply IH; [|set_solver].
  specialize (Hl y ltac:(set_solver)). lia.
Qed.

Lemma fold_left_ext' {A B} (f g : A -> B -> A) l a : (forall a b, f a b = g a b) -> fold_left f l a = fold_left g l a.
Proof. intros He. revert a. induction l as [|y l IH]; intros a; [done|]. cbn. by rewrite He. Qed.

(** The longest prefix common to all entries of a branch. *)
Lemma shared_branch ch v p k0 v0 rest : wfn (TBranch ch v) -> prepend p (elements (TBranch ch v)) = (k0, v0) :: rest ->
  fold_left (fun acc '(k, _) => Z.min (shared_prefix_len k0 k) acc) rest (len k0) = len p.
Proof.
  intros Hw He. rewrite (fold_left_ext' _ (fun acc x => Z.min (shared_prefix_len k0 (fst x)) acc)) by (by intros ? []).
  assert (Hmem : forall k w, (k, w) ∈ (k0, v0) :: rest <-> exists q, k = p ++ q /\ tget (TBranch ch v) q = Some w).
  { intros k w. rewrite <-He, elem_of_prepend. split; intros (q & -> & Hq); exists q; (split; [done|]); by apply elem_of_elements. }
  destruct (proj1 (Hmem k0 v0) ltac:(set_solver)) as (q0 & -> & Hq0). unfold len. rewrite length_app. apply Z.le_antisymm.
  - destruct q0 as [|x q0].
    { destruct (fold_min_le rest (fun x => shared_prefix_len (p ++ []) (fst x)) (Z.of_nat (length p + length (@nil Z)))) as [Hle _]. cbn [length] in *. lia. }
    destruct (branch_diverges _ _ Hw) as (q1 & q2 & Hd & [w1 H1] & [w2 H2]).
    assert (exists q w, tget (TBranch ch v) q = Some w /\ common (x :: q0) q = O /\ q <> x :: q0) as (q & w & Hq & Hc & Hne).
    { assert (Hone : forall q, match q with [] => True | y :: _ => y <> x end -> common (x :: q0) q = O /\ q <> x :: q0).
      { intros [|y q] Hy; [done|]. cbn. rewrite (proj2 (Z.eqb_neq x y)) by congruence. split; [done|congruence]. }
      destruct q1 as [|y1 q1]; [exists [], w1; auto|]. destruct (decide (y1 = x)) as [->|Hy1]; [|exists (y1 :: q1), w1; auto].
      exists q2, w2. split; [done|]. apply Hone. destruct q2; [done|]. by intros ->. }
    assert ((p ++ q, w) ∈ rest) as Hin.
    { assert ((p ++ q, w) ∈ (p ++ x :: q0, v0) :: rest) as Hin by (apply Hmem; eauto). apply elem_of_cons in Hin as [[= Heq]|Hin]; [|done].
      apply (inj (app p)) in Heq. done. }
    etrans; [by apply (fold_min_le rest (fun x0 => shared_prefix_len (p ++ x :: q0) (fst x0)))|]. cbn [fst].
    rewrite shared_prefix_common, common_prefix_app, Hc. lia.
  - apply fold_min_ge; [lia|]. intros [k w] Hin. destruct (proj1 (Hmem k w) ltac:(set_solver)) as (q & -> & _). cbn [fst].
    rewrite shared_prefix_common, common_prefix_app. lia.
Qed.

Lemma count_nibble_stop l p i : (forall k w, (k, w) ∈ l -> exists x r, k = x :: r /\ x <> i) -> count_nibble (prepend p l) (len p) i = Ok 0.
Proof.
  intros Hl. destruct l as [|[k w] l]; [done|]. destruct (Hl k w ltac:(set_solver)) as (x & r & -> & Hx). cbn [prepend map count_nibble].
  rewrite (index_ok (p ++ x :: r) (len p) x); [|apply len_nonneg|unfold len; by rewrite Nat2Z.id, list_lookup_middle].
  cbn [mbind outcome_bind]. by rewrite (proj2 (Z.eqb_neq _ _)).
Qed.

Lemma count_nibble_ok p l1 l2 i : (forall k w, (k, w) ∈ l2 -> exists x r, k = x :: r /\ x <> i) ->
  count_nibble (prepend p (prepend [i] l1 ++ l2)) (len p) i = Ok (len l1).
Proof.
  intros Hl2. induction l1 as [|[k w] l1 IH]; [by apply count_nibble_stop|]. cbn [prepend map app count_nibble].
  rewrite (index_ok (p ++ i :: k) (len p) i); [|apply len_nonneg|unfold len; by rewrite Nat2Z.id, list_lookup_middle].
  cbn [mbind outcome_bind]. rewrite Z.eqb_refl. fold (prepend [i] l1). fold (prepend p (prepend [i] l1 ++ l2)). rewrite IH. cbn [mbind outcome_bind].
  by rewrite len_cons.
Qed.

Lemma drop_len {A} (l1 l2 : list A) : drop (Z.to_nat (len l1)) (l1 ++ l2) = l2.
Proof. unfold len. by rewrite Nat2Z.id, drop_app_length. Qed.

Section triehash_ok.
Context (keccak : bytes -> Z) (Hword : forall b, in_u 256 (keccak b)).
Abbreviation enc := (enc keccak).
Abbreviation ref := (ref keccak).

(** [f] writes the tree for its entries. *)
Definition hashes (f : list (bytes * bytes) -> Z -> RlpStream -> run RlpStream) (p : bytes) (t : trie) : Prop :=
  exists s, f (prepend p (elements t)) (len p) stream_new = Ok s /\ out s = Ok (enc t).

Lemma hash256aux_ok f p t n its rest st :
  hashes f p t -> building n its st -> n = len (its ++ ref t :: rest) -> n < 2 ^ 64 -> item_ok (List (its ++ ref t :: rest)) ->
  exists st', hash256aux keccak f (prepend p (elements t)) (len p) st = Ok st' /\ building n (its ++ [ref t]) st'.
Proof.
  intros (s & Hf & Ho) Hb Hn Hn64 Hok. unfold hash256aux. rewrite Hf. cbn [mbind outcome_bind]. rewrite Ho. cbn [mbind outcome_bind].
  unfold TrieNode.ref, ref_item in *. fold (enc t) in *. destruct (Z.leb_spec 32 (len (enc t))) as [Hl|Hl].
  - rewrite (proj2 (Z.leb_gt (len (enc t)) 31)) by lia. eapply (building_step (fun st => append_hash st (keccak (enc t)))); try done.
    intros. by apply building_hash.
  - rewrite (proj2 (Z.leb_le (len (enc t)) 31)) by lia. eapply (building_step (fun st => append_raw st (enc t) 1)); try done.
    intros. by apply building_raw.
Qed.

Lemma hash_children_ok f p ch i front its rest st :
  Forall wf ch -> (forall j c, ch !! j = Some c -> nonempty c = true -> hashes f (p ++ [i + Z.of_nat j]) c) ->
  building 17 its st -> 17 = len (its ++ map ref ch ++ rest) -> item_ok (List (its ++ map ref ch ++ rest)) ->
  exists st', hash_children keccak f (length ch) (front ++ prepend p (elements_from i ch)) (len p) i (len front) st = Ok st' /\
    building 17 (its ++ map ref ch) st'.
Proof.
  intros Hw. revert i front its st. induction Hw as [|c ch Hwc Hw IH]; intros i front its st Hf Hb Hlen Hok; cbn [length hash_children map].
  { rewrite app_nil_r. by exists st. }
  cbn [elements_from] in *. set (tail := elements_from (i + 1) ch) in *.
  assert (Htail : forall k w, (k, w) ∈ tail -> exists x r, k = x :: r /\ x <> i).
  { intros k w (j & d & r & _ & -> & _)%elem_of_elements_from. exists (i + 1 + Z.of_nat j), r. split; [done|lia]. }
  set (input := front ++ prepend p (prepend [i] (elements c) ++ tail)).
  assert (len input = len front + (len (elements c) + len tail)) as Hil.
  { unfold input. by rewrite len_app, len_prepend, len_app, len_prepend. }
  pose proof (len_nonneg front). pose proof (len_nonneg (elements c)). pose proof (len_nonneg tail).
  assert ((if len front <? len input then rest ← slice input (len front) (len input); count_nibble rest (len p) i else Ok 0) = Ok (len (elements c))) as ->.
  { destruct (Z.ltb_spec (len front) (len input)).
    - rewrite slice_ok by lia. cbn [mbind outcome_bind]. replace (drop (Z.to_nat (len front)) input) with (prepend p (prepend [i] (elements c) ++ tail)) by (unfold input; by rewrite drop_len).
      rewrite take_ge; [by apply count_nibble_ok|]. rewrite Hil. pose proof (len_prepend p (prepend [i] (elements c) ++ tail)) as Hlp.
      rewrite len_app, (len_prepend [i]) in Hlp. unfold len in *. lia.
    - f_equal. lia. }
  cbn [mbind outcome_bind].
  assert (exists st1, (if len (elements c) =? 0 then append_empty_data st
    else part ← slice input (len front) (len front + len (elements c)); hash256aux keccak f part (len p + 1) st) = Ok st1 /\
    building 17 (its ++ [ref c]) st1) as (st1 & -> & Hb1).
  { destruct (Z.eqb_spec (len (elements c)) 0) as [Hz|Hz].
    - assert (c = TEmpty) as -> by (apply elements_nil; [done|]; destruct (elements c); [done|]; rewrite len_cons in Hz; pose proof (len_nonneg l); lia).
      apply (building_step append_empty_data 17 its (ref TEmpty) (map ref ch ++ rest)); [intros; by apply building_empty|done|exact Hlen|done|exact Hok].
    - rewrite slice_ok by lia. cbn [mbind outcome_bind]. unfold input. rewrite drop_len.
      replace (len front + len (elements c) - len front) with (len (elements c)) by lia.
      rewrite prepend_cat, prepend_app, take_app_length' by (unfold prepend; rewrite length_map; unfold len; lia).
      replace (len p + 1) with (len (p ++ [i])) by (by rewrite len_app). eapply (hash256aux_ok f (p ++ [i]) c 17 its (map ref ch ++ rest)); [|done|exact Hlen|done|exact Hok].
      rewrite <-(Z.add_0_r i). apply (Hf 0%nat c eq_refl). destruct c; [done|done..]. }
  cbn [mbind outcome_bind]. unfold input.
  assert (front ++ prepend p (prepend [i] (elements c) ++ tail) = (front ++ prepend (p ++ [i]) (elements c)) ++ prepend p tail) as ->
    by (by rewrite prepend_cat, prepend_app, app_assoc).
  assert (len front + len (elements c) = len (front ++ prepend (p ++ [i]) (elements c))) as -> by (by rewrite len_app, len_prepend).
  unfold tail. destruct (IH (i + 1) (front ++ prepend (p ++ [i]) (elements c)) (its ++ [ref c]) st1) as (st2 & -> & Hb2).
  - intros j d Hj Hd. replace (i + 1 + Z.of_nat j) with (i + Z.of_nat (S j)) by lia. by apply (Hf (S j)).
  - done.
  - by rewrite <-app_assoc.
  - by rewrite <-app_assoc.
  - exists st2. split; [done|]. by rewrite <-app_assoc in Hb2.
Qed.

Lemma hash256rlp_many fuel key value x rest pre_len stream :
  hash256rlp keccak (S fuel) ((key, value) :: x :: rest) pre_len stream =
  (let shared_prefix := fold_left (fun acc '(k, _) => Z.min (shared_prefix_len key k) acc) (x :: rest) (len key) in
   if pre_len <? shared_prefix then
     stream ← begin_list stream 2;
     part ← slice key pre_len shared_prefix;
     k ← hex_prefix_encode part false;
     stream ← append_bytes stream k;
     hash256aux keccak (hash256rlp keccak fuel) ((key, value) :: x :: rest) shared_prefix stream
   else
     stream ← begin_list stream 17;
     let begin := if pre_len =? len key then 1 else 0 in
     stream ← hash_children keccak (hash256rlp keccak fuel) 16 ((key, value) :: x :: rest) pre_len 0 begin stream;
     if pre_len =? len key then append_bytes stream value else append_empty_data stream).
Proof. done. Qed.

(** The entries of a branch are at least two; the first is the one without
    further nibbles, if there is one. *)
Lemma branch_entries p ch v : wfn (TBranch ch v) -> exists q v0 x rest,
  prepend p (elements (TBranch ch v)) = (p ++ q, v0) :: x :: rest /\ match v with Some v => q = [] /\ v0 = v | None => q <> [] end.
Proof.
  intros Hw. destruct (branch_diverges _ _ Hw) as (q1 & q2 & Hd & [w1 H1] & [w2 H2]). apply elem_of_elements in H1, H2.
  destruct (elements (TBranch ch v)) as [|[q v0] [|x rest]] eqn:He.
  - by apply not_elem_of_nil in H1.
  - exfalso. apply list_elem_of_singleton in H1, H2. simplify_eq. by destruct q.
  - exists q, v0, ((fun '(k, w) => (p ++ k, w)) x), (prepend p rest). split; [done|]. rewrite elements_branch in He. destruct v as [v|]; [by injection He|].
    assert ((q, v0) ∈ elements_from 0 ch) as Hin by (cbn [app] in He; rewrite He; set_solver).
    by apply elem_of_elements_from in Hin as (j & c & r & _ & -> & _).
Qed.

Lemma hash256rlp_ok t : forall p fuel, wf t -> content_ok (tget t) -> (forall q v, tget t q = Some v -> (length q < fuel)%nat) -> (0 < fuel)%nat ->
  hashes (hash256rlp keccak fuel) p t.
Proof.
  induction t as [|k v|k t IH|ch v IH] using trie_ind'; intros p fuel Hw Hc Hd Hf; (destruct fuel as [|fuel]; [lia|]); unfold hashes;
    pose proof (enc_ok keccak _ Hw Hc) as Hok; unfold TrieNode.enc; cbn [node_item] in *.
  - by eexists.
  - destruct (content_leaf _ _ Hc) as (Hk & _). cbn [elements prepend map hash256rlp].
    destruct (building_new 2 ltac:(done)) as (s0 & Hn & Hb0). unfold new_list in Hn. rewrite Hn. cbn [mbind outcome_bind].
    rewrite slice_ok by (rewrite len_app; pose proof (len_nonneg p); pose proof (len_nonneg k); lia). cbn [mbind outcome_bind].
    rewrite drop_len, take_ge by (rewrite len_app; unfold len; lia). rewrite hex_prefix_ok by done. cbn [mbind outcome_bind].
    apply item_ok_list in Hok as Hok'. destruct Hok' as [Hits _]. apply Forall_cons_iff in Hits as [[_ Hkl] Hits]. apply Forall_cons_iff in Hits as [[_ Hv] _].
    destruct (building_step (fun st => append_bytes st (hp k true)) 2 [] (Data (hp k true)) [Data v] s0) as (s1 & -> & Hb1); try done; [by intros; apply building_data|].
    cbn [mbind outcome_bind app] in *.
    destruct (building_step (fun st => append_bytes st v) 2 [Data (hp k true)] (Data v) [] s1) as (s2 & -> & Hb2); try done; [by intros; apply building_data|].
    exists s2. split; [done|]. by apply (building_done _ _ _ Hb2).
  - destruct Hw as [?|(Hne & Hb & Hw)]; [done|]. destruct (content_ext_key _ _ Hc Hw) as (Hk & _). destruct t as [| | |ch v]; try done.
    change (elements (TExt k (TBranch ch v))) with (prepend k (elements (TBranch ch v))). rewrite prepend_app.
    destruct (branch_entries (p ++ k) ch v Hw) as (q & v0 & x & rest & He & _). rewrite He, hash256rlp_many, (shared_branch ch v (p ++ k) _ v0) by done.
    pose proof (len_nonneg p). assert (0 < len k) by (destruct k as [|? k']; [done|]; rewrite len_cons; pose proof (len_nonneg k'); lia).
    cbv zeta. rewrite (proj2 (Z.ltb_lt _ _)) by (rewrite len_app; lia).
    destruct (building_new 2 ltac:(done)) as (s0 & Hn & Hb0). unfold new_list in Hn. rewrite Hn. cbn [mbind outcome_bind].
    rewrite slice_ok by (rewrite !len_app; pose proof (len_nonneg q); lia). cbn [mbind outcome_bind]. rewrite <-app_assoc, drop_len.
    replace (Z.to_nat (len (p ++ k) - len p)) with (length k) by (rewrite len_app; unfold len; lia). rewrite take_app_length, hex_prefix_ok by done.
    cbn [mbind outcome_bind]. apply item_ok_list in Hok as Hok'. destruct Hok' as [Hits _]. apply Forall_cons_iff in Hits as [[_ Hkl] _].
    destruct (building_step (fun st => append_bytes st (hp k false)) 2 [] (Data (hp k false)) [ref (TBranch ch v)] s0) as (s1 & -> & Hb1); try done; [by intros; apply building_data|].
    cbn [mbind outcome_bind app] in *. rewrite app_assoc, <-He.
    destruct (hash256aux_ok (hash256rlp keccak fuel) (p ++ k) (TBranch ch v) 2 [Data (hp k false)] [] s1) as (s2 & -> & Hb2); try done.
    { apply IH; [by right|by eapply content_ext| |].
      - intros r w Hr. rewrite <-(tget_ext k) in Hr. specialize (Hd _ _ Hr). rewrite length_app in Hd. unfold len in *. lia.
      - destruct (wfn_key _ Hw) as (r & w & Hr). rewrite <-(tget_ext k) in Hr. specialize (Hd _ _ Hr). rewrite length_app in Hd. unfold len in *. lia. }
    exists s2. split; [done|]. by apply (building_done _ _ _ Hb2).
  - destruct Hw as [?|Hw]; [done|]. destruct (branch_entries p ch v Hw) as (q & v0 & x & rest & He & Hq). pose proof (proj1 (wfn_branch _ _) Hw) as (Hl & Hfw & _).
    rewrite He, hash256rlp_many, (shared_branch ch v p _ v0) by done. cbv zeta. rewrite Z.ltb_irrefl.
    destruct (building_new 17 ltac:(done)) as (s0 & Hn & Hb0). unfold new_list in Hn. rewrite Hn. cbn [mbind outcome_bind].
    assert ((len p =? len (p ++ q)) = bool_decide (is_Some v)) as ->.
    { rewrite len_app. destruct v as [v|]; [destruct Hq as [-> _]; rewrite bool_decide_eq_true_2 by done; apply Z.eqb_eq; rewrite len_nil; lia|].
      rewrite bool_decide_eq_false_2 by (by intros [? ?]). apply Z.eqb_neq. destruct q as [|? q']; [done|]. rewrite len_cons. pose proof (len_nonneg q'). lia. }
    rewrite <-He, elements_branch, prepend_cat.
    set (front := prepend p (match v with Some v => [([], v)] | None => [] end)).
    assert ((if bool_decide (is_Some v) then 1 else 0) = len front) as -> by (by destruct v).
    assert (17 = len (map ref ch ++ [Data (value_or v)])) as Hlen by (rewrite len_app; unfold len; by rewrite length_map, Hl).
    destruct (hash_children_ok (hash256rlp keccak fuel) p ch 0 front [] [Data (value_or v)] s0) as (s1 & Hs1 & Hb1); try done.
    { intros j c Hj Hne. rewrite list.Forall_forall in IH. apply list_elem_of_lookup_2 in Hj as Hin.
      assert (child ch (Z.of_nat j) = c) as Hcj by (unfold child; by rewrite (proj2 (Z.leb_le _ _)), Nat2Z.id, Hj by lia).
      pose proof (Forall_lookup_1 _ _ _ _ Hfw Hj) as Hwc.
      assert (forall r w, tget c r = Some w -> (length r < fuel)%nat) as Hdc.
      { intros r w Hr. rewrite <-Hcj, <-(tget_child ch v) in Hr. specialize (Hd _ _ Hr). cbn in Hd. lia. }
      apply IH; [done|done| |done|].
      - rewrite <-Hcj. by eapply content_child.
      - destruct (wfn_key c (wf_nonempty _ Hwc Hne)) as (r & w & Hr). specialize (Hdc _ _ Hr). lia. }
    rewrite Hl in Hs1. rewrite Hs1. cbn [mbind outcome_bind app] in *.
    apply item_ok_list in Hok as Hok'. destruct Hok' as [Hits _]. apply Forall_app in Hits as [_ Hits]. apply Forall_cons_iff in Hits as [[_ Hvl] _].
    assert (exists s2, (if bool_decide (is_Some v) then append_bytes s1 v0 else append_empty_data s1) = Ok s2 /\
      building 17 (map ref ch ++ [Data (value_or v)]) s2) as (s2 & -> & Hb2).
    { destruct v as [v|]; [destruct Hq as [_ ->]|].
      - rewrite bool_decide_eq_true_2 by done. eapply (building_step (fun st => append_bytes st v)); try done; by intros; apply building_data.
      - rewrite bool_decide_eq_false_2 by (by intros [? ?]). eapply (building_step append_empty_data); try done. by intros; apply building_empty. }
    exists s2. split; [done|]. apply (building_done _ _ _ Hb2 (eq_sym Hlen)).
Qed.
End triehash_ok.
