(* ===== verification/TrieMaps.v ===== *)
(** * Tries as maps from byte strings

    A tree stands for a finite map if its keys are the nibbles of the map's
    keys.  The root computed by [trie_root] for a list of entries is the hash of
    the tree of the map they make up. *)
From stdpp Require Import base list numbers sorting gmap.
From S2P Require Import Prelude RlpStream RlpEncoding RlpDecode RlpViews RlpImpls RlpCodecs Account Nibbles HashDb Trie TrieNode TrieDbMut TrieHash.

Abbreviation contents := (gmap bytes bytes).

Definition denotes (t : trie) (M : contents) : Prop := forall q v, tget t q = Some v <-> exists k, q = to_nibs k /\ M !! k = Some v.

(** Keys and values are byte strings, and short enough for all lengths. *)
Definition entry_ok (k v : bytes) : Prop := is_bytes k /\ len k < 2 ^ 29 /\ is_bytes v /\ 0 < len v < bound.
Definition contents_ok (M : contents) : Prop := map_Forall entry_ok M.

Lemma denotes_get t M k : denotes t M -> contents_ok M -> is_bytes k -> tget t (to_nibs k) = M !! k.
Proof.
  intros Hd Hok Hk. destruct (M !! k) as [v|] eqn:Hv; [apply Hd; eauto|]. destruct (tget t (to_nibs k)) as [v|] eqn:Ht; [|done].
  apply Hd in Ht as (k' & Heq & Hv'). apply to_nibs_inj in Heq; [congruence|done|by apply (Hok k' v)].
Qed.

Lemma denotes_content t M : denotes t M -> contents_ok M -> content_ok (tget t).
Proof.
  intros Hd Hok q v Hq. apply Hd in Hq as (k & -> & Hv). destruct (Hok k v Hv) as (Hk & Hl & ? & ?).
  split_and!; [by apply to_nibs_nibbles|rewrite len_to_nibs; unfold bound; lia|done|lia..].
Qed.

Lemma denotes_empty : denotes TEmpty ∅.
Proof. intros q v. cbn. split; [done|]. by intros (k & _ & Hk). Qed.

Lemma denotes_upd t t' M k v : denotes t M -> contents_ok M -> is_bytes k -> (forall q, tget t' q = upd (tget t) (to_nibs k) v q) -> denotes t' (<[k := v]> M).
Proof.
  intros Hd Hok Hk Ht q w. rewrite Ht. unfold upd. case_decide as Hq.
  - subst q. split; [intros [= <-]; exists k; by rewrite lookup_insert_eq|]. intros (k' & Heq & Hw).
    destruct (decide (k' = k)) as [->|Hne]; [by rewrite lookup_insert_eq in Hw|]. rewrite lookup_insert_ne in Hw by done.
    apply to_nibs_inj in Heq; [done|done|by apply (Hok k' w)].
  - rewrite (Hd q w). split; intros (k' & -> & Hw); exists k'; (split; [done|]).
    + rewrite lookup_insert_ne; [done|]. by intros ->.
    + rewrite lookup_insert_ne in Hw; [done|]. by intros ->.
Qed.

Lemma denotes_del t t' M k : denotes t M -> contents_ok M -> is_bytes k -> (forall q, tget t' q = del (tget t) (to_nibs k) q) -> denotes t' (delete k M).
Proof.
  intros Hd Hok Hk Ht q w. rewrite Ht. unfold del. case_decide as Hq.
  - subst q. split; [done|]. intros (k' & Heq & Hw). apply lookup_delete_Some in Hw as [Hne Hw].
    apply to_nibs_inj in Heq; [done|done|by apply (Hok k' w)].
  - rewrite (Hd q w). split; intros (k' & -> & Hw); exists k'; (split; [done|]).
    + rewrite lookup_delete_ne; [done|]. by intros ->.
    + by apply lookup_delete_Some in Hw as [_ ?].
Qed.

Lemma contents_insert M k v : contents_ok M -> entry_ok k v -> contents_ok (<[k := v]> M).
Proof. intros. by apply map_Forall_insert_2. Qed.
Lemma contents_delete M k : contents_ok M -> contents_ok (delete k M).
Proof. intros. by apply map_Forall_delete. Qed.

(** The tree is unique. *)
Lemma denotes_unique t1 t2 M : wf t1 -> wf t2 -> denotes t1 M -> denotes t2 M -> t1 = t2.
Proof.
  intros H1 H2 Hd1 Hd2. apply wf_ext; [done|done|]. intros q. destruct (tget t1 q) as [v|] eqn:Hq; symmetry.
  - apply Hd2, Hd1, Hq.
  - destruct (tget t2 q) as [v|] eqn:Hq2; [|done]. apply Hd2, Hd1 in Hq2. congruence.
Qed.

Lemma denotes_empty_inv t M : wf t -> denotes t M -> (t = TEmpty <-> M = ∅).
Proof.
  intros Hw Hd. split.
  - intros ->. apply map_empty. intros k. destruct (M !! k) as [v|] eqn:Hk; [|done]. assert (tget TEmpty (to_nibs k) = Some v) by (apply Hd; eauto). done.
  - intros ->. eapply denotes_unique; [done|by left|done|apply denotes_empty].
Qed.

(** ** Lexicographic order *)
Lemma lex_cmp_refl a : lex_cmp a a = Eq.
Proof. induction a as [|x a IH]; [done|]. cbn. by rewrite Z.compare_refl. Qed.

Lemma lex_cmp_eq a b : lex_cmp a b = Eq -> a = b.
Proof.
  revert b. induction a as [|x a IH]; intros [|y b]; cbn; try done. destruct (Z.compare_spec x y); try done. subst. intros ?%IH. by subst.
Qed.

Lemma lex_cmp_antisym a b : lex_cmp b a = CompOpp (lex_cmp a b).
Proof. revert b. induction a as [|x a IH]; intros [|y b]; cbn; try done. rewrite (Z.compare_antisym x y), IH. by destruct (x ?= y). Qed.

Lemma lex_lt_trans a b c : lex_lt a b -> lex_lt b c -> lex_lt a c.
Proof.
  unfold lex_lt. revert b c. induction a as [|x a IH]; intros [|y b] [|z c]; cbn; try done.
  destruct (Z.compare_spec x y), (Z.compare_spec y z), (Z.compare_spec x z); try done; try lia. subst. by apply IH.
Qed.

Lemma lex_cmp_to_nibs a b : is_bytes a -> is_bytes b -> lex_cmp (to_nibs a) (to_nibs b) = lex_cmp a b.
Proof.
  intros Ha. revert b. induction Ha as [|x a [Hx1 Hx2] Ha IH]; intros b Hb; inversion Hb as [|y b' [Hy1 Hy2] Hb']; subst; try done. change (2 ^ 8) with 256 in *.
  cbn [to_nibs lex_cmp]. rewrite IH by done. pose proof (Z.div_mod x 16 ltac:(lia)). pose proof (Z.div_mod y 16 ltac:(lia)).
  pose proof (Z.mod_pos_bound x 16 ltac:(lia)). pose proof (Z.mod_pos_bound y 16 ltac:(lia)).
  destruct (Z.compare_spec (x / 16) (y / 16)), (Z.compare_spec (x mod 16) (y mod 16)), (Z.compare_spec x y); try done; lia.
Qed.

(** Sorted lists with the same entries are equal. *)
Lemma sorted_unique (l1 l2 : list (bytes * bytes)) : StronglySorted lex_lt (map fst l1) -> StronglySorted lex_lt (map fst l2) ->
  (forall x, x ∈ l1 <-> x ∈ l2) -> l1 = l2.
Proof.
  assert (Hirr : forall a, ~ lex_lt a a) by (intros a; unfold lex_lt; by rewrite lex_cmp_refl).
  assert (Hlt : forall a l x, Forall (lex_lt a) (map (fst (B := bytes)) l) -> x ∈ l -> lex_lt a (fst x)).
  { intros a l x Hf Hx. rewrite List.Forall_map, list.Forall_forall in Hf. by apply Hf. }
  revert l2. induction l1 as [|[k1 v1] l1 IH]; intros [|[k2 v2] l2] H1 H2 He; [done| | |].
  - exfalso. apply (not_elem_of_nil (k2, v2)). apply He. by left.
  - exfalso. apply (not_elem_of_nil (k1, v1)). apply He. by left.
  - cbn in H1, H2. apply StronglySorted_inv in H1 as [H1 F1], H2 as [H2 F2].
    assert ((k1, v1) = (k2, v2)) as [= -> ->].
    { destruct (proj1 (elem_of_cons _ _ _) (proj1 (He (k1, v1)) ltac:(by left))) as [?|Hi1]; [done|].
      destruct (proj1 (elem_of_cons _ _ _) (proj2 (He (k2, v2)) ltac:(by left))) as [?|Hi2]; [done|].
      exfalso. apply (Hirr k1). eapply lex_lt_trans; [apply (Hlt _ _ _ F1 Hi2)|apply (Hlt _ _ _ F2 Hi1)]. }
    f_equal. apply IH; [done|done|]. intros x. specialize (He x). rewrite !elem_of_cons in He.
    split; intros Hx; [destruct (proj1 He (or_intror Hx)) as [->|?]|destruct (proj2 He (or_intror Hx)) as [->|?]]; try done;
      exfalso; apply (Hirr k2); [apply (Hlt _ _ _ F1 Hx)|apply (Hlt _ _ _ F2 Hx)].
Qed.

(** ** Collecting into a sorted map *)
Lemma btree_insert_keys k v m x : x ∈ map fst (btree_insert k v m) <-> x = k \/ x ∈ map fst m.
Proof.
  induction m as [|[k' v'] m IH]; cbn [btree_insert map]; [set_solver|]. destruct (lex_cmp k k') eqn:Hc; cbn [map fst].
  - apply lex_cmp_eq in Hc as ->. set_solver.
  - set_solver.
  - rewrite !elem_of_cons, IH. tauto.
Qed.

Lemma btree_insert_sorted k v m : StronglySorted lex_lt (map fst m) -> StronglySorted lex_lt (map fst (btree_insert k v m)).
Proof.
  induction m as [|[k' v'] m IH]; cbn [btree_insert map fst]; [repeat constructor|]. intros Hs. apply StronglySorted_inv in Hs as Hs'. destruct Hs' as [Hs' Hf].
  destruct (lex_cmp k k') eqn:Hc; cbn [map fst]; [done| |].
  - constructor; [done|]. constructor; [done|]. eapply Forall_impl; [exact Hf|]. intros x Hx. by eapply lex_lt_trans.
  - constructor; [by apply IH|]. rewrite list.Forall_forall in *. intros x [->|Hx]%btree_insert_keys; [|by apply Hf].
    unfold lex_lt. by rewrite lex_cmp_antisym, Hc.
Qed.

Lemma btree_insert_lookup k v m x w : StronglySorted lex_lt (map fst m) ->
  (x, w) ∈ btree_insert k v m <-> (x = k /\ w = v) \/ (x <> k /\ (x, w) ∈ m).
Proof.
  induction m as [|[k' v'] m IH]; cbn [btree_insert map fst]; intros Hs; [set_solver|]. apply StronglySorted_inv in Hs as [Hs Hf].
  assert (Hnot : forall w, (k', w) ∈ m -> False).
  { intros w' Hin. rewrite List.Forall_map, list.Forall_forall in Hf. specialize (Hf _ Hin). unfold lex_lt in Hf. cbn in Hf. by rewrite lex_cmp_refl in Hf. }
  destruct (lex_cmp k k') eqn:Hc.
  - apply lex_cmp_eq in Hc as ->. rewrite !elem_of_cons. split.
    + intros [[= -> ->]|Hin]; [auto|]. right. split; [|auto]. intros ->. by eapply Hnot.
    + intros [[-> ->]|[Hne [[= -> _]|Hin]]]; auto. done.
  - rewrite !elem_of_cons. split.
    + intros [[= -> ->]|Hin]; [auto|]. right. split; [|done]. intros ->. destruct Hin as [[= -> ->]|Hin]; [by rewrite lex_cmp_refl in Hc|].
      rewrite List.Forall_map, list.Forall_forall in Hf. specialize (Hf _ Hin). unfold lex_lt in Hf. cbn in Hf. rewrite lex_cmp_antisym, Hc in Hf. done.
    + intros [[-> ->]|[Hne Hin]]; auto.
  - rewrite !elem_of_cons, IH by done. split.
    + intros [[= -> ->]|[?|[? ?]]]; auto. right. split; [|auto]. intros ->. by rewrite lex_cmp_refl in Hc.
    + intros [[-> ->]|[Hne [[= -> ->]|Hin]]]; auto.
Qed.

Definition insert_all (input : list (bytes * bytes)) (M : contents) : contents := fold_left (fun M '(k, v) => <[k := v]> M) input M.

Lemma btree_collect_ok input :
  StronglySorted lex_lt (map fst (btree_collect input)) /\ forall k v, (k, v) ∈ btree_collect input <-> insert_all input ∅ !! k = Some v.
Proof.
  unfold btree_collect, insert_all.
  cut (forall m (M : contents), StronglySorted lex_lt (map fst m) -> (forall k v, (k, v) ∈ m <-> M !! k = Some v) ->
    let m' := fold_left (fun m '(k, v) => btree_insert k v m) input m in
    StronglySorted lex_lt (map fst m') /\ forall k v, (k, v) ∈ m' <-> fold_left (fun M '(k, v) => <[k := v]> M) input M !! k = Some v).
  { intros Hc. apply (Hc [] ∅); [constructor|]. intros k v. rewrite lookup_empty. split; [by intros ?%not_elem_of_nil|done]. }
  induction input as [|[k v] input IH]; intros m M Hs Hm; cbn [fold_left]; [done|]. apply IH; [by apply btree_insert_sorted|].
  intros x w. rewrite btree_insert_lookup by done. destruct (decide (x = k)) as [->|Hne].
  - rewrite lookup_insert_eq. split; [intros [[_ ->]|[? _]]; done|]. intros [= ->]. auto.
  - rewrite lookup_insert_ne, Hm by done. split; [intros [[? _]|[_ ?]]; done|auto].
Qed.

Section root.
Context (keccak : bytes -> Z) (Hword : forall b, in_u 256 (keccak b)).

Lemma gen_trie_root_ok t : wf t -> content_ok (tget t) -> gen_trie_root keccak (elements t) = Ok (keccak (enc keccak t)).
Proof.
  intros Hw Hc. unfold gen_trie_root.
  destruct (hash256rlp_ok keccak Hword t [] (hash_fuel (elements t)) Hw Hc) as (s & Hs & Ho); [|unfold hash_fuel; lia|].
  - intros q v Hq. apply elem_of_elements in Hq. unfold hash_fuel.
    assert (length q <= list_max (map (fun '(k, _) => length k) (elements t)))%nat; [|lia].
    pose proof (proj1 (list_max_le (map (fun '(k, _) => length k) (elements t)) _) (le_n _)) as Hf. rewrite List.Forall_map, list.Forall_forall in Hf.
    by apply (Hf _ Hq).
  - rewrite prepend_nil_key in Hs. change (len []) with 0 in Hs. rewrite Hs. cbn [mbind outcome_bind]. rewrite Ho. done.
Qed.

Lemma nibble_keys_elements t M input :
  denotes t M -> contents_ok M -> (forall k v, (k, v) ∈ input <-> M !! k = Some v) -> StronglySorted lex_lt (map fst input) ->
  nibble_keys input = elements t.
Proof.
  intros Hd Hok Hin Hs. apply sorted_unique; [|apply elements_sorted|].
  - assert (Forall (fun x => is_bytes (fst x)) input) as Hb.
    { apply list.Forall_forall. intros [k v] Hk. apply Hin in Hk. by apply (Hok k v). }
    clear Hin. induction Hb as [|[k v] input Hk Hb IH]; cbn [nibble_keys map fst]; [constructor|].
    cbn [map fst] in Hs. apply StronglySorted_inv in Hs as [Hs Hf]. constructor; [by apply IH|].
    rewrite List.Forall_map in Hf. unfold nibble_keys. rewrite !List.Forall_map. rewrite list.Forall_forall in Hf, Hb |- *. intros [k' v'] Hk'.
    cbn. unfold lex_lt. rewrite !as_nibbles_ok, lex_cmp_to_nibs; [by apply (Hf _ Hk')|done|by apply (Hb _ Hk')].
  - intros [q v]. rewrite elem_of_elements, (Hd q v). unfold nibble_keys. rewrite list_elem_of_fmap. split.
    + intros ([k w] & [= -> ->] & Hk). exists k. by rewrite as_nibbles_ok, <-Hin.
    + intros (k & -> & Hk). exists (k, v). by rewrite as_nibbles_ok, Hin.
Qed.

Lemma trie_root_ok t M input : wf t -> denotes t M -> contents_ok M -> insert_all input ∅ = M -> trie_root keccak input = Ok (keccak (enc keccak t)).
Proof.
  intros Hw Hd Hok <-. unfold trie_root. destruct (btree_collect_ok input) as [Hs Hl].
  rewrite (nibble_keys_elements t _ _ Hd Hok Hl Hs). apply gen_trie_root_ok; [done|by eapply denotes_content].
Qed.
End root.
