(* ===== verification/TrieRefine.v ===== *)
(** * A mutable trie is a map

    Every operation of [TrieDBMut] does to the trie what the corresponding
    operation does to a finite map; a commit leaves a database from which
    [TrieDB] reads the same map, under the root [trie_root] computes for it. *)
From stdpp Require Import base list numbers gmap gmultiset.
From S2P Require Import Prelude RlpStream RlpEncoding RlpDecode RlpViews RlpImpls RlpCodecs Account Nibbles HashDb Trie TrieNode TrieDb.
From S2P Require Import TrieDbMut TrieRep TrieSteps TrieInsert TrieRemove TrieCommit TrieHash TrieMaps.

(** ** Sequences of operations *)
Inductive trie_op : Type :=
  | OpGet (k : bytes) | OpContains (k : bytes) | OpIsEmpty | OpInsert (k v : bytes) | OpRemove (k : bytes) | OpRoot.
Inductive trie_ans : Type := AnsValue (v : option bytes) | AnsBool (b : bool) | AnsRoot (root : Z).

Section run.
Context {DB : Type} {H : HashStore DB}.

(** The code's answer and the trie after it. *)
Definition exec_op (s : TrieDBMut DB) (o : trie_op) : outcome (TrieError * TrieDBMut DB) (trie_ans * TrieDBMut DB) :=
  match o with
  | OpGet k => match tm_get s k with Ok v => Ok (AnsValue v, s) | Err e => Err (e, s) | Panic => Panic end
  | OpContains k => match tm_contains s k with Ok b => Ok (AnsBool b, s) | Err e => Err (e, s) | Panic => Panic end
  | OpIsEmpty => match tm_is_empty s with Ok b => Ok (AnsBool b, s) | _ => Panic end
  | OpInsert k v => '(old, s) ← tm_insert k v s; Ok (AnsValue old, s)
  | OpRemove k => '(old, s) ← tm_remove k s; Ok (AnsValue old, s)
  | OpRoot => match tm_root_op s with Ok (r, s) => Ok (AnsRoot r, s) | _ => Panic end
  end.

Fixpoint exec_ops (s : TrieDBMut DB) (ops : list trie_op) : outcome (TrieError * TrieDBMut DB) (list trie_ans * TrieDBMut DB) :=
  match ops with
  | [] => Ok ([], s)
  | o :: ops => '(a, s) ← exec_op s o; '(l, s) ← exec_ops s ops; Ok (a :: l, s)
  end.
End run.

(** The same on a map. *)
Definition spec_map (M : contents) (o : trie_op) : contents :=
  match o with
  | OpInsert k v => if len v =? 0 then delete k M else <[k := v]> M
  | OpRemove k => delete k M
  | _ => M
  end.

Definition spec_ans (keccak : bytes -> Z) (M : contents) (o : trie_op) : run trie_ans :=
  match o with
  | OpGet k => Ok (AnsValue (M !! k))
  | OpContains k => Ok (AnsBool (bool_decide (is_Some (M !! k))))
  | OpIsEmpty => Ok (AnsBool (bool_decide (M = ∅)))
  | OpInsert k _ | OpRemove k => Ok (AnsValue (M !! k))
  | OpRoot => r ← trie_root keccak (map_to_list M); Ok (AnsRoot r)
  end.

Fixpoint spec_ops (keccak : bytes -> Z) (M : contents) (ops : list trie_op) : run (list trie_ans * contents) :=
  match ops with
  | [] => Ok ([], M)
  | o :: ops => a ← spec_ans keccak M o; '(l, M) ← spec_ops keccak (spec_map M o) ops; Ok (a :: l, M)
  end.

Section refine.
Context {DB : Type} {H : HashStore DB} (keccak : bytes -> Z) {L : HashStoreLaws DB H keccak} (known : bytes -> Prop).
Context (Hh : hash_ok keccak known).

Abbreviation rep_h := (rep_h keccak known).
Abbreviation enc := (enc keccak).
Abbreviation below := (below keccak).
Abbreviation keys_of := (keys_of keccak).
Abbreviation db_ok := (db_ok keccak known).
Abbreviation ready := (ready keccak known).
Abbreviation room := (room keccak).
Implicit Types s : TrieDBMut DB.

Definition key_ok (k : bytes) : Prop := is_bytes k /\ len k < 2 ^ 29.

Lemma key_plain k : key_ok k -> plain (ns_new k).
Proof. intros [Hk Hl]. apply plain_new; [done|lia]. Qed.

Lemma op_fuel_ok k : (length (nibs (ns_new k)) + 4 <= op_fuel k)%nat.
Proof. rewrite nibs_new, length_to_nibs. unfold op_fuel. lia. Qed.

(** ** The invariant *)
Record trie_tree s (t : trie) (M : contents) : Prop := {
  tt_ready : exists σf m N, ready s σf m N /\ rep_h true m N (tm_root_handle s) t;
  tt_wf : wf t;
  tt_denotes : denotes t M;
  tt_contents : contents_ok M;
  tt_root h : tm_root_handle s = HashHandle h -> tm_root s = h;
}.

(** A database that holds the map [M] under a root. *)
Record db_holds (d : DB) (root : Z) (t : trie) (M : contents) : Prop := {
  dh_db : db_ok d;
  dh_wf : wf t;
  dh_denotes : denotes t M;
  dh_contents : contents_ok M;
  dh_root : root = keccak (enc t);
  dh_known : known (enc t);
  dh_below : Forall known (below t);
  dh_covered : covered keccak d ({[+ keccak (enc t) +]} ⊎ keys_of (below t)) ∅;
}.

(** Nothing is owed to the database. *)
Definition db_clean (d : DB) : Prop := db_ok d /\ forall x, x <> KECCAK_NULL_RLP -> 0 <= hdb_refs d x.

Lemma enc_empty : keccak (enc TEmpty) = KECCAK_NULL_RLP.
Proof. exact (ho_null _ _ Hh). Qed.

Lemma owed_null N D x : x <> KECCAK_NULL_RLP -> owed ({[+ keccak (enc TEmpty) +]} ⊎ N) D x = owed N D x.
Proof. intros Hx. unfold owed. by rewrite multiplicity_disj_union, multiplicity_singleton_ne by (by rewrite enc_empty). Qed.

Lemma owed_empty x : owed ∅ ∅ x = 0.
Proof. unfold owed. by rewrite multiplicity_empty, decide_False by set_solver. Qed.

Lemma db_holds_empty d : db_clean d -> db_holds d KECCAK_NULL_RLP TEmpty ∅.
Proof.
  intros [Hd Hn]. split; [done|by left|apply denotes_empty|apply map_Forall_empty|by rewrite enc_empty|apply (ho_known _ _ Hh)|constructor|].
  intros x Hx. rewrite owed_null by done. change (keys_of (below TEmpty)) with (∅ : gmultiset Z). rewrite owed_empty. by apply Hn.
Qed.

(** ** Starting *)
Lemma db_holds_start d root t M s : db_holds d root t M -> s = mkTrie storage_empty d root (HashHandle root) ∅ 0 -> trie_tree s t M.
Proof.
  intros [] ->. split; try done; [|by intros h [= ->]]. subst root. exists ∅, ∅, ({[+ keccak (enc t) +]} ⊎ keys_of (below t)). split; [|by constructor].
  split; [apply map_disjoint_empty_l| |done|exact dh_covered0]. unfold holds. rewrite map_empty_union. apply models_empty.
Qed.

Lemma db_holds_get d root t M : db_holds d root t M -> hdb_get d root = Some (enc t).
Proof. intros []. subst root. eapply (fetch keccak known Hh); [done|done| |done]. multiset_solver. Qed.

Lemma from_existing_ok d root t M : db_holds d root t M -> exists s, from_existing d root = Ok s /\ tm_db s = d /\ trie_tree s t M.
Proof.
  intros Hd. unfold from_existing. rewrite (hl_contains d root) by apply Hd. rewrite (db_holds_get _ _ _ _ Hd), bool_decide_eq_true_2 by done.
  eexists. split; [reflexivity|]. split; [done|]. by eapply db_holds_start.
Qed.

Lemma new_ok d : db_clean d -> trie_tree (TrieDBMut_new d) TEmpty ∅.
Proof. intros Hd. eapply (db_holds_start _ _ _ _ _ (db_holds_empty d Hd)). done. Qed.

(** ** The operations *)
Lemma tm_get_ok s t M k : trie_tree s t M -> key_ok k -> tm_get s k = Ok (M !! k).
Proof.
  intros [(σf & m & N & [] & Hr) Hw Hd Hc _] Hk. unfold tm_get.
  erewrite (tm_lookup_ok keccak known Hh _ s _ true m N _ t (ns_new k) rd_holds); try done.
  - rewrite nibs_new. f_equal. apply denotes_get; [done|done|apply Hk].
  - apply map_union_subseteq_l.
  - by eapply denotes_content.
  - by apply key_plain.
  - pose proof (op_fuel_ok k). lia.
Qed.

Lemma tm_contains_ok s t M k : trie_tree s t M -> key_ok k -> tm_contains s k = Ok (bool_decide (is_Some (M !! k))).
Proof. intros Ht Hk. unfold tm_contains. by erewrite tm_get_ok. Qed.

Lemma tm_is_empty_ok s t M : trie_tree s t M -> tm_is_empty s = Ok (bool_decide (M = ∅)).
Proof.
  intros [(σf & m & N & [] & Hr) Hw Hd Hc _]. unfold tm_is_empty.
  assert (bool_decide (M = ∅) = negb (nonempty t)) as ->.
  { pose proof (denotes_empty_inv t M Hw Hd) as He. destruct (nonempty t) eqn:Hne; cbn [negb].
    - apply bool_decide_eq_false_2. intros ->%He. done.
    - apply bool_decide_eq_true_2, He. by destruct t. }
  destruct (tm_root_handle s) as [i|h].
  - apply rep_h_stored in Hr as (x & m0 & -> & Hi & Hx). rewrite (storage_index_ok _ _ i x rd_holds) by apply lookup_union_Some_l, lookup_insert_eq.
    destruct (rep_s_node _ _ _ _ _ _ _ Hx) as (N0 & Hn & _). cbn [mbind outcome_bind]. by destruct Hn.
  - inversion Hr as [? ? _ Hk Hkb| |]; subst. f_equal. destruct Hw as [->|Hw]; [rewrite enc_empty; by rewrite Z.eqb_refl|].
    rewrite wfn_nonempty by done. apply Z.eqb_neq. intros He. apply (enc_not_null keccak t Hw).
    apply (ho_inj _ _ Hh); [done|apply (ho_known _ _ Hh)|]. by rewrite (ho_null _ _ Hh).
Qed.

Lemma tm_remove_ok s t M k : trie_tree s t M -> key_ok k ->
  exists s' t', tm_remove k s = Ok (M !! k, s') /\ trie_tree s' t' (delete k M) /\ tm_db s' = tm_db s.
Proof.
  intros [(σf & m & N & Hrd & Hr) Hw Hd Hc _] Hk. pose proof (denotes_content _ _ Hd Hc) as Hct. unfold tm_remove.
  destruct (remove_at_ok keccak known Hh (remove_inspector (op_fuel k)) true s σf m N _ t (ns_new k) Hrd Hr Hw Hct) as (o & s1 & Hi & Hcase).
  { intros s1 m1 N1 n Hrd1 Hr1. eapply (trie_remove_ok keccak known Hh); try done; [by apply key_plain|apply op_fuel_ok]. }
  mstep Hi. rewrite nibs_new in *. rewrite (denotes_get t M k Hd Hc (proj1 Hk)) in *. destruct o as [[i changed]|].
  - destruct Hcase as (m1 & N1 & t' & Hmv & Hr1 & Hw' & Ht' & _). eexists (with_root_handle (InMemory i) s1), t'. split; [done|]. split; [|by destruct Hmv as [_ _ []]].
    split; [|by right|by eapply denotes_del; [done|done|apply Hk|]|by apply contents_delete|done]. exists σf, m1, N1. split; [|done].
    destruct (moved_ready _ _ _ _ _ _ _ _ _ Hrd Hmv). by split.
  - destruct Hcase as [Hmv Hno]. eexists (mkTrie (tm_storage s1) (tm_db s1) KECCAK_NULL_RLP (HashHandle KECCAK_NULL_RLP) (death_row s1) (hash_count s1)), TEmpty.
    split; [done|]. split; [|by destruct Hmv as [_ _ []]].
    split; [|by left|eapply denotes_del; [done|done|apply Hk|]; intros q; by rewrite Hno|by apply contents_delete|by intros h [= ->]].
    destruct (moved_ready _ _ _ _ _ _ _ _ _ Hrd Hmv). exists σf, ∅, ({[+ keccak (enc TEmpty) +]} ⊎ keys_of (below TEmpty)). split.
    + split; try done. intros x Hx. cbn [tm_db death_row]. rewrite owed_null by done. change (keys_of (below TEmpty)) with (∅ : gmultiset Z). by apply rd_covered.
    + cbn [tm_root_handle]. rewrite <-enc_empty. constructor; [done|apply (ho_known _ _ Hh)|constructor].
Qed.

Lemma tm_insert_ok s t M k v : trie_tree s t M -> key_ok k -> (len v = 0 \/ is_bytes v /\ 0 < len v < bound) ->
  exists s' t', tm_insert k v s = Ok (M !! k, s') /\ trie_tree s' t' (spec_map M (OpInsert k v)) /\ tm_db s' = tm_db s.
Proof.
  intros Htt Hk Hv. unfold tm_insert. cbn [spec_map]. destruct (Z.eqb_spec (len v) 0) as [He|He]; [by eapply tm_remove_ok|].
  destruct Hv as [?|Hv]; [done|]. destruct Htt as [(σf & m & N & Hrd & Hr) Hw Hd Hc _]. pose proof (denotes_content _ _ Hd Hc) as Hct.
  destruct (insert_at_ok keccak known Hh wfn (insert_inspector (op_fuel k)) true s σf m N _ t (ns_new k) v Hrd Hr Hw Hct)
    as (i & changed & s1 & m1 & N1 & t' & Hi & Hmv & Hr1 & Ht' & _ & Hw').
  { intros s1 m1 N1 n Hrd1 Hr1. eapply (insert_ok keccak known Hh); try done; [by apply key_plain|]. pose proof (op_fuel_ok k). lia. }
  mstep Hi. rewrite nibs_new in *. rewrite (denotes_get t M k Hd Hc (proj1 Hk)) in *.
  eexists (with_root_handle (InMemory i) s1), t'. split; [done|]. split; [|by destruct Hmv as [_ _ []]].
  split; [|by right|by eapply denotes_upd; [done|done|apply Hk|]|apply contents_insert; [done|]|done].
  - exists σf, m1, N1. split; [|done]. destruct (moved_ready _ _ _ _ _ _ _ _ _ Hrd Hmv). by split.
  - destruct Hk, Hv as (? & ? & ?). unfold entry_ok. by split_and!.
Qed.

(** The nodes of the map are known, and there are at most [n] of them. *)
Definition nodes_ok (M : contents) (n : Z) : Prop :=
  forall t, wf t -> denotes t M -> known (enc t) /\ Forall known (below t) /\ 1 + len (below t) <= n.

Lemma insert_all_map_to_list (M : contents) : insert_all (map_to_list M) ∅ = M.
Proof.
  apply map_eq. intros k. destruct (btree_collect_ok (map_to_list M)) as [Hs Hl]. unfold insert_all. 
  cut (forall l (M0 : contents), NoDup (map fst l) -> (forall x, x ∈ map fst l -> M0 !! x = None) ->
    forall k v, fold_left (fun M '(k, v) => <[k := v]> M) l M0 !! k = Some v <-> (k, v) ∈ l \/ M0 !! k = Some v).
  { intros Hc. destruct (M !! k) as [v|] eqn:Hv.
    - apply (Hc _ ∅); [apply NoDup_fst_map_to_list|by intros; apply lookup_empty|]. left. by apply elem_of_map_to_list.
    - destruct (fold_left _ (map_to_list M) ∅ !! k) as [v|] eqn:Hf; [|done].
      apply Hc in Hf as [Hin|Hin]; [|done|apply NoDup_fst_map_to_list|by intros; apply lookup_empty]. apply elem_of_map_to_list in Hin. congruence. }
  clear. induction l as [|[k v] l IH]; intros M0 Hnd Hnone k' v'; cbn [fold_left]; [set_solver|].
  cbn [map fst] in *. apply list.NoDup_cons in Hnd as [Hk Hnd]. rewrite IH; [|done|].
  - rewrite elem_of_cons. destruct (decide (k' = k)) as [->|Hne].
    + rewrite lookup_insert_eq, (Hnone k) by set_solver. split; [intros [Hin|[= ->]]; auto|].
      intros [[[= ->]|Hin]|?]; try done; auto. 
    + rewrite lookup_insert_ne by done. split; [intros [?|?]; auto|]. intros [[[= -> ->]|?]|?]; auto. done.
  - intros x Hx. rewrite lookup_insert_ne; [apply Hnone; set_solver|]. by intros ->.
Qed.

Lemma tm_root_ok s t M n : trie_tree s t M -> nodes_ok M n -> room (tm_db s) n ->
  exists s', tm_root_op s = Ok (keccak (enc t), s') /\ trie_tree s' t M /\ db_holds (tm_db s') (keccak (enc t)) t M /\
    trie_root keccak (map_to_list M) = Ok (keccak (enc t)) /\
    forall x, x <> KECCAK_NULL_RLP -> hdb_refs (tm_db s') x <= hdb_refs (tm_db s) x + n.
Proof.
  intros [(σf & m & N & Hrd & Hr) Hw Hd Hc Hroot] Hn Hrm. destruct (Hn t Hw Hd) as (Hke & Hkb & Hle).
  destruct (commit_ok keccak known Hh s σf m N t Hrd Hr Hw) as (s' & σf' & m' & N' & Hcm & Hrd' & Hr' & Hrt & Hdr & Hroot' & HN & Hle'); try done.
  { by eapply denotes_content. }
  { eapply room_le; [done|]. lia. }
  exists s'. unfold tm_root_op. rewrite Hcm. cbn [mbind outcome_bind]. rewrite Hrt. split; [done|]. split_and!.
  - split; try done. by exists σf', m', N'.
  - split; try done; [apply Hrd'|]. destruct Hrd' as [_ _ _ Hcv]. rewrite Hdr, HN in Hcv. exact Hcv.
  - eapply trie_root_ok; [apply Hh|done|done|done|]. apply insert_all_map_to_list.
  - intros x Hx. specialize (Hle' x Hx). lia.
Qed.

(** ** Any sequence of operations

    [b] bounds the number of nodes that the commits write, so that no
    reference count overflows. *)
Fixpoint ops_ok (b : Z) (M : contents) (ops : list trie_op) : Prop :=
  match ops with
  | [] => True
  | o :: ops =>
      match o with
      | OpGet k | OpContains k | OpRemove k => key_ok k /\ ops_ok b (spec_map M o) ops
      | OpInsert k v => key_ok k /\ (len v = 0 \/ is_bytes v /\ 0 < len v < bound) /\ ops_ok b (spec_map M o) ops
      | OpIsEmpty => ops_ok b M ops
      | OpRoot => exists n, nodes_ok M n /\ 0 <= n <= b /\ ops_ok (b - n) M ops
      end
  end.

Lemma exec_op_ok o ops b s t M : trie_tree s t M -> room (tm_db s) b -> ops_ok b M (o :: ops) ->
  exists a s1 t1 n, exec_op s o = Ok (a, s1) /\ spec_ans keccak M o = Ok a /\ trie_tree s1 t1 (spec_map M o) /\
    0 <= n <= Z.max 0 b /\ room (tm_db s1) (b - n) /\ ops_ok (b - n) (spec_map M o) ops.
Proof.
  intros Ht Hrm Hok. destruct o as [k|k| |k v|k|]; cbn [ops_ok exec_op spec_ans] in *.
  - destruct Hok as [Hk Hok]. rewrite (tm_get_ok s t M k) by done. eexists _, s, t, 0. rewrite Z.sub_0_r. split_and!; try done; lia.
  - destruct Hok as [Hk Hok]. rewrite (tm_contains_ok s t M k) by done. eexists _, s, t, 0. rewrite Z.sub_0_r. split_and!; try done; lia.
  - rewrite (tm_is_empty_ok s t M) by done. eexists _, s, t, 0. rewrite Z.sub_0_r. split_and!; try done; lia.
  - destruct Hok as (Hk & Hv & Hok). destruct (tm_insert_ok s t M k v Ht Hk Hv) as (s1 & t1 & -> & Ht1 & Hdb). cbn [mbind outcome_bind].
    eexists _, s1, t1, 0. rewrite Hdb, Z.sub_0_r. split_and!; try done; lia.
  - destruct Hok as (Hk & Hok). destruct (tm_remove_ok s t M k Ht Hk) as (s1 & t1 & -> & Ht1 & Hdb). cbn [mbind outcome_bind].
    eexists _, s1, t1, 0. rewrite Hdb, Z.sub_0_r. split_and!; try done; lia.
  - destruct Hok as (n & Hn & Hb & Hok). destruct (tm_root_ok s t M n Ht Hn) as (s1 & -> & Ht1 & Hdh & -> & Hle).
    { eapply room_le; [done|lia]. }
    cbn [mbind outcome_bind]. eexists _, s1, t, n. split_and!; try done; try lia.
    intros x Hx. specialize (Hle x Hx). specialize (Hrm x Hx). lia.
Qed.

Lemma exec_ops_ok ops : forall b s t M, trie_tree s t M -> room (tm_db s) b -> ops_ok b M ops ->
  exists ans s' t' M', exec_ops s ops = Ok (ans, s') /\ spec_ops keccak M ops = Ok (ans, M') /\ trie_tree s' t' M'.
Proof.
  induction ops as [|o ops IH]; intros b s t M Ht Hrm Hok; cbn [exec_ops spec_ops]; [by exists [], s, t, M|].
  destruct (exec_op_ok o ops b s t M Ht Hrm Hok) as (a & s1 & t1 & n & -> & -> & Ht1 & _ & Hrm1 & Hok1). cbn [mbind outcome_bind].
  destruct (IH _ s1 t1 _ Ht1 Hrm1 Hok1) as (ans & s' & t' & M' & -> & -> & Ht'). by exists (a :: ans), s', t', M'.
Qed.

(** When the last operation asks for the root, the database holds the map. *)
Lemma exec_ops_commit_ok ops : forall b s t M, trie_tree s t M -> room (tm_db s) b -> ops_ok b M (ops ++ [OpRoot]) ->
  exists ans root s' t' M', exec_ops s (ops ++ [OpRoot]) = Ok (ans ++ [AnsRoot root], s') /\
    spec_ops keccak M (ops ++ [OpRoot]) = Ok (ans ++ [AnsRoot root], M') /\ db_holds (tm_db s') root t' M'.
Proof.
  induction ops as [|o ops IH]; intros b s t M Ht Hrm Hok; cbn [app exec_ops spec_ops].
  - destruct Hok as (n & Hn & Hb & _). destruct (tm_root_ok s t M n Ht Hn) as (s1 & Hr & _ & Hdh & Htr & _); [eapply room_le; [done|lia]|].
    exists [], (keccak (enc t)), s1, t, M. cbn [exec_op spec_ans spec_map app]. rewrite Hr, Htr. done.
  - destruct (exec_op_ok o (ops ++ [OpRoot]) b s t M Ht Hrm Hok) as (a & s1 & t1 & n & -> & -> & Ht1 & _ & Hrm1 & Hok1). cbn [mbind outcome_bind].
    destruct (IH _ s1 t1 _ Ht1 Hrm1 Hok1) as (ans & r & s' & t' & M' & -> & -> & Hd'). by exists (a :: ans), r, s', t', M'.
Qed.

(** ** Reading a committed trie *)
Lemma trie_get_ok d root t M k : db_holds d root t M -> key_ok k ->
  exists td, TrieDB_new d root = Ok td /\ trie_get td k = Ok (M !! k) /\ trie_contains td k = Ok (bool_decide (is_Some (M !! k))).
Proof.
  intros Hd Hk. unfold TrieDB_new. rewrite (hl_contains d root) by apply Hd. pose proof (db_holds_get _ _ _ _ Hd) as Hg.
  rewrite Hg, bool_decide_eq_true_2 by done. eexists. split; [reflexivity|].
  assert (trie_get (mkTrieDB d root 0) k = Ok (M !! k)) as Hget; [|split; [done|]; unfold trie_contains; by rewrite Hget].
  unfold trie_get, trie_get_with. cbn [td_db td_root]. destruct Hd.
  rewrite (look_up_value keccak (ho_word _ _ Hh) d t root (ns_new k)); try done.
  - rewrite nibs_new. f_equal. apply denotes_get; [done|done|apply Hk].
  - by eapply denotes_content.
  - eapply (stored_covered keccak known Hh); [done|done| |done]. multiset_solver.
  - by apply key_plain.
Qed.
End refine.

(** ** Proofs of a lookup ([util/patricia_trie/src/recorder.rs])

    The nodes a [Recorder] collects during a lookup are a proof of its answer:
    any database that has them answers alike, and no database of nodes with the
    right hashes answers otherwise. *)
Section proofs.
Context (keccak : bytes -> Z) (Hword : forall b, in_u 256 (keccak b)).
Abbreviation enc := (enc keccak).
Abbreviation below := (below keccak).

(** A database has the recorded nodes. *)
Definition has_nodes {DB} `{HashStore DB} (db : DB) (l : list Rec) : Prop :=
  Forall (fun r => hdb_get db (rec_hash r) = Some (rec_data r)) l.

(** A node of the tree, recorded under its hash. *)
Definition node_rec (t : trie) (r : Rec) : Prop := rec_data r ∈ enc t :: below t /\ rec_hash r = keccak (rec_data r).

Lemma recorder_record_ok q b depth : r_min_depth q = 0 -> 0 <= depth ->
  recorder_record keccak q (keccak b) b depth = Ok (mkRecorder (r_nodes q ++ [mkRec depth b (keccak b)]) 0).
Proof.
  intros Hm Hd. unfold recorder_record. rewrite Z.eqb_refl. cbn [negb]. by rewrite Hm, (proj2 (Z.leb_le _ _)).
Qed.

Lemma record_loop_ok {DB} `{HashStore DB} fuel (db : DB) q t key depth :
  wf t -> content_ok (tget t) -> stored keccak db t -> hdb_get db (keccak (enc t)) = Some (enc t) -> plain key ->
  r_min_depth q = 0 -> 0 <= depth -> (length (nibs key) < fuel)%nat ->
  exists l, look_up_loop (recorder_query keccak) fuel db q (keccak (enc t)) key depth =
      (Ok (tget t (nibs key)), mkRecorder (r_nodes q ++ l) 0) /\
    Forall (node_rec t) l /\
    forall DB' (H' : HashStore DB') (db' : DB'), has_nodes db' l ->
      look_up_loop (fn_query (fun v => v)) fuel db' tt (keccak (enc t)) key depth = (Ok (tget t (nibs key)), tt).
Proof.
  revert q t key depth. induction fuel as [|fuel IH]; intros q t key depth Hw Hc Hs Hg Hk Hm Hd Hf; [lia|]. cbn [look_up_loop].
  rewrite Hg. cbn [q_record q_decode recorder_query fn_query]. rewrite recorder_record_ok by done.
  assert (node_rec t (mkRec depth (enc t) (keccak (enc t)))) as Hnr by (split; [by left|done]).
  destruct (inline_loop_ok keccak Hword (key_fuel key) t key Hw Hc Hk (key_fuel_enough key Hk)) as [Hi|(c & key' & Hi & Hh & Hk' & [Hwc Hcc Hsub Hgc Hlt])];
    rewrite Hi.
  - exists [mkRec depth (enc t) (keccak (enc t))]. split_and!; [by destruct (tget t (nibs key))|by constructor; [|constructor]|].
    intros DB' H' db' Hn. apply Forall_cons_iff in Hn as [Hn _]. cbn in Hn. rewrite Hn, Hi. by destruct (tget t (nibs key)).
  - assert (forall e, e ∈ enc c :: below c -> e ∈ below t) as Hin.
    { intros e [->|He]%elem_of_cons; apply Hsub; [by apply enc_in_nodes|by apply below_nodes]. }
    destruct (IH (mkRecorder (r_nodes q ++ [mkRec depth (enc t) (keccak (enc t))]) 0) c key' (depth + 1) Hwc Hcc) as (l & Hl & Hnl & Hall); try done; try lia.
    + intros e He. apply Hs, Hin. by right.
    + apply Hs, Hin. by left.
    + exists (mkRec depth (enc t) (keccak (enc t)) :: l). cbn [r_nodes] in Hl. rewrite Hl, Hgc, <-app_assoc. split_and!; [done| |].
      * constructor; [done|]. revert Hnl. apply List.Forall_impl. intros r [Hr Hrh]. split; [|done]. right. by apply Hin.
      * intros DB' H' db' Hn. apply Forall_cons_iff in Hn as [Hn0 Hn]. cbn in Hn0. rewrite Hn0, Hi, <-Hgc. by apply Hall.
Qed.
End proofs.

Section proof_maps.
Context {DB : Type} {H : HashStore DB} (keccak : bytes -> Z) {L : HashStoreLaws DB H keccak} (known : bytes -> Prop).
Context (Hh : hash_ok keccak known).

(** The recorded nodes are enough. *)
Lemma record_ok d root t M k : db_holds keccak known d root t M -> key_ok k ->
  exists l, trie_get_with (mkTrieDB d root 0) k (recorder_query keccak) recorder_new = (Ok (M !! k), mkRecorder l 0) /\
    Forall (node_rec keccak t) l /\
    forall DB' (H' : HashStore DB') (d' : DB'), has_nodes d' l -> trie_get (mkTrieDB d' root 0) k = Ok (M !! k).
Proof.
  intros Hd Hk. pose proof (db_holds_get keccak known Hh _ _ _ _ Hd) as Hg. destruct Hd. subst root.
  destruct (record_loop_ok keccak (ho_word _ _ Hh) (key_fuel (ns_new k)) d recorder_new t (ns_new k) 0) as (l & Hl & Hn & Hall); try done.
  - by eapply denotes_content.
  - eapply (stored_covered keccak known Hh); [done|done| |done]. multiset_solver.
  - by apply key_plain.
  - by apply key_fuel_enough, key_plain.
  - rewrite nibs_new in Hl, Hall. rewrite (denotes_get t M k) in Hl, Hall by (done || apply Hk). exists l. split_and!; [exact Hl|exact Hn|].
    intros DB' H' d' Hd'. unfold trie_get, trie_get_with, look_up. cbn [td_db td_root]. by rewrite (Hall DB' H' d' Hd').
Qed.

(** Known nodes with the right hashes do not give another answer. *)
Lemma proof_sound_ok d root t M k : db_ok keccak known d -> wf t -> denotes t M -> contents_ok M -> root = keccak (enc keccak t) ->
  known (enc keccak t) -> Forall known (below keccak t) -> key_ok k ->
  TrieDB_new d root = Err (InvalidStateRoot root) \/
  exists td, TrieDB_new d root = Ok td /\
    (trie_get td k = Ok (M !! k) \/
     exists e, e ∈ below keccak t /\ hdb_get d (keccak e) = None /\ trie_get td k = Err (IncompleteDatabase (keccak e))).
Proof.
  intros Hd Hw Hdn Hc -> Hke Hkb Hk.
  assert (Hgen : forall e, known e -> hdb_get d (keccak e) = Some e \/ hdb_get d (keccak e) = None).
  { intros e He. destruct (hdb_get d (keccak e)) as [v|] eqn:Hv; [|by right]. left. f_equal. destruct (decide (keccak e = KECCAK_NULL_RLP)) as [Hn|Hn].
    - rewrite Hn, hl_null in Hv by apply Hd. injection Hv as <-. apply (ho_inj _ _ Hh); [apply (ho_known _ _ Hh)|done|]. by rewrite (ho_null _ _ Hh).
    - apply (ho_inj _ _ Hh); [by eapply do_known|done|]. eapply hl_get; [apply Hd|done|done]. }
  unfold TrieDB_new. rewrite hl_contains by apply Hd. destruct (Hgen _ Hke) as [Hg|Hg]; rewrite Hg; [|by left].
  right. eexists. split; [done|]. unfold trie_get, trie_get_with, look_up. cbn [td_db td_root].
  destruct (look_up_loop_ok keccak (ho_word _ _ Hh) (fn_query (fun v => v)) (fun _ _ => True)
    ltac:(intros q ? ? ? _; by exists q) ltac:(done) (key_fuel (ns_new k)) d tt t (keccak (enc keccak t)) (ns_new k) 0) as [Hr|(e & He & Hn & Hr)];
    rewrite ?Hr; try done.
  - by eapply denotes_content.
  - intros e He. apply Hgen. rewrite list.Forall_forall in Hkb. by apply Hkb.
  - by apply key_plain.
  - by apply key_fuel_enough, key_plain.
  - left. rewrite nibs_new, (denotes_get t M k) by (done || apply Hk). by destruct (M !! k).
  - right. by exists e.
Qed.
End proof_maps.
