(* ===== verification/TrieIter.v ===== *)
(** * Iterating over a trie ([TrieDBIterator] of [util/patricia_trie/src/triedb.rs])

    The iterator keeps the path to its position as a trail of nodes, each with
    the part of it that is being visited, and the nibbles along the path.  It
    yields the entries of the trie in the order of their keys. *)
From stdpp Require Import base list numbers.
From S2P Require Import Prelude RlpStream RlpEncoding RlpDecode RlpViews RlpImpls Account Nibbles HashDb Trie TrieNode TrieDb.

(** ** The code *)
Inductive Status : Type := Entering | At | AtChild (x : Z) | Exiting.
Record Crumb := mkCrumb { c_node : OwnedNode; c_status : Status }.

Definition increment (self : Crumb) : Crumb :=
  mkCrumb (c_node self)
    (match c_status self, c_node self with
     | _, OwnedEmpty => Exiting
     | Entering, _ => At
     | At, OwnedBranch _ _ => AtChild 0
     | AtChild x, OwnedBranch _ _ => if x <? 15 then AtChild (x + 1) else Exiting
     | _, _ => Exiting
     end).

(** [(0..n.len()).map(|i| n.at(i))] *)
Fixpoint nv_iter_from (n : nat) (v : NibbleVec) (i : Z) : run bytes :=
  match n with O => Ok [] | S n' => x ← nv_at v i; l ← nv_iter_from n' v (i + 1); Ok (x :: l) end.

(** [while i < len { result.push(nibbles[i - 1] * 16 + nibbles[i]); i += 2; }] *)
Fixpoint key_loop (n : nat) (nibbles : bytes) (i : Z) (result : bytes) : run bytes :=
  match n with
  | O => Ok result
  | S n' =>
      if i <? len nibbles then
        a ← index nibbles (i - 1);
        b ← index nibbles i;
        a ← mul_chk 8 a 16;
        x ← add_chk 8 a b;
        key_loop n' nibbles (i + 2) (result ++ [x])
      else Ok result
  end.
Definition iter_key (nibbles : bytes) : run bytes := key_loop (S (length nibbles)) nibbles 1 [].

Section iter.
Context {DB : Type} `{HashStore DB}.

(** The last crumb of the trail comes first. *)
Record TrieDBIterator := mkIter { it_db : TrieDB (DB := DB); trail : list Crumb; key_nibbles : bytes }.

Definition descend_into_node (self : TrieDBIterator) (node : OwnedNode) : run TrieDBIterator :=
  more ← match node with
         | OwnedLeaf n _ | OwnedExtension n _ => nv_iter_from (Z.to_nat (nv_len n)) n 0
         | _ => Ok []
         end;
  Ok (mkIter (it_db self) (mkCrumb node Entering :: trail self) (key_nibbles self ++ more)).

Definition decode_owned (d : bytes) : run OwnedNode := n ← Node_decoded d; OwnedNode_from n.

Definition descend (self : TrieDBIterator) (d : bytes) : outcome TrieError TrieDBIterator :=
  raw ← get_raw_or_lookup (it_db self) d;
  infallible (node ← decode_owned raw; descend_into_node self node).

Definition TrieDBIterator_new (db : TrieDB (DB := DB)) : outcome TrieError TrieDBIterator :=
  root ← root_data db;
  descend (mkIter db [] []) root.

Definition push_crumb (self : TrieDBIterator) (node : RlpNode) (status : Status) (more : bytes) : run TrieDBIterator :=
  owned ← OwnedNode_from node;
  Ok (mkIter (it_db self) (mkCrumb owned status :: trail self) (key_nibbles self ++ more)).

Fixpoint seek_loop (fuel : nat) (self : TrieDBIterator) (node_data : bytes) (key : NibbleSlice) : outcome TrieError TrieDBIterator :=
  match fuel with
  | O => Panic
  | S fuel' =>
      node ← infallible (Node_decoded node_data);
      match node with
      | RlpLeaf slice _ =>
          e ← ns_eq slice key;
          more ← ns_iter slice;
          infallible (push_crumb self node (if (e : bool) then At else Exiting) more)
      | RlpExtension slice item =>
          b ← starts_with key slice;
          if (b : bool) then
            more ← ns_iter slice;
            self ← infallible (push_crumb self node At more);
            data ← get_raw_or_lookup (it_db self) item;
            mid ← ns_len slice;
            seek_loop fuel' self data (ns_mid key mid)
          else descend self node_data
      | RlpBranch nodes _ =>
          e ← ns_is_empty key;
          if (e : bool) then infallible (push_crumb self node At [])
          else
            i ← ns_at key 0;
            self ← infallible (push_crumb self node (AtChild i) [i]);
            child ← index nodes i;
            child ← get_raw_or_lookup (it_db self) child;
            seek_loop fuel' self child (ns_mid key 1)
      | RlpEmpty => Ok self
      end
  end.

Definition seek (self : TrieDBIterator) (key : bytes) : outcome TrieError TrieDBIterator :=
  root_rlp ← root_data (it_db self);
  seek_loop (S (S (2 * length key))) (mkIter (it_db self) [] []) root_rlp (ns_new key).

(** *** [next] *)
Inductive Round : Type :=
  | Finished
  | Yield (item : TrieError + bytes * bytes) (it : TrieDBIterator)
  | Continue (it : TrieDBIterator).

(** [IterStep::Descend] *)
Definition enter (self : TrieDBIterator) (r : outcome TrieError bytes) : run Round :=
  match r with
  | Ok d => node ← decode_owned d; it ← descend_into_node self node; Ok (Continue it)
  | Err e => Ok (Yield (inl e) self)
  | Panic => Panic
  end.

(** One round of the loop. *)
Definition iter_round (self : TrieDBIterator) : run Round :=
  match trail self with
  | [] => Ok Finished
  | b :: up =>
      let b := increment b in
      let self := mkIter (it_db self) (b :: up) (key_nibbles self) in
      match c_status b, c_node b with
      | Exiting, n =>
          nibbles ← match n with
                    | OwnedLeaf n _ | OwnedExtension n _ =>
                        l ← sub_chk (len (key_nibbles self)) (nv_len n); Ok (take (Z.to_nat l) (key_nibbles self))
                    | OwnedBranch _ _ => Ok (removelast (key_nibbles self))
                    | OwnedEmpty => Ok (key_nibbles self)
                    end;
          Ok (Continue (mkIter (it_db self) up nibbles))
      | At, OwnedLeaf _ v | At, OwnedBranch _ (Some v) => k ← iter_key (key_nibbles self); Ok (Yield (inr (k, v)) self)
      | At, OwnedExtension _ d => enter self (get_raw_or_lookup (it_db self) d)
      | At, OwnedBranch _ None => Ok (Continue self)
      | AtChild i, OwnedBranch children _ =>
          c ← index children i;
          if 0 <? len c then
            nibbles ← (if i =? 0 then Ok (key_nibbles self ++ [0])
                       else match key_nibbles self with [] => Panic | _ => Ok (removelast (key_nibbles self) ++ [i]) end);
            let self := mkIter (it_db self) (trail self) nibbles in
            enter self (get_raw_or_lookup (it_db self) c)
          else
            Ok (Continue (if i =? 0 then mkIter (it_db self) (trail self) (key_nibbles self ++ [0]) else self))
      | _, _ => Panic
      end
  end.

Fixpoint next (fuel : nat) (self : TrieDBIterator) : run (option (TrieError + bytes * bytes) * TrieDBIterator) :=
  match fuel with
  | O => Panic
  | S fuel' =>
      r ← iter_round self;
      match r with
      | Finished => Ok (None, self)
      | Yield item it => Ok (Some item, it)
      | Continue it => next fuel' it
      end
  end.

(** [for item in iter]: at most [n] items *)
Fixpoint collect (n fuel : nat) (self : TrieDBIterator) : run (list (TrieError + bytes * bytes)) :=
  match n with
  | O => Panic
  | S n' =>
      '(item, it) ← next fuel self;
      match item with
      | None => Ok []
      | Some item => l ← collect n' fuel it; Ok (item :: l)
      end
  end.

(** ** Runs of the loop *)
Inductive rounds : nat -> TrieDBIterator -> list (TrieError + bytes * bytes) -> TrieDBIterator -> Prop :=
  | rounds_refl it : rounds 0 it [] it
  | rounds_step n it it1 it2 l : iter_round it = Ok (Continue it1) -> rounds n it1 l it2 -> rounds (S n) it l it2
  | rounds_yield n it it1 it2 x l : iter_round it = Ok (Yield x it1) -> rounds n it1 l it2 -> rounds (S n) it (x :: l) it2.

Lemma rounds_trans n1 n2 it1 it2 it3 l1 l2 : rounds n1 it1 l1 it2 -> rounds n2 it2 l2 it3 -> rounds (n1 + n2) it1 (l1 ++ l2) it3.
Proof. induction 1; intros Hr; [done|eapply rounds_step; eauto|eapply rounds_yield; eauto]. Qed.

Lemma collect_rounds n it l it' : rounds n it l it' -> iter_round it' = Ok Finished ->
  forall items fuel, (n < items)%nat -> (n < fuel)%nat -> collect items fuel it = Ok l.
Proof.
  assert (Hnext : forall n it l it', rounds n it l it' -> iter_round it' = Ok Finished -> forall fuel, (n < fuel)%nat ->
    match l with
    | [] => exists it1, next fuel it = Ok (None, it1)
    | x :: l => exists n1 it1, next fuel it = Ok (Some x, it1) /\ (n1 < n)%nat /\ rounds n1 it1 l it'
    end).
  { clear. intros n it l it' Hr Hf. induction Hr as [it|n it it1 it2 l Hs Hr IH|n it it1 it2 x l Hs Hr IH]; intros [|fuel] Hl; try lia; cbn [next].
    - rewrite Hf. eauto.
    - rewrite Hs. cbn [mbind outcome_bind]. specialize (IH Hf fuel ltac:(lia)). destruct l as [|x l]; [done|].
      destruct IH as (n1 & it3 & ? & ? & ?). exists n1, it3. split_and!; [done|lia|done].
    - rewrite Hs. cbn [mbind outcome_bind]. exists n, it1. split_and!; [done|lia|done]. }
  intros Hr Hf items fuel. revert n it l Hr. induction items as [|items IH]; intros n it l Hr Hi Hl; [lia|]. cbn [collect].
  pose proof (Hnext n it l it' Hr Hf fuel Hl) as Hn. destruct l as [|x l].
  - destruct Hn as (it1 & ->). done.
  - destruct Hn as (n1 & it1 & -> & Hn1 & Hr1). cbn [mbind outcome_bind]. rewrite (IH n1 it1 l Hr1) by lia. done.
Qed.
End iter.

(** ** Nibbles *)
Lemma nv_iter_ok v l : nv_ok v l -> nv_iter_from (Z.to_nat (nv_len v)) v 0 = Ok l.
Proof.
  intros Hv. pose proof Hv as [Hl _]. rewrite Hl. unfold len. rewrite Nat2Z.id.
  cut (forall n i, (i + n = length l)%nat -> nv_iter_from n v (Z.of_nat i) = Ok (drop i l)).
  { intros Hc. by apply (Hc _ 0%nat). }
  induction n as [|n IH]; intros i Hi; cbn [nv_iter_from]; [by rewrite drop_ge by lia|].
  destruct (lookup_lt_is_Some_2 l i) as [x Hx]; [lia|]. rewrite (nv_at_ok v l i x) by done. cbn [mbind outcome_bind].
  replace (Z.of_nat i + 1) with (Z.of_nat (S i)) by lia. rewrite IH by lia. cbn [mbind outcome_bind]. by rewrite (drop_S _ _ _ Hx).
Qed.

Lemma key_loop_ok n k i r : is_nibbles k -> (length k <= i + n)%nat -> key_loop n k (Z.of_nat (S i)) r = Ok (r ++ pack (drop i k)).
Proof.
  intros Hk. revert i r. induction n as [|n IH]; intros i r Hn; cbn [key_loop]; [rewrite drop_ge by lia; by rewrite app_nil_r|].
  unfold len. destruct (Z.ltb_spec (Z.of_nat (S i)) (Z.of_nat (length k))) as [Hlt|Hge].
  - destruct (drop i k) as [|a [|b l]] eqn:Hd; [apply (f_equal length) in Hd; rewrite length_drop in Hd; cbn in Hd; lia..|].
    assert (k !! i = Some a) as Ha by (rewrite <-(Nat.add_0_r i), <-lookup_drop, Hd; done).
    assert (k !! S i = Some b) as Hb by (rewrite <-Nat.add_1_r, <-lookup_drop, Hd; done).
    rewrite (index_ok k (Z.of_nat (S i) - 1) a) by (lia || by replace (Z.to_nat (Z.of_nat (S i) - 1)) with i by lia). cbn [mbind outcome_bind].
    rewrite (index_ok k (Z.of_nat (S i)) b) by (lia || by rewrite Nat2Z.id). cbn [mbind outcome_bind].
    destruct (Forall_lookup_1 _ _ _ _ Hk Ha) as [Ha1 Ha2], (Forall_lookup_1 _ _ _ _ Hk Hb) as [Hb1 Hb2]. change (2 ^ 4) with 16 in *.
    rewrite mul_chk_ok by lia. cbn [mbind outcome_bind]. rewrite add_chk_ok by lia. cbn [mbind outcome_bind].
    replace (Z.of_nat (S i) + 2) with (Z.of_nat (S (i + 2))) by lia. rewrite IH by lia. rewrite <-app_assoc. cbn [app pack].
    replace (drop (i + 2) k) with (drop 2 (drop i k)) by (rewrite drop_drop; f_equal; lia). by rewrite Hd.
  - assert (pack (drop i k) = []) as ->; [|by rewrite app_nil_r]. destruct (drop i k) as [|a [|b l]] eqn:Hd; [done|done|].
    apply (f_equal length) in Hd. rewrite length_drop in Hd. cbn in Hd. lia.
Qed.

Lemma iter_key_ok k : is_nibbles k -> iter_key k = Ok (pack k).
Proof. intros Hk. unfold iter_key. rewrite <-(app_nil_l (pack k)). apply (key_loop_ok _ k 0 []); [done|lia]. Qed.

(** ** The entries in order *)
Section iterate.
Context {DB : Type} `{HashStore DB} (keccak : bytes -> Z) (Hword : forall b, in_u 256 (keccak b)).
Context (td : TrieDB (DB := DB)).
Abbreviation enc := (enc keccak).
Abbreviation ref := (ref keccak).

Definition owned_of (t : trie) (o : OwnedNode) : Prop :=
  match t, o with
  | TEmpty, OwnedEmpty => True
  | TLeaf k v, OwnedLeaf n v' => nv_ok n k /\ v' = v
  | TExt k c, OwnedExtension n raw => nv_ok n k /\ raw = rlp_enc (ref c)
  | TBranch ch v, OwnedBranch raws v' => raws = map (fun c => rlp_enc (ref c)) ch /\ v' = v
  | _, _ => False
  end.

Definition own_nibbles (t : trie) : list Z := match t with TLeaf k _ | TExt k _ => k | _ => [] end.

Lemma decode_owned_ok t : wf t -> content_ok (tget t) -> exists o, decode_owned (enc t) = Ok o /\ owned_of t o.
Proof.
  intros Hw Hc. unfold decode_owned. destruct (Node_decoded_ok keccak t Hw Hc) as (n & -> & Hn). cbn [mbind outcome_bind].
  destruct t, n; try done; cbn [node_of OwnedNode_from] in *.
  - by eexists.
  - destruct Hn as ([Hs _] & <- & ->). destruct (@nv_from_ok Empty_set key Hs) as (v' & -> & Hv'). by eexists.
  - destruct Hn as ([Hs _] & <- & ->). destruct (@nv_from_ok Empty_set key Hs) as (v' & -> & Hv'). by eexists.
  - by eexists.
Qed.

Lemma get_raw_ok c : wf c -> content_ok (tget c) -> (hashed keccak c = true -> hdb_get (td_db td) (keccak (enc c)) = Some (enc c)) ->
  get_raw_or_lookup td (rlp_enc (ref c)) = Ok (enc c).
Proof.
  intros Hw Hc Hg. unfold get_raw_or_lookup. rewrite child_hash_ref by done. cbn [infallible mbind outcome_bind].
  destruct (hashed keccak c) eqn:Hh; [by rewrite Hg|]. unfold TrieNode.ref, ref_item. unfold TrieNode.hashed, TrieNode.enc in *. by rewrite Hh.
Qed.

Definition entry_item (pre : list Z) (x : list Z * bytes) : TrieError + bytes * bytes := inr (pack (pre ++ fst x), snd x).

(** From where a node is entered to where it is left. *)
Definition visits (t : trie) : Prop := forall o pre up, owned_of t o -> is_nibbles pre ->
  exists n, rounds n (mkIter td (mkCrumb o Entering :: up) (pre ++ own_nibbles t)) (map (entry_item pre) (elements t)) (mkIter td up pre).

Lemma enter_visits c tr nibbles :
  wf c -> content_ok (tget c) -> visits c -> is_nibbles nibbles -> (hashed keccak c = true -> hdb_get (td_db td) (keccak (enc c)) = Some (enc c)) ->
  exists it n, enter (mkIter td tr nibbles) (get_raw_or_lookup td (rlp_enc (ref c))) = Ok (Continue it) /\
    rounds n it (map (entry_item nibbles) (elements c)) (mkIter td tr nibbles).
Proof.
  intros Hw Hc Hv Hn Hg. rewrite get_raw_ok by done. cbn [enter]. destruct (decode_owned_ok c Hw Hc) as (o & -> & Ho). cbn [mbind outcome_bind].
  assert (descend_into_node (mkIter td tr nibbles) o = Ok (mkIter td (mkCrumb o Entering :: tr) (nibbles ++ own_nibbles c))) as ->.
  { unfold descend_into_node. destruct c, o; try done; cbn [owned_of own_nibbles] in *; try (destruct Ho as [Ho _]; by rewrite (nv_iter_ok _ _ Ho)); by rewrite app_nil_r. }
  cbn [mbind outcome_bind]. destruct (Hv o nibbles tr Ho Hn) as (n & Hr). eauto.
Qed.

Lemma entry_item_prepend pre k l : map (entry_item pre) (prepend k l) = map (entry_item (pre ++ k)) l.
Proof. unfold prepend. rewrite map_map. apply map_ext. intros [q v]. unfold entry_item. cbn. by rewrite app_assoc. Qed.

Lemma children_visits ch v pre up (rest : list trie) (i : nat) :
  length ch = 16%nat -> Forall wf ch -> content_ok (tget (TBranch ch v)) -> Forall visits ch -> stored keccak (td_db td) (TBranch ch v) ->
  is_nibbles pre -> (0 < i)%nat -> drop i ch = rest -> (i <= 16)%nat ->
  exists n, rounds n (mkIter td (mkCrumb (OwnedBranch (map (fun c => rlp_enc (ref c)) ch) v) (AtChild (Z.of_nat i - 1)) :: up) (pre ++ [Z.of_nat i - 1]))
    (map (entry_item pre) (elements_from (Z.of_nat i) rest)) (mkIter td up pre).
Proof.
  intros Hl Hw Hc Hv Hst Hpre. revert i. induction rest as [|c rest IH]; intros i Hi Hd Hi16.
  - assert (i = 16%nat) as -> by (apply (f_equal length) in Hd; rewrite length_drop in Hd; cbn in Hd; lia).
    exists 1%nat. eapply rounds_step; [|constructor]. unfold iter_round. cbn [trail increment c_status c_node it_db key_nibbles].
    change (Z.of_nat 16 - 1 <? 15) with false. cbn match. cbn [mbind outcome_bind]. by rewrite removelast_last.
  - assert (ch !! i = Some c) as Hci by (rewrite <-(Nat.add_0_r i), <-lookup_drop, Hd; done). apply lookup_lt_Some in Hci as Hlt. rewrite Hl in Hlt.
    assert (child ch (Z.of_nat i) = c) as Hch by (unfold child; by rewrite (proj2 (Z.leb_le _ _)), Nat2Z.id, Hci by lia).
    destruct (enter_visits c (mkCrumb (OwnedBranch (map (fun c => rlp_enc (ref c)) ch) v) (AtChild (Z.of_nat i)) :: up) (pre ++ [Z.of_nat i])) as (it & n1 & He & Hr1).
    { by eapply Forall_lookup_1. } { rewrite <-Hch. by eapply content_child. } { by eapply Forall_lookup_1. }
    { apply Forall_app_2; [done|]. constructor; [|constructor]. split; [lia|]. change (2 ^ 4) with 16. lia. }
    { intros Hh. apply Hst. rewrite <-Hch. apply (below_child keccak ch v (Z.of_nat i)); rewrite Hch; [|by apply enc_in_nodes]. destruct c; done. }
    destruct (IH (S i)) as (n2 & Hr2); [lia|rewrite (drop_S _ _ _ Hci) in Hd; by injection Hd|lia|].
    exists (S (n1 + n2)). eapply rounds_step.
    + assert (increment (mkCrumb (OwnedBranch (map (fun c => rlp_enc (ref c)) ch) v) (AtChild (Z.of_nat i - 1))) =
        mkCrumb (OwnedBranch (map (fun c => rlp_enc (ref c)) ch) v) (AtChild (Z.of_nat i))) as Hinc.
      { unfold increment. cbn [c_status c_node]. rewrite (proj2 (Z.ltb_lt _ _)) by lia. do 2 f_equal. lia. }
      unfold iter_round. cbn [trail]. rewrite Hinc. cbv zeta. cbn [c_status c_node it_db key_nibbles trail].
      rewrite (index_ok _ (Z.of_nat i) (rlp_enc (ref c))) by (lia || by rewrite Nat2Z.id, list_lookup_fmap, Hci). cbn [mbind outcome_bind].
      rewrite (proj2 (Z.ltb_lt _ _)) by (pose proof (rlp_enc_nonempty (ref c)); destruct (rlp_enc (ref c)) as [|x l]; [done|]; rewrite len_cons; pose proof (len_nonneg l); lia).
      rewrite (proj2 (Z.eqb_neq _ _)) by lia. destruct (pre ++ [Z.of_nat i - 1]) eqn:Hnil; [by destruct pre|]. rewrite <-Hnil, removelast_last.
      cbn [mbind outcome_bind it_db]. exact He.
    + cbn [elements_from]. rewrite map_app, entry_item_prepend. eapply rounds_trans; [exact Hr1|].
      replace (Z.of_nat (S i) - 1) with (Z.of_nat i) in Hr2 by lia. by replace (Z.of_nat i + 1) with (Z.of_nat (S i)) by lia.
Qed.

Lemma visits_ok t : wf t -> content_ok (tget t) -> stored keccak (td_db td) t -> visits t.
Proof.
  induction t as [|k v|k t IH|ch v IH] using trie_ind'; intros Hw Hc Hst o pre up Ho Hpre; destruct o; try done; cbn [owned_of own_nibbles] in *.
  - exists 1%nat. eapply rounds_step; [|constructor]. rewrite app_nil_r. done.
  - destruct Ho as [Hn ->]. destruct (content_leaf _ _ Hc) as (Hk & _). exists 2%nat.
    eapply rounds_yield.
    { unfold iter_round. cbn [trail increment c_status c_node it_db key_nibbles]. rewrite iter_key_ok by (by apply Forall_app_2). reflexivity. }
    eapply rounds_step; [|constructor]. unfold iter_round. cbn [trail increment c_status c_node it_db key_nibbles].
    pose proof Hn as [Hl _]. rewrite Hl, sub_chk_ok by (rewrite len_app; pose proof (len_nonneg pre); lia). cbn [mbind outcome_bind].
    rewrite len_app. replace (len pre + len k - len k) with (len pre) by lia. unfold len. by rewrite Nat2Z.id, take_app_length.
  - destruct Ho as [Hn ->]. destruct Hw as [?|(_ & _ & Hw)]; [done|]. destruct (content_ext_key _ _ Hc Hw) as (Hk & _).
    destruct (enter_visits t (mkCrumb (OwnedExtension key (rlp_enc (ref t))) At :: up) (pre ++ k)) as (it & n & He & Hr).
    { by right. } { by eapply content_ext. }
    { apply IH; [by right|by eapply content_ext|]. intros e Hin. apply Hst. rewrite below_ext. unfold nodes. apply elem_of_app. by right. }
    { by apply Forall_app_2. }
    { intros Hh. apply Hst. rewrite below_ext. by apply enc_in_nodes. }
    exists (S (n + 1)). eapply rounds_step; [exact He|]. cbn [elements]. rewrite entry_item_prepend.
    rewrite <-(app_nil_r (map _ (elements t))). eapply rounds_trans; [exact Hr|]. eapply rounds_step; [|constructor].
    unfold iter_round. cbn [trail increment c_status c_node it_db key_nibbles].
    pose proof Hn as [Hl _]. rewrite Hl, sub_chk_ok by (rewrite len_app; pose proof (len_nonneg pre); lia). cbn [mbind outcome_bind].
    rewrite len_app. replace (len pre + len k - len k) with (len pre) by lia. unfold len. by rewrite Nat2Z.id, take_app_length.
  - destruct Ho as [-> ->]. destruct Hw as [?|(Hl & Hf & He2)%wfn_branch]; [done|].
    assert (Forall visits ch) as Hv.
    { apply Forall_lookup_2. intros i c Hi. assert (child ch (Z.of_nat i) = c) as Hch by (unfold child; by rewrite (proj2 (Z.leb_le _ _)), Nat2Z.id, Hi by lia).
      rewrite list.Forall_forall in IH. apply IH; [by eapply list_elem_of_lookup_2|by eapply Forall_lookup_1|rewrite <-Hch; by eapply content_child|].
      intros e Hin. apply Hst. rewrite below_branch. apply list_elem_of_In, in_concat. exists (nodes keccak c).
      split; [apply in_map, list_elem_of_In; by eapply list_elem_of_lookup_2|]. apply list_elem_of_In. unfold nodes. apply elem_of_app. by right. }
    set (o := OwnedBranch _ v).
    assert (exists n, rounds n (mkIter td (mkCrumb o At :: up) pre) (map (entry_item pre) (elements_from 0 ch)) (mkIter td up pre)) as (n & Hr).
    { destruct ch as [|c ch]; [done|].
      destruct (enter_visits c (mkCrumb o (AtChild 0) :: up) (pre ++ [0])) as (it & n1 & He & Hr1).
      { by inversion Hf. } { by apply (content_child (c :: ch) v 0). } { by inversion Hv. } { apply Forall_app_2; [done|]. by constructor. }
      { intros Hh. apply Hst. apply (below_child keccak (c :: ch) v 0); [|by apply enc_in_nodes]. by destruct c. }
      destruct (children_visits (c :: ch) v pre up ch 1) as (n2 & Hr2); try done; [lia|lia|].
      exists (S (n1 + n2)). eapply rounds_step.
      - unfold iter_round. cbn [trail increment c_status c_node it_db key_nibbles o].
        rewrite (index_ok _ 0 (rlp_enc (ref c))) by done. cbn [mbind outcome_bind].
        rewrite (proj2 (Z.ltb_lt _ _)) by (pose proof (rlp_enc_nonempty (ref c)); destruct (rlp_enc (ref c)) as [|x l]; [done|]; rewrite len_cons; pose proof (len_nonneg l); lia).
        change (0 =? 0) with true. cbn match. cbn [mbind outcome_bind it_db]. exact He.
      - cbn [elements_from]. rewrite map_app, entry_item_prepend. eapply rounds_trans; [exact Hr1|]. exact Hr2. }
    rewrite elements_branch, map_app, app_nil_r. exists (S n). destruct v as [v|]; cbn [map app].
    + eapply rounds_yield; [|exact Hr]. unfold iter_round. cbn [trail increment c_status c_node it_db key_nibbles o]. rewrite iter_key_ok by done. cbn.
      unfold entry_item. cbn. by rewrite app_nil_r.
    + eapply rounds_step; [|exact Hr]. done.
Qed.

(** The iterator from the beginning. *)
Lemma iterator_ok t : wf t -> content_ok (tget t) -> hdb_get (td_db td) (td_root td) = Some (enc t) -> stored keccak (td_db td) t ->
  exists it n, TrieDBIterator_new td = Ok it /\ forall items fuel, (n < items)%nat -> (n < fuel)%nat ->
    collect items fuel it = Ok (map (fun '(q, v) => inr (pack q, v)) (elements t)).
Proof.
  intros Hw Hc Hg Hst. unfold TrieDBIterator_new, root_data. rewrite Hg. cbn [mbind outcome_bind]. unfold descend. cbn [it_db].
  assert (get_raw_or_lookup td (enc t) = Ok (enc t)) as ->.
  { unfold get_raw_or_lookup. assert (child_hash (enc t) = Ok None) as ->; [|done]. unfold child_hash, TrieNode.enc.
    pose proof (enc_ok keccak t Hw Hc) as Hok. destruct (node_item keccak t) as [b|l] eqn:Hit; [by destruct t; cbn in Hit; simplify_eq|].
    by rewrite list_not_data. }
  cbn [mbind outcome_bind]. destruct (decode_owned_ok t Hw Hc) as (o & -> & Ho). cbn [infallible mbind outcome_bind].
  assert (descend_into_node (mkIter td [] []) o = Ok (mkIter td [mkCrumb o Entering] (own_nibbles t))) as ->.
  { unfold descend_into_node. destruct t, o; try done; cbn [owned_of own_nibbles] in *; destruct Ho as [Ho _]; by rewrite (nv_iter_ok _ _ Ho). }
  destruct (visits_ok t Hw Hc Hst o [] [] Ho (Forall_nil_2 _)) as (n & Hr). eexists _, n. split; [reflexivity|]. intros items fuel Hi Hf.
  erewrite collect_rounds; [|exact Hr|done|done|done]. f_equal. apply map_ext. by intros [q v].
Qed.
End iterate.
