(* ===== verification/TrieFactory.v ===== *)
(** * Kinds of tries ([util/patricia_trie/src/fatdb.rs], [fatdbmut.rs],
    [sectriedb.rs], [sectriedbmut.rs] and [TrieFactory] of [lib.rs])

    A generic trie uses its keys as they are, a secure one their hashes, and a
    fat one hashes too but also keeps the keys, under the hash of their hash, so
    that its iterator can yield them. *)
From stdpp Require Import base list numbers gmap.
From S2P Require Import Prelude RlpStream Account Nibbles HashDb TrieNode TrieDb TrieDbMut TrieIter.

Inductive TrieSpec : Type := Generic | Secure | Fat.
#[export] Instance TrieSpec_eq_dec : EqDecision TrieSpec.
Proof. solve_decision. Defined.

Definition TrieSpec_default : TrieSpec := Secure.
Definition is_fat (spec : TrieSpec) : bool := bool_decide (spec = Fat).

Section kinds.
Context {DB : Type} `{HashStore DB} (keccak : bytes -> Z).

(** The key a trie of the given kind uses for [key]. *)
Definition raw_key (spec : TrieSpec) (key : bytes) : bytes :=
  match spec with Generic => key | Secure | Fat => Z_to_be 32 (keccak key) end.

(** ** Reading: [TrieKinds] *)
Record TrieKinds := mkKinds { tk_spec : TrieSpec; tk_raw : TrieDB (DB := DB) }.

Definition factory_readonly (spec : TrieSpec) (db : DB) (root : Z) : outcome TrieError TrieKinds :=
  raw ← TrieDB_new db root; Ok (mkKinds spec raw).

Definition kinds_is_empty (self : TrieKinds) : bool := trie_is_empty (tk_raw self).
Definition kinds_contains (self : TrieKinds) (key : bytes) : outcome TrieError bool :=
  trie_contains (tk_raw self) (raw_key (tk_spec self) key).
Definition kinds_get_with {Q I} (self : TrieKinds) (key : bytes) (query : Query Q I) (q : Q) : outcome TrieError (option I) * Q :=
  trie_get_with (tk_raw self) (raw_key (tk_spec self) key) query q.
Definition kinds_get (self : TrieKinds) (key : bytes) : outcome TrieError (option bytes) :=
  fst (kinds_get_with self key (fn_query (fun v => v)) tt).

(** *** [FatDBIterator] *)
Definition fat_seek (self : TrieDBIterator (DB := DB)) (key : bytes) : outcome TrieError (TrieDBIterator (DB := DB)) :=
  seek self (Z_to_be 32 (keccak key)).

Definition fat_item (db : DB) (item : TrieError + bytes * bytes) : run (TrieError + bytes * bytes) :=
  match item with
  | inl e => Ok (inl e)
  | inr (hash, value) => match hdb_get db (keccak hash) with Some key => Ok (inr (key, value)) | None => Panic end
  end.

Definition fat_next (fuel : nat) (self : TrieDBIterator (DB := DB)) :
    run (option (TrieError + bytes * bytes) * TrieDBIterator (DB := DB)) :=
  '(item, self) ← next fuel self;
  match item with
  | Some item => item ← fat_item (td_db (it_db self)) item; Ok (Some item, self)
  | None => Ok (None, self)
  end.

(** ** Writing: a boxed [TrieMut] *)
Record TrieMutBox := mkBox { bx_spec : TrieSpec; bx_raw : TrieDBMut DB }.

Definition factory_create (spec : TrieSpec) (db : DB) : TrieMutBox := mkBox spec (TrieDBMut_new db).
Definition factory_from_existing (spec : TrieSpec) (db : DB) (root : Z) : outcome TrieError TrieMutBox :=
  raw ← from_existing db root; Ok (mkBox spec raw).

Definition box_root (self : TrieMutBox) : run (Z * TrieMutBox) :=
  '(root, raw) ← tm_root_op (bx_raw self); Ok (root, mkBox (bx_spec self) raw).
Definition box_is_empty (self : TrieMutBox) : run bool := tm_is_empty (bx_raw self).
Definition box_contains (self : TrieMutBox) (key : bytes) : outcome TrieError bool :=
  tm_contains (bx_raw self) (raw_key (bx_spec self) key).
Definition box_get (self : TrieMutBox) (key : bytes) : outcome TrieError (option bytes) :=
  tm_get (bx_raw self) (raw_key (bx_spec self) key).

(** Writes to the database of a trie. *)
Definition with_db_of (f : DB -> run DB) (raw : TrieDBMut DB) : run (TrieDBMut DB) :=
  db ← f (tm_db raw);
  Ok (mkTrie (tm_storage raw) db (tm_root raw) (tm_root_handle raw) (death_row raw) (hash_count raw)).

Definition to_aux_key (key : bytes) : Z := keccak key.

Definition fat_insert (key value : bytes) (raw : TrieDBMut DB) : outcome (TrieError * TrieDBMut DB) (option bytes * TrieDBMut DB) :=
  let hash := Z_to_be 32 (keccak key) in
  '(out, raw) ← tm_insert hash value raw;
  match out with
  | None => raw ← infallible (with_db_of (fun db => hdb_emplace db (to_aux_key hash) key) raw); Ok (out, raw)
  | Some _ => Ok (out, raw)
  end.

Definition fat_remove (key : bytes) (raw : TrieDBMut DB) : outcome (TrieError * TrieDBMut DB) (option bytes * TrieDBMut DB) :=
  let hash := Z_to_be 32 (keccak key) in
  '(out, raw) ← tm_remove hash raw;
  match out with
  | Some _ => raw ← infallible (with_db_of (fun db => hdb_remove db (to_aux_key hash)) raw); Ok (out, raw)
  | None => Ok (out, raw)
  end.

Definition raw_insert (spec : TrieSpec) (key value : bytes) (raw : TrieDBMut DB) :
    outcome (TrieError * TrieDBMut DB) (option bytes * TrieDBMut DB) :=
  match spec with
  | Generic => tm_insert key value raw
  | Secure => stm_insert keccak key value raw
  | Fat => fat_insert key value raw
  end.
Definition raw_remove (spec : TrieSpec) (key : bytes) (raw : TrieDBMut DB) :
    outcome (TrieError * TrieDBMut DB) (option bytes * TrieDBMut DB) :=
  match spec with
  | Generic => tm_remove key raw
  | Secure => stm_remove keccak key raw
  | Fat => fat_remove key raw
  end.

Definition boxed {A} (spec : TrieSpec) (r : outcome (TrieError * TrieDBMut DB) (A * TrieDBMut DB)) :
    outcome (TrieError * TrieMutBox) (A * TrieMutBox) :=
  match r with
  | Ok (a, raw) => Ok (a, mkBox spec raw)
  | Err (e, raw) => Err (e, mkBox spec raw)
  | Panic => Panic
  end.
Definition box_insert (self : TrieMutBox) (key value : bytes) : outcome (TrieError * TrieMutBox) (option bytes * TrieMutBox) :=
  boxed (bx_spec self) (raw_insert (bx_spec self) key value (bx_raw self)).
Definition box_remove (self : TrieMutBox) (key : bytes) : outcome (TrieError * TrieMutBox) (option bytes * TrieMutBox) :=
  boxed (bx_spec self) (raw_remove (bx_spec self) key (bx_raw self)).

(** [Drop] commits. *)
Definition box_drop (self : TrieMutBox) : run TrieMutBox :=
  raw ← tm_drop (bx_raw self); Ok (mkBox (bx_spec self) raw).
End kinds.
Arguments TrieMutBox : clear implicits.
Arguments TrieKinds : clear implicits.
