(* ===== verification/TrieWorld.v ===== *)
(** * Small tries

    A hash function to compute with, two maps with their trees, and the proof
    that the hash tells their nodes apart: what the theorems on tries assume of
    the hash and of the maps can be met. *)
From stdpp Require Import base list numbers gmap gmultiset.
From S2P Require Import Prelude RlpStream RlpEncoding RlpViews Account Nibbles HashDb Trie TrieNode TrieDb.
From S2P Require Import TrieDbMut TrieRep TrieCommit TrieHash TrieMaps TrieRefine.

(** ** A hash to compute with *)
Definition mix (b : bytes) : Z :=
  foldl (fun a x => Z.land (a * 0x9E3779B97F4A7C15F39CC0605CEDC8341082276BF3A27251F86C6A11D0C18E95 + x + 1) (Z.ones 256)) 0 b.
Definition toy_hash (b : bytes) : Z :=
  if bool_decide (b = NULL_RLP) then KECCAK_NULL_RLP else if bool_decide (b = []) then JumpDests.KECCAK_EMPTY else mix b.

Lemma mix_word b : in_u 256 (mix b).
Proof.
  unfold mix. set (f := fun a x : Z => _). cut (forall a, in_u 256 a -> in_u 256 (foldl f a b)); [by intros Hf; apply Hf|].
  induction b as [|x b IH]; intros a Ha; cbn [foldl]; [done|]. apply IH. unfold f. rewrite Z.land_ones by done. by apply Z.mod_pos_bound.
Qed.

Lemma toy_word b : in_u 256 (toy_hash b).
Proof. unfold toy_hash. case_bool_decide; [done|]. case_bool_decide; [done|]. apply mix_word. Qed.

(** The hash tells the byte strings of a list apart. *)
Lemma toy_hash_ok (l : list bytes) : NULL_RLP ∈ l -> NoDup (map toy_hash l) -> hash_ok toy_hash (fun b => b ∈ l).
Proof.
  intros Hn Hnd. split; [apply toy_word|done|done|]. intros a b Ha Hb He.
  apply list_elem_of_lookup in Ha as [i Hi], Hb as [j Hj].
  assert (i = j) as ->; [|congruence]. eapply (NoDup_lookup (map toy_hash l)); [done| |]; rewrite list_lookup_fmap; [by rewrite Hi|]. by rewrite Hj, He.
Qed.

(** ** Maps given by lists *)
Lemma denotes_list t (l : list (bytes * bytes)) :
  NoDup (map fst l) -> elements t = nibble_keys l -> denotes t (list_to_map l).
Proof.
  intros Hnd He q v. rewrite <-elem_of_elements, He. unfold nibble_keys. rewrite list_elem_of_fmap. split.
  - intros ([k w] & [= -> ->] & Hk). exists k. rewrite as_nibbles_ok. split; [done|]. by apply elem_of_list_to_map.
  - intros (k & -> & Hk). exists (k, v). rewrite as_nibbles_ok. split; [done|]. by apply elem_of_list_to_map in Hk.
Qed.

Lemma nodes_ok_list t (l : list (bytes * bytes)) (known : bytes -> Prop) n :
  wf t -> NoDup (map fst l) -> elements t = nibble_keys l -> known (enc toy_hash t) -> Forall known (below toy_hash t) -> 1 + len (below toy_hash t) <= n ->
  nodes_ok toy_hash known (list_to_map l) n.
Proof. intros Hw Hnd He Hk Hb Hn t' Hw' Hd'. rewrite (denotes_unique t' t _ Hw' Hw Hd' (denotes_list t l Hnd He)). done. Qed.

(** ** Two maps *)
Definition key1 : bytes := [0x12; 0x34].
Definition key2 : bytes := [0x12; 0x56].
Definition value1 : bytes := replicate 33 1.
Definition value2 : bytes := [7].

Definition list12 : list (bytes * bytes) := [(key1, value1); (key2, value2)].
Definition list2 : list (bytes * bytes) := [(key2, value2)].

Definition tree12 : trie :=
  TExt [1; 2] (TBranch ([TEmpty; TEmpty; TEmpty; TLeaf [4] value1; TEmpty; TLeaf [6] value2] ++ replicate 10 TEmpty) None).
Definition tree2 : trie := TLeaf [1; 2; 5; 6] value2.

Definition toy_nodes : list bytes := [NULL_RLP; enc toy_hash tree12; enc toy_hash tree2] ++ below toy_hash tree12.
Abbreviation toy_known := (fun b => b ∈ toy_nodes).

Lemma toy_ok : hash_ok toy_hash toy_known.
Proof. apply toy_hash_ok; [by left|]. apply (bool_decide_unpack _). vm_compute. reflexivity. Qed.

Lemma tree12_wf : wf tree12.
Proof. right. vm_compute. repeat split; try lia; auto; intros [=]. Qed.
Lemma tree2_wf : wf tree2.
Proof. by right. Qed.

Lemma toy_nodes12 : nodes_ok toy_hash toy_known (list_to_map list12) 3.
Proof.
  apply (nodes_ok_list tree12); [apply tree12_wf|apply (bool_decide_unpack _); vm_compute; reflexivity|vm_compute; reflexivity| | |].
  - right. by left.
  - apply list.Forall_forall. intros e He. do 3 right. done.
  - vm_compute. intros [=].
Qed.

Lemma toy_nodes2 : nodes_ok toy_hash toy_known (list_to_map list2) 1.
Proof.
  apply (nodes_ok_list tree2); [apply tree2_wf|apply (bool_decide_unpack _); vm_compute; reflexivity|vm_compute; reflexivity| |constructor|vm_compute; intros [=]].
  do 2 right. by left.
Qed.

(** An empty database. *)
#[export] Instance toy_store : HashStore MemoryDB := MemoryDB_store toy_hash.
#[export] Instance toy_laws : HashStoreLaws MemoryDB toy_store toy_hash := MemoryDB_laws toy_hash.

Lemma toy_clean (known : bytes -> Prop) : known NULL_RLP -> db_clean toy_hash known MemoryDB_new.
Proof.
  intros Hk. split; [split|].
  - apply map_Forall_empty.
  - intros h v. cbn. unfold md_get. destruct (h =? KECCAK_NULL_RLP); [by intros [= <-]|]. cbn. by rewrite lookup_empty.
  - intros x _. cbn. unfold md_refs. cbn. by rewrite lookup_empty.
Qed.

Lemma toy_room n : n < 2 ^ 31 -> room toy_hash MemoryDB_new n.
Proof. intros Hn x _. cbn. unfold md_refs. cbn. rewrite lookup_empty. lia. Qed.

Lemma key_ok_small k : is_bytes k -> len k < 100 -> key_ok k.
Proof. intros. split; [done|]. lia. Qed.

(** Inserting two entries, committing, removing one of them, and committing
    again, with questions in between. *)
Definition toy_ops : list trie_op :=
  [OpInsert key1 value1; OpInsert key2 value2; OpGet key1; OpRoot; OpRemove key1; OpContains key1; OpIsEmpty; OpRoot].

Lemma toy_entry k v : bool_decide (is_bytes k) = true -> bool_decide (is_bytes v) = true -> len k < 100 -> 0 < len v < 100 -> entry_ok k v.
Proof. intros Hk%bool_decide_eq_true_1 Hv%bool_decide_eq_true_1 ? ?. unfold entry_ok, bound. split_and!; try done; lia. Qed.

Lemma toy_entries : Forall (fun '(k, v) => entry_ok k v) list12.
Proof.
  constructor; [|constructor; [|constructor]]; (apply toy_entry; [vm_compute; reflexivity..|split; vm_compute; reflexivity]).
Qed.

Lemma toy_map12 : <[key2 := value2]> (<[key1 := value1]> (∅ : contents)) = list_to_map list12.
Proof. apply (bool_decide_unpack _). vm_compute. reflexivity. Qed.
Lemma toy_map2 : delete key1 (list_to_map list12 : contents) = list_to_map list2.
Proof. apply (bool_decide_unpack _). vm_compute. reflexivity. Qed.

Lemma toy_ops_ok : ops_ok toy_hash toy_known 4 ∅ toy_ops.
Proof.
  assert (key_ok key1 /\ key_ok key2) as [H1 H2] by (split; (split; [repeat constructor; done|vm_compute; reflexivity])).
  cbn [ops_ok toy_ops spec_map]. change (len value1 =? 0) with false. change (len value2 =? 0) with false. cbn match.
  rewrite toy_map12, toy_map2. split; [done|]. split; [right; split; [by apply Forall_replicate|split; vm_compute; reflexivity]|].
  split; [done|]. split; [right; split; [repeat constructor; done|split; vm_compute; reflexivity]|].
  split; [done|]. exists 3. split; [apply toy_nodes12|]. split; [lia|]. split; [done|]. split; [done|].
  exists 1. split; [apply toy_nodes2|]. split; [lia|done].
Qed.

(** The database after committing the first map. *)
Definition toy_db : MemoryDB :=
  match exec_ops (TrieDBMut_new MemoryDB_new) [OpInsert key1 value1; OpInsert key2 value2; OpRoot] with
  | Ok (_, s) => tm_db s
  | _ => MemoryDB_new
  end.
Definition toy_root : Z := toy_hash (enc toy_hash tree12).

Lemma tree12_denotes : denotes tree12 (list_to_map list12).
Proof. apply denotes_list; [apply (bool_decide_unpack _); vm_compute; reflexivity|vm_compute; reflexivity]. Qed.

Lemma toy_contents : contents_ok (list_to_map list12).
Proof.
  intros k v Hk. apply elem_of_list_to_map in Hk; [|apply (bool_decide_unpack _); vm_compute; reflexivity].
  pose proof toy_entries as He. rewrite list.Forall_forall in He. exact (He _ Hk).
Qed.

Lemma toy_holds : db_holds toy_hash toy_known toy_db toy_root tree12 (list_to_map list12).
Proof.
  pose proof (toy_clean toy_known (ho_known _ _ toy_ok)) as Hcl. pose proof toy_ops_ok as Hok. cbn [ops_ok toy_ops] in Hok.
  destruct Hok as (H1 & Hv1 & H2 & Hv2 & _ & n & Hn & Hb & _).
  destruct (exec_ops_commit_ok toy_hash toy_known toy_ok [OpInsert key1 value1; OpInsert key2 value2] 4 _ TEmpty ∅ (new_ok toy_hash toy_known toy_ok _ Hcl))
    as (ans & r & s & t & M & He & Hs & Hd).
  { by apply toy_room. }
  { cbn [app ops_ok]. split_and!; try done. exists n. by split_and!; try lia. }
  unfold toy_db. cbn [app] in He, Hs. rewrite He. cbn [spec_ops spec_ans spec_map mbind outcome_bind] in Hs.
  change (len value1 =? 0) with false in Hs. change (len value2 =? 0) with false in Hs. cbn match in Hs. rewrite toy_map12 in Hs.
  destruct (trie_root _ _); [|done..]. injection Hs as _ <-.
  assert (t = tree12) as -> by (eapply denotes_unique; [apply Hd|apply tree12_wf|apply Hd|apply tree12_denotes]).
  unfold toy_root. rewrite <-(dh_root _ _ _ _ _ _ Hd). done.
Qed.
