(* ===== verification/TrieTheorems.v ===== *)
(** * Theorems on tries

    Mutable tries are maps and commit them; [trie_root] computes the same root;
    what is committed can be read, iterated and proved; nodes survive their
    encoding. *)
From stdpp Require Import base list numbers gmap gmultiset sorting.
From S2P Require Import Prelude RlpStream RlpEncoding RlpDecode RlpViews RlpImpls Account Nibbles HashDb Trie TrieNode TrieDb.
From S2P Require Import TrieDbMut TrieRep TrieCommit TrieHash TrieMaps TrieRefine TrieIter TrieFactory TrieWorld.

(** ** Inserting a list *)
Definition insert_ops (input : list (bytes * bytes)) : list trie_op := map (fun '(k, v) => OpInsert k v) input.

Lemma insert_ops_ok keccak known n input M : Forall (fun '(k, v) => entry_ok k v) input -> 0 <= n ->
  nodes_ok keccak known (insert_all input M) n -> ops_ok keccak known n M (insert_ops input ++ [OpRoot]).
Proof.
  intros Hin Hn. revert M. induction Hin as [|[k v] input (Hk & Hkl & Hv & Hvl) Hin IH]; intros M Hno; cbn [insert_ops map app ops_ok].
  - exists n. by split_and!; try lia.
  - split; [done|]. split; [by right|]. apply IH. cbn [spec_map]. rewrite (proj2 (Z.eqb_neq _ _)) by lia. exact Hno.
Qed.

Lemma insert_ops_spec keccak input M ans M' : Forall (fun '(k, v) => entry_ok k v) input ->
  spec_ops keccak M (insert_ops input ++ [OpRoot]) = Ok (ans, M') -> M' = insert_all input M.
Proof.
  intros Hin. revert M ans. induction Hin as [|[k v] input (_ & _ & _ & Hvl) Hin IH]; intros M ans; cbn [insert_ops map app spec_ops spec_ans mbind outcome_bind spec_map].
  - destruct (trie_root _ _); cbn; [|done..]. by intros [= _ <-].
  - rewrite (proj2 (Z.eqb_neq _ _)) by lia. destruct (spec_ops _ _ _) as [[l M1]| |] eqn:Hs; cbn; [|done..]. intros [= _ <-]. by apply IH in Hs.
Qed.

(** ** The entries in the order of the iterator *)
Lemma elements_items t M : denotes t M -> contents_ok M ->
  map (fun '(q, v) => inr (pack q, v)) (elements t) = map (inr : bytes * bytes -> TrieError + bytes * bytes) (btree_collect (map_to_list M)).
Proof.
  intros Hd Hc. destruct (btree_collect_ok (map_to_list M)) as [Hs Hl]. rewrite insert_all_map_to_list in Hl.
  rewrite <-(nibble_keys_elements t M _ Hd Hc Hl Hs). unfold nibble_keys. rewrite map_map. apply map_ext_Forall, list.Forall_forall.
  intros [k v] Hk%Hl. rewrite as_nibbles_ok, pack_to_nibs; [done|]. by apply (Hc k v).
Qed.

Section tries.
Context {DB : Type} {H : HashStore DB} (keccak : bytes -> Z) {L : HashStoreLaws DB H keccak} (known : bytes -> Prop).

(** C16: a mutable trie over a database that holds a map refines the map: any
    sequence of lookups, insertions, removals and commits, on keys below 2^29
    and values below 2^30 bytes of any content, gets the answers the map gives; in particular nothing fails or
    panics, and every root that is asked for is the one [trie_root] computes
    from the entries alone, whatever the history.  The hash is injective on the
    nodes of the maps that are committed, and the reference counts do not
    overflow. *)
Theorem trie_mut_refines d root t M ops b :
  hash_ok keccak known -> db_holds keccak known d root t M -> room keccak d b -> ops_ok keccak known b M ops ->
  exists s ans s' M', from_existing d root = Ok s /\ exec_ops s ops = Ok (ans, s') /\ spec_ops keccak M ops = Ok (ans, M').
Proof.
  intros Hh Hd Hr Hok. destruct (from_existing_ok keccak known Hh d root t M Hd) as (s & Hs & Hdb & Ht).
  destruct (exec_ops_ok keccak known Hh ops b s t M Ht) as (ans & s' & t' & M' & He & Hsp & _); [by rewrite Hdb|done|]. by exists s, ans, s', M'.
Qed.

(** C17: what a mutable trie commits can be read: after any operations as in
    [trie_mut_refines] and a commit, [TrieDB] on the database under the new root
    finds for every key what the map has, and its iterator yields the entries of
    the map, each once, in the order of their keys, and then ends.  The hash is
    injective on the nodes of the maps that are committed, and the reference
    counts do not overflow. *)
Theorem trie_commit_readable d root t M ops b k :
  hash_ok keccak known -> db_holds keccak known d root t M -> room keccak d b -> ops_ok keccak known b M (ops ++ [OpRoot]) -> key_ok k ->
  exists s ans root' s' M' td,
    from_existing d root = Ok s /\ exec_ops s (ops ++ [OpRoot]) = Ok (ans ++ [AnsRoot root'], s') /\
    spec_ops keccak M (ops ++ [OpRoot]) = Ok (ans ++ [AnsRoot root'], M') /\
    TrieDB_new (tm_db s') root' = Ok td /\ trie_get td k = Ok (M' !! k) /\ trie_contains td k = Ok (bool_decide (is_Some (M' !! k))) /\
    exists it n l, TrieDBIterator_new td = Ok it /\
      (forall items fuel, (n < items)%nat -> (n < fuel)%nat -> collect items fuel it = Ok (map inr l)) /\
      StronglySorted lex_lt (map fst l) /\ forall k v, (k, v) ∈ l <-> M' !! k = Some v.
Proof.
  intros Hh Hd Hr Hok Hk. destruct (from_existing_ok keccak known Hh d root t M Hd) as (s & Hs & Hdb & Ht).
  destruct (exec_ops_commit_ok keccak known Hh ops b s t M Ht) as (ans & r & s' & t' & M' & He & Hsp & Hd'); [by rewrite Hdb|done|].
  destruct (trie_get_ok keccak known Hh _ _ _ _ k Hd' Hk) as (td & Htd & Hg & Hc). exists s, ans, r, s', M', td. split_and!; try done.
  pose proof (db_holds_get keccak known Hh _ _ _ _ Hd') as Hroot. unfold TrieDB_new in Htd. destruct (negb _); [done|]. injection Htd as <-.
  destruct Hd'. destruct (iterator_ok keccak (ho_word _ _ Hh) (mkTrieDB (tm_db s') r 0) t') as (it & n & Hit & Hcol); try done.
  { by eapply denotes_content. }
  { eapply (stored_covered keccak known Hh); [done|done| |done]. multiset_solver. }
  destruct (btree_collect_ok (map_to_list M')) as [Hsort Hmem]. rewrite insert_all_map_to_list in Hmem.
  exists it, n, (btree_collect (map_to_list M')). split_and!; try done. intros items fuel Hi Hf. rewrite Hcol by done. f_equal. by apply elements_items.
Qed.

(** C18: [trie_root] computes from a list of entries with non-empty values,
    without a database, the root that a new trie has after inserting them one by
    one; [sec_trie_root] does for hashed keys, and [ordered_trie_root] for the
    encoded positions of a list.  (With an empty value the two part: insertion
    removes the key, [trie_root] writes a leaf, see [empty_value_root].)  Keys
    are shorter than 2^29 bytes and values than 2^30, the hash has no
    collision among the nodes of the trie, and the reference counts of the
    database have room for the nodes. *)
Theorem trie_root_correct d input n :
  hash_ok keccak known -> db_clean keccak known d -> Forall (fun '(k, v) => entry_ok k v) input -> 0 <= n ->
  nodes_ok keccak known (insert_all input ∅) n -> room keccak d n ->
  exists ans root s, exec_ops (TrieDBMut_new d) (insert_ops input ++ [OpRoot]) = Ok (ans ++ [AnsRoot root], s) /\
    trie_root keccak input = Ok root /\
    (forall source, map (fun '(k, v) => (Z_to_be 32 (keccak k), v)) source = input -> sec_trie_root keccak source = Ok root) /\
    (forall source, enumerate_encoded 0 source = Ok input -> ordered_trie_root keccak source = Ok root).
Proof.
  intros Hh Hd Hin Hn Hno Hr.
  destruct (exec_ops_commit_ok keccak known Hh (insert_ops input) n (TrieDBMut_new d) TEmpty ∅) as (ans & r & s' & t' & M' & He & Hsp & Hd');
    [by apply new_ok|done|by apply insert_ops_ok|].
  apply insert_ops_spec in Hsp as ->; [|done]. destruct Hd'.
  assert (trie_root keccak input = Ok r) as Hroot by (subst r; eapply trie_root_ok; [apply (ho_word _ _ Hh)|done..]).
  exists ans, r, s'. split; [done|]. split; [done|]. split.
  - intros source <-. exact Hroot.
  - intros source Hs. unfold ordered_trie_root. rewrite Hs. exact Hroot.
Qed.

(** C19: the nodes a [Recorder] collects during a lookup are a proof of its
    answer: the lookup answers what the map has, every other database with those
    nodes gives the same answer, and no database with known nodes under their
    hashes gives another one: it reports a missing node instead.  The hash has no
    collision among the known nodes. *)
Theorem lookup_proof_correct d root t M k d' :
  hash_ok keccak known -> db_holds keccak known d root t M -> key_ok k -> db_ok keccak known d' ->
  exists l, trie_get_with (mkTrieDB d root 0) k (recorder_query keccak) recorder_new = (Ok (M !! k), mkRecorder l 0) /\
    Forall (fun r => hdb_get d (rec_hash r) = Some (rec_data r) /\ rec_hash r = keccak (rec_data r)) l /\
    (has_nodes d' l -> trie_get (mkTrieDB d' root 0) k = Ok (M !! k)) /\
    (TrieDB_new d' root = Err (InvalidStateRoot root) \/
     exists td, TrieDB_new d' root = Ok td /\
       (trie_get td k = Ok (M !! k) \/ exists h, hdb_get d' h = None /\ trie_get td k = Err (IncompleteDatabase h))).
Proof.
  intros Hh Hd Hk Hd'. destruct (record_ok keccak known Hh d root t M k Hd Hk) as (l & Hl & Hn & Hall).
  pose proof (db_holds_get keccak known Hh _ _ _ _ Hd) as Hg. exists l. split_and!; [done| |apply Hall|].
  - revert Hn. apply List.Forall_impl. intros r [Hin Hrh]. split; [|done]. rewrite Hrh. destruct Hd. apply elem_of_cons in Hin as [->|Hin]; [by rewrite <-dh_root|].
    eapply (stored_covered keccak known Hh); [done|done| |done|done]. multiset_solver.
  - destruct Hd. destruct (proof_sound_ok keccak known Hh d' root t M k) as [He|(td & Htd & [He|(e & _ & Hn' & He)])]; try done; [by left|right..].
    + exists td. split; [done|]. by left.
    + exists td. split; [done|]. right. by exists (keccak e).
Qed.
End tries.

(** C20: the encoding of a node of a well-formed tree, with values and keys of
    less than 2^30 bytes and nibbles, can be decoded, one level deep, and encoded
    again: the decoded node has the nibbles of the key, the value and the
    references to the children of the tree it was made from, and
    [Node::encoded] gives back the bytes. *)
Theorem node_roundtrip keccak t : wf t -> content_ok (tget t) ->
  exists n, Node_decoded (enc keccak t) = Ok n /\ node_of keccak t n /\ Node_encoded n = Ok (enc keccak t).
Proof.
  intros Hw Hc. destruct (Node_decoded_ok keccak t Hw Hc) as (n & Hn & Hof). exists n. split_and!; try done. by apply Node_encoded_ok.
Qed.

(** ** Applied to the small tries *)
Lemma trie_mut_refines_witness :
  exists s ans s' M', from_existing MemoryDB_new KECCAK_NULL_RLP = Ok s /\ exec_ops s toy_ops = Ok (ans, s') /\ spec_ops toy_hash ∅ toy_ops = Ok (ans, M').
Proof.
  apply (trie_mut_refines toy_hash toy_known MemoryDB_new KECCAK_NULL_RLP TEmpty ∅ toy_ops 4).
  - apply toy_ok.
  - apply (db_holds_empty toy_hash toy_known toy_ok), toy_clean, (ho_known _ _ toy_ok).
  - by apply toy_room.
  - apply toy_ops_ok.
Defined.

Lemma trie_commit_readable_witness : exists s ans root' s' (M' : contents) td,
  from_existing MemoryDB_new KECCAK_NULL_RLP = Ok s /\ exec_ops s toy_ops = Ok (ans ++ [AnsRoot root'], s') /\
  TrieDB_new (tm_db s') root' = Ok td /\ trie_get td key2 = Ok (M' !! key2).
Proof.
  destruct (trie_commit_readable toy_hash toy_known MemoryDB_new KECCAK_NULL_RLP TEmpty ∅ (take 7 toy_ops) 4 key2)
    as (s & ans & r & s' & M' & td & Hs & He & _ & Htd & Hg & _).
  - apply toy_ok.
  - apply (db_holds_empty toy_hash toy_known toy_ok), toy_clean, (ho_known _ _ toy_ok).
  - by apply toy_room.
  - apply toy_ops_ok.
  - split; [repeat constructor; done|vm_compute; reflexivity].
  - exists s, ans, r, s', M', td. exact (conj Hs (conj He (conj Htd Hg))).
Defined.

Lemma trie_root_correct_witness :
  exists ans root s, exec_ops (TrieDBMut_new MemoryDB_new) (insert_ops list12 ++ [OpRoot]) = Ok (ans ++ [AnsRoot root], s) /\
    trie_root toy_hash list12 = Ok root.
Proof.
  destruct (trie_root_correct toy_hash toy_known MemoryDB_new list12 3) as (ans & r & s & He & Hr & _).
  - apply toy_ok.
  - apply toy_clean, (ho_known _ _ toy_ok).
  - apply toy_entries.
  - done.
  - change (insert_all list12 ∅) with (<[key2 := value2]> (<[key1 := value1]> (∅ : contents))). rewrite toy_map12. apply toy_nodes12.
  - by apply toy_room.
  - exists ans, r, s. exact (conj He Hr).
Defined.

Lemma lookup_proof_correct_witness : exists l,
  trie_get_with (mkTrieDB toy_db toy_root 0) key1 (recorder_query toy_hash) recorder_new = (Ok (Some value1), mkRecorder l 0) /\
  (has_nodes toy_db l -> trie_get (mkTrieDB toy_db toy_root 0) key1 = Ok (Some value1)).
Proof.
  destruct (lookup_proof_correct toy_hash toy_known toy_db toy_root tree12 (list_to_map list12) key1 toy_db) as (l & Hl & _ & Hn & _).
  - apply toy_ok.
  - apply toy_holds.
  - split; [repeat constructor; done|vm_compute; reflexivity].
  - apply toy_holds.
  - exists l. exact (conj Hl Hn).
Defined.

Lemma node_roundtrip_witness : exists n, Node_decoded (enc toy_hash tree12) = Ok n /\ Node_encoded n = Ok (enc toy_hash tree12).
Proof.
  destruct (node_roundtrip toy_hash tree12) as (n & Hd & _ & He).
  - apply tree12_wf.
  - eapply denotes_content; [apply tree12_denotes|apply toy_contents].
  - exists n. exact (conj Hd He).
Defined.

(** ** Behaviour worth knowing *)

(** Two equal nodes that are replaced before the same commit are one entry of
    the death row: one reference is never given back.  With a commit in between
    both are. *)
Definition shared_leaf : Z := toy_hash (enc toy_hash (TLeaf [1; 3; 4] value1)).
Definition leaf_refs (ops : list trie_op) : option Z :=
  match exec_ops (TrieDBMut_new MemoryDB_new)
    ([OpInsert [0x11; 0x34] value1; OpInsert [0x21; 0x34] value1; OpRoot] ++ ops ++ [OpRoot]) with
  | Ok (_, s) => Some (md_refs (tm_db s) shared_leaf)
  | _ => None
  end.

Example death_row_leaks :
  leaf_refs [] = Some 2 /\
  leaf_refs [OpInsert [0x11; 0x34] value2; OpInsert [0x21; 0x34] value2] = Some 1 /\
  leaf_refs [OpInsert [0x11; 0x34] value2; OpRoot; OpInsert [0x21; 0x34] value2] = Some 0.
Proof. vm_compute. repeat split. Qed.

(** An entry with an empty value is a leaf for [trie_root]; inserting it leaves
    the trie empty. *)
Example empty_value_root :
  match exec_ops (TrieDBMut_new MemoryDB_new) [OpInsert key2 []; OpRoot] with
  | Ok ([_; AnsRoot root], _) => root = KECCAK_NULL_RLP
  | _ => False
  end /\
  match trie_root toy_hash [(key2, [])] with Ok root => (root =? KECCAK_NULL_RLP) = false | _ => False end.
Proof. vm_compute. by split. Qed.

(** A removal that fails because a node is missing leaves the root handle at a
    slot that was freed, and perhaps used again: entries are gone, and dropping
    the trie commits another root. *)
Definition broken_db : MemoryDB := mkMemoryDB (delete (toy_hash (enc toy_hash (TLeaf [4] value1))) (md_data toy_db)).
Definition after_failure : option (trie_ans * trie_ans * outcome TrieError (option bytes) * bool) :=
  match from_existing broken_db toy_root with
  | Ok s =>
      match exec_ops s [OpInsert [0x99] [9]; OpGet [0x99]] with
      | Ok ([a; b], s) =>
          match tm_remove key1 s with
          | Err (IncompleteDatabase _, s') =>
              match tm_drop s, tm_drop s' with
              | Ok s, Ok s' => Some (a, b, tm_get s' [0x99], tm_root s =? tm_root s')
              | _, _ => None
              end
          | _ => None
          end
      | _ => None
      end
  | _ => None
  end.

Example failed_removal_loses_entries : after_failure = Some (AnsValue None, AnsValue (Some [9]), Ok None, false).
Proof. vm_compute. reflexivity. Qed.

(** [seek] does not stop at the key it is given, and passes a greater one if
    the two part in a leaf. *)
Definition items_from (key : bytes) : outcome TrieError (list (TrieError + bytes * bytes)) :=
  it ← TrieDBIterator_new (mkTrieDB toy_db toy_root 0); it ← seek it key; infallible (collect 10 100 it).

Example seek_skips :
  items_from [] = Ok [inr (key1, value1); inr (key2, value2)] /\
  items_from key1 = Ok [inr (key2, value2)] /\
  items_from [0x12; 0x33] = Ok [inr (key2, value2)].
Proof. vm_compute. repeat split. Qed.

(** Inserting the empty value into a fat trie removes the entry, but keeps the
    key, or even adds it; removing the entry does not. *)
Definition fat_aux_refs (f : TrieDBMut MemoryDB -> outcome (TrieError * TrieDBMut MemoryDB) (option bytes * TrieDBMut MemoryDB)) : option (bool * Z) :=
  match f (TrieDBMut_new MemoryDB_new) with
  | Ok (_, s) =>
      match tm_is_empty s with
      | Ok b => Some (b, md_refs (tm_db s) (to_aux_key toy_hash (Z_to_be 32 (toy_hash key1))))
      | _ => None
      end
  | _ => None
  end.

Example fat_empty_value :
  fat_aux_refs (fat_insert toy_hash key1 []) = Some (true, 1) /\
  fat_aux_refs (fun s => '(_, s) ← fat_insert toy_hash key1 value1 s; fat_insert toy_hash key1 [] s) = Some (true, 1) /\
  fat_aux_refs (fun s => '(_, s) ← fat_insert toy_hash key1 value1 s; fat_remove toy_hash key1 s) = Some (true, 0).
Proof. vm_compute. repeat split. Qed.
