(* ===== verification/StateDb.v ===== *)
(** * The database under the state

    [State] was modelled over an interface: a database, the view of it that
    belongs to one account, and lookups in secure tries.  Here the interface is
    implemented by the trie code over a [HashDB] and the account views of
    [ethcore/src/account_db.rs], and what [State] relies on is proved of a
    database that holds the tries of the accounts and of their storage. *)
From stdpp Require Import base list numbers gmap gmultiset.
From S2P Require Import Prelude Words JumpDests RlpStream RlpEncoding RlpDecode RlpViews RlpImpls RlpCodecs Account Nibbles HashDb AccountDb Trie TrieNode TrieDb.
From S2P Require Import TrieRep TrieHash TrieMaps TrieRefine State StateSpec.

(** ** A trie that can be read *)
Record trie_holds {DB} {H : HashStore DB} (keccak : bytes -> Z) (d : DB) (root : Z) (t : trie) (M : contents) : Prop := {
  th_wf : wf t;
  th_denotes : denotes t M;
  th_contents : contents_ok M;
  th_there : hdb_contains d root = true;
  th_root : hdb_get d root = Some (enc keccak t);
  th_stored : stored keccak d t;
}.

Section reading.
Context {DB : Type} {H : HashStore DB} (keccak : bytes -> Z) (Hword : forall b, in_u 256 (keccak b)).

Definition sec_lookup (d : DB) (root : Z) (key : bytes) : outcome TrieError (option bytes) :=
  td ← TrieDB_new d root; sec_get keccak td key.

Lemma sec_key_ok key : key_ok (Z_to_be 32 (keccak key)).
Proof. split; [apply Z_to_be_bytes|by rewrite len_Z_to_be]. Qed.

Lemma sec_lookup_ok d root t M key : trie_holds keccak d root t M -> sec_lookup d root key = Ok (M !! Z_to_be 32 (keccak key)).
Proof.
  intros []. unfold sec_lookup, TrieDB_new. rewrite th_there0. cbn [negb mbind outcome_bind]. unfold sec_get, sec_get_with, trie_get_with.
  cbn [td_db td_root]. rewrite (look_up_value keccak Hword d t) by (done || by eapply denotes_content || apply key_plain, sec_key_ok).
  rewrite nibs_new. f_equal. apply denotes_get; [done|done|apply Z_to_be_bytes].
Qed.

(** The empty trie is in every database that answers for its root. *)
Lemma trie_holds_empty d : hdb_contains d KECCAK_NULL_RLP = true -> hdb_get d KECCAK_NULL_RLP = Some NULL_RLP ->
  trie_holds keccak d KECCAK_NULL_RLP TEmpty ∅.
Proof. intros. split; [by left|apply denotes_empty|apply map_Forall_empty|done|done|by intros e He%not_elem_of_nil]. Qed.
End reading.

(** ** The interface *)
Inductive StateHashDB (DB : Type) : Type :=
  | WholeDB (d : DB)
  | ViewOf (factory : Factory) (s : StateHashDB DB) (address_hash : Z).
Arguments WholeDB {DB}.
Arguments ViewOf {DB}.

Section interface.
Context {DB : Type} {H : HashStore DB} (keccak : bytes -> Z).

Fixpoint sdb_get (s : StateHashDB DB) (key : Z) : option bytes :=
  match s with
  | WholeDB d => hdb_get d key
  | ViewOf f s h =>
      if key =? KECCAK_NULL_RLP then Some NULL_RLP
      else match f with Mangled => sdb_get s (combine_key h key) | Plain => sdb_get s key end
  end.
Fixpoint sdb_contains (s : StateHashDB DB) (key : Z) : bool :=
  match s with
  | WholeDB d => hdb_contains d key
  | ViewOf f s h =>
      if key =? KECCAK_NULL_RLP then true
      else match f with Mangled => sdb_contains s (combine_key h key) | Plain => sdb_contains s key end
  end.

(** Only what [State] does through shared references. *)
#[export] Instance StateHashDB_store : HashStore (StateHashDB DB) := {|
  hdb_keys _ := Panic;
  hdb_get := sdb_get;
  hdb_contains := sdb_contains;
  hdb_insert _ _ := Panic;
  hdb_emplace _ _ _ := Panic;
  hdb_remove _ _ := Panic;
|}.

(** With the default factories: secure tries and mangled views. *)
Definition StateHashDB_hashdb : HashDB (StateHashDB DB) := {|
  db_get := sdb_get;
  accountdb_readonly s address_hash := ViewOf Factory_default s address_hash;
  sec_trie_get s root key := sec_lookup keccak s root key;
|}.

(** A view of the whole database is the one [Factory::readonly] makes. *)
Lemma view_get f d h key : sdb_get (ViewOf f (WholeDB d) h) key =
  match factory_readonly_view f d h with
  | ViewMangled v => @hdb_get _ AccountDB_store v key
  | ViewPlain v => @hdb_get _ Wrapping_store v key
  end.
Proof. by destruct f. Qed.

Lemma view_contains f d h key : sdb_contains (ViewOf f (WholeDB d) h) key =
  match factory_readonly_view f d h with
  | ViewMangled v => @hdb_contains _ AccountDB_store v key
  | ViewPlain v => @hdb_contains _ Wrapping_store v key
  end.
Proof. by destruct f. Qed.
End interface.

(** ** What [State] relies on *)
Section complete.
Context (keccak : bytes -> Z) (Hword : forall b, in_u 256 (keccak b)).
Abbreviation sdb := (StateHashDB MemoryDB).
#[local] Instance mem_store : HashStore MemoryDB := MemoryDB_store keccak.
#[local] Instance mem_hashdb : HashDB sdb := StateHashDB_hashdb keccak.
Implicit Types d : MemoryDB.

Definition view_of d (a : Z) : sdb := ViewOf Mangled (WholeDB d) (keccak (Z_to_be 20 a)).
Definition sec (key : bytes) : bytes := Z_to_be 32 (keccak key).

(** The first 96 bits, which views leave alone, tell the values apart. *)
Definition prefix_of (key : Z) : bytes := take 12 (Z_to_be 32 key).
Strategy 100 [prefix_of].
Definition prefixes_apart d : Prop :=
  forall k1 k2 v1 v2, md_get d k1 = Some v1 -> md_get d k2 = Some v2 -> prefix_of k1 = prefix_of k2 -> v1 = v2.

(** The value with the prefix of a key. *)
Definition codes_of d (h : Z) : option bytes :=
  if decide (prefix_of h = prefix_of KECCAK_NULL_RLP) then Some NULL_RLP
  else
    snd <$> List.find (fun '(k, _) => bool_decide (prefix_of k = prefix_of h))
      (omap (fun '(k, (v, rc)) => if 0 <? rc then Some (k, v) else None) (map_to_list (md_data d))).

(** The tries of a state: the accounts, and for each its storage and code. *)
Record state_stored d (root : Z) (accounts : Z -> option BasicAccount) (storage : Z -> Z -> Z) : Prop := {
  ss_apart : prefixes_apart d;
  ss_accounts : exists t M, trie_holds keccak (WholeDB d : sdb) root t M /\
    forall a, match M !! sec (Z_to_be 20 a) with
              | Some rlp => exists b, decode_bytes rlp = Ok b /\ accounts a = Some b
              | None => accounts a = None
              end;
  ss_storage a b : accounts a = Some b -> exists t M, trie_holds keccak (view_of d a) (b_storage_root b) t M /\
    forall k, match M !! sec (Z_to_be 32 k) with
              | Some rlp => @decode_bytes _ (uint_Decodable 32) rlp = Ok (storage a k)
              | None => storage a k = 0
              end;
  ss_code a b : accounts a = Some b -> b_code_hash b <> KECCAK_EMPTY -> exists c, c <> [] /\ sdb_get (view_of d a) (b_code_hash b) = Some c;
}.

Lemma codes_of_ok d h k v : prefixes_apart d -> md_get d k = Some v -> prefix_of k = prefix_of h -> codes_of d h = Some v.
Proof.
  intros Hap Hv Hk. unfold codes_of. case_decide as Hn.
  { f_equal. apply (Hap KECCAK_NULL_RLP k); [done|done|congruence]. }
  assert (forall k' v', (k', v') ∈ omap (fun '(k, (v, rc)) => if 0 <? rc then Some (k, v) else None) (map_to_list (md_data d)) <->
    exists rc, md_data d !! k' = Some (v', rc) /\ 0 < rc) as Hin.
  { intros k' v'. rewrite list_elem_of_omap. split.
    - intros ([k0 [v0 rc]] & Hin%elem_of_map_to_list & Heq). destruct (Z.ltb_spec 0 rc); [|done]. injection Heq as -> ->. by exists rc.
    - intros (rc & Hl & Hrc). exists (k', (v', rc)). split; [by apply elem_of_map_to_list|]. by rewrite (proj2 (Z.ltb_lt _ _)). }
  assert (forall k' v' rc, md_data d !! k' = Some (v', rc) -> 0 < rc -> prefix_of k' = prefix_of h -> v' = v) as Hsame.
  { intros k' v' rc Hl Hrc Hp. apply (Hap k' k); [|done|congruence]. unfold md_get. destruct (Z.eqb_spec k' KECCAK_NULL_RLP) as [->|_]; [congruence|].
    by rewrite Hl, (proj2 (Z.ltb_lt _ _)). }
  destruct (List.find _ _) as [[k' v']|] eqn:Hf.
  - apply List.find_some in Hf as [Hi Hp]. apply list_elem_of_In, Hin in Hi as (rc & Hl & Hrc). cbn. f_equal. eapply Hsame; [done|done|].
    by apply bool_decide_eq_true_1 in Hp.
  - exfalso. unfold md_get in Hv. destruct (Z.eqb_spec k KECCAK_NULL_RLP) as [->|_]; [congruence|].
    destruct (md_data d !! k) as [[w rc]|] eqn:Hl; [|done]. destruct (Z.ltb_spec 0 rc); [|done].
    assert ((k, w) ∈ omap (fun '(k, (v, rc)) => if 0 <? rc then Some (k, v) else None) (map_to_list (md_data d))) as Hi by (apply Hin; by exists rc).
    apply list_elem_of_In in Hi. pose proof (List.find_none _ _ Hf _ Hi) as Hb. cbn in Hb. by rewrite bool_decide_eq_true_2 in Hb.
Qed.

Lemma view_code d a h c : prefixes_apart d -> sdb_get (view_of d a) h = Some c -> codes_of d h = Some c.
Proof.
  intros Hap Hg. cbn [sdb_get view_of] in Hg. destruct (Z.eqb_spec h KECCAK_NULL_RLP) as [->|_].
  - injection Hg as <-. by apply (codes_of_ok d _ KECCAK_NULL_RLP).
  - cbn [hdb_get mem_store MemoryDB_store] in Hg. eapply codes_of_ok; [done|exact Hg|]. unfold prefix_of. by rewrite combine_key_prefix.
Qed.

Section stored.
Context (d : MemoryDB) (root : Z) (accounts : Z -> option BasicAccount) (storage : Z -> Z -> Z).
Hypothesis Hs : state_stored d root accounts storage.
Abbreviation D := (WholeDB d : sdb).

Lemma stored_account a : db_account D root a = accounts a.
Proof.
  destruct (ss_accounts _ _ _ _ Hs) as (t & M & Ht & Ha). unfold db_account. cbn [sec_trie_get mem_hashdb StateHashDB_hashdb].
  rewrite (sec_lookup_ok keccak Hword D root t M _ Ht). specialize (Ha a). unfold sec in Ha.
  destruct (M !! _) as [rlp|]; [|by rewrite Ha]. destruct Ha as (b & -> & ->). done.
Qed.

Lemma stored_storage a b k : accounts a = Some b -> exists o, sec_trie_get (adb keccak D a) (b_storage_root b) (Z_to_be 32 k) = Ok o /\
  match o with Some rlp => @decode_bytes _ (uint_Decodable 32) rlp = Ok (storage a k) | None => storage a k = 0 end.
Proof.
  intros Hb. destruct (ss_storage _ _ _ _ Hs a b Hb) as (t & M & Ht & Hk). exists (M !! sec (Z_to_be 32 k)). split; [|apply Hk].
  apply (sec_lookup_ok keccak Hword (view_of d a) (b_storage_root b) t M _ Ht).
Qed.

Lemma stored_complete : db_complete keccak D root (codes_of d).
Proof.
  split.
  - intros a. destruct (ss_accounts _ _ _ _ Hs) as (t & M & Ht & Ha). exists (M !! sec (Z_to_be 20 a)).
    split; [apply (sec_lookup_ok keccak Hword D root t M _ Ht)|]. specialize (Ha a). destruct (M !! _); [|done]. destruct Ha as (b & ? & _). by exists b.
  - intros a b. rewrite stored_account. intros Hb k. destruct (stored_storage a b k Hb) as (o & Ho & Hv). exists o. split; [done|].
    destruct o; [|done]. by exists (storage a k).
  - intros a k. change (sec_lookup keccak (view_of d a) KECCAK_NULL_RLP (Z_to_be 32 k) = Ok None).
    rewrite (sec_lookup_ok keccak Hword (view_of d a) KECCAK_NULL_RLP TEmpty ∅) by (by apply trie_holds_empty). by rewrite lookup_empty.
  - intros a b. rewrite stored_account. apply (ss_code _ _ _ _ Hs).
  - intros a h c. apply view_code, (ss_apart _ _ _ _ Hs).
Qed.

Lemma stored_db_storage a b k : accounts a = Some b -> db_storage keccak D root a k = storage a k.
Proof.
  intros Hb. unfold db_storage. rewrite stored_account, Hb. unfold storage_in. destruct (stored_storage a b k Hb) as (o & Ho & Hv). rewrite Ho.
  destruct o as [rlp|]; [by rewrite Hv|done].
Qed.
End stored.
End complete.
