(* ===== verification/AccountCommit.v ===== *)
(** * Committing an account ([commit_storage] and [commit_code] of
    [ethcore/src/state/account.rs])

    The storage changes of an account are written to its storage trie through
    the trie factory, and the trie is committed when it is dropped, also after
    an error.  Afterwards the trie has the changes over what it had. *)
From stdpp Require Import base list numbers gmap gmultiset.
From S2P Require Import Prelude JumpDests RlpStream RlpEncoding RlpDecode RlpDecoding RlpViews RlpImpls RlpCodecs Account Nibbles HashDb AccountDb Trie TrieNode TrieDb.
From S2P Require Import TrieDbMut TrieRep TrieCommit TrieHash TrieMaps TrieRefine TrieFactory State StateSpec StateDb.

(** ** The code *)
Section code.
Context {DB : Type} {H : HashStore DB} {C : Type} {HC : LruCache C} (keccak : bytes -> Z).

(** The loop over the drained changes. *)
Fixpoint commit_changes (changes : list (Z * Z)) (t : TrieMutBox DB) (cache : C) :
    outcome (TrieError * (TrieMutBox DB * C)) (TrieMutBox DB * C) :=
  match changes with
  | [] => Ok (t, cache)
  | (k, v) :: changes =>
      let r := if v =? 0 then box_remove keccak t (Z_to_be 32 k)
               else value ← infallible (@encode _ (uint_Encodable 32) v); box_insert keccak t (Z_to_be 32 k) value in
      match r with
      | Ok (_, t) => commit_changes changes t (lru_insert cache k v)
      | Err (e, t) => Err (e, (t, cache))
      | Panic => Panic
      end
  end.

(** Dropping the trie commits it and sets the root. *)
Definition drop_storage (self : Account C) (s : TrieMutBox DB * C) : run (Account C * DB) :=
  t ← box_drop (fst s);
  Ok (with_storage (tm_root (bx_raw t)) (snd s) ∅ self, tm_db (bx_raw t)).

Definition commit_storage (spec : TrieSpec) (self : Account C) (db : DB) :
    outcome (TrieError * (Account C * DB)) (Account C * DB) :=
  match factory_from_existing spec db (acc_storage_root self) with
  | Ok t =>
      match commit_changes (map_to_list (acc_storage_changes self)) t (acc_storage_cache self) with
      | Ok s => infallible (drop_storage self s)
      | Err (e, s) => x ← infallible (drop_storage self s); Err (e, x)
      | Panic => Panic
      end
  | Err e => Err (e, (self, db))
  | Panic => Panic
  end.

Definition commit_code (self : Account C) (db : DB) : run (Account C * DB) :=
  match is_dirty_code (acc_code_filth self), len (acc_code_cache self) =? 0 with
  | true, true => Ok (with_code (acc_code_hash self) (Some 0) (acc_code_cache self) FilthClean self, db)
  | true, false =>
      db ← hdb_emplace db (acc_code_hash self) (acc_code_cache self);
      Ok (with_code (acc_code_hash self) (Some (len (acc_code_cache self))) (acc_code_cache self) FilthClean self, db)
  | false, _ => Ok (self, db)
  end.
End code.

(** ** What is written *)
Definition storage_key (keccak : bytes -> Z) (k : Z) : bytes := Z_to_be 32 (keccak (Z_to_be 32 k)).
Definition storage_rlp (v : Z) : bytes := rlp_enc (Data (be_min v)).

Definition put_storage (keccak : bytes -> Z) (M : contents) (kv : Z * Z) : contents :=
  if snd kv =? 0 then delete (storage_key keccak (fst kv)) M else <[storage_key keccak (fst kv) := storage_rlp (snd kv)]> M.

(** The storage trie with the changes. *)
Definition put_changes (keccak : bytes -> Z) (M : contents) (changes : gmap Z Z) : contents :=
  foldl (put_storage keccak) M (map_to_list changes).

Lemma put_storage_lookup keccak l M k :
  NoDup (map fst l) -> (forall k', k' ∈ map fst l -> keccak (Z_to_be 32 k') = keccak (Z_to_be 32 k) -> k' = k) ->
  (forall b, in_u 256 (keccak b)) ->
  foldl (put_storage keccak) M l !! storage_key keccak k =
    match (list_to_map l : gmap Z Z) !! k with
    | Some v => if v =? 0 then None else Some (storage_rlp v)
    | None => M !! storage_key keccak k
    end.
Proof.
  intros Hnd Hk Hword. revert M. induction l as [|[k' v] l IH]; intros M; cbn [foldl list_to_map foldr fst snd uncurry]; [done|].
  cbn [map fst] in *. apply list.NoDup_cons in Hnd as [Hni Hnd]. rewrite IH; [|done|intros; apply Hk; [by right|done]].
  destruct (decide (k' = k)) as [->|Hne].
  - rewrite lookup_insert_eq. rewrite not_elem_of_list_to_map_1 by done. unfold put_storage. cbn [fst snd].
    destruct (v =? 0); [by rewrite lookup_delete_eq|by rewrite lookup_insert_eq].
  - rewrite lookup_insert_ne by done. destruct (list_to_map l !! k); [done|].
    assert (storage_key keccak k' <> storage_key keccak k) as Hs.
    { intros He. apply be_32_inj in He; [|apply Hword..]. apply Hne, Hk; [by left|done]. }
    unfold put_storage. cbn [fst snd]. destruct (v =? 0); [by rewrite lookup_delete_ne|by rewrite lookup_insert_ne].
Qed.

Lemma encode_uint v : in_u 256 v -> @encode _ (uint_Encodable 32) v = Ok (storage_rlp v).
Proof.
  intros Hv. unfold encode. rewrite (codec_append (Codec := uint_codec 32)) by done. cbn [codec_item uint_codec]. apply appended_new.
Qed.

Lemma storage_rlp_ok v : in_u 256 v -> is_bytes (storage_rlp v) /\ 0 < len (storage_rlp v) < bound.
Proof.
  intros Hv. assert (item_ok (Data (be_min v))) as [Hb Hl] by (by apply (codec_item_ok (Codec := uint_codec 32))). split; [by apply rlp_enc_bytes|].
  pose proof (be_min_len v 32 Hv).
  pose proof (len_enc_data (be_min v) ltac:(lia)) as He. pose proof (rlp_enc_nonempty (Data (be_min v))) as Hne. unfold storage_rlp, bound in *. lia.
Qed.

Lemma decode_uint v : in_u 256 v -> @decode_bytes _ (uint_Decodable 32) (storage_rlp v) = Ok v.
Proof.
  intros Hv. unfold decode_bytes, as_val. pose proof (codec_decode (Codec := uint_codec 32) v Hv) as Hd. cbn [codec_item uint_codec] in Hd.
  unfold storage_rlp. by rewrite Hd.
Qed.

(** ** The storage trie after a commit *)
Section commit.
Context {DB : Type} {H : HashStore DB} (keccak : bytes -> Z) {L : HashStoreLaws DB H keccak} (known : bytes -> Prop).
Context (Hh : hash_ok keccak known) {C : Type} `{LruLaws C}.
#[local] Instance whole_hashdb : HashDB (StateHashDB DB) := StateHashDB_hashdb keccak.
Implicit Types acc : Account C.

Lemma commit_changes_ok l raw t M (cache : C) :
  trie_tree keccak known raw t M -> Forall (fun kv => in_u 256 (snd kv)) l ->
  exists raw' t' cache', commit_changes keccak l (mkBox Secure raw) cache = Ok (mkBox Secure raw', cache') /\
    trie_tree keccak known raw' t' (foldl (put_storage keccak) M l) /\ tm_db raw' = tm_db raw.
Proof.
  intros Ht Hl. revert raw t M cache Ht. induction Hl as [|[k v] l Hv Hl IH]; intros raw t M cache Ht; cbn [commit_changes foldl]; [by exists raw, t, cache|].
  cbn [snd] in Hv. pose proof (sec_key_ok keccak (Z_to_be 32 k)) as Hk. destruct (Z.eqb_spec v 0) as [->|Hv0].
  - change (put_storage keccak M (k, 0)) with (delete (storage_key keccak k) M).
    destruct (tm_remove_ok keccak known Hh raw t M _ Ht Hk) as (raw1 & t1 & Hr & Ht1 & Hdb).
    unfold box_remove. cbn [bx_spec bx_raw raw_remove]. unfold stm_remove, sec_key. rewrite Hr. cbn [boxed].
    destruct (IH raw1 t1 _ (lru_insert cache k 0) Ht1) as (raw2 & t2 & c2 & Hc & Ht2 & Hdb2). exists raw2, t2, c2. by rewrite Hdb2, Hdb.
  - assert (put_storage keccak M (k, v) = <[storage_key keccak k := storage_rlp v]> M) as ->
      by (unfold put_storage; cbn [fst snd]; by rewrite (proj2 (Z.eqb_neq _ _))).
    rewrite encode_uint by done. cbn [infallible mbind outcome_bind]. destruct (storage_rlp_ok v Hv) as [Hb Hlen].
    destruct (tm_insert_ok keccak known Hh raw t M _ (storage_rlp v) Ht Hk) as (raw1 & t1 & Hr & Ht1 & Hdb); [by right|].
    unfold box_insert. cbn [bx_spec bx_raw raw_insert]. unfold stm_insert, sec_key. rewrite Hr. cbn [boxed].
    cbn [spec_map] in Ht1. rewrite (proj2 (Z.eqb_neq _ _)) in Ht1 by lia.
    destruct (IH raw1 t1 _ (lru_insert cache k v) Ht1) as (raw2 & t2 & c2 & Hc & Ht2 & Hdb2). exists raw2, t2, c2. by rewrite Hdb2, Hdb.
Qed.

Lemma commit_storage_ok acc d t M n :
  db_holds keccak known d (acc_storage_root acc) t M -> map_Forall (fun _ v => in_u 256 v) (acc_storage_changes acc) ->
  nodes_ok keccak known (put_changes keccak M (acc_storage_changes acc)) n -> room keccak d n ->
  exists cache d' t', let acc' := with_storage (keccak (enc keccak t')) cache ∅ acc in
    commit_storage keccak Secure acc d = Ok (acc', d') /\
    db_holds keccak known d' (keccak (enc keccak t')) t' (put_changes keccak M (acc_storage_changes acc)).
Proof.
  intros Hd Hch Hn Hr. unfold commit_storage, factory_from_existing.
  destruct (from_existing_ok keccak known Hh d _ t M Hd) as (raw & -> & Hdb & Ht). cbn [mbind outcome_bind].
  destruct (commit_changes_ok (map_to_list (acc_storage_changes acc)) raw t M (acc_storage_cache acc) Ht) as (raw1 & t1 & c1 & -> & Ht1 & Hdb1).
  { apply list.Forall_forall. intros [k v] Hin%elem_of_map_to_list. by apply Hch in Hin. }
  destruct (tm_root_ok keccak known Hh raw1 t1 _ n Ht1 Hn) as (raw2 & Hroot & _ & Hdh & _); [by rewrite Hdb1, Hdb|].
  unfold tm_root_op in Hroot. destruct (commit raw1) as [raw3| |] eqn:Hc; [|done..]. injection Hroot as Hrt ->.
  exists c1, (tm_db raw2), t1. split; [|done]. unfold drop_storage, box_drop, tm_drop. cbn [fst bx_raw]. rewrite Hc. cbn. by rewrite Hrt.
Qed.

(** ** Reading it back *)
Lemma db_holds_whole d root t M : db_holds keccak known d root t M -> trie_holds keccak (WholeDB d) root t M.
Proof.
  intros Hd. pose proof (db_holds_get keccak known Hh _ _ _ _ Hd) as Hg. destruct Hd. split; try done.
  - cbn. rewrite hl_contains by apply dh_db. by rewrite Hg.
  - intros e He. cbn. eapply (stored_covered keccak known Hh); [done|done| |done|done]. multiset_solver.
Qed.

Definition read_slot (M : contents) (k : Z) : outcome TrieError Z :=
  match M !! storage_key keccak k with Some rlp => infallible (@decode_bytes _ (uint_Decodable 32) rlp) | None => Ok 0 end.

Lemma storage_at_fresh acc d t M k : trie_holds keccak (WholeDB d) (acc_storage_root acc) t M ->
  fst (account_storage_at (clone_basic acc) (WholeDB d) k) = read_slot M k.
Proof.
  intros Ht. unfold account_storage_at, cached_storage_at, clone_basic. cbn [acc_storage_changes with_storage]. rewrite lookup_empty.
  destruct (lru_get_mut _ k) as [o c] eqn:Hg. assert (o = None) as ->.
  { destruct o as [v|]; [|done]. exfalso. eapply (lru_new_holds STORAGE_CACHE_ITEMS k v). apply lru_get_holds. cbn [acc_storage_cache with_storage] in Hg.
    unfold empty_storage_cache in Hg. by rewrite Hg. }
  cbn [acc_storage_root with_storage sec_trie_get whole_hashdb StateHashDB_hashdb].
  rewrite (sec_lookup_ok keccak (ho_word _ _ Hh) _ _ t M _ Ht). unfold read_slot, storage_key. destruct (M !! _) as [rlp|]; [|done].
  by destruct (decode_bytes rlp) as [v|[]|].
Qed.

Lemma put_changes_read M changes k :
  (forall k', is_Some (changes !! k') -> keccak (Z_to_be 32 k') = keccak (Z_to_be 32 k) -> k' = k) -> map_Forall (fun _ v => in_u 256 v) changes ->
  read_slot (put_changes keccak M changes) k = match changes !! k with Some v => Ok v | None => read_slot M k end.
Proof.
  intros Hk Hch. unfold read_slot, put_changes. rewrite put_storage_lookup; [|apply NoDup_fst_map_to_list| |apply (ho_word _ _ Hh)].
  - rewrite list_to_map_to_list. destruct (changes !! k) as [v|] eqn:Hv; [|done]. destruct (Z.eqb_spec v 0) as [->|]; [done|].
    rewrite decode_uint; [done|]. by apply Hch in Hv.
  - intros k' ([k0 v] & -> & Hin%elem_of_map_to_list)%list_elem_of_fmap. apply Hk. by exists v.
Qed.
End commit.
