(* ===== verification/DatabaseTheorems.v ===== *)
(** * Theorems on the database of the state

    Accounts do not disturb each other's nodes; committing an account writes its
    storage changes to its trie; and a database that holds the tries of a state
    meets the assumptions of the theorems on [State]. *)
From stdpp Require Import base list numbers gmap gmultiset.
From S2P Require Import Prelude Words JumpDests RlpStream RlpEncoding RlpDecode RlpViews RlpImpls RlpCodecs Account Nibbles HashDb AccountDb Trie TrieNode TrieDb.
From S2P Require Import TrieDbMut TrieRep TrieCommit TrieHash TrieMaps TrieRefine TrieFactory TrieWorld State StateSpec StateWorld StateDb AccountCommit.

(** C23: the views of two accounts on one database do not disturb each other.  A
    view changes a key in a way that can be undone and keeps its first 96 bits;
    an insertion or removal through the view of one account changes neither its
    own other entries nor, for an account whose hash differs from its in the
    other 160 bits, the entry under the same hash, nor any other whose place is
    not the same; and what is inserted in an empty place is found there. *)
Theorem account_views_isolated keccak (d : MemoryDB) a k d' b k2 :
  in_u 256 k -> in_u 256 k2 -> view_write keccak d a k d' ->
  let get := mangled_get (H := MemoryDB_store keccak) in
  combine_key a (combine_key a k) = k /\ take 12 (Z_to_be 32 (combine_key a k)) = take 12 (Z_to_be 32 k) /\
  (k2 <> k -> get d' a k2 = get d a k2) /\
  (drop 12 (Z_to_be 32 a) <> drop 12 (Z_to_be 32 b) -> get d' b k = get d b k) /\
  (combine_key b k2 <> combine_key a k -> get d' b k2 = get d b k2) /\
  (forall v, md_data d !! combine_key a (keccak v) = None -> combine_key a (keccak v) <> KECCAK_NULL_RLP ->
    v <> NULL_RLP -> keccak v <> KECCAK_NULL_RLP ->
    exists d2, adm_insert (H := MemoryDB_store keccak) keccak (mkAccountDBMut d a) v = Ok (keccak v, mkAccountDBMut d2 a) /\ get d2 a (keccak v) = Some v).
Proof.
  intros Hk Hk2 Hw get. split; [by apply combine_key_twice|]. split; [apply combine_key_prefix|]. split; [|split; [|split]].
  - intros Hne. apply mangled_get_same. eapply view_write_other; [exact Hw|]. intros He. apply Hne. by eapply combine_key_inj.
  - intros Hne. apply mangled_get_same. eapply view_write_other; [exact Hw|]. intros He. apply Hne. symmetry. by eapply combine_key_apart.
  - intros Hne. apply mangled_get_same. by eapply view_write_other.
  - intros v Hn Hnn Hv Hkv. unfold adm_insert. rewrite bool_decide_eq_false_2 by done. cbn [hdb_emplace MemoryDB_store adm_db adm_address_hash].
    unfold md_emplace. rewrite bool_decide_eq_false_2 by done. unfold md_add. rewrite Hn. eexists. split; [reflexivity|].
    unfold get, mangled_get. rewrite (proj2 (Z.eqb_neq _ _)) by done. cbn [hdb_get MemoryDB_store]. unfold md_get.
    rewrite (proj2 (Z.eqb_neq _ _)) by done. cbn [md_data]. by rewrite lookup_insert_eq.
Qed.

Section commit.
Context {DB : Type} {H : HashStore DB} (keccak : bytes -> Z) {L : HashStoreLaws DB H keccak} (known : bytes -> Prop).
Context {C : Type} `{LruLaws C}.
#[local] Existing Instance whole_hashdb.

(** C22: committing the storage of an account writes its changes to its trie: it
    succeeds, leaves no changes and the rest of the account, and the database
    holds under the new root the old entries with the changes put over them,
    zeros removed; an account loaded with that root reads at every key the
    changed value, or what it read before.  The hash is injective on the nodes
    and on the keys in question. *)
Theorem commit_storage_correct (acc : Account C) d t M n :
  hash_ok keccak known -> db_holds keccak known d (acc_storage_root acc) t M -> map_Forall (fun _ v => in_u 256 v) (acc_storage_changes acc) ->
  nodes_ok keccak known (put_changes keccak M (acc_storage_changes acc)) n -> room keccak d n ->
  exists root' cache d' t', let acc' := with_storage root' cache ∅ acc in
    commit_storage keccak Secure acc d = Ok (acc', d') /\
    db_holds keccak known d' root' t' (put_changes keccak M (acc_storage_changes acc)) /\
    forall k, (forall k', is_Some (acc_storage_changes acc !! k') -> keccak (Z_to_be 32 k') = keccak (Z_to_be 32 k) -> k' = k) ->
      fst (account_storage_at (H0 := whole_hashdb keccak) (clone_basic acc') (WholeDB d') k) =
      match acc_storage_changes acc !! k with
      | Some v => Ok v
      | None => fst (account_storage_at (H0 := whole_hashdb keccak) (clone_basic acc) (WholeDB d) k)
      end.
Proof.
  intros Hh Hd Hch Hn Hr. destruct (commit_storage_ok keccak known Hh acc d t M n Hd Hch Hn Hr) as (cache & d' & t' & Hc & Hd').
  eexists _, cache, d', t'. split; [exact Hc|]. split; [exact Hd'|]. intros k Hk.
  rewrite (storage_at_fresh keccak known Hh (with_storage (keccak (enc keccak t')) cache ∅ acc) d' t' _ k (db_holds_whole keccak known Hh _ _ _ _ Hd')).
  rewrite (storage_at_fresh keccak known Hh acc d t M k (db_holds_whole keccak known Hh _ _ _ _ Hd)).
  by apply (put_changes_read keccak known Hh).
Qed.
End commit.

(** C21: the trie code and the account views meet what [State] was proved
    against: on a database with the tries of the accounts and of their storage,
    and their code, every account, storage slot and code can be read, as
    [State] asks for it, and the values are those of the tries.  The entries of
    the database differ in the first 96 bits of their keys ([prefixes_apart]),
    the part of a key that account views leave alone. *)
Theorem state_database_complete keccak (d : MemoryDB) root accounts storage :
  (forall b, in_u 256 (keccak b)) -> state_stored keccak d root accounts storage ->
  let db := WholeDB d : StateHashDB MemoryDB in
  let H := StateHashDB_hashdb (H := MemoryDB_store keccak) keccak in
  db_complete keccak db root (codes_of d) /\ (forall a, db_account db root a = accounts a) /\
  forall a b k, accounts a = Some b -> db_storage keccak db root a k = storage a k.
Proof.
  intros Hw Hs db H. split; [by apply (stored_complete keccak Hw d root accounts storage)|].
  split; [by apply (stored_account keccak Hw d root accounts storage)|by apply (stored_db_storage keccak Hw d root accounts storage)].
Qed.

(** ** A database with one account, made by the code *)
Definition addr_hash : Z := toy_hash (Z_to_be 20 1).
Definition other_hash : Z := toy_hash (Z_to_be 20 2).
Definition the_code : bytes := [0x60; 0x01].

(** Slot 1 is set to 5, and slot 2 to zero. *)
Definition changes : gmap Z Z := {[1 := 5; 2 := 0]}.
Definition new_account : Account (gmap Z Z) :=
  with_storage KECCAK_NULL_RLP ∅ changes (account_init_code toy_hash the_code (new_basic 1000 3)).

Definition slot1 : bytes := storage_key toy_hash 1.
Definition slot_tree : trie := TLeaf (to_nibs slot1) [5].
Definition slot_nodes : list bytes := [NULL_RLP; enc toy_hash slot_tree].

Lemma slot_hash_ok : hash_ok toy_hash (fun b => b ∈ slot_nodes).
Proof. apply toy_hash_ok; [by left|]. apply (bool_decide_unpack _). vm_compute. reflexivity. Qed.

Lemma slot_changes : put_changes toy_hash ∅ changes = list_to_map [(slot1, [5])].
Proof. apply (bool_decide_unpack _). vm_compute. reflexivity. Qed.

Lemma slot_nodes_ok : nodes_ok toy_hash (fun b => b ∈ slot_nodes) (put_changes toy_hash ∅ changes) 1.
Proof.
  rewrite slot_changes. apply (nodes_ok_list slot_tree); [by right|apply (bool_decide_unpack _); vm_compute; reflexivity|vm_compute; reflexivity| |constructor|vm_compute; intros [=]].
  right. by left.
Qed.

Lemma account_views_isolated_witness :
  let get := mangled_get (H := MemoryDB_store toy_hash) in
  let d := MemoryDB_new in let d' := mkMemoryDB {[combine_key addr_hash 7 := ([5], 1)]} in
  combine_key addr_hash (combine_key addr_hash 7) = 7 /\ get d' other_hash 7 = get d other_hash 7.
Proof.
  intros get d d'.
  assert (view_write toy_hash d addr_hash 7 d') as Hw by (apply (write_emplace _ _ _ _ _ [5]); vm_compute; reflexivity).
  destruct (account_views_isolated toy_hash d addr_hash 7 d' other_hash 8 ltac:(done) ltac:(done) Hw) as (Ht & _ & _ & Hb & _).
  split; [exact Ht|]. apply Hb. vm_compute. intros [=].
Defined.

Lemma commit_storage_correct_witness : exists root' cache d',
  let acc' := with_storage root' cache ∅ new_account in
  commit_storage toy_hash Secure new_account MemoryDB_new = Ok (acc', d') /\
  fst (account_storage_at (H0 := whole_hashdb toy_hash) (clone_basic acc') (WholeDB d') 1) = Ok 5.
Proof.
  destruct (commit_storage_correct toy_hash (fun b => b ∈ slot_nodes) new_account MemoryDB_new TEmpty ∅ 1) as (r & c & d' & t' & Hc & _ & Hk).
  - apply slot_hash_ok.
  - apply (db_holds_empty toy_hash _ slot_hash_ok), toy_clean, (ho_known _ _ slot_hash_ok).
  - apply (bool_decide_unpack _). vm_compute. reflexivity.
  - apply slot_nodes_ok.
  - by apply toy_room.
  - exists r, c, d'. split; [exact Hc|]. rewrite Hk; [reflexivity|]. intros k' [v Hv] He.
    change (acc_storage_changes new_account) with changes in Hv. unfold changes in Hv.
    destruct (decide (k' = 1)) as [|H1]; [done|]. rewrite lookup_insert_ne in Hv by done. apply lookup_singleton_Some in Hv as [<- _].
    exfalso. revert He. vm_compute. intros [=].
Defined.

(** The storage and the code are committed through the view of the account, and
    the account is inserted into the trie of the state. *)
Definition view_store : HashStore (AccountDBMut MemoryDB) := AccountDBMut_store toy_hash.
Definition committed : outcome (TrieError * (Account (gmap Z Z) * AccountDBMut MemoryDB)) (Account (gmap Z Z) * AccountDBMut MemoryDB) :=
  '(acc, view) ← commit_storage (H := view_store) toy_hash Secure new_account (mkAccountDBMut MemoryDB_new addr_hash);
  infallible (commit_code (H := view_store) acc view).

Definition basic_of {E D} (r : outcome E (Account (gmap Z Z) * D)) : BasicAccount :=
  match r with
  | Ok (acc, _) => mkBasic (acc_nonce acc) (acc_balance acc) (acc_storage_root acc) (acc_code_hash acc)
  | _ => mkBasic 0 0 0 0
  end.
Definition the_account : BasicAccount := Eval vm_compute in basic_of committed.
Definition the_rlp : bytes := Eval vm_compute in run_bytes (account_rlp (Account_from (C := gmap Z Z) the_account)).

Definition insert_account {E A} (r : outcome E (A * AccountDBMut MemoryDB)) (rlp : bytes) :
    outcome (TrieError * TrieDBMut MemoryDB) (TrieDBMut MemoryDB) :=
  match r with
  | Ok (_, view) => '(_, t) ← stm_insert toy_hash (Z_to_be 20 1) rlp (TrieDBMut_new (adm_db view)); infallible (tm_drop t)
  | _ => Panic
  end.
Definition state_of (r : outcome (TrieError * TrieDBMut MemoryDB) (TrieDBMut MemoryDB)) : MemoryDB * Z :=
  match r with Ok t => (tm_db t, tm_root t) | _ => (MemoryDB_new, 0) end.
Definition the_db : MemoryDB := Eval vm_compute in fst (state_of (insert_account committed the_rlp)).
Definition the_root : Z := Eval vm_compute in snd (state_of (insert_account committed the_rlp)).

Definition account_tree : trie := TLeaf (to_nibs (sec toy_hash (Z_to_be 20 1))) the_rlp.
Definition the_accounts (a : Z) : option BasicAccount :=
  if decide (sec toy_hash (Z_to_be 20 a) = sec toy_hash (Z_to_be 20 1)) then Some the_account else None.
Definition the_storage (a k : Z) : Z := if decide (sec toy_hash (Z_to_be 32 k) = slot1) then 5 else 0.

(** A database whose entries have different prefixes. *)
Lemma prefixes_apart_list d :
  forallb (fun '(k1, v1) => forallb (fun '(k2, v2) => bool_decide (prefix_of k1 = prefix_of k2 -> v1 = v2))
    ((KECCAK_NULL_RLP, NULL_RLP) :: map (fun '(k, (v, _)) => (k, v)) (map_to_list (md_data d))))
    ((KECCAK_NULL_RLP, NULL_RLP) :: map (fun '(k, (v, _)) => (k, v)) (map_to_list (md_data d))) = true -> prefixes_apart d.
Proof.
  intros Hall k1 k2 v1 v2 H1 H2 Hp.
  assert (forall k v, md_get d k = Some v -> In (k, v) ((KECCAK_NULL_RLP, NULL_RLP) :: map (fun '(k, (v, _)) => (k, v)) (map_to_list (md_data d)))) as Hin.
  { intros k v. unfold md_get. destruct (Z.eqb_spec k KECCAK_NULL_RLP) as [->|]; [intros [= <-]; by left|].
    destruct (md_data d !! k) as [[w rc]|] eqn:Hl; [|done]. destruct (0 <? rc); [|done]. intros [= <-]. right.
    apply (in_map (fun '(k, (v, _)) => (k, v)) _ (k, (w, rc))). by apply list_elem_of_In, elem_of_map_to_list. }
  rewrite forallb_forall in Hall. specialize (Hall _ (Hin _ _ H1)). cbn beta iota in Hall. rewrite forallb_forall in Hall.
  specialize (Hall _ (Hin _ _ H2)). cbn beta iota in Hall. by apply bool_decide_eq_true_1 in Hall; auto.
Qed.

(** A leaf that is there is a trie of one entry. *)
Lemma leaf_holds {DB} {H : HashStore DB} (d : DB) root k v :
  TrieMaps.entry_ok k v -> hdb_contains d root = true -> hdb_get d root = Some (enc toy_hash (TLeaf (to_nibs k) v)) ->
  trie_holds toy_hash d root (TLeaf (to_nibs k) v) {[k := v]}.
Proof.
  intros He Hc Hg. split; [by right| |by apply map_Forall_singleton|done|done|by intros e Hin%not_elem_of_nil].
  assert ({[k := v]} = (list_to_map [(k, v)] : contents)) as -> by (cbn; by rewrite insert_empty).
  apply denotes_list; [apply NoDup_singleton|]. cbn. by rewrite as_nibbles_ok.
Qed.

Lemma the_state_stored : state_stored toy_hash the_db the_root the_accounts the_storage.
Proof.
  split.
  - apply prefixes_apart_list. vm_compute. reflexivity.
  - exists account_tree, {[sec toy_hash (Z_to_be 20 1) := the_rlp]}. split.
    + apply leaf_holds; [apply toy_entry; [vm_compute; reflexivity..|split; vm_compute; reflexivity]|vm_compute; reflexivity..].
    + intros a. unfold the_accounts. case_decide as Hd; [|rewrite lookup_singleton_ne by exact (not_eq_sym Hd); reflexivity].
      rewrite Hd, lookup_singleton_eq. exists the_account. split; [vm_compute; reflexivity|done].
  - intros a b. unfold the_accounts. case_decide as Hd; [|done]. intros [= <-]. apply be_32_inj in Hd; [|apply toy_word..].
    exists slot_tree, {[slot1 := [5]]}. split.
    + unfold view_of. rewrite Hd. apply leaf_holds; [apply toy_entry; [vm_compute; reflexivity..|split; vm_compute; reflexivity]|vm_compute; reflexivity..].
    + intros k. unfold the_storage. case_decide as Hk; [rewrite Hk, lookup_singleton_eq; vm_compute; reflexivity|rewrite lookup_singleton_ne by exact (not_eq_sym Hk); reflexivity].
  - intros a b. unfold the_accounts. case_decide as Hd; [|done]. intros [= <-] _. apply be_32_inj in Hd; [|apply toy_word..].
    exists the_code. split; [done|]. unfold view_of. rewrite Hd. vm_compute. reflexivity.
Qed.

Lemma state_database_complete_witness :
  db_complete (H := StateHashDB_hashdb (H := MemoryDB_store toy_hash) toy_hash) toy_hash (WholeDB the_db) the_root (codes_of the_db) /\
  db_storage (H := StateHashDB_hashdb (H := MemoryDB_store toy_hash) toy_hash) toy_hash (WholeDB the_db) the_root 1 1 = 5.
Proof.
  destruct (state_database_complete toy_hash the_db the_root the_accounts the_storage toy_word the_state_stored) as (Hc & _ & Hs).
  split; [exact Hc|]. etrans; [apply (Hs 1 the_account 1); vm_compute; reflexivity|vm_compute; reflexivity].
Defined.
