(* ===== verification/Substate.v ===== *)
(** * The substate of a transaction ([ethcore/src/state/substate.rs])

    What a transaction leaves to be done when it is finished: accounts to be
    removed, accounts touched, logs, the refund counter and the contracts it
    created. *)
From stdpp Require Import base list numbers gmap.
From S2P Require Import Prelude Words Vm State.

(** [types/log_entry.rs] *)
Record LogEntry := mkLog { log_address : Address; log_topics : list H256; log_data : bytes }.

Record Substate := mkSubstate {
  suicides : gset Z;
  touched : gset Z;
  logs : list LogEntry;
  sstore_clears_count : U256;
  contracts_created : list Address;
}.

Definition Substate_new : Substate := mkSubstate ∅ ∅ [] 0 [].

Definition accrue {E} (self s : Substate) : outcome E Substate :=
  n ← add_chk 256 (sstore_clears_count self) (sstore_clears_count s);
  Ok (mkSubstate (suicides self ∪ suicides s) (touched self ∪ touched s) (logs self ++ logs s) n
        (contracts_created self ++ contracts_created s)).

#[global] Instance CleanDustMode_eq_dec : EqDecision CleanDustMode.
Proof. solve_decision. Defined.

(** The mode borrows the set of touched accounts: [with_touched] is the substate
    when the borrow ends. *)
Definition to_cleanup_mode (self : Substate) (schedule : Schedule) : CleanupMode :=
  match negb (bool_decide (kill_dust schedule = DustOff)), no_empty schedule, kill_empty schedule with
  | false, false, _ => ForceCreate
  | false, true, false => NoEmpty
  | false, true, true | true, _, _ => TrackTouched (touched self)
  end.

Definition with_touched (mode : CleanupMode) (self : Substate) : Substate :=
  match mode with
  | TrackTouched t => mkSubstate (suicides self) t (logs self) (sstore_clears_count self) (contracts_created self)
  | _ => self
  end.
