(* ===== verification/Builtin.v ===== *)
(** * Built-in contracts ([ethcore/src/builtin.rs], [util/bytes/src/lib.rs])

    Output buffers, the pricing of built-in contracts, and those of them that
    need no cryptography: the identity and modular exponentiation.  The hash
    functions and the recovery of a public key from a signature are parameters. *)
From Stdlib Require Import String.
From stdpp Require Import base list numbers.
From S2P Require Import Prelude Words.

(** ** [BytesRef] *)
Inductive BytesRef : Type := Flexible (data : bytes) | Fixed (data : bytes).

Definition bytes_of (r : BytesRef) : bytes := match r with Flexible b | Fixed b => b end.

(** [Vec::resize(n, 0)] *)
Definition resize (data : bytes) (n : Z) : bytes :=
  if n <=? len data then take (Z.to_nat n) data else data ++ replicate (Z.to_nat (n - len data)) 0.

(** Bytes are written one by one from [offset] on. *)
Definition overwrite (data : bytes) (offset : Z) (input : bytes) : bytes :=
  take (Z.to_nat offset) data ++ input ++ drop (Z.to_nat (offset + len input)) data.

Definition bytes_write (self : BytesRef) (offset : Z) (input : bytes) : Z * BytesRef :=
  match self with
  | Flexible data =>
      let wrote := len input + (if offset <? len data then 0 else offset - len data) in
      (wrote, Flexible (resize data offset ++ input))
  | Fixed data =>
      if offset <? len data then
        let max := Z.min (len data - offset) (len input) in
        (max, Fixed (overwrite data offset (take (Z.to_nat max) input)))
      else (0, self)
  end.

(** ** Prices *)
Inductive Pricer : Type :=
  | Linear (base word : Z)
  | ModexpPricer (divisor : Z)
  | AltBn128PairingPricer (base per_pair : Z).

(** [reader.read_exact] on the input extended with zeros: the [n] bytes from
    [pos] on. *)
Definition read_padded (input : bytes) (pos n : Z) : bytes :=
  let got := take (Z.to_nat n) (drop (Z.to_nat pos) input) in
  got ++ replicate (Z.to_nat (n - len got)) 0.

Definition adjusted_exp_len {E} (l : Z) (exp_low : U256) : outcome E Z :=
  let bit_index := if exp_low =? 0 then 0 else 255 - (256 - u256_bits exp_low) in
  if l <=? 32 then Ok bit_index
  else d ← sub_chk l 32; m ← mul_chk 64 8 d; add_chk 64 m bit_index.

Definition mult_complexity {E} (x : Z) : outcome E Z :=
  if x <=? 64 then mul_chk 64 x x
  else if x <=? 1024 then
    sq ← mul_chk 64 x x; l ← mul_chk 64 96 x; s ← add_chk 64 (sq / 4) l; sub_chk s 3072
  else
    sq ← mul_chk 64 x x; l ← mul_chk 64 480 x; s ← add_chk 64 (sq / 16) l; sub_chk s 199680.

Definition modexp_cost {E} (divisor : Z) (input : bytes) : outcome E U256 :=
  let base_len := be_to_Z (read_padded input 0 32) in
  let exp_len := be_to_Z (read_padded input 32 32) in
  let mod_len := be_to_Z (read_padded input 64 32) in
  if (mod_len =? 0) && (base_len =? 0) then Ok 0
  else
    let max_len := (2 ^ 32 - 1) / 2 in
    if (max_len <? base_len) || (max_len <? mod_len) || (max_len <? exp_len) then Ok (2 ^ 256 - 1)
    else
      let m := Z.max mod_len base_len in
      let exp_low :=
        if len input <=? base_len + 96 then 0
        else
          let l := Z.min exp_len 32 in
          be_to_Z (replicate (Z.to_nat (32 - l)) 0 ++ read_padded input (96 + base_len) l) in
      adjusted ← adjusted_exp_len exp_len exp_low;
      c ← mult_complexity m;
      let '(gas, overflow) := overflowing_mul 64 c (Z.max adjusted 1) in
      if overflow then Ok (2 ^ 256 - 1)
      else if divisor =? 0 then Panic
      else Ok (gas / divisor).

Definition cost {E} (p : Pricer) (input : bytes) : outcome E U256 :=
  match p with
  | Linear base word =>
      l ← add_chk 64 (len input) 31; w ← mul_chk 256 word (l / 32); add_chk 256 base w
  | AltBn128PairingPricer base per_pair => w ← mul_chk 256 per_pair (len input / 192); add_chk 256 base w
  | ModexpPricer divisor => modexp_cost divisor input
  end.

(** ** Modular exponentiation *)

(** The loop [while !exp.is_zero()]; [None] when the fuel runs out. *)
Fixpoint modexp_loop (fuel : nat) (result base exp modulus : Z) : option Z :=
  if exp =? 0 then Some result
  else
    match fuel with
    | O => None
    | S fuel =>
        let result := if Z.odd exp then (result * base) mod modulus else result in
        modexp_loop fuel result ((base * base) mod modulus) (Z.shiftr exp 1) modulus
    end.

Definition modexp (base exp modulus : Z) : option Z :=
  if modulus <=? 1 then Some 0
  else if exp =? 0 then Some 1
  else if base =? 0 then Some 0
  else
    let base := base mod modulus in
    if base =? 0 then Some 0
    else modexp_loop (Z.to_nat (Z.log2 exp + 1)) 1 base exp modulus.

(** [BigUint::to_bytes_be]: no leading zeros, but zero is one byte. *)
Definition to_bytes_be (x : Z) : bytes := Z_to_be (Z.to_nat (Z.log2 x / 8 + 1)) x.

(** ** Signatures ([ethkey/src/signature.rs]) *)
Definition is_low_s (s : U256) : bool := s <=? 0x7FFFFFFFFFFFFFFFFFFFFFFFFFFFFFFF5D576E7357A4501DDFE92F46681B20A0.

Definition is_valid (r s v : U256) : bool :=
  (v <=? 1) &&
  (r <? 0xfffffffffffffffffffffffffffffffebaaedce6af48a03bbfd25e8cd0364141) && (1 <=? r) &&
  (s <? 0xfffffffffffffffffffffffffffffffebaaedce6af48a03bbfd25e8cd0364141) && (1 <=? s).

(** ** Execution *)
Section natives.
Context (sha256 ripemd160 : bytes -> bytes) (keccak : bytes -> H256)
  (ec_recover : H256 -> H256 -> Z -> H256 -> option bytes).

Definition identity_execute (input : bytes) (output : BytesRef) : BytesRef := snd (bytes_write output 0 input).

Definition sha256_execute (input : bytes) (output : BytesRef) : BytesRef := snd (bytes_write output 0 (sha256 input)).

Definition ripemd160_execute (input : bytes) (output : BytesRef) : BytesRef :=
  snd (bytes_write output 0 (replicate 12 0 ++ ripemd160 input)).

Definition ecrecover_execute (i : bytes) (output : BytesRef) : BytesRef :=
  let input := read_padded i 0 128 in
  let hash := be_to_Z (read_padded input 0 32) in
  let v := be_to_Z (read_padded input 32 32) in
  let r := be_to_Z (read_padded input 64 32) in
  let s := be_to_Z (read_padded input 96 32) in
  if (v =? 27) || (v =? 28) then
    if is_valid r s (v - 27) then
      match ec_recover r s (v - 27) hash with
      | Some p =>
          let output := snd (bytes_write output 0 (replicate 12 0)) in
          snd (bytes_write output 12 (drop 12 (Z_to_be 32 (keccak p))))
      | None => output
      end
    else output
  else output.

(** [vec![0; max(..)]] is beyond a vector's capacity from 2^63 on. *)
Definition modexp_execute {E} (input : bytes) (output : BytesRef) : outcome E BytesRef :=
  let base_len := low_u64 (be_to_Z (read_padded input 0 32)) in
  let exp_len := low_u64 (be_to_Z (read_padded input 32 32)) in
  let mod_len := low_u64 (be_to_Z (read_padded input 64 32)) in
  r ← (if (base_len =? 0) && (mod_len =? 0) then Ok 0
       else if 2 ^ 63 <=? Z.max mod_len (Z.max base_len exp_len) then Panic
       else
         let base := be_to_Z (read_padded input 96 base_len) in
         let exp := be_to_Z (read_padded input (96 + base_len) exp_len) in
         let modulus := be_to_Z (read_padded input (96 + base_len + exp_len) mod_len) in
         match modexp base exp modulus with Some r => Ok r | None => Panic end);
  let b := to_bytes_be r in
  if len b <=? mod_len then Ok (snd (bytes_write output (mod_len - len b) b)) else Ok output.

(** The elliptic-curve built-ins call an external library. *)
Context (bn128_add bn128_mul bn128_pairing : bytes -> BytesRef -> outcome string BytesRef).

(** [ethereum_builtin]: an unknown name is a panic. *)
Definition ethereum_builtin {E} (name : string) : outcome E (bytes -> BytesRef -> outcome string BytesRef) :=
  if String.eqb name "identity" then Ok (fun i o => Ok (identity_execute i o))
  else if String.eqb name "ecrecover" then Ok (fun i o => Ok (ecrecover_execute i o))
  else if String.eqb name "sha256" then Ok (fun i o => Ok (sha256_execute i o))
  else if String.eqb name "ripemd160" then Ok (fun i o => Ok (ripemd160_execute i o))
  else if String.eqb name "modexp" then Ok modexp_execute
  else if String.eqb name "alt_bn128_add" then Ok bn128_add
  else if String.eqb name "alt_bn128_mul" then Ok bn128_mul
  else if String.eqb name "alt_bn128_pairing" then Ok bn128_pairing
  else Panic.

(** ** The built-in contract: price, implementation, activation *)
Record Builtin := mkBuiltin {
  pricer : Pricer;
  native : bytes -> BytesRef -> outcome string BytesRef;
  activate_at : Z;
}.

(** [From<ethjson::spec::Builtin>], with the pricing of the specification as a
    [Pricer]. *)
Definition Builtin_from {E} (name : string) (pricing : Pricer) (at_ : option Z) : outcome E Builtin :=
  let p := match pricing with ModexpPricer divisor => ModexpPricer (if divisor =? 0 then 10 else divisor) | p => p end in
  f ← ethereum_builtin name; Ok (mkBuiltin p f (default 0 at_)).
End natives.

Definition is_active (self : Builtin) (at_ : Z) : bool := activate_at self <=? at_.
