(* ===== verification/EthMachine.v ===== *)
(** * The chain's rules ([ethcore/src/machine.rs], [ethcore/src/spec/spec.rs])

    The parameters of a chain, the cost schedule in force at a block, the
    built-in contracts, and the gas limit a new block proposes. *)
From Stdlib Require Import String.
From stdpp Require Import base list numbers gmap.
From S2P Require Import Prelude Words Vm Builtin.

(** ** [CommonParams] *)
Record CommonParams := mkCommonParams {
  p_account_start_nonce : U256;
  maximum_extra_data_size : Z;
  network_id : Z;
  chain_id : Z;
  subprotocol_name : string;
  min_gas_limit : U256;
  fork_block : option (Z * H256);
  eip98_transition : Z;
  eip658_transition : Z;
  eip155_transition : Z;
  validate_receipts_transition : Z;
  validate_chain_id_transition : Z;
  eip86_transition : Z;
  eip140_transition : Z;
  eip210_transition : Z;
  eip210_contract_address : Address;
  eip210_contract_code : bytes;
  eip210_contract_gas : U256;
  eip211_transition : Z;
  eip214_transition : Z;
  dust_protection_transition : Z;
  nonce_cap_increment : Z;
  remove_dust_contracts : bool;
  p_wasm : bool;
  gas_limit_bound_divisor : U256;
  registrar : Address;
  node_permission_contract : option Address;
  max_code_size : Z;
  transaction_permission_contract : option Address;
}.

(** The fields [update_schedule] assigns. *)
Definition set_rules (create2 revert static_call return_data : bool) (blockhash : Z) (dust : CleanDustMode) (s : Schedule) :
    Schedule := {|
  exceptional_failed_code_deposit := exceptional_failed_code_deposit s;
  have_delegate_call := have_delegate_call s;
  have_create2 := create2;
  have_revert := revert;
  stack_limit := stack_limit s;
  max_depth := max_depth s;
  tier_step_gas := tier_step_gas s;
  exp_gas := exp_gas s;
  exp_byte_gas := exp_byte_gas s;
  sha3_gas := sha3_gas s;
  sha3_word_gas := sha3_word_gas s;
  sload_gas := sload_gas s;
  sstore_set_gas := sstore_set_gas s;
  sstore_reset_gas := sstore_reset_gas s;
  sstore_refund_gas := sstore_refund_gas s;
  jumpdest_gas := jumpdest_gas s;
  log_gas := log_gas s;
  log_data_gas := log_data_gas s;
  log_topic_gas := log_topic_gas s;
  create_gas := create_gas s;
  call_gas := call_gas s;
  call_stipend := call_stipend s;
  call_value_transfer_gas := call_value_transfer_gas s;
  call_new_account_gas := call_new_account_gas s;
  suicide_refund_gas := suicide_refund_gas s;
  memory_gas := memory_gas s;
  quad_coeff_div := quad_coeff_div s;
  create_data_gas := create_data_gas s;
  create_data_limit := create_data_limit s;
  tx_gas := tx_gas s;
  tx_create_gas := tx_create_gas s;
  tx_data_zero_gas := tx_data_zero_gas s;
  tx_data_non_zero_gas := tx_data_non_zero_gas s;
  copy_gas := copy_gas s;
  extcodesize_gas := extcodesize_gas s;
  extcodecopy_base_gas := extcodecopy_base_gas s;
  balance_gas := balance_gas s;
  suicide_gas := suicide_gas s;
  suicide_to_new_account_cost := suicide_to_new_account_cost s;
  sub_gas_cap_divisor := sub_gas_cap_divisor s;
  no_empty := no_empty s;
  kill_empty := kill_empty s;
  blockhash_gas := blockhash;
  have_static_call := static_call;
  have_return_data := return_data;
  kill_dust := dust;
  eip86 := eip86 s;
  wasm := wasm s;
|}.

Definition update_schedule (self : CommonParams) (block_number : Z) (s : Schedule) : Schedule :=
  set_rules (eip86_transition self <=? block_number) (eip140_transition self <=? block_number)
    (eip214_transition self <=? block_number) (eip211_transition self <=? block_number)
    (if eip210_transition self <=? block_number then 800 else blockhash_gas s)
    (if dust_protection_transition self <=? block_number
     then if remove_dust_contracts self then WithCodeAndStorage else BasicOnly
     else kill_dust s) s.

Definition params_schedule (self : CommonParams) (block_number : Z) : Schedule :=
  update_schedule self block_number (new_post_eip150 (max_code_size self) true true true).

Definition contains_bugfix_hard_fork (self : CommonParams) : bool :=
  negb (eip98_transition self =? 0) && negb (eip155_transition self =? 0) &&
  negb (validate_receipts_transition self =? 0) && negb (eip86_transition self =? 0) &&
  negb (eip140_transition self =? 0) && negb (eip210_transition self =? 0) &&
  negb (eip211_transition self =? 0) && negb (eip214_transition self =? 0) &&
  negb (validate_chain_id_transition self =? 0) && negb (dust_protection_transition self =? 0).

(** ** The machine *)
Record EthashExtensions := mkEthash {
  homestead_transition : Z;
  eip150_transition : Z;
  eip160_transition : Z;
  eip161abc_transition : Z;
  eip161d_transition : Z;
  dao_hardfork_transition : Z;
  dao_hardfork_beneficiary : Address;
  dao_hardfork_accounts : list Address;
}.

(** [schedule_rules], a closure over the schedule being built, is a function. *)
Record EthereumMachine := mkEthMachine {
  mc_params : CommonParams;
  mc_builtins : gmap Z Builtin;
  ethash_extensions : option EthashExtensions;
  schedule_rules : option (Schedule -> Z -> Schedule);
}.

Definition schedule (self : EthereumMachine) (block_number : Z) : Schedule :=
  let s :=
    match ethash_extensions self with
    | None => params_schedule (mc_params self) block_number
    | Some ext =>
        if block_number <? homestead_transition ext then new_frontier
        else if block_number <? eip150_transition ext then new_homestead
        else
          let max_code_size :=
            if eip161abc_transition ext <=? block_number then max_code_size (mc_params self) else 2 ^ 64 - 1 in
          update_schedule (mc_params self) block_number
            (new_post_eip150 max_code_size (eip160_transition ext <=? block_number)
               (eip161abc_transition ext <=? block_number) (eip161d_transition ext <=? block_number))
    end in
  match schedule_rules self with Some rules => rules s block_number | None => s end.

(** Only active built-ins are returned. *)
Definition builtin (self : EthereumMachine) (a : Address) (block_number : Z) : option Builtin :=
  match mc_builtins self !! a with
  | Some b => if is_active b block_number then Some b else None
  | None => None
  end.

Definition machine_start_nonce {E} (self : EthereumMachine) (block : Z) : outcome E U256 :=
  let params := mc_params self in
  if dust_protection_transition params <=? block then mul_chk 256 (nonce_cap_increment params) block
  else Ok (p_account_start_nonce params).

Definition signing_chain_id (self : EthereumMachine) (env_info : EnvInfo) : option Z :=
  if eip155_transition (mc_params self) <=? number env_info then Some (chain_id (mc_params self)) else None.

Definition create_address_scheme (self : EthereumMachine) (number : Z) : CreateContractAddress :=
  if eip86_transition (mc_params self) <=? number then FromCodeHash else FromSenderAndNonce.

Definition supports_wasm (self : EthereumMachine) : bool := p_wasm (mc_params self).

(** ** The gas limit of a new block *)
Definition PARITY_GAS_LIMIT_DETERMINANT : U256 := 37.

Definition round_block_gas_limit {E} (gas_limit lower_limit upper_limit : U256) : outcome E U256 :=
  d ← sub_chk PARITY_GAS_LIMIT_DETERMINANT (gas_limit mod PARITY_GAS_LIMIT_DETERMINANT);
  increased_gas_limit ← add_chk 256 gas_limit d;
  if upper_limit <? increased_gas_limit then
    decreased_gas_limit ← sub_chk increased_gas_limit PARITY_GAS_LIMIT_DETERMINANT;
    Ok (if decreased_gas_limit <? lower_limit then gas_limit else decreased_gas_limit)
  else Ok increased_gas_limit.

(** [U256 / U256] *)
Definition div_chk {E} (a b : Z) : outcome E Z := if b =? 0 then Panic else Ok (a / b).

(** The limit set by [populate_from_parent] with the ethash extensions; the
    assertions are those of a debug build. *)
Definition ethash_gas_limit {E} (self : EthereumMachine) (parent_gas_limit header_gas_used gas_floor_target gas_ceil_target : U256) :
    outcome E U256 :=
  let gas_limit := parent_gas_limit in
  let bound_divisor := gas_limit_bound_divisor (mc_params self) in
  q ← div_chk gas_limit bound_divisor;
  l ← sub_chk gas_limit q;
  lower_limit ← add_chk 256 l 1;
  u ← add_chk 256 gas_limit q;
  upper_limit ← sub_chk u 1;
  gas_limit ←
    (if gas_limit <? gas_floor_target then
       round_block_gas_limit (Z.min gas_floor_target upper_limit) lower_limit upper_limit
     else if gas_ceil_target <? gas_limit then
       round_block_gas_limit (Z.max gas_ceil_target lower_limit) lower_limit upper_limit
     else
       let total_lower_limit := Z.max lower_limit gas_floor_target in
       let total_upper_limit := Z.min upper_limit gas_ceil_target in
       m ← mul_chk 256 header_gas_used 6;
       a ← div_chk (m / 5) bound_divisor;
       n ← add_chk 256 lower_limit a;
       round_block_gas_limit (Z.max gas_floor_target (Z.min total_upper_limit n)) total_lower_limit total_upper_limit);
  if (lower_limit <=? gas_limit) && (gas_limit <=? upper_limit) then Ok gas_limit else Panic.

(** The limit set without them. *)
Definition basic_gas_limit {E} (self : EthereumMachine) (parent_gas_limit gas_floor_target : U256) : outcome E U256 :=
  let gas_limit := parent_gas_limit in
  let bound_divisor := gas_limit_bound_divisor (mc_params self) in
  q ← div_chk gas_limit bound_divisor;
  if gas_limit <? gas_floor_target then
    u ← add_chk 256 gas_limit q; u ← sub_chk u 1; Ok (Z.min gas_floor_target u)
  else
    l ← sub_chk gas_limit q; l ← add_chk 256 l 1; Ok (Z.max gas_floor_target l).

Definition populate_gas_limit {E} (self : EthereumMachine) (parent_gas_limit header_gas_used gas_floor_target gas_ceil_target : U256) :
    outcome E U256 :=
  match ethash_extensions self with
  | Some _ => ethash_gas_limit self parent_gas_limit header_gas_used gas_floor_target gas_ceil_target
  | None => basic_gas_limit self parent_gas_limit gas_floor_target
  end.
