(* ===== verification/Transaction.v ===== *)
(** * Transactions ([ethcore/transaction/src/transaction.rs])

    The transaction with and without its signature, the gas it needs before it
    runs, the two readings of [v], and its encoding.  Recovery of a public key is
    a parameter. *)
From stdpp Require Import base list numbers strings.
From S2P Require Import Prelude Words Vm RlpStream RlpDecode RlpImpls Account Builtin EthMachine.

(** ** Data *)

(** 20 bytes of 0xff *)
Definition UNSIGNED_SENDER : Address := 2 ^ 160 - 1.

Inductive Action : Type := Create | Call (a : Address).

Record Transaction := mkTx {
  t_nonce : U256;
  t_gas_price : U256;
  t_gas : U256;
  t_action : Action;
  t_value : U256;
  t_data : bytes;
}.

Record UnverifiedTransaction := mkUTx {
  unsigned : Transaction;
  ut_v : Z;
  ut_r : U256;
  ut_s : U256;
  ut_hash : H256;
}.

Record SignedTransaction := mkSTx {
  transaction : UnverifiedTransaction;
  st_sender : Address;
  st_public : option bytes;
}.

(** ** Gas *)
Definition gas_required_for {E} (is_create : bool) (data : bytes) (schedule : Schedule) : outcome E Z :=
  fold_left
    (fun g b => g ← g; add_chk 64 g (if b =? 0 then tx_data_zero_gas schedule else tx_data_non_zero_gas schedule))
    data (Ok (if is_create then tx_create_gas schedule else tx_gas schedule)).

Definition gas_required {E} (self : Transaction) (schedule : Schedule) : outcome E Z :=
  gas_required_for (match t_action self with Create => true | Call _ => false end) (t_data self) schedule.

(** ** Signatures *)
Definition is_unsigned (self : UnverifiedTransaction) : bool := (ut_r self =? 0) && (ut_s self =? 0).

Definition standard_v (self : UnverifiedTransaction) : Z :=
  let v := ut_v self in
  if (v =? 27) || (v =? 28) || (36 <? v) then (v - 1) mod 2 else 4.

Definition tx_chain_id (self : UnverifiedTransaction) : option Z :=
  let v := ut_v self in
  if is_unsigned self then Some v else if 36 <? v then Some ((v - 35) / 2) else None.

(** ** Encoding *)
Definition h160_append (a : Address) (s : RlpStream) : run RlpStream := hash_append (Z_to_be 20 a) s.
Definition h160_Encodable : Encodable Z := {| rlp_append := h160_append |}.
Definition h160_Decodable : Decodable Z :=
  {| decode rlp := let '(r, rlp) := @decode _ (hash_Decodable 20) rlp in (b ← r; Ok (be_to_Z b), rlp) |}.

Definition Action_append (self : Action) (s : RlpStream) : run RlpStream :=
  match self with
  | Create => @append_internal _ bytes_Encodable s []
  | Call a => @append_internal _ h160_Encodable s a
  end.
#[global] Instance Action_Encodable : Encodable Action := {| rlp_append := Action_append |}.

Definition Action_decode (rlp : UntrustedRlp) : res Action * UntrustedRlp :=
  if RlpDecode.is_empty rlp then (Ok Create, rlp)
  else let '(a, rlp) := @as_val _ h160_Decodable rlp in (a ← a; Ok (Call a), rlp).
#[global] Instance Action_Decodable : Decodable Action := {| decode := Action_decode |}.

Definition append_unsigned (self : Transaction) (s : RlpStream) : run RlpStream :=
  s ← @append _ (uint_Encodable 32) s (t_nonce self);
  s ← @append _ (uint_Encodable 32) s (t_gas_price self);
  s ← @append _ (uint_Encodable 32) s (t_gas self);
  s ← append s (t_action self);
  s ← @append _ (uint_Encodable 32) s (t_value self);
  @append _ bytes_Encodable s (t_data self).

Definition rlp_append_unsigned_transaction (self : Transaction) (s : RlpStream) (chain_id : option Z) : run RlpStream :=
  s ← begin_list s (match chain_id with None => 6 | Some _ => 9 end);
  s ← append_unsigned self s;
  match chain_id with
  | Some n =>
      s ← @append _ (uN_Encodable 8) s n;
      s ← @append _ u8_Encodable s 0;
      @append _ u8_Encodable s 0
  | None => Ok s
  end.

Definition rlp_append_sealed_transaction (self : UnverifiedTransaction) (s : RlpStream) : run RlpStream :=
  s ← begin_list s 9;
  s ← append_unsigned (unsigned self) s;
  s ← @append _ (uN_Encodable 8) s (ut_v self);
  s ← @append _ (uint_Encodable 32) s (ut_r self);
  @append _ (uint_Encodable 32) s (ut_s self).
#[global] Instance UnverifiedTransaction_Encodable : Encodable UnverifiedTransaction :=
  {| rlp_append := rlp_append_sealed_transaction |}.

(** Decoders thread the view, whose caches they fill. *)
Definition Dec (A : Type) : Type := UntrustedRlp -> res A * UntrustedRlp.

#[global] Instance Dec_ret : MRet Dec := fun A a rlp => (Ok a, rlp).
#[global] Instance Dec_bind : MBind Dec := fun A B k m rlp =>
  let '(r, rlp) := m rlp in
  match r with Ok a => k a rlp | Err e => (Err e, rlp) | Panic => (Panic, rlp) end.

(** [d.val_at(i)?], [d.item_count()?], [d.as_raw()] and a returned error *)
Definition field {T} (D : Decodable T) (i : Z) : Dec T := fun rlp => val_at rlp i.
Definition count : Dec Z := item_count.
Definition raw : Dec bytes := fun rlp => (Ok (rlp_raw rlp), rlp).
Definition refuse {A} (e : DecoderError) : Dec A := fun rlp => (Err e, rlp).

Section hashes.
Context (keccak : bytes -> H256).

Definition UnverifiedTransaction_fields (hash : H256) : Dec UnverifiedTransaction :=
  nonce ← field (uint_Decodable 32) 0;
  gas_price ← field (uint_Decodable 32) 1;
  gas ← field (uint_Decodable 32) 2;
  action ← field Action_Decodable 3;
  value ← field (uint_Decodable 32) 4;
  data ← field bytes_Decodable 5;
  v ← field (uN_Decodable 8) 6;
  r ← field (uint_Decodable 32) 7;
  s ← field (uint_Decodable 32) 8;
  mret (mkUTx (mkTx nonce gas_price gas action value data) v r s hash).

Definition UnverifiedTransaction_decode : Dec UnverifiedTransaction :=
  n ← count;
  if negb (n =? 9) then refuse RlpIncorrectListLen
  else b ← raw; UnverifiedTransaction_fields (keccak b).
Definition UnverifiedTransaction_Decodable : Decodable UnverifiedTransaction := {| decode := UnverifiedTransaction_decode |}.

(** [Transaction::hash], the message that is signed *)
Definition tx_hash (self : Transaction) (chain_id : option Z) : run H256 :=
  s ← rlp_append_unsigned_transaction self stream_new chain_id; Ok (keccak (as_raw s)).

Definition compute_hash (self : UnverifiedTransaction) : run UnverifiedTransaction :=
  b ← rlp_bytes self; Ok (mkUTx (unsigned self) (ut_v self) (ut_r self) (ut_s self) (keccak b)).

(** A signature: its two numbers and the parity bit. *)
Definition with_signature (self : Transaction) (sig_r sig_s sig_v : Z) (chain_id : option Z) : run UnverifiedTransaction :=
  base ← (match chain_id with Some n => m ← mul_chk 64 n 2; add_chk 64 35 m | None => Ok 27 end);
  v ← add_chk 64 sig_v base;
  compute_hash (mkUTx self v sig_r sig_s 0).

Definition null_sign (self : Transaction) (chain_id : Z) : run SignedTransaction :=
  u ← compute_hash (mkUTx self chain_id 0 0 0); Ok (mkSTx u UNSIGNED_SENDER None).

Definition fake_sign (self : Transaction) (from : Address) : run SignedTransaction :=
  u ← compute_hash (mkUTx self 0 1 1 0); Ok (mkSTx u from None).

(** [Recovers] the public key from r, s, the parity bit and the message. *)
Context (recover : Z -> Z -> Z -> H256 -> option bytes) (public_to_address : bytes -> Address).

Inductive TxError : Type := InvalidSignature | InvalidChainId.

Definition recover_public (self : UnverifiedTransaction) : outcome TxError bytes :=
  match tx_hash (unsigned self) (tx_chain_id self) with
  | Ok h => match recover (ut_r self) (ut_s self) (standard_v self) h with Some p => Ok p | None => Err InvalidSignature end
  | _ => Panic
  end.

Definition SignedTransaction_new (t : UnverifiedTransaction) : outcome TxError SignedTransaction :=
  if is_unsigned t then Ok (mkSTx t UNSIGNED_SENDER None)
  else public ← recover_public t; Ok (mkSTx t (public_to_address public) (Some public)).

Definition check_low_s (self : UnverifiedTransaction) : outcome TxError unit :=
  if negb (is_low_s (ut_s self)) then Err InvalidSignature else Ok tt.

Definition verify_basic (self : UnverifiedTransaction) (check_low : bool) (chain_id : option Z)
    (allow_empty_signature : bool) : outcome TxError unit :=
  _ ← (if check_low && negb (allow_empty_signature && is_unsigned self) then check_low_s self else Ok tt);
  if allow_empty_signature && is_unsigned self &&
          negb ((t_gas_price (unsigned self) =? 0) && (t_value (unsigned self) =? 0) && (t_nonce (unsigned self) =? 0))
  then Err InvalidSignature
  else
    match tx_chain_id self, chain_id with
    | None, _ => Ok tt
    | Some n, Some m => if n =? m then Ok tt else Err InvalidChainId
    | Some _, None => Err InvalidChainId
    end.

(** [EthereumMachine::verify_transaction_basic] and
    [verify_transaction_unordered] ([machine.rs]); of the header only the number
    is used. *)
Definition verify_transaction_basic (self : EthereumMachine) (t : UnverifiedTransaction) (header_number : Z) : outcome TxError unit :=
  let check_low_s :=
    match ethash_extensions self with Some ext => homestead_transition ext <=? header_number | None => true end in
  let chain_id :=
    if header_number <? validate_chain_id_transition (mc_params self) then tx_chain_id t
    else if eip155_transition (mc_params self) <=? header_number then Some (chain_id (mc_params self))
    else None in
  verify_basic t check_low_s chain_id false.

Definition verify_transaction_unordered (self : EthereumMachine) (t : UnverifiedTransaction) : outcome TxError SignedTransaction :=
  SignedTransaction_new t.
End hashes.
