(* ===== verification/Executive.v ===== *)
(** * Execution of transactions ([ethcore/src/executive.rs], [ethcore/src/externalities.rs])

    [Executive] runs message calls and contract creations on the state: it opens
    a checkpoint, moves the value, runs a built-in contract or the code on an
    EVM, and keeps or reverts what it did.  [Externalities] is the world an EVM
    sees; its calls and creations run a new [Executive] one level deeper.  The
    two are defined together by recursion over the levels.

    Tracers are the ones that record nothing.  The queries of [Ext] on [&self]
    may fill the state's caches; what they fill is dropped here, which no query
    can tell. *)
From Stdlib Require Import String.
From stdpp Require Import base list numbers gmap.
From S2P Require Import Prelude Words Vm Cost JumpDests Interpreter RlpStream RlpImpls Account State Substate Builtin EthMachine Transaction.

(** ** Addresses of new contracts *)
Section addresses.
Context (keccak : bytes -> H256).

(** [Address::from(H256)]: the last 20 bytes. *)
Definition address_of_hash (h : H256) : Address := h mod 2 ^ 160.

Definition contract_address (address_scheme : CreateContractAddress) (sender : Address) (nonce : U256) (code : bytes) :
    run (Address * option H256) :=
  match address_scheme with
  | FromSenderAndNonce =>
      stream ← new_list 2;
      stream ← @append _ h160_Encodable stream sender;
      stream ← @append _ (uint_Encodable 32) stream nonce;
      Ok (address_of_hash (keccak (as_raw stream)), None)
  | FromCodeHash =>
      let code_hash := keccak code in
      Ok (address_of_hash (keccak (replicate 20 0xff ++ Z_to_be 32 code_hash)), Some code_hash)
  | FromSenderAndCodeHash =>
      let code_hash := keccak code in
      Ok (address_of_hash (keccak (Z_to_be 20 sender ++ Z_to_be 32 code_hash)), Some code_hash)
  end.
End addresses.

(** ** Data *)
Record OriginInfo := mkOrigin { o_address : Address; o_origin : Address; o_gas_price : U256; o_value : U256 }.

Definition OriginInfo_from (params : ActionParams) : OriginInfo :=
  mkOrigin (address params) (origin params) (gas_price params) (action_value (value params)).

Inductive OutputPolicy : Type :=
  | OP_Return (output : BytesRef) (copy : option bytes)
  | OP_InitContract (copy : option bytes).

Inductive ExecutionError : Type :=
  | NotEnoughBaseGas (required got : U256)
  | BlockGasLimitReached (gas_limit gas_used gas : U256)
  | InvalidNonce (expected got : U256)
  | NotEnoughCash (required got : Z)
  | ExecMutableCallInStaticContext
  | SenderMustExist
  | ExecInternal (msg : string)
  | TransactionMalformed (msg : string).

Record Executed := mkExecuted {
  e_exception : option Error;
  e_gas : U256;
  e_gas_used : U256;
  e_refunded : U256;
  e_cumulative_gas_used : U256;
  e_logs : list LogEntry;
  e_contracts_created : list Address;
  e_output : bytes;
}.

Record TransactOptions := mkOptions { check_nonce : bool; output_from_init_contract : bool }.
Definition TransactOptions_new : TransactOptions := mkOptions true false.
Definition dont_check_nonce (self : TransactOptions) : TransactOptions := mkOptions false (output_from_init_contract self).
Definition save_output_from_contract (self : TransactOptions) : TransactOptions := mkOptions (check_nonce self) true.

Definition STACK_SIZE_PER_DEPTH : Z := 24 * 1024.
Definition WASM_MAGIC_NUMBER : bytes := [0; 97; 115; 109].

#[global] Instance CallType_eq_dec : EqDecision CallType.
Proof. solve_decision. Defined.

Section executive.
Context {B DB C J : Type} `{HashDB DB} `{LruCache C} `{Backend B DB C} `{JumpCache J}.
Context (keccak : bytes -> H256) (machine : EthereumMachine) (show_hash : Z -> string).

(** [thread-local] stack size, and the contents of the shared cache of jump
    destinations when an execution starts. *)
Context (local_stack_size : Z) (jump_cache : ActionParams -> J).

Definition show_trie_error (e : TrieError) : string :=
  match e with
  | InvalidStateRoot root => String.append "Invalid state root: "%string (show_hash root)
  | IncompleteDatabase missing => String.append "Database missing expected key: "%string (show_hash missing)
  end.
Definition vm_error_of (e : TrieError) : Error := Internal (String.append "Internal error: "%string (show_trie_error e)).

(** [Executive]: the state it works on is in [Work], with the substate and the
    output it fills. *)
Record Executive := mkExecutive { ex_info : EnvInfo; ex_depth : Z; ex_static : bool }.
Record Work (O : Type) := mkWork { w_state : State B C; w_substate : Substate; w_output : O }.
#[local] Arguments mkWork {O}.
#[local] Arguments w_state {O}.
#[local] Arguments w_substate {O}.
#[local] Arguments w_output {O}.

Definition Executive_new (info : EnvInfo) : Executive := mkExecutive info 0 false.
Definition from_parent (info : EnvInfo) (parent_depth : Z) (static_flag : bool) : Executive :=
  mkExecutive info (parent_depth + 1) static_flag.

Record Externalities := mkExternalities {
  x_state : State B C;
  x_env_info : EnvInfo;
  x_depth : Z;
  x_origin_info : OriginInfo;
  x_substate : Substate;
  x_schedule : Schedule;
  x_output : OutputPolicy;
  x_static_flag : bool;
}.

Definition Externalities_new (st : State B C) (env : EnvInfo) (depth : Z) (o : OriginInfo) (sub : Substate)
    (output : OutputPolicy) (static_flag : bool) : Externalities :=
  mkExternalities st env depth o sub (schedule machine (number env)) output static_flag.

Definition set_state (st : State B C) (x : Externalities) : Externalities :=
  mkExternalities st (x_env_info x) (x_depth x) (x_origin_info x) (x_substate x) (x_schedule x) (x_output x) (x_static_flag x).
Definition set_substate (sub : Substate) (x : Externalities) : Externalities :=
  mkExternalities (x_state x) (x_env_info x) (x_depth x) (x_origin_info x) sub (x_schedule x) (x_output x) (x_static_flag x).
Definition set_output (o : OutputPolicy) (x : Externalities) : Externalities :=
  mkExternalities (x_state x) (x_env_info x) (x_depth x) (x_origin_info x) (x_substate x) (x_schedule x) o (x_static_flag x).

(** [?] on a result of the state.  The set of touched accounts is kept as it was
    before the call that failed. *)
Definition try_state {A O} (sub : Substate) (out : O) (r : outcome (TrieError * State B C) A) : outcome (Error * Work O) A :=
  match r with Ok a => Ok a | Err (e, s) => Err (vm_error_of e, mkWork s sub out) | Panic => Panic end.
Definition try_ext {A} (x : Externalities) (r : outcome (TrieError * State B C) A) : outcome (Error * Externalities) A :=
  match r with Ok a => Ok a | Err (e, s) => Err (vm_error_of e, set_state s x) | Panic => Panic end.
(** The same for a query, which borrows the state: what it adds to the caches is
    not kept here, since a state stands for the same accounts with or without it
    ([LedgerState]). *)
Definition query {A} (r : outcome (TrieError * State B C) (A * State B C)) : outcome Error A :=
  match r with Ok (a, _) => Ok a | Err (e, _) => Err (vm_error_of e) | Panic => Panic end.

(** ** Running code *)

(** The result of [Vm::exec]. *)
Abbreviation vm_result := (outcome (Error * Externalities) (GasLeft * Externalities)).

Context (wasm_exec : VmExt Externalities -> ActionParams -> Externalities -> vm_result).

(** [Interpreter::exec] on a new interpreter; the fuel covers every execution. *)
Definition interpret (cost_type : CostType) (vmx : VmExt Externalities) (params : ActionParams) (x : Externalities) : vm_result :=
  let fuel := Z.to_nat ((gas params + 1) * (len (default [] (Vm.code params)) + 1)) in
  match exec keccak fuel ReturnData_empty (jump_cache params) params x with
  | Some (Ok (g, s)) => Ok (g, m_ext (l_machine s))
  | Some (Err (e, x)) => Err (e, x)
  | Some Panic | None => Panic
  end.

(** [Factory::create] *)
Definition can_fit_in_usize (gas : U256) : bool := gas =? low_u64 gas.
Definition factory_exec (vmx : VmExt Externalities) (params : ActionParams) (x : Externalities) : vm_result :=
  if can_fit_in_usize (gas params) then interpret usize_cost vmx params x else interpret U256_cost vmx params x.

Definition executor_exec (vmx : VmExt Externalities) (params : ActionParams) (x : Externalities) : vm_result :=
  if supports_wasm machine &&
     match Vm.code params with Some code => (4 <? len code) && bool_decide (take 4 code = WASM_MAGIC_NUMBER) | None => false end
  then wasm_exec vmx params x
  else factory_exec vmx params x.

(** Both branches on [depth_threshold] run the same code, on this thread or on
    a new one. *)
Definition exec_vm (vmx : VmExt Externalities) (ex : Executive) (params : ActionParams) (st : State B C)
    (unconfirmed : Substate) (output_policy : OutputPolicy) : outcome (Error * Externalities) (FinalizationResult * Externalities) :=
  let depth_threshold := local_stack_size / STACK_SIZE_PER_DEPTH in
  let static_call := bool_decide (call_type params = CT_StaticCall) in
  if depth_threshold =? 0 then Panic
  else
    let x := Externalities_new st (ex_info ex) (ex_depth ex) (OriginInfo_from params) unconfirmed output_policy
               (ex_static ex || static_call) in
    match executor_exec vmx params x with
    | Ok (g, x) => finalize (Ok g) x
    | Err (e, x) => finalize (Err e) x
    | Panic => Panic
    end.

(** [enact_result] on the state and the substate; an error that is not internal
    is reverted. *)
Definition enact_result {E} (reverts : bool) (st : State B C) (substate un_substate : Substate) :
    outcome E (State B C * Substate) :=
  if reverts then Ok (revert_to_checkpoint st, substate)
  else sub ← accrue substate un_substate; Ok (discard_checkpoint st, sub).

Definition reverting (e : Error) : bool := match e with Internal _ => false | _ => true end.

(** The result of [exec_vm], enacted; [out] reads the output policy. *)
Definition enact {O} (substate : Substate) (out : OutputPolicy -> O)
    (res : outcome (Error * Externalities) (FinalizationResult * Externalities)) :
    outcome (Error * Work O) (FinalizationResult * Work O) :=
  match res with
  | Ok (f, x) =>
      '(st, sub) ← enact_result (negb (f_apply_state f)) (x_state x) substate (x_substate x);
      Ok (f, mkWork st sub (out (x_output x)))
  | Err (e, x) =>
      '(st, sub) ← enact_result (reverting e) (x_state x) substate (x_substate x);
      Err (e, mkWork st sub (out (x_output x)))
  | Panic => Panic
  end.

Definition policy_output (p : OutputPolicy) : BytesRef := match p with OP_Return o _ => o | OP_InitContract _ => Flexible [] end.
Definition policy_copy (p : OutputPolicy) : option bytes := match p with OP_Return _ c | OP_InitContract c => c end.

(** ** [Executive::call] *)
Definition call_builtin (b : Builtin) (ex : Executive) (params : ActionParams) (st : State B C) (sub : Substate) (output : BytesRef) :
    outcome (Error * Work BytesRef) (FinalizationResult * Work BytesRef) :=
  if negb (is_active b (number (ex_info ex))) then Panic
  else
    let data := default [] (Vm.data params) in
    c ← cost (pricer b) data;
    if c <=? gas params then
      match native b data (Flexible []) with
      | Err e => Err (BuiltIn e, mkWork (revert_to_checkpoint st) sub output)
      | Ok buffer =>
          let out := bytes_of buffer in
          g ← sub_chk (gas params) c;
          Ok (mkFinal g true (ReturnData_new out 0 (len out)),
              mkWork (discard_checkpoint st) sub (snd (bytes_write output 0 out)))
      | Panic => Panic
      end
    else Err (OutOfGas, mkWork (revert_to_checkpoint st) sub output).

Definition executive_call (vmx : VmExt Externalities) (ex : Executive) (params : ActionParams) (w : Work BytesRef) :
    outcome (Error * Work BytesRef) (FinalizationResult * Work BytesRef) :=
  if (bool_decide (call_type params = CT_StaticCall) ||
      (bool_decide (call_type params = CT_Call) && ex_static ex)) && (0 <? action_value (value params))
  then Err (MutableCallInStaticContext, w)
  else
    let st := checkpoint (w_state w) in
    let sched := schedule machine (number (ex_info ex)) in
    '(st, substate) ←
      (match value params with
       | Transfer val =>
           '(mode, st) ← try_state (w_substate w) (w_output w)
             (transfer_balance keccak st (sender params) (address params) val (to_cleanup_mode (w_substate w) sched));
           Ok (st, with_touched mode (w_substate w))
       | Apparent _ => Ok (st, w_substate w)
       end);
    match builtin machine (code_address params) (number (ex_info ex)) with
    | Some b => call_builtin b ex params st substate (w_output w)
    | None =>
        match Vm.code params with
        | Some _ =>
            enact substate policy_output
              (exec_vm vmx ex params st Substate_new (OP_Return (w_output w) None))
        | None =>
            Ok (mkFinal (gas params) true ReturnData_empty, mkWork (discard_checkpoint st) substate (w_output w))
        end
    end.

(** ** [Executive::create] *)
Definition executive_create (vmx : VmExt Externalities) (ex : Executive) (params : ActionParams) (w : Work (option bytes)) :
    outcome (Error * Work (option bytes)) (FinalizationResult * Work (option bytes)) :=
  let substate := w_substate w in
  let output := w_output w in
  '(taken, st) ← try_state substate output (exists_and_has_code_or_nonce keccak (w_state w) (address params));
  if (taken : bool) then Err (OutOfGas, mkWork st substate output)
  else if bool_decide (call_type params = CT_StaticCall) || ex_static ex
  then Err (MutableCallInStaticContext, mkWork st substate output)
  else
    let st := checkpoint st in
    let sched := schedule machine (number (ex_info ex)) in
    let nonce_offset := if no_empty sched then 1 else 0 in
    '(prev_bal, st) ← try_state substate output (balance keccak st (address params));
    '(st, substate) ←
      (match value params with
       | Transfer val =>
           '(mode, st) ← try_state substate output (sub_balance keccak st (sender params) val (to_cleanup_mode substate sched));
           bal ← add_chk 256 val prev_bal;
           st ← try_state substate output (new_contract st (address params) bal nonce_offset);
           Ok (st, with_touched mode substate)
       | Apparent _ =>
           st ← try_state substate output (new_contract st (address params) prev_bal nonce_offset);
           Ok (st, substate)
       end);
    match Vm.code params with
    | None => Panic
    | Some _ =>
        enact substate policy_copy (exec_vm vmx ex params st Substate_new (OP_InitContract output))
    end.

(** ** [impl Ext for Externalities] *)
Definition ext_create_in (vmx : VmExt Externalities) (x : Externalities) (gas value : U256) (code : bytes)
    (address_scheme : CreateContractAddress) : option (ContractCreateResult * Externalities) :=
  let o := x_origin_info x in
  match nonce keccak (x_state x) (o_address o) with
  | Panic => None
  | Err (_, st) => Some (CreateFailed, set_state st x)
  | Ok (n, st) =>
      match contract_address keccak address_scheme (o_address o) n code with
      | Ok (a, code_hash) =>
          let params := mkParams a code_hash a (o_address o) (o_origin o) gas (o_gas_price o) (Transfer value) (Some code) None
                          CT_None Embedded in
          match (if negb (x_static_flag x) && (negb (eip86 (x_schedule x)) || negb (sender params =? UNSIGNED_SENDER))
                 then inc_nonce keccak st (o_address o) else Ok (tt, st)) with
          | Panic => None
          | Err (_, st) => Some (CreateFailed, set_state st x)
          | Ok (_, st) =>
              match executive_create vmx (from_parent (x_env_info x) (x_depth x) (x_static_flag x)) params
                      (mkWork st (x_substate x) None) with
              | Ok (mkFinal gas_left true _, w) =>
                  let s := w_substate w in
                  let s := mkSubstate (suicides s) (touched s) (logs s) (sstore_clears_count s) (contracts_created s ++ [a]) in
                  Some (Created a gas_left, set_substate s (set_state (w_state w) x))
              | Ok (mkFinal gas_left false return_data, w) =>
                  Some (CreateReverted gas_left return_data, set_substate (w_substate w) (set_state (w_state w) x))
              | Err (_, w) => Some (CreateFailed, set_substate (w_substate w) (set_state (w_state w) x))
              | Panic => None
              end
          end
      | _ => None
      end
  end.

(** [state.code(a).and_then(|code| state.code_hash(a).map(|hash| (code, hash)))] *)
Definition code_and_hash (st : State B C) (a : Address) :
    outcome (TrieError * State B C) ((option bytes * H256) * State B C) :=
  '(code, st) ← State.code keccak st a; '(hash, st) ← State.code_hash keccak st a; Ok ((code, hash), st).

Definition ext_call_in (vmx : VmExt Externalities) (x : Externalities) (gas : U256) (sender_address receive_address : Address)
    (value : option U256) (data : bytes) (code_address : Address) (output : bytes) (ct : CallType) :
    option (MessageCallResult * bytes * Externalities) :=
  let o := x_origin_info x in
  match code_and_hash (x_state x) code_address with
  | Panic => None
  | Err (_, st) => Some (CallFailed, output, set_state st x)
  | Ok ((code, code_hash), st) =>
      let v := match value with Some v => Transfer v | None => Apparent (o_value o) end in
      let params := mkParams code_address (Some code_hash) receive_address sender_address (o_origin o) gas (o_gas_price o) v code
                      (Some data) ct Separate in
      match executive_call vmx (from_parent (x_env_info x) (x_depth x) (x_static_flag x)) params
              (mkWork st (x_substate x) (Fixed output)) with
      | Ok (mkFinal gas_left apply_state return_data, w) =>
          Some (if apply_state then Success gas_left return_data else CallReverted gas_left return_data,
                bytes_of (w_output w), set_substate (w_substate w) (set_state (w_state w) x))
      | Err (_, w) => Some (CallFailed, bytes_of (w_output w), set_substate (w_substate w) (set_state (w_state w) x))
      | Panic => None
      end
  end.

(** Since EIP-210 the hashes of old blocks are kept by a contract, which runs in
    an [Executive] of its own; before, the environment holds the last ones. *)
Definition ext_blockhash_in (sub : option (VmExt Externalities)) (x : Externalities) (n : U256) : option (H256 * Externalities) :=
  let env := x_env_info x in
  let o := x_origin_info x in
  let params := mc_params machine in
  match add_chk (E := Error) 64 (number env) 256 with
  | Ok next =>
      if eip210_transition params <=? next then
        match sub with
        | None => None
        | Some vmx =>
            let a := eip210_contract_address params in
            match code_and_hash (x_state x) a with
            | Panic => None
            | Err (_, st) => Some (0, set_state st x)
            | Ok ((code, code_hash), st) =>
                let p := mkParams a (Some code_hash) a (o_address o) (o_origin o) (eip210_contract_gas params) 0
                           (Apparent (o_value o)) code (Some (Z_to_be 32 n)) CT_Call Separate in
                match executive_call vmx (Executive_new env) p (mkWork st (x_substate x) (Fixed (replicate 32 0))) with
                | Ok (_, w) | Err (_, w) =>
                    Some (be_to_Z (bytes_of (w_output w)), set_substate (w_substate w) (set_state (w_state w) x))
                | Panic => None
                end
            end
        end
      else if (n <? number env) && (Z.max 256 (number env) - 256 <=? low_u64 n) then
        let index := number env - low_u64 n - 1 in
        match last_hashes env !! Z.to_nat index with Some h => Some (h, x) | None => None end
      else Some (0, x)
  | _ => None
  end.

(** [data.to_vec()] into a copy, if one is asked for. *)
Definition handle_copy (to : option bytes) (d : bytes) : option bytes := match to with Some _ => Some d | None => None end.

Definition ext_ret_in (x : Externalities) (gas : U256) (rd : ReturnData) (apply_state : bool) :
    outcome (Error * Externalities) (U256 * Externalities) :=
  d ← rd_deref rd;
  match x_output x with
  | OP_Return (Fixed slice) copy =>
      let l := Z.min (len slice) (len d) in
      Ok (gas, set_output (OP_Return (Fixed (take (Z.to_nat l) d ++ drop (Z.to_nat l) slice)) (handle_copy copy d)) x)
  | OP_Return (Flexible _) copy => Ok (gas, set_output (OP_Return (Flexible d) (handle_copy copy d)) x)
  | OP_InitContract copy =>
      if apply_state then
        return_cost ← mul_chk 256 (len d) (create_data_gas (x_schedule x));
        if (gas <? return_cost) || (create_data_limit (x_schedule x) <? len d) then
          if exceptional_failed_code_deposit (x_schedule x) then Err (OutOfGas, x) else Ok (gas, x)
        else
          let x := set_output (OP_InitContract (handle_copy copy d)) x in
          '(_, st) ← try_ext x (init_code keccak (x_state x) (o_address (x_origin_info x)) d);
          g ← sub_chk gas return_cost;
          Ok (g, set_state st x)
      else Ok (gas, x)
  end.

Definition ext_log_in (x : Externalities) (topics : list H256) (data : bytes) : outcome (Error * Externalities) (unit * Externalities) :=
  if x_static_flag x then Err (MutableCallInStaticContext, x)
  else
    let s := x_substate x in
    let entry := mkLog (o_address (x_origin_info x)) topics data in
    Ok (tt, set_substate (mkSubstate (suicides s) (touched s) (logs s ++ [entry]) (sstore_clears_count s) (contracts_created s)) x).

Definition ext_suicide_in (x : Externalities) (refund_address : Address) : outcome (Error * Externalities) (unit * Externalities) :=
  if x_static_flag x then Err (MutableCallInStaticContext, x)
  else
    let a := o_address (x_origin_info x) in
    '(bal, st) ← try_ext x (balance keccak (x_state x) a);
    x ← (if a =? refund_address then
           '(_, st) ← try_ext x (sub_balance keccak st a bal NoEmpty); Ok (set_state st x)
         else
           '(mode, st) ← try_ext x (transfer_balance keccak st a refund_address bal (to_cleanup_mode (x_substate x) (x_schedule x)));
           Ok (set_substate (with_touched mode (x_substate x)) (set_state st x)));
    let s := x_substate x in
    Ok (tt, set_substate (mkSubstate ({[a]} ∪ suicides s) (touched s) (logs s) (sstore_clears_count s) (contracts_created s)) x).

Definition ext_set_storage_in (x : Externalities) (key value : H256) : outcome (Error * Externalities) (unit * Externalities) :=
  if x_static_flag x then Err (MutableCallInStaticContext, x)
  else '(_, st) ← try_ext x (set_storage keccak (x_state x) (o_address (x_origin_info x)) key value); Ok (tt, set_state st x).

Definition ext_inc_sstore_clears_in (x : Externalities) : option Externalities :=
  let s := x_substate x in
  match add_chk (E := Error) 256 (sstore_clears_count s) 1 with
  | Ok n => Some (set_substate (mkSubstate (suicides s) (touched s) (logs s) n (contracts_created s)) x)
  | _ => None
  end.

(** [sub] runs the calls and creations, one level deeper; [None] when no level
    is left. *)
Definition externalities_ext (sub : option (VmExt Externalities)) : VmExt Externalities := {|
  ext_storage_at x key := query (storage_at keccak (x_state x) (o_address (x_origin_info x)) key);
  ext_set_storage := ext_set_storage_in;
  ext_exists x a := query (state_exists keccak (x_state x) a);
  ext_exists_and_not_null x a := query (exists_and_not_null keccak (x_state x) a);
  ext_origin_balance x := query (balance keccak (x_state x) (o_address (x_origin_info x)));
  ext_balance x a := query (balance keccak (x_state x) a);
  ext_blockhash := ext_blockhash_in sub;
  ext_create x gas value code scheme := match sub with Some vmx => ext_create_in vmx x gas value code scheme | None => None end;
  ext_call x gas sa ra v d ca out ct := match sub with Some vmx => ext_call_in vmx x gas sa ra v d ca out ct | None => None end;
  ext_extcode x a := c ← query (State.code keccak (x_state x) a); Ok (default [] c);
  ext_extcodesize x a := n ← query (State.code_size keccak (x_state x) a); Ok (default 0 n);
  ext_log := ext_log_in;
  ext_ret := ext_ret_in;
  ext_suicide := ext_suicide_in;
  ext_schedule := x_schedule;
  ext_env_info := x_env_info;
  ext_depth := x_depth;
  ext_inc_sstore_clears := ext_inc_sstore_clears_in;
  ext_trace_next_instruction x _ _ _ := Some (false, x);
  ext_trace_prepare_execute x _ _ _ := Some x;
  ext_trace_executed x _ _ _ _ := Some x;
  ext_is_static := x_static_flag;
|}.

Fixpoint ext_of (levels : nat) : VmExt Externalities :=
  externalities_ext (match levels with O => None | S levels => Some (ext_of levels) end).

(** ** Transactions *)
Definition try_exec {A} (r : outcome (TrieError * State B C) A) : outcome (ExecutionError * State B C) A :=
  match r with Ok a => Ok a | Err (e, s) => Err (ExecInternal (show_trie_error e), s) | Panic => Panic end.

(** [U256::from(U512)] panics on a value of more than 256 bits. *)
Definition u256_from_u512 {E} (x : Z) : outcome E U256 := if x <? 2 ^ 256 then Ok x else Panic.
Definition u256_saturating_mul (x y : U256) : U256 := Z.min (x * y) MAX_U256.

(** [Executive::finalize] *)
Definition executive_finalize (ex : Executive) (t : SignedTransaction) (st : State B C) (substate : Substate)
    (result : Error + FinalizationResult) (output : bytes) : outcome (ExecutionError * State B C) (Executed * State B C) :=
  let tx := unsigned (transaction t) in
  let info := ex_info ex in
  let sched := schedule machine (number info) in
  sstore_refunds ← mul_chk 256 (sstore_refund_gas sched) (sstore_clears_count substate);
  suicide_refunds ← mul_chk 256 (suicide_refund_gas sched) (Z.of_nat (size (suicides substate)));
  refunds_bound ← add_chk 256 sstore_refunds suicide_refunds;
  let gas_left_prerefund := match result with inr f => f_gas_left f | inl _ => 0 end in
  used ← sub_chk (t_gas tx) gas_left_prerefund;
  let refunded := Z.min refunds_bound (Z.shiftr used 1) in
  gas_left ← add_chk 256 gas_left_prerefund refunded;
  gas_used ← sub_chk (t_gas tx) gas_left;
  refund_value ← mul_chk 256 gas_left (t_gas_price tx);
  fees_value ← mul_chk 256 gas_used (t_gas_price tx);
  '(_, st) ← try_exec (add_balance keccak st (st_sender t) refund_value NoEmpty);
  '(mode, st) ← try_exec (add_balance keccak st (author info) fees_value (to_cleanup_mode substate sched));
  let substate := with_touched mode substate in
  let st := fold_left kill_account (elements (suicides substate)) st in
  min_balance ← (if bool_decide (kill_dust sched = DustOff) then Ok None
                 else m ← mul_chk 256 (tx_gas sched) (t_gas_price tx); Ok (Some m));
  let st := kill_garbage st (touched substate) (kill_empty sched) min_balance
              (bool_decide (kill_dust sched = WithCodeAndStorage)) in
  match result with
  | inl (Internal msg) => Err (ExecInternal msg, st)
  | inl exception =>
      cumulative ← add_chk 256 (Vm.gas_used info) (t_gas tx);
      Ok (mkExecuted (Some exception) (t_gas tx) (t_gas tx) 0 cumulative [] [] output, st)
  | inr r =>
      cumulative ← add_chk 256 (Vm.gas_used info) gas_used;
      Ok (mkExecuted (if f_apply_state r then None else Some Reverted) (t_gas tx) gas_used refunded cumulative
            (logs substate) (contracts_created substate) output, st)
  end.

(** The result of a call or of a creation as a value, with what it left. *)
Definition result_of {E O} (r : outcome (Error * Work O) (FinalizationResult * Work O)) :
    outcome E ((Error + FinalizationResult) * Work O) :=
  match r with Ok (f, w) => Ok (inr f, w) | Err (e, w) => Ok (inl e, w) | Panic => Panic end.

(** The outermost level: every depth up to [max_depth] has one below it. *)
Definition top_ext (info : EnvInfo) : VmExt Externalities := ext_of (Z.to_nat (max_depth (schedule machine (number info)))).

(** The checks of [transact_with_tracer], up to the point from which a
    transaction is valid: the gas left for the execution, the nonce, and the
    price of all the gas. *)
Definition transact_checks (ex : Executive) (t : SignedTransaction) (check_nonce : bool) (st : State B C) :
    outcome (ExecutionError * State B C) ((U256 * U256 * Z) * State B C) :=
  let tx := unsigned (transaction t) in
  let info := ex_info ex in
  let sender := st_sender t in
  '(n, st) ← try_exec (nonce keccak st sender);
  let sched := schedule machine (number info) in
  base_gas_required ← gas_required tx sched;
  if t_gas tx <? base_gas_required then Err (NotEnoughBaseGas base_gas_required (t_gas tx), st)
  else
    '(missing, st) ←
      (if negb (is_unsigned (transaction t)) && check_nonce && negb (bool_decide (kill_dust sched = DustOff))
       then '(known, st) ← try_exec (state_exists keccak st sender); Ok (negb known, st)
       else Ok (false, st));
    if (missing : bool) then Err (SenderMustExist, st)
    else
      init_gas ← sub_chk (t_gas tx) base_gas_required;
      if check_nonce && negb (t_nonce tx =? n) then Err (InvalidNonce n (t_nonce tx), st)
      else
        total ← add_chk 256 (Vm.gas_used info) (t_gas tx);
        if gas_limit info <? total then Err (BlockGasLimitReached (gas_limit info) (Vm.gas_used info) (t_gas tx), st)
        else
          '(bal, st) ← try_exec (balance keccak st sender);
          let gas_cost := t_gas tx * t_gas_price tx in
          let total_cost := t_value tx + gas_cost in
          if bal <? total_cost then Err (NotEnoughCash total_cost bal, st)
          else Ok ((init_gas, n, gas_cost), st).

Definition transact_with_tracer (ex : Executive) (t : SignedTransaction) (check_nonce output_from_create : bool) (st : State B C) :
    outcome (ExecutionError * State B C) (Executed * State B C) :=
  let tx := unsigned (transaction t) in
  let info := ex_info ex in
  let sender := st_sender t in
  let sched := schedule machine (number info) in
  '((init_gas, n, gas_cost), st) ← transact_checks ex t check_nonce st;
  let substate := Substate_new in
  '(_, st) ← (if negb (eip86 sched) || negb (is_unsigned (transaction t))
              then try_exec (inc_nonce keccak st sender) else Ok (tt, st));
  gas_cost ← u256_from_u512 gas_cost;
  '(mode, st) ← try_exec (sub_balance keccak st sender gas_cost (to_cleanup_mode substate sched));
  let substate := with_touched mode substate in
  match t_action tx with
  | Create =>
      match contract_address keccak (create_address_scheme machine (number info)) sender n (t_data tx) with
      | Ok (new_address, code_hash) =>
          let params := mkParams new_address code_hash new_address sender sender init_gas (t_gas_price tx) (Transfer (t_value tx))
                          (Some (t_data tx)) None CT_None Embedded in
          '(result, w) ← result_of (executive_create (top_ext info) ex params
                           (mkWork st substate (if output_from_create then Some [] else None)));
          executive_finalize ex t (w_state w) (w_substate w) result (default [] (w_output w))
      | _ => Panic
      end
  | Call address =>
      '(code, st) ← try_exec (State.code keccak st address);
      '(code_hash, st) ← try_exec (State.code_hash keccak st address);
      let params := mkParams address (Some code_hash) address sender sender init_gas (t_gas_price tx) (Transfer (t_value tx))
                      code (Some (t_data tx)) CT_Call Separate in
      '(result, w) ← result_of (executive_call (top_ext info) ex params (mkWork st substate (Flexible [])));
      executive_finalize ex t (w_state w) (w_substate w) result (bytes_of (w_output w))
  end.

Definition transact (ex : Executive) (t : SignedTransaction) (options : TransactOptions) (st : State B C) :
    outcome (ExecutionError * State B C) (Executed * State B C) :=
  transact_with_tracer ex t (check_nonce options) (output_from_init_contract options) st.

Definition transact_virtual (ex : Executive) (t : SignedTransaction) (options : TransactOptions) (st : State B C) :
    outcome (ExecutionError * State B C) (Executed * State B C) :=
  let tx := unsigned (transaction t) in
  '(bal, st) ← try_exec (balance keccak st (st_sender t));
  let needed_balance := u256_saturating_add (t_value tx) (u256_saturating_mul (t_gas tx) (t_gas_price tx)) in
  '(_, st) ← (if bal <? needed_balance
              then missing ← sub_chk needed_balance bal;
                   try_exec (add_balance keccak st (st_sender t) missing NoEmpty)
              else Ok (NoEmpty, st));
  transact ex t options st.
End executive.
Arguments Externalities : clear implicits.
Arguments Work : clear implicits.
Arguments mkWork {B C O}.
Arguments w_state {B C O} _.
Arguments w_substate {B C O} _.
Arguments w_output {B C O} _.
