(* ===== verification/TransactionCodec.v ===== *)
(** * The serialised form of transactions, and the addresses of contracts

    A transaction is a list of nine items; decoding inverts encoding and gives
    the hash of the bytes.  A contract made by a sender with a nonce has the
    address that the list of the two hashes to. *)
From stdpp Require Import base list numbers.
From S2P Require Import Prelude Words Vm RlpStream RlpEncoding RlpDecode RlpDecoding RlpViews RlpImpls RlpCodecs AccountCodec Builtin EthMachine Transaction Executive.

(** ** Addresses *)
Definition h160_codec : Codec h160_Encodable h160_Decodable.
Proof.
  assert (Hok : forall h, @codec_ok _ _ _ (hash_codec 20) (Z_to_be 20 h)).
  { intros h. split; [|by rewrite len_Z_to_be]. apply (data_ok _ 20); [apply Z_to_be_bytes|by rewrite len_Z_to_be|done]. }
  refine {| codec_ok h := in_u 160 h; codec_item h := Data (Z_to_be 20 h) |}.
  - intros h _. apply (@codec_item_ok _ _ _ (hash_codec 20)), Hok.
  - intros h s _. exact (@codec_append _ _ _ (hash_codec 20) (Z_to_be 20 h) s (Hok h)).
  - intros h Hh. cbn [decode h160_Decodable].
    pose proof (@codec_decode _ _ _ (hash_codec 20) (Z_to_be 20 h) (Hok h)) as Hd. cbn [codec_item hash_codec] in Hd.
    destruct (@decode _ (hash_Decodable 20) _) as [r v]. cbn [fst] in *. rewrite Hd. cbn [mbind outcome_bind fst].
    rewrite be_to_Z_to_be, Z.mod_small; [done|]. exact Hh.
Defined.

Definition action_item (a : Action) : item := match a with Create => Data [] | Call a => Data (Z_to_be 20 a) end.

Definition Action_codec : Codec Action_Encodable Action_Decodable.
Proof.
  refine {| codec_ok a := match a with Create => True | Call a => in_u 160 a end; codec_item := action_item |}.
  - intros [|a] Ha; [by split; [constructor|]|]. by apply (@codec_item_ok _ _ _ h160_codec).
  - intros [|a] s Ha; [by apply append_push|]. apply append_push; [done|by rewrite len_Z_to_be].
  - intros [|a] Ha; [done|]. cbn [decode Action_Decodable]. unfold Action_decode.
    pose proof (@codec_decode _ _ _ h160_codec a Ha) as Hd. cbn [codec_item h160_codec] in Hd. cbn [action_item].
    assert (He : RlpDecode.is_empty (UntrustedRlp_new (rlp_enc (Data (Z_to_be 20 a)))) = false).
    { cbn [rlp_enc]. rewrite enc_data_long by (by rewrite len_Z_to_be). unfold header. by rewrite len_Z_to_be. }
    rewrite He. unfold as_val. destruct (@decode _ h160_Decodable _) as [r v]. cbn [fst] in Hd. by rewrite Hd.
Defined.

(** A record written as a list of items, field by field. *)
Lemma append_record {T} (E : Encodable T) v l s :
  (forall s, rlp_append v s = append_list s l) -> item_ok (List l) -> append s v = appended (List l) s.
Proof. intros Hv Hl. unfold append. rewrite Hv, <-item_append_list. by apply append_item. Qed.

(** Replaces the appending of a field by that of its item. *)
Ltac append_field C x :=
  rewrite (append_codec (C := C) x) by done; cbn [codec_item uint_codec uN_codec bytes_codec h160_codec Action_codec];
  match goal with |- context [append ?s ?it] => destruct (append s it) as [?| |]; [|done..] end; cbn [mbind outcome_bind].

(** ** The nine items of a transaction *)
Definition unsigned_items (t : Transaction) : list item :=
  [Data (be_min (t_nonce t)); Data (be_min (t_gas_price t)); Data (be_min (t_gas t)); action_item (t_action t);
   Data (be_min (t_value t)); Data (t_data t)].

Definition signed_items (t : UnverifiedTransaction) : list item :=
  unsigned_items (unsigned t) ++ [Data (be_min (ut_v t)); Data (be_min (ut_r t)); Data (be_min (ut_s t))].

Definition tx_ok (t : Transaction) : Prop :=
  is_u256 (t_nonce t) /\ is_u256 (t_gas_price t) /\ is_u256 (t_gas t) /\
  match t_action t with Create => True | Call a => in_u 160 a end /\ is_u256 (t_value t) /\ is_bytes (t_data t) /\ len (t_data t) < 2 ^ 32 - 512.

Definition utx_ok (t : UnverifiedTransaction) : Prop :=
  tx_ok (unsigned t) /\ in_u 64 (ut_v t) /\ is_u256 (ut_r t) /\ is_u256 (ut_s t).

Lemma action_item_ok t : tx_ok t -> item_ok (action_item (t_action t)).
Proof. intros (_ & _ & _ & Ha & _). by apply (@codec_item_ok _ _ _ Action_codec). Qed.

Lemma enc_data_le b : len b < 2 ^ 32 - 512 -> len (enc_data b) <= 9 + len b.
Proof.
  intros Hb. unfold enc_data, header. pose proof (len_nonneg b).
  assert (len (be_min (len b)) <= 8) by (pose proof (be_min_len (len b) 8 ltac:(split; lia)); lia).
  repeat case_match; rewrite ?len_app, ?len_cons, ?len_nil in *; lia.
Qed.

Lemma signed_items_ok t : utx_ok t -> item_ok (List (signed_items t)).
Proof.
  intros (Htx & Hv & Hr & Hs). pose proof (action_item_ok _ Htx) as Ha. destruct Htx as (Hn & Hp & Hg & Hact & Hval & Hd & Hdl). apply item_ok_list. split.
  - unfold signed_items, unsigned_items. cbn [app]. repeat (apply Forall_cons_2 || apply Forall_nil_2). all: first [done|by apply (int_item_ok 32)|by apply (int_item_ok 8)|by split; [|lia]].
  - unfold signed_items, unsigned_items. cbn [app map concat rlp_enc]. rewrite !len_app, len_nil.
    pose proof (enc_data_len _ 32 (proj2 (be_min_len _ 32 Hn)) ltac:(lia)). pose proof (enc_data_len _ 32 (proj2 (be_min_len _ 32 Hp)) ltac:(lia)).
    pose proof (enc_data_len _ 32 (proj2 (be_min_len _ 32 Hg)) ltac:(lia)). pose proof (enc_data_len _ 32 (proj2 (be_min_len _ 32 Hval)) ltac:(lia)).
    pose proof (enc_data_len _ 8 (proj2 (be_min_len _ 8 Hv)) ltac:(lia)). pose proof (enc_data_len _ 32 (proj2 (be_min_len _ 32 Hr)) ltac:(lia)).
    pose proof (enc_data_len _ 32 (proj2 (be_min_len _ 32 Hs)) ltac:(lia)). pose proof (enc_data_le _ Hdl).
    assert (len (rlp_enc (action_item (t_action (unsigned t)))) <= 21).
    { destruct (t_action (unsigned t)) as [|a]; [done|]. apply (enc_data_len (Z_to_be 20 a) 20); [by rewrite len_Z_to_be|done]. }
    lia.
Qed.

Lemma signed_append t s : utx_ok t -> rlp_append t s = append_list s (signed_items t).
Proof.
  intros ((Hn & Hp & Hg & Ha & Hval & Hd & Hdl) & Hv & Hr & Hs). cbn [rlp_append UnverifiedTransaction_Encodable].
  unfold rlp_append_sealed_transaction, append_unsigned, append_list. change (len (signed_items t)) with 9.
  destruct (begin_list s 9) as [s0| |]; [|done..]. unfold signed_items, unsigned_items. cbn [app append_all mbind outcome_bind].
  append_field (uint_codec 32) (t_nonce (unsigned t)). append_field (uint_codec 32) (t_gas_price (unsigned t)). append_field (uint_codec 32) (t_gas (unsigned t)).
  append_field Action_codec (t_action (unsigned t)). append_field (uint_codec 32) (t_value (unsigned t)).
  rewrite (append_codec (C := bytes_codec) (t_data (unsigned t))) by (by split; [|lia]). cbn [codec_item bytes_codec].
  match goal with |- context [append ?s ?it] => destruct (append s it) as [?| |]; [|done..] end. cbn [mbind outcome_bind].
  append_field (uN_codec 8) (ut_v t). append_field (uint_codec 32) (ut_r t).
  rewrite (append_codec (C := uint_codec 32) (ut_s t)) by done. cbn [codec_item uint_codec]. by destruct (append _ _).
Qed.

Section hashed.
Context (keccak : bytes -> H256).

Definition sealed (t : UnverifiedTransaction) : Prop := utx_ok t /\ ut_hash t = keccak (rlp_enc (List (signed_items t))).

Lemma signed_decode t :
  sealed t -> fst (UnverifiedTransaction_decode keccak (UntrustedRlp_new (rlp_enc (List (signed_items t))))) = Ok t.
Proof.
  intros [Hok Hh]. pose proof (signed_items_ok _ Hok) as Hit. pose proof (view_enc _ Hit) as Hv.
  destruct Hok as ((Hn & Hp & Hg & Ha & Hval & Hd & Hdl) & Hvv & Hr & Hs).
  assert (Hdo : item_ok (Data (t_data (unsigned t)))) by (by split; [|lia]).
  unfold UnverifiedTransaction_decode, count, raw, UnverifiedTransaction_fields, field, mbind, mret, Dec_bind, Dec_ret.
  destruct (item_count_ok _ _ Hv (enc_list_is_list _ Hit) (elements_enc _ Hit)) as (v0 & -> & Hv0 & Hr0).
  change (negb (len (map _ (signed_items t)) =? 9)) with false. cbv beta iota. rewrite Hr0.
  destruct (field_ok (uint_codec 32) v0 0 (t_nonce (unsigned t)) _ Hit Hv0 Hr0 ltac:(done) eq_refl Hn) as (v1 & -> & Hv1 & Hr1).
  destruct (field_ok (uint_codec 32) v1 1 (t_gas_price (unsigned t)) _ Hit Hv1 Hr1 ltac:(done) eq_refl Hp) as (v2 & -> & Hv2 & Hr2).
  destruct (field_ok (uint_codec 32) v2 2 (t_gas (unsigned t)) _ Hit Hv2 Hr2 ltac:(done) eq_refl Hg) as (v3 & -> & Hv3 & Hr3).
  destruct (field_ok Action_codec v3 3 (t_action (unsigned t)) _ Hit Hv3 Hr3 ltac:(done) eq_refl Ha) as (v4 & -> & Hv4 & Hr4).
  destruct (field_ok (uint_codec 32) v4 4 (t_value (unsigned t)) _ Hit Hv4 Hr4 ltac:(done) eq_refl Hval) as (v5 & -> & Hv5 & Hr5).
  destruct (field_ok bytes_codec v5 5 (t_data (unsigned t)) _ Hit Hv5 Hr5 ltac:(done) eq_refl Hdo) as (v6 & -> & Hv6 & Hr6).
  destruct (field_ok (uN_codec 8) v6 6 (ut_v t) _ Hit Hv6 Hr6 ltac:(done) eq_refl Hvv) as (v7 & -> & Hv7 & Hr7).
  destruct (field_ok (uint_codec 32) v7 7 (ut_r t) _ Hit Hv7 Hr7 ltac:(done) eq_refl Hr) as (v8 & -> & Hv8 & Hr8).
  destruct (field_ok (uint_codec 32) v8 8 (ut_s t) _ Hit Hv8 Hr8 ltac:(done) eq_refl Hs) as (v9 & -> & Hv9 & Hr9).
  cbn [fst]. destruct t as [[] v r s h]. cbn in Hh |- *. by rewrite Hh.
Qed.

#[export] Instance UnverifiedTransaction_codec : Codec UnverifiedTransaction_Encodable (UnverifiedTransaction_Decodable keccak).
Proof.
  refine {| codec_ok := sealed; codec_item t := List (signed_items t) |}.
  - intros t [Hok _]. by apply signed_items_ok.
  - intros t s [Hok _]. apply append_record; [|by apply signed_items_ok]. intros s'. by apply signed_append.
  - apply signed_decode.
Defined.

(** ** The address of a new contract *)
Definition creation_item (sender nonce : Z) : item := List [Data (Z_to_be 20 sender); Data (be_min nonce)].

Lemma creation_item_ok sender nonce : is_u256 nonce -> item_ok (creation_item sender nonce).
Proof.
  intros Hn. apply item_ok_list. split.
  - repeat (apply Forall_cons_2 || apply Forall_nil_2); [|by apply (int_item_ok 32)]. apply (data_ok _ 20); [apply Z_to_be_bytes|by rewrite len_Z_to_be|done].
  - cbn [map concat rlp_enc]. rewrite !len_app, len_nil.
    pose proof (enc_data_len _ 32 (proj2 (be_min_len _ 32 Hn)) ltac:(lia)).
    pose proof (enc_data_len (Z_to_be 20 sender) 20 ltac:(by rewrite len_Z_to_be) ltac:(lia)). lia.
Qed.

Lemma contract_address_nonce sender nonce code :
  in_u 160 sender -> is_u256 nonce ->
  contract_address keccak FromSenderAndNonce sender nonce code =
    Ok (keccak (rlp_enc (creation_item sender nonce)) mod 2 ^ 160, None).
Proof.
  intros Hs Hn. unfold contract_address, address_of_hash.
  assert (Hst : (stream ← new_list 2; stream ← @append _ h160_Encodable stream sender; @append _ (uint_Encodable 32) stream nonce) =
    append_list stream_new [Data (Z_to_be 20 sender); Data (be_min nonce)]).
  { unfold append_list, new_list. change (len [_; _]) with 2. destruct (begin_list stream_new 2) as [s| |]; [|done..].
    cbn [mbind outcome_bind append_all]. append_field h160_codec sender.
    rewrite (append_codec (C := uint_codec 32) nonce) by done. cbn [codec_item uint_codec]. by destruct (append _ _). }
  rewrite (append_items _ _ (creation_item_ok sender nonce Hn)) in Hst.
  destruct (new_list 2) as [s0| |]; cbn [mbind outcome_bind] in *; [|done..].
  destruct (@append _ h160_Encodable s0 sender) as [s1| |]; cbn [mbind outcome_bind] in *; [|done..]. rewrite Hst. done.
Qed.

Lemma contract_address_ok scheme sender nonce code :
  in_u 160 sender -> is_u256 nonce ->
  exists a h, contract_address keccak scheme sender nonce code = Ok (a, h) /\ in_u 160 a.
Proof.
  intros Hs Hn. assert (Hm : forall z, in_u 160 (z mod 2 ^ 160)) by (intros z; apply Z.mod_pos_bound; lia).
  destruct scheme; [rewrite contract_address_nonce by done|..]; eexists _, _; (split; [done|apply Hm]).
Qed.
End hashed.
