(* ===== verification/Ledger.v ===== *)
(** * The accounts as a ledger

    What execution relies on about all accounts (words are in range, an address
    that looks unused has no storage below, no more ether than a word holds)
    and what it promises about the way they change: no ether appears, no account
    vanishes, nonces grow with the gas used, and nothing at all changes in a
    static context. *)
From stdpp Require Import base list list_numbers numbers gmap.
From S2P Require Import Prelude VmLaws JumpDests Account State StateSpec StateWrites StateOps.

#[local] Arguments KECCAK_EMPTY : simpl never.

(** ** Sums *)
Fixpoint sum_of (f : Z -> Z) (l : list Z) : Z := match l with [] => 0 | a :: l => f a + sum_of f l end.

Lemma sum_same f g l : (forall a, a ∈ l -> g a = f a) -> sum_of g l = sum_of f l.
Proof. induction l as [|b l IH]; intros Hfg; cbn; [done|]. rewrite Hfg by left. rewrite IH; [done|]. intros a Ha. apply Hfg. by right. Qed.

Lemma sum_upd f g l a : NoDup l -> a ∈ l -> (forall b, b <> a -> g b = f b) -> sum_of g l = sum_of f l - f a + g a.
Proof.
  intros Hnd Ha Hfg. induction l as [|b l IH]; [by apply not_elem_of_nil in Ha|]. apply NoDup_cons in Hnd as [Hb Hnd]. cbn.
  destruct (decide (b = a)) as [->|Hne].
  - rewrite (sum_same f g l); [lia|]. intros c Hc. apply Hfg. by intros ->.
  - apply elem_of_cons in Ha as [?|Ha]; [done|]. rewrite (IH Hnd Ha), (Hfg b Hne). lia.
Qed.

Lemma sum_le f g l : (forall a, g a <= f a) -> sum_of g l <= sum_of f l.
Proof. intros Hfg. induction l as [|b l IH]; cbn; [done|]. specialize (Hfg b). lia. Qed.

Lemma sum_ge f l a : (forall b, 0 <= f b) -> a ∈ l -> f a <= sum_of f l.
Proof.
  intros Hf Ha. assert (Hp : forall l, 0 <= sum_of f l) by (clear l Ha; induction l as [|b l]; cbn; [done|specialize (Hf b); lia]).
  induction l as [|b l IH]; [by apply not_elem_of_nil in Ha|]. cbn. specialize (Hp l). pose proof (Hf b).
  apply elem_of_cons in Ha as [->|Ha]; [lia|]. specialize (IH Ha). lia.
Qed.

Lemma sum_ge_two f l a b : (forall c, 0 <= f c) -> NoDup l -> a ∈ l -> b ∈ l -> a <> b -> f a + f b <= sum_of f l.
Proof.
  intros Hf Hnd Ha Hb Hne. pose (g := fun c => if decide (c = a) then 0 else f c).
  rewrite (sum_upd g f l a Hnd Ha) by (intros c Hc; unfold g; by rewrite decide_False).
  assert (Hg : g b <= sum_of g l) by (apply sum_ge; [|done]; intros c; unfold g; case_decide; [done|apply Hf]).
  unfold g in Hg at 1. rewrite decide_False in Hg by done. unfold g at 2. rewrite decide_True by done. lia.
Qed.

(** All addresses; sealed, since the list has 2^160 elements. *)
Lemma all_addresses : { l : list Z | NoDup l /\ len l = 2 ^ 160 /\ forall a, a ∈ l <-> in_u 160 a }.
Proof.
  exists (seqZ 0 (2 ^ 160)). split; [apply NoDup_seqZ|]. split; [unfold len; rewrite length_seqZ; lia|].
  intros a. rewrite elem_of_seqZ. unfold in_u. lia.
Qed.
Definition addresses : list Z := proj1_sig all_addresses.
Lemma addresses_nodup : NoDup addresses.
Proof. apply (proj2_sig all_addresses). Qed.
Lemma elem_of_addresses a : in_u 160 a -> a ∈ addresses.
Proof. apply (proj2_sig all_addresses). Qed.

Lemma addresses_size (s : gset Z) : (forall a, a ∈ s -> in_u 160 a) -> Z.of_nat (size s) <= 2 ^ 160.
Proof.
  intros Hs. pose proof (proj2_sig all_addresses) as (_ & Hlen & _). fold addresses in Hlen.
  assert (Hsub : s ⊆ list_to_set addresses) by (intros a Ha; apply elem_of_list_to_set, elem_of_addresses, Hs, Ha).
  apply subseteq_size in Hsub. rewrite size_list_to_set in Hsub by apply addresses_nodup. unfold len in Hlen. lia.
Qed.

(** ** Accounts *)
Abbreviation accounts := (Z -> option AAccount).

Definition held (cur : accounts) (a : Z) : Z := match cur a with Some x => aa_balance x | None => 0 end.
Definition total (cur : accounts) : Z := sum_of (held cur) addresses.

Definition nonces_le (m : Z) (cur : accounts) : Prop := forall a x, cur a = Some x -> aa_nonce x <= m.

Section ledger.
(** The nonce of new accounts, the storage below the accounts' own changes, and
    whether the rules in force leave empty accounts uncreated. *)
Context (n : Z) (base : Z -> Z -> Z) (lean : bool).
Implicit Types (cur : accounts) (A : AState) (x y : AAccount) (a : Z).

Record account_ok x : Prop := {
  ak_balance : is_u256 (aa_balance x);
  ak_nonce : n <= aa_nonce x < 2 ^ 256;
  ak_hash : is_u256 (aa_code_hash x);
  ak_code : vec_ok (aa_code x);
  ak_storage k : is_u256 (aa_storage x k);
}.

(** What a contract may be created over. *)
Definition unused x : Prop := aa_code_hash x = KECCAK_EMPTY /\ aa_nonce x = n.
Definition bare a : Prop := forall k, base a k = 0.

Record ledger cur : Prop := {
  lg_start : 0 <= n < 2 ^ 256;
  lg_account a x : cur a = Some x -> account_ok x;
  lg_unused a : (forall x, cur a = Some x -> unused x) -> bare a;
  lg_total : total cur < 2 ^ 256;
}.

(** [A'] follows [A] with at most [e] more ether and nonces higher by at most
    [k]; [st]: in a static context. *)
Record moved (st : bool) (k e : Z) A A' : Prop := {
  mv_saved : a_saved A' = a_saved A;
  mv_total : total (a_cur A') <= total (a_cur A) + e;
  mv_live a : is_Some (a_cur A a) -> is_Some (a_cur A' a);
  mv_nonces m : n + 1 <= m -> nonces_le m (a_cur A) -> nonces_le (m + k) (a_cur A');
  mv_static : st = true -> lean = true -> forall a, aeq (a_cur A a) (a_cur A' a);
}.

Lemma moved_refl st A : moved st 0 0 A A.
Proof. split; [done|lia|done| |done]. intros m _. by rewrite Z.add_0_r. Qed.

Lemma moved_mono st k l e A A' : k <= l -> moved st k e A A' -> moved st l e A A'.
Proof.
  intros Hkl [Hs Ht Hl Hn Hst]. split; [done..| |done]. intros m Hm Hle a x Hx. specialize (Hn m Hm Hle a x Hx). lia.
Qed.

Lemma moved_trans st k l e f A1 A2 A3 : 0 <= k -> moved st k e A1 A2 -> moved st l f A2 A3 -> moved st (k + l) (e + f) A1 A3.
Proof.
  intros Hk [Hs Ht Hl Hn Hst] [Hs' Ht' Hl' Hn' Hst']. split.
  - congruence.
  - lia.
  - intros a Ha. apply Hl', Hl, Ha.
  - intros m Hm Hle. rewrite Z.add_assoc. apply Hn'; [lia|]. by apply Hn.
  - intros ? ? a. etransitivity; [by apply Hst|by apply Hst'].
Qed.

(** Static contexts add an obligation. *)
Lemma moved_in st k e A A' : moved false k e A A' -> (st = true -> lean = true -> forall a, aeq (a_cur A a) (a_cur A' a)) -> moved st k e A A'.
Proof. by intros [Hs Ht Hl Hn _] Hst. Qed.
Lemma moved_weaken st st' k e A A' : (st' = true -> st = true) -> moved st k e A A' -> moved st' k e A A'.
Proof. intros Himp [Hs Ht Hl Hn Hst]. split; [done..|]. intros ?. by apply Hst, Himp. Qed.

(** ** One account *)
Lemma held_range cur a : ledger cur -> 0 <= held cur a < 2 ^ 256.
Proof. intros Hl. unfold held. destruct (cur a) as [x|] eqn:Hx; [|done]. by destruct (lg_account _ Hl a x Hx). Qed.

Lemma held_le_total cur a : ledger cur -> in_u 160 a -> held cur a <= total cur.
Proof. intros Hl Ha. apply sum_ge; [intros b; apply (held_range cur b Hl)|by apply elem_of_addresses]. Qed.

Lemma ledger_total_nonneg cur : ledger cur -> 0 <= total cur.
Proof. intros Hl. pose proof (held_range cur 0 Hl). pose proof (held_le_total cur 0 Hl). unfold in_u in *. lia. Qed.

Lemma held_two cur a b : ledger cur -> in_u 160 a -> in_u 160 b -> a <> b -> held cur a + held cur b <= total cur.
Proof.
  intros Hl Ha Hb Hne. apply sum_ge_two; [intros c; apply (held_range cur c Hl)|apply addresses_nodup|by apply elem_of_addresses..|done].
Qed.

Lemma held_upd cur a o b : held (upd cur a o) b = if decide (b = a) then match o with Some x => aa_balance x | None => 0 end else held cur b.
Proof. unfold held, upd. repeat case_decide; congruence. Qed.

Lemma total_upd cur a o : in_u 160 a -> total (upd cur a o) = total cur - held cur a + match o with Some x => aa_balance x | None => 0 end.
Proof.
  intros Ha. unfold total. rewrite (sum_upd (held cur) _ _ a addresses_nodup).
  - rewrite held_upd, decide_True by done. done.
  - by apply elem_of_addresses.
  - intros b Hb. by rewrite held_upd, decide_False.
Qed.

Lemma ledger_upd cur a x :
  ledger cur -> in_u 160 a -> account_ok x -> (unused x -> bare a) -> total cur - held cur a + aa_balance x < 2 ^ 256 ->
  ledger (upd cur a (Some x)).
Proof.
  intros [Hn Hacc Hun Ht] Ha Hx Hb Hlt. split; [done| | |].
  - intros b y. unfold upd. case_decide; [by intros [= <-]|apply Hacc].
  - intros b Hu. destruct (decide (b = a)) as [->|Hne].
    + apply Hb, Hu. apply upd_eq.
    + apply Hun. intros y Hy. apply Hu. by rewrite upd_ne.
  - by rewrite total_upd.
Qed.

Lemma moved_upd k e A a x :
  in_u 160 a -> aa_balance x <= held (a_cur A) a + e ->
  (forall m, n + 1 <= m -> nonces_le m (a_cur A) -> aa_nonce x <= m + k) -> 0 <= k ->
  moved false k e A (set_cur A a (Some x)).
Proof.
  intros Ha Hb Hn Hk. split; cbn; [done| | | |done].
  - rewrite total_upd by done. lia.
  - intros b Hs. unfold upd. by case_decide.
  - intros m Hm Hle b y. unfold upd. case_decide; [intros [= <-]; by apply Hn|]. intros Hy. specialize (Hle b y Hy). lia.
Qed.

(** The account an operation works on: the one there is, or a blank one. *)
Definition account_at cur a : AAccount := default (blank_account n) (cur a).

Lemma account_at_ok cur a : ledger cur -> account_ok (account_at cur a).
Proof.
  intros Hl. unfold account_at. destruct (cur a) as [x|] eqn:Hx; cbn; [by apply (lg_account _ Hl a)|].
  pose proof (lg_start _ Hl). by split; cbn; [done|lia|done|by split; [constructor|]|].
Qed.
Lemma account_at_balance cur a : aa_balance (account_at cur a) = held cur a.
Proof. unfold account_at, held. by destruct (cur a). Qed.
Lemma account_at_nonce cur a m : n + 1 <= m -> nonces_le m cur -> aa_nonce (account_at cur a) <= m.
Proof. intros Hm Hle. unfold account_at. destruct (cur a) as [x|] eqn:Hx; cbn; [by apply (Hle a)|lia]. Qed.
Lemma account_at_unused cur a : ledger cur -> unused (account_at cur a) -> bare a.
Proof.
  intros Hl Hu. apply (lg_unused _ Hl). intros x Hx. unfold account_at in Hu. by rewrite Hx in Hu.
Qed.
Lemma account_at_aeq cur a : is_Some (cur a) -> aeq (cur a) (Some (account_at cur a)).
Proof. intros [x Hx]. unfold account_at. by rewrite Hx. Qed.

(** ** Operations *)

(** [x] with [v] more ether. *)
Definition paid (v : Z) x : AAccount := mkA (aa_balance x + v) (aa_nonce x) (aa_code_hash x) (aa_code x) (aa_storage x).

Lemma paid_ledger A a v (A' := set_cur A a (Some (paid v (account_at (a_cur A) a)))) :
  ledger (a_cur A) -> in_u 160 a -> 0 <= held (a_cur A) a + v -> total (a_cur A) + v < 2 ^ 256 ->
  ledger (a_cur A') /\ moved false 0 v A A'.
Proof.
  intros Hl Ha Hv Ht. pose proof (account_at_ok _ a Hl) as Hok. pose proof (held_le_total _ a Hl Ha).
  pose proof (account_at_balance (a_cur A) a) as Hb. split.
  - apply ledger_upd; [done..| | |].
    + destruct Hok as [_ Hn Hh Hc Hs]. split; cbn; [rewrite Hb; split; lia|done..].
    + apply account_at_unused. done.
    + cbn. lia.
  - apply moved_upd; [done|cbn; lia| |done]. intros m Hm Hle. cbn. pose proof (account_at_nonce _ a m Hm Hle). lia.
Qed.

(** Whether a mode may create an empty account. *)
Definition mode_fits (mode : CleanupMode) : Prop := match mode with ForceCreate => lean = false | _ => True end.

Lemma sub_balance_ledger A a v mode :
  ledger (a_cur A) -> in_u 160 a -> 0 <= v <= held (a_cur A) a -> mode_fits mode ->
  exists mode' A', a_sub_balance n A a v mode = Some (mode', A') /\ mode_fits mode' /\ ledger (a_cur A') /\ moved false 0 (- v) A A' /\
    ((is_Some (a_cur A a) /\ v = 0 /\ A' = A) \/ A' = set_cur A a (Some (paid (- v) (account_at (a_cur A) a)))).
Proof.
  intros Hl Ha Hv Hm. unfold a_sub_balance. pose proof (lg_total _ Hl).
  assert (Hspend : a_modify n A a (a_spend v) = Some (set_cur A a (Some (paid (- v) (account_at (a_cur A) a))))).
  { unfold a_modify, a_spend. fold (account_at (a_cur A) a). rewrite (account_at_balance (a_cur A) a).
    destruct (Z.leb_spec v (held (a_cur A) a)); [|lia]. unfold paid. by rewrite (account_at_balance (a_cur A) a). }
  destruct (paid_ledger A a (- v) Hl Ha ltac:(lia) ltac:(lia)) as [Hl' Hmv].
  destruct (negb (v =? 0) || negb (bool_decide (is_Some (a_cur A a)))) eqn:Hc.
  - rewrite Hspend. cbn [mbind option_bind]. eexists _, _. split; [done|]. split; [by destruct mode|]. split_and!; [done..|]. by right.
  - cbn [mbind option_bind]. apply orb_false_iff in Hc as [Hz Hs]. apply negb_false_iff in Hz, Hs. apply bool_decide_eq_true in Hs. b2p. subst v.
    eexists _, _. split; [done|]. split; [by destruct mode|]. split_and!; [done|apply moved_refl|]. by left.
Qed.

Lemma add_balance_ledger A a v mode :
  ledger (a_cur A) -> in_u 160 a -> 0 <= v -> total (a_cur A) + v < 2 ^ 256 -> mode_fits mode ->
  exists mode' A', a_add_balance n A a v mode = Some (mode', A') /\ mode_fits mode' /\ ledger (a_cur A') /\ moved false 0 v A A' /\
    ((v = 0 /\ A' = A) \/ A' = set_cur A a (Some (paid v (account_at (a_cur A) a))) /\ (v = 0 -> lean = false)).
Proof.
  intros Hl Ha Hv Ht Hm. unfold a_add_balance. pose proof (held_range _ a Hl). pose proof (held_le_total _ a Hl Ha).
  assert (Hearn : a_modify n A a (a_earn v) = Some (set_cur A a (Some (paid v (account_at (a_cur A) a))))).
  { unfold a_modify, a_earn, add_u256. fold (account_at (a_cur A) a). rewrite (account_at_balance (a_cur A) a).
    destruct (Z.ltb_spec (held (a_cur A) a + v) (2 ^ 256)); [|lia]. unfold paid. by rewrite (account_at_balance (a_cur A) a). }
  destruct (paid_ledger A a v Hl Ha ltac:(lia) ltac:(lia)) as [Hl' Hmv].
  assert (Hdone : v = 0 -> forall mode', mode_fits mode' -> exists mode2 A', Some (mode', A) = Some (mode2, A') /\ mode_fits mode2 /\
    ledger (a_cur A') /\ moved false 0 v A A' /\
    ((v = 0 /\ A' = A) \/ A' = set_cur A a (Some (paid v (account_at (a_cur A) a))) /\ (v = 0 -> lean = false))).
  { intros -> mode' Hm'. eexists _, _. split; [done|]. split_and!; [done..|apply moved_refl|by left]. }
  destruct (Z.eqb_spec v 0) as [Hz|Hnz]; cbn [negb].
  - destruct mode as [| |t], (a_cur A a) eqn:Hx; try by apply Hdone. rewrite Hearn. cbn [mbind option_bind].
    eexists _, _. split; [done|]. split_and!; [done..|]. by right.
  - rewrite Hearn. cbn [mbind option_bind]. eexists _, _. split; [done|]. split_and!; [done..|]. by right.
Qed.

Lemma transfer_ledger st A from to v mode :
  ledger (a_cur A) -> in_u 160 from -> in_u 160 to -> 0 <= v <= held (a_cur A) from -> is_Some (a_cur A from) -> mode_fits mode ->
  (st = true -> v = 0 \/ from = to) ->
  exists mode' A', ('(mode, A) ← a_sub_balance n A from v mode; a_add_balance n A to v mode) = Some (mode', A') /\
    ledger (a_cur A') /\ moved st 0 0 A A'.
Proof.
  intros Hl Hf Ht Hv Hs Hm Hst. pose proof (lg_total _ Hl).
  destruct (sub_balance_ledger A from v mode Hl Hf Hv Hm) as (m1 & A1 & -> & Hm1 & Hl1 & Hmv1 & Hc1). cbn [mbind option_bind].
  destruct (add_balance_ledger A1 to v m1 Hl1 Ht ltac:(lia)) as (m2 & A2 & -> & Hm2 & Hl2 & Hmv2 & Hc2); [|done|].
  { pose proof (mv_total _ _ _ _ _ Hmv1). lia. }
  exists m2, A2. split; [done|]. split; [done|]. apply moved_in.
  { pose proof (moved_trans _ 0 0 _ _ _ _ _ ltac:(done) Hmv1 Hmv2) as Hmv. by rewrite Z.add_opp_diag_l in Hmv. }
  intros ? Hlean. destruct Hc1 as [(_ & -> & ->)| ->].
  - destruct Hc2 as [[_ ->]|[_ Hc]]; [done|]. specialize (Hc eq_refl). congruence.
  - destruct Hc2 as [[-> ->]|[-> Hc]]; intros b; cbn; unfold upd.
    + case_decide; [|done]. subst b. rewrite (account_at_aeq _ _ Hs) at 1. cbn. split_and!; [lia|done..].
    + destruct (Hst ltac:(done)) as [Hz|<-]; [specialize (Hc Hz); congruence|]. case_decide; [|done]. subst b.
      rewrite decide_True by done. rewrite (account_at_aeq _ _ Hs) at 1. cbn. split_and!; [lia|done..].
Qed.

Lemma inc_nonce_ledger A a :
  ledger (a_cur A) -> in_u 160 a -> (exists m, n + 1 <= m /\ nonces_le m (a_cur A) /\ m + 1 < 2 ^ 256) ->
  exists A', a_modify n A a a_inc_nonce = Some A' /\ ledger (a_cur A') /\ moved false 1 0 A A' /\
    (exists x, a_cur A' a = Some x /\ n < aa_nonce x /\ aa_nonce x = aa_nonce (account_at (a_cur A) a) + 1) /\
    (forall b, held (a_cur A') b = held (a_cur A) b) /\ forall b, b <> a -> a_cur A' b = a_cur A b.
Proof.
  intros Hl Ha (m & Hm & Hle & Hlt). unfold a_modify, a_inc_nonce, add_u256. fold (account_at (a_cur A) a).
  pose proof (account_at_nonce _ a m Hm Hle). pose proof (account_at_ok _ a Hl) as Hok. destruct (Z.ltb_spec (aa_nonce (account_at (a_cur A) a) + 1) (2 ^ 256)); [|lia].
  cbn [mbind option_bind]. pose proof (account_at_balance (a_cur A) a) as Hb. pose proof (lg_total _ Hl). pose proof (ak_nonce _ Hok).
  eexists. split; [done|]. split; [|split; [|split; [|split]]].
  - apply ledger_upd; [done..| | |cbn; lia].
    + destruct Hok as [Hb' Hn Hh Hc Hs]. split; cbn; [done|lia|done..].
    + intros [_ Hu]. cbn in Hu. lia.
  - apply moved_upd; [done|cbn; lia| |lia]. intros m' Hm' Hle'. cbn. pose proof (account_at_nonce _ a m' Hm' Hle'). lia.
  - eexists. cbn. rewrite upd_eq. split; [done|]. cbn. lia.
  - intros b. cbn [a_cur set_cur]. rewrite held_upd. by case_decide; [subst b|].
  - intros b Hne. by apply upd_ne.
Qed.

(** A change that leaves balance and nonce alone. *)
Lemma keep_ledger A a y (x := account_at (a_cur A) a) :
  ledger (a_cur A) -> in_u 160 a -> aa_balance y = aa_balance x -> aa_nonce y = aa_nonce x -> account_ok y -> (unused y -> bare a) ->
  ledger (a_cur (set_cur A a (Some y))) /\ moved false 0 0 A (set_cur A a (Some y)).
Proof.
  intros Hl Ha Hb Hn Hok Hu. pose proof (account_at_balance (a_cur A) a) as Hb'. pose proof (lg_total _ Hl). subst x. split.
  - apply ledger_upd; [done..|lia].
  - apply moved_upd; [done|lia| |done]. intros m Hm Hle. rewrite Hn. pose proof (account_at_nonce _ a m Hm Hle). lia.
Qed.

Lemma set_storage_ledger A a key value :
  ledger (a_cur A) -> in_u 160 a -> is_u256 value ->
  exists A', a_modify n A a (a_set_storage key value) = Some A' /\ ledger (a_cur A') /\ moved false 0 0 A A'.
Proof.
  intros Hl Ha Hv. eexists. split; [done|]. fold (account_at (a_cur A) a). pose proof (account_at_ok _ a Hl) as Hok.
  apply keep_ledger; [done..| |].
  - destruct Hok as [Hb Hn Hh Hc Hs]. split; cbn; [done..|]. intros k. case_decide; [done|apply Hs].
  - apply account_at_unused. done.
Qed.

Lemma set_code_ledger A a hash code :
  ledger (a_cur A) -> in_u 160 a -> is_u256 hash -> vec_ok code -> bare a ->
  exists A', a_modify n A a (a_set_code hash code) = Some A' /\ ledger (a_cur A') /\ moved false 0 0 A A'.
Proof.
  intros Hl Ha Hh Hc Hb. eexists. split; [done|]. fold (account_at (a_cur A) a). pose proof (account_at_ok _ a Hl) as [? ? _ _ ?].
  by apply keep_ledger.
Qed.

Lemma new_contract_ledger A a bal off e :
  ledger (a_cur A) -> in_u 160 a -> bare a -> 0 <= off <= 1 -> n + off < 2 ^ 256 -> 0 <= bal <= held (a_cur A) a + e ->
  total (a_cur A) + e < 2 ^ 256 ->
  let A' := set_cur A a (Some (mkA bal (n + off) KECCAK_EMPTY [] (fun _ => 0))) in ledger (a_cur A') /\ moved false 0 e A A'.
Proof.
  intros Hl Ha Hb Hoff Hn Hbal Ht. pose proof (lg_start _ Hl). pose proof (held_le_total _ a Hl Ha). split.
  - apply ledger_upd; [done..| |done|cbn; lia]. split; cbn; [split; lia|lia|done|by split; [constructor|]|done].
  - apply moved_upd; [done|cbn; lia| |done]. intros m Hm Hle. cbn. lia.
Qed.
End ledger.
