(* ===== verification/LedgerState.v ===== *)
(** * The operations of the state on a ledger

    Over a complete database and a well-formed ledger, the operations execution
    uses do not fail, answer from the abstract accounts and leave a well-formed
    ledger. *)
From stdpp Require Import base list numbers gmap.
From S2P Require Import Prelude VmLaws JumpDests Account State StateSpec StateWrites StateOps Ledger.

#[local] Arguments KECCAK_EMPTY : simpl never.

Section ledger_state.
Context {DB C : Type} `{HashDB DB} `{LruLaws C} (keccak : bytes -> Z) (D : DB) (root : Z) (codes : Z -> option bytes).
Context {B : Type} `{!Backend B DB C} `{!BackendLaws keccak D root codes B} (Hdb : db_complete keccak D root codes).
Context (Hempty : keccak [] = KECCAK_EMPTY) (Hkeccak : forall b, is_u256 (keccak b)).
Context (n : Z) (base : Z -> Z -> Z) (lean : bool).
Implicit Types (s : State B C) (A : AState) (a : Z).

#[local] Abbreviation rep := (rep keccak D root codes).
#[local] Abbreviation ledger := (ledger n base).
#[local] Abbreviation moved := (moved n lean).
#[local] Abbreviation mode_fits := (mode_fits lean).

(** The concrete state [s] stands for [A]. *)
Record stands s A : Prop := {
  sd_rep : rep base s A;
  sd_start : account_start_nonce s = n;
  sd_ledger : ledger (a_cur A);
}.

Lemma answered_ok {U} (f : U -> answer) (r : outcome (TrieError * State B C) (U * State B C)) v s :
  answered f r = Ok (v, s) -> exists u, r = Ok (u, s) /\ f u = v.
Proof. destruct r as [[u s']| |]; [|done..]. intros [= <- <-]. by exists u. Qed.

Lemma op_stands o s A v A' :
  stands s A -> op_over base o -> abs_op keccak n A o = Some (v, A') -> ledger (a_cur A') ->
  exists s', run_op keccak s o = Ok (v, s') /\ stands s' A'.
Proof.
  intros [Hrep Hn Hl] Hov Hop Hl'. pose proof (run_op_over keccak D root codes Hdb Hempty base s A o Hrep Hov) as Hsim.
  unfold simulates in Hsim. rewrite Hn, Hop in Hsim. destruct Hsim as (s' & Hr & Hrep' & Hn'). exists s'. split; [done|]. by split; [|congruence|].
Qed.

(** ** Queries *)
Lemma query_stands o s A v : stands s A -> op_over base o -> abs_op keccak n A o = Some (v, A) -> exists s', run_op keccak s o = Ok (v, s') /\ stands s' A.
Proof. intros Hs Hov Hop. eapply op_stands; [done..|]. by destruct Hs. Qed.

Lemma balance_stands s A a : stands s A -> exists s', balance keccak s a = Ok (held (a_cur A) a, s') /\ stands s' A.
Proof.
  intros Hs. destruct (query_stands (OpBalance a) s A _ Hs I eq_refl) as (s' & Hr & Hs'). apply answered_ok in Hr as (u & Hr & [= Hu]).
  exists s'. by rewrite Hr, Hu.
Qed.

Definition nonce_of (A : AState) a : Z := match a_cur A a with Some x => aa_nonce x | None => n end.
Lemma nonce_stands s A a : stands s A -> exists s', nonce keccak s a = Ok (nonce_of A a, s') /\ stands s' A.
Proof.
  intros Hs. destruct (query_stands (OpNonce a) s A _ Hs I eq_refl) as (s' & Hr & Hs'). apply answered_ok in Hr as (u & Hr & [= Hu]).
  exists s'. by rewrite Hr, Hu.
Qed.
Lemma nonce_of_range s A a : stands s A -> is_u256 (nonce_of A a).
Proof.
  intros [_ _ Hl]. unfold nonce_of. pose proof (lg_start _ _ _ Hl). destruct (a_cur A a) as [x|] eqn:Hx; [|done].
  destruct (lg_account _ _ _ Hl a x Hx) as [_ Hn _ _ _]. split; lia.
Qed.

Lemma exists_stands s A a : stands s A -> exists s', state_exists keccak s a = Ok (bool_decide (is_Some (a_cur A a)), s') /\ stands s' A.
Proof.
  intros Hs. destruct (query_stands (OpExists a) s A _ Hs I eq_refl) as (s' & Hr & Hs'). apply answered_ok in Hr as (u & Hr & [= Hu]).
  exists s'. by rewrite Hr, Hu.
Qed.

Lemma exists_and_not_null_stands s A a : stands s A -> exists v s', exists_and_not_null keccak s a = Ok (v, s') /\ stands s' A.
Proof.
  intros Hs. destruct (query_stands (OpExistsAndNotNull a) s A _ Hs I eq_refl) as (s' & Hr & Hs'). apply answered_ok in Hr as (u & Hr & _).
  by exists u, s'.
Qed.

(** A contract may be created where nothing is or an unused account is. *)
Lemma has_code_or_nonce_stands s A a :
  stands s A -> exists v s', exists_and_has_code_or_nonce keccak s a = Ok (v, s') /\ stands s' A /\
    (v = false <-> forall x, a_cur A a = Some x -> unused n x).
Proof.
  intros Hs. destruct (query_stands (OpExistsAndHasCodeOrNonce a) s A _ Hs I eq_refl) as (s' & Hr & Hs').
  apply answered_ok in Hr as (u & Hr & [= Hu]). exists u, s'. split; [done|]. split; [done|]. rewrite Hu. unfold unused.
  destruct (a_cur A a) as [x|]; [|done]. rewrite orb_false_iff, !negb_false_iff, !Z.eqb_eq. split; [by intros ? ? [= <-]|]. intros Hx. by apply Hx.
Qed.

Lemma storage_at_stands s A a key : stands s A -> exists v s', storage_at keccak s a key = Ok (v, s') /\ stands s' A /\ is_u256 v.
Proof.
  intros Hs. destruct (query_stands (OpStorageAt a key) s A _ Hs I eq_refl) as (s' & Hr & Hs').
  apply answered_ok in Hr as (u & Hr & [= Hu]). exists u, s'. split; [done|]. split; [done|]. rewrite Hu.
  destruct (a_cur A a) as [x|] eqn:Hx; [|done]. apply (lg_account _ _ _ (sd_ledger _ _ Hs) a x Hx).
Qed.

Lemma code_stands s A a : stands s A -> exists s', State.code keccak s a = Ok (aa_code <$> a_cur A a, s') /\ stands s' A.
Proof.
  intros Hs. destruct (query_stands (OpCode a) s A _ Hs I eq_refl) as (s' & Hr & Hs'). apply answered_ok in Hr as (u & Hr & [= Hu]).
  exists s'. by rewrite Hr, Hu.
Qed.
Lemma code_range s A a c : stands s A -> aa_code <$> a_cur A a = Some c -> vec_ok c.
Proof.
  intros Hs. destruct (a_cur A a) as [x|] eqn:Hx; [|done]. intros [= <-]. apply (lg_account _ _ _ (sd_ledger _ _ Hs) a x Hx).
Qed.

Lemma code_hash_stands s A a : stands s A -> exists h s', State.code_hash keccak s a = Ok (h, s') /\ stands s' A /\ is_u256 h.
Proof.
  intros Hs. destruct (query_stands (OpCodeHash a) s A _ Hs I eq_refl) as (s' & Hr & Hs').
  apply answered_ok in Hr as (u & Hr & [= Hu]). exists u, s'. split; [done|]. split; [done|]. rewrite Hu.
  destruct (a_cur A a) as [x|] eqn:Hx; [|done]. apply (lg_account _ _ _ (sd_ledger _ _ Hs) a x Hx).
Qed.

Lemma code_size_stands s A a : stands s A -> exists o s', State.code_size keccak s a = Ok (o, s') /\ stands s' A /\ is_u256 (default 0 o).
Proof.
  intros Hs. destruct (query_stands (OpCodeSize a) s A _ Hs I eq_refl) as (s' & Hr & Hs').
  apply answered_ok in Hr as (u & Hr & [= Hu]). exists u, s'. split; [done|]. split; [done|]. rewrite Hu.
  destruct (a_cur A a) as [x|] eqn:Hx; [|done]. destruct (ak_code _ _ (lg_account _ _ _ (sd_ledger _ _ Hs) a x Hx)) as [_ Hlen].
  pose proof (len_nonneg (aa_code x)). split; lia.
Qed.

(** ** Changes *)
Lemma transfer_stands st s A from to v mode :
  stands s A -> in_u 160 from -> in_u 160 to -> 0 <= v <= held (a_cur A) from -> is_Some (a_cur A from) -> mode_fits mode ->
  (st = true -> v = 0 \/ from = to) ->
  exists mode' s' A', transfer_balance keccak s from to v mode = Ok (mode', s') /\ stands s' A' /\ moved st 0 0 A A'.
Proof.
  intros Hs Hf Ht Hv Hsome Hm Hst.
  destruct (transfer_ledger n base lean st A from to v mode (sd_ledger _ _ Hs) Hf Ht Hv Hsome Hm Hst) as (mode' & A' & Hop & Hl & Hmv).
  destruct (op_stands (OpTransferBalance from to v mode) s A (AMode mode') A' Hs I) as (s' & Hr & Hs'); [|done|].
  { cbn [abs_op]. by rewrite Hop. }
  apply answered_ok in Hr as (u & Hr & [= ->]). by exists mode', s', A'.
Qed.

Lemma sub_balance_stands s A a v mode :
  stands s A -> in_u 160 a -> 0 <= v <= held (a_cur A) a -> mode_fits mode ->
  exists mode' s' A', sub_balance keccak s a v mode = Ok (mode', s') /\ stands s' A' /\ moved false 0 (- v) A A' /\
    (forall b, b <> a -> a_cur A' b = a_cur A b) /\ held (a_cur A') a = held (a_cur A) a - v /\
    forall x, a_cur A a = Some x -> exists x', a_cur A' a = Some x' /\ aa_nonce x' = aa_nonce x.
Proof.
  intros Hs Ha Hv Hm.
  destruct (sub_balance_ledger n base lean A a v mode (sd_ledger _ _ Hs) Ha Hv Hm) as (mode' & A' & Hop & Hm' & Hl & Hmv & Hc).
  destruct (op_stands (OpSubBalance a v mode) s A (AMode mode') A' Hs I) as (s' & Hr & Hs'); [|done|].
  { cbn [abs_op]. by rewrite Hop. }
  apply answered_ok in Hr as (u & Hr & [= ->]). exists mode', s', A'. do 3 (split; [done|]). destruct Hc as [(_ & -> & ->)| ->].
  - split_and!; [done|lia|]. intros x Hx. by exists x.
  - split_and!.
    + intros b Hb. by apply upd_ne.
    + cbn [a_cur set_cur]. rewrite held_upd, decide_True by done. cbn. rewrite account_at_balance. lia.
    + intros x Hx. eexists. cbn. rewrite upd_eq. split; [done|]. cbn. unfold account_at. by rewrite Hx.
Qed.

Lemma add_balance_stands s A a v mode :
  stands s A -> in_u 160 a -> 0 <= v -> total (a_cur A) + v < 2 ^ 256 -> mode_fits mode ->
  exists mode' s' A', add_balance keccak s a v mode = Ok (mode', s') /\ stands s' A' /\ moved false 0 v A A' /\
    a_add_balance n A a v mode = Some (mode', A').
Proof.
  intros Hs Ha Hv Ht Hm.
  destruct (add_balance_ledger n base lean A a v mode (sd_ledger _ _ Hs) Ha Hv Ht Hm) as (mode' & A' & Hop & Hm' & Hl & Hmv & _).
  destruct (op_stands (OpAddBalance a v mode) s A (AMode mode') A' Hs I) as (s' & Hr & Hs'); [|done|].
  { cbn [abs_op]. by rewrite Hop. }
  apply answered_ok in Hr as (u & Hr & [= ->]). by exists mode', s', A'.
Qed.

(** Nonces may still grow by [k]. *)
Definition nonce_room (k : Z) A : Prop := exists m, n + 1 <= m /\ nonces_le m (a_cur A) /\ m + k < 2 ^ 256.

Lemma nonce_room_mono k l A : k <= l -> nonce_room l A -> nonce_room k A.
Proof. intros ? (m & ? & ? & ?). exists m. split_and!; [done..|lia]. Qed.
Lemma nonce_room_moved st k l e A A' : 0 <= k -> moved st k e A A' -> nonce_room l A -> nonce_room (l - k) A'.
Proof. intros Hk Hmv (m & Hm & Hle & Hlt). exists (m + k). split_and!; [lia| |lia]. by apply (mv_nonces _ _ _ _ _ _ _ Hmv). Qed.

Lemma inc_nonce_stands s A a :
  stands s A -> in_u 160 a -> nonce_room 1 A ->
  exists s' A', inc_nonce keccak s a = Ok (tt, s') /\ stands s' A' /\ moved false 1 0 A A' /\
    (exists x, a_cur A' a = Some x /\ n < aa_nonce x /\ aa_nonce x = nonce_of A a + 1) /\
    (forall b, held (a_cur A') b = held (a_cur A) b) /\ forall b, b <> a -> a_cur A' b = a_cur A b.
Proof.
  intros Hs Ha Hr. destruct (inc_nonce_ledger n base lean A a (sd_ledger _ _ Hs) Ha Hr) as (A' & Hop & Hl & Hmv & Hx).
  destruct (op_stands (OpIncNonce a) s A AUnit A' Hs I) as (s' & Hrun & Hs'); [|done|].
  { cbn [abs_op]. by rewrite Hop. }
  apply answered_ok in Hrun as ([] & Hrun & _). exists s', A'. do 3 (split; [done|]). unfold account_at in Hx. unfold nonce_of. by destruct (a_cur A a).
Qed.

Lemma set_storage_stands s A a key value :
  stands s A -> in_u 160 a -> is_u256 value ->
  exists s' A', set_storage keccak s a key value = Ok (tt, s') /\ stands s' A' /\ moved false 0 0 A A'.
Proof.
  intros Hs Ha Hv. destruct (set_storage_ledger n base lean A a key value (sd_ledger _ _ Hs) Ha Hv) as (A1 & Hop & Hl & Hmv).
  assert (Hex : exists A', abs_op keccak n A (OpSetStorage a key value) = Some (AUnit, A') /\ ledger (a_cur A') /\ moved false 0 0 A A').
  { cbn [abs_op]. rewrite Hop. destruct (_ =? value); [exists A; split_and!; [done|apply Hs|apply moved_refl]|by exists A1]. }
  destruct Hex as (A' & Hop' & Hl' & Hmv').
  destruct (op_stands (OpSetStorage a key value) s A AUnit A' Hs I Hop' Hl') as (s' & Hrun & Hs').
  apply answered_ok in Hrun as ([] & Hrun & _). by exists s', A'.
Qed.

Lemma init_code_stands s A a code :
  stands s A -> in_u 160 a -> vec_ok code -> bare base a ->
  exists s' A', init_code keccak s a code = Ok (tt, s') /\ stands s' A' /\ moved false 0 0 A A'.
Proof.
  intros Hs Ha Hc Hb.
  destruct (set_code_ledger n base lean A a (keccak code) code (sd_ledger _ _ Hs) Ha (Hkeccak code) Hc Hb) as (A' & Hop & Hl & Hmv).
  destruct (op_stands (OpInitCode a code) s A AUnit A' Hs I) as (s' & Hrun & Hs'); [|done|].
  { cbn [abs_op]. by rewrite Hop. }
  apply answered_ok in Hrun as ([] & Hrun & _). by exists s', A'.
Qed.

Lemma new_contract_stands s A a bal off e :
  stands s A -> in_u 160 a -> bare base a -> 0 <= off <= 1 -> n + off < 2 ^ 256 -> 0 <= bal <= held (a_cur A) a + e ->
  total (a_cur A) + e < 2 ^ 256 ->
  exists s' A', new_contract s a bal off = Ok s' /\ stands s' A' /\ moved false 0 e A A' /\ is_Some (a_cur A' a).
Proof.
  intros Hs Ha Hb Hoff Hn Hbal Ht.
  destruct (new_contract_ledger n base lean A a bal off e (sd_ledger _ _ Hs) Ha Hb Hoff Hn Hbal Ht) as [Hl Hmv].
  set (A' := set_cur A a _) in Hl, Hmv. destruct (op_stands (OpNewContract a bal off) s A AUnit A' Hs Hb) as (s' & Hrun & Hs'); [|exact Hl|].
  { cbn [abs_op]. unfold add_u256. destruct (Z.ltb_spec (n + off) (2 ^ 256)); [done|lia]. }
  cbn [run_op] in Hrun. destruct (new_contract s a bal off) as [s1| |]; [|done..]. injection Hrun as ->.
  eexists _, _. split; [done|]. split_and!; [done..|]. cbn. by rewrite upd_eq.
Qed.

(** ** Checkpoints *)
Definition opened A : AState := mkAState (a_cur A) (a_cur A :: a_saved A).

Lemma checkpoint_stands s A : stands s A -> stands (checkpoint s) (opened A).
Proof. intros [Hr Hn Hl]. split; [|done..]. by apply checkpoint_rep. Qed.

(** A computation inside a checkpoint ends with [A'], which still has what was
    saved when it was opened. *)
Lemma discard_stands st k e s A A' :
  stands s A' -> moved st k e (opened A) A' ->
  exists A2, stands (discard_checkpoint s) A2 /\ moved st k e A A2 /\ a_cur A2 = a_cur A'.
Proof.
  intros [Hr Hn Hl] Hmv. exists (mkAState (a_cur A') (tail (a_saved A'))). split; [|split; [|done]].
  - split; [by apply discard_checkpoint_rep|by rewrite discard_start_nonce|done].
  - destruct Hmv as [Hs Ht Hlv Hno Hst]. split; try done. cbn. by rewrite Hs.
Qed.

Lemma revert_stands st k e s A A' : ledger (a_cur A) -> stands s A' -> moved st k e (opened A) A' -> stands (revert_to_checkpoint s) A.
Proof.
  intros Hl [Hr Hn _] Hmv. split; [|by rewrite revert_start_nonce|done].
  pose proof (revert_sim keccak D root codes base s A' (a_cur A) (a_saved A) Hr (mv_saved _ _ _ _ _ _ _ Hmv)) as Hrep. by destruct A.
Qed.

(** [s] stands for one state only. *)
Lemma stands_unique s A1 A2 : stands s A1 -> stands s A2 -> forall a, aeq (a_cur A1 a) (a_cur A2 a).
Proof. intros [[_ Hc1 _] _ _] [[_ Hc2 _] _ _] a. by rewrite <-Hc1. Qed.

Lemma nonce_room_unique s A1 A2 k : stands s A1 -> stands s A2 -> nonce_room k A1 -> nonce_room k A2.
Proof.
  intros Hs1 Hs2 (m & Hm & Hle & Hlt). exists m. split_and!; [done| |done]. intros a x Hx.
  pose proof (stands_unique s A1 A2 Hs1 Hs2 a) as Ha. rewrite Hx in Ha. destruct (a_cur A1 a) as [y|] eqn:Hy; [|done].
  destruct Ha as (_ & <- & _). by apply (Hle a).
Qed.
End ledger_state.

(** ** Removing accounts at the end *)

(** Only removals happened, with no checkpoint open. *)
Definition purged A A' : Prop := a_saved A' = [] /\ forall a, a_cur A' a = a_cur A a \/ a_cur A' a = None.

Lemma purged_refl A : a_saved A = [] -> purged A A.
Proof. intros Hs. split; [done|]. by left. Qed.
Lemma purged_trans A1 A2 A3 : purged A1 A2 -> purged A2 A3 -> purged A1 A3.
Proof.
  intros [_ H12] [Hs H23]. split; [done|]. intros a. destruct (H23 a) as [->| ->]; [apply H12|by right].
Qed.

Lemma purged_total n base A A' : ledger n base (a_cur A) -> purged A A' -> total (a_cur A') <= total (a_cur A).
Proof.
  intros Hl [_ Hp]. apply sum_le. intros a. pose proof (held_range n base _ a Hl). unfold held in *. destruct (Hp a) as [->| ->]; [done|lia].
Qed.

Section removal.
Context {DB C : Type} `{HashDB DB} `{LruLaws C} (keccak : bytes -> Z) (D : DB) (root : Z) (codes : Z -> option bytes).
Context {B : Type} `{!Backend B DB C} `{!BackendLaws keccak D root codes B}.
(** A backend without a shared cache. *)
Context (Hpriv : forall b a, backend_ok b -> backend_private b a) (n : Z).
Implicit Types (s : State B C) (A : AState) (a : Z).

#[local] Abbreviation stands := (stands keccak D root codes n).

Lemma kill_stands base s A a :
  stands base s A -> a_saved A = [] ->
  stands (fun a' => if decide (a' = a) then fun _ => 0 else base a') (kill_account s a) (set_cur A a None).
Proof.
  intros [Hr Hn [Hst Hacc Hun Ht]] Hsv. pose proof (rep_ok _ _ _ _ _ _ _ Hr) as Hok.
  split; [|by rewrite kill_account_start_nonce|].
  - apply kill_account_rep; [done| |right; apply Hpriv, Hok]. by apply (unwinds_nil keccak D root codes base A s Hr).
  - split; [done| | |].
    + intros b x. cbn. unfold upd. case_decide; [done|apply Hacc].
    + intros b Hb. unfold bare. case_decide as Hba; [done|]. apply Hun. intros x Hx. apply Hb. cbn. by rewrite upd_ne.
    + cbn. pose proof (purged_total n base A (set_cur A a None)) as Hp. cbn in Hp. eapply Z.le_lt_trans; [apply Hp|exact Ht]; [done|].
      split; [done|]. intros b. cbn. unfold upd. case_decide; [by right|by left].
Qed.

Lemma kills_stand {T} (p : T -> bool) (f : T -> Z) l : forall base s A,
  stands base s A -> a_saved A = [] ->
  exists base' A', stands base' (fold_left (fun s x => if p x then kill_account s (f x) else s) l s) A' /\ purged A A'.
Proof.
  induction l as [|x l IH]; intros base s A Hs Hsv; cbn [fold_left]; [exists base, A; split; [done|by apply purged_refl]|].
  destruct (p x); [|exact (IH base s A Hs Hsv)]. destruct (IH _ _ _ (kill_stands base s A (f x) Hs Hsv)) as (base' & A' & Hs' & Hp); [done|].
  exists base', A'. split; [done|]. apply (purged_trans _ (set_cur A (f x) None)); [|done]. split; [done|]. intros b. cbn. unfold upd. case_decide; [by right|by left].
Qed.

Lemma kill_all_stands base s A l :
  stands base s A -> a_saved A = [] -> exists base' A', stands base' (fold_left kill_account l s) A' /\ purged A A'.
Proof. intros Hs Hsv. exact (kills_stand (fun _ => true) id l base s A Hs Hsv). Qed.

Lemma kill_garbage_stands base s A t re mb kc :
  stands base s A -> a_saved A = [] -> exists base' A', stands base' (kill_garbage s t re mb kc) A' /\ purged A A'.
Proof.
  intros Hs Hsv. unfold kill_garbage.
  destruct (kills_stand (fun x => to_kill t re mb kc x.1 x.2) fst (map_to_list (st_cache s)) base s A Hs Hsv) as (base' & A' & Hs' & Hp).
  exists base', A'. split; [|done]. revert Hs'. generalize (map_to_list (st_cache s)). intros l. clear.
  assert (Heq : forall s, fold_left (fun s '(a, e) => if to_kill t re mb kc a e then kill_account s a else s) l s =
    fold_left (fun s x => if to_kill t re mb kc x.1 x.2 then kill_account s x.1 else s) l s).
  { induction l as [|[a e] l IH]; intros s'; cbn; [done|]. apply IH. }
  by rewrite Heq.
Qed.
End removal.
