(* ===== verification/ExternalitiesLaws.v ===== *)
(** * The externalities keep the laws of [Ext]

    The invariant of [Externalities] over the state, the relation between the
    worlds of one execution, and the laws for everything but calls and
    creations, which need the level below. *)
From stdpp Require Import base list numbers gmap.
From S2P Require Import Prelude Words Vm VmLaws Cost JumpDests Interpreter EvmSteps InterpreterSafety Account State StateSpec StateWrites StateOps Substate Builtin EthMachine Transaction Executive Ledger LedgerState.

#[local] Arguments KECCAK_EMPTY : simpl never.

(** ** What execution relies on *)

(** A built-in has a price and, if the price can be paid, a result. *)
Definition builtin_ok (b : Builtin) : Prop :=
  forall input, vec_ok input ->
    exists c, 0 <= c /\ (forall E, cost (E := E) (pricer b) input = Ok c) /\
      (c < 2 ^ 64 -> wp (native b input (Flexible [])) (fun out => vec_ok (bytes_of out)) any).

(** The rules of the chain at the block, and the block. *)
Record chain_ok (machine : EthereumMachine) (info : EnvInfo) (sched : Schedule) : Prop := {
  co_sched : sched = schedule machine (number info);
  co_schedule : schedule_ok sched = true;
  co_data_gas : price (create_data_gas sched) = true;
  co_eip86 : eip86 sched = false;
  co_wasm : supports_wasm machine = false;
  co_builtin a b : builtin machine a (number info) = Some b -> builtin_ok b;
  co_env : env_ok info;
  co_number : 0 <= number info /\ number info + 256 < Z.min (2 ^ 64) (eip210_transition (mc_params machine));
  co_hashes i : 0 <= i < Z.min 256 (number info) -> exists h, last_hashes info !! Z.to_nat i = Some h /\ is_u256 h;
}.

(** The rules leave empty accounts uncreated. *)
Definition lean_rules (sched : Schedule) : bool :=
  match to_cleanup_mode Substate_new sched with ForceCreate => false | _ => true end.

Lemma cleanup_mode_fits sub sched : mode_fits (lean_rules sched) (to_cleanup_mode sub sched).
Proof. unfold lean_rules, to_cleanup_mode. by destruct (negb _), (no_empty sched), (kill_empty sched). Qed.

(** A substate counts from zero and removes addresses. *)
Definition sub_ok (s : Substate) : Prop := 0 <= sstore_clears_count s /\ forall a, a ∈ suicides s -> in_u 160 a.

Lemma sub_ok_new : sub_ok Substate_new.
Proof. by split. Qed.
Lemma sub_ok_touched mode s : sub_ok s -> sub_ok (with_touched mode s).
Proof. by destruct mode. Qed.

Section laws.
Context {DB C J : Type} `{HashDB DB} `{LruLaws C} `{JumpCache J} (keccak : bytes -> Z) (D : DB) (root : Z) (codes : Z -> option bytes).
Context {B : Type} `{!Backend B DB C} `{!BackendLaws keccak D root codes B} (Hdb : db_complete keccak D root codes).
Context (Hempty : keccak [] = KECCAK_EMPTY) (Hkeccak : forall b, is_u256 (keccak b)).
Context (machine : EthereumMachine) (show_hash : Z -> String.string) (local_stack_size : Z) (jump_cache : ActionParams -> J)
  (wasm_exec : VmExt (Externalities B C) -> ActionParams -> Externalities B C ->
    outcome (Error * Externalities B C) (GasLeft * Externalities B C)).
Context (info : EnvInfo) (sched : Schedule) (Hchain : chain_ok machine info sched).
Context (n : Z) (base : Z -> Z -> Z).
Implicit Types (x y : Externalities B C) (A : AState) (s : State B C).

#[local] Abbreviation lean := (lean_rules sched).
#[local] Abbreviation stands := (stands keccak D root codes n base).
#[local] Abbreviation moved := (moved n lean).
#[local] Abbreviation nonce_room := (nonce_room n).
#[local] Abbreviation externalities_ext :=
  (externalities_ext keccak machine show_hash local_stack_size jump_cache wasm_exec).

(** ** The specification *)
Definition running x : Address := o_address (x_origin_info x).

(** Where the output goes: code is stored only in a new contract. *)
Definition output_ok (st : bool) (a : Address) (p : OutputPolicy) : Prop :=
  match p with OP_Return o _ => is_bytes (bytes_of o) | OP_InitContract _ => bare base a /\ st = false end.

Record xinv (levels : nat) x A : Prop := {
  xi_stands : stands (x_state x) A;
  xi_info : x_env_info x = info;
  xi_sched : x_schedule x = sched;
  xi_depth : 0 <= x_depth x /\ max_depth sched <= x_depth x + Z.of_nat levels;
  xi_address : in_u 160 (running x);
  xi_origin : in_u 160 (o_origin (x_origin_info x)) /\ is_u256 (o_gas_price (x_origin_info x)) /\ is_u256 (o_value (x_origin_info x));
  xi_running : is_Some (a_cur A (running x));
  xi_output : output_ok (x_static_flag x) (running x) (x_output x);
  xi_sub : sub_ok (x_substate x);
}.

(** What an execution does not change. *)
Definition frame x := (x_env_info x, x_depth x, x_origin_info x, x_schedule x, x_output x, x_static_flag x).

Definition clears x : Z := sstore_clears_count (x_substate x).

Record xstep (levels : nat) (k : Z) x y : Prop := {
  xs_ok : exists A, xinv levels x A;
  xs_nonneg : 0 <= k;
  xs_frame : frame y = frame x;
  xs_clears : clears x <= clears y <= clears x + k;
  xs_sub : sub_ok (x_substate y);
  xs_moved A : xinv levels x A -> exists A', xinv levels y A' /\ moved (x_static_flag x) k 0 A A';
}.

Definition spec_of (levels : nat) : ExtSpec (Externalities B C) := {|
  ext_ok x := exists A, xinv levels x A;
  ext_address := running;
  ext_room k x := k < 2 ^ 64 /\ clears x + k < 2 ^ 256 /\ exists A, xinv levels x A /\ nonce_room k A;
  ext_step := xstep levels;
  ext_internal := False;
|}.

Lemma room_at levels k x A : ext_room (ExtSpec := spec_of levels) k x -> xinv levels x A -> nonce_room k A.
Proof.
  intros (_ & _ & A' & Hx' & Hr) Hx. eapply nonce_room_unique; [apply (xi_stands _ _ _ Hx')|apply (xi_stands _ _ _ Hx)|done].
Qed.

(** The invariant is about the state and what is framed. *)
Lemma xinv_next levels k x y A A' :
  xinv levels x A -> frame y = frame x -> sub_ok (x_substate y) -> stands (x_state y) A' -> moved (x_static_flag x) k 0 A A' -> xinv levels y A'.
Proof.
  intros [Hs Hi Hsc Hd Ha Ho Hr Hout Hc] Hf Hcl Hs' Hmv. unfold frame in Hf. injection Hf as Hf1 Hf2 Hf3 Hf4 Hf5 Hf6.
  split; unfold running in *; rewrite ?Hf1, ?Hf2, ?Hf3, ?Hf4, ?Hf5, ?Hf6; try done. by apply (mv_live _ _ _ _ _ _ _ Hmv).
Qed.

Lemma xstep_intro levels k x y :
  (exists A, xinv levels x A) -> 0 <= k -> frame y = frame x -> clears x <= clears y <= clears x + k ->
  (sub_ok (x_substate x) -> sub_ok (x_substate y)) ->
  (forall A, xinv levels x A -> exists A', stands (x_state y) A' /\ moved (x_static_flag x) k 0 A A') -> xstep levels k x y.
Proof.
  intros Hok Hk Hf Hc Hsub Hmv. assert (sub_ok (x_substate y)) by (destruct Hok as [A Hx]; apply Hsub, Hx).
  split; try done. intros A Hx. destruct (Hmv A Hx) as (A' & Hs & Hm). exists A'. split; [|done]. by eapply xinv_next.
Qed.

Lemma xstep_refl levels x : (exists A, xinv levels x A) -> xstep levels 0 x x.
Proof.
  intros Hok. apply xstep_intro; [done..|lia|done|]. intros A Hx. exists A. split; [apply Hx|apply moved_refl].
Qed.

Lemma xstep_ok levels k x y : xstep levels k x y -> exists A, xinv levels y A.
Proof. intros [[A Hx] _ _ _ _ Hm]. destruct (Hm A Hx) as (A' & ? & _). by exists A'. Qed.

Lemma xstep_trans levels k l x y z : xstep levels k x y -> xstep levels l y z -> xstep levels (k + l) x z.
Proof.
  intros [Hok Hk Hf Hc _ Hm] [_ Hl Hf' Hc' Hsub Hm']. split; [done|lia|congruence|lia|done|]. intros A Hx.
  destruct (Hm A Hx) as (A1 & Hx1 & Hmv1). destruct (Hm' A1 Hx1) as (A2 & Hx2 & Hmv2). exists A2. split; [done|].
  assert (Hst : x_static_flag y = x_static_flag x) by (unfold frame in Hf; congruence). rewrite Hst in Hmv2.
  change 0 with (0 + 0). by eapply moved_trans.
Qed.

Lemma xstep_room levels m k x y :
  0 <= m <= k -> xstep levels m x y -> ext_room (ExtSpec := spec_of levels) k x -> ext_room (ExtSpec := spec_of levels) (k - m) y.
Proof.
  intros Hmk [Hok Hk Hf Hc _ Hm] Hr. pose proof Hr as (Hlt & Hcl & A & Hx & Hn). destruct (Hm A Hx) as (A' & Hx' & Hmv).
  split; [lia|]. split; [lia|]. exists A'. split; [done|]. eapply nonce_room_moved; [|exact Hmv|done]. lia.
Qed.

(** An operation of the state, run on the externalities. *)
Lemma state_step {U} levels k x (r : outcome (TrieError * State B C) (U * State B C)) :
  (exists A, xinv levels x A) -> 0 <= k ->
  (forall A, xinv levels x A -> exists u s' A', r = Ok (u, s') /\ stands s' A' /\ moved (x_static_flag x) k 0 A A') ->
  exists u s', r = Ok (u, s') /\ xstep levels k x (set_state s' x).
Proof.
  intros [A0 Hx0] Hk Hr. destruct (Hr A0 Hx0) as (u & s' & _ & Hru & _). exists u, s'. split; [done|].
  apply xstep_intro; [by exists A0|done|done|unfold clears; cbn; lia|done|]. intros A Hx. destruct (Hr A Hx) as (u' & s2 & A' & Hru' & Hs & Hmv).
  rewrite Hru in Hru'. injection Hru' as <- <-. by exists A'.
Qed.

(** Queries. *)
Lemma query_ok {U} (P : U -> Prop) R (r : outcome (TrieError * State B C) (U * State B C)) A :
  (exists u s', r = Ok (u, s') /\ stands s' A /\ P u) -> wp (query show_hash r) P R.
Proof. by intros (u & s' & -> & _ & HP). Qed.

(** The substate is not part of the state. *)
Lemma substate_step levels k x sub :
  (exists A, xinv levels x A) -> 0 <= k -> clears x <= sstore_clears_count sub <= clears x + k ->
  (sub_ok (x_substate x) -> sub_ok sub) -> xstep levels k x (set_substate sub x).
Proof.
  intros Hok Hk Hc Hsub. apply xstep_intro; [done..|]. intros A Hx. exists A. split; [apply Hx|]. eapply moved_mono; [exact Hk|apply moved_refl].
Qed.

Lemma set_storage_step levels x key value :
  (exists A, xinv levels x A) -> is_u256 value ->
  wp (ext_set_storage_in keccak show_hash x key value) (fun '(_, x') => xstep levels 0 x x') (fun '(e, x') => raised False e /\ xstep levels 0 x x').
Proof.
  intros Hok Hv. unfold ext_set_storage_in. destruct (x_static_flag x) eqn:Hst; [by split; [|apply xstep_refl]|].
  destruct (state_step levels 0 x (set_storage keccak (x_state x) (o_address (x_origin_info x)) key value) Hok) as (u & s' & -> & Hstep); [done| |done].
  intros A Hx. destruct (set_storage_stands keccak D root codes Hdb Hempty n base lean (x_state x) A (running x) key value) as (s' & A' & Hr & Hs & Hmv);
    [apply Hx|apply Hx|done|]. exists tt, s', A'. by rewrite Hst.
Qed.

Lemma log_step levels x topics data :
  (exists A, xinv levels x A) ->
  wp (ext_log_in x topics data) (fun '(_, x') => xstep levels 0 x x') (fun '(e, x') => raised False e /\ xstep levels 0 x x').
Proof.
  intros Hok. unfold ext_log_in. destruct (x_static_flag x); [by split; [|apply xstep_refl]|]. apply substate_step; [done|done|unfold clears; cbn; lia|done].
Qed.

Lemma moved_spent st k e A A' : e <= 0 -> moved st k e A A' -> moved st k 0 A A'.
Proof. intros He [? ? ? ? ?]. split; try done. lia. Qed.

Lemma suicide_step levels x refund :
  (exists A, xinv levels x A) -> in_u 160 refund ->
  wp (ext_suicide_in keccak show_hash x refund) (fun '(_, x') => xstep levels 0 x x') (fun '(e, x') => raised False e /\ xstep levels 0 x x').
Proof.
  intros [A0 Hx0] Hto. unfold ext_suicide_in. destruct (x_static_flag x) eqn:Hst; [split; [done|]; apply xstep_refl; by exists A0|].
  destruct (balance_stands keccak D root codes Hdb Hempty n base (x_state x) A0 (running x) (xi_stands _ _ _ Hx0)) as (s1 & Hb & Hs1).
  fold (running x). rewrite Hb. cbn [try_ext mbind outcome_bind].
  set (bal := held (a_cur A0) (running x)) in *.
  assert (Hsame : forall A, xinv levels x A -> stands s1 A /\ held (a_cur A) (running x) = bal).
  { intros A Hx. destruct (balance_stands keccak D root codes Hdb Hempty n base (x_state x) A (running x) (xi_stands _ _ _ Hx)) as (s2 & Hb2 & Hs2).
    rewrite Hb in Hb2. by injection Hb2 as <- <-. }
  pose proof (held_range n base _ (running x) (sd_ledger _ _ _ _ _ _ _ _ (xi_stands _ _ _ Hx0))) as Hbal. fold bal in Hbal.
  assert (Hgo : forall s sub, xstep levels 0 x (set_state s x) -> sstore_clears_count sub = clears x ->
    suicides sub = {[running x]} ∪ suicides (x_substate x) -> xstep levels 0 x (set_substate sub (set_state s x))).
  { intros s sub Hs Hc Hsu. change 0 with (0 + 0). eapply xstep_trans; [exact Hs|]. apply substate_step; [by eapply xstep_ok|done| |].
    - rewrite Hc. unfold clears. cbn. lia.
    - intros [Hc0 Hin]. split; [by rewrite Hc|]. intros a. rewrite Hsu. intros [->%elem_of_singleton|Ha]%elem_of_union; [apply Hx0|by apply Hin]. }
  destruct (running x =? refund).
  - destruct (state_step levels 0 x (sub_balance keccak s1 (running x) bal NoEmpty)) as (m & s' & -> & Hstep); [by exists A0|done| |].
    + intros A Hx. destruct (Hsame A Hx) as [Hs HA].
      destruct (sub_balance_stands keccak D root codes Hdb Hempty n base lean s1 A (running x) bal NoEmpty) as (m & s' & A' & Hr & Hs' & Hmv & _);
        [done|apply Hx|lia|done|]. exists m, s', A'. rewrite Hst. split_and!; [done..|]. apply (moved_spent _ _ (- bal)); [lia|done].
    + by apply (Hgo s' _).
  - destruct (state_step levels 0 x (transfer_balance keccak s1 (running x) refund bal (to_cleanup_mode (x_substate x) (x_schedule x))))
      as (m & s' & -> & Hstep); [by exists A0|done| |].
    + intros A Hx. destruct (Hsame A Hx) as [Hs HA].
      destruct (transfer_stands keccak D root codes Hdb Hempty n base lean (x_static_flag x) s1 A (running x) refund bal
        (to_cleanup_mode (x_substate x) (x_schedule x))) as (m & s' & A' & Hr & Hs' & Hmv);
        [done|apply Hx|done|lia|apply Hx|rewrite (xi_sched _ _ _ Hx); apply cleanup_mode_fits|congruence|]. by exists m, s', A'.
    + refine (Hgo s' _ Hstep _ _); unfold clears; by destruct m.
Qed.

Lemma clears_step levels x :
  ext_room (ExtSpec := spec_of levels) 1 x ->
  exists x', ext_inc_sstore_clears_in x = Some x' /\ xstep levels 1 x x'.
Proof.
  intros (_ & Hc & A & Hx & _). unfold ext_inc_sstore_clears_in. unfold clears in Hc. rewrite add_chk_ok by done.
  eexists. split; [done|]. apply substate_step; [by exists A|done|unfold clears; cbn; lia|]. intros [? ?]. split; [cbn; lia|done].
Qed.

(** The block hashes are those of the environment: the contract of EIP-210 is
    not in force. *)
Lemma blockhash_ok levels sub x k :
  (exists A, xinv levels x A) -> is_u256 k ->
  exists h x', ext_blockhash_in keccak machine show_hash local_stack_size jump_cache wasm_exec sub x k = Some (h, x') /\
    is_u256 h /\ xstep levels 0 x x'.
Proof.
  intros Hok Hk. pose proof Hok as [A Hx]. unfold ext_blockhash_in. rewrite (xi_info _ _ _ Hx).
  destruct (co_number _ _ _ Hchain) as [Hn0 Hn]. rewrite add_chk_ok by lia.
  destruct (Z.leb_spec (eip210_transition (mc_params machine)) (number info + 256)); [lia|].
  destruct (_ && _) eqn:Hin; [|exists 0, x; split_and!; [done..|by apply xstep_refl]].
  apply andb_true_iff in Hin as [Hlt Hge]. b2p. assert (Hlow : low_u64 k = k) by (unfold low_u64; apply Z.mod_small; destruct Hk; lia).
  rewrite Hlow in *. destruct Hk. destruct (co_hashes _ _ _ Hchain (number info - k - 1)) as (h & -> & Hh); [lia|].
  exists h, x. split_and!; [done..|by apply xstep_refl].
Qed.

(** ** The laws, given those of calls and creations *)
Section given_calls.
Context (levels : nat) (sub : option (VmExt (Externalities B C))).
#[local] Existing Instance spec_of.
#[local] Instance this_ext : VmExt (Externalities B C) := externalities_ext sub.
#[local] Instance this_spec : ExtSpec (Externalities B C) := spec_of levels.

Definition creates_ok : Prop := forall x gas value code scheme,
  ext_ok x -> is_u256 gas -> is_u256 value -> vec_ok code -> ext_depth x < max_depth (ext_schedule x) ->
  funded x (ext_address x) value -> ext_room (1 + gas) x ->
  exists r x', ext_create x gas value code scheme = Some (r, x') /\ create_result_ok gas r /\ ext_step (1 + gas - create_returned r) x x'.

Definition calls_ok : Prop := forall x gas sender receiver value input code_addr output ct,
  ext_ok x -> is_u256 gas -> in_u 160 sender -> in_u 160 receiver -> in_u 160 code_addr -> vec_ok input -> is_bytes output ->
  ext_depth x < max_depth (ext_schedule x) -> call_shape x sender receiver code_addr value ct -> ext_room gas x ->
  exists r out x', ext_call x gas sender receiver value input code_addr output ct = Some (r, out, x') /\
    call_result_ok gas r /\ len out = len output /\ is_bytes out /\ ext_step (gas - call_returned r) x x'.

Lemma laws_given_calls : creates_ok -> calls_ok -> ExtLaws (Externalities B C).
Proof.
  intros Hcreate Hcall. split; try exact Hcreate; try exact Hcall.
  - apply xstep_refl.
  - apply xstep_trans.
  - intros k l x y Hkl [Hok Hk Hf Hc Hsub Hm]. split; [done|lia|done|lia|done|]. intros A Hx. destruct (Hm A Hx) as (A' & Hx' & Hmv).
    exists A'. split; [done|]. by eapply moved_mono.
  - apply xstep_ok.
  - intros k x y [_ _ Hf _ _ _]. unfold frame in Hf. cbn. congruence.
  - intros k x y [_ _ Hf _ _ _]. unfold frame in Hf. cbn. unfold running. congruence.
  - apply xstep_room.
  - intros k l x Hkl (Hlt & Hc & A & Hx & Hr). split; [lia|]. split; [lia|]. exists A. split; [done|]. eapply nonce_room_mono; [|done]. lia.
  - intros x k [A Hx] _. eapply (query_ok _ _ _ A). by apply storage_at_stands, Hx.
  - intros x k v Hok _ Hv. by apply set_storage_step.
  - intros x a [A Hx] _. eapply (query_ok _ _ _ A). destruct (exists_stands keccak D root codes Hdb Hempty n base (x_state x) A a (xi_stands _ _ _ Hx)) as (s' & Hr & Hs).
    by eexists _, _.
  - intros x a [A Hx] _. eapply (query_ok _ _ _ A).
    destruct (exists_and_not_null_stands keccak D root codes Hdb Hempty n base (x_state x) A a (xi_stands _ _ _ Hx)) as (v & s' & Hr & Hs). by eexists _, _.
  - intros x [A Hx]. eapply (query_ok _ _ _ A). destruct (balance_stands keccak D root codes Hdb Hempty n base (x_state x) A (running x) (xi_stands _ _ _ Hx)) as (s' & Hr & Hs).
    eexists _, _. split_and!; [done..|]. by eapply held_range, sd_ledger, Hx.
  - intros x a [A Hx] _. eapply (query_ok _ _ _ A). destruct (balance_stands keccak D root codes Hdb Hempty n base (x_state x) A a (xi_stands _ _ _ Hx)) as (s' & Hr & Hs).
    eexists _, _. split_and!; [done..|]. by eapply held_range, sd_ledger, Hx.
  - apply blockhash_ok.
  - intros x a [A Hx] _. destruct (code_stands keccak D root codes Hdb Hempty n base (x_state x) A a (xi_stands _ _ _ Hx)) as (s' & Hr & Hs).
    cbn. rewrite Hr. cbn. destruct (aa_code <$> a_cur A a) as [c|] eqn:Hc; cbn; [|by split; [constructor|]]. by eapply code_range.
  - intros x a [A Hx] _. destruct (code_size_stands keccak D root codes Hdb Hempty n base (x_state x) A a (xi_stands _ _ _ Hx)) as (o & s' & Hr & Hs & Ho).
    cbn. by rewrite Hr.
  - intros x topics d Hok _ _. by apply log_step.
  - intros x a Hok Ha. by apply suicide_step.
  - intros x [A Hx]. cbn. rewrite (xi_info _ _ _ Hx). apply (co_env _ _ _ Hchain).
  - intros x _ Hr. by apply clears_step.
  - intros x pc i g Hok. eexists _, _. split; [done|]. by apply xstep_refl.
  - intros x pc i g Hok. eexists. split; [done|]. by apply xstep_refl.
  - intros x g st md sd Hok. eexists. split; [done|]. by apply xstep_refl.
Qed.
End given_calls.

(** ** The end of an execution *)

(** Where output goes stays where it was, with room for as many bytes. *)
Definition same_output (p q : OutputPolicy) : Prop :=
  match p, q with
  | OP_Return (Fixed a) _, OP_Return (Fixed b) _ => len b = len a /\ is_bytes b
  | OP_Return (Flexible _) _, OP_Return (Flexible b) _ => is_bytes b
  | OP_InitContract _, OP_InitContract _ => True
  | _, _ => False
  end.

Lemma same_output_refl st a p : output_ok st a p -> same_output p p.
Proof. by destruct p as [[b|b] c|c]; cbn. Qed.

Lemma ret_ok levels x A g rd apply :
  xinv levels x A -> 0 <= g -> rd_ok rd ->
  wp (ext_ret_in keccak show_hash x g rd apply)
    (fun '(g', x') => 0 <= g' <= g /\ x_substate x' = x_substate x /\ same_output (x_output x) (x_output x') /\
      exists A', stands (x_state x') A' /\ moved (x_static_flag x) 0 0 A A')
    (fun '(e, x') => raised False e /\ x_substate x' = x_substate x /\ same_output (x_output x) (x_output x') /\
      exists A', stands (x_state x') A' /\ moved (x_static_flag x) 0 0 A A').
Proof.
  intros Hx Hg (d & Hd & Hdv). unfold ext_ret_in.
  assert (Hd' : rd_deref (E := Error * Externalities B C) rd = Ok d).
  { unfold rd_deref, add_chk, slice in *. destruct (rd_offset rd + rd_size rd <? 2 ^ 64); [|done]. cbn in *.
    destruct (_ && _) in *; [by injection Hd as ->|done]. }
  rewrite Hd'. cbn [mbind outcome_bind]. pose proof (xi_output _ _ _ Hx) as Ho. pose proof (same_output_refl _ _ _ Ho) as Hrefl.
  assert (Hstay : exists A', stands (x_state x) A' /\ moved (x_static_flag x) 0 0 A A') by (exists A; split; [apply Hx|apply moved_refl]).
  destruct (x_output x) as [[b|b] c|c] eqn:Hp; [| |destruct apply].
  - cbn. split_and!; first [done|lia|apply Hdv].
  - rename Ho into Hb. destruct Hdv as [Hdb' _]. pose proof (len_nonneg b). pose proof (len_nonneg d). cbn in Hb. cbn. split_and!; [done|lia|done| | |done].
    + unfold len in *. rewrite length_app, length_take, length_drop. lia.
    + apply Forall_app; split; [by apply Forall_take|by apply Forall_drop].
  - pose proof (price_spec _ (co_data_gas _ _ _ Hchain)) as Hpr. rewrite (xi_sched _ _ _ Hx). destruct Hdv as [Hdb' Hdl]. pose proof (len_nonneg d).
    rewrite mul_chk_ok by nia. cbn [mbind outcome_bind]. destruct (_ || _) eqn:Hover.
    + destruct (exceptional_failed_code_deposit sched); cbn; rewrite ?Hp; split_and!; try done; lia.
    + apply orb_false_iff in Hover as [Hle _]. b2p. destruct Ho as [Hbare Hst].
      destruct (init_code_stands keccak D root codes Hdb Hempty Hkeccak n base lean (x_state x) A (running x) d) as (s' & A' & Hr & Hs & Hmv);
        [apply Hx|apply Hx|done|done|]. cbn [x_state set_output x_origin_info]. fold (running x). rewrite Hr. cbn [try_ext mbind outcome_bind].
      rewrite sub_chk_ok by lia. cbn. split_and!; [lia|nia|done|done|]. exists A'. by rewrite Hst.
  - cbn. rewrite Hp. split_and!; try done; lia.
Qed.
End laws.
