(* ===== verification/ExecutiveLaws.v ===== *)
(** * Calls and creations

    A message call or a creation ends without a panic, uses no more gas than it
    has, creates no ether and, if it fails, leaves the accounts as they were;
    with the level below it keeps the laws of [Ext], so that by induction every
    level does. *)
From stdpp Require Import base list numbers gmap.
From S2P Require Import Prelude Words Vm VmLaws Cost JumpDests Interpreter EvmSteps InterpreterSafety RlpStream RlpEncoding RlpImpls RlpCodecs Account State StateSpec StateWrites StateOps Substate Builtin EthMachine Transaction Executive TransactionCodec Ledger LedgerState ExternalitiesLaws.

#[local] Arguments KECCAK_EMPTY : simpl never.

Section executive.
Context {DB C J : Type} `{HashDB DB} `{LruLaws C} `{JumpCache J} (keccak : bytes -> Z) (D : DB) (root : Z) (codes : Z -> option bytes).
Context {B : Type} `{!Backend B DB C} `{!BackendLaws keccak D root codes B} (Hdb : db_complete keccak D root codes).
Context (Hempty : keccak [] = KECCAK_EMPTY) (Hkeccak : forall b, is_u256 (keccak b)).
Context (machine : EthereumMachine) (show_hash : Z -> String.string) (local_stack_size : Z) (jump_cache : ActionParams -> J)
  (wasm_exec : VmExt (Externalities B C) -> ActionParams -> Externalities B C ->
    outcome (Error * Externalities B C) (GasLeft * Externalities B C)).
Context (Hstack : STACK_SIZE_PER_DEPTH <= local_stack_size).
Context (info : EnvInfo) (sched : Schedule) (Hchain : chain_ok machine info sched).
Context (n : Z) (base : Z -> Z -> Z).
Implicit Types (x y : Externalities B C) (A : AState) (s : State B C) (ex : Executive) (params : ActionParams).

#[local] Abbreviation lean := (lean_rules sched).
#[local] Abbreviation stands := (stands keccak D root codes n base).
#[local] Abbreviation moved := (moved n lean).
#[local] Abbreviation nonce_room := (nonce_room n).
#[local] Abbreviation output_ok := (output_ok base).
#[local] Abbreviation xinv := (xinv keccak D root codes info sched n base).
#[local] Abbreviation xstep := (xstep keccak D root codes info sched n base).
#[local] Abbreviation spec_of := (spec_of keccak D root codes info sched n base).
#[local] Abbreviation externalities_ext :=
  (externalities_ext keccak machine show_hash local_stack_size jump_cache wasm_exec).
#[local] Abbreviation executor_exec := (executor_exec keccak machine jump_cache wasm_exec).
#[local] Abbreviation exec_vm := (exec_vm keccak machine local_stack_size jump_cache wasm_exec).
#[local] Abbreviation executive_call := (executive_call keccak machine show_hash local_stack_size jump_cache wasm_exec).
#[local] Abbreviation executive_create := (executive_create keccak machine show_hash local_stack_size jump_cache wasm_exec).

(** ** Running code *)
Section level.
Context (levels : nat) (lower : option (VmExt (Externalities B C))).
Context (Hlaws : @ExtLaws (Externalities B C) (externalities_ext lower) (spec_of levels)).

Lemma empty_rd_ok : rd_ok ReturnData_empty.
Proof. exists []. by split; [|split; [constructor|]]. Qed.

Lemma whole_rd_ok b : vec_ok b -> rd_ok (ReturnData_new b 0 (len b)).
Proof.
  intros Hb. exists b. split; [|done]. destruct Hb as [_ Hl]. pose proof (len_nonneg b). unfold rd_deref, ReturnData_new. cbn [rd_offset rd_size rd_mem].
  rewrite add_chk_ok by lia. cbn [mbind outcome_bind]. rewrite slice_ok by lia. unfold len. by rewrite Z.add_0_l, Z.sub_0_r, Nat2Z.id, firstn_all.
Qed.

Lemma executor_ok params c x A :
  params_ok params -> Vm.code params = Some c -> xinv levels x A -> address params = running x ->
  ext_room (ExtSpec := spec_of levels) (gas params) x ->
  wp (executor_exec (externalities_ext lower) params x)
    (fun '(g, x') => gas_left_ok (gas params) g /\ xstep levels (gas params - gas_of g) x x')
    (fun '(e, x') => reverting e = true /\ xstep levels (gas params) x x').
Proof.
  intros Hp Hc Hx Ha Hr. unfold Executive.executor_exec. rewrite (co_wasm _ _ _ Hchain). cbn [andb]. unfold factory_exec, can_fit_in_usize.
  pose proof Hp as (_ & _ & _ & [Hg0 _] & _). pose proof Hr as [Hg _]. rewrite low_u64_small, Z.eqb_refl by done.
  unfold interpret. rewrite Hc. cbn [default from_option].
  assert (Hok : ext_ok (ExtSpec := spec_of levels) x) by (by exists A).
  assert (Hsc : schedule_ok (@ext_schedule _ (externalities_ext lower) x) = true).
  { cbn. rewrite (xi_sched _ _ _ _ _ _ _ _ _ _ _ Hx). apply (co_schedule _ _ _ Hchain). }
  destruct (exec_wp (H := usize_cost) keccak params c x ReturnData_empty (jump_cache params) Hkeccak Hp Hc Hok Hsc empty_rd_ok Ha Hr
    (Z.to_nat ((gas params + 1) * (len c + 1)))) as (r & Hr' & Hw); [lia|].
  unfold id in *. rewrite Hr'. destruct r as [[g s]|[e x']|]; cbn in *; [done| |lia]. destruct Hw as [He Hw]. split; [by destruct e|done].
Qed.

(** What an execution that used at most [k] gas leaves. *)
Definition ran (st : bool) (k : Z) A (p : OutputPolicy) x' : Prop :=
  clears x' <= k /\ sub_ok (x_substate x') /\ same_output p (x_output x') /\ exists A', stands (x_state x') A' /\ moved st k 0 A A'.

Lemma xstep_ran k x A x' :
  xinv levels x A -> xstep levels k x x' -> clears x = 0 -> same_output (x_output x) (x_output x') -> ran (x_static_flag x) k A (x_output x) x'.
Proof.
  intros Hx [_ _ _ Hc Hsub Hm] Hz Ho. destruct (Hm A Hx) as (A' & Hx' & Hmv). split; [lia|]. split_and!; [done..|]. exists A'. split; [apply Hx'|done].
Qed.

Lemma xstep_output k x x' : xstep levels k x x' -> x_output x' = x_output x /\ x_static_flag x' = x_static_flag x.
Proof. intros [_ _ Hf _ _ _]. unfold frame in Hf. split; congruence. Qed.

(** The end of an execution, after [k] of the gas. *)
Lemma finalize_ran gas x x' A g :
  xinv levels x A -> clears x = 0 -> gas_left_ok gas g -> xstep levels (gas - gas_of g) x x' ->
  wp (@finalize _ (externalities_ext lower) (Ok g) x')
    (fun '(f, y) => 0 <= f_gas_left f <= gas /\ rd_ok (f_return_data f) /\ ran (x_static_flag x) (gas - f_gas_left f) A (x_output x) y)
    (fun '(e, y) => reverting e = true /\ ran (x_static_flag x) gas A (x_output x) y).
Proof.
  intros Hx Hz [Hg Hrd] Hstep. pose proof (xstep_output _ _ _ Hstep) as [Ho Hst].
  assert (Hsame : same_output (x_output x) (x_output x')) by (rewrite Ho; eapply same_output_refl, (xi_output _ _ _ _ _ _ _ _ _ _ _ Hx)).
  destruct g as [g|g rd apply]; cbn [finalize gas_of] in *.
  - cbn. split; [done|]. split; [apply empty_rd_ok|]. by apply xstep_ran.
  - destruct (xs_moved _ _ _ _ _ _ _ _ _ _ _ _ Hstep A Hx) as (A1 & Hx1 & Hmv1). pose proof (xs_clears _ _ _ _ _ _ _ _ _ _ _ _ Hstep) as Hc. pose proof (xs_sub _ _ _ _ _ _ _ _ _ _ _ _ Hstep) as Hsub.
    pose proof (ret_ok keccak D root codes Hdb Hempty Hkeccak machine show_hash info sched Hchain n base levels x' A1 g rd apply Hx1 ltac:(lia) Hrd) as Hret.
    rewrite Ho, Hst in Hret. cbn [ext_ret Executive.externalities_ext].
    assert (Hran : forall k y, gas - g <= k -> x_substate y = x_substate x' -> same_output (x_output x) (x_output y) ->
      (exists A', stands (x_state y) A' /\ moved (x_static_flag x) 0 0 A1 A') -> ran (x_static_flag x) k A (x_output x) y).
    { intros k y Hk Hcy Hoy (A2 & Hs2 & Hmv2). unfold ran, clears. rewrite Hcy. unfold clears in *. split; [lia|]. split_and!; [done..|]. exists A2. split; [done|].
      apply (moved_mono _ _ _ (gas - g + 0)); [lia|]. change 0 with (0 + 0) at 2. eapply moved_trans; [lia|done..]. }
    destruct (ext_ret_in keccak show_hash x' g rd apply) as [[g' y]|[e y]|]; cbn in *; [| |done].
    + destruct Hret as (Hg' & Hcy & Hoy & HA). split; [lia|]. split; [done|]. apply Hran; [lia|done..].
    + destruct Hret as (He & Hcy & Hoy & HA). split; [by destruct e|]. apply Hran; [lia|done..].
Qed.

(** The context a call or a creation runs code in. *)
Definition is_static ex params : bool := ex_static ex || bool_decide (call_type params = CT_StaticCall).

Definition at_level ex : Prop :=
  ex_info ex = info /\ 0 <= ex_depth ex /\ max_depth sched <= ex_depth ex + Z.of_nat levels.

Lemma exec_vm_ok ex params c s A p :
  at_level ex -> params_ok params -> Vm.code params = Some c -> stands s A -> is_Some (a_cur A (address params)) ->
  output_ok (is_static ex params) (address params) p -> gas params < 2 ^ 64 -> nonce_room (gas params) A ->
  wp (exec_vm (externalities_ext lower) ex params s Substate_new p)
    (fun '(f, y) => 0 <= f_gas_left f <= gas params /\ rd_ok (f_return_data f) /\
      ran (is_static ex params) (gas params - f_gas_left f) A p y)
    (fun '(e, y) => reverting e = true /\ ran (is_static ex params) (gas params) A p y).
Proof.
  intros (Hi & Hd0 & Hd) Hp Hc Hs Hsome Ho Hg Hnr. unfold Executive.exec_vm.
  assert (Hth : (local_stack_size / STACK_SIZE_PER_DEPTH =? 0) = false).
  { apply Z.eqb_neq. assert (0 < local_stack_size / STACK_SIZE_PER_DEPTH) by (apply Z.div_str_pos; unfold STACK_SIZE_PER_DEPTH in *; lia). lia. }
  rewrite Hth, Hi. set (x := Externalities_new _ _ _ _ _ _ _ _). pose proof Hp as (Ha & _ & Hor & Hgu & Hgp & Hv & _).
  assert (Hx : xinv levels x A).
  { split; try done. unfold x, Externalities_new. cbn. symmetry. apply (co_sched _ _ _ Hchain). }
  pose proof (executor_ok params c x A Hp Hc Hx eq_refl) as Hexec.
  assert (Hroom : ext_room (ExtSpec := spec_of levels) (gas params) x).
  { split; [done|]. split; [unfold clears; cbn; lia|]. by exists A. }
  specialize (Hexec Hroom). destruct (executor_exec (externalities_ext lower) params x) as [[g y]|[e y]|]; [| |done].
  - destruct Hexec as [Hgl Hstep]. by apply (finalize_ran (gas params) x y A g).
  - cbn in *. destruct Hexec as [He Hexec]. split; [done|]. apply (xstep_ran _ x); [done..|]. destruct (xstep_output _ _ _ Hexec) as [-> _]. by eapply same_output_refl, (xi_output _ _ _ _ _ _ _ _ _ _ _ Hx).
Qed.

(** ** Keeping or reverting *)

(** What a call that used at most [k] gas leaves, from [A] and [sub]. *)
Definition after {O} (st : bool) (k : Z) A (sub : Substate) (w : Work B C O) : Prop :=
  sstore_clears_count sub <= sstore_clears_count (w_substate w) <= sstore_clears_count sub + k /\
  (sub_ok sub -> sub_ok (w_substate w)) /\ exists A', stands (w_state w) A' /\ moved st k 0 A A'.

(** The accounts are what they were, and nothing was logged, removed, created
    or refunded. *)
Definition undone {O} A (sub : Substate) (w : Work B C O) : Prop :=
  stands (w_state w) A /\ suicides (w_substate w) = suicides sub /\ logs (w_substate w) = logs sub /\
  sstore_clears_count (w_substate w) = sstore_clears_count sub /\ contracts_created (w_substate w) = contracts_created sub.

Lemma undone_after {O} st k A sub (w : Work B C O) : 0 <= k -> undone A sub w -> after st k A sub w.
Proof.
  intros Hk (Hs & Hsu & _ & Hc & _). split; [lia|]. split; [unfold sub_ok; by rewrite Hsu, Hc|]. exists A. split; [done|]. eapply moved_mono; [exact Hk|apply moved_refl].
Qed.

(** A result, and the output that goes with it.  An error is not an internal
    one and leaves nothing behind. *)
Definition result_ok {O} (st : bool) (gas : Z) A (sub : Substate) (out_ok : O -> Prop)
    (r : outcome (Error * Work B C O) (FinalizationResult * Work B C O)) : Prop :=
  wp r
    (fun '(f, w) => 0 <= f_gas_left f <= gas /\ rd_ok (f_return_data f) /\ after st (gas - f_gas_left f) A sub w /\
      (f_apply_state f = false -> undone A sub w) /\ out_ok (w_output w))
    (fun '(e, w) => reverting e = true /\ undone A sub w /\ out_ok (w_output w)).

Lemma touched_undone {O} A sub mode (w : Work B C O) : undone A (with_touched mode sub) w -> undone A sub w.
Proof. by destruct mode. Qed.
Lemma touched_after {O} st k A sub mode (w : Work B C O) : after st k A (with_touched mode sub) w -> after st k A sub w.
Proof. by destruct mode. Qed.
Lemma touched_result {O} st gas A sub mode (out_ok : O -> Prop) r : result_ok st gas A (with_touched mode sub) out_ok r -> result_ok st gas A sub out_ok r.
Proof. by destruct mode. Qed.

(** The state at the end of a computation inside a checkpoint. *)
Lemma discard_after {O} st k A A1 A2 s (sub sub' : Substate) (o : O) :
  stands s A2 -> moved st 0 0 (opened A) A1 -> moved st k 0 A1 A2 ->
  sstore_clears_count sub <= sstore_clears_count sub' <= sstore_clears_count sub + k -> (sub_ok sub -> sub_ok sub') ->
  after st k A sub (mkWork (discard_checkpoint s) sub' o).
Proof.
  intros Hs Hm1 Hm2 Hc Hsub. pose proof (moved_trans _ _ _ 0 k 0 0 _ _ _ ltac:(done) Hm1 Hm2) as Hm. rewrite Z.add_0_l in Hm.
  destruct (discard_stands keccak D root codes Hdb n base lean st k 0 s A A2 Hs Hm) as (A3 & Hs3 & Hm3 & _). split; [done|]. split; [done|]. by exists A3.
Qed.

Lemma revert_undone {O} st k A A1 A2 s (sub : Substate) (o : O) :
  ledger n base (a_cur A) -> stands s A2 -> moved st 0 0 (opened A) A1 -> moved st k 0 A1 A2 -> undone A sub (mkWork (revert_to_checkpoint s) sub o).
Proof.
  intros Hl Hs Hm1 Hm2. pose proof (moved_trans _ _ _ 0 k 0 0 _ _ _ ltac:(done) Hm1 Hm2) as Hm.
  split; [|done]. exact (revert_stands keccak D root codes n base lean st _ _ s A A2 Hl Hs Hm).
Qed.

Lemma enact_ok {O} st gas A A1 sub p (out : OutputPolicy -> O) res :
  ledger n base (a_cur A) -> moved st 0 0 (opened A) A1 -> 0 <= gas -> sstore_clears_count sub + gas < 2 ^ 256 ->
  wp res (fun '(f, y) => 0 <= f_gas_left f <= gas /\ rd_ok (f_return_data f) /\ ran st (gas - f_gas_left f) A1 p y) (fun '(e, y) => reverting e = true /\ ran st gas A1 p y) ->
  result_ok st gas A sub (fun o => exists q, same_output p q /\ o = out q) (enact sub out res).
Proof.
  intros Hl Hm1 Hg Hc Hres.
  assert (Hdo : forall k reverts y, 0 <= k <= gas -> ran st k A1 p y ->
    exists s' sub', enact_result (E := Error * Work B C O) reverts (x_state y) sub (x_substate y) = Ok (s', sub') /\
      after st k A sub (mkWork s' sub' (out (x_output y))) /\ (reverts = true -> undone A sub (mkWork s' sub' (out (x_output y))))).
  { intros k reverts y Hk (Hcy & [Hs0 Hsin] & _ & A2 & Hs2 & Hm2). unfold clears in Hcy. unfold enact_result. destruct reverts.
    - eexists _, _. split; [done|]. pose proof (revert_undone st k A A1 A2 (x_state y) sub (out (x_output y)) Hl Hs2 Hm1 Hm2) as Hu.
      split; [apply undone_after; [lia|done]|done].
    - unfold accrue. rewrite add_chk_ok by lia. cbn [mbind outcome_bind]. eexists _, _. split; [done|]. split; [|done].
      apply (discard_after st k A A1 A2); [done..|cbn; lia|]. intros [Hu0 Huin]. split; [cbn; lia|].
      cbn. intros a [Ha|Ha]%elem_of_union; [by apply Huin|by apply Hsin]. }
  unfold result_ok, enact. destruct res as [[f y]|[e y]|]; [| |done].
  - destruct Hres as (Hfg & Hrd & Hran). destruct (Hdo (gas - f_gas_left f) (negb (f_apply_state f)) y ltac:(lia) Hran) as (s' & sub' & -> & Haf & Hun).
    cbn. split_and!; try done; [lia|lia|intros Hap; apply Hun; by rewrite Hap|]. exists (x_output y). split; [apply Hran|done].
  - cbn in Hres. destruct Hres as [He Hres]. rewrite He. destruct (Hdo gas true y ltac:(lia) Hres) as (s' & sub' & -> & _ & Hun). cbn. split_and!; [done|by apply Hun|].
    exists (x_output y). split; [apply Hres|done].
Qed.

(** ** Message calls *)
Record call_pre ex params (w : Work B C BytesRef) A : Prop := {
  cp_level : at_level ex;
  cp_params : params_ok params;
  cp_stands : stands (w_state w) A;
  cp_clears : 0 <= sstore_clears_count (w_substate w) /\ sstore_clears_count (w_substate w) + gas params < 2 ^ 256;
  cp_gas : gas params < 2 ^ 64;
  cp_nonces : nonce_room (gas params) A;
  cp_output : is_bytes (bytes_of (w_output w));
  cp_transfer v : value params = Transfer v ->
    v <= held (a_cur A) (sender params) /\ is_Some (a_cur A (sender params)) /\
    (call_type params = CT_Call \/ call_type params = CT_StaticCall \/ sender params = address params);
  cp_code c : Vm.code params = Some c -> is_Some (a_cur A (address params));
}.

(** An output buffer filled in place. *)
Definition same_buffer (o o' : BytesRef) : Prop := same_output (OP_Return o None) (OP_Return o' None).

Lemma same_buffer_refl o : is_bytes (bytes_of o) -> same_buffer o o.
Proof. by destruct o. Qed.

Lemma write_same_buffer o input : is_bytes (bytes_of o) -> is_bytes input -> same_buffer o (snd (bytes_write o 0 input)).
Proof.
  intros Ho Hi. destruct o as [b|b]; cbn in *.
  - unfold resize. pose proof (len_nonneg b). by destruct (Z.leb_spec 0 (len b)); [|lia].
  - destruct (Z.ltb_spec 0 (len b)); cbn; [|done]. pose proof (len_nonneg input). unfold overwrite. cbn. split.
    + unfold len in *. rewrite !length_app, length_drop, !length_take. lia.
    + unfold is_bytes. rewrite !Forall_app. split_and!; [by apply Forall_take..|by apply Forall_drop].
Qed.

Lemma call_builtin_ok b ex params st s A A1 sub out :
  builtin machine (code_address params) (number info) = Some b -> ex_info ex = info -> params_ok params -> gas params < 2 ^ 64 ->
  is_bytes (bytes_of out) -> ledger n base (a_cur A) -> stands s A1 -> moved st 0 0 (opened A) A1 ->
  result_ok st (gas params) A sub (same_buffer out) (call_builtin b ex params s sub out).
Proof.
  intros Hb Hi Hp Hg Ho Hl Hs Hm. pose proof Hp as (_ & _ & _ & [Hg0 _] & _ & _ & _ & Hdata). unfold call_builtin. rewrite Hi.
  assert (Hact : is_active b (number info) = true).
  { unfold builtin in Hb. destruct (mc_builtins machine !! code_address params) as [b'|]; [|done]. destruct (is_active b' (number info)) eqn:Ha; [|done]. by injection Hb as <-. }
  rewrite Hact. cbn [negb]. set (input := default [] (Vm.data params)) in *.
  destruct (co_builtin _ _ _ Hchain _ _ Hb input Hdata) as (c & Hc0 & Hc & Hnat). rewrite Hc. cbn [mbind outcome_bind].
  assert (Hrev : forall o, undone A sub (mkWork (revert_to_checkpoint s) sub o : Work B C BytesRef)).
  { intros o. apply (revert_undone st 0 A A1 A1); [done..|apply moved_refl]. }
  destruct (Z.leb_spec c (gas params)) as [Hle|Hgt].
  - specialize (Hnat ltac:(lia)). destruct (native b input (Flexible [])) as [buf|e|]; [| |done].
    + rewrite sub_chk_ok by done. cbn. split_and!; [lia..| | |done|].
      * by apply whole_rd_ok.
      * apply (discard_after st _ A A1 A1); [done..| |lia|done]. eapply moved_mono; [|apply moved_refl]. lia.
      * apply write_same_buffer; [done|]. apply Hnat.
    + cbn. split_and!; [done|done|by apply same_buffer_refl].
  - cbn. split_and!; [done|done|by apply same_buffer_refl].
Qed.

Lemma executive_call_ok ex params w A :
  call_pre ex params w A ->
  result_ok (is_static ex params) (gas params) A (w_substate w) (same_buffer (w_output w)) (executive_call (externalities_ext lower) ex params w).
Proof.
  intros [Hlv Hp Hs [Hc0 Hc] Hg Hnr Ho Htr Hcode]. pose proof Hp as (Ha & Hsd & _ & [Hg0 _] & _ & Hvu & _). pose proof Hlv as (Hi & _).
  unfold Executive.executive_call. destruct (_ && (0 <? _)) eqn:Hmut.
  { cbn. split_and!; [done|done|by apply same_buffer_refl]. }
  rewrite Hi, <-(co_sched _ _ _ Hchain). pose proof (checkpoint_stands keccak D root codes n base _ _ Hs) as Hs1.
  pose proof (sd_ledger _ _ _ _ _ _ _ _ Hs) as Hl.
  assert (Hmove : exists mode s2 A2, (match value params with
      | Transfer val => '(mode, st) ← try_state show_hash (w_substate w) (w_output w) (transfer_balance keccak (checkpoint (w_state w)) (sender params) (address params) val
          (to_cleanup_mode (w_substate w) sched)); Ok (st, with_touched mode (w_substate w))
      | Apparent _ => Ok (checkpoint (w_state w), w_substate w) end) = Ok (s2, with_touched mode (w_substate w)) /\
      stands s2 A2 /\ moved (is_static ex params) 0 0 (opened A) A2).
  { destruct (value params) as [v|v] eqn:Hv; [|exists NoEmpty; eexists _, _; split_and!; [done|exact Hs1|apply moved_refl]].
    destruct (Htr v eq_refl) as (Hle & Hsome & Hct).
    destruct (transfer_stands keccak D root codes Hdb Hempty n base lean (is_static ex params) (checkpoint (w_state w)) (opened A) (sender params) (address params) v
      (to_cleanup_mode (w_substate w) sched)) as (mode & s2 & A2 & Hr & Hs2 & Hm2); [done..|destruct Hvu; cbn in *; lia|done|apply cleanup_mode_fits| |].
    - intros Hst. destruct Hct as [Hct|[Hct|Hct]]; [| |by right]; left; cbn in Hmut, Hvu; rewrite Hct in Hmut; unfold is_static in Hst; rewrite Hct in Hst;
        destruct (ex_static ex); cbn in *; try done; destruct Hvu, (Z.ltb_spec 0 v); (done || lia).
    - exists mode, s2, A2. rewrite Hr. by cbn. }
  destruct Hmove as (mode & s2 & A2 & -> & Hs2 & Hm2). cbn [mbind outcome_bind].
  apply (touched_result _ _ _ _ mode). destruct (builtin machine (code_address params) (number info)) as [b|] eqn:Hb.
  { by apply (call_builtin_ok b ex params _ s2 A A2). }
  destruct (Vm.code params) as [c|] eqn:Hcd.
  - pose proof (exec_vm_ok ex params c s2 A2 (OP_Return (w_output w) None) Hlv Hp Hcd Hs2) as Hvm.
    assert (Hlive : is_Some (a_cur A2 (address params))) by (apply (mv_live _ _ _ _ _ _ _ Hm2); by apply (Hcode c)).
    assert (Hroom : nonce_room (gas params) A2).
    { rewrite <-(Z.sub_0_r (gas params)). eapply nonce_room_moved; [|exact Hm2|]; done. }
    specialize (Hvm Hlive Ho Hg Hroom).
    pose proof (enact_ok (is_static ex params) (gas params) A A2 (with_touched mode (w_substate w)) _ policy_output _ Hl Hm2 Hg0
      ltac:(by destruct mode) Hvm) as Hen.
    unfold result_ok in *. destruct (enact _ _ _) as [[f w']|[e w']|]; cbn in *; [| |done].
    + destruct Hen as (? & ? & ? & ? & q & Hq & Hwo). split_and!; try done; [lia..|]. rewrite Hwo. by destruct (w_output w), q as [[]|].
    + destruct Hen as (? & ? & q & Hq & Hwo). split_and!; try done. rewrite Hwo. by destruct (w_output w), q as [[]|].
  - cbn. split_and!; [done|lia|apply empty_rd_ok| |done|by apply same_buffer_refl]. apply (discard_after _ _ A A2 A2); [done..| |lia|done].
    rewrite Z.sub_diag. apply moved_refl.
Qed.

(** ** Creations *)
Record create_pre ex params (w : Work B C (option bytes)) A : Prop := {
  rp_level : at_level ex;
  rp_params : params_ok params;
  rp_code : is_Some (Vm.code params);
  rp_stands : stands (w_state w) A;
  rp_clears : 0 <= sstore_clears_count (w_substate w) /\ sstore_clears_count (w_substate w) + gas params < 2 ^ 256;
  rp_gas : gas params < 2 ^ 64;
  rp_nonces : nonce_room (gas params) A;
  rp_sender : ex_static ex = false -> exists z, a_cur A (sender params) = Some z /\ n < aa_nonce z;
  rp_transfer v : value params = Transfer v -> v <= held (a_cur A) (sender params);
}.

(** The new account, with the value sent and what it had before. *)
Lemma create_transfer params (w : Work B C (option bytes)) s A prev off :
  stands s (opened A) -> in_u 160 (address params) -> in_u 160 (sender params) -> is_u256 (action_value (value params)) ->
  (exists z, a_cur A (sender params) = Some z /\ n < aa_nonce z) ->
  (forall v, value params = Transfer v -> v <= held (a_cur A) (sender params)) ->
  (forall z, a_cur A (address params) = Some z -> unused n z) ->
  prev = held (a_cur A) (address params) -> 0 <= off <= 1 -> n + off < 2 ^ 256 ->
  exists mode s' A', (match value params with
    | Transfer val =>
        '(mode, st) ← try_state show_hash (w_substate w) (w_output w) (sub_balance keccak s (sender params) val (to_cleanup_mode (w_substate w) sched));
        bal ← add_chk 256 val prev;
        st ← try_state show_hash (w_substate w) (w_output w) (new_contract st (address params) bal off);
        Ok (st, with_touched mode (w_substate w))
    | Apparent _ =>
        st ← try_state show_hash (w_substate w) (w_output w) (new_contract s (address params) prev off);
        Ok (st, w_substate w)
    end) = Ok (s', with_touched mode (w_substate w)) /\ stands s' A' /\ moved false 0 0 (opened A) A' /\ is_Some (a_cur A' (address params)).
Proof.
  intros Hs Ha Hsd Hv (x & Hx & Hxn) Hle Hun Hprev Hoff Hno. pose proof (sd_ledger _ _ _ _ _ _ _ _ Hs) as Hl.
  pose proof (lg_unused _ _ _ Hl (address params) Hun) as Hbare. pose proof (lg_total _ _ _ Hl) as Ht.
  assert (Hne : address params <> sender params).
  { intros Heq. rewrite Heq in Hun. destruct (Hun x Hx) as [_ Hn]. lia. }
  pose proof (held_range _ _ _ (address params) Hl) as Hpr. cbn [a_cur opened] in *.
  destruct (value params) as [v|v] eqn:Hval; cbn [action_value] in Hv.
  - destruct (sub_balance_stands keccak D root codes Hdb Hempty n base lean s (opened A) (sender params) v (to_cleanup_mode (w_substate w) sched))
      as (mode & s2 & A2 & -> & Hs2 & Hm2 & Hrest & _); [done..|destruct Hv; specialize (Hle v eq_refl); cbn; lia|apply cleanup_mode_fits|].
    cbn [try_state mbind outcome_bind]. pose proof (held_two _ _ _ _ _ Hl Ha Hsd Hne). specialize (Hle v eq_refl). rewrite add_chk_ok by lia.
    cbn [mbind outcome_bind]. pose proof (mv_total _ _ _ _ _ _ _ Hm2) as Ht2. cbn [a_cur opened] in Ht2. destruct Hv.
    assert (Hh2 : held (a_cur A2) (address params) = prev) by (subst prev; unfold held; by rewrite Hrest).
    destruct (new_contract_stands keccak D root codes Hdb Hempty n base lean s2 A2 (address params) (v + prev) off v)
      as (s3 & A3 & -> & Hs3 & Hm3 & Hsome); [done..|lia|lia|].
    cbn. exists mode, s3, A3. split_and!; [done..| |done].
    pose proof (moved_trans _ _ _ 0 0 _ _ _ _ _ ltac:(done) Hm2 Hm3) as Hm. by rewrite Z.add_opp_diag_l in Hm.
  - destruct (new_contract_stands keccak D root codes Hdb Hempty n base lean s (opened A) (address params) prev off 0)
      as (s3 & A3 & -> & Hs3 & Hm3 & Hsome); [done..|cbn; lia|cbn; lia|]. cbn. by exists NoEmpty, s3, A3.
Qed.

Lemma executive_create_ok ex params w A :
  create_pre ex params w A ->
  result_ok (ex_static ex) (gas params) A (w_substate w) (fun _ => True) (executive_create (externalities_ext lower) ex params w).
Proof.
  intros [Hlv Hp [c Hcd] Hs [Hc0 Hc] Hg Hnr Hsender Htr]. pose proof Hp as (Ha & Hsd & _ & [Hg0 _] & _ & Hvu & _). pose proof Hlv as (Hi & _).
  unfold Executive.executive_create.
  destruct (has_code_or_nonce_stands keccak D root codes Hdb Hempty n base (w_state w) A (address params) Hs) as (taken & s1 & -> & Hs1 & Hfree).
  cbn [try_state mbind outcome_bind]. destruct taken; [done|].
  destruct (_ || _) eqn:Hmut; [done|]. apply orb_false_iff in Hmut as [Hct Hst].
  rewrite Hi, <-(co_sched _ _ _ Hchain). pose proof (checkpoint_stands keccak D root codes n base _ _ Hs1) as Hs2.
  destruct (balance_stands keccak D root codes Hdb Hempty n base _ _ (address params) Hs2) as (s3 & -> & Hs3). cbn [try_state mbind outcome_bind].
  pose proof (sd_ledger _ _ _ _ _ _ _ _ Hs) as Hl.
  set (off := if no_empty sched then 1 else 0). assert (Hoff : 0 <= off <= 1) by (unfold off; by destruct (no_empty sched)).
  destruct (create_transfer params w s3 A (held (a_cur A) (address params)) off Hs3 Ha Hsd Hvu (Hsender Hst) Htr (proj1 Hfree eq_refl) eq_refl Hoff)
    as (mode & s4 & A4 & Heq & Hs4 & Hm4 & Hsome); [destruct Hnr as (m & ? & ? & ?); lia|].
  cbn [a_cur opened]. rewrite Heq. cbn [mbind outcome_bind]. rewrite Hcd. apply (touched_result _ _ _ _ mode). rewrite Hst.
  assert (Hstat : is_static ex params = false) by (unfold is_static; by rewrite Hst, Hct).
  pose proof (exec_vm_ok ex params c s4 A4 (OP_InitContract (w_output w)) Hlv Hp Hcd Hs4 Hsome) as Hvm. rewrite Hstat in Hvm.
  assert (Hroom : nonce_room (gas params) A4).
  { rewrite <-(Z.sub_0_r (gas params)). eapply nonce_room_moved; [|exact Hm4|]; done. }
  specialize (Hvm (conj (lg_unused _ _ _ Hl _ (proj1 Hfree eq_refl)) eq_refl) Hg Hroom).
  pose proof (enact_ok false (gas params) A A4 (with_touched mode (w_substate w)) _ policy_copy _ Hl Hm4 Hg0 ltac:(by destruct mode) Hvm) as Hen.
  unfold result_ok in *. destruct (enact _ _ _) as [[f w']|[e w']|]; cbn in *; [| |done].
  - destruct Hen as (? & ? & ? & ? & _). split_and!; (done || lia).
  - destruct Hen as (? & ? & _). by split_and!.
Qed.
End level.

(** ** One level on top of another *)
Section next_level.
Context (levels : nat) (lower : option (VmExt (Externalities B C))).
Context (Hlaws : @ExtLaws (Externalities B C) (externalities_ext lower) (spec_of levels)).

Lemma code_and_hash_stands s A a :
  stands s A -> exists h s', code_and_hash keccak s a = Ok ((aa_code <$> a_cur A a, h), s') /\ stands s' A /\ is_u256 h.
Proof.
  intros Hs. unfold code_and_hash. destruct (code_stands keccak D root codes Hdb Hempty n base s A a Hs) as (s1 & -> & Hs1). cbn [mbind outcome_bind].
  destruct (code_hash_stands keccak D root codes Hdb Hempty n base s1 A a Hs1) as (h & s2 & -> & Hs2 & Hh). cbn. by exists h, s2.
Qed.

(** The balance the laws speak of is the one of the ledger. *)
Lemma funded_held sub x A sender v :
  @funded _ (externalities_ext sub) (spec_of (S levels)) x sender v -> xinv (S levels) x A -> sender = running x /\ is_u256 v /\ v <= held (a_cur A) sender.
Proof.
  intros (Hs & Hv & Hle) Hx. pose proof (xi_stands _ _ _ _ _ _ _ _ _ _ _ Hx) as Hst. split; [done|]. split; [done|].
  pose proof (held_range _ _ _ sender (sd_ledger _ _ _ _ _ _ _ _ Hst)) as Hh. destruct Hle as [->|(b & Hb & Hle)]; [lia|].
  cbn in Hb. destruct (balance_stands keccak D root codes Hdb Hempty n base (x_state x) A sender Hst) as (s' & Hr & _). rewrite Hr in Hb.
  injection Hb as <-. lia.
Qed.

Lemma child_level x A : xinv (S levels) x A -> x_depth x < max_depth sched -> at_level levels (from_parent (x_env_info x) (x_depth x) (x_static_flag x)).
Proof.
  intros Hx Hd. destruct (xi_depth _ _ _ _ _ _ _ _ _ _ _ Hx). split; [apply (xi_info _ _ _ _ _ _ _ _ _ _ _ Hx)|]. cbn. lia.
Qed.

(** The result of a call, seen from the caller. *)
Lemma result_step {O} st k x (w : Work B C O) :
  (exists A, xinv (S levels) x A) -> 0 <= k -> (x_static_flag x = true -> st = true) ->
  (forall A, xinv (S levels) x A -> after st k A (x_substate x) w) ->
  xstep (S levels) k x (set_substate (w_substate w) (set_state (w_state w) x)).
Proof.
  intros Hok Hk Hst Haf. apply xstep_intro; [done|done|done| | |].
  - destruct Hok as [A Hx]. destruct (Haf A Hx) as [Hc _]. exact Hc.
  - destruct Hok as [A Hx]. destruct (Haf A Hx) as (_ & Hsub & _). exact Hsub.
  - intros A Hx. destruct (Haf A Hx) as (_ & _ & A' & Hs & Hm). exists A'. split; [done|]. by eapply moved_weaken.
Qed.

Lemma call_pre_next x A gas sender receiver value input ca output ct h s :
  xinv (S levels) x A -> is_u256 gas -> in_u 160 sender -> in_u 160 receiver -> vec_ok input -> is_bytes output ->
  x_depth x < max_depth sched -> @call_shape _ (externalities_ext (Some (externalities_ext lower))) (spec_of (S levels)) x sender receiver ca value ct ->
  ext_room (ExtSpec := spec_of (S levels)) gas x -> stands s A ->
  call_pre levels (from_parent (x_env_info x) (x_depth x) (x_static_flag x))
    (mkParams ca (Some h) receiver sender (o_origin (x_origin_info x)) gas (o_gas_price (x_origin_info x))
       (match value with Some v => Transfer v | None => Apparent (o_value (x_origin_info x)) end) (aa_code <$> a_cur A ca) (Some input) ct Separate)
    (mkWork s (x_substate x) (Fixed output)) A.
Proof.
  intros Hx Hg Hsd Hrc Hin Hout Hd Hsh Hr Hs. pose proof (room_at _ _ _ _ _ _ _ _ _ _ _ _ Hr Hx) as Hnr. pose proof Hr as (Hlt & Hcl & _).
  destruct (xi_origin _ _ _ _ _ _ _ _ _ _ _ Hx) as (Ho & Hgp & Hov). pose proof (xi_running _ _ _ _ _ _ _ _ _ _ _ Hx) as Hrun.
  assert (Hval : match value with Some v => is_u256 v | None => True end).
  { destruct ct; cbn in Hsh; [done|destruct Hsh as (_ & v & -> & _ & Hv & _); done..| |].
    - by destruct Hsh as [_ ->].
    - by destruct Hsh as (_ & -> & _). }
  split; cbn; try done.
  - by eapply child_level.
  - split_and!; cbn; try done; [by destruct value|]. destruct (a_cur A ca) as [z|] eqn:Hz; cbn; [|by split; [constructor|]].
    apply (ak_code _ _ (lg_account _ _ _ (sd_ledger _ _ _ _ _ _ _ _ Hs) ca z Hz)).
  - split; [by destruct (xi_sub _ _ _ _ _ _ _ _ _ _ _ Hx)|exact Hcl].
  - intros v Hv. destruct ct; cbn in Hsh; [done|..].
    + destruct Hsh as (_ & v' & -> & Hf). injection Hv as ->. destruct (funded_held _ _ _ _ _ Hf Hx) as (-> & _ & ?). split_and!; [done..|by left].
    + destruct Hsh as (-> & v' & -> & Hf). injection Hv as ->. destruct (funded_held _ _ _ _ _ Hf Hx) as (-> & _ & ?). split_and!; [done..|]. by do 2 right.
    + by destruct Hsh as [_ ->].
    + destruct Hsh as (_ & -> & ->). injection Hv as <-. split_and!; [|done|by right; left].
      apply (held_range _ _ _ _ (sd_ledger _ _ _ _ _ _ _ _ Hs)).
  - intros c Hc. assert (Hca : is_Some (a_cur A ca)) by (by destruct (a_cur A ca)).
    destruct ct; cbn in Hsh; [done|..]; [by destruct Hsh as [-> _]|by destruct Hsh as [-> _]..].
Qed.

#[local] Abbreviation upper := (Some (externalities_ext lower)).

Lemma next_calls : calls_ok keccak D root codes machine show_hash local_stack_size jump_cache wasm_exec info sched n base (S levels) upper.
Proof.
  intros x gas sender receiver value input ca output ct Hok Hg Hsd Hrc _ Hin Hout Hd Hsh Hr. pose proof Hok as [A0 Hx0]. cbn in Hd.
  rewrite (xi_sched _ _ _ _ _ _ _ _ _ _ _ Hx0) in Hd. cbn [ext_call this_ext Executive.externalities_ext]. unfold ext_call_in.
  destruct (code_and_hash_stands (x_state x) A0 ca (xi_stands _ _ _ _ _ _ _ _ _ _ _ Hx0)) as (h & s & Hch & _). rewrite Hch.
  set (params := mkParams _ _ _ _ _ _ _ _ _ _ _ _). set (ex := from_parent _ _ _). set (w := mkWork _ _ _).
  assert (Hres : forall A, xinv (S levels) x A -> result_ok (is_static ex params) gas A (x_substate x) (same_buffer (Fixed output))
    (executive_call (externalities_ext lower) ex params w)).
  { intros A Hx. apply (executive_call_ok levels lower Hlaws ex params w A).
    destruct (code_and_hash_stands (x_state x) A ca (xi_stands _ _ _ _ _ _ _ _ _ _ _ Hx)) as (h' & s' & Hch' & Hs' & _).
    rewrite Hch in Hch'. injection Hch' as Hcode <- <-. unfold params, w. rewrite Hcode. by apply call_pre_next. }
  assert (Hst : x_static_flag x = true -> is_static ex params = true) by (unfold is_static; cbn; by intros ->).
  pose proof (Hres A0 Hx0) as H0'. unfold result_ok in *. destruct (executive_call _ ex params w) as [[[g ap rd] w']|[e w']|] eqn:Hrun; [| |done].
  - destruct H0' as (Hgl & Hrd & _ & _ & Hbuf). cbn in Hgl, Hrd, Hbuf. destruct (w_output w') as [b|b] eqn:Hwo; [done|]. destruct Hbuf as [Hlen Hb].
    assert (Hret : forall r, r = (if ap then Success g rd else CallReverted g rd) -> call_returned r = g /\ call_result_ok gas r).
    { intros r ->. by destruct ap. }
    destruct (Hret _ eq_refl) as [Hr1 Hr2]. eexists _, _, _. split; [done|]. rewrite Hr1. split_and!; [done..|].
    apply (result_step (is_static ex params)); [done|lia|done|]. intros A Hx. by destruct (Hres A Hx) as (_ & _ & ? & _).
  - destruct H0' as (_ & _ & Hbuf). cbn in Hbuf. destruct (w_output w') as [b|b] eqn:Hwo; [done|]. destruct Hbuf as [Hlen Hb].
    eexists _, _, _. split; [done|]. cbn. split_and!; [done..|]. rewrite Z.sub_0_r.
    apply (result_step (is_static ex params)); [done|by destruct Hg|done|]. intros A Hx. destruct (Hres A Hx) as (_ & Hu & _). apply undone_after; [by destruct Hg|done].
Qed.

(** The nonce of the creator counts its creations, where anything may change. *)
Lemma nonce_step x A k s :
  stands s A -> xinv (S levels) x A -> 0 <= k -> nonce_room (1 + k) A ->
  exists s' A', (if negb (x_static_flag x) && (negb (eip86 (x_schedule x)) || negb (running x =? UNSIGNED_SENDER))
                 then inc_nonce keccak s (running x) else Ok (tt, s)) = Ok (tt, s') /\
    stands s' A' /\ moved (x_static_flag x) 1 0 A A' /\ nonce_room k A' /\
    (x_static_flag x = false -> exists z, a_cur A' (running x) = Some z /\ n < aa_nonce z) /\
    held (a_cur A') (running x) = held (a_cur A) (running x).
Proof.
  intros Hs Hx Hk Hnr. rewrite (xi_sched _ _ _ _ _ _ _ _ _ _ _ Hx), (co_eip86 _ _ _ Hchain). cbn [negb orb]. rewrite andb_true_r.
  destruct (x_static_flag x); cbn [negb].
  - exists s, A. split_and!; [done..| | |done|done]; [eapply moved_mono; [|apply moved_refl]; lia|eapply nonce_room_mono; [|done]; lia].
  - destruct (inc_nonce_stands keccak D root codes Hdb Hempty n base lean s A (running x)) as (s' & A' & -> & Hs' & Hm & (z & Hz & Hzn & _) & Hheld & _);
      [done|apply Hx|eapply nonce_room_mono; [|done]; lia|].
    exists s', A'. split_and!; [done..| |by exists z|done]. replace k with (1 + k - 1) by lia. eapply nonce_room_moved; [|exact Hm|done]. lia.
Qed.

Lemma next_creates : creates_ok keccak D root codes machine show_hash local_stack_size jump_cache wasm_exec info sched n base (S levels) upper.
Proof.
  intros x gas value code scheme Hok Hg Hv Hcode Hd Hf Hr. pose proof Hok as [A0 Hx0]. cbn in Hd.
  rewrite (xi_sched _ _ _ _ _ _ _ _ _ _ _ Hx0) in Hd. cbn [ext_create this_ext Executive.externalities_ext]. unfold ext_create_in. fold (running x).
  destruct (nonce_stands keccak D root codes Hdb Hempty n base (x_state x) A0 (running x) (xi_stands _ _ _ _ _ _ _ _ _ _ _ Hx0)) as (s & Hno & Hs). rewrite Hno.
  pose proof (nonce_of_range keccak D root codes n base s A0 (running x) Hs) as Hnu.
  destruct (contract_address_ok keccak scheme (running x) (nonce_of n A0 (running x)) code (xi_address _ _ _ _ _ _ _ _ _ _ _ Hx0) Hnu) as (a & h & -> & Ha).
  set (params := mkParams _ _ _ _ _ _ _ _ _ _ _ _). set (ex := from_parent _ _ _). change (sender params) with (running x).
  pose proof (room_at _ _ _ _ _ _ _ _ _ _ _ _ Hr Hx0) as Hnr0. destruct Hg as [Hg0 Hg1].
  destruct (nonce_step x A0 gas s Hs Hx0 Hg0 Hnr0) as (s1 & _ & Hinc & _). rewrite Hinc. set (w := mkWork _ _ _).
  assert (Hres : forall A, xinv (S levels) x A -> exists A1, moved (x_static_flag x) 1 0 A A1 /\
    result_ok (x_static_flag x) gas A1 (x_substate x) (fun _ => True) (executive_create (externalities_ext lower) ex params w)).
  { intros A Hx. pose proof (room_at _ _ _ _ _ _ _ _ _ _ _ _ Hr Hx) as Hnr. pose proof Hr as (Hlt & Hcl & _).
    destruct (nonce_stands keccak D root codes Hdb Hempty n base (x_state x) A (running x) (xi_stands _ _ _ _ _ _ _ _ _ _ _ Hx)) as (s' & Hno' & Hs').
    rewrite Hno in Hno'. injection Hno' as _ <-.
    destruct (nonce_step x A gas s Hs' Hx Hg0 Hnr) as (s1' & A1 & Hinc' & Hs1 & Hm1 & Hnr1 & Hz & Hheld). rewrite Hinc in Hinc'. injection Hinc' as <-.
    exists A1. split; [done|]. destruct (funded_held _ _ _ _ _ Hf Hx) as (_ & _ & Hle). destruct (xi_origin _ _ _ _ _ _ _ _ _ _ _ Hx) as (Ho & Hgp & _).
    apply (executive_create_ok levels lower Hlaws ex params w A1). split; cbn; try done.
    - by eapply child_level.
    - split_and!; cbn; try done; [apply Hx|by split; [constructor|]].
    - unfold clears in Hcl. split; [by destruct (xi_sub _ _ _ _ _ _ _ _ _ _ _ Hx)|lia].
    - lia.
    - intros v [= <-]. fold (running x). by rewrite Hheld. }
  assert (Hafter : forall k (w' : Work B C (option bytes)), 0 <= k -> (forall A1, result_ok (x_static_flag x) gas A1 (x_substate x) (fun _ => True) (executive_create (externalities_ext lower) ex params w) ->
      after (x_static_flag x) k A1 (x_substate x) w') ->
    forall sub, sstore_clears_count sub = sstore_clears_count (w_substate w') -> suicides sub = suicides (w_substate w') ->
    xstep (S levels) (1 + k) x (set_substate sub (set_state (w_state w') x))).
  { intros k w' Hk Hw sub Hsub Hsu. apply (result_step (x_static_flag x) (1 + k) x (mkWork (w_state w') sub (w_output w'))); [done|lia|done|].
    intros A Hx. destruct (Hres A Hx) as (A1 & Hm1 & Hr1). destruct (Hw A1 Hr1) as (Hc & Hso & A2 & Hs2 & Hm2). split; cbn; [lia|].
    split; [unfold sub_ok in *; by rewrite Hsub, Hsu|]. exists A2. split; [done|].
    change 0 with (0 + 0). by eapply moved_trans. }
  destruct (Hres A0 Hx0) as (A1 & Hm1 & Hr1). unfold result_ok in Hr1, Hafter. destruct (executive_create _ ex params w) as [[[g [] rd] w']|[e w']|]; [| | |done].
  - destruct Hr1 as (Hgl & _ & _). cbn in Hgl. eexists _, _. split; [done|]. split; [by split|]. cbn [create_returned]. rewrite <-Z.add_sub_assoc.
    apply (Hafter (gas - g) w'); [lia| |done..]. by intros A2 (_ & _ & ? & _).
  - destruct Hr1 as (Hgl & Hrd & _). cbn in Hgl, Hrd. eexists _, _. split; [done|]. split; [by split|]. cbn [create_returned]. rewrite <-Z.add_sub_assoc.
    apply (Hafter (gas - g) w'); [lia| |done..]. by intros A2 (_ & _ & ? & _).
  - eexists _, _. split; [done|]. split; [done|]. cbn [create_returned]. rewrite Z.sub_0_r. apply (Hafter gas w'); [done| |done..]. intros A2 (_ & Hu & _). by apply undone_after.
Qed.
End next_level.

(** ** Every level *)
#[local] Abbreviation ext_of := (ext_of keccak machine show_hash local_stack_size jump_cache wasm_exec).

Lemma ext_of_unfold levels : ext_of levels = externalities_ext (match levels with O => None | S levels => Some (ext_of levels) end).
Proof. by destruct levels. Qed.

Lemma ext_of_laws levels : @ExtLaws (Externalities B C) (ext_of levels) (spec_of levels).
Proof.
  induction levels as [|levels IH]; rewrite ext_of_unfold; apply laws_given_calls; try done.
  - intros x gas value code scheme [A Hx] _ _ _ Hd _ _. cbn in Hd. destruct (xi_depth _ _ _ _ _ _ _ _ _ _ _ Hx) as [_ Hlv].
    rewrite (xi_sched _ _ _ _ _ _ _ _ _ _ _ Hx) in Hd. cbn in Hlv. lia.
  - intros x gas sender receiver value input ca output ct [A Hx] _ _ _ _ _ _ Hd _ _. cbn in Hd. destruct (xi_depth _ _ _ _ _ _ _ _ _ _ _ Hx) as [_ Hlv].
    rewrite (xi_sched _ _ _ _ _ _ _ _ _ _ _ Hx) in Hd. cbn in Hlv. lia.
  - rewrite (ext_of_unfold levels) in *. by apply next_creates.
  - rewrite (ext_of_unfold levels) in *. by apply next_calls.
Qed.
End executive.
