(* ===== verification/TransactLaws.v ===== *)
(** * Transactions

    Which transactions are refused and why, and what one that is accepted does:
    it ends without a panic, charges for the gas it reports, creates no ether
    and leaves a state that stands for accounts again. *)
From stdpp Require Import base list numbers gmap.
From S2P Require Import Prelude Words Vm VmLaws Cost JumpDests Interpreter EvmSteps InterpreterSafety Account State StateSpec StateWrites StateOps Substate Builtin EthMachine Transaction Executive TransactionCodec Ledger LedgerState ExternalitiesLaws ExecutiveLaws.

#[local] Arguments KECCAK_EMPTY : simpl never.

(** ** Intrinsic gas *)
Definition byte_gas (sched : Schedule) (b : Z) : Z := if b =? 0 then tx_data_zero_gas sched else tx_data_non_zero_gas sched.
Definition data_gas (sched : Schedule) (data : bytes) : Z := sum_of (byte_gas sched) data.
Definition intrinsic_gas (sched : Schedule) (t : Transaction) : Z :=
  match t_action t with Create => tx_create_gas sched | Call _ => tx_gas sched end + data_gas sched (t_data t).

(** The prices of transactions. *)
Record tx_rules_ok (sched : Schedule) : Prop := {
  tr_depth : 0 <= max_depth sched;
  tr_gas : 0 <= tx_gas sched <= tx_create_gas sched;
  tr_create : tx_create_gas sched < 2 ^ 32;
  tr_zero : 0 <= tx_data_zero_gas sched < 2 ^ 32;
  tr_non_zero : 0 <= tx_data_non_zero_gas sched < 2 ^ 32;
  tr_sstore : 0 <= sstore_refund_gas sched < 2 ^ 32;
  tr_suicide : 0 <= suicide_refund_gas sched < 2 ^ 32;
}.

Lemma data_gas_bound sched data : tx_rules_ok sched -> 0 <= data_gas sched data <= 2 ^ 32 * len data.
Proof.
  intros [_ _ _ Hz Hnz _ _]. unfold data_gas. induction data as [|b data IH]; [done|]. cbn [sum_of]. rewrite len_cons. unfold byte_gas at 1 3.
  destruct (b =? 0); lia.
Qed.

Lemma gas_required_ok {E} sched t :
  tx_rules_ok sched -> tx_ok t -> gas_required (E := E) t sched = Ok (intrinsic_gas sched t) /\ tx_gas sched <= intrinsic_gas sched t < 2 ^ 64.
Proof.
  intros Hr (_ & _ & _ & _ & _ & _ & Hd). pose proof (data_gas_bound sched (t_data t) Hr) as Hb. pose proof Hr as [_ Hg Hc Hz Hnz _ _].
  pose proof (len_nonneg (t_data t)).
  assert (Hfold : forall data g, 0 <= g -> g + data_gas sched data < 2 ^ 64 ->
    fold_left (fun g b => g ← g; add_chk (E := E) 64 g (if b =? 0 then tx_data_zero_gas sched else tx_data_non_zero_gas sched)) data (Ok g) =
      Ok (g + data_gas sched data)).
  { clear -Hr Hz Hnz. induction data as [|b data IH]; intros g Hg Hlt; cbn [fold_left]; [by rewrite Z.add_0_r|].
    pose proof (data_gas_bound sched data Hr). change (data_gas sched (b :: data)) with (byte_gas sched b + data_gas sched data) in *.
    fold (byte_gas sched b). assert (0 <= byte_gas sched b) by (unfold byte_gas; destruct (b =? 0); lia).
    cbn [mbind outcome_bind]. rewrite add_chk_ok by lia. rewrite IH by lia. f_equal. lia. }
  unfold gas_required, gas_required_for, intrinsic_gas. destruct (t_action t); (split; [apply Hfold; lia|lia]).
Qed.

Definition stx_ok (t : SignedTransaction) : Prop := tx_ok (unsigned (transaction t)) /\ in_u 160 (st_sender t).

Section transact.
Context {DB C J : Type} `{HashDB DB} `{LruLaws C} `{JumpCache J} (keccak : bytes -> Z) (D : DB) (root : Z) (codes : Z -> option bytes).
Context {B : Type} `{!Backend B DB C} `{!BackendLaws keccak D root codes B} (Hdb : db_complete keccak D root codes).
Context (Hempty : keccak [] = KECCAK_EMPTY) (Hkeccak : forall b, is_u256 (keccak b)).
Context (machine : EthereumMachine) (show_hash : Z -> String.string) (local_stack_size : Z) (jump_cache : ActionParams -> J)
  (wasm_exec : VmExt (Externalities B C) -> ActionParams -> Externalities B C ->
    outcome (Error * Externalities B C) (GasLeft * Externalities B C)).
Context (Hstack : STACK_SIZE_PER_DEPTH <= local_stack_size).
Context (info : EnvInfo) (sched : Schedule) (Hchain : chain_ok machine info sched) (Hrules : tx_rules_ok sched).
Context (n : Z).
Implicit Types (A : AState) (s : State B C) (t : SignedTransaction) (base : Z -> Z -> Z).

#[local] Abbreviation lean := (lean_rules sched).
#[local] Abbreviation stands := (stands keccak D root codes n).
#[local] Abbreviation moved := (moved n lean).
#[local] Abbreviation nonce_room := (nonce_room n).
#[local] Abbreviation nonce_of := (nonce_of n).
#[local] Abbreviation transact_checks := (transact_checks keccak machine show_hash).
#[local] Abbreviation executive_finalize := (executive_finalize keccak machine show_hash).
#[local] Abbreviation executive_call := (executive_call keccak machine show_hash local_stack_size jump_cache wasm_exec).
#[local] Abbreviation executive_create := (executive_create keccak machine show_hash local_stack_size jump_cache wasm_exec).
#[local] Abbreviation top_ext := (top_ext keccak machine show_hash local_stack_size jump_cache wasm_exec).
#[local] Abbreviation transact_with_tracer := (transact_with_tracer keccak machine show_hash local_stack_size jump_cache wasm_exec).

(** ** Refusal *)

(** What a transaction is refused for, or the gas left for execution, the nonce
    and the price of all its gas. *)
Definition verdict A t (check : bool) : ExecutionError + (U256 * U256 * Z) :=
  let tx := unsigned (transaction t) in
  let sender := st_sender t in
  let total_cost := t_value tx + t_gas tx * t_gas_price tx in
  if t_gas tx <? intrinsic_gas sched tx then inl (NotEnoughBaseGas (intrinsic_gas sched tx) (t_gas tx))
  else if negb (is_unsigned (transaction t)) && check && negb (bool_decide (kill_dust sched = DustOff)) &&
          negb (bool_decide (is_Some (a_cur A sender))) then inl SenderMustExist
  else if check && negb (t_nonce tx =? nonce_of A sender) then inl (InvalidNonce (nonce_of A sender) (t_nonce tx))
  else if gas_limit info <? Vm.gas_used info + t_gas tx then inl (BlockGasLimitReached (gas_limit info) (Vm.gas_used info) (t_gas tx))
  else if held (a_cur A) sender <? total_cost then inl (NotEnoughCash total_cost (held (a_cur A) sender))
  else inr (t_gas tx - intrinsic_gas sched tx, nonce_of A sender, t_gas tx * t_gas_price tx).

(** The sum that is compared with the block's limit does not fit its type. *)
Definition sum_overflows (e : ExecutionError) : bool :=
  match e with BlockGasLimitReached _ used gas => 2 ^ 256 <=? used + gas | _ => false end.

(** The checks give the verdict, or panic where that sum overflows.  They need
    of the chain only that the schedule is the one of the block. *)
Lemma transact_checks_ok base s A t check :
  sched = schedule machine (number info) -> is_u256 (gas_limit info) -> stands base s A -> stx_ok t ->
  exists s', stands base s' A /\
    transact_checks (Executive_new info) t check s =
      match verdict A t check with inl e => if sum_overflows e then Panic else Err (e, s') | inr r => Ok (r, s') end.
Proof.
  intros Hsched [_ Hlim] Hs [Htx Hsd]. unfold Executive.transact_checks, verdict. cbn [ex_info Executive_new]. rewrite <-Hsched.
  set (tx := unsigned (transaction t)) in *. set (sender := st_sender t) in *.
  destruct (nonce_stands keccak D root codes Hdb Hempty n base s A sender Hs) as (s1 & -> & Hs1). cbn [try_exec mbind outcome_bind].
  rewrite (proj1 (gas_required_ok sched tx Hrules Htx)). cbn [mbind outcome_bind].
  destruct (Z.ltb_spec (t_gas tx) (intrinsic_gas sched tx)) as [|Hgas]; [by exists s1|].
  set (due := negb (is_unsigned (transaction t)) && check && negb (bool_decide (kill_dust sched = DustOff))).
  assert (Hm : exists s2, stands base s2 A /\
    (if due then '(known, st) ← try_exec show_hash (state_exists keccak s1 sender); Ok (negb known, st) else Ok (false, s1)) =
      Ok (due && negb (bool_decide (is_Some (a_cur A sender))), s2)).
  { destruct due; [|by exists s1]. destruct (exists_stands keccak D root codes Hdb Hempty n base s1 A sender Hs1) as (s2 & -> & Hs2). by exists s2. }
  destruct Hm as (s2 & Hs2 & ->). cbn [mbind outcome_bind]. destruct (due && _); [by exists s2|].
  rewrite sub_chk_ok by done. cbn [mbind outcome_bind]. destruct (check && _); [by exists s2|].
  unfold add_chk. destruct (Z.ltb_spec (Vm.gas_used info + t_gas tx) (2 ^ 256)) as [Hfit|Hbig]; cbn [mbind outcome_bind].
  2: { rewrite (proj2 (Z.ltb_lt _ _)) by lia. cbn [sum_overflows]. rewrite (proj2 (Z.leb_le _ _)) by lia. by exists s2. }
  destruct (gas_limit info <? _); [cbn [sum_overflows]; rewrite (proj2 (Z.leb_gt _ _)) by lia; by exists s2|].
  destruct (balance_stands keccak D root codes Hdb Hempty n base s2 A sender Hs2) as (s3 & -> & Hs3). cbn [try_exec mbind outcome_bind].
  exists s3. split; [done|]. by destruct (held (a_cur A) sender <? _).
Qed.

(** ** Settlement *)
#[local] Abbreviation tx_of t := (unsigned (transaction t)).

Definition gas_refund (sub : Substate) (gas left : Z) : Z :=
  Z.min (sstore_refund_gas sched * sstore_clears_count sub + suicide_refund_gas sched * Z.of_nat (size (suicides sub))) (Z.shiftr (gas - left) 1).

Definition left_of (result : Error + FinalizationResult) : Z := match result with inr f => f_gas_left f | inl _ => 0 end.

(** The sender gets the price of the gas that was not used, the author that of
    the gas that was; after that accounts are only removed. *)
Definition settled A t (mode : CleanupMode) (used : Z) A' : Prop :=
  let tx := unsigned (transaction t) in
  exists m1 A1 m2 A2,
    a_add_balance n A (st_sender t) ((t_gas tx - used) * t_gas_price tx) NoEmpty = Some (m1, A1) /\
    a_add_balance n A1 (author info) (used * t_gas_price tx) mode = Some (m2, A2) /\ purged A2 A'.

Definition receipt t (sub : Substate) (result : Error + FinalizationResult) (output : bytes) : Error + Executed :=
  let tx := unsigned (transaction t) in
  let refunded := gas_refund sub (t_gas tx) (left_of result) in
  let used := t_gas tx - left_of result - refunded in
  match result with
  | inl (Internal msg) => inl (Internal msg)
  | inl e => inr (mkExecuted (Some e) (t_gas tx) (t_gas tx) 0 (Vm.gas_used info + t_gas tx) [] [] output)
  | inr r => inr (mkExecuted (if f_apply_state r then None else Some Reverted) (t_gas tx) used refunded (Vm.gas_used info + used)
                    (logs sub) (contracts_created sub) output)
  end.

Lemma gas_refund_bound sub gas left : sub_ok sub -> 0 <= left <= gas -> 0 <= gas_refund sub gas left <= (gas - left) / 2.
Proof.
  intros [Hc _] Hl. destruct Hrules as [_ _ _ _ _ Hss Hsu]. unfold gas_refund. rewrite Z.shiftr_div_pow2 by done. change (2 ^ 1) with 2.
  pose proof (Z.div_pos (gas - left) 2 ltac:(lia) ltac:(lia)). split; [|lia]. apply Z.min_glb; [|done]. nia.
Qed.

Context (Hpriv : forall b a, backend_ok b -> backend_private b a).

(** What finalisation relies on. *)
Record settle_pre base s A t (sub : Substate) (left : Z) : Prop := {
  st_stands : stands base s A;
  st_closed : a_saved A = [];
  st_tx : stx_ok t;
  st_sub : sub_ok sub /\ sstore_clears_count sub <= t_gas (tx_of t);
  st_left : 0 <= left <= t_gas (tx_of t);
  st_gas : intrinsic_gas sched (tx_of t) <= t_gas (tx_of t) < 2 ^ 64;
  st_total : total (a_cur A) + t_gas (tx_of t) * t_gas_price (tx_of t) < 2 ^ 256;
  st_block : Vm.gas_used info + t_gas (tx_of t) < 2 ^ 256;
}.

(** The two payments. *)
Lemma payments_ok base s A t (sub : Substate) left used :
  settle_pre base s A t sub left -> 0 <= used <= t_gas (tx_of t) ->
  exists m1 s1 m2 s2 A2, add_balance keccak s (st_sender t) ((t_gas (tx_of t) - used) * t_gas_price (tx_of t)) NoEmpty = Ok (m1, s1) /\
    add_balance keccak s1 (author info) (used * t_gas_price (tx_of t)) (to_cleanup_mode sub sched) = Ok (m2, s2) /\
    stands base s2 A2 /\ a_saved A2 = [] /\ total (a_cur A2) <= total (a_cur A) + t_gas (tx_of t) * t_gas_price (tx_of t) /\
    exists A1, a_add_balance n A (st_sender t) ((t_gas (tx_of t) - used) * t_gas_price (tx_of t)) NoEmpty = Some (m1, A1) /\
      a_add_balance n A1 (author info) (used * t_gas_price (tx_of t)) (to_cleanup_mode sub sched) = Some (m2, A2).
Proof.
  intros [Hs Hsv [(_ & [Hp0 _] & _) Hsd] _ _ Hgas Htot _] Hu.
  destruct (add_balance_stands keccak D root codes Hdb Hempty n base lean s A (st_sender t) ((t_gas (tx_of t) - used) * t_gas_price (tx_of t)) NoEmpty)
    as (m1 & s1 & A1 & Hr1 & Hs1 & Hm1 & Ha1); [done|done|nia|nia|done|].
  pose proof (mv_total _ _ _ _ _ _ _ Hm1) as Ht1.
  destruct (add_balance_stands keccak D root codes Hdb Hempty n base lean s1 A1 (author info) (used * t_gas_price (tx_of t)) (to_cleanup_mode sub sched))
    as (m2 & s2 & A2 & Hr2 & Hs2 & Hm2 & Ha2); [done|apply (co_env _ _ _ Hchain)|nia|nia|apply cleanup_mode_fits|].
  pose proof (mv_total _ _ _ _ _ _ _ Hm2) as Ht2. exists m1, s1, m2, s2, A2. split_and!; [done..| | |by exists A1].
  - by rewrite (mv_saved _ _ _ _ _ _ _ Hm2), (mv_saved _ _ _ _ _ _ _ Hm1).
  - nia.
Qed.

Lemma finalize_ok base s A t sub result output (left := left_of result) (used := t_gas (tx_of t) - left - gas_refund sub (t_gas (tx_of t)) left) :
  settle_pre base s A t sub left ->
  exists base' s' A', stands base' s' A' /\ a_saved A' = [] /\ settled A t (to_cleanup_mode sub sched) used A' /\
    total (a_cur A') <= total (a_cur A) + t_gas (tx_of t) * t_gas_price (tx_of t) /\
    executive_finalize (Executive_new info) t s sub result output =
      match receipt t sub result output with
      | inl (Internal msg) => Err (ExecInternal msg, s')
      | inl _ => Panic
      | inr r => Ok (r, s')
      end.
Proof.
  intros Hpre. pose proof Hpre as [Hs Hsv [Htx Hsd] [Hsub Hcl] Hl Hgas Htot Hov].
  pose proof (gas_refund_bound sub (t_gas (tx_of t)) left Hsub Hl) as Hrf. pose proof Htx as (_ & [Hp0 _] & _).
  pose proof (proj2 (gas_required_ok (E := Error) sched (tx_of t) Hrules Htx)) as Htg.
  pose proof Hrules as [_ Hg Hcr _ _ Hss Hsu]. pose proof (addresses_size (suicides sub) (proj2 Hsub)) as Hsize. pose proof Hsub as [Hc0 _].
  assert (Hhalf : 2 * ((t_gas (tx_of t) - left) / 2) <= t_gas (tx_of t) - left) by (apply Z.mul_div_le; lia).
  pose proof (ledger_total_nonneg _ _ _ (sd_ledger _ _ _ _ _ _ _ _ Hs)) as Ht0. set (gas := t_gas (tx_of t)) in *. set (price := t_gas_price (tx_of t)) in *.
  assert (Hpay : forall g, g <= gas -> g * price < 2 ^ 256).
  { intros g Hle. apply (Z.le_lt_trans _ (gas * price)); [by apply Z.mul_le_mono_nonneg_r|lia]. }
  assert (Hb1 : sstore_refund_gas sched * sstore_clears_count sub <= 2 ^ 32 * 2 ^ 64) by (apply Z.mul_le_mono_nonneg; lia).
  assert (Hb2 : suicide_refund_gas sched * Z.of_nat (size (suicides sub)) <= 2 ^ 32 * 2 ^ 160) by (apply Z.mul_le_mono_nonneg; lia).
  set (refunded := gas_refund sub gas left) in *. assert (Hused : 0 <= used <= gas) by (unfold used; lia).
  destruct (payments_ok base s A t sub left used Hpre Hused) as (m1 & s1 & m2 & s2 & A2 & Hr1 & Hr2 & Hs2 & Hsv2 & Ht2 & A1 & Ha1 & Ha2).
  fold gas price in Hr1, Hr2, Ht2. destruct (kill_all_stands keccak D root codes Hpriv n base s2 A2 (elements (suicides (with_touched m2 sub))) Hs2 Hsv2) as (base3 & A3 & Hs3 & Hp3).
  pose proof Hp3 as [Hsv3 _].
  set (min_balance := if bool_decide (kill_dust sched = DustOff) then None else Some (tx_gas sched * price)).
  destruct (kill_garbage_stands keccak D root codes Hpriv n base3 _ A3 (touched (with_touched m2 sub)) (kill_empty sched) min_balance
    (bool_decide (kill_dust sched = WithCodeAndStorage)) Hs3 Hsv3) as (base4 & A4 & Hs4 & Hp4).
  eexists base4, _, A4. split; [exact Hs4|]. split; [apply Hp4|]. split; [exists m1, A1, m2, A2; split_and!; [done..|by eapply purged_trans]|]. split.
  { pose proof (purged_total n base A2 A4 (sd_ledger _ _ _ _ _ _ _ _ Hs2) (purged_trans _ _ _ Hp3 Hp4)). lia. }
  unfold Executive.executive_finalize, receipt. cbn [ex_info Executive_new]. rewrite <-(co_sched _ _ _ Hchain). fold (left_of result). fold left gas price.
  rewrite (mul_chk_ok 256 (sstore_refund_gas sched)) by lia. cbn [mbind outcome_bind].
  rewrite (mul_chk_ok 256 (suicide_refund_gas sched)) by lia. cbn [mbind outcome_bind].
  rewrite (add_chk_ok 256 (sstore_refund_gas sched * _)) by lia. cbn [mbind outcome_bind]. rewrite sub_chk_ok by lia. cbn [mbind outcome_bind]. fold (gas_refund sub gas left). fold refunded.
  rewrite (add_chk_ok 256 left) by lia. cbn [mbind outcome_bind]. rewrite sub_chk_ok by lia. cbn [mbind outcome_bind].
  replace (gas - (left + refunded)) with used by (unfold used; lia). replace (left + refunded) with (gas - used) by (unfold used; lia).
  rewrite (mul_chk_ok 256 (gas - used)) by (apply Hpay; lia). cbn [mbind outcome_bind].
  rewrite (mul_chk_ok 256 used) by (apply Hpay; lia). cbn [mbind outcome_bind]. rewrite Hr1. cbn [try_exec mbind outcome_bind]. rewrite Hr2. cbn [try_exec mbind outcome_bind].
  assert (Hmin : (if bool_decide (kill_dust sched = DustOff) then Ok None
    else m ← mul_chk 256 (tx_gas sched) price; Ok (Some m)) = Ok (E := ExecutionError * State B C) min_balance).
  { unfold min_balance. destruct (bool_decide _); [done|]. by rewrite mul_chk_ok by (apply Hpay; lia). }
  rewrite Hmin. cbn [mbind outcome_bind]. destruct result as [e|r].
  - rewrite !add_chk_ok by lia. by destruct e.
  - rewrite !add_chk_ok by lia. by destruct m2.
Qed.

(** ** Execution *)

(** The nonce of the sender is used and the gas is paid for; the other accounts
    are what they were. *)
Record charged A t A0 : Prop := {
  ch_others b : b <> st_sender t -> a_cur A0 b = a_cur A b;
  ch_balance : held (a_cur A0) (st_sender t) = held (a_cur A) (st_sender t) - t_gas (tx_of t) * t_gas_price (tx_of t);
  ch_nonce : nonce_of A0 (st_sender t) = nonce_of A (st_sender t) + 1;
}.

Lemma charge_ok base s A t (gas := t_gas (tx_of t)) (cost := gas * t_gas_price (tx_of t)) :
  stands base s A -> stx_ok t -> t_value (tx_of t) + cost <= held (a_cur A) (st_sender t) -> 0 <= gas -> nonce_room (1 + gas) A ->
  exists s1 mode s2 A2, inc_nonce keccak s (st_sender t) = Ok (tt, s1) /\
    sub_balance keccak s1 (st_sender t) cost (to_cleanup_mode Substate_new sched) = Ok (mode, s2) /\
    stands base s2 A2 /\ moved false 1 (- cost) A A2 /\ nonce_room gas A2 /\
    t_value (tx_of t) <= held (a_cur A2) (st_sender t) /\ (exists z, a_cur A2 (st_sender t) = Some z /\ n < aa_nonce z) /\ charged A t A2.
Proof.
  intros Hs [Htx Hsd] Hle Hg Hnr. destruct Htx as (_ & [Hp0 _] & _ & _ & [Hv0 _] & _).
  destruct (inc_nonce_stands keccak D root codes Hdb Hempty n base lean s A (st_sender t) Hs Hsd) as (s1 & A1 & -> & Hs1 & Hm1 & (z & Hz & Hzn & Hze) & Hheld & Hoth);
    [eapply nonce_room_mono; [|done]; lia|]. exists s1.
  assert (0 <= cost) by (apply Z.mul_nonneg_nonneg; done).
  destruct (sub_balance_stands keccak D root codes Hdb Hempty n base lean s1 A1 (st_sender t) cost (to_cleanup_mode Substate_new sched) Hs1 Hsd)
    as (mode & s2 & A2 & -> & Hs2 & Hm2 & Hoth2 & Hh2 & Hn2); [rewrite Hheld; lia|apply cleanup_mode_fits|].
  exists mode, s2, A2. do 3 (split; [done|]). pose proof (moved_trans _ _ _ 1 0 _ _ _ _ _ ltac:(done) Hm1 Hm2) as Hm.
  split; [exact Hm|]. split; [replace gas with (1 + gas - 1) by lia; eapply nonce_room_moved; [|exact Hm|done]; lia|].
  split; [rewrite Hh2, Hheld; lia|]. destruct (Hn2 z Hz) as (z' & Hz' & ?). split; [exists z'; split; [done|lia]|]. split.
  - intros b Hb. by rewrite Hoth2, Hoth.
  - by rewrite Hh2, Hheld.
  - unfold LedgerState.nonce_of at 1. rewrite Hz'. lia.
Qed.

(** A result after which everything was undone. *)
Definition failing (result : Error + FinalizationResult) : bool :=
  match result with inl e => reverting e | inr f => negb (f_apply_state f) end.

(** What the execution leaves for the settlement. *)
Definition executed {O} base A (gas : Z) (result : Error + FinalizationResult) (w : Work B C O) : Prop :=
  (forall e, result = inl e -> reverting e = true) /\ 0 <= left_of result <= gas /\ sub_ok (w_substate w) /\ sstore_clears_count (w_substate w) <= gas /\
  (exists A', stands base (w_state w) A' /\ a_saved A' = a_saved A /\ total (a_cur A') <= total (a_cur A) /\ (failing result = true -> A' = A)) /\
  (failing result = true -> sstore_clears_count (w_substate w) = 0 /\ suicides (w_substate w) = ∅ /\
     logs (w_substate w) = [] /\ contracts_created (w_substate w) = []).

Lemma result_executed {O} base st gas A mode (out_ok : O -> Prop) r :
  0 <= gas -> result_ok keccak D root codes sched n base st gas A (with_touched mode Substate_new) out_ok r ->
  exists result (w : Work B C O), (forall E, result_of (E := E) r = Ok (result, w)) /\ executed base A gas result w.
Proof.
  intros Hg Hr. assert (Hz : sstore_clears_count (with_touched mode Substate_new) = 0) by (by destruct mode).
  assert (Hsu : suicides (with_touched mode Substate_new) = ∅) by (by destruct mode).
  assert (Hsub : sub_ok (with_touched mode Substate_new)) by (apply sub_ok_touched, sub_ok_new).
  assert (Hfail : forall result (w : Work B C O), undone keccak D root codes n base A (with_touched mode Substate_new) w ->
    (forall e, result = inl e -> reverting e = true) -> 0 <= left_of result <= gas -> executed base A gas result w).
  { intros result w (Hs & Hsu' & Hlg & Hc & Hcr) He Hl. rewrite Hz in Hc. rewrite Hsu in Hsu'.
    assert (logs (with_touched mode Substate_new) = [] /\ contracts_created (with_touched mode Substate_new) = []) as [Hl0 Hc0] by (by destruct mode).
    split; [done|]. split; [done|]. split; [by split; [rewrite Hc|rewrite Hsu'; set_solver]|]. split; [lia|]. split; [by exists A|]. by rewrite Hlg, Hcr. }
  unfold result_ok in Hr. destruct r as [[f w]|[e w]|]; [| |done].
  - destruct Hr as (Hl & _ & (Hc & Hso & A' & Hs & Hm) & Hun & _). exists (inr f), w. split; [done|].
    destruct (f_apply_state f) eqn:Hap; [|by apply Hfail; [apply Hun|..]].
    split; [done|]. split; [done|]. split; [by apply Hso|]. split; [lia|]. cbn [failing]. rewrite Hap. split; [|done].
    exists A'. pose proof (mv_total _ _ _ _ _ _ _ Hm). split_and!; [done|apply (mv_saved _ _ _ _ _ _ _ Hm)|lia|done].
  - destruct Hr as (He & Hun & _). exists (inl e), w. split; [done|]. apply Hfail; [done|by intros ? [= <-]|cbn; lia].
Qed.

Lemma top_level : at_level info sched (Z.to_nat (max_depth sched)) (Executive_new info).
Proof. split; [done|]. pose proof (tr_depth _ Hrules). cbn. lia. Qed.

Lemma top_call base params w A :
  call_pre keccak D root codes info sched n base (Z.to_nat (max_depth sched)) (Executive_new info) params w A ->
  result_ok keccak D root codes sched n base (is_static (Executive_new info) params) (gas params) A (w_substate w) (same_buffer (w_output w))
    (executive_call (top_ext info) (Executive_new info) params w).
Proof.
  intros Hpre. unfold Executive.top_ext. rewrite <-(co_sched _ _ _ Hchain), ext_of_unfold.
  apply (executive_call_ok keccak D root codes Hdb Hempty Hkeccak machine show_hash local_stack_size jump_cache wasm_exec Hstack info sched Hchain n base
    (Z.to_nat (max_depth sched))); [|done]. rewrite <-ext_of_unfold. by apply ext_of_laws.
Qed.

Lemma top_create base params w A :
  create_pre keccak D root codes info sched n base (Z.to_nat (max_depth sched)) (Executive_new info) params w A ->
  result_ok keccak D root codes sched n base false (gas params) A (w_substate w) (fun _ => True)
    (executive_create (top_ext info) (Executive_new info) params w).
Proof.
  intros Hpre. unfold Executive.top_ext. rewrite <-(co_sched _ _ _ Hchain), ext_of_unfold.
  apply (executive_create_ok keccak D root codes Hdb Hempty Hkeccak machine show_hash local_stack_size jump_cache wasm_exec Hstack info sched Hchain n base
    (Z.to_nat (max_depth sched))); [|done]. rewrite <-ext_of_unfold. by apply ext_of_laws.
Qed.

(** ** The whole transaction *)
Record transact_pre base s A t : Prop := {
  tp_stands : stands base s A;
  tp_closed : a_saved A = [];
  tp_tx : stx_ok t;
  tp_gas : t_gas (tx_of t) < 2 ^ 64;
  tp_nonces : nonce_room (1 + t_gas (tx_of t)) A;
}.

(** What an accepted transaction reports. *)
Record receipt_ok t (r : Executed) : Prop := {
  rc_gas : e_gas r = t_gas (tx_of t);
  rc_used : 0 <= e_gas_used r <= t_gas (tx_of t) /\ intrinsic_gas sched (tx_of t) <= 2 * e_gas_used r;
  rc_refunded : 0 <= e_refunded r <= e_gas_used r;
  rc_cumulative : e_cumulative_gas_used r = Vm.gas_used info + e_gas_used r /\ e_cumulative_gas_used r <= gas_limit info;
  rc_exception e : e_exception r = Some e ->
    e_refunded r = 0 /\ e_logs r = [] /\ e_contracts_created r = [] /\ (e <> Reverted -> e_gas_used r = t_gas (tx_of t));
}.

(** [A0]: the gas is paid for; [A1]: the code has run; [A']: the gas is settled.
    A failure leaves nothing but the charge. *)
Definition accepted base A t (res : outcome (ExecutionError * State B C) (Executed * State B C)) : Prop :=
  exists r s', res = Ok (r, s') /\ receipt_ok t r /\
      exists base' A0 A1 mode A', charged A t A0 /\ total (a_cur A1) <= total (a_cur A) - t_gas (tx_of t) * t_gas_price (tx_of t) /\
        (e_exception r <> None -> A1 = A0) /\ settled A1 t mode (e_gas_used r) A' /\
        stands base' s' A' /\ a_saved A' = [] /\ total (a_cur A') <= total (a_cur A).

Lemma settle_accepted {O} base A A2 t result (w : Work B C O) output :
  a_saved A2 = [] -> stx_ok t -> intrinsic_gas sched (tx_of t) <= t_gas (tx_of t) < 2 ^ 64 -> Vm.gas_used info + t_gas (tx_of t) <= gas_limit info ->
  Vm.gas_used info + t_gas (tx_of t) < 2 ^ 256 -> ledger n base (a_cur A) -> charged A t A2 ->
  total (a_cur A2) <= total (a_cur A) - t_gas (tx_of t) * t_gas_price (tx_of t) ->
  executed base A2 (t_gas (tx_of t) - intrinsic_gas sched (tx_of t)) result w ->
  accepted base A t (executive_finalize (Executive_new info) t (w_state w) (w_substate w) result output).
Proof.
  intros Hsv Htx Hgas Hlim Hov Hled Hch Htot (Hne & Hl & Hsub & Hcl & (A3 & Hs3 & Hsv3 & Ht3 & Hsame) & Hrev). pose proof (lg_total _ _ _ Hled).
  pose proof (proj2 (gas_required_ok (E := Error) sched (tx_of t) Hrules (proj1 Htx))) as Hig. pose proof (tr_gas _ Hrules).
  destruct (finalize_ok base (w_state w) A3 t (w_substate w) result output) as (base' & s' & A' & Hs' & Hsv' & Hset & Ht' & Heq).
  { split; try done; [by rewrite Hsv3|split; [done|lia]|lia|lia]. }
  pose proof (gas_refund_bound (w_substate w) (t_gas (tx_of t)) (left_of result) Hsub ltac:(lia)) as Hrf.
  set (refunded := gas_refund _ _ _) in *. set (gas := t_gas (tx_of t)) in *. assert (Hhalf : 2 * ((gas - left_of result) / 2) <= gas - left_of result) by (apply Z.mul_div_le; lia).
  assert (Hz : failing result = true -> refunded = 0).
  { intros He. destruct (Hrev He) as (Hc0 & Hs0 & _). unfold refunded, gas_refund in *. rewrite Hc0, Hs0, size_empty, !Z.mul_0_r in *. lia. }
  rewrite Heq. unfold receipt. fold gas refunded. destruct result as [e|f]; cbn [left_of failing] in *.
  - assert (Hdone : reverting e = true -> accepted base A t
      (Ok (mkExecuted (Some e) gas gas 0 (Vm.gas_used info + gas) [] [] output, s'))).
    { intros He. rewrite (Hz He) in Hset. eexists _, _. split; [done|]. split; [split; cbn; fold gas; [done|lia|lia|lia|by intros]|].
      exists base', A2, A3, (to_cleanup_mode (w_substate w) sched), A'. split_and!; try done; [lia|by intros _; apply Hsame| |lia]. cbn. by rewrite !Z.sub_0_r in Hset. }
    specialize (Hdone (Hne e eq_refl)). by destruct e; try done; specialize (Hne _ eq_refl).
  - eexists _, _. split; [done|]. split.
    + split; cbn; fold gas; try lia; try done. intros e He. destruct (f_apply_state f) eqn:Hap; simplify_eq.
      destruct (Hrev eq_refl) as (_ & _ & Hlg & Hcr). rewrite Hlg, Hcr. split_and!; [by apply Hz|done..].
    + exists base', A2, A3, (to_cleanup_mode (w_substate w) sched), A'. split_and!; try done; [lia| |lia].
      cbn. intros He. apply Hsame. by destruct (f_apply_state f).
Qed.

(** The two kinds of transactions, from the state in which the gas is paid for. *)
Lemma create_executed base s A t mode scheme nonce output :
  stands base s A -> stx_ok t -> t_gas (tx_of t) < 2 ^ 64 -> intrinsic_gas sched (tx_of t) <= t_gas (tx_of t) -> is_u256 nonce ->
  nonce_room (t_gas (tx_of t)) A -> t_value (tx_of t) <= held (a_cur A) (st_sender t) ->
  (exists z, a_cur A (st_sender t) = Some z /\ n < aa_nonce z) -> t_action (tx_of t) = Create ->
  exists a h result w, contract_address keccak scheme (st_sender t) nonce (t_data (tx_of t)) = Ok (a, h) /\
    (forall E, result_of (E := E) (executive_create (top_ext info) (Executive_new info)
      (mkParams a h a (st_sender t) (st_sender t) (t_gas (tx_of t) - intrinsic_gas sched (tx_of t)) (t_gas_price (tx_of t)) (Transfer (t_value (tx_of t)))
         (Some (t_data (tx_of t))) None CT_None Embedded) (mkWork s (with_touched mode Substate_new) output)) = Ok (result, w)) /\
    executed base A (t_gas (tx_of t) - intrinsic_gas sched (tx_of t)) result w.
Proof.
  intros Hs [Htx Hsd] Hg Hig Hn Hnr Hv Hz Hact. pose proof (proj2 (gas_required_ok (E := Error) sched (tx_of t) Hrules Htx)) as Hi. pose proof (tr_gas _ Hrules).
  destruct Htx as (_ & Hp & Hgu & _ & Hvu & Hd & Hdl).
  destruct (contract_address_ok keccak scheme (st_sender t) nonce (t_data (tx_of t)) Hsd Hn) as (a & h & Hca & Ha). exists a, h.
  set (params := mkParams _ _ _ _ _ _ _ _ _ _ _ _). set (w0 := mkWork _ _ _).
  destruct (result_executed base false (gas params) A mode (fun _ => True) (executive_create (top_ext info) (Executive_new info) params w0))
    as (result & w & Hr & He); [cbn; lia| |by exists result, w].
  apply top_create. split; cbn; try done; [apply top_level| | |lia| |by intros v [= <-]].
  - split_and!; cbn; try done; [split; lia|split; [done|lia]|by split; [constructor|]].
  - destruct mode; cbn; lia.
  - eapply nonce_room_mono; [|done]. lia.
Qed.

Lemma call_executed base s A t mode a :
  stands base s A -> stx_ok t -> t_gas (tx_of t) < 2 ^ 64 -> intrinsic_gas sched (tx_of t) <= t_gas (tx_of t) ->
  nonce_room (t_gas (tx_of t)) A -> t_value (tx_of t) <= held (a_cur A) (st_sender t) -> is_Some (a_cur A (st_sender t)) -> t_action (tx_of t) = Call a ->
  exists s1 h s2 result w, State.code keccak s a = Ok (aa_code <$> a_cur A a, s1) /\ State.code_hash keccak s1 a = Ok (h, s2) /\
    (forall E, result_of (E := E) (executive_call (top_ext info) (Executive_new info)
      (mkParams a (Some h) a (st_sender t) (st_sender t) (t_gas (tx_of t) - intrinsic_gas sched (tx_of t)) (t_gas_price (tx_of t)) (Transfer (t_value (tx_of t)))
         (aa_code <$> a_cur A a) (Some (t_data (tx_of t))) CT_Call Separate) (mkWork s2 (with_touched mode Substate_new) (Flexible []))) = Ok (result, w)) /\
    executed base A (t_gas (tx_of t) - intrinsic_gas sched (tx_of t)) result w.
Proof.
  intros Hs [Htx Hsd] Hg Hig Hnr Hv Hz Hact. pose proof (proj2 (gas_required_ok (E := Error) sched (tx_of t) Hrules Htx)) as Hi. pose proof (tr_gas _ Hrules).
  destruct Htx as (_ & Hp & Hgu & Ha & Hvu & Hd & Hdl). rewrite Hact in Ha.
  destruct (code_stands keccak D root codes Hdb Hempty n base s A a Hs) as (s1 & Hc & Hs1).
  destruct (code_hash_stands keccak D root codes Hdb Hempty n base s1 A a Hs1) as (h & s2 & Hh & Hs2 & _). exists s1, h, s2.
  set (params := mkParams _ _ _ _ _ _ _ _ _ _ _ _). set (w0 := mkWork _ _ _).
  destruct (result_executed base (is_static (Executive_new info) params) (gas params) A mode (same_buffer (w_output w0))
    (executive_call (top_ext info) (Executive_new info) params w0)) as (result & w & Hr & He); [cbn; lia| |by exists result, w].
  apply top_call. split; cbn; try done; [apply top_level| | |lia| |constructor| |by destruct (a_cur A a)].
  - split_and!; cbn; try done; [split; lia| |by split; [|lia]]. destruct (a_cur A a) as [z|] eqn:Hza; [|by split; [constructor|]].
    apply (ak_code _ _ (lg_account _ _ _ (sd_ledger _ _ _ _ _ _ _ _ Hs) a z Hza)).
  - destruct mode; cbn; lia.
  - eapply nonce_room_mono; [|done]. lia.
  - intros v [= <-]. split_and!; [done..|by left].
Qed.

Lemma transact_refused base s A t check out e :
  sched = schedule machine (number info) -> is_u256 (gas_limit info) -> stands base s A -> stx_ok t -> verdict A t check = inl e ->
  if sum_overflows e then transact_with_tracer (Executive_new info) t check out s = Panic
  else exists s', transact_with_tracer (Executive_new info) t check out s = Err (e, s') /\ stands base s' A.
Proof.
  intros Hsched Hlim Hs Htx Hver. unfold Executive.transact_with_tracer.
  destruct (transact_checks_ok base s A t check Hsched Hlim Hs Htx) as (s0 & Hs0 & ->). rewrite Hver. destruct (sum_overflows e); [done|by exists s0].
Qed.

Lemma transact_accepted base s A t check out r :
  transact_pre base s A t -> verdict A t check = inr r ->
  accepted base A t (transact_with_tracer (Executive_new info) t check out s).
Proof.
  intros [Hs Hsv Htx Hg Hnr] Hver. unfold Executive.transact_with_tracer.
  pose proof (co_env _ _ _ Hchain) as (_ & _ & _ & _ & Hgl).
  destruct (transact_checks_ok base s A t check (co_sched _ _ _ Hchain) Hgl Hs Htx) as (s0 & Hs0 & ->).
  rewrite Hver. destruct r as [[ig no] cost]. cbn [mbind outcome_bind].
  unfold verdict in Hver. destruct (Z.ltb_spec (t_gas (tx_of t)) (intrinsic_gas sched (tx_of t))) as [|Hig]; [done|].
  destruct (_ && _ && _ && _); [done|]. destruct (check && _); [done|]. destruct (Z.ltb_spec (gas_limit info) (Vm.gas_used info + t_gas (tx_of t))) as [|Hlim]; [done|].
  assert (Hov : Vm.gas_used info + t_gas (tx_of t) < 2 ^ 256) by (destruct Hgl; lia).
  destruct (Z.ltb_spec (held (a_cur A) (st_sender t)) (t_value (tx_of t) + t_gas (tx_of t) * t_gas_price (tx_of t))) as [|Hcash]; [done|].
  injection Hver as <- <- <-. pose proof (sd_ledger _ _ _ _ _ _ _ _ Hs) as Hled. cbn [ex_info Executive_new].
  rewrite <-(co_sched _ _ _ Hchain), (co_eip86 _ _ _ Hchain). cbn [negb orb].
  pose proof Htx as [(_ & _ & [Hg0 _] & _ & [Hv0 _] & _) _].
  destruct (charge_ok base s0 A t Hs0 Htx Hcash Hg0 Hnr) as (s1 & mode & s2 & A2 & -> & Hsub & Hs2 & Hm2 & Hnr2 & Hv2 & Hz & Hch). cbn [try_exec mbind outcome_bind].
  pose proof (held_range _ _ _ (st_sender t) Hled) as Hhr. unfold u256_from_u512.
  destruct (Z.ltb_spec (t_gas (tx_of t) * t_gas_price (tx_of t)) (2 ^ 256)); [|lia]. cbn [mbind outcome_bind]. rewrite Hsub. cbn [try_exec mbind outcome_bind].
  pose proof (mv_total _ _ _ _ _ _ _ Hm2) as Ht2. pose proof (mv_saved _ _ _ _ _ _ _ Hm2) as Hsv2. rewrite Hsv in Hsv2.
  destruct (t_action (tx_of t)) as [|a] eqn:Hact.
  - destruct (create_executed base s2 A2 t mode (create_address_scheme machine (number info)) (nonce_of A (st_sender t)) (if out then Some [] else None))
      as (a & h & result & w & -> & Hr & He); [try done; by eapply nonce_of_range..|]. rewrite Hr. cbn [mbind outcome_bind].
    apply (settle_accepted base A A2); (done || lia).
  - destruct Hz as (z & Hz & _).
    destruct (call_executed base s2 A2 t mode a) as (s3 & h & s4 & result & w & -> & Hh & Hr & He); [done..|]. cbn [try_exec mbind outcome_bind].
    rewrite Hh. cbn [try_exec mbind outcome_bind]. rewrite Hr. cbn [mbind outcome_bind]. apply (settle_accepted base A A2); (done || lia).
Qed.
End transact.
