(* ===== verification/ChainTheorems.v ===== *)
(** * Results about the chain's rules, built-ins and transactions *)
From Stdlib Require Import String ZArith Zpow_facts.
From stdpp Require Import base list numbers gmap.
From S2P Require Import Prelude Words Vm VmLaws RlpStream RlpEncoding RlpDecode RlpImpls RlpCodecs Builtin EthMachine Transaction Executive TransactionCodec Ledger ExternalitiesLaws TransactLaws.

(** ** Modular exponentiation *)
Lemma modexp_loop_ok (fuel : nat) : forall r b e m,
  1 < m -> 0 <= r < m -> 0 <= e < 2 ^ Z.of_nat fuel -> modexp_loop fuel r b e m = Some ((r * b ^ e) mod m).
Proof.
  induction fuel as [|fuel IH]; intros r b e m Hm Hr He; cbn [modexp_loop].
  - assert (e = 0) as -> by (cbn in He; lia). cbn. by rewrite Z.mul_1_r, Z.mod_small.
  - destruct (Z.eqb_spec e 0) as [->|Hne]; [by rewrite Z.pow_0_r, Z.mul_1_r, Z.mod_small|].
    rewrite Nat2Z.inj_succ, Z.pow_succ_r in He by lia. rewrite Z.shiftr_div_pow2 by done. change (2 ^ 1) with 2.
    pose proof (Z.div_mod e 2 ltac:(done)) as Hdm. rewrite Zmod_odd in Hdm.
    pose proof (Z.mod_pos_bound (r * b) m ltac:(lia)).
    rewrite IH; [|done|by destruct (Z.odd e)|split; [apply Z.div_pos; lia|apply Z.div_lt_upper_bound; lia]]. f_equal.
    rewrite <-Z.mul_mod_idemp_r, <-Zpower_mod, Z.mul_mod_idemp_r by lia.
    replace ((b * b) ^ (e / 2)) with (b ^ (2 * (e / 2))) by (rewrite Z.pow_mul_r, Z.pow_2_r by (try apply Z.div_pos; lia); done).
    assert (0 <= e / 2) by (apply Z.div_pos; lia).
    assert (He2 : b ^ e = b ^ (2 * (e / 2)) * b ^ (if Z.odd e then 1 else 0)) by (rewrite <-Z.pow_add_r by (destruct (Z.odd e); lia); congruence).
    rewrite He2. destruct (Z.odd e).
    + rewrite Z.mul_mod_idemp_l, Z.pow_1_r by lia. f_equal. lia.
    + by rewrite Z.pow_0_r, Z.mul_1_r.
Qed.

Lemma modexp_ok b e m : 0 <= b -> 0 <= e -> modexp b e m = Some (if m <=? 1 then 0 else b ^ e mod m).
Proof.
  intros Hb He. unfold modexp. destruct (Z.leb_spec m 1); [done|]. destruct (Z.eqb_spec e 0) as [->|]; [by rewrite Z.pow_0_r, Z.mod_1_l by lia|].
  destruct (Z.eqb_spec b 0) as [->|]; [by rewrite Z.pow_0_l by lia|]. destruct (Z.eqb_spec (b mod m) 0) as [Hz|].
  - f_equal. rewrite Zpower_mod, Hz, Z.pow_0_l by lia. done.
  - rewrite modexp_loop_ok; [|lia..|].
    + by rewrite Z.mul_1_l, <-Zpower_mod by lia.
    + pose proof (Z.log2_spec e ltac:(lia)). pose proof (Z.log2_nonneg e). rewrite Z2Nat.id by lia. unfold Z.succ in *. lia.
Qed.

(** A number as the bytes of a fixed width: its own bytes after zeros. *)
Lemma Z_to_be_zero m : Z_to_be m 0 = replicate m 0.
Proof. induction m as [|m IH]; [done|]. cbn [Z_to_be]. change (0 / 256) with 0. rewrite IH. change [0 mod 256] with [0]. by rewrite <-replicate_S_end. Qed.

Lemma to_bytes_be_padded r w :
  0 <= r < 256 ^ w -> 0 < w ->
  len (to_bytes_be r) <= w /\ replicate (Z.to_nat (w - len (to_bytes_be r))) 0 ++ to_bytes_be r = Z_to_be (Z.to_nat w) r.
Proof.
  intros [Hr Hlt] Hw. unfold to_bytes_be. pose proof (Z.log2_nonneg r). set (k := Z.log2 r / 8 + 1).
  assert (0 <= Z.log2 r / 8) by (apply Z.div_pos; lia). rewrite len_Z_to_be, Z2Nat.id by lia.
  assert (Hrk : r < 256 ^ k).
  { destruct (Z.eq_dec r 0) as [->|]; [apply Z.pow_pos_nonneg; lia|]. change 256 with (2 ^ 8). rewrite <-Z.pow_mul_r by lia.
    apply Z.log2_lt_pow2; [lia|]. pose proof (Z.div_mod (Z.log2 r) 8 ltac:(done)). pose proof (Z.mod_pos_bound (Z.log2 r) 8 ltac:(lia)). lia. }
  assert (Hkw : k <= w).
  { destruct (Z.eq_dec r 0) as [->|]; [assert (k = 1) by reflexivity; lia|]. change 256 with (2 ^ 8) in Hlt. rewrite <-Z.pow_mul_r in Hlt by lia.
    apply Z.log2_lt_pow2 in Hlt; [|lia]. pose proof (Z.div_lt_upper_bound (Z.log2 r) 8 w ltac:(lia) ltac:(lia)). lia. }
  split; [done|]. rewrite (Z_to_be_app (Z.to_nat w) (Z.to_nat k)) by lia. f_equal. rewrite Z2Nat.id, Z.div_small, Z_to_be_zero by lia. f_equal. lia.
Qed.

(** The numbers a call of the built-in is about. *)
Definition field_len (input : bytes) (pos : Z) : Z := low_u64 (be_to_Z (read_padded input pos 32)).
Definition modexp_operands (input : bytes) : Z * Z * Z :=
  let b := field_len input 0 in let e := field_len input 32 in let m := field_len input 64 in
  (be_to_Z (read_padded input 96 b), be_to_Z (read_padded input (96 + b) e), be_to_Z (read_padded input (96 + b + e) m)).

Lemma read_padded_bytes input pos k : is_bytes input -> 0 <= k -> is_bytes (read_padded input pos k) /\ len (read_padded input pos k) = k.
Proof.
  intros Hi Hk. unfold read_padded. set (got := take _ _). assert (len got <= k) by (unfold got, len; rewrite length_take; lia). split.
  - apply Forall_app. split; [by apply Forall_take, Forall_drop|by apply Forall_replicate].
  - pose proof (len_nonneg got). rewrite len_app. unfold len at 2. rewrite length_replicate. lia.
Qed.

Lemma read_padded_bound input pos k : is_bytes input -> 0 <= k -> 0 <= be_to_Z (read_padded input pos k) < 256 ^ k.
Proof. intros Hi Hk. destruct (read_padded_bytes input pos k Hi Hk) as [Hb Hl]. pose proof (be_to_Z_bound _ Hb) as Hbd. by rewrite Hl in Hbd. Qed.

(** The result, in as many bytes as the modulus has. *)
Definition modexp_value (input : bytes) : Z :=
  let '(b, e, m) := modexp_operands input in if m <=? 1 then 0 else b ^ e mod m.

Lemma modexp_value_bound input : is_bytes input -> 0 <= modexp_value input < 256 ^ Z.max 1 (field_len input 64).
Proof.
  intros Hi. unfold modexp_value, modexp_operands. set (b := field_len input 0). set (e := field_len input 32). set (m := field_len input 64).
  assert (Hm0 : 0 <= m) by apply low_u64_in_u. pose proof (read_padded_bound input (96 + b + e) m Hi Hm0) as Hm. set (md := be_to_Z (read_padded input (96 + b + e) m)) in *.
  assert (256 ^ m <= 256 ^ Z.max 1 m) by (apply Z.pow_le_mono_r; lia). assert (0 < 256 ^ Z.max 1 m) by (apply Z.pow_pos_nonneg; lia).
  destruct (Z.leb_spec md 1); [lia|]. pose proof (Z.mod_pos_bound (be_to_Z (read_padded input 96 b) ^ be_to_Z (read_padded input (96 + b) e)) md). lia.
Qed.

Lemma modexp_write {E} m r :
  0 <= m -> 0 <= r < 256 ^ Z.max 1 m -> (m = 0 -> r = 0) ->
  (if len (to_bytes_be r) <=? m then Ok (snd (bytes_write (Flexible []) (m - len (to_bytes_be r)) (to_bytes_be r))) else Ok (Flexible [])) =
    Ok (E := E) (Flexible (Z_to_be (Z.to_nat m) r)).
Proof.
  intros Hm Hr Hz. destruct (Z.eq_dec m 0) as [->|Hne]; [by rewrite Hz|]. rewrite Z.max_r in Hr by lia.
  destruct (to_bytes_be_padded r m Hr ltac:(lia)) as [Hl Heq]. rewrite (proj2 (Z.leb_le _ _)) by done. cbn [bytes_write snd]. unfold resize.
  rewrite <-Heq. destruct (Z.leb_spec (m - len (to_bytes_be r)) (len ([] : bytes))) as [Hle|Hgt].
  - rewrite len_nil in Hle. assert (m - len (to_bytes_be r) = 0) as -> by lia. done.
  - rewrite len_nil, Z.sub_0_r. done.
Qed.

Lemma modexp_execute_ok {E} input :
  is_bytes input ->
  (field_len input 0 = 0 /\ field_len input 64 = 0) \/ Z.max (field_len input 64) (Z.max (field_len input 0) (field_len input 32)) < 2 ^ 63 ->
  modexp_execute (E := E) input (Flexible []) = Ok (Flexible (Z_to_be (Z.to_nat (field_len input 64)) (modexp_value input))).
Proof.
  intros Hi Hlens. pose proof (modexp_value_bound input Hi) as Hv. unfold modexp_execute.
  fold (field_len input 0) (field_len input 32) (field_len input 64).
  assert (Hl : forall i, 0 <= field_len input i) by (intros i; apply low_u64_in_u). pose proof (Hl 0). pose proof (Hl 32). pose proof (Hl 64).
  assert (Hz : field_len input 64 = 0 -> modexp_value input = 0).
  { intros Hm. unfold modexp_value, modexp_operands. rewrite Hm. done. }
  assert (Hr : (if (field_len input 0 =? 0) && (field_len input 64 =? 0) then Ok 0
    else if 2 ^ 63 <=? Z.max (field_len input 64) (Z.max (field_len input 0) (field_len input 32)) then Panic
    else match modexp (be_to_Z (read_padded input 96 (field_len input 0))) (be_to_Z (read_padded input (96 + field_len input 0) (field_len input 32)))
      (be_to_Z (read_padded input (96 + field_len input 0 + field_len input 32) (field_len input 64))) with Some r => Ok r | None => Panic end) =
    Ok (E := E) (modexp_value input)).
  { destruct (_ && _) eqn:Hc; [apply andb_true_iff in Hc as [_ Hc]; b2p; by rewrite Hz|]. apply andb_false_iff in Hc.
    rewrite (proj2 (Z.leb_gt _ _)) by (destruct Hlens as [[? ?]|]; [destruct Hc; b2p; done|done]).
    by rewrite modexp_ok by (by apply read_padded_bound). }
  rewrite Hr. cbn [mbind outcome_bind]. by apply modexp_write.
Qed.

(** ** Prices *)
Lemma adjusted_exp_len_ok l exp_low : 0 <= l < 2 ^ 32 -> 0 <= exp_low < 2 ^ 256 -> exists a, 0 <= a /\ forall E, adjusted_exp_len (E := E) l exp_low = Ok a.
Proof.
  intros Hl He. unfold adjusted_exp_len. set (bit := if exp_low =? 0 then 0 else 255 - (256 - u256_bits exp_low)).
  assert (Hbit : 0 <= bit <= 255).
  { unfold bit, u256_bits. destruct (Z.eqb_spec exp_low 0); [lia|]. pose proof (Z.log2_nonneg exp_low). pose proof (Z.log2_lt_pow2 exp_low 256 ltac:(lia)). lia. }
  destruct (Z.leb_spec l 32); [exists bit; by split; [lia|]|]. exists (8 * (l - 32) + bit). split; [lia|]. intros E.
  rewrite sub_chk_ok by lia. cbn [mbind outcome_bind]. rewrite mul_chk_ok by lia. cbn [mbind outcome_bind]. by rewrite add_chk_ok by lia.
Qed.

Lemma mult_complexity_ok x : 0 <= x < 2 ^ 31 -> exists c, 0 <= c /\ forall E, mult_complexity (E := E) x = Ok c.
Proof.
  intros Hx. unfold mult_complexity. assert (0 <= x * x < 2 ^ 62) by nia.
  destruct (Z.leb_spec x 64); [exists (x * x); split; [lia|]; intros E; by rewrite mul_chk_ok by lia|]. destruct (Z.leb_spec x 1024).
  - pose proof (Z.div_pos (x * x) 4 ltac:(lia) ltac:(lia)). pose proof (Z.div_le_upper_bound (x * x) 4 (2 ^ 62) ltac:(lia) ltac:(lia)).
    exists (x * x / 4 + 96 * x - 3072). split; [lia|]. intros E.
    rewrite !mul_chk_ok by lia. cbn [mbind outcome_bind]. rewrite add_chk_ok by lia. cbn [mbind outcome_bind]. by rewrite sub_chk_ok by lia.
  - assert (1024 * 1024 <= x * x) by nia. pose proof (Z.div_le_mono (1024 * 1024) (x * x) 16 ltac:(lia) ltac:(lia)) as Hd. change (1024 * 1024 / 16) with 65536 in Hd.
    pose proof (Z.div_le_upper_bound (x * x) 16 (2 ^ 62) ltac:(lia) ltac:(lia)). exists (x * x / 16 + 480 * x - 199680). split; [lia|]. intros E.
    rewrite !mul_chk_ok by lia. cbn [mbind outcome_bind]. rewrite add_chk_ok by lia. cbn [mbind outcome_bind]. by rewrite sub_chk_ok by lia.
Qed.

(** A price that can be paid bounds the lengths. *)
Lemma modexp_cost_ok divisor input :
  is_bytes input -> 0 < divisor ->
  exists c, 0 <= c /\ (forall E, modexp_cost (E := E) divisor input = Ok c) /\
    (c < 2 ^ 64 -> (field_len input 0 = 0 /\ field_len input 64 = 0) \/
      Z.max (field_len input 64) (Z.max (field_len input 0) (field_len input 32)) < 2 ^ 31).
Proof.
  intros Hi Hdiv. unfold modexp_cost, field_len. pose proof (read_padded_bound input 0 32 Hi ltac:(lia)) as Hb. pose proof (read_padded_bound input 32 32 Hi ltac:(lia)) as He.
  pose proof (read_padded_bound input 64 32 Hi ltac:(lia)) as Hm. set (b := be_to_Z (read_padded input 0 32)) in *. set (e := be_to_Z (read_padded input 32 32)) in *.
  set (m := be_to_Z (read_padded input 64 32)) in *.
  destruct (_ && _) eqn:Hz. { apply andb_true_iff in Hz as [Hm0 Hb0]. b2p. rewrite Hm0, Hb0. exists 0. split; [done|]. split; [done|]. intros _. by left. }
  change ((2 ^ 32 - 1) / 2) with (2 ^ 31 - 1). destruct (_ || _) eqn:Hbig; [exists (2 ^ 256 - 1); split; [lia|]; split; [done|lia]|].
  apply orb_false_iff in Hbig as [Hbig Hbe]. apply orb_false_iff in Hbig as [Hbb Hbm]. b2p.
  assert (Hlow : forall x, 0 <= x < 2 ^ 31 -> low_u64 x = x) by (intros x Hx; apply low_u64_small; split; lia). rewrite !Hlow by lia.
  set (exp_low := if len input <=? b + 96 then 0 else _).
  assert (Hel : 0 <= exp_low < 2 ^ 256).
  { unfold exp_low. destruct (len input <=? b + 96); [lia|]. change (2 ^ 256) with (256 ^ 32).
    destruct (read_padded_bytes input (96 + b) (Z.min e 32) Hi ltac:(lia)) as [Hrb Hrl].
    set (l := replicate _ 0 ++ _). assert (Hlen : len l = 32) by (unfold l; rewrite len_app, Hrl; unfold len; rewrite length_replicate; lia).
    rewrite <-Hlen. apply be_to_Z_bound. apply Forall_app. split; [by apply Forall_replicate|done]. }
  destruct (adjusted_exp_len_ok e exp_low ltac:(lia) Hel) as (a & Ha0 & Ha). destruct (mult_complexity_ok (Z.max m b) ltac:(lia)) as (mc & Hmc0 & Hmc).
  exists (if snd (overflowing_mul 64 mc (Z.max a 1)) then 2 ^ 256 - 1 else fst (overflowing_mul 64 mc (Z.max a 1)) / divisor). split_and!.
  - unfold overflowing_mul. cbn. destruct (2 ^ 64 <=? _); [lia|]. apply Z.div_pos; [|done]. apply Z.mod_pos_bound. lia.
  - intros E. rewrite Ha. cbn [mbind outcome_bind]. rewrite Hmc. cbn [mbind outcome_bind]. destruct (overflowing_mul 64 mc (Z.max a 1)) as [g []]; [done|].
    by rewrite (proj2 (Z.eqb_neq divisor 0)) by lia.
  - intros _. right. lia.
Qed.

(** ** The built-in contracts *)
Lemma linear_cost_ok base word input :
  vec_ok input -> in_u 64 base -> in_u 64 word -> exists c, 0 <= c /\ forall E, cost (E := E) (Linear base word) input = Ok c.
Proof.
  intros [_ Hl] [Hb0 Hb] [Hw0 Hw]. pose proof (len_nonneg input). exists (base + word * ((len input + 31) / 32)).
  pose proof (Z.div_pos (len input + 31) 32 ltac:(lia) ltac:(lia)). pose proof (Z.div_le_upper_bound (len input + 31) 32 (2 ^ 63) ltac:(lia) ltac:(lia)).
  split; [nia|]. intros E. cbn [cost]. rewrite add_chk_ok by lia. cbn [mbind outcome_bind].
  assert (0 <= word * ((len input + 31) / 32) < 2 ^ 128) by nia. rewrite mul_chk_ok by lia. cbn [mbind outcome_bind]. by rewrite add_chk_ok by lia.
Qed.

Lemma write_flexible input : vec_ok input -> vec_ok (bytes_of (snd (bytes_write (Flexible []) 0 input))).
Proof. done. Qed.

Section natives.
Context (sha256 ripemd160 : bytes -> bytes) (keccak : bytes -> H256) (ec_recover : H256 -> H256 -> Z -> H256 -> option bytes).
Context (bn128_add bn128_mul bn128_pairing : bytes -> BytesRef -> outcome string BytesRef).
Context (Hsha : forall b, vec_ok (sha256 b)) (Hripemd : forall b, is_bytes (ripemd160 b) /\ len (ripemd160 b) = 20).

Lemma ecrecover_vec input : vec_ok (bytes_of (ecrecover_execute keccak ec_recover input (Flexible []))).
Proof.
  assert (Hnil : vec_ok []) by (by split; [constructor|]). unfold ecrecover_execute. destruct (_ || _); [|done]. destruct (is_valid _ _ _); [|done].
  destruct (ec_recover _ _ _ _) as [p|]; [|done]. cbn [bytes_write snd]. cbn [bytes_of]. split.
  - apply Forall_app. split; [|apply Forall_drop, Z_to_be_bytes]. unfold resize. case_match; [apply Forall_take|apply Forall_app; split]; by apply Forall_replicate.
  - rewrite len_app. unfold len at 2. rewrite length_drop, length_Z_to_be. done.
Qed.

#[local] Abbreviation ethereum_builtin := (ethereum_builtin sha256 ripemd160 keccak ec_recover bn128_add bn128_mul bn128_pairing).
#[local] Abbreviation Builtin_from := (Builtin_from sha256 ripemd160 keccak ec_recover bn128_add bn128_mul bn128_pairing).

Lemma native_ok name :
  name ∈ ["identity"; "ecrecover"; "sha256"; "ripemd160"]%string ->
  exists f, (forall E, ethereum_builtin name = Ok (E := E) f) /\
    forall input, vec_ok input -> wp (f input (Flexible [])) (fun out => vec_ok (bytes_of out)) any.
Proof.
  intros Hname. repeat (apply elem_of_cons in Hname as [->|Hname]); [..|by apply elem_of_nil in Hname]; (eexists; split; [done|]; intros input Hin; cbn [wpp]).
  - exact Hin.
  - apply ecrecover_vec.
  - apply Hsha.
  - destruct (Hripemd input) as [Hb Hl]. split; [|change (len (replicate 12 0 ++ ripemd160 input) < 2 ^ 63); rewrite len_app, Hl; done].
    cbn. repeat (apply Forall_cons_2; [done|]). exact Hb.
Qed.

(** The price of a built-in, whatever it is. *)
Lemma pricer_ok pricing input :
  vec_ok input ->
  match pricing with Linear base word => in_u 64 base /\ in_u 64 word | ModexpPricer d => 0 < d | AltBn128PairingPricer _ _ => False end ->
  exists c, 0 <= c /\ forall E, cost (E := E) pricing input = Ok c.
Proof.
  intros Hin. destruct pricing as [base word|d|]; [intros [? ?]; by apply linear_cost_ok| |done]. intros Hd.
  destruct (modexp_cost_ok d input (proj1 Hin) Hd) as (c & Hc0 & Hc & _). by exists c.
Qed.

Lemma modexp_native_ok d at_ : 0 < d -> builtin_ok (mkBuiltin (ModexpPricer d) modexp_execute at_).
Proof.
  intros Hd input Hin. destruct (modexp_cost_ok d input (proj1 Hin) Hd) as (c & Hc0 & Hc & Hlens). exists c. split_and!; [done..|].
  intros Hlt. specialize (Hlens Hlt). cbn [native]. pose proof (proj1 (low_u64_in_u (be_to_Z (read_padded input 64 32)))) as Hm0.
  rewrite modexp_execute_ok; [|apply Hin|destruct Hlens; [by left|right; lia]]. cbn [wpp bytes_of]. split; [apply Z_to_be_bytes|].
  rewrite len_Z_to_be, Z2Nat.id by exact Hm0. fold (field_len input 64). lia.
Qed.

Lemma builtin_from_ok name pricing at_ :
  name ∈ ["identity"; "ecrecover"; "sha256"; "ripemd160"; "modexp"]%string ->
  match pricing with Linear base word => in_u 64 base /\ in_u 64 word /\ name <> "modexp"%string | ModexpPricer d => in_u 64 d | AltBn128PairingPricer _ _ => False end ->
  exists b, (forall E, Builtin_from name pricing at_ = Ok (E := E) b) /\ builtin_ok b.
Proof.
  intros Hname Hpr. set (p := match pricing with ModexpPricer d => ModexpPricer (if d =? 0 then 10 else d) | p => p end).
  assert (Hd : forall d, in_u 64 d -> 0 < (if d =? 0 then 10 else d)) by (intros d [Hd0 _]; destruct (Z.eqb_spec d 0); lia).
  destruct (decide (name = "modexp"%string)) as [->|Hne].
  - destruct pricing as [base word|d|]; [by destruct Hpr as (_ & _ & ?)| |done]. eexists. split; [done|]. by apply modexp_native_ok, Hd.
  - assert (Hn4 : name ∈ ["identity"; "ecrecover"; "sha256"; "ripemd160"]%string) by set_solver.
    destruct (native_ok name Hn4) as (f & Hf & Hok). exists (mkBuiltin p f (default 0 at_)). split; [intros E; unfold Builtin.Builtin_from; by rewrite Hf|].
    intros input Hin. destruct (pricer_ok p input Hin) as (c & Hc0 & Hc); [|exists c; split_and!; [done..|]; intros _; by apply Hok].
    destruct pricing as [base word|d|]; cbn; [by destruct Hpr as (? & ? & _)|by apply Hd|done].
Qed.
End natives.

(** ** Results: built-in contracts *)

(** C39: the built-in contract for modular exponentiation computes it: the
    square-and-multiply loop ends and its result is the power modulo the
    modulus, zero if the modulus is at most one; the contract reads its three
    operands from the input extended with zeros and writes the result in as many
    bytes as the modulus has, for lengths a vector can have. *)
Theorem modexp_correct (b e m : Z) (input : bytes) :
  0 <= b -> 0 <= e -> is_bytes input ->
  (field_len input 0 = 0 /\ field_len input 64 = 0) \/ Z.max (field_len input 64) (Z.max (field_len input 0) (field_len input 32)) < 2 ^ 63 ->
  modexp b e m = Some (if m <=? 1 then 0 else b ^ e mod m) /\
  modexp_execute (E := string) input (Flexible []) = Ok (Flexible (Z_to_be (Z.to_nat (field_len input 64)) (modexp_value input))).
Proof. intros Hb He Hi Hl. split; [by apply modexp_ok|by apply modexp_execute_ok]. Qed.

(** 3 ^ 5 mod 7, with one byte each. *)
Definition sample_modexp : bytes := Z_to_be 32 1 ++ Z_to_be 32 1 ++ Z_to_be 32 1 ++ [3; 5; 7].

Lemma modexp_correct_witness : modexp 3 5 7 = Some 5 /\ modexp_execute (E := string) sample_modexp (Flexible []) = Ok (Flexible [5]).
Proof.
  apply (modexp_correct 3 5 7 sample_modexp); [done|done| |right; vm_compute; reflexivity].
  unfold sample_modexp. do 3 (apply Forall_app; split; [apply Z_to_be_bytes|]). by repeat constructor.
Defined.

(** C40: every built-in contract that needs no elliptic curve, configured with
    prices of 64 bits (modular exponentiation with its own pricing), has a price
    for every input and, if that price is below 2^64, an output that fits a
    vector; it never panics. *)
Theorem builtins_lawful (sha256 ripemd160 : bytes -> bytes) (keccak : bytes -> H256) (ec_recover : H256 -> H256 -> Z -> H256 -> option bytes)
    (bn128_add bn128_mul bn128_pairing : bytes -> BytesRef -> outcome string BytesRef) (name : string) (pricing : Pricer) (at_ : option Z) :
  (forall b, vec_ok (sha256 b)) -> (forall b, is_bytes (ripemd160 b) /\ len (ripemd160 b) = 20) ->
  name ∈ ["identity"; "ecrecover"; "sha256"; "ripemd160"; "modexp"]%string ->
  match pricing with
  | Linear base word => in_u 64 base /\ in_u 64 word /\ name <> "modexp"%string
  | ModexpPricer d => in_u 64 d
  | AltBn128PairingPricer _ _ => False
  end ->
  exists b, Builtin_from (E := string) sha256 ripemd160 keccak ec_recover bn128_add bn128_mul bn128_pairing name pricing at_ = Ok b /\
    forall input, vec_ok input ->
      exists c, 0 <= c /\ cost (E := string) (pricer b) input = Ok c /\
        (c < 2 ^ 64 -> wp (native b input (Flexible [])) (fun out => vec_ok (bytes_of out)) any).
Proof.
  intros Hs Hr Hn Hp. destruct (builtin_from_ok sha256 ripemd160 keccak ec_recover bn128_add bn128_mul bn128_pairing Hs Hr name pricing at_ Hn Hp) as (b & Hb & Hok).
  exists b. split; [apply Hb|]. intros input Hin. destruct (Hok input Hin) as (c & Hc0 & Hc & Hw). by exists c.
Qed.

Lemma builtins_lawful_witness :
  exists b, Builtin_from (E := string) (fun _ => []) (fun _ => replicate 20 0) len (fun _ _ _ _ => None) (fun _ o => Ok o) (fun _ o => Ok o) (fun _ o => Ok o)
      "modexp" (ModexpPricer 20) None = Ok b /\
    forall input, vec_ok input -> exists c, 0 <= c /\ cost (E := string) (pricer b) input = Ok c /\
      (c < 2 ^ 64 -> wp (native b input (Flexible [])) (fun out => vec_ok (bytes_of out)) any).
Proof.
  apply (builtins_lawful (fun _ => []) (fun _ => replicate 20 0) len (fun _ _ _ _ => None) (fun _ o => Ok o) (fun _ o => Ok o) (fun _ o => Ok o)
    "modexp" (ModexpPricer 20) None); [by intros; split; [constructor|]|intros; split; [by apply Forall_replicate|done]|set_solver|by split].
Defined.

(** ** Results: the chain's rules *)

(** Whatever its parameters and transitions, a machine without rules of its
    own has at every block a schedule the interpreter and the executive can work
    with: prices in range, stack and memory parameters as the gasometer expects,
    refunds and transaction prices of 32 bits.  EIP-86 is never in force. *)
Theorem schedule_typed (self : EthereumMachine) (block_number : Z) :
  schedule_rules self = None ->
  let s := schedule self block_number in
  schedule_ok s = true /\ price (create_data_gas s) = true /\ eip86 s = false /\ tx_rules_ok s.
Proof.
  intros Hr. unfold schedule. rewrite Hr. cbn zeta.
  assert (Hup : forall p s, schedule_ok s = true -> schedule_ok (update_schedule p block_number s) = true).
  { intros p s Hs. unfold update_schedule, set_rules. unfold schedule_ok in *. cbn in *.
    destruct (eip210_transition p <=? block_number); [|done]. rewrite !andb_true_iff in *. cbn. tauto. }
  destruct (ethash_extensions self) as [ext|].
  - destruct (block_number <? homestead_transition ext); [by split_and!|]. destruct (block_number <? eip150_transition ext); [by split_and!|].
    split; [apply Hup, schedule_ok_post_eip150|]. by split_and!.
  - split; [apply Hup, schedule_ok_post_eip150|]. by split_and!.
Qed.

(** A machine of the tests: every transition but EIP-155, EIP-210 and EIP-86 at
    the first block. *)
Definition sample_params : CommonParams :=
  mkCommonParams 0 32 1 1 "eth" 5000 None 0 0 0 0 0 (2 ^ 64 - 1) 0 (2 ^ 64 - 1) 0 [] 1000000 0 0 (2 ^ 64 - 1) 64 false false 1024 0 None 24576 None.

Definition sample_machine : EthereumMachine :=
  mkEthMachine sample_params ∅ (Some (mkEthash 0 0 0 0 0 (2 ^ 64 - 1) 0 [])) None.

Lemma schedule_typed_witness :
  schedule_ok (schedule sample_machine 5000000) = true /\ price (create_data_gas (schedule sample_machine 5000000)) = true /\
  eip86 (schedule sample_machine 5000000) = false /\ tx_rules_ok (schedule sample_machine 5000000).
Proof. apply (schedule_typed sample_machine 5000000). reflexivity. Defined.

Lemma round_block_gas_limit_ok {E} (g lower upper : Z) :
  lower <= g <= upper -> 0 <= g -> g + 37 < 2 ^ 256 ->
  exists r, round_block_gas_limit (E := E) g lower upper = Ok r /\ lower <= r <= upper /\
    ((37 | r) \/ forall m, lower <= m <= upper -> ~ (37 | m)).
Proof.
  intros Hg H0 Hb. unfold round_block_gas_limit, PARITY_GAS_LIMIT_DETERMINANT. pose proof (Z.mod_pos_bound g 37 ltac:(done)). pose proof (Z.div_mod g 37 ltac:(done)) as Hdm.
  rewrite sub_chk_ok by lia. cbn [mbind outcome_bind]. rewrite (add_chk_ok 256) by lia. cbn [mbind outcome_bind].
  destruct (Z.ltb_spec upper (g + (37 - g mod 37))).
  - rewrite sub_chk_ok by lia. cbn [mbind outcome_bind]. eexists. split; [done|]. destruct (Z.ltb_spec (g + (37 - g mod 37) - 37) lower).
    + split; [lia|]. right. intros m Hm [k ->]. assert (g / 37 < k < g / 37 + 1) by nia. lia.
    + split; [lia|]. left. exists (g / 37). lia.
  - eexists. split; [done|]. split; [lia|]. left. exists (g / 37 + 1). lia.
Qed.

(** C36: the gas limit proposed for a new block is computed without overflow,
    panic or failed assertion and stays strictly within the parent's limit
    divided by the bound divisor, which is what the verification of headers
    demands, for every floor and ceiling; with the ethash rules it is a multiple
    of 37 if the permitted range has one.  The parent's limit is at least the
    divisor (below it the subtraction of one from the bounds leaves no admissible
    limit) and below 2^254, and the gas used in the block is below 2^250. *)
Theorem gas_limit_bounds (self : EthereumMachine) (parent used floor ceil : Z) :
  let divisor := gas_limit_bound_divisor (mc_params self) in
  let lower := parent - parent / divisor + 1 in
  let upper := parent + parent / divisor - 1 in
  let free := (floor <=? parent) && (parent <=? ceil) in
  0 < divisor <= parent -> parent < 2 ^ 254 -> 0 <= used < 2 ^ 250 -> 0 <= floor -> 0 <= ceil ->
  exists g, populate_gas_limit (E := string) self parent used floor ceil = Ok g /\ lower <= g <= upper /\
    (ethash_extensions self <> None ->
     (37 | g) \/ forall m, (if free then Z.max lower floor else lower) <= m <= (if free then Z.min upper ceil else upper) -> ~ (37 | m)).
Proof.
  intros divisor lower upper free Hd Hp Hu Hf Hc.
  assert (Hq : 1 <= parent / divisor <= parent) by (split; [apply Z.div_le_lower_bound|apply Z.div_le_upper_bound]; nia).
  unfold populate_gas_limit, ethash_gas_limit, basic_gas_limit. fold divisor. unfold div_chk. rewrite (proj2 (Z.eqb_neq divisor 0)) by lia.
  destruct (ethash_extensions self) as [ext|]; cbn [mbind outcome_bind].
  - rewrite sub_chk_ok by lia. cbn [mbind outcome_bind]. rewrite (add_chk_ok 256 (parent - _)) by lia. cbn [mbind outcome_bind].
    rewrite (add_chk_ok 256 parent) by lia. cbn [mbind outcome_bind]. rewrite sub_chk_ok by lia. cbn [mbind outcome_bind]. fold lower upper.
    assert (Hin : forall r, lower <= r <= upper -> (if (lower <=? r) && (r <=? upper) then Ok (E := string) r else Panic) = Ok r).
    { intros r Hr. by rewrite (proj2 (Z.leb_le lower r)), (proj2 (Z.leb_le r upper)) by lia. }
    unfold free. destruct (Z.ltb_spec parent floor), (Z.leb_spec floor parent), (Z.ltb_spec ceil parent), (Z.leb_spec parent ceil); try lia; cbn [andb].
    1,2: destruct (round_block_gas_limit_ok (E := string) (Z.min floor upper) lower upper) as (r & -> & Hr & Hm); [lia..|]; exists r; split; [by apply Hin|]; by split.
    + destruct (round_block_gas_limit_ok (E := string) (Z.max ceil lower) lower upper) as (r & -> & Hr & Hm); [lia..|]. exists r. split; [by apply Hin|]. by split.
    + rewrite (mul_chk_ok 256 used) by lia. cbn [mbind outcome_bind].
      assert (0 <= used * 6 / 5 < 2 ^ 252) by (split; [apply Z.div_pos|apply Z.div_lt_upper_bound]; lia).
      assert (0 <= used * 6 / 5 / divisor <= used * 6 / 5) by (split; [apply Z.div_pos|apply Z.div_le_upper_bound]; nia).
      rewrite (add_chk_ok 256 lower) by lia. cbn [mbind outcome_bind].
      destruct (round_block_gas_limit_ok (E := string) (Z.max floor (Z.min (Z.min upper ceil) (lower + used * 6 / 5 / divisor)))
        (Z.max lower floor) (Z.min upper ceil)) as (r & -> & Hr & Hm); [lia..|]. exists r. split; [apply Hin; lia|]. split; [lia|done].
  - destruct (Z.ltb_spec parent floor).
    + rewrite (add_chk_ok 256 parent) by lia. cbn [mbind outcome_bind]. rewrite sub_chk_ok by lia. cbn [mbind outcome_bind].
      eexists. split; [done|]. split; [lia|done].
    + rewrite sub_chk_ok by lia. cbn [mbind outcome_bind]. rewrite (add_chk_ok 256) by lia. cbn [mbind outcome_bind].
      eexists. split; [done|]. split; [lia|done].
Qed.

Lemma gas_limit_bounds_witness :
  exists g, populate_gas_limit (E := string) sample_machine 4712388 1000000 3000000 8000000 = Ok g /\ 4707788 <= g <= 4716988 /\
    (ethash_extensions sample_machine <> None -> (37 | g) \/ forall m, 4707788 <= m <= 4716988 -> ~ (37 | m)).
Proof. apply (gas_limit_bounds sample_machine 4712388 1000000 3000000 8000000); done. Defined.

(** ** Results: transactions *)

Lemma signed_bytes t : utx_ok t -> rlp_bytes t = Ok (rlp_enc (List (signed_items t))).
Proof.
  intros Ht. unfold rlp_bytes. rewrite signed_append, append_items by (try apply signed_items_ok; done). done.
Qed.

(** C37: a signed transaction is recovered from its encoding with every field,
    the hash included, and the encoding is that of the list of its nine items. *)
Theorem transaction_roundtrip (keccak : bytes -> H256) (t : UnverifiedTransaction) :
  sealed keccak t ->
  (b ← encode t; decode_bytes (H := UnverifiedTransaction_Decodable keccak) b) = Ok t /\
  rlp_bytes t = Ok (rlp_enc (List (signed_items t))).
Proof.
  intros Ht. split; [|by apply signed_bytes; destruct Ht]. by apply (codec_roundtrip _ _ (UnverifiedTransaction_codec keccak)).
Qed.

(** A transfer, and its sealed form. *)
Definition sample_tx : Transaction := mkTx 3 1 30000 (Call 2) 10 [0; 7].
Definition sample_signed : UnverifiedTransaction :=
  let u := mkUTx sample_tx 37 5 6 0 in mkUTx sample_tx 37 5 6 (len (rlp_enc (List (signed_items u)))).

Lemma transaction_roundtrip_witness :
  (b ← encode sample_signed; decode_bytes (H := UnverifiedTransaction_Decodable len) b) = Ok sample_signed /\
  rlp_bytes sample_signed = Ok (rlp_enc (List (signed_items sample_signed))).
Proof. apply (transaction_roundtrip len sample_signed). split; [|done]. split_and!; try done. by repeat constructor. Defined.

(** An empty list is read as a creation too, which is encoded as empty data: the
    decoder takes more than the encoder writes. *)
Example empty_list_is_create :
  fst (Action_decode (UntrustedRlp_new [0xc0])) = Ok Create /\ encode Create = Ok [0x80].
Proof. vm_compute. by split. Qed.

(** The two readings of [v]. *)
Lemma with_signature_ok (keccak : bytes -> H256) (t : Transaction) (r s v : Z) (chain : option Z) :
  tx_ok t -> is_u256 r -> is_u256 s -> ~ (r = 0 /\ s = 0) -> 0 <= v <= 1 ->
  match chain with Some n => 0 <= n /\ 36 + 2 * n < 2 ^ 64 | None => True end ->
  exists u, with_signature keccak t r s v chain = Ok u /\ sealed keccak u /\ unsigned u = t /\
    tx_chain_id u = (if decide (chain = Some 0) then None else chain) /\
    standard_v u = (if decide (chain = Some 0) then 4 else v).
Proof.
  intros Ht Hr Hs Hrs Hv Hc. set (w := v + match chain with Some n => 35 + n * 2 | None => 27 end).
  assert (Hw : 0 <= w < 2 ^ 64) by (unfold w; destruct chain; lia).
  assert (Hu : utx_ok (mkUTx t w r s 0)) by (by split).
  exists (mkUTx t w r s (keccak (rlp_enc (List (signed_items (mkUTx t w r s 0)))))). split.
  { unfold with_signature, w. destruct chain as [n|].
    - rewrite (mul_chk_ok 64) by lia. cbn [mbind outcome_bind]. rewrite (add_chk_ok 64 35) by lia. cbn [mbind outcome_bind].
      rewrite (add_chk_ok 64 v) by lia. cbn [mbind outcome_bind]. unfold compute_hash. by rewrite signed_bytes.
    - cbn [mbind outcome_bind]. rewrite (add_chk_ok 64 v) by lia. cbn [mbind outcome_bind]. unfold compute_hash. by rewrite signed_bytes. }
  split; [by split|]. split; [done|]. unfold tx_chain_id, standard_v, is_unsigned. cbn [ut_v ut_r ut_s].
  assert ((r =? 0) && (s =? 0) = false) as -> by (destruct (Z.eqb_spec r 0), (Z.eqb_spec s 0); naive_solver). unfold w.
  destruct chain as [n|]; [|rewrite decide_False by done; assert (v = 0 \/ v = 1) as [-> | ->] by lia; done].
  destruct (decide (Some n = Some 0)) as [[= ->]|Hn]; [assert (v = 0 \/ v = 1) as [-> | ->] by lia; done|].
  assert (n <> 0) by congruence. rewrite (proj2 (Z.ltb_lt 36 _)), orb_true_r by lia. split.
  - replace (v + (35 + n * 2) - 35) with (v + n * 2) by lia. rewrite Z.div_add, Z.div_small by lia. done.
  - replace (v + (35 + n * 2) - 1) with (v + (17 + n) * 2) by lia. rewrite Z.mod_add, Z.mod_small by lia. done.
Qed.

Lemma with_signature_fields keccak t r s v chain u : with_signature keccak t r s v chain = Ok u -> ut_r u = r /\ ut_s u = s.
Proof.
  unfold with_signature, compute_hash. intros Hu. destruct (match chain with Some _ => _ | None => _ end) as [b| |]; [|done..]. cbn [mbind outcome_bind] in Hu.
  destruct (add_chk 64 v b) as [w| |]; [|done..]. cbn [mbind outcome_bind] in Hu. destruct (rlp_bytes _); [|done..]. by injection Hu as <-.
Qed.

(** C38: a transaction signed for a chain carries that chain's number and the
    parity of its signature in one field, and both are read back, for every
    number from 1 whose field fits 64 bits; signed for no chain it names none.
    The result is sealed, so it survives the wire.  Where the chain's number is
    checked and [s] is low, it is accepted by its own chain and, signed for no
    chain, by all, and refused by every other chain.  Chain 0 is the exception:
    its signatures are read as invalid and as naming no chain. *)
Theorem replay_protection (keccak : bytes -> H256) (t : Transaction) (r s v : Z) (chain : option Z) (machine : EthereumMachine) (block : Z) :
  tx_ok t -> is_u256 r -> is_u256 s -> ~ (r = 0 /\ s = 0) -> 0 <= v <= 1 ->
  match chain with Some n => 0 <= n /\ 36 + 2 * n < 2 ^ 64 | None => True end ->
  is_low_s s = true -> Z.max (validate_chain_id_transition (mc_params machine)) (eip155_transition (mc_params machine)) <= block ->
  exists u, with_signature keccak t r s v chain = Ok u /\ sealed keccak u /\ unsigned u = t /\
    tx_chain_id u = (if decide (chain = Some 0) then None else chain) /\
    standard_v u = (if decide (chain = Some 0) then 4 else v) /\
    verify_transaction_basic machine u block =
      match chain with
      | Some n => if (n =? 0) || (n =? chain_id (mc_params machine)) then Ok tt else Err InvalidChainId
      | None => Ok tt
      end.
Proof.
  intros Ht Hr Hs Hrs Hv Hc Hlow Hb. destruct (with_signature_ok keccak t r s v chain Ht Hr Hs Hrs Hv Hc) as (u & Hu & Hsl & Hun & Hid & Hst).
  exists u. do 5 (split; [done|]). destruct (with_signature_fields _ _ _ _ _ _ _ Hu) as [Hur Hus].
  unfold verify_transaction_basic, verify_basic, check_low_s. rewrite Hid, Hus, Hlow. cbn [negb andb].
  rewrite (proj2 (Z.ltb_ge block _)), (proj2 (Z.leb_le _ block)) by lia.
  assert (Hif : forall b : bool, (if b && true then Ok tt else Ok tt) = Ok (E := TxError) tt) by (by intros []). rewrite Hif. cbn [mbind outcome_bind].
  destruct chain as [m|]; [|by rewrite decide_False]. destruct (Z.eqb_spec m 0) as [->|Hm]; [by rewrite decide_True|].
  rewrite decide_False by congruence. by cbn [orb].
Qed.

Lemma replay_protection_witness :
  exists u, with_signature len sample_tx 5 6 1 (Some 61) = Ok u /\ sealed len u /\ unsigned u = sample_tx /\ tx_chain_id u = Some 61 /\ standard_v u = 1 /\
    verify_transaction_basic sample_machine u 5000000 = Err InvalidChainId.
Proof. apply (replay_protection len sample_tx 5 6 1 (Some 61) sample_machine 5000000); try done; [|lia]. split_and!; try done. by repeat constructor. Defined.
