(* ===== verification/ExecutiveTheorems.v ===== *)
(** * Results about execution on the state

    Calls, creations and transactions over any backend, database and chain that
    meet the assumptions of [ExternalitiesLaws.v], and a small chain that meets
    them all, on which the code also runs. *)
From Stdlib Require Import String.
From stdpp Require Import base list numbers gmap.
From S2P Require Import Prelude Words Vm VmLaws Cost JumpDests Interpreter EvmSteps InterpreterSafety FakeExt RlpStream RlpEncoding Account State StateSpec StateWrites StateOps StateWorld Substate Builtin EthMachine Transaction Executive TransactionCodec Ledger LedgerState ExternalitiesLaws ExecutiveLaws TransactLaws ChainTheorems.

#[local] Arguments KECCAK_EMPTY : simpl never.
#[local] Arguments KECCAK_NULL_RLP : simpl never.

Section execution.
Context {DB C J : Type} `{HashDB DB} `{LruLaws C} `{JumpCache J} (keccak : bytes -> Z) (D : DB) (root : Z) (codes : Z -> option bytes).
Context {B : Type} `{!Backend B DB C} `{!BackendLaws keccak D root codes B} (Hdb : db_complete keccak D root codes).
Context (Hempty : keccak [] = KECCAK_EMPTY) (Hkeccak : forall b, is_u256 (keccak b)).
Context (machine : EthereumMachine) (show_hash : Z -> string) (local_stack_size : Z) (jump_cache : ActionParams -> J)
  (wasm_exec : VmExt (Externalities B C) -> ActionParams -> Externalities B C ->
    outcome (Error * Externalities B C) (GasLeft * Externalities B C)).
Context (Hstack : STACK_SIZE_PER_DEPTH <= local_stack_size).
Context (info : EnvInfo) (sched : Schedule) (Hchain : chain_ok machine info sched).
Context (n : Z) (base : Z -> Z -> Z).
Implicit Types (A : AState) (s : State B C) (t : SignedTransaction) (ex : Executive) (params : ActionParams).

#[local] Abbreviation stands := (stands keccak D root codes n).
#[local] Abbreviation undone := (undone keccak D root codes n base).
#[local] Abbreviation ext_of := (ext_of keccak machine show_hash local_stack_size jump_cache wasm_exec).
#[local] Abbreviation executive_call := (executive_call keccak machine show_hash local_stack_size jump_cache wasm_exec).
#[local] Abbreviation executive_create := (executive_create keccak machine show_hash local_stack_size jump_cache wasm_exec).
#[local] Abbreviation transact := (transact keccak machine show_hash local_stack_size jump_cache wasm_exec).
#[local] Abbreviation call_pre := (call_pre keccak D root codes info sched n base).
#[local] Abbreviation create_pre := (create_pre keccak D root codes info sched n base).

(** C6: the externalities of the executive, at every depth of nested calls, keep
    the laws the interpreter was proved against: no operation panics, values are
    in range, the account that runs and the schedule stay, calls and creations
    give back at most the gas they got, and no internal error is reported.  What
    was proved of the interpreter for any externalities therefore holds with
    these.  The chain is one of [chain_ok]: no WebAssembly, a block more than 256
    blocks before the EIP-210 transition, the hashes of its last 256 ancestors
    given (with fewer, the assertion of [blockhash] panics), built-ins
    that have a price for every input and run when that price is paid, and the
    schedule of that block without EIP-86; the state database is complete and the
    thread has stack for at least one level. *)
Theorem externalities_lawful (levels : nat) :
  @ExtLaws (Externalities B C) (ext_of levels) (spec_of keccak D root codes info sched n base levels).
Proof. by apply ext_of_laws. Qed.

Lemma call_result levels ex params w A :
  call_pre levels ex params w A ->
  result_ok keccak D root codes sched n base (is_static ex params) (gas params) A (w_substate w) (same_buffer (w_output w))
    (executive_call (ext_of levels) ex params w).
Proof.
  intros Hpre. rewrite ext_of_unfold. apply (executive_call_ok keccak D root codes Hdb Hempty Hkeccak machine show_hash local_stack_size jump_cache
    wasm_exec Hstack info sched Hchain n base levels); [|done]. rewrite <-ext_of_unfold. by apply ext_of_laws.
Qed.

Lemma create_result levels ex params w A :
  create_pre levels ex params w A ->
  result_ok keccak D root codes sched n base (ex_static ex) (gas params) A (w_substate w) (fun _ => True) (executive_create (ext_of levels) ex params w).
Proof.
  intros Hpre. rewrite ext_of_unfold. apply (executive_create_ok keccak D root codes Hdb Hempty Hkeccak machine show_hash local_stack_size jump_cache
    wasm_exec Hstack info sched Hchain n base levels); [|done]. rewrite <-ext_of_unfold. by apply ext_of_laws.
Qed.

(** C3: a message call at any depth ends without a panic or an internal error.
    It leaves at most the gas it had and a state that stands for accounts again,
    with no more ether in total, every account still there and the checkpoints
    of the caller untouched; if it fails or reverts, the accounts, the logs, the
    removals and the refunds are exactly those from before the call.  This is for
    calls as the executive makes them ([call_pre]): less than 2^64 gas, a value
    that an existing sender can pay (and not a delegated call with a transfer to
    another account), code only where there is an account, nonces that stay below
    2^256, a state that stands for accounts with less than 2^256 ether and no
    storage where there is no used account; on a complete database, a thread with
    stack for at least one level, and a chain of [chain_ok] (no WebAssembly, more
    than 256 blocks before EIP-210, 256 ancestors' hashes, priced built-ins). *)
Theorem call_outcome (levels : nat) ex params w A :
  call_pre levels ex params w A ->
  match executive_call (ext_of levels) ex params w with
  | Ok (f, w') =>
      0 <= f_gas_left f <= gas params /\ rd_ok (f_return_data f) /\ (f_apply_state f = false -> undone A (w_substate w) w') /\
      exists A', stands base (w_state w') A' /\ total (a_cur A') <= total (a_cur A) /\ a_saved A' = a_saved A /\
        forall a, is_Some (a_cur A a) -> is_Some (a_cur A' a)
  | Err (e, w') => reverting e = true /\ undone A (w_substate w) w'
  | Panic => False
  end.
Proof.
  intros Hpre. pose proof (call_result levels ex params w A Hpre) as Hr. unfold result_ok in Hr.
  destruct (executive_call _ ex params w) as [[f w']|[e w']|]; [|by destruct Hr as (? & ? & _)|done].
  destruct Hr as (Hg & Hrd & (_ & _ & A' & Hs & [? Ht ? _ _]) & Hun & _). split_and!; try done; [lia..|]. exists A'. split_and!; try done. lia.
Qed.

(** C5: a message call in a static context changes no account, whatever the code
    does and however deep it calls, under rules that do not create empty
    accounts.  The call meets [call_pre] (less than 2^64 gas, a funded transfer,
    code only where there is an account) and the chain [chain_ok]; in particular
    the block is more than 256 blocks before the EIP-210 transition: after it,
    [BLOCKHASH] calls a contract through a new executive, which is not static, so
    that nothing is claimed of such blocks. *)
Theorem static_call_pure (levels : nat) ex params w A :
  call_pre levels ex params w A -> is_static ex params = true -> lean_rules sched = true ->
  match executive_call (ext_of levels) ex params w with
  | Ok (_, w') | Err (_, w') => exists A', stands base (w_state w') A' /\ forall a, aeq (a_cur A a) (a_cur A' a)
  | Panic => False
  end.
Proof.
  intros Hpre Hst Hlean. pose proof (call_result levels ex params w A Hpre) as Hr. unfold result_ok in Hr.
  destruct (executive_call _ ex params w) as [[f w']|[e w']|]; [|destruct Hr as (_ & [? _] & _); by exists A|done].
  destruct Hr as (_ & _ & (_ & _ & A' & Hs & Hm) & _). exists A'. split; [done|]. by apply (mv_static _ _ _ _ _ _ _ Hm).
Qed.

(** C4: a contract creation at any depth ends without a panic or an internal
    error, leaves at most the gas it had and no more ether in total, and undoes
    everything if it fails or its code reverts; where an account with a nonce or
    with code already lives it is refused as out of gas, before anything
    happens.  This is for creations as the executive makes them ([create_pre]):
    init code is given, less than 2^64 gas, outside a static context a sender
    that exists with its nonce already raised, a value it can pay, nonces that
    stay below 2^256, a state that stands for accounts with less than 2^256 ether
    and no storage where there is no used account; on a complete database, a
    thread with stack for at least one level, and a chain of [chain_ok] (no
    WebAssembly, more than 256 blocks before EIP-210, 256 ancestors' hashes,
    priced built-ins). *)
Theorem create_outcome (levels : nat) ex params w A :
  create_pre levels ex params w A ->
  ((exists z, a_cur A (address params) = Some z /\ ~ unused n z) ->
   exists w', executive_create (ext_of levels) ex params w = Err (OutOfGas, w') /\ undone A (w_substate w) w') /\
  match executive_create (ext_of levels) ex params w with
  | Ok (f, w') =>
      0 <= f_gas_left f <= gas params /\ rd_ok (f_return_data f) /\ (f_apply_state f = false -> undone A (w_substate w) w') /\
      exists A', stands base (w_state w') A' /\ total (a_cur A') <= total (a_cur A) /\ a_saved A' = a_saved A /\
        forall a, is_Some (a_cur A a) -> is_Some (a_cur A' a)
  | Err (e, w') => reverting e = true /\ undone A (w_substate w) w'
  | Panic => False
  end.
Proof.
  intros Hpre. split.
  - intros (z & Hz & Hused). pose proof (rp_stands _ _ _ _ _ _ _ _ _ _ _ _ _ Hpre) as Hs. unfold Executive.executive_create.
    destruct (has_code_or_nonce_stands keccak D root codes Hdb Hempty n base (w_state w) A (address params) Hs) as ([] & s1 & -> & Hs1 & Hfree);
      [|by destruct Hused; apply (proj1 Hfree eq_refl)]. cbn. by eexists.
  - pose proof (create_result levels ex params w A Hpre) as Hr. unfold result_ok in Hr.
    destruct (executive_create _ ex params w) as [[f w']|[e w']|]; [|by destruct Hr as (? & ? & _)|done].
    destruct Hr as (Hg & Hrd & (_ & _ & A' & Hs & [? Ht ? _ _]) & Hun & _). split_and!; try done; [lia..|]. exists A'. split_and!; try done. lia.
Qed.

(** ** Transactions *)
Context (Hrules : tx_rules_ok sched).
#[local] Abbreviation transact_pre := (transact_pre keccak D root codes n).
#[local] Abbreviation verdict := (verdict info sched n).

(** C2: a transaction is refused when it cannot pay for its intrinsic gas, its
    sender is missing where the rules demand one, its nonce is not the next one,
    it does not fit the block's gas limit, or the sender cannot pay for gas and
    value: the error names the first of these in this order, and the accounts
    are as they were.  The one exception is a transaction that reaches the
    comparison with the block's limit and whose gas, added to the gas used, does
    not fit 256 bits: there the addition panics.  This needs only well-typed
    arguments, the schedule of the block with its prices below 2^32, and a state
    that stands for accounts over a complete database.  A transaction that none
    of the reasons applies to is executed, under the conditions of
    [transact_settles]: less than 2^64 gas, room for nonces, no open checkpoint,
    a chain of [chain_ok] (no WebAssembly, more than 256 blocks before EIP-210,
    256 ancestors' hashes, priced built-ins), a backend without a shared account
    cache. *)
Theorem transact_refusals s A t (options : TransactOptions) :
  sched = schedule machine (number info) -> is_u256 (gas_limit info) -> stands base s A -> stx_ok t ->
  match verdict A t (check_nonce options) with
  | inl e =>
      if sum_overflows e then transact (Executive_new info) t options s = Panic
      else exists s', transact (Executive_new info) t options s = Err (e, s') /\ stands base s' A
  | inr _ =>
      chain_ok machine info sched -> (forall b a, backend_ok b -> backend_private b a) -> transact_pre base s A t ->
      exists r s', transact (Executive_new info) t options s = Ok (r, s')
  end.
Proof.
  intros Hsched Hlim Hs Htx. unfold Executive.transact. destruct (verdict A t (check_nonce options)) as [e|r] eqn:Hv.
  - by apply (transact_refused keccak D root codes Hdb Hempty machine show_hash local_stack_size jump_cache wasm_exec info sched Hrules n base s A t
      (check_nonce options)).
  - intros Hc Hp Hpre. destruct (transact_accepted keccak D root codes Hdb Hempty Hkeccak machine show_hash local_stack_size jump_cache wasm_exec Hstack
      info sched Hc Hrules n Hp base s A t (check_nonce options) (output_from_init_contract options) r Hpre Hv) as (r' & s' & -> & _). by exists r', s'.
Qed.

Context (Hpriv : forall b a, backend_ok b -> backend_private b a).

(** C1: a transaction that is not refused and has less than 2^64 gas is executed,
    whatever its code does: it ends with a receipt, without a panic or an
    internal error.  The sender's nonce grows by one and all gas is paid for
    first; the gas used is at least half of the intrinsic gas and at most the
    limit; an exception keeps nothing but that charge, without logs and refunds;
    then the sender gets the price of the gas not used, the author that of the
    gas used, and accounts are at most removed.  No ether appears.  The state
    stands for accounts with words in range, less than 2^256 ether in total and
    no storage where there is no used account; it has no open checkpoint, nonces
    with room below 2^256, and a backend without a shared account cache, like [Basic] and unlike the client's [StateDB] (there
    the storage of a removed account may show again in the shared cache); the
    database is complete; the chain is one of [chain_ok]: no WebAssembly, a block
    more than 256 blocks before EIP-210, the hashes of 256 ancestors, priced
    built-ins. *)
Theorem transact_settles s A t (options : TransactOptions) out :
  transact_pre base s A t -> verdict A t (check_nonce options) = inr out ->
  exists r s', transact (Executive_new info) t options s = Ok (r, s') /\ receipt_ok info sched t r /\
    exists base' A0 A1 mode A', charged n A t A0 /\
      total (a_cur A1) <= total (a_cur A) - t_gas (unsigned (transaction t)) * t_gas_price (unsigned (transaction t)) /\
      (e_exception r <> None -> A1 = A0) /\ settled info n A1 t mode (e_gas_used r) A' /\
      stands base' s' A' /\ a_saved A' = [] /\ total (a_cur A') <= total (a_cur A).
Proof.
  intros Hpre Hv. exact (transact_accepted keccak D root codes Hdb Hempty Hkeccak machine show_hash local_stack_size jump_cache wasm_exec Hstack info sched
    Hchain Hrules n Hpriv base s A t (check_nonce options) (output_from_init_contract options) out Hpre Hv).
Qed.
End execution.

(** ** A chain on which all of this holds

    The database of [StateWorld.v] behind [Basic], the rules of
    [sample_machine], a block with 256 known ancestors. *)
Definition chain_info : EnvInfo := mkEnv 5000000 9 1500000000 131072 8000000 (replicate 256 77) 100000.
Definition chain_sched : Schedule := schedule sample_machine 5000000.
Definition chain_base : Z -> Z -> Z := db_storage test_keccak test_db test_root.
Definition chain_accounts : AState := mkAState (db_view test_keccak test_db test_root test_codes) [].
Definition chain_state : State (Basic MapDb) (gmap Z Z) := mkState (mkBasicBackend test_db) test_root ∅ [] 0.
Definition no_wasm (_ : VmExt (Externalities (Basic MapDb) (gmap Z Z))) (_ : ActionParams) (x : Externalities (Basic MapDb) (gmap Z Z)) :
    outcome (Error * Externalities (Basic MapDb) (gmap Z Z)) (GasLeft * Externalities (Basic MapDb) (gmap Z Z)) :=
  Err (Wasm "not available", x).

Lemma test_keccak_word b : is_u256 (test_keccak b).
Proof. unfold test_keccak. destruct b; [done|]. by apply Z.mod_pos_bound. Qed.

Lemma chain_sched_ok : chain_ok sample_machine chain_info chain_sched.
Proof.
  split; try done. intros i Hi. exists 77. split; [|done]. apply lookup_replicate. split; [done|]. cbn in Hi. lia.
Qed.

Lemma chain_account a z :
  a_cur chain_accounts a = Some z -> z = mkA 1000000 3 2 test_code (chain_base a) /\ (in_u 160 a -> a = 1).
Proof.
  cbn [a_cur chain_accounts]. unfold db_view. rewrite test_account. case_decide as Ha; [|done]. intros [= <-]. split; [done|].
  intros Hu. apply (f_equal be_to_Z) in Ha. rewrite !be_to_Z_to_be in Ha. change (256 ^ Z.of_nat 20) with (2 ^ 160) in Ha.
  rewrite !Z.mod_small in Ha by done. done.
Qed.

Lemma chain_storage a k : is_u256 (chain_base a k).
Proof.
  unfold chain_base, db_storage. rewrite test_account. case_decide; [|done]. unfold storage_in, sec_trie_get, MapDb_hashdb.
  change (b_storage_root test_basic =? KECCAK_NULL_RLP) with false. cbn match. change (db_prefix (adb test_keccak test_db a)) with 20.
  change (db_tries (adb test_keccak test_db a)) with (db_tries test_db). unfold test_db. cbn [db_tries b_storage_root test_basic].
  rewrite lookup_insert_ne by done. destruct (decide (Z_to_be 32 1 = Z_to_be 32 k)) as [Hk|Hk].
  - by rewrite <-Hk, lookup_singleton_eq.
  - by rewrite lookup_singleton_ne by congruence.
Qed.

Lemma chain_total : total (a_cur chain_accounts) <= 1000000.
Proof.
  unfold total. rewrite (sum_same (fun a => if decide (a = 1) then 1000000 else 0) (held (a_cur chain_accounts))).
  - rewrite (sum_upd (fun _ => 0) _ addresses 1 addresses_nodup); [|by apply elem_of_addresses|by intros b Hb; rewrite decide_False].
    rewrite decide_True by done. assert (Hz : forall l, sum_of (fun _ => 0) l = 0) by (induction l; cbn; lia). rewrite Hz. lia.
  - intros a Ha. unfold held. destruct (a_cur chain_accounts a) as [z|] eqn:Hz.
    + apply chain_account in Hz as [-> ->]; [done|]. by apply (proj2_sig all_addresses).
    + rewrite decide_False; [done|]. intros ->. revert Hz. cbn [a_cur chain_accounts]. unfold db_view. by rewrite test_account, decide_True.
Qed.

Lemma chain_stands : stands test_keccak test_db test_root test_codes 0 chain_base chain_state chain_accounts.
Proof.
  split; [|done|].
  - split; [split; try done|..]; cbn.
    + intros a. by left.
    + intros a. unfold view. cbn. by rewrite lookup_empty.
    + done.
  - split; [done| | |pose proof chain_total; lia].
    + intros a z Hz. apply chain_account in Hz as [-> _]. split; cbn; try done; [by repeat constructor|apply chain_storage].
    + intros a Hun k. cbn [a_cur chain_accounts] in Hun. unfold chain_base, db_storage, db_view in *. destruct (db_account test_db test_root a) as [b|] eqn:Hb; [|done].
      rewrite test_account in Hb. case_decide; [|done]. injection Hb as <-. by destruct (Hun _ eq_refl) as [_ Hn].
Qed.

Definition no_jumps (_ : ActionParams) : gmap Z BitSet := ∅.
#[local] Abbreviation on_chain f := (f test_keccak sample_machine (fun _ => EmptyString) 1048576 no_jumps no_wasm).
Definition chain_ext : VmExt (Externalities (Basic MapDb) (gmap Z Z)) := on_chain ext_of (Z.to_nat 1024).
Definition chain_call (params : ActionParams) := on_chain executive_call chain_ext (Executive_new chain_info) params (mkWork chain_state Substate_new (Flexible [])).
Definition chain_create (params : ActionParams) := on_chain executive_create chain_ext (Executive_new chain_info) params (mkWork chain_state Substate_new None).
Definition chain_transact (t : SignedTransaction) := on_chain transact (Executive_new chain_info) t TransactOptions_new chain_state.

(** [PUSH1 7; PUSH1 1; SSTORE], run by account 1. *)
Definition store_params : ActionParams :=
  mkParams 1 (Some 2) 1 1 1 50000 1 (Transfer 0) (Some [0x60; 7; 0x60; 1; 0x55]) None CT_Call Separate.
Definition load_params : ActionParams :=
  mkParams 1 (Some 2) 1 1 1 50000 1 (Transfer 0) (Some [0x60; 1; 0x54]) None CT_StaticCall Separate.
(** A contract with the one-byte code [STOP], created by account 1. *)
Definition create_params : ActionParams :=
  mkParams 7 None 7 1 1 60000 1 (Transfer 5) (Some [0x60; 1; 0x60; 0; 0xf3]) None CT_None Embedded.
Definition chain_tx : SignedTransaction := mkSTx (mkUTx (mkTx 3 1 30000 (Call 2) 10 [0; 7]) 37 5 6 0) 1 None.
Definition chain_tx_create : SignedTransaction := mkSTx (mkUTx (mkTx 3 1 90000 Create 10 [0x60; 1; 0x60; 0; 0xf3]) 37 5 6 0) 1 None.

(** The pieces of a result that are easily compared. *)
Definition summary {W} (balances : W -> list Z) (r : outcome (ExecutionError * W) (Executed * W)) : option (option Error * Z * list Address * list Z) :=
  match r with Ok (e, w) => Some (e_exception e, e_gas_used e, e_contracts_created e, balances w) | _ => None end.
Definition balances_of (l : list Z) (s : State (Basic MapDb) (gmap Z Z)) : list Z :=
  map (fun a => match balance test_keccak s a with Ok (v, _) => v | _ => -1 end) l.

(** The transactions run: the balances of the sender, the target and the author
    after a transfer and after a creation (the contract's address is the length
    of the item that is hashed, with the hash function of the tests).  The
    receipt lists the contracts that contracts created, not the one a
    transaction creates. *)
Example chain_runs :
  summary (balances_of [1; 2; 9]) (chain_transact chain_tx) = Some (None, 21072, [], [978918; 10; 21072]) /\
  summary (balances_of [1; 23; 9]) (chain_transact chain_tx_create) = Some (None, 53485, [], [946505; 10; 53485]).
Proof. vm_compute. by split. Qed.

(** The sum of the gas used and the gas of a transaction is computed before it
    is compared with the block's limit: a transaction with more gas than that sum
    can hold is not refused, the addition panics. *)
Definition chain_tx_huge : SignedTransaction := mkSTx (mkUTx (mkTx 3 1 (2 ^ 256 - 1) (Call 2) 10 [0; 7]) 37 5 6 0) 1 None.
Example huge_gas_panics : chain_transact chain_tx_huge = Panic.
Proof. vm_compute. reflexivity. Qed.

(** The conditions of the theorems, at these arguments. *)
Lemma chain_level : at_level chain_info chain_sched (Z.to_nat 1024) (Executive_new chain_info).
Proof. by split_and!. Qed.
Lemma chain_room k : k < 2 ^ 255 -> nonce_room 0 k chain_accounts.
Proof. exists 3. split_and!; [done| |lia]. by intros a z [-> _]%chain_account. Qed.
Lemma chain_sender : a_cur chain_accounts 1 = Some (mkA 1000000 3 2 test_code (chain_base 1)).
Proof. cbn [a_cur chain_accounts]. unfold db_view. by rewrite test_account, decide_True. Qed.
Lemma chain_held : held (a_cur chain_accounts) 1 = 1000000.
Proof. unfold held. by rewrite chain_sender. Qed.

Ltac words := unfold params_ok, vec_ok, is_bytes; cbn; split_and!; try done; by repeat constructor.

Lemma chain_call_pre params :
  params_ok params -> gas params < 2 ^ 64 -> sender params = 1 -> address params = 1 -> action_value (value params) = 0 ->
  call_pre test_keccak test_db test_root test_codes chain_info chain_sched 0 chain_base (Z.to_nat 1024) (Executive_new chain_info) params
    (mkWork chain_state Substate_new (Flexible [])) chain_accounts.
Proof.
  intros Hp Hg Hs Ha Hv. split; try done.
  - apply chain_stands.
  - cbn [w_substate sstore_clears_count Substate_new]. split; lia.
  - apply chain_room. lia.
  - by constructor.
  - intros v Hval. rewrite Hval in Hv. cbn in Hv. rewrite Hs, Ha, chain_held, chain_sender. split_and!; [lia|done|by do 2 right].
  - intros c _. by rewrite Ha, chain_sender.
Qed.

Lemma chain_create_pre params :
  params_ok params -> gas params < 2 ^ 64 -> sender params = 1 -> action_value (value params) <= 1000000 -> is_Some (Vm.code params) ->
  create_pre test_keccak test_db test_root test_codes chain_info chain_sched 0 chain_base (Z.to_nat 1024) (Executive_new chain_info) params
    (mkWork chain_state Substate_new None) chain_accounts.
Proof.
  intros Hp Hg Hs Hv Hc. split; try done.
  - apply chain_stands.
  - cbn [w_substate sstore_clears_count Substate_new]. split; lia.
  - apply chain_room. lia.
  - intros _. rewrite Hs, chain_sender. by eexists.
  - intros v Hval. rewrite Hval in Hv. by rewrite Hs, chain_held.
Qed.

Lemma chain_transact_pre : transact_pre test_keccak test_db test_root test_codes 0 chain_base chain_state chain_accounts chain_tx.
Proof.
  split; try done; [apply chain_stands| |by apply chain_room]. split; [|done]. unfold tx_ok, is_bytes. cbn. split_and!; try done. by repeat constructor.
Qed.

Lemma chain_rules : tx_rules_ok chain_sched.
Proof. by split. Qed.

Lemma chain_private (b : Basic MapDb) (a : Z) :
  backend_ok (keccak := test_keccak) (D := test_db) (root := test_root) (codes := test_codes) b ->
  backend_private (keccak := test_keccak) (D := test_db) (root := test_root) (codes := test_codes) b a.
Proof. apply Basic_private. Qed.

Lemma externalities_lawful_witness :
  @ExtLaws (Externalities (Basic MapDb) (gmap Z Z)) chain_ext
    (spec_of test_keccak test_db test_root test_codes chain_info chain_sched 0 chain_base (Z.to_nat 1024)).
Proof.
  apply (externalities_lawful test_keccak test_db test_root test_codes test_complete eq_refl test_keccak_word sample_machine (fun _ => EmptyString) 1048576
    no_jumps no_wasm ltac:(done) chain_info chain_sched chain_sched_ok 0 chain_base (Z.to_nat 1024)).
Defined.

(** Gas left, whether the changes are kept, and slot 1 of account 1. *)
Definition call_summary {O} (r : outcome (Error * Work (Basic MapDb) (gmap Z Z) O) (FinalizationResult * Work (Basic MapDb) (gmap Z Z) O)) : option (Z * bool * Z) :=
  match r with
  | Ok (f, w) => Some (f_gas_left f, f_apply_state f, match storage_at test_keccak (w_state w) 1 1 with Ok (v, _) => v | _ => -1 end)
  | _ => None
  end.

Lemma call_outcome_witness :
  call_summary (chain_call store_params) = Some (44994, true, 7) /\
  match chain_call store_params with
  | Ok (f, w') => 0 <= f_gas_left f <= 50000 /\
      exists A', stands test_keccak test_db test_root test_codes 0 chain_base (w_state w') A' /\ total (a_cur A') <= total (a_cur chain_accounts)
  | Err (e, w') => reverting e = true
  | Panic => False
  end.
Proof.
  split; [vm_compute; reflexivity|].
  pose proof (call_outcome test_keccak test_db test_root test_codes test_complete eq_refl test_keccak_word sample_machine (fun _ => EmptyString) 1048576
    no_jumps no_wasm ltac:(done) chain_info chain_sched chain_sched_ok 0 chain_base (Z.to_nat 1024) (Executive_new chain_info) store_params
    (mkWork chain_state Substate_new (Flexible [])) chain_accounts ltac:(apply chain_call_pre; [words|done..])) as Hc.
  fold chain_ext in Hc. fold (chain_call store_params) in Hc. destruct (chain_call store_params) as [[f w']|[e w']|]; [|by destruct Hc|done].
  destruct Hc as (Hg & _ & _ & A' & Hs & Ht & _). split; [done|]. by exists A'.
Defined.

Lemma static_call_pure_witness :
  call_summary (chain_call load_params) = Some (49797, true, 5) /\
  match chain_call load_params with
  | Ok (_, w') | Err (_, w') => exists A', stands test_keccak test_db test_root test_codes 0 chain_base (w_state w') A' /\
      forall a, aeq (a_cur chain_accounts a) (a_cur A' a)
  | Panic => False
  end.
Proof.
  split; [vm_compute; reflexivity|].
  apply (static_call_pure test_keccak test_db test_root test_codes test_complete eq_refl test_keccak_word sample_machine (fun _ => EmptyString) 1048576
    no_jumps no_wasm ltac:(done) chain_info chain_sched chain_sched_ok 0 chain_base (Z.to_nat 1024) (Executive_new chain_info) load_params
    (mkWork chain_state Substate_new (Flexible [])) chain_accounts); [apply chain_call_pre; [words|done..]|done|done].
Defined.

Lemma create_outcome_witness :
  call_summary (chain_create create_params) = Some (59791, true, 5) /\
  match chain_create create_params with
  | Ok (f, w') => 0 <= f_gas_left f <= 60000 /\
      exists A', stands test_keccak test_db test_root test_codes 0 chain_base (w_state w') A' /\ total (a_cur A') <= total (a_cur chain_accounts)
  | Err (e, w') => reverting e = true
  | Panic => False
  end.
Proof.
  split; [vm_compute; reflexivity|].
  pose proof (create_outcome test_keccak test_db test_root test_codes test_complete eq_refl test_keccak_word sample_machine (fun _ => EmptyString) 1048576
    no_jumps no_wasm ltac:(done) chain_info chain_sched chain_sched_ok 0 chain_base (Z.to_nat 1024) (Executive_new chain_info) create_params
    (mkWork chain_state Substate_new None) chain_accounts ltac:(apply chain_create_pre; [words|done..])) as [_ Hc].
  fold chain_ext in Hc. fold (chain_create create_params) in Hc. destruct (chain_create create_params) as [[f w']|[e w']|]; [|by destruct Hc|done].
  destruct Hc as (Hg & _ & _ & A' & Hs & Ht & _). split; [done|]. by exists A'.
Defined.

(** The next nonce of account 1 is 3. *)
Definition chain_tx_late : SignedTransaction := mkSTx (mkUTx (mkTx 4 1 30000 (Call 2) 10 [0; 7]) 37 5 6 0) 1 None.

Lemma chain_stx_ok gas nonce : is_u256 gas -> is_u256 nonce -> stx_ok (mkSTx (mkUTx (mkTx nonce 1 gas (Call 2) 10 [0; 7]) 37 5 6 0) 1 None).
Proof. intros. split; [|done]. unfold tx_ok, is_bytes. cbn. split_and!; try done. by repeat constructor. Qed.

Lemma chain_limit : is_u256 (gas_limit chain_info).
Proof. done. Qed.
Lemma chain_stack : STACK_SIZE_PER_DEPTH <= 1048576.
Proof. done. Qed.

#[local] Abbreviation chain_verdict_of t := (verdict chain_info chain_sched 0 chain_accounts t (check_nonce TransactOptions_new)).
Lemma chain_verdict : chain_verdict_of chain_tx = inr (8928, 3, 30000).
Proof. vm_compute. reflexivity. Qed.
Lemma chain_verdict_late : chain_verdict_of chain_tx_late = inl (InvalidNonce 3 4).
Proof. vm_compute. reflexivity. Qed.
Lemma chain_verdict_huge : chain_verdict_of chain_tx_huge = inl (BlockGasLimitReached 8000000 100000 (2 ^ 256 - 1)).
Proof. vm_compute. reflexivity. Qed.

Lemma transact_refusals_witness :
  (exists r s', chain_transact chain_tx = Ok (r, s')) /\
  (exists s', chain_transact chain_tx_late = Err (InvalidNonce 3 4, s') /\
    stands test_keccak test_db test_root test_codes 0 chain_base s' chain_accounts) /\
  chain_transact chain_tx_huge = Panic.
Proof.
  pose proof (fun t => transact_refusals test_keccak test_db test_root test_codes test_complete eq_refl test_keccak_word sample_machine (fun _ => EmptyString)
    1048576 no_jumps no_wasm chain_stack chain_info chain_sched 0 chain_base chain_rules chain_state chain_accounts t TransactOptions_new
    (co_sched _ _ _ chain_sched_ok) chain_limit chain_stands) as Hr.
  split; [|split].
  - specialize (Hr chain_tx (chain_stx_ok 30000 3 ltac:(done) ltac:(done))). fold (chain_transact chain_tx) in Hr.
    rewrite chain_verdict in Hr. exact (Hr chain_sched_ok chain_private chain_transact_pre).
  - specialize (Hr chain_tx_late (chain_stx_ok 30000 4 ltac:(done) ltac:(done))). fold (chain_transact chain_tx_late) in Hr.
    rewrite chain_verdict_late in Hr. exact Hr.
  - specialize (Hr chain_tx_huge (chain_stx_ok (2 ^ 256 - 1) 3 ltac:(done) ltac:(done))). fold (chain_transact chain_tx_huge) in Hr.
    rewrite chain_verdict_huge in Hr. exact Hr.
Defined.

Lemma transact_settles_witness :
  exists r s', chain_transact chain_tx = Ok (r, s') /\ receipt_ok chain_info chain_sched chain_tx r.
Proof.
  pose proof (transact_settles test_keccak test_db test_root test_codes test_complete eq_refl test_keccak_word sample_machine (fun _ => EmptyString) 1048576
    no_jumps no_wasm ltac:(done) chain_info chain_sched chain_sched_ok 0 chain_base chain_rules chain_private
    chain_state chain_accounts chain_tx TransactOptions_new (8928, 3, 30000) chain_transact_pre chain_verdict) as Hs.
  fold (chain_transact chain_tx) in Hs. destruct Hs as (r & s' & Hr & Hok & _). exists r, s'. split; [exact Hr|exact Hok].
Defined.
