(* ===== verification/TxPool.v ===== *)
(** * The transaction pool ([transaction-pool/src])

    A pool of verified transactions, generic in the transaction type and in the
    scoring: one ordered set of transactions per sender, an index by hash, and
    two ordered sets with the best and the worst transaction of every sender.
    A shared transaction ([Arc<T>]) is the transaction itself.  The listener
    cannot influence the pool: it is modelled by the sequence of notifications
    it receives.  Hash maps are finite maps; where the source iterates over one,
    the model fixes an order of the keys. *)
From stdpp Require Import base list numbers gmap.
From S2P Require Import Prelude.

(** ** Transactions and scoring ([lib.rs], [scoring.rs], [ready.rs]) *)
Abbreviation Hash := Z (only parsing).
Abbreviation Sender := Z (only parsing).

Class VerifiedTransaction (T : Type) := {
  hash : T -> Hash;
  mem_usage : T -> Z;
  sender : T -> Sender;
  insertion_id : T -> Z;
}.

Inductive Choice : Type := RejectNew | ReplaceOld | InsertNew.

Inductive Change : Type :=
  | InsertedAt (i : Z) | RemovedAt (i : Z) | ReplacedAt (i : Z) | Culled (n : Z).

(** [Score] is ordered ([cmp::Ord]) and has a default. *)
Class Scoring (T Score : Type) := {
  score_cmp : Score -> Score -> comparison;
  score_default : Score;
  compare : T -> T -> comparison;
  choose : T -> T -> Choice;
  update_scores : list T -> list Score -> Change -> list Score;
  should_replace : T -> T -> bool;
}.

Inductive Readiness : Type := Stalled | IsReady | Future.

(** [Ready]: a stateful predicate, [is_ready(&mut self, tx)]. *)
Class Ready (R T : Type) := { is_ready : R -> T -> Readiness * R }.

(** ** Options, status, errors, notifications *)
Record Options := mkOptions { max_count : Z; max_per_sender : Z; max_mem_usage : Z }.
Definition Options_default : Options := mkOptions 1024 16 (8 * 1024 * 1024).

Record LightStatus := mkLightStatus { ls_mem_usage : Z; ls_transaction_count : Z; ls_senders : Z }.
Record Status := mkStatus { st_stalled : Z; st_pending : Z; st_future : Z }.

Inductive PoolError : Type :=
  | AlreadyImported (h : Hash)
  | TooCheapToEnter (h : Hash)
  | TooCheapToReplace (old_hash h : Hash).

Inductive Event (T : Type) : Type :=
  | Added (tx : T) (old : option T)
  | Rejected (tx : T)
  | Dropped (tx : T)
  | Invalidated (tx : T)
  | Cancelled (tx : T)
  | Mined (tx : T).
Arguments Added {T}. Arguments Rejected {T}. Arguments Dropped {T}.
Arguments Invalidated {T}. Arguments Cancelled {T}. Arguments Mined {T}.

(** ** Vectors *)
Definition vec_insert {E A} (l : list A) (i : Z) (x : A) : outcome E (list A) :=
  if (0 <=? i) && (i <=? len l) then Ok (take (Z.to_nat i) l ++ x :: drop (Z.to_nat i) l) else Panic.
Definition vec_remove {E A} (l : list A) (i : Z) : outcome E (list A) :=
  if (0 <=? i) && (i <? len l) then Ok (delete (Z.to_nat i) l) else Panic.
Definition vec_pop {A} (l : list A) : option (A * list A) :=
  match reverse l with [] => None | x :: r => Some (x, reverse r) end.

(** [slice::binary_search_by] on a sorted slice: the position of an element that
    compares equal, or the position where one would be inserted. *)
Fixpoint binary_search_by {A} (f : A -> comparison) (l : list A) (i : Z) : bool * Z :=
  match l with
  | [] => (false, i)
  | x :: l =>
      match f x with
      | Lt => binary_search_by f l (i + 1)
      | Eq => (true, i)
      | Gt => (false, i)
      end
  end.

Section pool.
Context {T Score : Type} `{VerifiedTransaction T} `{Scoring T Score}.

(** ** Scores with their transactions, and sets ordered by them ([BTreeSet]) *)
Record ScoreWithRef := mkScoreWithRef { score : Score; transaction : T }.

(** The better score first, then the larger insertion identifier. *)
Definition swr_cmp (self other : ScoreWithRef) : comparison :=
  match score_cmp (score other) (score self) with
  | Eq => (insertion_id (transaction other) ?= insertion_id (transaction self))
  | c => c
  end.

Fixpoint bset_insert (x : ScoreWithRef) (l : list ScoreWithRef) : list ScoreWithRef :=
  match l with
  | [] => [x]
  | y :: l' => match swr_cmp x y with Lt => x :: l | Eq => l | Gt => y :: bset_insert x l' end
  end.
Fixpoint bset_remove (x : ScoreWithRef) (l : list ScoreWithRef) : list ScoreWithRef :=
  match l with
  | [] => []
  | y :: l' => match swr_cmp x y with Lt => l | Eq => l' | Gt => y :: bset_remove x l' end
  end.

(** ** The transactions of one sender ([transactions.rs]) *)
Record Transactions := mkTransactions { txs : list T; scores : list Score }.
Definition Transactions_default : Transactions := mkTransactions [] [].

Inductive AddResult : Type :=
  | AddOk (tx : T)
  | AddTooCheapToEnter (tx : T)
  | AddTooCheap (old new : T)
  | AddReplaced (old new : T)
  | AddPushedOut (old new : T).

Definition set_is_empty (self : Transactions) : bool := len (txs self) =? 0.
Definition set_len (self : Transactions) : Z := len (txs self).

Definition worst_and_best {E} (self : Transactions) : outcome E (option (ScoreWithRef * ScoreWithRef)) :=
  let n := len (scores self) in
  match scores self with
  | [] => Ok None
  | best :: _ =>
      worst ← index (scores self) (n - 1);
      best_tx ← index (txs self) 0;
      worst_tx ← index (txs self) (n - 1);
      Ok (Some (mkScoreWithRef worst worst_tx, mkScoreWithRef best best_tx))
  end.

Definition search (self : Transactions) (tx : T) : bool * Z :=
  binary_search_by (fun old => compare old tx) (txs self) 0.

Definition find_next {E} (self : Transactions) (tx : T) : outcome E (option ScoreWithRef) :=
  match search self tx with
  | (true, i) =>
      let i := i + 1 in
      if i <? len (scores self) then
        s ← index (scores self) i; t ← index (txs self) i; Ok (Some (mkScoreWithRef s t))
      else Ok None
  | (false, _) => Ok None
  end.

Definition push_cheapest_transaction (self : Transactions) (tx : T) (max_count : Z) : AddResult * Transactions :=
  let index := len (txs self) in
  if index =? max_count then (AddTooCheapToEnter tx, self)
  else
    let t := txs self ++ [tx] in
    let s := scores self ++ [score_default] in
    (AddOk tx, mkTransactions t (update_scores t s (InsertedAt index))).

Definition add {E} (self : Transactions) (tx : T) (max_count : Z) : outcome E (AddResult * Transactions) :=
  let i := snd (search self tx) in
  if i =? len (txs self) then Ok (push_cheapest_transaction self tx max_count)
  else
    at_i ← index (txs self) i;
    match choose at_i tx with
    | RejectNew => Ok (AddTooCheap at_i tx, self)
    | InsertNew =>
        t ← vec_insert (txs self) i tx;
        s ← vec_insert (scores self) i score_default;
        let s := update_scores t s (InsertedAt i) in
        if max_count <? len t then
          match vec_pop t with
          | Some (old, t) =>
              let s := match vec_pop s with Some (_, s) => s | None => s end in
              Ok (AddPushedOut old tx, mkTransactions t (update_scores t s (RemovedAt (len t))))
          | None => Panic
          end
        else Ok (AddOk tx, mkTransactions t s)
    | ReplaceOld =>
        t ← index_set (txs self) i tx;
        Ok (AddReplaced at_i tx, mkTransactions t (update_scores t (scores self) (ReplacedAt i)))
    end.

Definition set_remove {E} (self : Transactions) (tx : T) : outcome E (bool * Transactions) :=
  match search self tx with
  | (true, i) =>
      t ← vec_remove (txs self) i;
      s ← vec_remove (scores self) i;
      Ok (true, mkTransactions t (update_scores t s (RemovedAt i)))
  | (false, _) => Ok (false, self)
  end.

(** The number of stalled transactions at the front. *)
Fixpoint count_stalled {R} `{Ready R T} (l : list T) (ready : R) (n : Z) : Z * R :=
  match l with
  | [] => (n, ready)
  | tx :: l =>
      match is_ready ready tx with
      | (Stalled, ready) => count_stalled l ready (n + 1)
      | (_, ready) => (n, ready)
      end
  end.

(** [for _ in 0..first_non_stalled { scores.pop(); result.push(transactions.pop()) }] *)
Fixpoint cull_loop {E} (n : nat) (t : list T) (s : list Score) (result : list T) :
    outcome E (list T * list Score * list T) :=
  match n with
  | O => Ok (t, s, result)
  | S n =>
      let s := match vec_pop s with Some (_, s) => s | None => s end in
      match vec_pop t with
      | Some (x, t) => cull_loop n t s (result ++ [x])
      | None => Panic
      end
  end.

Definition set_cull {E R} `{Ready R T} (self : Transactions) (ready : R) :
    outcome E (list T * R * Transactions) :=
  if set_is_empty self then Ok ([], ready, self)
  else
    let '(first_non_stalled, ready) := count_stalled (txs self) ready 0 in
    '(t, s, result) ← cull_loop (Z.to_nat first_non_stalled) (reverse (txs self)) (reverse (scores self)) [];
    let t := reverse t in
    let s := reverse s in
    Ok (reverse result, ready, mkTransactions t (update_scores t s (Culled (len result)))).

(** ** The pool ([pool.rs]) *)
Record Pool := mkPool {
  listener : list (Event T);
  options : Options;
  pool_mem_usage : Z;
  transactions : gmap Z Transactions;
  by_hash : gmap Z T;
  best_transactions : list ScoreWithRef;
  worst_transactions : list ScoreWithRef;
}.

(** A method of the pool: an error carries the pool as it is left. *)
Abbreviation presult A := (outcome (PoolError * Pool) (A * Pool)).

Definition Pool_new (options : Options) : Pool := mkPool [] options 0 ∅ ∅ [] [].

(** Field updates. *)
Definition notify (e : Event T) (p : Pool) : Pool :=
  mkPool (listener p ++ [e]) (options p) (pool_mem_usage p) (transactions p) (by_hash p)
    (best_transactions p) (worst_transactions p).
Definition with_transactions (m : gmap Z Transactions) (p : Pool) : Pool :=
  mkPool (listener p) (options p) (pool_mem_usage p) m (by_hash p) (best_transactions p) (worst_transactions p).
Definition with_index (u : Z) (m : gmap Z T) (p : Pool) : Pool :=
  mkPool (listener p) (options p) u (transactions p) m (best_transactions p) (worst_transactions p).
Definition with_ends (best worst : list ScoreWithRef) (p : Pool) : Pool :=
  mkPool (listener p) (options p) (pool_mem_usage p) (transactions p) (by_hash p) best worst.

Definition finalize_remove {E} (p : Pool) (h : Hash) : outcome E (option T * Pool) :=
  match by_hash p !! h with
  | Some old =>
      u ← sub_chk (pool_mem_usage p) (mem_usage old);
      Ok (Some old, with_index u (delete h (by_hash p)) p)
  | None => Ok (None, p)
  end.

Definition finalize_insert {E} (p : Pool) (new : T) (old : option T) : outcome E Pool :=
  u ← add_chk 64 (pool_mem_usage p) (mem_usage new);
  let p := with_index u (<[hash new := new]> (by_hash p)) p in
  match old with
  | Some old => '(_, p) ← finalize_remove p (hash old); Ok p
  | None => Ok p
  end.

Definition is_same (a b : ScoreWithRef) : bool :=
  match score_cmp (score a) (score b) with Eq => true | _ => false end && (hash (transaction a) =? hash (transaction b)).

Definition update_senders_worst_and_best (previous current : option (ScoreWithRef * ScoreWithRef)) (p : Pool) : Pool :=
  match previous, current with
  | None, Some (worst, best) =>
      with_ends (bset_insert best (best_transactions p)) (bset_insert worst (worst_transactions p)) p
  | Some (worst, best), None =>
      with_ends (bset_remove best (best_transactions p)) (bset_remove worst (worst_transactions p))
        (with_transactions (delete (sender (transaction worst)) (transactions p)) p)
  | Some (w1, b1), Some (w2, b2) =>
      let worst :=
        if negb (is_same w1 w2) then bset_insert w2 (bset_remove w1 (worst_transactions p)) else worst_transactions p in
      let best :=
        if negb (is_same b1 b2) then bset_insert b2 (bset_remove b1 (best_transactions p)) else best_transactions p in
      with_ends best worst p
  | None, None => p
  end.

Definition remove_from_set {E R} (p : Pool) (s : Sender) (f : Transactions -> outcome E (R * Transactions)) :
    outcome E (option R * Pool) :=
  match transactions p !! s with
  | Some set =>
      prev ← worst_and_best set;
      '(result, set) ← f set;
      next ← worst_and_best set;
      Ok (Some result, update_senders_worst_and_best prev next (with_transactions (<[s := set]> (transactions p)) p))
  | None => Ok (None, p)
  end.

Definition remove_worst (p : Pool) (tx : T) : presult T :=
  match last (worst_transactions p) with
  | None => Err (TooCheapToEnter (hash tx), p)
  | Some old =>
      if should_replace (transaction old) tx then
        '(_, p) ← remove_from_set p (sender (transaction old)) (fun set => set_remove set (transaction old));
        Ok (transaction old, p)
      else Err (TooCheapToEnter (hash tx), p)
  end.

(** The closure [remove_worst] of [import]. *)
Definition import_remove_worst (p : Pool) (tx : T) : presult unit :=
  match remove_worst p tx with
  | Err (e, p) => Err (e, notify (Rejected tx) p)
  | Ok (removed, p) =>
      '(_, p) ← finalize_remove (notify (Dropped removed) p) (hash removed);
      Ok (tt, p)
  | Panic => Panic
  end.

(** [while full(self) { transaction = remove_worst(self, transaction)? }]; every
    round removes a transaction. *)
Fixpoint make_room (fuel : nat) (full : Pool -> presult bool) (p : Pool) (tx : T) : presult unit :=
  match fuel with
  | O => Panic
  | S fuel =>
      '(b, p) ← full p;
      if (b : bool) then '(_, p) ← import_remove_worst p tx; make_room fuel full p tx
      else Ok (tt, p)
  end.

Definition too_many (p : Pool) : presult bool :=
  n ← add_chk 64 (Z.of_nat (size (by_hash p))) 1;
  Ok (max_count (options p) <? n, p).
Definition too_large (mem : Z) (p : Pool) : presult bool :=
  u ← add_chk 64 (pool_mem_usage p) mem;
  Ok (max_mem_usage (options p) <? u, p).

Definition import (p : Pool) (tx : T) : presult T :=
  let mem := mem_usage tx in
  if bool_decide (is_Some (by_hash p !! hash tx)) then Err (AlreadyImported (hash tx), p)
  else
    let fuel := S (size (by_hash p)) in
    '(_, p) ← make_room fuel too_many p tx;
    '(_, p) ← make_room fuel (too_large mem) p tx;
    let set := default Transactions_default (transactions p !! sender tx) in
    prev ← worst_and_best set;
    '(result, set) ← add set tx (max_per_sender (options p));
    current ← worst_and_best set;
    let p := update_senders_worst_and_best prev current (with_transactions (<[sender tx := set]> (transactions p)) p) in
    match result with
    | AddOk tx =>
        p ← finalize_insert (notify (Added tx None) p) tx None; Ok (tx, p)
    | AddPushedOut old new | AddReplaced old new =>
        p ← finalize_insert (notify (Added new (Some old)) p) new (Some old); Ok (new, p)
    | AddTooCheap old new => Err (TooCheapToReplace (hash old) (hash new), notify (Rejected new) p)
    | AddTooCheapToEnter new => Err (TooCheapToEnter (hash new), notify (Rejected new) p)
    end.

Definition pool_clear (p : Pool) : Pool :=
  mkPool (listener p ++ ((fun kv => Dropped kv.2) <$> map_to_list (by_hash p))) (options p) 0 ∅ ∅ [] [].

Definition remove {E} (p : Pool) (h : Hash) (is_invalid : bool) : outcome E (bool * Pool) :=
  '(found, p) ← finalize_remove p h;
  match found with
  | Some tx =>
      '(_, p) ← remove_from_set p (sender tx) (fun set => set_remove set tx);
      Ok (true, notify (if is_invalid then Invalidated tx else Cancelled tx) p)
  | None => Ok (false, p)
  end.

(** [for tx in removed { self.finalize_remove(tx.hash()); self.listener.mined(&tx) }] *)
Fixpoint finalize_mined {E} (removed : list T) (p : Pool) : outcome E Pool :=
  match removed with
  | [] => Ok p
  | tx :: removed => '(_, p) ← finalize_remove p (hash tx); finalize_mined removed (notify (Mined tx) p)
  end.

Section ready.
Context {R : Type} `{Ready R T}.

Definition remove_stalled {E} (p : Pool) (s : Sender) (ready : R) : outcome E (Z * R * Pool) :=
  '(removed, p) ← remove_from_set p s
    (fun set => '(removed, ready, set) ← set_cull set ready; Ok ((removed, ready), set));
  match removed with
  | Some (removed, ready) => p ← finalize_mined removed p; Ok (len removed, ready, p)
  | None => Ok (0, ready, p)
  end.

Fixpoint cull_senders {E} (senders : list Sender) (ready : R) (removed : Z) (p : Pool) : outcome E (Z * Pool) :=
  match senders with
  | [] => Ok (removed, p)
  | s :: senders =>
      '(n, ready, p) ← remove_stalled p s ready;
      removed ← add_chk 64 removed n;
      cull_senders senders ready removed p
  end.

Definition cull {E} (p : Pool) (senders : option (list Sender)) (ready : R) : outcome E (Z * Pool) :=
  match senders with
  | Some senders => cull_senders senders ready 0 p
  | None => cull_senders (map_to_list (transactions p)).*1 ready 0 p
  end.

(** The loop of [status] over the transactions of one sender. *)
Fixpoint set_status (l : list T) (idx n : Z) (ready : R) (st : Status) : Status * R :=
  match l with
  | [] => (st, ready)
  | tx :: l =>
      match is_ready ready tx with
      | (Stalled, ready) => set_status l (idx + 1) n ready (mkStatus (st_stalled st + 1) (st_pending st) (st_future st))
      | (IsReady, ready) => set_status l (idx + 1) n ready (mkStatus (st_stalled st) (st_pending st + 1) (st_future st))
      | (Future, ready) => (mkStatus (st_stalled st) (st_pending st) (st_future st + (n - idx)), ready)
      end
  end.

Definition status (p : Pool) (ready : R) : Status :=
  fst (fold_left (fun '(st, ready) '(_, set) => set_status (txs set) 0 (set_len set) ready st)
         (map_to_list (transactions p)) (mkStatus 0 0 0, ready)).

(** [PendingIterator]: the readiness and the set of candidates. *)
Record PendingIterator := mkPending { pi_ready : R; pi_best : list ScoreWithRef }.

Definition pending (p : Pool) (ready : R) : PendingIterator := mkPending ready (best_transactions p).

(** [next]: the candidates that are not ready are dropped on the way. *)
Fixpoint pending_next {E} (p : Pool) (ready : R) (best : list ScoreWithRef) : outcome E (option T * PendingIterator) :=
  match best with
  | [] => Ok (None, mkPending ready [])
  | b :: best =>
      match is_ready ready (transaction b) with
      | (IsReady, ready) =>
          next ← match transactions p !! sender (transaction b) with
                 | Some set => find_next set (transaction b)
                 | None => Ok None
                 end;
          Ok (Some (transaction b), mkPending ready (match next with Some x => bset_insert x best | None => best end))
      | (_, ready) => pending_next p ready best
      end
  end.

(** The transactions the iterator yields until it is exhausted. *)
Fixpoint pending_all {E} (fuel : nat) (p : Pool) (it : PendingIterator) : outcome E (list T) :=
  match fuel with
  | O => Panic
  | S fuel =>
      '(x, it) ← pending_next p (pi_ready it) (pi_best it);
      match x with
      | Some tx => l ← pending_all fuel p it; Ok (tx :: l)
      | None => Ok []
      end
  end.
End ready.

Definition light_status (p : Pool) : LightStatus :=
  mkLightStatus (pool_mem_usage p) (Z.of_nat (size (by_hash p))) (Z.of_nat (size (transactions p))).
End pool.

Arguments ScoreWithRef : clear implicits.
Arguments Transactions : clear implicits.
Arguments AddResult : clear implicits.
Arguments Pool : clear implicits.
