(* ===== verification/TxPoolSets.v ===== *)
(** * Ordered sets of the transaction pool

    What the pool relies on a scoring for, and the effect of each operation on
    the transactions of one sender and on the sets of best and worst
    transactions. *)
From stdpp Require Import base list numbers gmap sorting.
From S2P Require Import Prelude TxPool.

(** Scores are totally ordered ([cmp::Ord]); [compare] is a total preorder whose
    classes are the slots of a sender; of two transactions for one slot [choose]
    keeps one; [update_scores] works in place.  Nothing is asked of [choose] for
    different slots, for which it is documented not to be called: a scoring whose
    [choose] compares gas prices alone, as the documentation describes, is
    lawful. *)
Class ScoringLaws (T Score : Type) `{Scoring T Score} := {
  score_cmp_eq a b : score_cmp a b = Eq <-> a = b;
  score_cmp_opp a b : score_cmp b a = CompOpp (score_cmp a b);
  score_cmp_trans a b c : score_cmp a b = Lt -> score_cmp b c = Lt -> score_cmp a c = Lt;
  compare_opp a b : compare b a = CompOpp (compare a b);
  compare_trans a b c : compare a b = Lt -> compare b c = Lt -> compare a c = Lt;
  compare_eq a b c : compare a b = Eq -> compare a c = compare b c;
  choose_slot old new : compare old new = Eq -> choose old new <> InsertNew;
  update_scores_length t s c : length (update_scores t s c) = length s;
}.

(** ** Vectors *)
Section vectors.
Context {E A : Type}.
Implicit Types l : list A.

Lemma vec_pop_snoc l x : vec_pop (l ++ [x]) = Some (x, l).
Proof. unfold vec_pop. by rewrite reverse_snoc, reverse_involutive. Qed.

Lemma vec_insert_app (l1 l2 : list A) x : vec_insert (E := E) (l1 ++ l2) (len l1) x = Ok (l1 ++ x :: l2).
Proof.
  unfold vec_insert. rewrite len_app. pose proof (len_nonneg l1). pose proof (len_nonneg l2).
  rewrite !(proj2 (Z.leb_le _ _)) by lia. unfold len. by rewrite Nat2Z.id, take_app_length, drop_app_length.
Qed.

Lemma vec_remove_app (l1 l2 : list A) x : vec_remove (E := E) (l1 ++ x :: l2) (len l1) = Ok (l1 ++ l2).
Proof.
  unfold vec_remove. rewrite len_app, len_cons. pose proof (len_nonneg l1). pose proof (len_nonneg l2).
  rewrite (proj2 (Z.leb_le _ _)), (proj2 (Z.ltb_lt _ _)) by lia. unfold len. by rewrite Nat2Z.id, delete_middle.
Qed.

Lemma binary_search_spec (f : A -> comparison) l i :
  exists pre suf, l = pre ++ suf /\ snd (binary_search_by f l i) = i + len pre /\ Forall (fun x => f x = Lt) pre /\
    match suf with
    | [] => fst (binary_search_by f l i) = false
    | x :: _ => f x = if fst (binary_search_by f l i) then Eq else Gt
    end.
Proof.
  revert i. induction l as [|x l IH]; intros i; cbn [binary_search_by].
  { exists [], []. by rewrite len_nil, Z.add_0_r. }
  destruct (f x) eqn:Hx; [exists [], (x :: l); by rewrite len_nil, Z.add_0_r| |exists [], (x :: l); by rewrite len_nil, Z.add_0_r].
  destruct (IH (i + 1)) as (pre & suf & -> & Hi & Hpre & Hsuf). exists (x :: pre), suf.
  split; [done|]. split; [rewrite Hi, len_cons; lia|]. split; [by constructor|done].
Qed.

Lemma index_app (l1 l2 : list A) x : index (E := E) (l1 ++ x :: l2) (len l1) = Ok x.
Proof.
  apply index_ok; [apply len_nonneg|]. unfold len. rewrite Nat2Z.id, lookup_app_r, Nat.sub_diag by lia. done.
Qed.
End vectors.

(** A list of the same length splits at the same place. *)
Lemma split_like {A B} (l : list A) (l1 l2 : list B) :
  length l = length (l1 ++ l2) -> exists k1 k2, l = k1 ++ k2 /\ length k1 = length l1 /\ length k2 = length l2.
Proof.
  intros Hl. rewrite length_app in Hl. exists (take (length l1) l), (drop (length l1) l).
  by rewrite take_drop, length_take, length_drop, Hl, Nat.add_comm, Nat.add_sub, Nat.min_l by lia.
Qed.

Lemma len_eq {A B} (l : list A) (k : list B) : length l = length k -> len l = len k.
Proof. unfold len. lia. Qed.

Section sets.
Context {T Score : Type} `{VerifiedTransaction T} `{ScoringLaws T Score}.
Implicit Types (set : Transactions T Score) (t tx : T).

(** ** The order of a sender's transactions *)
Definition before (a b : T) : Prop := compare a b = Lt.
Abbreviation ordered := (StronglySorted before).

Lemma compare_self a : compare a a = Eq.
Proof. pose proof (compare_opp a a) as Hs. by destruct (compare a a). Qed.

Lemma ordered_app l1 l2 :
  ordered (l1 ++ l2) <-> ordered l1 /\ ordered l2 /\ forall a b, a ∈ l1 -> b ∈ l2 -> before a b.
Proof.
  induction l1 as [|x l1 IH]; cbn [app].
  { split; [|tauto]. intros Hl. split; [constructor|]. split; [done|]. intros a b Ha. by apply not_elem_of_nil in Ha. }
  rewrite !StronglySorted_cons, IH, Forall_app, !Forall_forall. split.
  - intros [[Hx1 Hx2] (Hs1 & Hs2 & Hs3)]. split_and!; try done. intros a b [->|Ha]%elem_of_cons Hb; auto.
  - intros ((Hs2 & Hs1) & Hs3 & Hs4). split_and!; try done; intros; apply Hs4; set_solver.
Qed.

(** Two transactions of one slot are the same transaction. *)
Lemma ordered_slot l a b : ordered l -> a ∈ l -> b ∈ l -> compare a b = Eq -> a = b.
Proof.
  intros Hl. induction Hl as [|x l Hl IH Hx]; [by intros ?%not_elem_of_nil|].
  rewrite Forall_forall in Hx. intros [->|Ha]%elem_of_cons [->|Hb]%elem_of_cons Heq; [done| | |by apply IH].
  - pose proof (Hx b Hb) as Hlt. unfold before in Hlt. congruence.
  - pose proof (Hx a Ha) as Hlt. unfold before in Hlt. rewrite compare_opp, Hlt in Heq. done.
Qed.

Lemma ordered_NoDup l : ordered l -> NoDup l.
Proof.
  induction 1 as [|x l Hl IH Hx]; [constructor|]. constructor; [|done]. intros Hin. rewrite Forall_forall in Hx.
  specialize (Hx x Hin). unfold before in Hx. by rewrite compare_self in Hx.
Qed.

(** A set: one score per transaction, in order, within the limit. *)
Record set_ok (max : Z) set : Prop := {
  so_scores : length (scores set) = length (txs set);
  so_ordered : ordered (txs set);
  so_max : len (txs set) <= max;
}.

Lemma set_ok_update max (t : list T) (s : list Score) c :
  length s = length t -> ordered t -> len t <= max -> set_ok max (mkTransactions t (update_scores t s c)).
Proof. intros. split; [|done..]. cbn [scores txs]. by rewrite update_scores_length. Qed.

(** The neighbourhood of a transaction in an ordered set. *)
Lemma search_spec max set tx :
  set_ok max set ->
  exists pre suf, txs set = pre ++ suf /\ snd (search set tx) = len pre /\
    (forall a, a ∈ pre -> before a tx) /\
    if fst (search set tx) then exists x suf', suf = x :: suf' /\ compare x tx = Eq /\ forall a, a ∈ suf' -> before tx a
    else forall a, a ∈ suf -> before tx a.
Proof.
  intros [_ Hord _]. unfold search.
  destruct (binary_search_spec (fun old => compare old tx) (txs set) 0) as (pre & suf & Heq & Hi & Hpre & Hsuf).
  exists pre, suf. split; [done|]. split; [lia|]. split; [by rewrite Forall_forall in Hpre|].
  rewrite Heq, ordered_app in Hord. destruct Hord as (_ & Hord & _).
  destruct suf as [|x suf].
  - rewrite Hsuf. by intros a ?%not_elem_of_nil.
  - apply StronglySorted_cons in Hord as [Hx _]. rewrite Forall_forall in Hx.
    destruct (fst _).
    + exists x, suf. split; [done|]. split; [done|]. intros a Ha. specialize (Hx a Ha). unfold before in *.
      by rewrite <-(compare_eq x tx a Hsuf).
    + assert (before tx x) as Htx by (unfold before; by rewrite compare_opp, Hsuf).
      intros a [->|Ha]%elem_of_cons; [done|]. exact (compare_trans _ _ _ Htx (Hx a Ha)).
Qed.

Lemma ordered_insert pre suf tx :
  ordered (pre ++ suf) -> (forall a, a ∈ pre -> before a tx) -> (forall a, a ∈ suf -> before tx a) ->
  ordered (pre ++ tx :: suf).
Proof.
  rewrite !ordered_app, StronglySorted_cons, Forall_forall. intros (Hs1 & Hs2 & Hs3) Hpre Hsuf. split_and!; try done.
  intros a b Ha [->|Hb]%elem_of_cons; auto.
Qed.

Lemma ordered_delete pre suf x : ordered (pre ++ x :: suf) -> ordered (pre ++ suf).
Proof.
  rewrite !ordered_app, StronglySorted_cons. intros (Hs1 & [_ Hs2] & Hs3). split_and!; try done.
  intros a b Ha Hb. apply Hs3; set_solver.
Qed.

(** ** Adding a transaction *)
Definition added_to set tx max (r : AddResult T) set' : Prop :=
  match r with
  | AddOk t => t = tx /\ txs set' ≡ₚ tx :: txs set
  | AddPushedOut old new | AddReplaced old new =>
      new = tx /\ tx ∈ txs set' /\ old :: txs set' ≡ₚ tx :: txs set
  | AddTooCheap old new => new = tx /\ old ∈ txs set /\ choose old tx = RejectNew /\ set' = set
  | AddTooCheapToEnter t => t = tx /\ len (txs set) = max /\ set' = set
  end.

Lemma push_cheapest_ok max set tx :
  set_ok max set -> (forall a, a ∈ txs set -> before a tx) ->
  let r := push_cheapest_transaction set tx max in added_to set tx max (fst r) (snd r) /\ set_ok max (snd r).
Proof.
  intros Hok Hall. unfold push_cheapest_transaction. destruct Hok as [Hs Ho Hm].
  destruct (Z.eqb_spec (len (txs set)) max) as [|Hne]; [done|]. cbn [fst snd]. split.
  - split; [done|]. cbn [txs]. by rewrite Permutation_app_comm.
  - apply set_ok_update.
    + by rewrite !length_app, Hs.
    + apply (ordered_insert (txs set) []); [by rewrite app_nil_r|done|by intros a ?%not_elem_of_nil].
    + rewrite len_app. change (len [tx]) with 1. lia.
Qed.

Lemma add_replace max set tx pre x suf :
  set_ok max set -> txs set = pre ++ x :: suf -> (forall a, a ∈ pre -> before a tx) ->
  (forall a, a ∈ suf -> before tx a) ->
  let set' := mkTransactions (pre ++ tx :: suf) (update_scores (pre ++ tx :: suf) (scores set) (ReplacedAt (len pre))) in
  added_to set tx max (AddReplaced x tx) set' /\ set_ok max set'.
Proof.
  intros [Hs Ho Hm] Heq Hpre Hsuf. cbn zeta. split.
  - split; [done|]. cbn [txs]. split; [set_solver|]. rewrite Heq, <-!Permutation_middle. apply Permutation_swap.
  - rewrite Heq in *. apply set_ok_update.
    + rewrite Hs, !length_app. done.
    + apply ordered_insert; [by eapply ordered_delete|done|done].
    + rewrite len_app, len_cons in *. done.
Qed.

(** An insertion beyond the limit pushes the last transaction out. *)
Lemma add_insert {E} max set tx pre suf :
  set_ok max set -> txs set = pre ++ suf -> suf <> [] -> (forall a, a ∈ pre -> before a tx) ->
  (forall a, a ∈ suf -> before tx a) ->
  exists r set',
    (t ← vec_insert (txs set) (len pre) tx;
     s ← vec_insert (scores set) (len pre) score_default;
     let s := update_scores t s (InsertedAt (len pre)) in
     if max <? len t then
       match vec_pop t with
       | Some (old, t) =>
           let s := match vec_pop s with Some (_, s) => s | None => s end in
           Ok (AddPushedOut old tx, mkTransactions t (update_scores t s (RemovedAt (len t))))
       | None => Panic
       end
     else Ok (E := E) (AddOk tx, mkTransactions t s)) = Ok (r, set') /\ added_to set tx max r set' /\ set_ok max set'.
Proof.
  intros [Hs Ho Hm] Heq Hne Hpre Hsuf. rewrite Heq in *.
  destruct (split_like (scores set) pre suf Hs) as (s1 & s2 & Hsc & Hl1 & Hl2). rewrite Hsc.
  rewrite vec_insert_app. cbn [mbind outcome_bind].
  pose proof (vec_insert_app (E := E) s1 s2 score_default) as Hins. rewrite (len_eq s1 pre Hl1) in Hins. rewrite Hins.
  cbn [mbind outcome_bind]. cbv zeta. set (t := pre ++ tx :: suf).
  set (s := update_scores t (s1 ++ score_default :: s2) (InsertedAt (len pre))).
  assert (Hls : length s = length t) by (unfold s, t; rewrite update_scores_length, !length_app; cbn [length]; lia).
  assert (Hot : ordered t) by (by apply ordered_insert).
  destruct (Z.ltb_spec max (len t)) as [Hbig|Hfit].
  - destruct suf as [|y suf _] using rev_ind; [done|].
    assert (Ht : t = (pre ++ tx :: suf) ++ [y]) by (unfold t; by rewrite <-app_assoc).
    rewrite Ht. rewrite vec_pop_snoc. destruct s as [|z s' _] eqn:Hsl using rev_ind.
    { rewrite Ht, !length_app in Hls. simpl in Hls. lia. }
    rewrite vec_pop_snoc. eexists _, _. split; [reflexivity|]. rewrite Ht in Hls, Hot, Hbig. split.
    + split; [done|]. cbn [txs]. split; [set_solver|]. rewrite Heq. solve_Permutation.
    + apply set_ok_update.
      * rewrite !length_app in *. cbn [length] in *. lia.
      * by apply ordered_app in Hot as [? _].
      * rewrite !len_app, ?len_cons in *. change (len [y]) with 1 in *. rewrite ?len_cons in *. change (len (@nil T)) with 0 in *. lia.
  - eexists _, _. split; [reflexivity|]. split.
    + split; [done|]. cbn [txs]. rewrite Heq. unfold t. by rewrite <-Permutation_middle.
    + split; done.
Qed.

Lemma add_ok {E} max set tx :
  set_ok max set ->
  exists r set', add (E := E) set tx max = Ok (r, set') /\ added_to set tx max r set' /\ set_ok max set'.
Proof.
  intros Hok. unfold add. destruct (search_spec max set tx Hok) as (pre & suf & Heq & Hi & Hpre & Hcase). rewrite Hi.
  destruct suf as [|x suf].
  - rewrite app_nil_r in Heq. rewrite Heq, Z.eqb_refl. destruct (push_cheapest_transaction set tx max) as [r set'] eqn:Hp.
    pose proof (push_cheapest_ok max set tx Hok) as Hpush. rewrite Hp in Hpush. exists r, set'. split; [done|].
    apply Hpush. by rewrite Heq.
  - rewrite Heq, len_app, len_cons. rewrite (proj2 (Z.eqb_neq _ _)) by (pose proof (len_nonneg suf); lia).
    rewrite index_app. cbn [mbind outcome_bind].
    assert (Hslot : compare x tx = Eq \/ forall a, a ∈ x :: suf -> before tx a).
    { destruct (fst (search set tx)); [left|by right]. by destruct Hcase as (x' & suf' & [= -> ->] & ? & _). }
    assert (Hafter : forall a, a ∈ suf -> before tx a).
    { destruct (fst (search set tx)); [by destruct Hcase as (x' & suf' & [= -> ->] & _ & ?)|]. set_solver. }
    destruct (choose x tx) eqn:Hch.
    + exists (AddTooCheap x tx), set. split; [done|]. split; [|done]. cbn [added_to]. rewrite Heq. split_and!; [done|set_solver|done|done].
    + rewrite index_set_ok by (rewrite len_app, len_cons; pose proof (len_nonneg pre); pose proof (len_nonneg suf); lia).
      cbn [mbind outcome_bind]. unfold len at 1 2. rewrite Nat2Z.id, insert_app_r_alt, Nat.sub_diag by lia. cbn [insert list_insert].
      eexists _, _. split; [reflexivity|]. by apply (add_replace max set tx pre x suf).
    + destruct Hslot as [Hx|Hall]; [by destruct (choose_slot x tx Hx)|]. rewrite <-Heq.
      by apply (add_insert max set tx pre (x :: suf)).
Qed.

(** ** Removing a transaction *)
Lemma set_remove_ok {E} max set tx :
  set_ok max set -> tx ∈ txs set ->
  exists set', set_remove (E := E) set tx = Ok (true, set') /\ txs set ≡ₚ tx :: txs set' /\ set_ok max set'.
Proof.
  intros Hok Hin. unfold set_remove. destruct (search_spec max set tx Hok) as (pre & suf & Heq & Hi & Hpre & Hcase).
  destruct Hok as [Hs Ho Hm]. destruct (search set tx) as [found i]. cbn [fst snd] in *. subst i. destruct found.
  - destruct Hcase as (x & suf' & -> & Hx & _).
    assert (x = tx) as -> by (apply (ordered_slot (txs set)); [done|rewrite Heq; set_solver|done|done]).
    rewrite Heq in *. destruct (split_like (scores set) pre (tx :: suf') Hs) as (s1 & s2 & Hsc & Hl1 & Hl2).
    destruct s2 as [|z s2]; [done|]. rewrite Hsc, vec_remove_app. cbn [mbind outcome_bind].
    pose proof (vec_remove_app (E := E) s1 s2 z) as Hrm. rewrite (len_eq s1 pre Hl1) in Hrm. rewrite Hrm.
    cbn [mbind outcome_bind]. eexists. split; [reflexivity|]. cbn [txs]. split; [by rewrite Permutation_middle|].
    apply set_ok_update.
    + rewrite !length_app. cbn [length] in Hl2. lia.
    + by eapply ordered_delete.
    + rewrite len_app, ?len_cons in *. lia.
  - rewrite Heq in Hin. apply elem_of_app in Hin as [Hin|Hin].
    + specialize (Hpre tx Hin). unfold before in Hpre. by rewrite compare_self in Hpre.
    + specialize (Hcase tx Hin). unfold before in Hcase. by rewrite compare_self in Hcase.
Qed.

(** ** Culling *)
Lemma count_stalled_ok {R} `{Ready R T} l (r : R) n :
  exists k, (k <= length l)%nat /\ fst (count_stalled l r n) = n + Z.of_nat k.
Proof.
  revert r n. induction l as [|x l IH]; intros r n; cbn [count_stalled]; [exists 0%nat; simpl; lia|].
  destruct (is_ready r x) as [[] r']; [|exists 0%nat; simpl; lia..].
  destruct (IH r' (n + 1)) as (k & ? & ->). exists (S k). simpl. lia.
Qed.

Lemma cull_loop_ok {E} n (t : list T) (s : list Score) res :
  (n <= length t)%nat -> length s = length t ->
  cull_loop (E := E) n (reverse t) (reverse s) res = Ok (reverse (drop n t), reverse (drop n s), res ++ take n t).
Proof.
  revert t s res. induction n as [|n IH]; intros t s res Hn Hs; cbn [cull_loop]; [by rewrite app_nil_r|].
  destruct t as [|x t]; [simpl in Hn; lia|]. destruct s as [|z s]; [done|].
  rewrite !reverse_cons, !vec_pop_snoc. rewrite IH by (simpl in *; lia). cbn [drop take]. by rewrite <-app_assoc.
Qed.

Lemma ordered_drop n l : ordered l -> ordered (drop n l).
Proof. intros Hl. rewrite <-(take_drop n l) in Hl. by apply ordered_app in Hl as (_ & ? & _). Qed.

(** The stalled transactions at the front leave the set; they come out last
    first. *)
Lemma set_cull_ok {E R} `{Ready R T} max set (r : R) :
  set_ok max set ->
  let k := Z.to_nat (fst (count_stalled (txs set) r 0)) in
  exists r' set', set_cull (E := E) set r = Ok (reverse (take k (txs set)), r', set') /\
    txs set' = drop k (txs set) /\ set_ok max set'.
Proof.
  intros Hok. unfold set_cull, set_is_empty. destruct (Z.eqb_spec (len (txs set)) 0) as [Hz|Hz].
  { exists r, set. assert (txs set = []) as Hnil by (destruct (txs set); [done|rewrite len_cons in Hz; pose proof (len_nonneg l); lia]).
    by rewrite Hnil. }
  destruct (count_stalled_ok (txs set) r 0) as (k & Hk & Hc). destruct (count_stalled _ _ _) as [n r'].
  cbn [fst] in *. subst n. rewrite Z.add_0_l, Nat2Z.id. destruct Hok as [Hs Ho Hm].
  rewrite cull_loop_ok by done. cbn [mbind outcome_bind app].
  exists r'. eexists. split; [reflexivity|]. cbn [txs]. rewrite reverse_involutive. split; [done|].
  apply set_ok_update.
  - rewrite reverse_involutive, !length_drop. lia.
  - by apply ordered_drop.
  - unfold len in *. rewrite length_drop. lia.
Qed.

(** ** Best and worst of a set *)
Definition ends set : option (ScoreWithRef T Score * ScoreWithRef T Score) :=
  match scores set, txs set with
  | s :: _, t :: _ => Some (mkScoreWithRef (List.last (scores set) s) (List.last (txs set) t), mkScoreWithRef s t)
  | _, _ => None
  end.

Lemma index_last {E A} (l : list A) d : l <> [] -> index (E := E) l (len l - 1) = Ok (List.last l d).
Proof.
  intros Hl. destruct l as [|x l _] using rev_ind; [done|]. rewrite List.last_last, len_app. change (len [x]) with 1.
  rewrite Z.add_simpl_r. apply index_app.
Qed.

Lemma worst_and_best_ok {E} max set : set_ok max set -> worst_and_best (E := E) set = Ok (ends set).
Proof.
  intros [Hs _ _]. unfold worst_and_best, ends. destruct (scores set) as [|s ss] eqn:Hss; [done|].
  destruct (txs set) as [|t ts] eqn:Hts; [done|]. rewrite <-Hss at 1. rewrite Hss.
  rewrite (index_last _ s) by done. cbn [mbind outcome_bind].
  change (index (t :: ts) 0) with (Ok (E := E) t). cbn [mbind outcome_bind].
  rewrite (len_eq (s :: ss) (t :: ts)) by done. by rewrite (index_last _ t).
Qed.

Lemma last_elem {A} (l : list A) d : l <> [] -> List.last l d ∈ l.
Proof. intros Hl. destruct l as [|x l _] using rev_ind; [done|]. rewrite List.last_last. set_solver. Qed.

Lemma ends_in set w b : ends set = Some (w, b) -> transaction w ∈ txs set /\ transaction b ∈ txs set.
Proof.
  unfold ends. destruct (scores set); [done|]. destruct (txs set) as [|t ts] eqn:Hts; [done|]. intros [= <- <-].
  split; [exact (last_elem (t :: ts) t ltac:(done))|cbn [transaction]; set_solver].
Qed.

Lemma ends_None max set : set_ok max set -> ends set = None <-> txs set = [].
Proof. intros [Hs _ _]. unfold ends. by destruct (scores set), (txs set). Qed.
End sets.
