(* ===== verification/TxPoolInv.v ===== *)
(** * The invariant of the transaction pool

    The sets of best and worst transactions hold exactly the ends of every
    sender's set; the index by hash holds exactly the transactions of the sets;
    the memory counter is the sum over the index. *)
From stdpp Require Import base list numbers gmap sorting.
From S2P Require Import Prelude TxPool TxPoolSets.

Section ends.
Context {T Score : Type} `{VerifiedTransaction T} `{ScoringLaws T Score}.
Implicit Types (set : Transactions T Score) (M : gmap Z (Transactions T Score)) (x y : ScoreWithRef T Score).

(** ** The order of the sets of best and worst transactions *)
Lemma swr_cmp_opp x y : swr_cmp y x = CompOpp (swr_cmp x y).
Proof.
  unfold swr_cmp. rewrite (score_cmp_opp (score y) (score x)). destruct (score_cmp (score y) (score x)); try done.
  by rewrite Z.compare_antisym.
Qed.

Lemma swr_cmp_eq x y : swr_cmp x y = Eq <-> score x = score y /\ insertion_id (transaction x) = insertion_id (transaction y).
Proof.
  unfold swr_cmp. destruct (score_cmp (score y) (score x)) eqn:Hc.
  - apply score_cmp_eq in Hc. rewrite Z.compare_eq_iff. naive_solver.
  - split; [done|]. intros [Heq _]. symmetry in Heq. apply score_cmp_eq in Heq. congruence.
  - split; [done|]. intros [Heq _]. symmetry in Heq. apply score_cmp_eq in Heq. congruence.
Qed.

Lemma swr_cmp_trans x y z : swr_cmp x y = Lt -> swr_cmp y z = Lt -> swr_cmp x z = Lt.
Proof.
  unfold swr_cmp. destruct (score_cmp (score y) (score x)) eqn:Hxy; [apply score_cmp_eq in Hxy as Hxy'; rewrite Hxy'| |done].
  - destruct (score_cmp (score z) (score x)); [|done|done]. rewrite !Z.compare_lt_iff. lia.
  - intros _. destruct (score_cmp (score z) (score y)) eqn:Hyz; [apply score_cmp_eq in Hyz; rewrite Hyz; by rewrite Hxy| |done].
    by rewrite (score_cmp_trans _ _ _ Hyz Hxy).
Qed.

Definition swr_lt x y : Prop := swr_cmp x y = Lt.
Abbreviation bsorted := (StronglySorted swr_lt).

Lemma bset_insert_elem x l z : z ∈ bset_insert x l -> z = x \/ z ∈ l.
Proof.
  induction l as [|y l IH]; cbn [bset_insert]; [set_solver|]. destruct (swr_cmp x y); [set_solver..|].
  rewrite !elem_of_cons. naive_solver.
Qed.

Lemma bset_insert_ok x l :
  bsorted l -> (forall y, y ∈ l -> swr_cmp x y <> Eq) ->
  bsorted (bset_insert x l) /\ forall z, z ∈ bset_insert x l <-> z = x \/ z ∈ l.
Proof.
  induction 1 as [|y l Hl IH Hy]; intros Hne; cbn [bset_insert]; [split; [repeat constructor|set_solver]|].
  rewrite Forall_forall in Hy. pose proof (Hne y ltac:(set_solver)) as Hney. destruct (swr_cmp x y) eqn:Hc; [done| |].
  - split; [|set_solver]. repeat (constructor; try done); [by apply Forall_forall|]. apply Forall_forall. intros z Hz.
    exact (swr_cmp_trans _ _ _ Hc (Hy z Hz)).
  - destruct IH as [Hs Hin]; [set_solver|]. split.
    + constructor; [done|]. apply Forall_forall. intros z [->|Hz]%Hin; [|by apply Hy].
      unfold swr_lt. by rewrite swr_cmp_opp, Hc.
    + intros z. rewrite elem_of_cons, Hin, elem_of_cons. tauto.
Qed.

Lemma bset_remove_ok x l :
  bsorted l -> x ∈ l -> (forall y, y ∈ l -> swr_cmp x y = Eq -> y = x) ->
  bsorted (bset_remove x l) /\ forall z, z ∈ bset_remove x l <-> z ∈ l /\ z <> x.
Proof.
  induction 1 as [|y l Hl IH Hy]; intros Hin Heq; cbn [bset_remove]; [by apply not_elem_of_nil in Hin|].
  rewrite Forall_forall in Hy. assert (Hxx : swr_cmp x x = Eq) by (by apply swr_cmp_eq).
  destruct (swr_cmp x y) eqn:Hc.
  - assert (y = x) as -> by (apply Heq; [set_solver|done]). split; [done|]. intros z. rewrite elem_of_cons.
    split; [|naive_solver]. intros Hz. split; [by right|]. intros ->. specialize (Hy x Hz). unfold swr_lt in Hy. congruence.
  - exfalso. apply elem_of_cons in Hin as [->|Hin]; [congruence|]. specialize (Hy x Hin). unfold swr_lt in Hy.
    rewrite swr_cmp_opp, Hc in Hy. done.
  - apply elem_of_cons in Hin as [->|Hin]; [congruence|]. destruct IH as [Hs Hm]; [done|intros; apply Heq; set_solver|]. split.
    + constructor; [done|]. apply Forall_forall. intros z [Hz _]%Hm. by apply Hy.
    + intros z. rewrite !elem_of_cons, Hm. split; [|naive_solver]. intros [->|[??]]; [|naive_solver]. split; [by left|].
      intros ->. congruence.
Qed.

(** ** Ends of all sets *)
Definition in_map M (t : T) : Prop := exists s set, M !! s = Some set /\ t ∈ txs set.

(** Transactions are told apart by their hash and by their insertion identifier. *)
Definition distinct (P : T -> Prop) : Prop :=
  forall t1 t2, P t1 -> P t2 -> hash t1 = hash t2 \/ insertion_id t1 = insertion_id t2 -> t1 = t2.

Definition keyed M : Prop := forall s set t, M !! s = Some set -> t ∈ txs set -> sender t = s.

(** [sel] selects the worst or the best. *)
Variant is_end : ((ScoreWithRef T Score * ScoreWithRef T Score) -> ScoreWithRef T Score) -> Prop :=
  | end_worst : is_end fst
  | end_best : is_end snd.

Definition ends_ok sel (l : list (ScoreWithRef T Score)) M : Prop :=
  bsorted l /\ forall x, x ∈ l <-> exists s set e, M !! s = Some set /\ ends set = Some e /\ sel e = x.

Lemma sel_in sel set e : is_end sel -> ends set = Some e -> transaction (sel e) ∈ txs set.
Proof. intros Hsel He. destruct e as [w b]. destruct (ends_in set w b He), Hsel; done. Qed.

Definition update_end (prev cur : option (ScoreWithRef T Score)) (l : list (ScoreWithRef T Score)) : list (ScoreWithRef T Score) :=
  match prev, cur with
  | None, Some e' => bset_insert e' l
  | Some e, None => bset_remove e l
  | Some e, Some e' => if negb (is_same e e') then bset_insert e' (bset_remove e l) else l
  | None, None => l
  end.

Lemma is_same_eq (P : T -> Prop) x y :
  distinct P -> P (transaction x) -> P (transaction y) -> is_same x y = true -> x = y.
Proof.
  intros Hd Hx Hy. unfold is_same. destruct (score_cmp (score x) (score y)) eqn:Hc; [|done..]. cbn [andb].
  intros Hh%Z.eqb_eq. apply score_cmp_eq in Hc. destruct x as [sx tx], y as [sy ty]. cbn in *. subst.
  by rewrite (Hd tx ty Hx Hy (or_introl Hh)).
Qed.

Lemma is_same_refl x : is_same x x = true.
Proof. unfold is_same. by rewrite (proj2 (score_cmp_eq (score x) (score x)) eq_refl), Z.eqb_refl. Qed.

(** The other senders' ends [O] stay; this sender's end is replaced. *)
Lemma update_end_ok (O : ScoreWithRef T Score -> Prop) (P : T -> Prop) l prev cur s :
  distinct P ->
  (forall x, O x -> P (transaction x) /\ sender (transaction x) <> s) ->
  (forall x, prev = Some x \/ cur = Some x -> P (transaction x) /\ sender (transaction x) = s) ->
  bsorted l -> (forall x, x ∈ l <-> O x \/ prev = Some x) ->
  bsorted (update_end prev cur l) /\ forall x, x ∈ update_end prev cur l <-> O x \/ cur = Some x.
Proof.
  intros Hd HO Hpc Hs Hl.
  assert (Hne : forall e y, prev = Some e \/ cur = Some e -> O y -> swr_cmp e y <> Eq).
  { intros e y He [Hy Hys]%HO [_ Hid]%swr_cmp_eq. apply Hpc in He as [He Hes].
    rewrite (Hd _ _ He Hy (or_intror Hid)) in Hes. done. }
  assert (Hrem : forall e, prev = Some e ->
    bsorted (bset_remove e l) /\ forall x, x ∈ bset_remove e l <-> O x).
  { intros e ->. destruct (bset_remove_ok e l) as [Hr Hm]; [done|apply Hl; by right| |].
    - intros y [Hy|[= ->]]%Hl Hc; [|done]. exfalso. by apply (Hne e y (or_introl eq_refl) Hy).
    - split; [done|]. intros x. rewrite Hm, Hl. split; [naive_solver|]. intros Hx. split; [by left|].
      intros ->. destruct (HO e Hx) as [_ Hn]. destruct (Hpc e (or_introl eq_refl)) as [_ He]. done. }
  destruct prev as [e|], cur as [e'|]; cbn [update_end].
  - destruct (is_same e e') eqn:Hsame; cbn [negb].
    + assert (e = e') as <-; [|done]. by apply (is_same_eq P); [|apply Hpc; left|apply Hpc; right|].
    + destruct (Hrem e eq_refl) as [Hr Hm]. destruct (bset_insert_ok e' (bset_remove e l)) as [Hi Him]; [done| |].
      { intros y Hy%Hm. by apply Hne; [right|]. }
      split; [done|]. intros x. rewrite Him, Hm. naive_solver.
  - destruct (Hrem e eq_refl) as [Hr Hm]. split; [done|]. intros x. rewrite Hm. naive_solver.
  - destruct (bset_insert_ok e' l) as [Hi Him]; [done| |].
    { intros y [Hy|?]%Hl; [|done]. by apply Hne; [right|]. }
    split; [done|]. intros x. rewrite Him, Hl. naive_solver.
  - done.
Qed.

Lemma ends_update sel l M s set' :
  is_end sel -> keyed M -> (forall t, t ∈ txs set' -> sender t = s) ->
  distinct (fun t => in_map M t \/ t ∈ txs set') -> ends_ok sel l M ->
  ends_ok sel (update_end (sel <$> (M !! s ≫= ends)) (sel <$> ends set') l) (<[s := set']> M).
Proof.
  intros Hsel Hkey Hkey' Hd [Hs Hl].
  (* the elements of other senders *)
  set (O x := exists s1 set1 e1, s1 <> s /\ M !! s1 = Some set1 /\ ends set1 = Some e1 /\ sel e1 = x).
  assert (HO : forall x, x ∈ l <-> O x \/ sel <$> (M !! s ≫= ends) = Some x).
  { intros x. rewrite Hl. split.
    - intros (s1 & set1 & e1 & Hm & He & Hx). destruct (decide (s1 = s)) as [->|Hne]; [|by left; exists s1, set1, e1].
      right. rewrite Hm. cbn. rewrite He. cbn. by rewrite Hx.
    - intros [(s1 & set1 & e1 & _ & ?)|He]; [by exists s1, set1, e1|].
      destruct (M !! s) as [set|] eqn:Hm; [|done]. cbn in He. destruct (ends set) as [e|] eqn:Hes; [|done].
      exists s, set, e. cbn in He. naive_solver. }
  assert (HM' : forall x, (exists s1 set1 e1, <[s := set']> M !! s1 = Some set1 /\ ends set1 = Some e1 /\ sel e1 = x) <->
                          O x \/ sel <$> ends set' = Some x).
  { intros x. split.
    - intros (s1 & set1 & e1 & Hm & He & Hx). apply lookup_insert_Some in Hm as [[-> ->]|[Hne Hm]].
      + right. rewrite He. cbn. by rewrite Hx.
      + left. by exists s1, set1, e1.
    - intros [(s1 & set1 & e1 & Hne & ?)|He].
      + exists s1, set1, e1. by rewrite lookup_insert_ne by done.
      + destruct (ends set') as [e|] eqn:Hes; [|done]. exists s, set', e. rewrite lookup_insert_eq. cbn in He. naive_solver. }
  assert (HOin : forall x, O x -> in_map M (transaction x) /\ sender (transaction x) <> s).
  { intros x (s1 & set1 & e1 & Hne & Hm & He & <-). pose proof (sel_in sel set1 e1 Hsel He). split; [by exists s1, set1|].
    by rewrite (Hkey s1 set1 _ Hm). }
  assert (Hprev : forall e, sel <$> (M !! s ≫= ends) = Some e -> in_map M (transaction e) /\ sender (transaction e) = s).
  { intros x He. destruct (M !! s) as [set|] eqn:Hm; [|done]. cbn in He. destruct (ends set) as [e|] eqn:Hes; [|done].
    cbn in He. injection He as <-. pose proof (sel_in sel set e Hsel Hes). split; [by exists s, set|by apply (Hkey s set)]. }
  assert (Hcur : forall e, sel <$> ends set' = Some e -> transaction e ∈ txs set' /\ sender (transaction e) = s).
  { intros x He. destruct (ends set') as [e|] eqn:Hes; [|done]. cbn in He. injection He as <-.
    pose proof (sel_in sel set' e Hsel Hes). split; [done|by apply Hkey']. }
  destruct (update_end_ok O (fun t => in_map M t \/ t ∈ txs set') l (sel <$> (M !! s ≫= ends)) (sel <$> ends set') s)
    as [Hs' Hl']; [done| | |done|done|].
  - intros x Hx. destruct (HOin x Hx). split; [by left|done].
  - intros x [Hx|Hx]; [destruct (Hprev x Hx)|destruct (Hcur x Hx)]; split; auto.
  - split; [done|]. intros x. by rewrite Hl', HM'.
Qed.

Lemma ends_ok_delete sel l M s set' :
  ends set' = None -> ends_ok sel l (<[s := set']> M) -> ends_ok sel l (delete s M).
Proof.
  intros He [Hs Hl]. split; [done|]. intros x. rewrite Hl. split.
  - intros (s1 & set1 & e1 & Hm & He1 & Hx). apply lookup_insert_Some in Hm as [[-> ->]|[Hne Hm]]; [congruence|].
    exists s1, set1, e1. by rewrite lookup_delete_ne.
  - intros (s1 & set1 & e1 & Hm & ?). apply lookup_delete_Some in Hm as [Hne Hm].
    exists s1, set1, e1. by rewrite lookup_insert_ne.
Qed.

(** ** The invariant of the sets *)
Record core (max : Z) M (best worst : list (ScoreWithRef T Score)) : Prop := {
  co_sets s set : M !! s = Some set -> set_ok max set /\ txs set <> [];
  co_keyed : keyed M;
  co_distinct : distinct (in_map M);
  co_best : ends_ok snd best M;
  co_worst : ends_ok fst worst M;
}.

(** The map after the set of [s] became [set']. *)
Definition put_set s set' M : gmap Z (Transactions T Score) :=
  match txs set' with [] => delete s M | _ => <[s := set']> M end.

Lemma in_put_set s set' M t :
  keyed M -> in_map (put_set s set' M) t <-> (in_map M t /\ sender t <> s) \/ t ∈ txs set'.
Proof.
  intros Hk. assert (Hdel : in_map (delete s M) t <-> in_map M t /\ sender t <> s).
  { split.
    - intros (s1 & set1 & [Hne Hm]%lookup_delete_Some & Ht). split; [by exists s1, set1|]. by rewrite (Hk _ _ _ Hm Ht).
    - intros [(s1 & set1 & Hm & Ht) Hs]. exists s1, set1. rewrite lookup_delete_ne; [done|]. by rewrite <-(Hk _ _ _ Hm Ht). }
  unfold put_set. destruct (txs set') as [|x l] eqn:Htx.
  { rewrite Hdel. set_solver. }
  rewrite <-Hdel, <-Htx. split.
  - intros (s1 & set1 & [[-> ->]|[Hne Hm]]%lookup_insert_Some & Ht); [by right|]. left. exists s1, set1. by rewrite lookup_delete_ne.
  - intros [(s1 & set1 & [Hne Hm]%lookup_delete_Some & Ht)|Ht]; [exists s1, set1|exists s, set'].
    + by rewrite lookup_insert_ne.
    + by rewrite lookup_insert_eq.
Qed.

Lemma put_set_distinct s set' M :
  keyed M -> distinct (fun t => in_map M t \/ t ∈ txs set') -> distinct (in_map (put_set s set' M)).
Proof. intros Hk Hd t1 t2 Ht1%in_put_set Ht2%in_put_set; [|done..]. apply Hd; tauto. Qed.

(** What [update_senders_worst_and_best] leaves alone. *)
Definition same_index (p p' : Pool T Score) : Prop :=
  listener p' = listener p /\ options p' = options p /\ pool_mem_usage p' = pool_mem_usage p /\ by_hash p' = by_hash p.

Lemma update_senders_ok max (p : Pool T Score) s set' :
  core max (transactions p) (best_transactions p) (worst_transactions p) ->
  set_ok max set' -> (forall t, t ∈ txs set' -> sender t = s) ->
  distinct (fun t => in_map (transactions p) t \/ t ∈ txs set') ->
  (txs set' = [] -> is_Some (transactions p !! s)) ->
  let p' := update_senders_worst_and_best (transactions p !! s ≫= ends) (ends set')
              (with_transactions (<[s := set']> (transactions p)) p) in
  core max (transactions p') (best_transactions p') (worst_transactions p') /\
  transactions p' = put_set s set' (transactions p) /\ same_index p p'.
Proof.
  intros [Hsets Hkey Hdis Hb Hw] Hok Hkey' Hd Hemp. cbv zeta.
  pose proof (ends_update snd _ _ s set' end_best Hkey Hkey' Hd Hb) as Hb'.
  pose proof (ends_update fst _ _ s set' end_worst Hkey Hkey' Hd Hw) as Hw'.
  assert (Hgo : forall M' b w, M' = put_set s set' (transactions p) -> ends_ok snd b M' -> ends_ok fst w M' -> core max M' b w).
  { intros M' b w -> Hb2 Hw2. split; [| |by apply put_set_distinct|done|done].
    - intros s1 set1. unfold put_set. destruct (txs set') eqn:Htx.
      + intros [_ Hm]%lookup_delete_Some. by apply Hsets in Hm.
      + intros [[-> ->]|[_ Hm]]%lookup_insert_Some; [split; [done|by rewrite Htx]|by apply Hsets in Hm].
    - intros s1 set1 t. unfold put_set. destruct (txs set') eqn:Htx.
      + intros [_ Hm]%lookup_delete_Some. by apply Hkey.
      + rewrite <-Htx in *. intros [[-> ->]|[_ Hm]]%lookup_insert_Some; [by apply Hkey'|by apply Hkey]. }
  destruct (ends set') as [[w2 b2]|] eqn:He'.
  - assert (put_set s set' (transactions p) = <[s := set']> (transactions p)) as Hput.
    { unfold put_set. destruct (txs set') eqn:Htx; [|done]. apply (ends_None max) in Htx; [congruence|done]. }
    destruct (transactions p !! s ≫= ends) as [[w1 b1]|]; cbn [fmap option_fmap option_map fst snd update_end] in Hb', Hw';
      (split; [apply Hgo; [by rewrite Hput|done|done]|by rewrite Hput]).
  - apply (ends_None max) in He' as Htx; [|done]. assert (put_set s set' (transactions p) = delete s (transactions p)) as Hput.
    { unfold put_set. by rewrite Htx. }
    destruct (Hemp Htx) as [set Hset]. destruct (Hsets s set Hset) as [Hsok Hne]. rewrite Hset in *. cbn [mbind option_bind] in *.
    destruct (ends set) as [[w1 b1]|] eqn:He; [|by apply (ends_None max) in He].
    assert (Hs : sender (transaction w1) = s) by (apply (Hkey s set); [done|by destruct (ends_in set w1 b1 He)]).
    cbn [fmap option_fmap option_map fst snd update_end] in Hb', Hw'.
    cbn [update_senders_worst_and_best with_ends with_transactions transactions best_transactions worst_transactions].
    rewrite Hs, delete_insert_eq. split; [|by rewrite Hput].
    apply Hgo; [done|by eapply ends_ok_delete|by eapply ends_ok_delete].
Qed.
End ends.
