(* ===== verification/TxPoolOps.v ===== *)
(** * The operations of the transaction pool

    Every operation keeps the invariant of the pool; the transactions it holds
    afterwards are described exactly. *)
From stdpp Require Import base list numbers gmap sorting.
From S2P Require Import Prelude TxPool TxPoolSets TxPoolInv.

(** Memory use is a [usize], and no transaction takes half the address space. *)
Class TransactionLaws (T : Type) `{VerifiedTransaction T} := { mem_usage_range t : 0 <= mem_usage t < 2 ^ 63 }.

Section ops.
Context {T Score : Type} `{VerifiedTransaction T} `{!TransactionLaws T} `{ScoringLaws T Score}.
Implicit Types (p : Pool T Score) (t tx : T) (set : Transactions T Score) (h : gmap Z T).

(** ** The index by hash and the memory counter *)
Definition total h : Z := map_fold (fun _ t acc => mem_usage t + acc) 0 h.

Lemma total_insert h k t : h !! k = None -> total (<[k := t]> h) = mem_usage t + total h.
Proof. intros Hk. unfold total. rewrite map_fold_insert_L; [done| |done]. intros. lia. Qed.

Lemma total_delete h k t : h !! k = Some t -> total h = mem_usage t + total (delete k h).
Proof. intros Hk. unfold total. rewrite (map_fold_delete_L _ _ k t); [done| |done]. intros. lia. Qed.

Lemma total_nonneg h : 0 <= total h.
Proof.
  induction h as [|k t h Hk IH] using map_ind; [done|]. rewrite total_insert by done.
  pose proof (mem_usage_range t). lia.
Qed.

Definition holds p t : Prop := in_map (transactions p) t.

Definition indexed p : Prop := forall k t, by_hash p !! k = Some t <-> hash t = k /\ holds p t.

Record pool_ok p : Prop := {
  ok_core : core (max_per_sender (options p)) (transactions p) (best_transactions p) (worst_transactions p);
  ok_indexed : indexed p;
  ok_mem : pool_mem_usage p = total (by_hash p);
}.

(** The limits of the options. *)
Definition within p : Prop :=
  Z.of_nat (size (by_hash p)) <= max_count (options p) /\ pool_mem_usage p <= max_mem_usage (options p).

Definition options_ok (o : Options) : Prop :=
  1 <= max_per_sender o /\ 0 <= max_count o /\ max_count o + 1 < 2 ^ 64 /\ 0 <= max_mem_usage o <= 2 ^ 63.

Lemma holds_indexed p t : pool_ok p -> holds p t -> by_hash p !! hash t = Some t.
Proof. intros Hok Ht. by apply (ok_indexed p Hok). Qed.

Lemma pool_new_ok o : 0 <= max_count o -> 0 <= max_mem_usage o -> pool_ok (Pool_new o) /\ within (Pool_new (T := T) (Score := Score) o).
Proof.
  intros Hc Hm. assert (Hn : forall t, ~ in_map (∅ : gmap Z (Transactions T Score)) t).
  { intros t (s & set & Hs & _). by rewrite lookup_empty in Hs. }
  assert (He : forall sel, ends_ok sel [] (∅ : gmap Z (Transactions T Score))).
  { intros sel. split; [constructor|]. intros x. split; [by intros ?%not_elem_of_nil|]. intros (s & set & e & Hs & _).
    by rewrite lookup_empty in Hs. }
  split; [|done]. split; [split| |done]; try apply He.
  - intros s set Hs. cbn in Hs. by rewrite lookup_empty in Hs.
  - intros s set t Hs. cbn in Hs. by rewrite lookup_empty in Hs.
  - intros t1 t2 Ht1. by apply Hn in Ht1.
  - intros k t. cbn [by_hash Pool_new]. rewrite lookup_empty. split; [done|]. intros [_ Ht]. by apply Hn in Ht.
Qed.

(** ** Taking a transaction out *)
Lemma unset_ok {E} max p t :
  core max (transactions p) (best_transactions p) (worst_transactions p) -> holds p t ->
  exists p', remove_from_set (E := E) p (sender t) (fun set => set_remove set t) = Ok (Some true, p') /\
    core max (transactions p') (best_transactions p') (worst_transactions p') /\ same_index p p' /\
    forall t', holds p' t' <-> holds p t' /\ t' <> t.
Proof.
  intros Hcore (s & set & Hset & Hin). pose proof (co_keyed _ _ _ _ Hcore) as Hkey.
  destruct (co_sets _ _ _ _ Hcore s set Hset) as [Hok _]. pose proof (Hkey s set t Hset Hin) as <-.
  unfold remove_from_set. rewrite Hset, (worst_and_best_ok max) by done. cbn [mbind outcome_bind].
  destruct (set_remove_ok (E := E) max set t Hok Hin) as (set' & -> & Hperm & Hok'). cbn [mbind outcome_bind].
  rewrite (worst_and_best_ok max) by done. cbn [mbind outcome_bind].
  assert (Hsub : forall t', t' ∈ txs set' -> t' ∈ txs set) by (intros; rewrite Hperm; set_solver).
  destruct (update_senders_ok max p (sender t) set') as (Hcore' & Hput & Hsame); try done.
  { intros t' Ht'. apply (Hkey (sender t) set); auto. }
  { intros t1 t2 Ht1 Ht2. apply (co_distinct _ _ _ _ Hcore).
    - destruct Ht1; [done|]. exists (sender t), set. auto.
    - destruct Ht2; [done|]. exists (sender t), set. auto. }
  rewrite Hset in *. cbn [mbind option_bind] in *. eexists. split; [reflexivity|]. split; [done|]. split; [done|].
  intros t'. unfold holds at 1. rewrite Hput, in_put_set by done.
  pose proof (ordered_NoDup _ (so_ordered _ _ Hok)) as Hnd. rewrite Hperm, NoDup_cons in Hnd. destruct Hnd as [Hnt _]. split.
  - intros [[Ht' Hs]|Ht']; [|split; [exists (sender t), set; auto|by intros ->]]. split; [done|]. by intros ->.
  - intros [(s1 & set1 & Hm & Ht') Hne]. destruct (decide (s1 = sender t)) as [->|Hs].
    + right. rewrite Hset in Hm. injection Hm as <-. rewrite Hperm in Ht'. set_solver.
    + left. split; [by exists s1, set1|]. by rewrite (Hkey s1 set1 t').
Qed.

Lemma finalize_remove_ok {E} p t :
  by_hash p !! hash t = Some t -> pool_mem_usage p = total (by_hash p) ->
  finalize_remove (E := E) p (hash t) =
    Ok (Some t, with_index (pool_mem_usage p - mem_usage t) (delete (hash t) (by_hash p)) p).
Proof.
  intros Hh Hm. unfold finalize_remove. rewrite Hh.
  pose proof (total_delete _ _ _ Hh). pose proof (total_nonneg (delete (hash t) (by_hash p))).
  by rewrite sub_chk_ok by lia.
Qed.

Lemma indexed_delete p p' t :
  indexed p -> holds p t -> by_hash p' = delete (hash t) (by_hash p) ->
  (forall t', holds p' t' <-> holds p t' /\ t' <> t) -> indexed p'.
Proof.
  intros Hi Ht Hh Hp k t'. rewrite Hh, Hp, lookup_delete_Some, (Hi k t'). split.
  - intros (Hne & <- & Ht'). split; [done|]. split; [done|]. by intros ->.
  - intros (<- & Ht' & Hne). split; [|done]. intros Heq. apply Hne.
    assert (by_hash p !! hash t = Some t) as Ht1 by (by apply Hi).
    assert (by_hash p !! hash t' = Some t') as Ht2 by (by apply Hi). congruence.
Qed.

Lemma size_delete h k t : h !! k = Some t -> (size (delete k h) + 1 = size h)%nat.
Proof.
  intros Hk. rewrite map_size_delete, Hk. assert (0 < size h)%nat; [|lia].
  destruct (decide (size h = 0%nat)) as [Hz|]; [|lia]. apply map_size_empty_inv in Hz. subst. by rewrite lookup_empty in Hk.
Qed.

(** [Pool::remove] *)
Lemma remove_ok {E} p k invalid :
  pool_ok p ->
  match by_hash p !! k with
  | Some t => exists p', remove (E := E) p k invalid = Ok (true, p') /\ pool_ok p' /\ options p' = options p /\
      (forall t', holds p' t' <-> holds p t' /\ t' <> t) /\
      by_hash p' = delete k (by_hash p) /\ pool_mem_usage p' = pool_mem_usage p - mem_usage t /\
      listener p' = listener p ++ [if invalid then Invalidated t else Cancelled t]
  | None => remove (E := E) p k invalid = Ok (false, p)
  end.
Proof.
  intros Hok. unfold remove. destruct (by_hash p !! k) as [t|] eqn:Hk; [|unfold finalize_remove; by rewrite Hk].
  pose proof (proj1 (ok_indexed p Hok k t) Hk) as [<- Ht]. rewrite finalize_remove_ok by (done || apply (ok_mem p Hok)).
  cbn [mbind outcome_bind]. set (p1 := with_index _ _ p).
  destruct (unset_ok (E := E) (max_per_sender (options p)) p1 t (ok_core p Hok) Ht) as (p2 & -> & Hcore & (Hl & Ho & Hm & Hh) & Hp2).
  cbn [mbind outcome_bind]. eexists. split; [reflexivity|].
  pose proof (total_delete _ _ _ Hk) as Htot. cbn [notify options by_hash pool_mem_usage listener transactions] in *.
  split; [|split_and!; [done| |done..|by rewrite Hl]].
  - split; cbn [notify options transactions best_transactions worst_transactions by_hash pool_mem_usage].
    + by rewrite Ho.
    + apply (indexed_delete p _ t (ok_indexed p Hok) Ht); [done|]. apply Hp2.
    + rewrite Hm, Hh. unfold p1. cbn [pool_mem_usage by_hash with_index]. pose proof (ok_mem p Hok). lia.
  - apply Hp2.
Qed.

(** ** Making room *)

(** [p'] is [p] after the transactions [out] left, each announced by [ev]. *)
Record departed (ev : T -> Event T) p p' (out : list T) : Prop := {
  sh_ok : pool_ok p';
  sh_options : options p' = options p;
  sh_holds t : holds p t <-> holds p' t \/ t ∈ out;
  sh_out t : t ∈ out -> ~ holds p' t;
  sh_size : (size (by_hash p') + length out = size (by_hash p))%nat;
  sh_mem : pool_mem_usage p' <= pool_mem_usage p;
  sh_listener : listener p' = listener p ++ (ev <$> out);
}.
Abbreviation shrunk := (departed Dropped).

Lemma shrunk_refl ev p : pool_ok p -> departed ev p p [].
Proof. intros Hok. split; [done|done|set_solver|set_solver|simpl; lia|done|cbn; by rewrite app_nil_r]. Qed.

Lemma shrunk_trans ev p1 p2 p3 out out' : departed ev p1 p2 out -> departed ev p2 p3 out' -> departed ev p1 p3 (out ++ out').
Proof.
  intros [] []. split; try done.
  - congruence.
  - intros t. rewrite sh_holds0, sh_holds1, elem_of_app. tauto.
  - intros t [Ht|Ht]%elem_of_app; [|auto]. intros Hp3. apply (sh_out0 t Ht), sh_holds1. by left.
  - rewrite length_app. lia.
  - lia.
  - by rewrite sh_listener1, sh_listener0, fmap_app, app_assoc.
Qed.

Lemma import_remove_worst_ok p tx :
  pool_ok p ->
  import_remove_worst p tx = Err (TooCheapToEnter (hash tx), notify (Rejected tx) p) \/
  exists t p', import_remove_worst p tx = Ok (tt, p') /\ shrunk p p' [t].
Proof.
  intros Hok. unfold import_remove_worst, remove_worst.
  destruct (last (worst_transactions p)) as [old|] eqn:Hlast; [|by left].
  destruct (should_replace (transaction old) tx); [right|by left].
  assert (Ht : holds p (transaction old)).
  { apply last_Some_elem_of in Hlast. pose proof (co_worst _ _ _ _ (ok_core p Hok)) as [_ Hw].
    apply Hw in Hlast as (s & set & e & Hm & He & <-). exists s, set. split; [done|]. by apply (sel_in fst); [constructor|]. }
  set (t := transaction old) in *.
  destruct (unset_ok (E := PoolError * Pool T Score) _ p t (ok_core p Hok) Ht) as (p1 & -> & Hcore & (Hl & Ho & Hm & Hh) & Hp1).
  cbn [mbind outcome_bind]. pose proof (holds_indexed p t Hok Ht) as Hk. pose proof (ok_mem p Hok) as Hmem.
  rewrite (finalize_remove_ok (notify (Dropped t) p1) t) by (cbn [notify by_hash pool_mem_usage]; congruence).
  cbn [mbind outcome_bind]. exists t. eexists. split; [reflexivity|].
  pose proof (total_delete _ _ _ Hk) as Htot. pose proof (mem_usage_range t).
  split; cbn [with_index notify options by_hash pool_mem_usage listener transactions]; rewrite ?Hh, ?Hm, ?Hl.
  - split; cbn [with_index notify options by_hash pool_mem_usage transactions best_transactions worst_transactions].
    + by rewrite Ho.
    + apply (indexed_delete p _ t (ok_indexed p Hok) Ht); [done|apply Hp1].
    + lia.
  - done.
  - intros t'. change (holds (with_index _ _ _) t') with (holds p1 t'). rewrite Hp1, list_elem_of_singleton.
    split; [|naive_solver]. intros Ht'.
    destruct (decide (hash t' = hash t)) as [Heq|Hne]; [right|left; split; [done|congruence]].
    pose proof (holds_indexed p t' Hok Ht') as Hk'. congruence.
  - intros t' ->%list_elem_of_singleton. change (~ holds p1 t). rewrite Hp1. tauto.
  - exact (size_delete _ _ _ Hk).
  - lia.
  - done.
Qed.

Lemma make_room_ok fuel full p tx :
  pool_ok p -> (size (by_hash p) < fuel)%nat ->
  (forall q out, shrunk p q out -> exists b : bool, full q = Ok (b, q)) ->
  exists q out, shrunk p q out /\
    ((make_room fuel full p tx = Ok (tt, q) /\ full q = Ok (false, q)) \/
     make_room fuel full p tx = Err (TooCheapToEnter (hash tx), notify (Rejected tx) q)).
Proof.
  revert p. induction fuel as [|fuel IH]; intros p Hok Hf Hfull; [lia|]. cbn [make_room].
  destruct (Hfull p [] (shrunk_refl _ p Hok)) as [b Hb]. rewrite Hb. cbn [mbind outcome_bind]. destruct b.
  2: { exists p, []. split; [by apply shrunk_refl|]. by left. }
  destruct (import_remove_worst_ok p tx Hok) as [->|(t & p1 & -> & Hsh)].
  { exists p, []. split; [by apply shrunk_refl|]. by right. }
  cbn [mbind outcome_bind]. pose proof (sh_size _ _ _ _ Hsh) as Hsz. cbn [length] in Hsz.
  destruct (IH p1) as (q & out & Hq & Hres); [apply Hsh|lia| |].
  { intros q out Hq. apply (Hfull q (t :: out)). exact (shrunk_trans _ _ _ _ _ _ Hsh Hq). }
  exists q, (t :: out). split; [exact (shrunk_trans _ _ _ _ _ _ Hsh Hq)|done].
Qed.

(** Both loops of [import]. *)
Lemma import_room_ok p tx :
  pool_ok p -> within p -> options_ok (options p) ->
  exists q out, shrunk p q out /\
    let fuel := S (size (by_hash p)) in
    let room := '(_, q) ← make_room fuel too_many p tx; make_room fuel (too_large (mem_usage tx)) q tx in
    ((room = Ok (tt, q) /\ Z.of_nat (size (by_hash q)) + 1 <= max_count (options p) /\
      pool_mem_usage q + mem_usage tx <= max_mem_usage (options p)) \/
     room = Err (TooCheapToEnter (hash tx), notify (Rejected tx) q)).
Proof.
  intros Hok [Hcount Hmem] (_ & _ & Hc & Hm). cbv zeta. pose proof (mem_usage_range tx).
  destruct (make_room_ok (S (size (by_hash p))) too_many p tx Hok) as (q & out & Hq & [[-> Hfull]| ->]); [lia| | |].
  { intros q out Hq. pose proof (sh_size _ _ _ _ Hq). exists (max_count (options q) <? Z.of_nat (size (by_hash q)) + 1).
    unfold too_many. by rewrite add_chk_ok by lia. }
  2: { exists q, out. split; [done|]. by right. }
  cbn [mbind outcome_bind]. pose proof (sh_size _ _ _ _ Hq) as Hsz. pose proof (sh_mem _ _ _ _ Hq) as Hmq.
  assert (Z.of_nat (size (by_hash q)) + 1 <= max_count (options p)) as Hcq.
  { unfold too_many in Hfull. rewrite add_chk_ok in Hfull by lia. cbn in Hfull. injection Hfull as Hlt.
    rewrite (sh_options _ _ _ _ Hq) in Hlt. apply Z.ltb_ge in Hlt. lia. }
  destruct (make_room_ok (S (size (by_hash p))) (too_large (mem_usage tx)) q tx (sh_ok _ _ _ _ Hq)) as (q' & out' & Hq' & Hres); [lia| |].
  { intros q' out' Hq'. pose proof (sh_mem _ _ _ _ Hq'). exists (max_mem_usage (options q') <? pool_mem_usage q' + mem_usage tx).
    unfold too_large. by rewrite add_chk_ok by lia. }
  exists q', (out ++ out'). split; [by eapply shrunk_trans|]. destruct Hres as [[-> Hfull']| ->]; [left|by right].
  pose proof (sh_size _ _ _ _ Hq') as Hsz'. pose proof (sh_mem _ _ _ _ Hq') as Hmq'. split; [done|]. split; [lia|].
  unfold too_large in Hfull'. rewrite add_chk_ok in Hfull' by lia. cbn in Hfull'. injection Hfull' as Hlt.
  rewrite (sh_options _ _ _ _ Hq'), (sh_options _ _ _ _ Hq) in Hlt. apply Z.ltb_ge in Hlt. lia.
Qed.

(** ** Importing *)

(** No other transaction of the pool has the identifier of [tx]. *)
Definition fresh_id p tx : Prop := forall t, holds p t -> insertion_id t = insertion_id tx -> t = tx.

Lemma distinct_with p tx :
  pool_ok p -> by_hash p !! hash tx = None -> fresh_id p tx -> distinct (fun t => holds p t \/ t = tx).
Proof.
  intros Hok Hnew Hfresh. assert (Hn : forall t, holds p t -> hash t <> hash tx).
  { intros t Ht Heq. pose proof (holds_indexed p t Hok Ht). congruence. }
  intros t1 t2 [Ht1| ->] [Ht2| ->] Heq.
  - by apply (co_distinct _ _ _ _ (ok_core p Hok)).
  - destruct Heq as [Heq|Heq]; [by apply Hn in Heq|by apply Hfresh].
  - destruct Heq as [Heq|Heq]; [by apply eq_sym, Hn in Heq|symmetry; by apply Hfresh].
  - done.
Qed.

(** What the pool holds after [Transactions::add]. *)
Definition held_after p tx (r : AddResult T) (p' : Pool T Score) : Prop :=
  match r with
  | AddOk t => t = tx /\ forall t', holds p' t' <-> holds p t' \/ t' = tx
  | AddPushedOut old new | AddReplaced old new =>
      new = tx /\ holds p old /\ forall t', holds p' t' <-> (holds p t' /\ t' <> old) \/ t' = tx
  | AddTooCheap old new => new = tx /\ holds p old /\ sender old = sender tx /\ choose old tx = RejectNew /\ forall t', holds p' t' <-> holds p t'
  | AddTooCheapToEnter t => t = tx /\ forall t', holds p' t' <-> holds p t'
  end.

Lemma held_after_add p tx p' set r set' max :
  pool_ok p -> ~ holds p tx -> default Transactions_default (transactions p !! sender tx) = set ->
  NoDup (txs set) -> added_to set tx max r set' ->
  (forall t, holds p' t <-> (holds p t /\ sender t <> sender tx) \/ t ∈ txs set') -> held_after p tx r p'.
Proof.
  intros Hok Hnot Hset Hnd Hadd Hp'.
  assert (Hin : forall t, t ∈ txs set <-> holds p t /\ sender t = sender tx).
  { intros t. rewrite <-Hset. pose proof (co_keyed _ _ _ _ (ok_core p Hok)) as Hkey. split.
    - destruct (transactions p !! sender tx) as [s|] eqn:Hs; cbn; [|by intros ?%not_elem_of_nil].
      intros Ht. split; [by exists (sender tx), s|by apply (Hkey _ s)].
    - intros [(s1 & set1 & Hm & Ht) Hs]. rewrite <-Hs, (Hkey _ _ _ Hm Ht), Hm. done. }
  assert (Hall : forall t, holds p t <-> (holds p t /\ sender t <> sender tx) \/ t ∈ txs set).
  { intros t. rewrite Hin. destruct (decide (sender t = sender tx)); tauto. }
  assert (Hout : forall old, tx ∈ txs set' -> old :: txs set' ≡ₚ tx :: txs set ->
    holds p old /\ forall t', holds p' t' <-> (holds p t' /\ t' <> old) \/ t' = tx).
  { intros old Htx Hperm. assert (Hnt : tx ∉ txs set) by (rewrite Hin; tauto).
    assert (NoDup (old :: txs set')) as [Hold _]%NoDup_cons by (rewrite Hperm, NoDup_cons; done).
    assert (Hoin : old ∈ txs set). { assert (old ∈ tx :: txs set) as Ho by (rewrite <-Hperm; set_solver). set_solver. }
    split; [by apply Hin|]. intros t'. rewrite Hp'.
    assert (t' ∈ txs set' <-> (t' ∈ txs set /\ t' <> old) \/ t' = tx) as ->.
    { assert (t' ∈ old :: txs set' <-> t' ∈ tx :: txs set) as Hiff by (by rewrite Hperm). set_solver. }
    rewrite Hin. apply Hin in Hoin as [Hoh Hos].
    split; [|intros [[Ht Hne]| ->]; [destruct (decide (sender t' = sender tx)); tauto|tauto]].
    intros [[Ht Hs]|[[[Ht Hs] Hne]| ->]]; [left; split; [done|congruence]|tauto|tauto]. }
  destruct r as [t|t|old new|old new|old new]; cbn [added_to held_after] in *.
  - destruct Hadd as [-> Hperm]. split; [done|]. intros t'. rewrite Hp', Hperm, elem_of_cons, (Hall t'). tauto.
  - destruct Hadd as (-> & _ & ->). split; [done|]. intros t'. by rewrite Hp', <-Hall.
  - destruct Hadd as (-> & [Hold Hsd]%Hin & Heq & ->). do 4 (split; [done|]). intros t'. by rewrite Hp', <-Hall.
  - destruct Hadd as (-> & Htx & Hperm). split; [done|]. by apply Hout.
  - destruct Hadd as (-> & Htx & Hperm). split; [done|]. by apply Hout.
Qed.

Lemma enter_ok {E} p tx :
  pool_ok p -> options_ok (options p) -> by_hash p !! hash tx = None -> fresh_id p tx ->
  let set := default Transactions_default (transactions p !! sender tx) in
  exists r set',
    worst_and_best (E := E) set = Ok (transactions p !! sender tx ≫= ends) /\
    add (E := E) set tx (max_per_sender (options p)) = Ok (r, set') /\
    worst_and_best (E := E) set' = Ok (ends set') /\
    let p' := update_senders_worst_and_best (transactions p !! sender tx ≫= ends) (ends set')
                (with_transactions (<[sender tx := set']> (transactions p)) p) in
    core (max_per_sender (options p)) (transactions p') (best_transactions p') (worst_transactions p') /\
    same_index p p' /\ held_after p tx r p'.
Proof.
  intros Hok (Hmax & _) Hnew Hfresh. cbv zeta. pose proof (ok_core p Hok) as Hcore. pose proof (co_keyed _ _ _ _ Hcore) as Hkey.
  set (set := default Transactions_default (transactions p !! sender tx)). set (max := max_per_sender (options p)) in *.
  assert (Hset : set_ok max set /\ ends set = (transactions p !! sender tx ≫= ends)).
  { unfold set. destruct (transactions p !! sender tx) as [s|] eqn:Hs; cbn; [|split; [split; [done|apply SSorted_nil|change (0 <= max); lia]|done]].
    split; [|done]. by apply (co_sets _ _ _ _ Hcore (sender tx)). }
  destruct Hset as [Hsok Hends]. assert (Hnot : ~ holds p tx) by (intros Ht%holds_indexed; [congruence|done]).
  destruct (add_ok (E := E) max set tx Hsok) as (r & set' & Hadd & Hspec & Hok'). exists r, set'.
  split; [rewrite (worst_and_best_ok max) by done; by rewrite Hends|]. split; [done|].
  split; [by rewrite (worst_and_best_ok max)|].
  assert (Hsets : forall t, t ∈ txs set -> holds p t /\ sender t = sender tx).
  { intros t. unfold set. destruct (transactions p !! sender tx) as [s|] eqn:Hs; cbn; [|by intros ?%not_elem_of_nil].
    intros Ht. split; [by exists (sender tx), s|by apply (Hkey _ s)]. }
  assert (Hsub : forall t, t ∈ txs set' -> t = tx \/ t ∈ txs set).
  { intros t Ht. destruct r; cbn [added_to] in Hspec.
    - destruct Hspec as [_ Hp]. rewrite Hp in Ht. set_solver.
    - destruct Hspec as (_ & _ & ->). by right.
    - destruct Hspec as (_ & _ & _ & ->). by right.
    - destruct Hspec as (_ & _ & Hp). assert (t ∈ tx :: txs set) by (rewrite <-Hp; set_solver). set_solver.
    - destruct Hspec as (_ & _ & Hp). assert (t ∈ tx :: txs set) by (rewrite <-Hp; set_solver). set_solver. }
  destruct (update_senders_ok max p (sender tx) set') as (Hcore' & Hput & Hsame); try done.
  - intros t [->|Ht]%Hsub; [done|]. by apply Hsets.
  - intros t1 t2 Ht1 Ht2. apply (distinct_with p tx Hok Hnew Hfresh).
    + destruct Ht1 as [Ht1|Ht1]; [by left|]. apply Hsub in Ht1 as [Ht1|Ht1]; [by right|left; by apply Hsets].
    + destruct Ht2 as [Ht2|Ht2]; [by left|]. apply Hsub in Ht2 as [Ht2|Ht2]; [by right|left; by apply Hsets].
  - intros Hemp. exfalso. destruct r; cbn [added_to] in Hspec; rewrite ?Hemp in Hspec.
    + destruct Hspec as [_ Hp]. by apply Permutation_nil_cons in Hp.
    + destruct Hspec as (_ & Hl & ->). rewrite Hemp in Hl. change (len (@nil T)) with 0 in Hl. lia.
    + destruct Hspec as (_ & Hin & _ & ->). rewrite Hemp in Hin. by apply not_elem_of_nil in Hin.
    + destruct Hspec as (_ & Hin & _). by apply not_elem_of_nil in Hin.
    + destruct Hspec as (_ & Hin & _). by apply not_elem_of_nil in Hin.
  - split; [done|]. split; [done|]. apply (held_after_add p tx _ set r set' max); try done.
    + by apply ordered_NoDup, (so_ordered max).
    + intros t. unfold holds at 1. rewrite Hput, in_put_set by done. done.
Qed.

Lemma finalize_insert_ok {E} p new (old : option T) :
  pool_mem_usage p = total (by_hash p) -> by_hash p !! hash new = None -> pool_mem_usage p + mem_usage new < 2 ^ 64 ->
  (forall o, old = Some o -> by_hash p !! hash o = Some o) ->
  exists u h, finalize_insert (E := E) p new old = Ok (with_index u h p) /\ u = total h /\
    u <= pool_mem_usage p + mem_usage new /\
    h = match old with Some o => delete (hash o) (<[hash new := new]> (by_hash p)) | None => <[hash new := new]> (by_hash p) end.
Proof.
  intros Hm Hnew Hlt Hold. unfold finalize_insert. rewrite add_chk_ok by done. cbn [mbind outcome_bind].
  pose proof (total_insert (by_hash p) (hash new) new Hnew) as Htot.
  destruct old as [o|].
  - assert (hash o <> hash new) as Hne by (specialize (Hold o eq_refl); congruence).
    rewrite finalize_remove_ok; cbn [with_index by_hash pool_mem_usage]; [|by rewrite lookup_insert_ne; auto|lia].
    cbn [mbind outcome_bind with_index]. eexists _, _. split; [reflexivity|].
    rewrite (total_delete (<[hash new := new]> (by_hash p)) (hash o) o) in Htot by (rewrite lookup_insert_ne; auto).
    pose proof (mem_usage_range o). split; [lia|]. split; [lia|done].
  - eexists _, _. split; [reflexivity|]. split; [lia|]. split; [lia|done].
Qed.

(** What [import] promises: the log of the listener accounts exactly for the
    transactions that entered and left. *)
Definition import_post p tx (o : outcome (PoolError * Pool T Score) (T * Pool T Score)) : Prop :=
  match o with
  | Ok (t, p') =>
      t = tx /\ pool_ok p' /\ within p' /\ options p' = options p /\ by_hash p !! hash tx = None /\
      exists out replaced, listener p' = listener p ++ (Dropped <$> out) ++ [Added tx replaced] /\
        forall t', holds p' t' <-> t' = tx \/ (holds p t' /\ ~ t' ∈ out /\ replaced <> Some t')
  | Err (e, p') =>
      pool_ok p' /\ within p' /\ options p' = options p /\
      ((e = AlreadyImported (hash tx) /\ is_Some (by_hash p !! hash tx) /\ p' = p) \/
       (by_hash p !! hash tx = None /\
        (e = TooCheapToEnter (hash tx) \/
         exists old, e = TooCheapToReplace (hash old) (hash tx) /\ holds p' old /\ sender old = sender tx /\ choose old tx = RejectNew) /\
        exists out, listener p' = listener p ++ (Dropped <$> out) ++ [Rejected tx] /\
          forall t', holds p' t' <-> holds p t' /\ t' ∉ out))
  | Panic => False
  end.

Lemma pool_ok_notify e p : pool_ok p -> pool_ok (notify e p).
Proof. by intros []. Qed.

Lemma shrunk_held ev p q out : departed ev p q out -> forall t, holds q t <-> holds p t /\ t ∉ out.
Proof.
  intros [] t. rewrite sh_holds0. split; [|tauto]. intros Ht. split; [by left|]. intros Hout. by apply (sh_out0 t).
Qed.

Lemma shrunk_within ev p q out : departed ev p q out -> within p -> within q.
Proof. intros [] [Hc Hm]. split; rewrite sh_options0; lia. Qed.

Lemma shrunk_fresh p q out tx :
  shrunk p q out -> by_hash p !! hash tx = None -> pool_ok p -> by_hash q !! hash tx = None.
Proof.
  intros Hsh Hnew Hok. destruct (by_hash q !! hash tx) as [t|] eqn:Ht; [|done].
  apply (ok_indexed q (sh_ok _ _ _ _ Hsh)) in Ht as [Heq Ht]. apply (shrunk_held _ _ _ _ Hsh) in Ht as [Ht _].
  apply holds_indexed in Ht; [|done]. congruence.
Qed.

Lemma insert_indexed p p1 p' tx (old : option T) :
  pool_ok p -> by_hash p !! hash tx = None -> by_hash p1 = by_hash p ->
  (forall o, old = Some o -> holds p o) ->
  by_hash p' = match old with Some o => delete (hash o) (<[hash tx := tx]> (by_hash p)) | None => <[hash tx := tx]> (by_hash p) end ->
  (forall t', holds p' t' <-> (holds p t' /\ old <> Some t') \/ t' = tx) -> indexed p'.
Proof.
  intros Hok Hnew _ Hold Hh Hp k t. rewrite Hh, Hp. pose proof (ok_indexed p Hok) as Hi.
  assert (Hins : <[hash tx := tx]> (by_hash p) !! k = Some t <-> hash t = k /\ (holds p t \/ t = tx)).
  { rewrite lookup_insert_Some, (Hi k t). split; [naive_solver|]. intros [<- [Ht| ->]]; [|by left].
    right. split; [|done]. intros Heq. apply holds_indexed in Ht; [|done]. congruence. }
  destruct old as [o|]; [|rewrite Hins; naive_solver]. rewrite lookup_delete_Some, Hins.
  specialize (Hold o eq_refl). apply holds_indexed in Hold as Ho; [|done]. split.
  - intros (Hne & <- & [Ht| ->]); [|by split; [|right]]. split; [done|]. left. split; [done|]. congruence.
  - intros [<- [[Ht Hne]| ->]]; [|split; [congruence|by split; [|right]]]. split; [|by split; [|left]].
    intros Heq. apply holds_indexed in Ht; [|done]. congruence.
Qed.

Lemma size_insert_old p tx (old : option T) (h : gmap Z T) :
  by_hash p !! hash tx = None -> (forall o, old = Some o -> by_hash p !! hash o = Some o) ->
  h = match old with Some o => delete (hash o) (<[hash tx := tx]> (by_hash p)) | None => <[hash tx := tx]> (by_hash p) end ->
  (size h <= S (size (by_hash p)))%nat.
Proof.
  intros Hnew Hold ->. rewrite <-(map_size_insert_None (hash tx) tx (by_hash p)) by done. destruct old; [|done].
  rewrite map_size_delete. case_match; [apply Nat.le_pred_l|done].
Qed.

(** A transaction that was let in. *)
Lemma import_enter p q out p1 tx (old : option T) :
  pool_ok p -> shrunk p q out -> options_ok (options p) -> by_hash p !! hash tx = None ->
  Z.of_nat (size (by_hash q)) + 1 <= max_count (options p) ->
  pool_mem_usage q + mem_usage tx <= max_mem_usage (options p) ->
  core (max_per_sender (options q)) (transactions p1) (best_transactions p1) (worst_transactions p1) ->
  same_index q p1 -> (forall o, old = Some o -> holds q o) ->
  (forall t', holds p1 t' <-> (holds q t' /\ old <> Some t') \/ t' = tx) ->
  import_post p tx (p2 ← finalize_insert (notify (Added tx old) p1) tx old; Ok (tx, p2)).
Proof.
  intros Hok Hsh (_ & _ & _ & Hmm) Hnew Hc Hm Hcore (Hl & Ho & Hu & Hh) Hold Hp1.
  pose proof (sh_ok _ _ _ _ Hsh) as Hq. pose proof (shrunk_fresh _ _ _ _ Hsh Hnew Hok) as Hnewq.
  assert (Hold' : forall o, old = Some o -> by_hash q !! hash o = Some o) by (intros o Hoo; apply holds_indexed; auto).
  destruct (finalize_insert_ok (E := PoolError * Pool T Score) (notify (Added tx old) p1) tx old) as (u & h & -> & Hut & Hule & Heq);
    cbn [notify pool_mem_usage by_hash]; rewrite ?Hh, ?Hu; [apply (ok_mem q Hq)|done|lia|done|].
  cbn [notify pool_mem_usage by_hash] in *. rewrite ?Hh, ?Hu in *. cbn [mbind outcome_bind import_post].
  pose proof (size_insert_old q tx old h Hnewq Hold' Heq) as Hsize. pose proof (sh_options _ _ _ _ Hsh) as Hopt.
  split; [done|]. split; [split|].
  - cbn. by rewrite Ho.
  - apply (insert_indexed q p1 _ tx old Hq Hnewq Hh Hold); [done|]. apply Hp1.
  - done.
  - split; [split; cbn; rewrite Ho, Hopt; lia|]. split; [cbn; by rewrite Ho, Hopt|]. split; [done|].
    exists out, old. split; [cbn; by rewrite Hl, (sh_listener _ _ _ _ Hsh), <-app_assoc|].
    intros t'. change (holds (with_index _ _ _) t') with (holds p1 t'). rewrite Hp1, (shrunk_held _ _ _ _ Hsh). tauto.
Qed.

(** A transaction that was turned away. *)
Lemma import_reject p q out p1 tx e :
  pool_ok p -> within p -> shrunk p q out -> by_hash p !! hash tx = None ->
  core (max_per_sender (options q)) (transactions p1) (best_transactions p1) (worst_transactions p1) ->
  same_index q p1 -> (forall t', holds p1 t' <-> holds q t') ->
  (e = TooCheapToEnter (hash tx) \/
   exists old, e = TooCheapToReplace (hash old) (hash tx) /\ holds q old /\ sender old = sender tx /\ choose old tx = RejectNew) ->
  import_post p tx (Err (e, notify (Rejected tx) p1)).
Proof.
  intros Hok Hwi Hsh Hnew Hcore (Hl & Ho & Hu & Hh) Hp1 He. pose proof (sh_ok _ _ _ _ Hsh) as Hq.
  pose proof (sh_options _ _ _ _ Hsh) as Hopt. destruct (shrunk_within _ _ _ _ Hsh Hwi) as [Hwc Hwm]. cbn [import_post]. split; [split|].
  - cbn. by rewrite Ho.
  - intros k t. cbn [notify by_hash]. rewrite Hh. rewrite (ok_indexed q Hq k t). change (holds (notify _ p1) t) with (holds p1 t).
    by rewrite Hp1.
  - cbn. rewrite Hu, Hh. apply (ok_mem q Hq).
  - split; [by split; cbn; rewrite Ho, ?Hh, ?Hu|]. split; [cbn; by rewrite Ho, Hopt|]. right. split; [done|]. split.
    + destruct He as [->|(old & -> & Hold & Hc)]; [by left|right]. exists old. split; [done|]. split; [|done]. by apply Hp1.
    + exists out. split; [cbn; by rewrite Hl, (sh_listener _ _ _ _ Hsh), <-app_assoc|]. intros t'.
      change (holds (notify _ p1) t') with (holds p1 t'). by rewrite Hp1, (shrunk_held _ _ _ _ Hsh).
Qed.

Lemma same_index_refl p : same_index p p.
Proof. done. Qed.

Lemma import_ok p tx :
  pool_ok p -> within p -> options_ok (options p) -> fresh_id p tx -> import_post p tx (import p tx).
Proof.
  intros Hok Hwi Hopt Hfresh. unfold import. destruct (by_hash p !! hash tx) as [old|] eqn:Hnew.
  { rewrite bool_decide_true by eauto. cbn. split_and!; try done. left. by rewrite Hnew. }
  rewrite bool_decide_false by (by intros []).
  destruct (import_room_ok p tx Hok Hwi Hopt) as (q & out & Hsh & Hroom). cbv zeta in Hroom.
  set (fuel := S (size (by_hash p))) in *.
  destruct (make_room fuel too_many p tx) as [[[] q0]|e|]; cbn [mbind outcome_bind] in *.
  3: { destruct Hroom as [[? _]|?]; done. }
  2: { destruct Hroom as [[? _]|[= ->]]; [done|]. apply (import_reject p q out); try done; [apply Hsh|by left]. }
  destruct (make_room fuel (too_large (mem_usage tx)) q0 tx) as [[[] q1]|e|]; cbn [mbind outcome_bind] in *.
  3: { destruct Hroom as [[? _]|?]; done. }
  2: { destruct Hroom as [[? _]|[= ->]]; [done|]. apply (import_reject p q out); try done; [apply Hsh|by left]. }
  destruct Hroom as [([= ->] & Hc & Hm)|]; [|done]. pose proof (sh_ok _ _ _ _ Hsh) as Hq. pose proof (sh_options _ _ _ _ Hsh) as Hoq.
  destruct (enter_ok (E := PoolError * Pool T Score) q tx Hq) as (r & set' & -> & Hadd & Hwb & Hcore & Hsame & Hheld).
  { by rewrite Hoq. }
  { by eapply shrunk_fresh. }
  { intros t [Ht _]%(shrunk_held _ _ _ _ Hsh). by apply Hfresh. }
  cbn [mbind outcome_bind]. rewrite Hadd. cbn [mbind outcome_bind]. rewrite Hwb. cbn [mbind outcome_bind].
  destruct r as [t|t|old new|old new|old new]; cbn [held_after] in Hheld.
  - destruct Hheld as [-> Hheld]. apply (import_enter p q out); try done. intros t'. rewrite Hheld. naive_solver.
  - destruct Hheld as [-> Hheld]. apply (import_reject p q out); try done. by left.
  - destruct Hheld as (-> & Hold & Hsd & Heq & Hheld). apply (import_reject p q out); try done. right. by exists old.
  - destruct Hheld as (-> & Hold & Hheld). apply (import_enter p q out); try done; [by intros o [= <-]|].
    intros t'. rewrite Hheld. naive_solver.
  - destruct Hheld as (-> & Hold & Hheld). apply (import_enter p q out); try done; [by intros o [= <-]|].
    intros t'. rewrite Hheld. naive_solver.
Qed.
End ops.
