(* ===== verification/TxPoolCull.v ===== *)
(** * Culling the transaction pool

    [cull] takes the stalled transactions at the front of the sets out, and
    nothing else. *)
From stdpp Require Import base list numbers gmap sorting.
From S2P Require Import Prelude TxPool TxPoolSets TxPoolInv TxPoolOps.

Section cull.
Context {T Score : Type} `{VerifiedTransaction T} `{!TransactionLaws T} `{ScoringLaws T Score}.
Context {R : Type} `{Ready R T}.
Implicit Types (p : Pool T Score) (t tx : T) (set : Transactions T Score).

(** ** Culling *)
Lemma finalize_mined_ok {E} l p :
  pool_mem_usage p = total (by_hash p) -> NoDup l -> (forall t, t ∈ l -> by_hash p !! hash t = Some t) ->
  (forall k t, by_hash p !! k = Some t -> hash t = k) ->
  exists u h, finalize_mined (E := E) l p = Ok (mkPool (listener p ++ (Mined <$> l)) (options p) u (transactions p) h
                                                 (best_transactions p) (worst_transactions p)) /\
    u = total h /\ u <= pool_mem_usage p /\ (size h + length l = size (by_hash p))%nat /\
    (forall k t, h !! k = Some t <-> by_hash p !! k = Some t /\ t ∉ l).
Proof.
  revert p. induction l as [|x l IH]; intros p Hm Hnd Hin Hk; cbn [finalize_mined].
  { exists (pool_mem_usage p), (by_hash p). destruct p; cbn in *. rewrite app_nil_r. split_and!; [done|done|lia|lia|set_solver]. }
  apply NoDup_cons in Hnd as [Hx Hnd]. pose proof (Hin x ltac:(set_solver)) as Hxk.
  rewrite finalize_remove_ok by done. cbn [mbind outcome_bind].
  pose proof (total_delete _ _ _ Hxk) as Htot. pose proof (mem_usage_range x).
  destruct (IH (notify (Mined x) (with_index (pool_mem_usage p - mem_usage x) (delete (hash x) (by_hash p)) p)))
    as (u & h & -> & Hu & Hule & Hsz & Hh); cbn [notify with_index pool_mem_usage by_hash listener options transactions
      best_transactions worst_transactions] in *; [lia|done| | |].
  { intros t Ht. apply lookup_delete_Some. split; [|by apply Hin; set_solver]. intros Heq.
    pose proof (Hin t ltac:(set_solver)). congruence. }
  { intros k t [_ Ht]%lookup_delete_Some. by apply Hk. }
  exists u, h. rewrite <-app_assoc. split; [done|]. split; [done|]. split; [lia|].
  split; [pose proof (size_delete _ _ _ Hxk); cbn [length]; lia|]. intros k t. rewrite Hh, lookup_delete_Some, not_elem_of_cons.
  split; [|intros (Ht & Hne & Hl); split_and!; try done]; [intros [[Hne Ht] Hl]; split_and!; try done|];
    [intros ->; apply Hk in Ht; congruence|intros <-; congruence].
Qed.

(** What [remove_stalled] takes out of a pool: the stalled front of the set, last first. *)
Definition stalled_front p s (r : R) : list T :=
  match transactions p !! s with
  | Some set => reverse (take (Z.to_nat (fst (count_stalled (txs set) r 0))) (txs set))
  | None => []
  end.

Lemma remove_stalled_ok {E} p s (r : R) :
  pool_ok p ->
  exists r' p', remove_stalled (E := E) p s r = Ok (len (stalled_front p s r), r', p') /\
    departed Mined p p' (stalled_front p s r) /\ (forall t, t ∈ stalled_front p s r -> sender t = s) /\
    (forall s', s' <> s -> transactions p' !! s' = transactions p !! s') /\
    forall set', transactions p' !! s = Some set' -> exists set, transactions p !! s = Some set /\
      txs set' = drop (Z.to_nat (fst (count_stalled (txs set) r 0))) (txs set).
Proof.
  intros Hok. unfold remove_stalled, remove_from_set, stalled_front. pose proof (ok_core p Hok) as Hcore.
  pose proof (co_keyed _ _ _ _ Hcore) as Hkey. destruct (transactions p !! s) as [set|] eqn:Hset; cbn [mbind outcome_bind].
  2: { exists r, p. split; [done|]. split; [by apply shrunk_refl|]. split; [set_solver|]. split; [done|congruence]. }
  set (max := max_per_sender (options p)) in *. destruct (co_sets _ _ _ _ Hcore s set Hset) as [Hsok _].
  rewrite (worst_and_best_ok max) by done. cbn [mbind outcome_bind].
  pose proof (set_cull_ok (E := E) max set r Hsok) as Hcull. cbv zeta in Hcull.
  set (k := Z.to_nat (fst (count_stalled (txs set) r 0))) in *. destruct Hcull as (r' & set' & -> & Htxs & Hok').
  cbn [mbind outcome_bind]. rewrite (worst_and_best_ok max) by done. cbn [mbind outcome_bind].
  assert (Hsub : forall t, t ∈ txs set' -> t ∈ txs set).
  { intros t Ht. rewrite <-(take_drop k (txs set)), <-Htxs. set_solver. }
  destruct (update_senders_ok max p s set') as (Hcore' & Hput & (Hl & Ho & Hm & Hh)); try done.
  { intros t Ht. apply (Hkey s set); auto. }
  { intros t1 t2 Ht1 Ht2. apply (co_distinct _ _ _ _ Hcore).
    - destruct Ht1; [done|]. exists s, set. auto.
    - destruct Ht2; [done|]. exists s, set. auto. }
  rewrite Hset in *. cbn [mbind option_bind] in *. set (p1 := update_senders_worst_and_best _ _ _) in *. clearbody p1.
  pose proof (ordered_NoDup _ (so_ordered _ _ Hsok)) as Hnd. rewrite <-(take_drop k (txs set)) in Hnd.
  apply NoDup_app in Hnd as (Hnd1 & Hdis & _). set (out := reverse (take k (txs set))).
  assert (Hout : forall t, t ∈ out <-> t ∈ take k (txs set)) by (intros; unfold out; by rewrite elem_of_reverse).
  assert (Hin : forall t, t ∈ txs set <-> t ∈ out \/ t ∈ txs set').
  { intros t. rewrite Hout, Htxs, <-elem_of_app, take_drop. done. }
  assert (Hheld : forall t, holds p1 t <-> holds p t /\ t ∉ out).
  { intros t. unfold holds at 1. rewrite Hput, in_put_set by done. split.
    - intros [[Ht Hs]|Ht].
      + split; [done|]. intros Hto. apply Hs, (Hkey s set); [done|]. apply Hin. by left.
      + split; [exists s, set; split; [done|by apply Hsub]|]. rewrite Hout. intros Ht1. rewrite Htxs in Ht. by apply (Hdis t).
    - intros [(s1 & set1 & Hm1 & Ht) Hno]. destruct (decide (s1 = s)) as [->|Hne].
      + right. rewrite Hset in Hm1. injection Hm1 as <-. apply Hin in Ht. tauto.
      + left. split; [by exists s1, set1|]. by rewrite (Hkey s1 set1 t). }
  assert (Hoh : forall t, t ∈ out -> holds p t) by (intros t Ht; exists s, set; split; [done|apply Hin; by left]).
  destruct (finalize_mined_ok (E := E) out p1) as (u & h & -> & Hu & Hule & Hsz & Hhh); rewrite ?Hm, ?Hh.
  { apply (ok_mem p Hok). }
  { unfold out. by rewrite reverse_Permutation. }
  { intros t Ht. by apply holds_indexed, Hoh. }
  { intros k' t Ht. by apply (ok_indexed p Hok) in Ht as [? _]. }
  cbn [mbind outcome_bind]. rewrite Hm, Hh in *. eexists _, _. split; [reflexivity|]. split.
  - split; cbn [options listener by_hash pool_mem_usage]; rewrite ?Hl; try done.
    + split; cbn; [by rewrite Ho| |done]. intros k' t. change (holds (mkPool _ _ _ _ _ _ _) t) with (holds p1 t).
      cbn [by_hash]. rewrite Hhh, Hheld, (ok_indexed p Hok k' t). tauto.
    + intros t. change (holds (mkPool _ _ _ _ _ _ _) t) with (holds p1 t). rewrite Hheld.
      destruct (decide (Forall (fun t' => hash t' <> hash t) out)) as [Hall|Hex].
      * rewrite Forall_forall in Hall. split; [|naive_solver]. intros Ht. left. split; [done|]. intros Hto. by apply (Hall t Hto).
      * apply not_Forall_Exists in Hex; [|apply _]. apply Exists_exists in Hex as (t' & Ht' & Heq). split; [|naive_solver].
        intros Ht. right. assert (hash t' = hash t) as Heq' by (destruct (decide (hash t' = hash t)); naive_solver).
        pose proof (holds_indexed p t Hok Ht). pose proof (holds_indexed p t' Hok (Hoh t' Ht')). congruence.
    + intros t Ht. change (holds (mkPool _ _ _ _ _ _ _) t) with (holds p1 t). rewrite Hheld. tauto.
  - split; [intros t Ht; apply (Hkey s set); [done|]; apply Hin; by left|]. cbn [transactions]. rewrite Hput. unfold put_set. split.
    + intros s' Hs'. destruct (txs set'); [by rewrite lookup_delete_ne|by rewrite lookup_insert_ne].
    + intros set1 Hs1. exists set. split; [done|]. destruct (txs set') eqn:Hemp; [by rewrite lookup_delete_eq in Hs1|].
      rewrite lookup_insert_eq in Hs1. injection Hs1 as <-. by rewrite Hemp.
Qed.

Lemma cull_senders_ok {E} senders p (r : R) n :
  pool_ok p -> 0 <= n -> n + Z.of_nat (size (by_hash p)) < 2 ^ 64 ->
  exists out p', cull_senders (E := E) senders r n p = Ok (n + len out, p') /\ departed Mined p p' out /\
    (forall t, t ∈ out -> sender t ∈ senders).
Proof.
  revert p r n. induction senders as [|s senders IH]; intros p r n Hok Hn Hlt; cbn [cull_senders].
  { exists [], p. rewrite len_nil, Z.add_0_r. split; [done|]. split; [by apply shrunk_refl|set_solver]. }
  destruct (remove_stalled_ok (E := E) p s r Hok) as (r' & p1 & -> & Hd & Hs & _). set (out := stalled_front p s r) in *.
  cbn [mbind outcome_bind]. pose proof (sh_size _ _ _ _ Hd) as Hsz. pose proof (len_nonneg out).
  rewrite add_chk_ok by (unfold len; lia). cbn [mbind outcome_bind].
  destruct (IH p1 r' (n + len out)) as (out' & p2 & -> & Hd' & Hs'); [apply Hd|lia|unfold len; lia|].
  exists (out ++ out'), p2. rewrite len_app, Z.add_assoc. split; [done|]. split; [by eapply shrunk_trans|].
  intros t [Ht%Hs|Ht%Hs']%elem_of_app; set_solver.
Qed.
End cull.

(** ** A readiness without state *)
Definition fn_ready {T} (f : T -> Readiness) : Ready unit T := {| is_ready r t := (f t, r) |}.

Section stateless.
Context {T Score : Type} `{VerifiedTransaction T} `{!TransactionLaws T} `{ScoringLaws T Score} (f : T -> Readiness).
Implicit Types (p : Pool T Score).


Lemma count_stalled_front l n :
  let k := Z.to_nat (fst (count_stalled (H1 := fn_ready f) l tt n) - n) in
  n <= fst (count_stalled (H1 := fn_ready f) l tt n) /\
  Forall (fun t => f t = Stalled) (take k l) /\ (forall t, drop k l !! 0%nat = Some t -> f t <> Stalled).
Proof.
  revert n. induction l as [|x l IH]; intros n; cbn [count_stalled is_ready fn_ready].
  { cbn [fst]. split; [lia|]. split; [by rewrite take_nil|]. intros t. by rewrite drop_nil. }
  destruct (f x) eqn:Hx; cbn [fst].
  2,3: (rewrite Z.sub_diag; split; [lia|]; split; [constructor|]; intros t [= <-]; congruence).
  destruct (IH (n + 1)) as (Hn & Hst & Hhd). split; [lia|].
  replace (Z.to_nat (fst (count_stalled (H1 := fn_ready f) l tt (n + 1)) - n)) with
    (S (Z.to_nat (fst (count_stalled (H1 := fn_ready f) l tt (n + 1)) - (n + 1)))) by lia.
  cbn [take drop]. split; [by constructor|done].
Qed.

(** Only stalled transactions leave, and no culled sender starts with one. *)
Lemma cull_stateless {E} senders p n :
  pool_ok p -> 0 <= n -> n + Z.of_nat (size (by_hash p)) < 2 ^ 64 ->
  exists out p', cull_senders (H1 := fn_ready f) (E := E) senders tt n p = Ok (n + len out, p') /\ departed Mined p p' out /\
    (forall t, t ∈ out -> sender t ∈ senders /\ f t = Stalled) /\
    (forall s, s ∉ senders -> transactions p' !! s = transactions p !! s) /\
    (forall s set t, s ∈ senders -> transactions p' !! s = Some set -> txs set !! 0%nat = Some t -> f t <> Stalled).
Proof.
  revert p n. induction senders as [|s senders IH]; intros p n Hok Hn Hlt; cbn [cull_senders].
  { exists [], p. rewrite len_nil, Z.add_0_r. split; [done|]. split; [by apply shrunk_refl|]. split; [set_solver|].
    split; [done|]. intros s set t Hs. by apply not_elem_of_nil in Hs. }
  destruct (remove_stalled_ok (H2 := fn_ready f) (E := E) p s tt Hok) as ([] & p1 & -> & Hd & Hs & Hother & Hself).
  set (out := stalled_front p s tt) in *. cbn [mbind outcome_bind]. pose proof (sh_size _ _ _ _ Hd) as Hsz.
  pose proof (len_nonneg out). rewrite add_chk_ok by (unfold len; lia). cbn [mbind outcome_bind].
  destruct (IH p1 (n + len out)) as (out' & p2 & -> & Hd' & Hs' & Hother' & Hfront'); [apply Hd|lia|unfold len; lia|].
  exists (out ++ out'), p2. rewrite len_app, Z.add_assoc. split; [done|]. split; [by eapply shrunk_trans|]. split_and!.
  - intros t [Ht|Ht]%elem_of_app; [|destruct (Hs' t Ht); set_solver]. rewrite (Hs t Ht). split; [set_solver|].
    unfold out, stalled_front in Ht. destruct (transactions p !! s) as [set|]; [|by apply not_elem_of_nil in Ht].
    rewrite elem_of_reverse in Ht. destruct (count_stalled_front (txs set) 0) as (_ & Hst & _). rewrite Z.sub_0_r in Hst.
    rewrite Forall_forall in Hst. by apply Hst.
  - intros s' [Hne Hni]%not_elem_of_cons. by rewrite Hother', Hother.
  - intros s' set t Hin Hset Ht. destruct (decide (s' ∈ senders)) as [Hi|Hni]; [by apply (Hfront' s' set)|].
    apply elem_of_cons in Hin as [->|]; [|done]. rewrite Hother' in Hset by done.
    destruct (Hself set Hset) as (set0 & _ & Htx). rewrite Htx in Ht.
    destruct (count_stalled_front (txs set0) 0) as (_ & _ & Hhd). rewrite Z.sub_0_r in Hhd. by apply Hhd.
Qed.
End stateless.
