(* ===== verification/TxPoolPending.v ===== *)
(** * The pending transactions

    The iterator of [pending] merges the sets of all senders by score.  At every
    point the transactions it has yielded for a sender are the first ones of the
    sender's set, and its candidate for that sender, if any, is the next. *)
From stdpp Require Import base list numbers gmap sorting.
From S2P Require Import Prelude TxPool TxPoolSets TxPoolInv TxPoolOps.

Section pending.
Context {T Score : Type} `{VerifiedTransaction T} `{!TransactionLaws T} `{ScoringLaws T Score}.
Context {R : Type} `{Ready R T}.
Implicit Types (p : Pool T Score) (t tx : T) (set : Transactions T Score) (B : list (ScoreWithRef T Score)).

(** The transactions of [s] among [l]. *)
Definition from (s : Sender) (l : list T) : list T := filter (fun t => sender t = s) l.

Record iter_ok p (Y : list T) B : Prop := {
  it_yielded t : t ∈ Y -> holds p t;
  it_NoDup : NoDup Y;
  it_sorted : StronglySorted swr_lt B;
  it_once : NoDup (transaction <$> B);
  it_held b : b ∈ B -> holds p (transaction b);
  it_prefix s set : transactions p !! s = Some set -> exists k,
    from s Y = take k (txs set) /\ (k <= length (txs set))%nat /\
    forall b, b ∈ B -> sender (transaction b) = s -> txs set !! k = Some (transaction b);
}.

(** No sender is blocked: every unfinished sender has a candidate. *)
Definition unblocked p (Y : list T) B : Prop :=
  forall s set t, transactions p !! s = Some set -> txs set !! length (from s Y) = Some t -> t ∈ transaction <$> B.

Lemma ends_head set w b : ends set = Some (w, b) -> txs set !! 0%nat = Some (transaction b).
Proof. unfold ends. destruct (scores set), (txs set); try done. by intros [= _ <-]. Qed.

Lemma best_unique p b1 b2 :
  pool_ok p -> b1 ∈ best_transactions p -> b2 ∈ best_transactions p -> transaction b1 = transaction b2 -> b1 = b2.
Proof.
  intros Hok. pose proof (ok_core p Hok) as Hcore. destruct (co_best _ _ _ _ Hcore) as [_ Hb].
  intros (s1 & set1 & [w1 e1] & Hm1 & He1 & <-)%Hb (s2 & set2 & [w2 e2] & Hm2 & He2 & <-)%Hb Heq.
  pose proof (co_keyed _ _ _ _ Hcore s1 set1 (transaction e1) Hm1 (proj2 (ends_in _ _ _ He1))) as Hs1.
  pose proof (co_keyed _ _ _ _ Hcore s2 set2 (transaction e2) Hm2 (proj2 (ends_in _ _ _ He2))) as Hs2.
  cbn [snd] in *. rewrite Heq in Hs1. assert (s1 = s2) as -> by congruence. congruence.
Qed.

Lemma sorted_NoDup B : StronglySorted swr_lt B -> NoDup B.
Proof.
  induction 1 as [|x B HB IH Hx]; [constructor|]. constructor; [|done]. intros Hin. rewrite Forall_forall in Hx.
  specialize (Hx x Hin). unfold swr_lt in Hx. by rewrite (proj2 (swr_cmp_eq x x)) in Hx.
Qed.

Lemma NoDup_fmap_on {A C : Type} (f : A -> C) (l : list A) :
  NoDup l -> (forall x y, x ∈ l -> y ∈ l -> f x = f y -> x = y) -> NoDup (f <$> l).
Proof.
  induction 1 as [|x l Hx Hl IH]; intros Hinj; [constructor|]. cbn. constructor.
  - intros (y & Heq & Hy)%list_elem_of_fmap. apply Hx. rewrite (Hinj x y); set_solver.
  - apply IH. intros. apply Hinj; set_solver.
Qed.

Lemma iter_start p : pool_ok p -> iter_ok p [] (best_transactions p) /\ unblocked p [] (best_transactions p).
Proof.
  intros Hok. pose proof (ok_core p Hok) as Hcore. destruct (co_best _ _ _ _ Hcore) as [Hs Hb].
  pose proof (co_keyed _ _ _ _ Hcore) as Hkey. split; [split|].
  - set_solver.
  - constructor.
  - done.
  - apply NoDup_fmap_on; [by apply sorted_NoDup|]. intros. by apply (best_unique p).
  - intros b (s & set & [w e] & Hm & He & <-)%Hb. exists s, set. split; [done|]. by apply (ends_in set w e).
  - intros s set Hm. exists 0%nat. split; [done|]. split; [lia|]. intros b (s1 & set1 & [w e] & Hm1 & He & <-)%Hb Hsb.
    cbn [snd] in *. rewrite (Hkey s1 set1 (transaction e) Hm1 (proj2 (ends_in _ _ _ He))) in Hsb. subst s1.
    rewrite Hm in Hm1. injection Hm1 as <-. by apply (ends_head set w).
  - intros s set t Hm Ht. destruct (co_sets _ _ _ _ Hcore s set Hm) as [Hsok Hne].
    destruct (ends set) as [[w e]|] eqn:He; [|by apply (ends_None (max_per_sender (options p))) in He].
    apply list_elem_of_fmap. exists e. split; [|apply Hb; by exists s, set, (w, e)].
    pose proof (ends_head set w e He) as Hh. cbn in Ht. congruence.
Qed.

(** The successor of the transaction at a position. *)
Lemma find_next_ok {E} max set tx k :
  set_ok max set -> txs set !! k = Some tx ->
  exists next, find_next (E := E) set tx = Ok next /\ txs set !! S k = transaction <$> next.
Proof.
  intros Hok Hk. unfold find_next. destruct (search_spec max set tx Hok) as (pre & suf & Heq & Hi & Hpre & Hcase).
  pose proof Hok as [Hs Ho _]. assert (Hin : tx ∈ txs set) by (by eapply list_elem_of_lookup_2).
  destruct (search set tx) as [found i]. cbn [fst snd] in *. subst i. destruct found.
  2: { assert (before tx tx) as Hlt by (rewrite Heq in Hin; apply elem_of_app in Hin as [Hin|Hin]; auto).
       unfold before in Hlt. by rewrite compare_self in Hlt. }
  destruct Hcase as (x & suf' & -> & Hx & _).
  assert (x = tx) as -> by (apply (ordered_slot (txs set)); [done|rewrite Heq; set_solver|done|done]).
  assert (k = length pre) as ->.
  { apply (NoDup_lookup (txs set) k (length pre) tx); [by apply ordered_NoDup|done|]. rewrite Heq. by rewrite lookup_app_r, Nat.sub_diag. }
  rewrite (len_eq _ _ Hs), Heq, len_app, len_cons. destruct suf' as [|y suf'].
  - change (len (@nil T)) with 0. rewrite (proj2 (Z.ltb_ge _ _)) by lia. exists None. split; [done|]. cbn.
    apply lookup_ge_None_2. rewrite length_app. cbn. lia.
  - rewrite len_cons. pose proof (len_nonneg suf'). rewrite (proj2 (Z.ltb_lt _ _)) by lia.
    assert (Hy : txs set !! S (length pre) = Some y) by (rewrite Heq, lookup_app_r by lia; by rewrite Nat.sub_succ_l, Nat.sub_diag by lia).
    destruct (lookup_lt_is_Some_2 (scores set) (S (length pre))) as [z Hz].
    { rewrite Hs, Heq, length_app. cbn. lia. }
    rewrite <-Heq. rewrite (index_ok (scores set) _ z), (index_ok (txs set) _ y);
      try (unfold len; lia); try (replace (Z.to_nat (len pre + 1)) with (S (length pre)) by (unfold len; lia); done).
    exists (Some (mkScoreWithRef z y)). split; [done|]. by rewrite Hy.
Qed.

(** ** One step of the iterator *)
Lemma iter_drop p Y b B : iter_ok p Y (b :: B) -> iter_ok p Y B.
Proof.
  intros [Hy Hnd Hs Ho Hh Hp]. split; [done|done|by apply StronglySorted_cons in Hs as [_ ?]| | |].
  - cbn in Ho. by apply NoDup_cons in Ho as [_ ?].
  - intros b' Hb'. apply Hh. set_solver.
  - intros s set Hm. destruct (Hp s set Hm) as (k & Hk & Hl & Hb). exists k. split; [done|]. split; [done|].
    intros b' Hb'. apply Hb. set_solver.
Qed.

Lemma bset_insert_perm (x : ScoreWithRef T Score) B :
  (forall y, y ∈ B -> swr_cmp x y <> Eq) -> bset_insert x B ≡ₚ x :: B.
Proof.
  induction B as [|y B IH]; intros Hne; cbn [bset_insert]; [done|].
  pose proof (Hne y ltac:(set_solver)). destruct (swr_cmp x y); [done|done|].
  rewrite IH by set_solver. apply Permutation_swap.
Qed.

Lemma from_snoc s Y t : from s (Y ++ [t]) = if decide (sender t = s) then from s Y ++ [t] else from s Y.
Proof.
  unfold from. rewrite filter_app. destruct (decide (sender t = s)).
  - by rewrite filter_cons_True.
  - by rewrite filter_cons_False, filter_nil, app_nil_r.
Qed.

(** The candidates after the one in front was yielded. *)
Definition refill (next : option (ScoreWithRef T Score)) B : list (ScoreWithRef T Score) :=
  match next with Some x => bset_insert x B | None => B end.

(** The candidate [b] in front is the [k]-th transaction of its sender. *)
Record yielding p (Y : list T) (b : ScoreWithRef T Score) B set (next : option (ScoreWithRef T Score)) (k : nat) : Prop := {
  yi_ok : pool_ok p;
  yi_iter : iter_ok p Y (b :: B);
  yi_set : transactions p !! sender (transaction b) = Some set;
  yi_from : from (sender (transaction b)) Y = take k (txs set);
  yi_at : txs set !! k = Some (transaction b);
  yi_others b' : b' ∈ b :: B -> sender (transaction b') = sender (transaction b) -> txs set !! k = Some (transaction b');
  yi_next : txs set !! S k = transaction <$> next;
}.

Lemma yield_alone p Y b B set next k b' :
  yielding p Y b B set next k -> b' ∈ B -> sender (transaction b') <> sender (transaction b).
Proof.
  intros [Hok Hit Hset Hk Hb Hothers Hnext] Hb' Hs. pose proof (Hothers b' ltac:(set_solver) Hs) as Heq. pose proof (it_once _ _ _ Hit) as Ho. cbn in Ho.
  apply NoDup_cons in Ho as [Hno _]. apply Hno. apply list_elem_of_fmap. exists b'. split; [congruence|done].
Qed.

Lemma yield_next p Y b B set x k :
  yielding p Y b B set (Some x) k ->
  holds p (transaction x) /\ sender (transaction x) = sender (transaction b) /\ forall y, y ∈ B -> swr_cmp x y <> Eq.
Proof.
  intros Hyi. pose proof Hyi as [Hok Hit Hset Hk Hb Hothers Hnext]. cbn in Hnext. assert (Hin : transaction x ∈ txs set) by (by eapply list_elem_of_lookup_2).
  pose proof (ok_core p Hok) as Hcore. assert (Hh : holds p (transaction x)) by (by exists (sender (transaction b)), set).
  pose proof (co_keyed _ _ _ _ Hcore _ _ _ Hset Hin) as Hs. split; [done|]. split; [done|].
  intros y Hy [_ Hid]%swr_cmp_eq. apply (yield_alone _ _ _ _ _ _ _ y Hyi Hy). rewrite <-Hs. f_equal. symmetry.
  apply (co_distinct _ _ _ _ Hcore); [done| |by right]. apply (it_held _ _ _ Hit). set_solver.
Qed.

Lemma refill_perm p Y b B set next k :
  yielding p Y b B set next k -> refill next B ≡ₚ match next with Some x => x :: B | None => B end.
Proof. intros Hyi. destruct next as [x|]; [|done]. apply bset_insert_perm. by eapply yield_next. Qed.

Lemma yield_new p Y b B set next k : yielding p Y b B set next k -> transaction b ∉ Y.
Proof.
  intros [Hok Hit Hset Hk Hb Hothers Hnext] Hin. assert (Hf : transaction b ∈ from (sender (transaction b)) Y).
  { unfold from. by apply list_elem_of_filter. }
  rewrite Hk in Hf. apply elem_of_take in Hf as (i & Hi & Hlt).
  pose proof (co_sets _ _ _ _ (ok_core p Hok) _ _ Hset) as [Hsok _].
  assert (i = k) by (by apply (NoDup_lookup (txs set) i k (transaction b)); [apply ordered_NoDup, (so_ordered _ _ Hsok)|..]).
  lia.
Qed.

Lemma iter_yield p Y b B set next k :
  yielding p Y b B set next k -> iter_ok p (Y ++ [transaction b]) (refill next B).
Proof.
  intros Hyi. pose proof Hyi as [Hok Hit Hset Hk Hb Hothers Hnext]. pose proof (refill_perm _ _ _ _ _ _ _ Hyi) as Hrp.
  pose proof (iter_drop _ _ _ _ Hit) as [Hy Hnd Hs Ho Hh Hp]. split.
  - intros t [Ht|Ht]%elem_of_app; [by apply Hy|]. apply list_elem_of_singleton in Ht as ->. apply (it_held _ _ _ Hit). set_solver.
  - apply NoDup_app. split; [done|]. split; [|by apply NoDup_singleton]. intros t Ht ->%list_elem_of_singleton.
    by apply (yield_new _ _ _ _ _ _ _ Hyi).
  - destruct next as [x|]; [|done]. apply bset_insert_ok; [done|]. by eapply yield_next.
  - rewrite Hrp. destruct next as [x|]; [|done]. cbn. apply NoDup_cons. split; [|done].
    intros (y & Heq & Hyb)%list_elem_of_fmap. destruct (yield_next _ _ _ _ _ _ _ Hyi) as (_ & Hsx & _).
    apply (yield_alone _ _ _ _ _ _ _ y Hyi Hyb). congruence.
  - intros b'. rewrite Hrp. destruct next as [x|]; [|by apply Hh].
    intros [->|Hb']%elem_of_cons; [by eapply yield_next|by apply Hh].
  - intros s set1 Hm. rewrite from_snoc. destruct (decide (sender (transaction b) = s)) as [<-|Hne].
    + rewrite Hset in Hm. injection Hm as <-. exists (S k). rewrite Hk. split; [by rewrite (take_S_r _ _ _ Hb)|].
      split; [apply lookup_lt_Some in Hb; lia|]. intros b'. rewrite Hrp, Hnext.
      destruct next as [x|]; [|intros Hb' Hsb; by apply (yield_alone _ _ _ _ _ _ _ b' Hyi) in Hb'].
      intros [->|Hb']%elem_of_cons Hsb; [done|by apply (yield_alone _ _ _ _ _ _ _ b' Hyi) in Hb'].
    + destruct (Hp s set1 Hm) as (k1 & Hk1 & Hl1 & Hb1). exists k1. split; [done|]. split; [done|]. intros b'. rewrite Hrp.
      destruct next as [x|]; [|by apply Hb1]. intros [->|Hb']%elem_of_cons Hsb; [|by apply Hb1].
      destruct (yield_next _ _ _ _ _ _ _ Hyi) as (_ & Hsx & _). congruence.
Qed.

Lemma unblocked_yield p Y b B set next k :
  yielding p Y b B set next k -> unblocked p Y (b :: B) -> unblocked p (Y ++ [transaction b]) (refill next B).
Proof.
  intros Hyi Hu s set1 t Hm. pose proof Hyi as [Hok Hit Hset Hk Hb Hothers Hnext].
  rewrite from_snoc, (refill_perm _ _ _ _ _ _ _ Hyi). destruct (decide (sender (transaction b) = s)) as [<-|Hne].
  - rewrite Hset in Hm. injection Hm as <-. rewrite Hk, length_app, length_take. cbn [length].
    apply lookup_lt_Some in Hb as Hlt. replace (k `min` length (txs set) + 1)%nat with (S k) by lia. rewrite Hnext.
    destruct next as [x|]; [|done]. cbn. intros [= <-]. set_solver.
  - intros Ht. pose proof (Hu s set1 t Hm Ht) as Hin. cbn in Hin. apply elem_of_cons in Hin as [->|Hin].
    + exfalso. apply Hne. apply (co_keyed _ _ _ _ (ok_core p Hok) s set1); [done|]. by eapply list_elem_of_lookup_2.
    + destruct next; cbn; [by right|done].
Qed.

(** ** The whole iteration *)
Definition always_ready : Prop := forall (r : R) (t : T), fst (is_ready r t) = IsReady.

Lemma pending_next_ok {E} p (r : R) Y B :
  pool_ok p -> iter_ok p Y B ->
  exists x it, pending_next (E := E) p r B = Ok (x, it) /\
    match x with Some t => iter_ok p (Y ++ [t]) (pi_best it) | None => True end /\
    (always_ready -> unblocked p Y B ->
     match x with Some t => unblocked p (Y ++ [t]) (pi_best it) | None => B = [] end).
Proof.
  intros Hok. revert r. induction B as [|b B IH]; intros r Hit; cbn [pending_next]; [by eexists None, _|].
  destruct (is_ready r (transaction b)) as [rd r'] eqn:Hr. destruct rd.
  1,3: (destruct (IH r' (iter_drop _ _ _ _ Hit)) as (x & it & Hnext & Hx & _); exists x, it;
        split; [done|]; split; [done|]; intros Hall; specialize (Hall r (transaction b)); by rewrite Hr in Hall).
  pose proof (it_held _ _ _ Hit b ltac:(set_solver)) as (s & set & Hset & Hin).
  pose proof (co_keyed _ _ _ _ (ok_core p Hok) s set _ Hset Hin) as <-.
  destruct (it_prefix _ _ _ Hit _ _ Hset) as (k & Hk & _ & Hb).
  pose proof (co_sets _ _ _ _ (ok_core p Hok) _ _ Hset) as [Hsok _].
  destruct (find_next_ok (E := E) _ set (transaction b) k Hsok (Hb b ltac:(set_solver) eq_refl)) as (next & Hfn & Hnx).
  rewrite Hset, Hfn. cbn [mbind outcome_bind].
  assert (Hyi : yielding p Y b B set next k) by (split; try done; by apply Hb; [set_solver|]).
  eexists _, _. split; [reflexivity|]. cbn [pi_best]. split; [exact (iter_yield _ _ _ _ _ _ _ Hyi)|].
  intros _. exact (unblocked_yield _ _ _ _ _ _ _ Hyi).
Qed.

Lemma yielded_size p Y B : pool_ok p -> iter_ok p Y B -> (length Y <= size (by_hash p))%nat.
Proof.
  intros Hok Hit. rewrite <-length_map_to_list, <-(length_fmap snd). apply submseteq_length, NoDup_submseteq.
  - apply (it_NoDup _ _ _ Hit).
  - intros t Ht%(it_yielded _ _ _ Hit). apply list_elem_of_fmap. exists (hash t, t). split; [done|].
    apply elem_of_map_to_list. by apply holds_indexed.
Qed.

(** Everything the iterator yields, in the order of each sender. *)
Record yields p (l : list T) : Prop := {
  ys_NoDup : NoDup l;
  ys_held t : t ∈ l -> holds p t;
  ys_prefix s set : transactions p !! s = Some set -> from s l `prefix_of` txs set;
}.

Lemma iter_yields p Y B : iter_ok p Y B -> yields p Y.
Proof.
  intros [Hy Hnd _ _ _ Hp]. split; [done|done|]. intros s set Hm. destruct (Hp s set Hm) as (k & -> & _).
  apply prefix_take.
Qed.

(** An exhausted iterator that was never blocked has yielded everything. *)
Lemma unblocked_done p Y : pool_ok p -> iter_ok p Y [] -> unblocked p Y [] -> forall t, holds p t -> t ∈ Y.
Proof.
  intros Hok Hit Hu t (s & set & Hm & Hin). destruct (it_prefix _ _ _ Hit s set Hm) as (k & Hk & Hle & _).
  destruct (txs set !! k) as [t'|] eqn:Hkt.
  - exfalso. specialize (Hu s set t' Hm). rewrite Hk, length_take in Hu.
    replace (k `min` length (txs set))%nat with k in Hu by lia. specialize (Hu Hkt). cbn in Hu. by apply not_elem_of_nil in Hu.
  - apply lookup_ge_None in Hkt. rewrite take_ge in Hk by done. rewrite <-Hk in Hin. unfold from in Hin.
    by apply list_elem_of_filter in Hin as [_ ?].
Qed.

Lemma pending_all_ok {E} fuel p (r : R) Y B :
  pool_ok p -> iter_ok p Y B -> (size (by_hash p) < fuel + length Y)%nat ->
  exists l, pending_all (E := E) fuel p (mkPending r B) = Ok l /\ yields p (Y ++ l) /\
    (always_ready -> unblocked p Y B -> forall t, holds p t -> t ∈ Y ++ l).
Proof.
  intros Hok. revert r Y B. induction fuel as [|fuel IH]; intros r Y B Hit Hf.
  { pose proof (yielded_size p Y B Hok Hit). lia. }
  cbn [pending_all pi_ready pi_best].
  destruct (pending_next_ok (E := E) p r Y B Hok Hit) as (x & [r' B'] & -> & Hx & Hu). cbn [mbind outcome_bind].
  destruct x as [t|].
  - destruct (IH r' (Y ++ [t]) B' Hx) as (l & -> & Hl & Hall); [rewrite length_app; cbn; lia|]. cbn [mbind outcome_bind].
    exists (t :: l). rewrite <-app_assoc in *. split; [done|]. split; [done|]. auto.
  - exists []. rewrite app_nil_r. split; [done|]. split; [by eapply iter_yields|]. intros Har Hub.
    pose proof (Hu Har Hub) as ->. by apply unblocked_done.
Qed.
End pending.

(** ** The status *)
Section status.
Context {T Score : Type} `{VerifiedTransaction T} `{!TransactionLaws T} `{ScoringLaws T Score}.
Context {R : Type} `{Ready R T}.
Implicit Types (p : Pool T Score) (t : T).

Definition counted (st : Status) : Z := st_stalled st + st_pending st + st_future st.

Lemma set_status_counted (l : list T) idx n (r : R) st :
  n = idx + len l -> counted (fst (set_status l idx n r st)) = counted st + len l.
Proof.
  revert idx r st. induction l as [|t l IH]; intros idx r st Hn; cbn [set_status]; [by rewrite len_nil, Z.add_0_r|].
  rewrite len_cons in *. destruct (is_ready r t) as [[] r']; [rewrite IH by lia..|]; unfold counted; cbn; lia.
Qed.

Definition all_txs (l : list (Z * Transactions T Score)) : list T := l ≫= fun x => txs (snd x).

Lemma status_fold_counted (l : list (Z * Transactions T Score)) st (r : R) :
  counted (fst (fold_left (fun '(st, r) '(_, set) => set_status (txs set) 0 (set_len set) r st) l (st, r))) =
  counted st + len (all_txs l).
Proof.
  revert st r. induction l as [|[s set] l IH]; intros st r; [cbn [fold_left fst]; change (len (all_txs [])) with 0; lia|].
  cbn [fold_left]. pose proof (set_status_counted (txs set) 0 (set_len set) r st eq_refl) as Hc.
  destruct (set_status _ _ _ _ _) as [st' r']. rewrite IH. cbn [fst] in Hc. rewrite Hc.
  change (all_txs ((s, set) :: l)) with (txs set ++ all_txs l). rewrite len_app. lia.
Qed.

Lemma all_txs_NoDup p : pool_ok p -> NoDup (all_txs (map_to_list (transactions p))).
Proof.
  intros Hok. pose proof (ok_core p Hok) as Hcore. pose proof (NoDup_fst_map_to_list (transactions p)) as Hnd.
  assert (Hin : forall s set, (s, set) ∈ map_to_list (transactions p) -> transactions p !! s = Some set).
  { intros s set. apply elem_of_map_to_list. }
  induction (map_to_list (transactions p)) as [|[s set] l IH]; [constructor|].
  change (all_txs ((s, set) :: l)) with (txs set ++ all_txs l). cbn [fmap list_fmap fst] in Hnd.
  apply NoDup_cons in Hnd as [Hs Hnd]. apply NoDup_app. split_and!.
  - apply ordered_NoDup. apply (co_sets _ _ _ _ Hcore s set). apply Hin. by left.
  - intros t Ht ([s' set'] & Ht' & Hl)%list_elem_of_bind. apply Hs, list_elem_of_fmap. exists (s', set'). split; [|done].
    pose proof (co_keyed _ _ _ _ Hcore) as Hkey. cbn [fst snd] in *.
    rewrite <-(Hkey s set t) by (done || apply Hin; by left). apply (Hkey s' set' t); [apply Hin; by right|done].
  - apply IH; [done|]. intros. apply Hin. by right.
Qed.

Lemma all_txs_size p : pool_ok p -> len (all_txs (map_to_list (transactions p))) = Z.of_nat (size (by_hash p)).
Proof.
  intros Hok. unfold len. f_equal. rewrite <-length_map_to_list, <-(length_fmap snd). apply Permutation_length, NoDup_Permutation.
  - by apply all_txs_NoDup.
  - apply NoDup_fmap_on; [apply NoDup_map_to_list|].
    intros [k t] [k' t'] Hk%elem_of_map_to_list Hk'%elem_of_map_to_list Heq. cbn in Heq. subst t'.
    apply (ok_indexed p Hok) in Hk as [<- _]. by apply (ok_indexed p Hok) in Hk' as [<- _].
  - intros t. unfold all_txs. rewrite list_elem_of_bind, list_elem_of_fmap. split.
    + intros ([s set] & Ht & Hm%elem_of_map_to_list). exists (hash t, t). split; [done|].
      apply elem_of_map_to_list, (ok_indexed p Hok). split; [done|]. by exists s, set.
    + intros ([k t'] & -> & Hk%elem_of_map_to_list). apply (ok_indexed p Hok) in Hk as [_ (s & set & Hm & Ht)].
      exists (s, set). split; [done|]. by apply elem_of_map_to_list.
Qed.
End status.
