(* ===== verification/TxPoolTheorems.v ===== *)
(** * The transaction pool: its properties

    For every scoring that satisfies [ScoringLaws]: the pool's indexes stay
    consistent and within the limits under every sequence of operations, each
    operation has exactly the announced effect, and the pending iterator is
    fair.  The examples use the scoring of the crate's own tests. *)
From stdpp Require Import base list numbers gmap sorting.
From S2P Require Import Prelude TxPool TxPoolSets TxPoolInv TxPoolOps TxPoolCull TxPoolPending.

(** ** The tests' transactions and scoring ([tests/mod.rs], [tests/helpers.rs]) *)
Record TestTx := mkTestTx {
  tt_hash : Z; tt_nonce : Z; tt_gas_price : Z; tt_sender : Z; tt_insertion_id : Z; tt_mem_usage : Z;
  tt_mem_ok : (0 <=? tt_mem_usage) && (tt_mem_usage <? 2 ^ 63) = true;
}.

#[global] Instance TestTx_verified : VerifiedTransaction TestTx :=
  {| hash := tt_hash; mem_usage := tt_mem_usage; sender := tt_sender; insertion_id := tt_insertion_id |}.

#[global] Instance TestTx_laws : TransactionLaws TestTx.
Proof. split. intros [? ? ? ? ? m Hm]. cbn. apply andb_prop in Hm as [?%Z.leb_le ?%Z.ltb_lt]. lia. Defined.

#[global] Instance DummyScoring : Scoring TestTx Z := {|
  score_cmp := Z.compare;
  score_default := 0;
  compare old new := (tt_nonce old ?= tt_nonce new);
  choose old new :=
    if tt_nonce old =? tt_nonce new then
      if tt_gas_price old <? tt_gas_price new then ReplaceOld else RejectNew
    else InsertNew;
  update_scores txs scores _ := (tt_gas_price <$> take (length scores) txs) ++ drop (length txs) scores;
  should_replace old new := (tt_gas_price old <? tt_gas_price new);
|}.

#[global] Instance DummyScoring_laws : ScoringLaws TestTx Z.
Proof.
  split; cbn [score_cmp compare choose update_scores DummyScoring]; intros.
  - apply Z.compare_eq_iff.
  - by rewrite Z.compare_antisym.
  - rewrite Z.compare_lt_iff in *. lia.
  - by rewrite Z.compare_antisym.
  - rewrite Z.compare_lt_iff in *. lia.
  - by match goal with H : (_ ?= _) = Eq |- _ => apply Z.compare_eq in H as -> end.
  - match goal with H : (_ ?= _) = Eq |- _ => apply Z.compare_eq in H as -> end. rewrite Z.eqb_refl. by case_match.
  - rewrite length_app, length_fmap, length_take, length_drop. lia.
Defined.

Definition test_options : Options := mkOptions 3 2 100.
Lemma test_options_ok : options_ok test_options.
Proof. repeat split; discriminate || reflexivity. Defined.

(** Two transactions of sender 1 and one of sender 2. *)
Definition tx_a : TestTx := mkTestTx 10 0 5 1 1 4 eq_refl.
Definition tx_b : TestTx := mkTestTx 11 1 7 1 2 4 eq_refl.
Definition tx_c : TestTx := mkTestTx 12 0 6 2 3 4 eq_refl.
Definition after {A} (o : outcome (PoolError * Pool TestTx Z) (A * Pool TestTx Z)) : Pool TestTx Z :=
  match o with Ok (_, p) => p | Err (_, p) => p | Panic => Pool_new test_options end.
Definition pool_a : Pool TestTx Z := after (import (Pool_new test_options) tx_a).

Lemma new_fresh o tx : fresh_id (Pool_new (T := TestTx) (Score := Z) o) tx.
Proof. intros t (s & set & Hs & _). cbn in Hs. by rewrite lookup_empty in Hs. Defined.

Lemma pool_a_ok : pool_ok pool_a /\ within pool_a /\ forall t, holds pool_a t -> t = tx_a.
Proof.
  destruct (pool_new_ok (T := TestTx) (Score := Z) test_options) as [Hok Hwi]; [done..|].
  pose proof (import_ok (Pool_new test_options) tx_a Hok Hwi test_options_ok (new_fresh _ _)) as Hp. unfold pool_a.
  destruct (import (Pool_new test_options) tx_a) as [[t p]|[e p]|] eqn:Hi; [|by vm_compute in Hi..].
  destruct Hp as (-> & Hok' & Hwi' & _ & _ & out & replaced & _ & Hh). cbn [after]. split; [done|]. split; [done|].
  intros t [->|((s & set & Hs & _) & _)]%Hh; [done|]. cbn in Hs. by rewrite lookup_empty in Hs.
Qed.

Lemma pool_a_fresh tx : tt_insertion_id tx <> 1 -> fresh_id pool_a tx.
Proof. intros Hid t ->%pool_a_ok Heq. by destruct Hid. Qed.

Section theorems.
Context {T Score : Type} `{VerifiedTransaction T} `{!TransactionLaws T} `{ScoringLaws T Score}.
Implicit Types (p : Pool T Score) (tx t : T).

(** C29: [Pool::import] never panics and keeps the pool consistent and within its
    limits.  On success the pool holds the new transaction and exactly the old
    ones that were neither dropped nor replaced; on an error it holds the old
    ones that were not dropped, and [TooCheapToReplace] names one of the same
    sender that the scoring preferred; the listener is told of each drop, in
    order, and of the import or rejection.  The options allow at least one
    transaction per sender (with [max_per_sender = 0] a rejected import leaves an
    empty set behind, see [rejected_sender_is_counted]), fewer than [usize::MAX]
    transactions and at most 2^63 bytes, of which no transaction takes as much;
    the new transaction's insertion identifier is not in the pool; the scoring
    meets [ScoringLaws], by which scores and the transactions of a sender are
    totally ordered and [choose] does not keep two transactions for one slot. *)
Theorem import_correct p tx :
  pool_ok p -> within p -> options_ok (options p) -> fresh_id p tx ->
  match import p tx with
  | Ok (t, p') =>
      t = tx /\ pool_ok p' /\ within p' /\ by_hash p !! hash tx = None /\
      exists out replaced, listener p' = listener p ++ (Dropped <$> out) ++ [Added tx replaced] /\
        forall t', holds p' t' <-> t' = tx \/ (holds p t' /\ ~ t' ∈ out /\ replaced <> Some t')
  | Err (e, p') =>
      pool_ok p' /\ within p' /\
      ((e = AlreadyImported (hash tx) /\ is_Some (by_hash p !! hash tx) /\ p' = p) \/
       (by_hash p !! hash tx = None /\
        (e = TooCheapToEnter (hash tx) \/
         exists old, e = TooCheapToReplace (hash old) (hash tx) /\ holds p' old /\ sender old = sender tx /\ choose old tx = RejectNew) /\
        exists out, listener p' = listener p ++ (Dropped <$> out) ++ [Rejected tx] /\
          forall t', holds p' t' <-> holds p t' /\ ~ t' ∈ out))
  | Panic => False
  end.
Proof.
  intros Hok Hwi Hopt Hfresh. pose proof (import_ok p tx Hok Hwi Hopt Hfresh) as Hp.
  destruct (import p tx) as [[t p']|[e p']|]; cbn [import_post] in Hp; [|naive_solver|done].
  destruct Hp as (? & ? & ? & _ & ? & Hrest). done.
Qed.

(** The operations of the pool as steps. *)
Inductive pool_step : Pool T Score -> Pool T Score -> Prop :=
  | step_import p tx p' t : fresh_id p tx -> import p tx = Ok (t, p') -> pool_step p p'
  | step_import_error p tx p' e : fresh_id p tx -> import p tx = Err (e, p') -> pool_step p p'
  | step_remove p h invalid b p' : remove (E := PoolError) p h invalid = Ok (b, p') -> pool_step p p'
  | step_cull (R : Type) `{Ready R T} p senders (r : R) n p' : cull (E := PoolError) p senders r = Ok (n, p') -> pool_step p p'
  | step_clear p : pool_step p (pool_clear p).

Lemma departed_within ev p p' out : departed ev p p' out -> within p -> within p'.
Proof. exact (shrunk_within ev p p' out). Qed.

Lemma clear_ok p : 0 <= max_count (options p) -> 0 <= max_mem_usage (options p) -> pool_ok (pool_clear p) /\ within (pool_clear p).
Proof.
  intros Hc Hm. destruct (pool_new_ok (T := T) (Score := Score) (options p) Hc Hm) as [[Hcore Hi Hmem] Hwi]. by split; [split|].
Qed.

Lemma step_ok p p' :
  pool_step p p' -> pool_ok p -> within p -> options_ok (options p) -> pool_ok p' /\ within p' /\ options p' = options p.
Proof.
  intros Hst Hok Hwi Hopt. destruct Hst as [p tx p' t Hf Hi|p tx p' e Hf Hi|p h invalid b p' Hr|R HR p senders r n p' Hc|p].
  - pose proof (import_ok p tx Hok Hwi Hopt Hf) as Hp. rewrite Hi in Hp. destruct Hp as (_ & ? & ? & ? & _). done.
  - pose proof (import_ok p tx Hok Hwi Hopt Hf) as Hp. rewrite Hi in Hp. destruct Hp as (? & ? & ? & _). done.
  - pose proof (remove_ok (E := PoolError) p h invalid Hok) as Hp. destruct (by_hash p !! h) as [t|] eqn:Hh; [|rewrite Hp in Hr; by injection Hr as <- <-].
    destruct Hp as (p1 & Hr1 & Hok1 & Ho1 & _ & Hbh & Hmu & _). rewrite Hr in Hr1. injection Hr1 as ? <-.
    split; [done|]. split; [|done]. destruct Hwi as [Hc Hm]. split; rewrite Ho1; [rewrite Hbh|rewrite Hmu].
    + pose proof (size_delete _ _ _ Hh). lia.
    + pose proof (mem_usage_range t). lia.
  - destruct Hwi as [Hcount Hmem]. destruct Hopt as (_ & _ & Hc64 & _).
    assert (exists l, cull_senders (E := PoolError) l r 0 p = Ok (n, p')) as [l Hl] by (destruct senders; by eexists).
    destruct (cull_senders_ok (E := PoolError) l p r 0 Hok) as (out & p1 & Hc1 & Hd & _); [lia|lia|].
    rewrite Hl in Hc1. injection Hc1 as _ <-. split; [apply Hd|]. split; [by apply (departed_within _ _ _ _ Hd)|apply Hd].
  - destruct Hopt as (_ & ? & ? & ?). destruct (clear_ok p); [lia..|done].
Qed.

(** C30: every pool that any sequence of operations reaches from an empty one is
    consistent: the sets, the index by hash, the memory counter and the ordered
    sets of best and worst transactions agree, and the limits hold.  The
    operations are imports of transactions with new insertion identifiers,
    removals, culls and clears, under options that allow at least one transaction
    per sender, fewer than [usize::MAX] in all and at most 2^63 bytes, and a
    scoring that meets [ScoringLaws]: total orders, and no two transactions kept
    for one slot. *)
Theorem pool_reachable (o : Options) p :
  options_ok o -> rtc pool_step (Pool_new o) p -> pool_ok p /\ within p /\ options p = o.
Proof.
  intros Ho Hrtc. refine (rtc_ind_r (fun q => pool_ok q /\ within q /\ options q = o) (Pool_new o) _ _ p Hrtc).
  - destruct Ho as (_ & ? & _ & ? & _). destruct (pool_new_ok (T := T) (Score := Score) o); [done..|]. done.
  - intros q q' _ Hst (Hok & Hwi & Heq). rewrite <-Heq in Ho. destruct (step_ok q q' Hst Hok Hwi Ho) as (? & ? & ->). done.
Qed.

(** [Pool::remove] by hash takes out exactly the transaction with that hash
    (or nothing, and then says so), adjusts the counter and tells the listener
    why. *)
Theorem remove_correct p (h : Z) (invalid : bool) :
  pool_ok p ->
  match by_hash p !! h with
  | Some t => exists p', remove (E := PoolError) p h invalid = Ok (true, p') /\ pool_ok p' /\
      (forall t', holds p' t' <-> holds p t' /\ t' <> t) /\
      pool_mem_usage p' = pool_mem_usage p - mem_usage t /\
      listener p' = listener p ++ [if invalid then Invalidated t else Cancelled t]
  | None => remove (E := PoolError) p h invalid = Ok (false, p)
  end.
Proof.
  intros Hok. pose proof (remove_ok (E := PoolError) p h invalid Hok) as Hr. destruct (by_hash p !! h); [|done].
  destruct Hr as (p' & ? & ? & _ & ? & _ & ? & ?). by exists p'.
Qed.

(** C31: [Pool::cull] with a readiness that depends on the transaction alone
    removes only stalled transactions of the given senders, leaves none of these
    senders with a stalled transaction in front, leaves the other senders alone,
    and returns the number it announced to the listener as mined.  The pool is
    consistent and its options as for [pool_reachable]; the scoring meets
    [ScoringLaws]. *)
Theorem cull_correct (f : T -> Readiness) p (senders : list Z) :
  pool_ok p -> within p -> options_ok (options p) ->
  exists out p', cull (H1 := fn_ready f) (E := PoolError) p (Some senders) tt = Ok (len out, p') /\ pool_ok p' /\
    listener p' = listener p ++ (Mined <$> out) /\
    (forall t, holds p t <-> holds p' t \/ t ∈ out) /\
    (forall t, t ∈ out -> sender t ∈ senders /\ f t = Stalled /\ ~ holds p' t) /\
    (forall s, ~ s ∈ senders -> transactions p' !! s = transactions p !! s) /\
    (forall s set t, s ∈ senders -> transactions p' !! s = Some set -> txs set !! 0%nat = Some t -> f t <> Stalled).
Proof.
  intros Hok [Hc _] (_ & _ & Hc64 & _).
  destruct (cull_stateless f (E := PoolError) senders p 0 Hok) as (out & p' & Hcull & Hd & Hout & Hother & Hfront); [lia|lia|].
  exists out, p'. split; [done|]. destruct Hd as [Hok' _ Hh Ho _ _ Hl]. split_and!; try done.
  intros t Ht. destruct (Hout t Ht). split; [done|]. split; [done|]. by apply Ho.
Qed.

(** C32: the pending iterator of a consistent pool, with a scoring of
    [ScoringLaws], ends, yields no transaction twice, and yields of every sender
    a prefix of its transactions, in their order. *)
Theorem pending_correct {R : Type} `{Ready R T} p (r : R) :
  pool_ok p ->
  exists l, pending_all (E := PoolError) (S (size (by_hash p))) p (pending p r) = Ok l /\ NoDup l /\
    (forall t, t ∈ l -> holds p t) /\
    (forall s set, transactions p !! s = Some set -> from s l `prefix_of` txs set).
Proof.
  intros Hok. destruct (iter_start p Hok) as [Hit _].
  destruct (pending_all_ok (E := PoolError) (S (size (by_hash p))) p r [] _ Hok Hit) as (l & Hl & [Hnd Hh Hp] & _); [simpl; lia|].
  by exists l.
Qed.

(** C33: no transaction is forgotten: when every transaction is ready, the
    iterator of a consistent pool, with a scoring of [ScoringLaws], yields every
    transaction of the pool. *)
Theorem pending_complete {R : Type} `{Ready R T} p (r : R) t :
  pool_ok p -> (forall (r : R) t, fst (is_ready r t) = IsReady) -> holds p t ->
  exists l, pending_all (E := PoolError) (S (size (by_hash p))) p (pending p r) = Ok l /\ t ∈ l.
Proof.
  intros Hok Har Ht. destruct (iter_start p Hok) as [Hit Hu].
  destruct (pending_all_ok (E := PoolError) (S (size (by_hash p))) p r [] _ Hok Hit) as (l & Hl & _ & Hall); [simpl; lia|].
  exists l. split; [done|]. by apply Hall.
Qed.

(** [Pool::status] classifies every transaction of the pool exactly once:
    the stalled, pending and future ones add up to the number of transactions
    [Pool::light_status] reports. *)
Theorem status_partition {R : Type} `{Ready R T} p (r : R) :
  pool_ok p ->
  st_stalled (status p r) + st_pending (status p r) + st_future (status p r) = ls_transaction_count (light_status p).
Proof.
  intros Hok. cbn [light_status ls_transaction_count]. rewrite <-all_txs_size by done.
  exact (status_fold_counted (map_to_list (transactions p)) (mkStatus 0 0 0) r).
Qed.
End theorems.

(** ** Witnesses *)
Definition pool_ab : Pool TestTx Z := after (import pool_a tx_b).
Definition price_ready (t : TestTx) : Readiness := if tt_gas_price t <? 6 then Stalled else IsReady.

Lemma import_correct_witness :
  exists out replaced, listener pool_ab = listener pool_a ++ (Dropped <$> out) ++ [Added tx_b replaced].
Proof.
  destruct pool_a_ok as (Hok & Hwi & _).
  pose proof (import_correct pool_a tx_b Hok Hwi test_options_ok (pool_a_fresh tx_b ltac:(discriminate))) as Hp. unfold pool_ab.
  destruct (import pool_a tx_b) as [[t p]|[e p]|] eqn:Hi; [|by vm_compute in Hi..].
  destruct Hp as (_ & _ & _ & _ & out & replaced & Hl & _). by exists out, replaced.
Defined.

Lemma pool_reachable_witness : pool_ok pool_ab /\ within pool_ab /\ options pool_ab = test_options.
Proof.
  apply (pool_reachable test_options); [exact test_options_ok|].
  apply (rtc_l _ _ pool_a).
  - apply (step_import _ tx_a _ tx_a); [apply new_fresh|vm_compute; reflexivity].
  - apply rtc_once, (step_import _ tx_b _ tx_b); [apply pool_a_fresh; discriminate|vm_compute; reflexivity].
Defined.

Lemma remove_correct_witness :
  exists p', remove (E := PoolError) pool_a 10 true = Ok (true, p') /\ ~ holds p' tx_a.
Proof.
  destruct pool_a_ok as (Hok & _ & _). pose proof (remove_correct pool_a 10 true Hok) as Hr.
  assert (Hh : by_hash pool_a !! 10 = Some tx_a) by (vm_compute; reflexivity). rewrite Hh in Hr.
  destruct Hr as (p' & Hrm & _ & Hheld & _). exists p'. split; [exact Hrm|]. intros Ht. apply Hheld in Ht as [_ Hne]. by apply Hne.
Defined.

Lemma cull_correct_witness :
  exists (out : list TestTx) p', cull (H1 := fn_ready price_ready) (E := PoolError) pool_a (Some [1]) tt = Ok (len out, p') /\ pool_ok p'.
Proof.
  destruct pool_a_ok as (Hok & Hwi & _).
  destruct (cull_correct price_ready pool_a [1] Hok Hwi test_options_ok) as (out & p' & Hc & Hok' & _). by exists out, p'.
Defined.

Lemma pending_correct_witness :
  exists l, pending_all (H1 := fn_ready price_ready) (E := PoolError) (S (size (by_hash pool_a))) pool_a (pending pool_a tt) = Ok l /\ NoDup l.
Proof.
  destruct (pending_correct (H2 := fn_ready price_ready) pool_a tt (proj1 pool_a_ok)) as (l & Hl & Hnd & _). by exists l.
Defined.

Lemma pending_complete_witness :
  exists l, pending_all (H1 := fn_ready (fun _ => IsReady)) (E := PoolError) (S (size (by_hash pool_a))) pool_a (pending pool_a tt) = Ok l /\ tx_a ∈ l.
Proof.
  apply (pending_complete (H2 := fn_ready (fun _ => IsReady)) pool_a tt tx_a (proj1 pool_a_ok)); [done|].
  apply (ok_indexed pool_a (proj1 pool_a_ok) 10). vm_compute. reflexivity.
Defined.

Lemma status_partition_witness :
  let st := status (H1 := fn_ready price_ready) pool_a tt in
  st_stalled st + st_pending st + st_future st = ls_transaction_count (light_status pool_a).
Proof. exact (status_partition (H2 := fn_ready price_ready) pool_a tt (proj1 pool_a_ok)). Defined.

(** ** Corners *)

(** The documentation describes a scoring whose [choose] compares gas prices: it
    is lawful.  [Transactions::add] asks it also for transactions of different
    nonces, so that a transaction with a new nonce is rejected in favour of a
    dearer one with the next nonce. *)
Definition DocumentedScoring : Scoring TestTx Z := {|
  score_cmp := Z.compare;
  score_default := 0;
  compare old new := (tt_nonce old ?= tt_nonce new);
  choose old new := if tt_gas_price old <? tt_gas_price new then ReplaceOld else RejectNew;
  update_scores txs scores _ := (tt_gas_price <$> take (length scores) txs) ++ drop (length txs) scores;
  should_replace old new := (tt_gas_price old <? tt_gas_price new);
|}.

Lemma DocumentedScoring_laws : @ScoringLaws TestTx Z DocumentedScoring.
Proof.
  split; cbn [choose DocumentedScoring]; try apply DummyScoring_laws. intros old new _. by case_match.
Qed.

Example documented_scoring_rejects :
  let import := import (H0 := DocumentedScoring) in
  let p := after (import (Pool_new test_options) tx_b) in
  listener p = [Added tx_b None] /\ listener (after (import p tx_a)) = [Added tx_b None; Rejected tx_a].
Proof. vm_compute. done. Qed.

(** With [max_per_sender = 0], a rejected import leaves an empty entry for the
    sender: the number of senders grows although nothing was imported. *)
Example rejected_sender_is_counted :
  let p := after (import (Pool_new (mkOptions 3 0 100)) tx_a) in
  ls_transaction_count (light_status p) = 0 /\ ls_senders (light_status p) = 1.
Proof. vm_compute. done. Qed.

(** A full pool drops its worst transaction for a better newcomer before it
    finds that the newcomer does not replace its own sender's transaction:
    [tx_c] leaves the pool, and the transaction it made room for is rejected. *)
Example eviction_then_rejection :
  let tx_b' := mkTestTx 13 1 7 1 4 4 eq_refl in
  let p0 := after (import (Pool_new (mkOptions 2 2 100)) tx_b) in
  let p1 := after (import p0 tx_c) in
  listener (after (import p1 tx_b')) = listener p1 ++ [Dropped tx_c; Rejected tx_b'].
Proof. vm_compute. reflexivity. Qed.
